(* ===== verification/_CoqProject ===== *)
-Q . S2P
Prelude.v
Digits.v
Sds.v
SdsText.v
Resp.v
Reply.v
ReplyHeap.v
Reader.v
ReaderSpec.v
ReaderRun.v
Format.v
FormatSpec.v
Dict.v
DictSpec.v
DictRun.v
Socket.v
Net.v
NetPosix.v
Context.v
ContextSpec.v
ContextRun.v
Callbacks.v
Async.v
AsyncCommand.v
AsyncSpec.v
AsyncFree.v
AsyncServe.v
AsyncRun.v
Adapters.v
FastBuffer.v
Queues.v
MemStuff.v
Mysql.v
MysqlRun.v
XmlText.v
XmlTextSpec.v
Xml.v
XmlSpec.v
XmlPrinter.v
DynArray.v
XmlBuffer.v
XmlTree.v
XmlLoad.v
XmlSave.v
XmlRun.v
XmlEdit.v
XmlStream.v
XmlDom.v
XmlDomSpec.v
XmlDomRun.v
XmlNavigate.v
XmlPool.v
XmlPoolRun.v
Json.v
JsonParser.v
Ssl.v
SslSpec.v
Messages.v
Protocol.v
ProtocolSpec.v
SslReference.v
ProtocolRun.v
EventLoop.v
EventLoopSpec.v
EventLoopRun.v
Logger.v
Redis.v
Server.v
ServerSpec.v
ServerSession.v
ServerLoop.v
ServerReach.v
ServerThreads.v
ServerLogin.v
ServerRun.v
System.v
SystemRun.v
Cfg.v
CfgRun.v
RedisRun.v
