(* ===== verification/Prelude.v ===== *)
(** * Verification of the yymms server and its redis client

    The repository is a server of the YY platform: a client logs in over TCP, the
    server keeps a session for it, starts a shell client that opens media urls
    for it, and answers JSON messages in frames, encrypted or in clear.  The
    server talks to a redis server through a copy of hiredis for Windows.  This
    development models the server and hiredis, each function as the code has it,
    and proves what makes them correct, and where they are not.

    ** Parts, and where they are modelled

    The redis client, bottom up (src/win32/hiredis, src/include/hiredis):
    - [Sds], [SdsText] (sds.c): strings with a header and their text functions;
    - [Resp] is the protocol as a grammar, [Reply] and [ReplyHeap] the reply
      objects of hiredis.c on their heap, [Reader] the reader of hiredis.c,
      [ReaderSpec] that it refines the parser of [Resp], [ReaderRun] its
      properties;
    - [Format] (the formatting half of hiredis.c) and [FormatSpec];
    - [Dict] (dict.c), [DictSpec] and [DictRun]: the table is a finite map;
    - [Socket] is the system below a connection, [Net] and [NetPosix] are the
      Windows and the POSIX branches of net.c, [Context] the contexts of hiredis.c,
      [ContextSpec] and [ContextRun] their contract;
    - [Callbacks] and [Async] (async.c); [AsyncCommand], [AsyncSpec], [AsyncFree]
      and [AsyncServe] prove the parts of its contract, [AsyncRun] has the
      properties;
    - [Adapters] (adapters/libevent.h, and yyredis.cpp, which has the same
      functions): what is between a connection and the event library.

    The server, bottom up (src/include, src/src):
    - [FastBuffer] (fastbuffer.h), [Queues] (event_hash.h, lockqueue.h,
      lockqueuemap.h, util.h) and [MemStuff] (memstuff.h): its containers;
    - [Json] (yyjson.h) and [Ssl] (yyssl.h): JSON over json-c, and blocks and
      base64 over OpenSSL, with [SslSpec] on the round trips;
    - [Messages] and [Protocol] (jsonprotocol.h): the messages, their frames and
      envelopes, with [ProtocolSpec] and [ProtocolRun];
    - [EventLoop] (yylibevent.cpp, event_msgqueue.h), with [EventLoopSpec] and
      [EventLoopRun];
    - [Server] (cmdproc.cpp, yymms_svr.cpp, mmsexecmag.cpp): sessions, login,
      commands, the shell client and the worker threads; [ServerSpec],
      [ServerSession], [ServerLoop], [ServerReach], [ServerThreads] and
      [ServerLogin] prove the parts of its contract, [ServerRun] has the
      properties;
    - [Mysql] (yylibmysql.h, yylibmysql.cpp): prepared statements, whose values
      are bound from and to allocations of an arena, with [MysqlRun];
    - [Redis] (yyredis.h, yyredis.cpp): the client that hands the commands of the
      workers to the asynchronous client, with its properties in [RedisRun]; the
      server of [Server] contains one;
    - [Logger] (logger.h, winlogger.h, and the clock of yyredis.cpp): the logs of
      both systems, and time in milliseconds;
    - [XmlText], [Xml] and [XmlPrinter] (tinyxml2.cpp): strings, parser and printer
      of the XML library; [XmlTextSpec] has the reference for its strings, [XmlSpec]
      that the parser ends, [XmlTree] the trees that documents say and their
      layouts, [XmlLoad] and [XmlSave] that layouts are parsed back and that the
      printer writes them, [XmlRun] the properties; [XmlEdit] changes attributes and
      makes nodes, [XmlDom] has the links between nodes, as a heap, and
      [XmlDomSpec] and [XmlDomRun] that editing them is editing lists of children,
      which [XmlNavigate] walks over; [XmlStream] writes without a tree; [DynArray]
      (tinyxml2.h) are the arrays that grow, [XmlBuffer] prints into one, [XmlPool]
      and [XmlPoolRun] are the pools that the objects of a document come from;
    - [Cfg] (cfg.cpp, main.cpp): the configuration and the start of the server,
      with [CfgRun];
    - [System] puts the server into the event loop: what its steps post is pushed
      into the queue of the loop, as [_sendCmd] does it; [SystemRun] has the
      property of the whole, and that of a login from socket to socket.

    A function of the source is the definition of its name (a prefix tells
    methods of the same name apart: [mms_init], [bm_Init]); a loop inside it is a
    definition of its own ([read_loop], [json_turn]); a struct is a [Record], an
    object that is shared lives in a map from addresses.  Components meet in
    classes: the reader and the client are over any functions that build replies
    ([ReplyBuilder], [ReplyDisposer]), the asynchronous client over any adapter
    ([Adapter]) of any event library ([EventLib]), the event loop over any client
    ([ILibEvent], with the laws [ILibEventLaw], which [System] proves for the
    server), the protocol over any json-c and OpenSSL that keep their
    documented promises ([JsonLaw], [JsonSize], [OpenSSLLaws]); [JsonParser] and
    [SslReference] are instances that show the promises can be kept, at which
    the properties are tried.

    ** Faults

    A function returns [Ok], or [Err] with a [fault]: undefined behaviour, a
    failed assertion, an exception nobody catches, a call that waits for ever,
    or a loop that has run out of its fuel.  A theorem that says [Ok] excludes
    them all.  Memory cells that have not been written are [None], and reading
    one is [Undefined]; so is an access out of bounds, through a null or dangling
    pointer, and a signed overflow.  Integers are [Z] with their width written
    out ([i32], [u32], [chk32]); [size_t], [long] and pointers have 32 bits, as
    the build files of win32/ say, but for the clock of Linux in [Logger].  A
    [char] is signed: where sds.c gives it to a function of ctype.h as it is, a byte
    above 127 is [Undefined] ([ctype_char]).

    ** What the theorems show

    - Reader: for any way the bytes are cut into pieces the reader gives the
      replies the grammar gives, in order, and nothing leaks; its errors; which
      length of a bulk string makes it take the wrong bytes.
    - Formatting: a format gives the argument vector its words stand for, and
      the bytes parse back to it; where %-directives misread their arguments.
    - Table: every sequence of operations is that of a finite map, each value is
      destroyed once, an iterator visits every entry once.
    - Connections and contexts: outcomes of connecting, on both systems, and that
      the socket a failing connection made is closed; commands arrive whole and
      replies come back in order; failures; no call of the non-blocking client
      waits.
    - Asynchronous client: callbacks meet their replies in order, whatever the
      callbacks do; all are called when a connection ends, and the entries of the
      tables released; with the adapter for libevent the watchers follow what waits
      to be sent, failed writes and lost connections included.
    - Strings: any sequence of operations is that of lists, as long as letters
      whose case is changed are ASCII; quoting.
    - Containers: a buffer is a queue of bytes, jobs reach their worker in order,
      allocations of an arena are disjoint.
    - Protocol: messages survive frames and envelopes; the outcome of the parser
      on any bytes.
    - Event loop: what a read delivers; posted buffers are sent in order,
      whatever the interleaving with other threads, as long as no send is
      partial.
    - MySQL bindings: a statement is bound to the values inserted, in their
      order and after the arena has grown, each in a region of the arena that
      overlaps no other.
    - Redis client of the server: commands keep their order, and which wait for
      ever; what a command becomes on the connection; when it connects again.
    - Logs: what is logged for a login, and for which accounts that goes wrong; a
      session with the event log.
    - Server: the login handshake up to the key the client decrypts; the loop of
      a connection ends, but for the one case in which it never does; in every
      reachable state sessions belong to their connections and a worker touches
      no session but that of its connection; jobs are taken in order and no wake-up
      is lost; ending comes to an end.
    - XML: what the printer writes is loaded as the same tree; strings are decoded
      in place to what a reference of its own gives, entity by entity; the parser ends and stays in its text; tags
      that cross are an error; editing keeps the links of the nodes in order, and
      walking sees each child once; calls of the printer write the tree they say;
      printing to memory and to a file are the same; objects keep their memory,
      whatever is made and deleted, and the leak check is exact.
    - Configuration: a file is read as its tree says, and the server starts with it.
    - The whole: the answers leave the server in the order they were posted; a
      login that arrives in pieces is answered on its socket by one buffer, which
      the client opens to the key of its session, or is refused and closed.

    The [Example]s in the files of properties, and some of the properties, show
    where the code falls short; each is evaluated on the model.

    ** Bounds and fuel

    Loops whose length depends on the input take fuel.  The fuel that is enough
    is part of the theorems or of the definitions: the reader takes two turns more
    than there are bytes, the table as many as it has entries, the block loops as many
    as there are bytes, the XML parser two steps a byte, [JsonProcess] more than there are bytes in the buffer,
    since every turn takes a frame of at least three bytes, and an envelope in an
    envelope is shorter.  Lengths are bounded where the code's own integers wrap:
    2^30 bytes in a buffer (its growth doubles in 32 bits), 2^16 in a frame (its
    length is a word).

    ** Not modelled

    - The branches for POSIX of files with two, but for net.c, the logs and the
      clock, and the release build: the configuration is the 32-bit Windows build
      with assertions.
    - The rest of main.cpp: opening the log, signal handlers.
    - Numbers with fractions in XML documents, and the handles of tinyxml2, which
      only test for null.
    - The adapters for libev and ae, which do not compile with this async.h.
    - Calls of [isdigit] and [tolower] in hiredis.c and async.c outside the strings:
      they too are given plain [char]s, and are modelled without that check.
    - What the server logs, but for logins ([Logger]); a file opened as text, in
      [SaveFile]; a flag that the socket pair of the loop does not take whole.
    - The stop watch of yytickout.h, which nothing includes, and the test client.
    - Scheduling below the steps: a method under a mutex, a handler of the event
      loop, and the turn of a worker are atomic.  Two workers share a session
      only through the shell client's port.
    - Release of memory by [delete] where nothing is read afterwards.
    - The headers of third-party libraries, and tests. *)

From stdpp Require Export base tactics list option gmap strings.
From Stdlib Require Export ZArith Lia.
From Stdlib Require Export Strings.Byte.

#[export] Set Default Goal Selector "!".
#[export] Set Warnings "-register-all".

Declare Scope mms_scope.
Delimit Scope mms_scope with mms.

Global Open Scope Z_scope.

(** ** Faults and the result monad

    A C function either returns, or stops the process (a failed [assert], the
    [exit] of [redisOOM]), or runs into undefined behaviour.  [NoFuel] is the
    value of a bounded loop that was given too little fuel, and [Blocked] the
    value of a blocking system call whose script of answers is exhausted.
    [Thrown] is an exception of the C++ library. *)

Inductive fault : Set := AssertFailed | OutOfMemory | Undefined | NoFuel | Blocked | Thrown.

#[global] Instance fault_eq_dec : EqDecision fault.
Proof. solve_decision. Defined.

Inductive result (A : Type) : Type :=
| Ok (a : A)
| Err (e : fault).
Arguments Ok {A} a.
Arguments Err {A} e.

#[global] Instance result_ret : MRet result := fun A a => Ok a.
#[global] Instance result_bind : MBind result :=
  fun A B f m => match m with Ok a => f a | Err e => Err e end.
#[global] Instance result_fmap : FMap result :=
  fun A B f m => match m with Ok a => Ok (f a) | Err e => Err e end.

#[global] Instance result_eq_dec `{EqDecision A} : EqDecision (result A).
Proof. solve_decision. Defined.

Definition of_option {A} (e : fault) (o : option A) : result A :=
  match o with Some a => Ok a | None => Err e end.

(** A C [assert] (the Debug configuration, where it is compiled in). *)
Definition c_assert (b : bool) : result unit :=
  if b then Ok tt else Err AssertFailed.

Definition is_Ok {A} (r : result A) : Prop := exists a, r = Ok a.

(** ** Machine integers *)

Definition wrapU (w z : Z) : Z := z mod 2 ^ w.
Definition wrapS (w z : Z) : Z := (z + 2 ^ (w - 1)) mod 2 ^ w - 2 ^ (w - 1).

Abbreviation u16 := (wrapU 16).
Abbreviation u32 := (wrapU 32).
Abbreviation u64 := (wrapU 64).
Abbreviation i16 := (wrapS 16).
Abbreviation i32 := (wrapS 32).
Abbreviation i64 := (wrapS 64).

Definition in_i32 (z : Z) : bool := (- 2 ^ 31 <=? z) && (z <? 2 ^ 31).
Definition in_i64 (z : Z) : bool := (- 2 ^ 63 <=? z) && (z <? 2 ^ 63).

(** Signed arithmetic whose overflow is undefined in C. *)
Definition chk32 (z : Z) : result Z := if in_i32 z then Ok z else Err Undefined.
Definition chk64 (z : Z) : result Z := if in_i64 z then Ok z else Err Undefined.

(** ** Bytes *)

#[global] Instance byte_eq_dec : EqDecision byte := Byte.byte_eq_dec.
#[global] Instance byte_countable : Countable byte := inj_countable Byte.to_N Byte.of_N Byte.of_to_N.

Definition b2z (b : byte) : Z := Z.of_N (Byte.to_N b).
Definition z2b (z : Z) : byte :=
  match Byte.of_N (Z.to_N (z mod 256)) with Some b => b | None => x00 end.

(** The value of a [char] (signed on both supported compilers). *)
Definition c2z (b : byte) : Z := wrapS 8 (b2z b).

Definition bytes (s : string) : list byte := String.list_byte_of_string s.

Definition zlen {A} (l : list A) : Z := Z.of_nat (length l).

(** ** Memory cells

    A heap block is a list of cells; a cell nobody has written yet is [None].
    Reading such a cell, and any access out of the block, is undefined. *)

Abbreviation cells := (list (option byte)).

Definition fresh_cells (n : Z) : cells := replicate (Z.to_nat n) None.

Definition peek (m : cells) (i : Z) : result byte :=
  if i <? 0 then Err Undefined
  else match m !! Z.to_nat i with
       | Some (Some b) => Ok b
       | _ => Err Undefined
       end.

Definition blit (m : cells) (off : Z) (bs : cells) : result cells :=
  if (0 <=? off) && (off + zlen bs <=? zlen m)
  then Ok (take (Z.to_nat off) m ++ bs ++ drop (Z.to_nat off + length bs) m)
  else Err Undefined.

Definition poke (m : cells) (i : Z) (b : byte) : result cells := blit m i [Some b].

(** [memcpy (m + off, src, n)] from a block of initialised bytes. *)
Definition memcpy (m : cells) (off : Z) (src : list byte) (n : Z) : result cells :=
  if (0 <=? n) && (n <=? zlen src)
  then blit m off (Some <$> take (Z.to_nat n) src)
  else Err Undefined.

Definition memset (m : cells) (off : Z) (b : byte) (n : Z) : result cells :=
  blit m off (replicate (Z.to_nat n) (Some b)).

(** [memmove (m + dst, m + src, n)] inside one block. *)
Definition memmove (m : cells) (dst src n : Z) : result cells :=
  if (0 <=? src) && (0 <=? n) && (src + n <=? zlen m)
  then blit m dst (take (Z.to_nat n) (drop (Z.to_nat src) m))
  else Err Undefined.

Definition realloc_cells (m : cells) (n : Z) : cells :=
  take (Z.to_nat n) m ++ fresh_cells (n - zlen m).

(** The C string in the cells from the start on. *)
Fixpoint cell_text (buf : cells) : result (list byte) :=
  match buf with
  | Some c :: buf => if bool_decide (c = x00) then Ok [] else t ← cell_text buf; Ok (c :: t)
  | _ => Err Undefined
  end.

(** ** C strings: a pointer to a NUL-terminated object is the list of the
    object's bytes, from the pointer on, the terminator included. *)

Fixpoint strlen (s : list byte) : result Z :=
  match s with
  | [] => Err Undefined
  | b :: s' => if bool_decide (b = x00) then Ok 0
               else n ← strlen s'; Ok (1 + n)
  end.

(** The bytes from [p] on, [p <= length]. *)
Definition at_ptr (s : list byte) (p : Z) : list byte := drop (Z.to_nat p) s.

(** [*(s + p)] in a block of initialised bytes. *)
Definition deref (s : list byte) (p : Z) : result byte :=
  if p <? 0 then Err Undefined else of_option Undefined (s !! Z.to_nat p).

Definition cstr (s : list byte) : list byte := s ++ [x00].

(** ** Character classes of the "C" locale *)

Definition isdigit (b : byte) : bool := (48 <=? b2z b) && (b2z b <=? 57).
Definition isspace (b : byte) : bool :=
  (b2z b =? 32) || ((9 <=? b2z b) && (b2z b <=? 13)).
Definition isprint (b : byte) : bool := (32 <=? b2z b) && (b2z b <=? 126).
Definition tolower (b : byte) : byte :=
  if (65 <=? b2z b) && (b2z b <=? 90) then z2b (b2z b + 32) else b.
Definition toupper (b : byte) : byte :=
  if (97 <=? b2z b) && (b2z b <=? 122) then z2b (b2z b - 32) else b.

(** The argument of these functions must be the value of an [unsigned char] or
    EOF; a plain [char] of 128 or more is negative, and passing it is undefined:
    [ctype_char] is the check of such an argument, made by the operations of
    [sds.c].  The calls of [hiredis.c] (676) and [async.c] (322, 485) are modelled
    without it: there a byte of 128 or more is no digit and has no other case, as
    in the tables of the C libraries. *)
Definition is_ascii (b : byte) : bool := b2z b <? 128.
Definition ctype_char (b : byte) : result byte :=
  if is_ascii b then Ok b else Err Undefined.

Lemma ctype_char_ascii b : is_ascii b = true -> ctype_char b = Ok b.
Proof. unfold ctype_char. by intros ->. Qed.

Lemma isprint_ascii b : isprint b = true -> is_ascii b = true.
Proof. unfold isprint, is_ascii. intros [_ ?%Z.leb_le]%andb_true_iff. apply Z.ltb_lt. lia. Qed.

Lemma isspace_ascii b : isspace b = true -> is_ascii b = true.
Proof.
  unfold isspace, is_ascii. intros [?%Z.eqb_eq|[_ ?%Z.leb_le]%andb_true_iff]%orb_true_iff;
    apply Z.ltb_lt; lia.
Qed.

(** ** Tactics *)

Create HintDb mms.

Ltac inv_bind H :=
  match type of H with
  | mbind _ ?m = Ok _ =>
      let E := fresh "E" in
      destruct m eqn:E; cbn in H; [| discriminate H]
  | (?m ≫= _) = Ok _ =>
      let E := fresh "E" in
      destruct m eqn:E; cbn in H; [| discriminate H]
  end.

Ltac zify_len :=
  unfold zlen, fresh_cells in *;
  repeat progress (rewrite ?length_app, ?length_fmap, ?length_take, ?length_drop,
    ?length_replicate, ?length_insert, ?length_map in *; cbn [length app] in *).

Ltac len_lia := zify_len; lia.

Ltac bool_lia :=
  repeat match goal with
  | H : _ && _ = true |- _ => apply andb_true_iff in H as [? ?]
  | H : _ || _ = false |- _ => apply orb_false_iff in H as [? ?]
  | H : (_ <=? _) = true |- _ => apply Z.leb_le in H
  | H : (_ <? _) = true |- _ => apply Z.ltb_lt in H
  | H : (_ =? _) = true |- _ => apply Z.eqb_eq in H
  | H : (_ <=? _) = false |- _ => apply Z.leb_gt in H
  | H : (_ <? _) = false |- _ => apply Z.ltb_ge in H
  | H : (_ =? _) = false |- _ => apply Z.eqb_neq in H
  end; try lia.

(** ** Lemmas on the result monad *)

Lemma bind_Ok {A B} (m : result A) (f : A -> result B) b :
  m ≫= f = Ok b <-> exists a, m = Ok a /\ f a = Ok b.
Proof.
  destruct m as [a|e]; cbn; split.
  - intros H. exists a. auto.
  - intros (a' & [= <-] & H). exact H.
  - discriminate.
  - intros (a' & [=] & _).
Qed.

Lemma bind_assoc {A B C} (m : result A) (f : A -> result B) (g : B -> result C) :
  (m ≫= f) ≫= g = m ≫= (fun a => f a ≫= g).
Proof. destruct m; reflexivity. Qed.

(** A computation that does not run out of fuel, and whose results satisfy [P]:
    faults of the program are allowed. *)
Definition runs {A} (r : result A) (P : A -> Prop) : Prop :=
  match r with Ok a => P a | Err e => e <> NoFuel end.

Lemma runs_bind {A B} (r : result A) (f : A -> result B) (P : A -> Prop) (Q : B -> Prop) :
  runs r P -> (forall a, P a -> runs (f a) Q) -> runs (r ≫= f) Q.
Proof. destruct r; cbn; auto. Qed.

Lemma runs_mono {A} (r : result A) (P Q : A -> Prop) :
  runs r P -> (forall a, P a -> Q a) -> runs r Q.
Proof. destruct r; cbn; auto. Qed.

Lemma runs_Ok {A} (r : result A) (P : A -> Prop) a : runs r P -> r = Ok a -> P a.
Proof. by intros Hr ->. Qed.

Lemma runs_option {A} (o : option A) (P : A -> Prop) :
  (forall a, o = Some a -> P a) -> runs (of_option Undefined o) P.
Proof. destruct o; cbn; auto. Qed.

Lemma c_assert_true b : b = true -> c_assert b = Ok tt.
Proof. intros ->. reflexivity. Qed.

(** ** Lemmas on machine integers *)

Lemma wrapU_range w z : 0 <= w -> 0 <= wrapU w z < 2 ^ w.
Proof. intros. apply Z.mod_pos_bound. lia. Qed.

Lemma wrapU_small w z : 0 <= z < 2 ^ w -> wrapU w z = z.
Proof. apply Z.mod_small. Qed.

Lemma wrapS_range w z : 0 < w -> - 2 ^ (w - 1) <= wrapS w z < 2 ^ (w - 1).
Proof.
  intros. unfold wrapS.
  pose proof (Z.mod_pos_bound (z + 2 ^ (w - 1)) (2 ^ w) ltac:(lia)).
  replace (2 ^ w) with (2 * 2 ^ (w - 1)) in * by
    (rewrite <- Z.pow_succ_r by lia; f_equal; lia).
  lia.
Qed.

Lemma wrapS_small w z : 0 < w -> - 2 ^ (w - 1) <= z < 2 ^ (w - 1) -> wrapS w z = z.
Proof.
  intros Hw Hz. unfold wrapS. rewrite Z.mod_small; [lia|].
  replace (2 ^ w) with (2 * 2 ^ (w - 1)) by
    (rewrite <- Z.pow_succ_r by lia; f_equal; lia).
  lia.
Qed.

Lemma u32_small z : 0 <= z < 2 ^ 32 -> u32 z = z.
Proof. apply wrapU_small. Qed.
Lemma i32_small z : - 2 ^ 31 <= z < 2 ^ 31 -> i32 z = z.
Proof. intros. apply wrapS_small; lia. Qed.

Lemma i32_u32 z : i32 (u32 z) = i32 z.
Proof. unfold wrapS, wrapU. by rewrite Zplus_mod_idemp_l. Qed.

(** An addend may be wrapped before it is added. *)
Lemma u32_add_l a b : u32 (u32 a + b) = u32 (a + b).
Proof. apply Zplus_mod_idemp_l. Qed.
Lemma u32_add_r a b : u32 (a + u32 b) = u32 (a + b).
Proof. apply Zplus_mod_idemp_r. Qed.

Lemma chk32_ok z : - 2 ^ 31 <= z < 2 ^ 31 -> chk32 z = Ok z.
Proof.
  intros [H1 H2]. unfold chk32, in_i32.
  rewrite (proj2 (Z.leb_le _ _) H1), (proj2 (Z.ltb_lt _ _) H2). reflexivity.
Qed.

Lemma chk64_ok z : - 2 ^ 63 <= z < 2 ^ 63 -> chk64 z = Ok z.
Proof.
  intros [H1 H2]. unfold chk64, in_i64.
  rewrite (proj2 (Z.leb_le _ _) H1), (proj2 (Z.ltb_lt _ _) H2). reflexivity.
Qed.

Lemma b2z_range b : 0 <= b2z b < 256.
Proof.
  unfold b2z. pose proof (Byte.to_N_bounded b) as H. lia.
Qed.

Lemma b2z_inj b c : b2z b = b2z c -> b = c.
Proof.
  unfold b2z. intros H. apply N2Z.inj in H.
  pose proof (Byte.of_to_N b) as E1. pose proof (Byte.of_to_N c) as E2.
  rewrite H in E1. congruence.
Qed.

Lemma b2z_z2b z : 0 <= z < 256 -> b2z (z2b z) = z.
Proof.
  intros H. unfold z2b. rewrite Z.mod_small by lia.
  destruct (Byte.of_N (Z.to_N z)) as [b|] eqn:E.
  - apply Byte.to_of_N in E. unfold b2z. rewrite E. lia.
  - apply Byte.of_N_None_iff in E. lia.
Qed.

Lemma z2b_b2z b : z2b (b2z b) = b.
Proof. apply b2z_inj, b2z_z2b, b2z_range. Qed.

(** ** Lemmas on lists *)

Lemma zlen_nil {A} : zlen (@nil A) = 0.
Proof. reflexivity. Qed.
Lemma zlen_cons {A} (x : A) l : zlen (x :: l) = 1 + zlen l.
Proof. len_lia. Qed.
Lemma zlen_app {A} (l k : list A) : zlen (l ++ k) = zlen l + zlen k.
Proof. len_lia. Qed.
Lemma zlen_nonneg {A} (l : list A) : 0 <= zlen l.
Proof. len_lia. Qed.
Lemma zlen_fmap {A B} (f : A -> B) l : zlen (f <$> l) = zlen l.
Proof. len_lia. Qed.
Lemma zlen_take {A} n (l : list A) :
  0 <= n <= zlen l -> zlen (take (Z.to_nat n) l) = n.
Proof. len_lia. Qed.
Lemma zlen_drop {A} n (l : list A) :
  0 <= n <= zlen l -> zlen (drop (Z.to_nat n) l) = zlen l - n.
Proof. len_lia. Qed.
Lemma zlen_replicate {A} n (x : A) :
  0 <= n -> zlen (replicate (Z.to_nat n) x) = n.
Proof. len_lia. Qed.
Lemma to_nat_zlen {A} (l : list A) : Z.to_nat (zlen l) = length l.
Proof. len_lia. Qed.

Create Rewrite HintDb mms_len.
#[export] Hint Rewrite @zlen_nil @zlen_cons @zlen_app @zlen_fmap @to_nat_zlen : mms_len.
#[export] Hint Rewrite @zlen_take @zlen_drop @zlen_replicate using len_lia : mms_len.

Lemma take_length_take {A} n (l : list A) : take (length (take n l)) l = take n l.
Proof. revert n. induction l; intros [|n]; cbn; f_equal; auto. Qed.

Lemma lookup_cons_S {A} (x : A) l i : (x :: l) !! S i = l !! i.
Proof. reflexivity. Qed.

(** ** Lemmas on memory cells *)

Lemma blit_ok m off bs :
  0 <= off -> off + zlen bs <= zlen m ->
  blit m off bs =
    Ok (take (Z.to_nat off) m ++ bs ++ drop (Z.to_nat off + length bs) m).
Proof.
  intros H1 H2. unfold blit.
  rewrite (proj2 (Z.leb_le _ _) H1), (proj2 (Z.leb_le _ _) H2). reflexivity.
Qed.

(** Writing right behind a known prefix. *)
Lemma blit_app pre bs rest off :
  off = zlen pre -> zlen bs <= zlen rest ->
  blit (pre ++ rest) off bs = Ok (pre ++ bs ++ drop (length bs) rest).
Proof.
  intros -> H. rewrite blit_ok by len_lia. rewrite to_nat_zlen.
  rewrite take_app_length.
  rewrite <- drop_drop. rewrite drop_app_length. reflexivity.
Qed.

Lemma memcpy_ok m off src n :
  0 <= n <= zlen src -> 0 <= off -> off + n <= zlen m ->
  memcpy m off src n =
    Ok (take (Z.to_nat off) m ++ (Some <$> take (Z.to_nat n) src) ++
        drop (Z.to_nat off + Z.to_nat n) m).
Proof.
  intros [H1 H2] H3 H4. unfold memcpy.
  rewrite (proj2 (Z.leb_le _ _) H1), (proj2 (Z.leb_le _ _) H2). cbn [andb].
  rewrite blit_ok by len_lia. repeat f_equal. len_lia.
Qed.

Lemma peek_app_l (v : list byte) m i :
  0 <= i < zlen v ->
  peek ((Some <$> v) ++ m) i = of_option Undefined (v !! Z.to_nat i).
Proof.
  intros H. unfold peek. destruct (Z.ltb_spec i 0); [lia|].
  rewrite lookup_app_l by len_lia. rewrite list_lookup_fmap.
  destruct (v !! Z.to_nat i) eqn:E; [reflexivity|].
  apply lookup_ge_None in E. len_lia.
Qed.

Lemma deref_lookup (s : list byte) p b :
  0 <= p -> s !! Z.to_nat p = Some b -> deref s p = Ok b.
Proof.
  intros H E. unfold deref. destruct (Z.ltb_spec p 0); [lia|]. by rewrite E.
Qed.

Lemma deref_app (s : list byte) b t p :
  p = zlen s -> deref (s ++ b :: t) p = Ok b.
Proof.
  intros ->. apply deref_lookup; [apply zlen_nonneg|].
  rewrite to_nat_zlen. apply list_lookup_middle. reflexivity.
Qed.

(** ** Lemmas on C strings *)

Lemma strlen_cstr s t : x00 ∉ s -> strlen (s ++ x00 :: t) = Ok (zlen s).
Proof.
  induction s as [|b s IH]; intros Hn; cbn.
  - reflexivity.
  - rewrite not_elem_of_cons in Hn. destruct Hn as [Hb Hs].
    rewrite bool_decide_eq_false_2 by congruence.
    rewrite IH by exact Hs. cbn. f_equal. len_lia.
Qed.

Lemma cell_text_spec (s : list byte) rest : x00 ∉ s -> cell_text ((Some <$> (s ++ [x00])) ++ rest) = Ok s.
Proof.
  induction s as [|c s IH]; intros H0; cbn [app fmap list_fmap cell_text]; [by rewrite bool_decide_eq_true_2|].
  apply not_elem_of_cons in H0 as [Hc H0]. rewrite bool_decide_eq_false_2 by done.
  fold (fmap (M := list) (@Some byte)). by rewrite IH.
Qed.

Lemma bytes_app s t : bytes (s +:+ t) = bytes s ++ bytes t.
Proof.
  induction s as [|a s IH]; [reflexivity|].
  change (bytes (String a (s +:+ t)) = Ascii.byte_of_ascii a :: (bytes s ++ bytes t)).
  rewrite <- IH. reflexivity.
Qed.
