(* ===== verification/Digits.v ===== *)
(** * Decimal numerals

    What [printf]'s [%d], [%u] and [%llu] print, with the facts the parser and
    the formatters of the development share. *)

From S2P Require Import Prelude.

Definition digit (d : Z) : byte := z2b (48 + d).

Fixpoint print_fuel (fuel : nat) (v : Z) : list byte :=
  match fuel with
  | O => []
  | S fuel => if v <? 10 then [digit v]
              else print_fuel fuel (v / 10) ++ [digit (v mod 10)]
  end.

(** [%u] / [%llu]: a number has at most one digit more than bits. *)
Definition print_u (v : Z) : list byte := print_fuel (S (Z.to_nat (Z.log2 v))) v.

(** [%d] *)
Definition print_d (v : Z) : list byte :=
  if v <? 0 then x2d :: print_u (- v) else print_u v.

(** The value of a string of digits, most significant first. *)
Definition digits_value (acc : Z) (ds : list byte) : Z :=
  fold_left (fun a d => 10 * a + (b2z d - 48)) ds acc.

Lemma log2_div10 v : 10 <= v -> Z.log2 (v / 10) < Z.log2 v.
Proof.
  intros H. assert (v / 10 <= v / 2) as Hle by (apply Z.div_le_compat_l; lia).
  pose proof (Z.log2_le_mono _ _ Hle).
  assert (Z.log2 (v / 2) = Z.log2 v - 1); [|lia].
  change 2 with (2 ^ 1). rewrite <- Z.shiftr_div_pow2 by lia.
  rewrite Z.log2_shiftr by lia. pose proof (Z.log2_le_mono 2 v ltac:(lia)).
  change (Z.log2 2) with 1 in *. lia.
Qed.

Lemma print_fuel_enough : forall n m v,
  0 <= v -> (Z.to_nat (Z.log2 v) < n)%nat -> (Z.to_nat (Z.log2 v) < m)%nat ->
  print_fuel n v = print_fuel m v.
Proof.
  induction n as [|n IH]; intros [|m] v Hv Hn Hm; try lia. cbn.
  destruct (Z.ltb_spec v 10) as [|Hge]; [done|].
  pose proof (log2_div10 v ltac:(lia)). pose proof (Z.log2_nonneg (v / 10)).
  f_equal. apply IH; [apply Z.div_pos; lia|lia|lia].
Qed.

Lemma print_u_small v : 0 <= v < 10 -> print_u v = [digit v].
Proof.
  intros H. unfold print_u. cbn [print_fuel].
  by rewrite (proj2 (Z.ltb_lt v 10)) by lia.
Qed.

Lemma print_u_step v :
  10 <= v -> print_u v = print_u (v / 10) ++ [digit (v mod 10)].
Proof.
  intros H. unfold print_u at 1. cbn [print_fuel].
  rewrite (proj2 (Z.ltb_ge v 10)) by lia. f_equal.
  pose proof (log2_div10 v H). pose proof (Z.log2_nonneg (v / 10)).
  apply print_fuel_enough; [apply Z.div_pos; lia|lia|lia].
Qed.

(** Induction along the digits of a number. *)
Lemma print_u_ind (P : Z -> Prop) :
  (forall v, 0 <= v < 10 -> P v) ->
  (forall v, 10 <= v -> P (v / 10) -> P v) ->
  forall v, 0 <= v -> P v.
Proof.
  intros Hsmall Hstep v Hv. revert v Hv.
  enough (H : forall x, 0 <= x -> 0 <= x -> P x) by auto.
  apply (Z_lt_induction (fun x => 0 <= x -> P x)).
  intros x IH Hx. destruct (Z.lt_ge_cases x 10); [auto|].
  apply Hstep; [done|]. apply IH; [|apply Z.div_pos; lia].
  split; [apply Z.div_pos; lia|apply Z.div_lt; lia].
Qed.

Lemma b2z_digit d : 0 <= d < 10 -> b2z (digit d) = 48 + d.
Proof. intros. apply b2z_z2b. lia. Qed.

Lemma print_u_isdigit v : 0 <= v -> Forall (fun b => isdigit b = true) (print_u v).
Proof.
  revert v. apply print_u_ind.
  - intros v Hv. rewrite print_u_small by done. constructor; [|done].
    unfold isdigit. rewrite b2z_digit by done. lia.
  - intros v Hv IH. rewrite print_u_step by done. apply Forall_app. split; [done|].
    constructor; [|done]. unfold isdigit.
    pose proof (Z.mod_pos_bound v 10 ltac:(lia)).
    rewrite b2z_digit by done. lia.
Qed.

Lemma print_u_nonempty v : 0 <= v -> print_u v <> [].
Proof.
  intros Hv. destruct (Z.lt_ge_cases v 10).
  - by rewrite print_u_small.
  - rewrite print_u_step by done. by destruct (print_u (v / 10)).
Qed.

Lemma digits_value_app acc ds es :
  digits_value acc (ds ++ es) = digits_value (digits_value acc ds) es.
Proof. apply fold_left_app. Qed.

Lemma digits_value_print v : 0 <= v -> digits_value 0 (print_u v) = v.
Proof.
  revert v. apply print_u_ind.
  - intros v Hv. rewrite print_u_small by done. cbn. rewrite b2z_digit by done. lia.
  - intros v Hv IH. rewrite print_u_step by done. rewrite digits_value_app, IH. cbn.
    pose proof (Z.mod_pos_bound v 10 ltac:(lia)).
    rewrite b2z_digit by done. rewrite (Z.div_mod v 10) at 3 by lia. lia.
Qed.

(** A number below [10 ^ n] has at most [n] digits. *)
Lemma print_u_length n : forall v,
  0 <= v < 10 ^ Z.of_nat n -> (0 < n)%nat -> zlen (print_u v) <= Z.of_nat n.
Proof.
  induction n as [|n IH]; intros v Hv Hn; [lia|].
  destruct (Z.lt_ge_cases v 10).
  - rewrite print_u_small by lia. len_lia.
  - rewrite print_u_step by done.
    assert (Hn0 : (0 < n)%nat).
    { destruct n; [|lia]. change (10 ^ Z.of_nat 1) with 10 in Hv. lia. }
    rewrite Nat2Z.inj_succ, Z.pow_succ_r in Hv by lia.
    specialize (IH (v / 10)).
    assert (0 <= v / 10 < 10 ^ Z.of_nat n).
    { split; [apply Z.div_pos; lia|apply Z.div_lt_upper_bound; lia]. }
    rewrite zlen_app, zlen_cons, zlen_nil. specialize (IH H0 Hn0). lia.
Qed.

Lemma isdigit_not b c : isdigit b = true -> isdigit c = false -> b <> c.
Proof. intros H1 H2 ->. congruence. Qed.

Lemma print_d_no b v :
  isdigit b = false -> b <> x2d -> b ∉ print_d v.
Proof.
  intros Hb Hm Hin. unfold print_d in Hin.
  destruct (Z.ltb_spec v 0).
  - apply elem_of_cons in Hin as [?|Hin]; [done|].
    pose proof (print_u_isdigit (- v) ltac:(lia)) as Hd.
    rewrite Forall_forall in Hd. specialize (Hd b Hin). congruence.
  - pose proof (print_u_isdigit v ltac:(lia)) as Hd.
    rewrite Forall_forall in Hd. specialize (Hd b Hin). congruence.
Qed.

(** A number of 32 bits. *)
Lemma print_d_text z : - 2 ^ 31 <= z < 2 ^ 31 -> (x00 ∉ print_d z) /\ zlen (print_d z) <= 11.
Proof.
  intros Hz. split; [by apply print_d_no|]. unfold print_d.
  assert (forall v, 0 <= v <= 2 ^ 31 -> zlen (print_u v) <= 10) as Hu.
  { intros v Hv. apply (print_u_length 10); lia. }
  destruct (Z.ltb_spec z 0); [rewrite zlen_cons; specialize (Hu (- z)); lia|specialize (Hu z); lia].
Qed.
