(* ===== verification/Sds.v ===== *)
(** * Dynamic strings ([win32/hiredis/sds.c], [include/hiredis/sds.h])

    A string is its header record: the two [int] counters and the cells of the
    block behind them.  An [sds] value of the C code points to the first cell;
    operations that may reallocate return the new string, as the C code does.
    Allocation never fails in the model: the library aborts the process when it
    does ([sdsOomAbort]).  [size_t] and [unsigned long] have 32 bits (the build
    files under win32/ have the platform Win32 only). *)

From S2P Require Import Prelude Digits.

Record sdshdr := Sdshdr { sds_len : Z; sds_free : Z; sds_buf : cells }.

(** [sizeof(struct sdshdr)]: two [int]s, the buffer is a flexible member. *)
Definition sizeof_sdshdr : Z := 8.

Definition sdslen (s : sdshdr) : Z := u32 (sds_len s).
Definition sdsavail (s : sdshdr) : Z := u32 (sds_free s).

(** The number of buffer cells of a block of [sizeof(struct sdshdr)+n+1] bytes,
    the sum computed in [size_t]. *)
Definition sds_room (n : Z) : result Z :=
  let sz := u32 (sizeof_sdshdr + n + 1) in
  if sz <? sizeof_sdshdr then Err Undefined else Ok (sz - sizeof_sdshdr).

Definition sdsnewlen (init : option (list byte)) (initlen : Z) : result sdshdr :=
  n ← sds_room initlen;
  let buf := fresh_cells n in
  buf ← (if initlen =? 0 then Ok buf
         else match init with
              | Some src => memcpy buf 0 src initlen
              | None => memset buf 0 x00 initlen
              end);
  buf ← poke buf initlen x00;
  Ok (Sdshdr (i32 initlen) 0 buf).

Definition sdsempty : result sdshdr := sdsnewlen (Some [x00]) 0.

Definition sdsnew (init : option (list byte)) : result sdshdr :=
  initlen ← (match init with None => Ok 0 | Some p => strlen p end);
  sdsnewlen init initlen.

(** The initialised bytes of a string, up to the first cell nobody wrote. *)
Fixpoint cell_bytes (m : cells) : list byte :=
  match m with Some b :: m' => b :: cell_bytes m' | _ => [] end.

Definition sdsdup (s : sdshdr) : result sdshdr :=
  sdsnewlen (Some (cell_bytes (sds_buf s))) (sdslen s).

Definition sdsupdatelen (s : sdshdr) : result sdshdr :=
  reallen ← strlen (cell_bytes (sds_buf s));
  d ← chk32 (sds_len s - i32 reallen);
  f ← chk32 (sds_free s + d);
  Ok (Sdshdr (i32 reallen) f (sds_buf s)).

Definition sdsMakeRoomFor (s : sdshdr) (addlen : Z) : result sdshdr :=
  let free := sdsavail s in
  if addlen <=? free then Ok s
  else
    let len := sdslen s in
    let newlen := u32 (u32 (len + addlen) * 2) in
    n ← sds_room newlen;
    Ok (Sdshdr (sds_len s) (i32 (newlen - len)) (realloc_cells (sds_buf s) n)).

Definition sdsgrowzero (s : sdshdr) (len : Z) : result sdshdr :=
  let curlen := u32 (sds_len s) in
  if len <=? curlen then Ok s
  else
    s ← sdsMakeRoomFor s (len - curlen);
    buf ← memset (sds_buf s) curlen x00 (u32 (len - curlen + 1));
    let totlen := u32 (sds_len s + sds_free s) in
    let newlen := i32 len in
    Ok (Sdshdr newlen (i32 (totlen - newlen)) buf).

Definition sdscatlen (s : sdshdr) (t : list byte) (len : Z) : result sdshdr :=
  let curlen := sdslen s in
  s ← sdsMakeRoomFor s len;
  buf ← memcpy (sds_buf s) curlen t len;
  buf ← poke buf (u32 (curlen + len)) x00;
  Ok (Sdshdr (i32 (curlen + len)) (i32 (sds_free s - len)) buf).

Definition sdscat (s : sdshdr) (t : list byte) : result sdshdr :=
  n ← strlen t;
  sdscatlen s t n.

Definition sdscpylen (s : sdshdr) (t : list byte) (len : Z) : result sdshdr :=
  let totlen := u32 (sds_free s + sds_len s) in
  '(s, totlen) ← (if totlen <? len then
                    s ← sdsMakeRoomFor s (u32 (len - sds_len s));
                    Ok (s, u32 (sds_free s + sds_len s))
                  else Ok (s, totlen));
  buf ← memcpy (sds_buf s) 0 t len;
  buf ← poke buf len x00;
  Ok (Sdshdr (i32 len) (i32 (totlen - len)) buf).

Definition sdscpy (s : sdshdr) (t : list byte) : result sdshdr :=
  n ← strlen t;
  sdscpylen s t n.

(** What [vsnprintf(buf, buflen, ...)] leaves in a block of [buflen] cells when
    the complete output of the format is [out]. *)
Definition vsnprintf (buf : cells) (buflen : Z) (out : list byte) : result cells :=
  let n := Z.min (zlen out) (buflen - 1) in
  blit buf 0 (Some <$> take (Z.to_nat n) out ++ [x00]).

(** The retry loop of [sdscatvprintf]: double the temporary buffer until its
    last but one byte stays NUL. *)
Fixpoint sdscatvprintf_loop (fuel : nat) (buflen : Z) (out : list byte) : result cells :=
  match fuel with
  | O => Err NoFuel
  | S fuel =>
      buf ← poke (fresh_cells buflen) (buflen - 2) x00;
      buf ← vsnprintf buf buflen out;
      b ← peek buf (buflen - 2);
      if bool_decide (b = x00) then Ok buf
      else sdscatvprintf_loop fuel (u32 (buflen * 2)) out
  end.

(** [out] is the complete formatted output of the format and its arguments. *)
Definition sdscatvprintf (s : sdshdr) (out : list byte) : result sdshdr :=
  buf ← sdscatvprintf_loop (S (length out)) 16 out;
  sdscat s (cell_bytes buf).

Definition sdscatprintf := sdscatvprintf.

(** [strchr(cset, c) != NULL]; the terminator belongs to the string searched. *)
Definition strchr_in (cset : list byte) (c : byte) : bool :=
  bool_decide (c = x00) || bool_decide (c ∈ cset).

Fixpoint trim_left (fuel : nat) (buf : cells) (cset : list byte) (sp end_ : Z) : result Z :=
  match fuel with
  | O => Err NoFuel
  | S fuel =>
      if sp <=? end_ then
        c ← peek buf sp;
        if strchr_in cset c then trim_left fuel buf cset (sp + 1) end_ else Ok sp
      else Ok sp
  end.

Fixpoint trim_right (fuel : nat) (buf : cells) (cset : list byte) (ep start : Z) : result Z :=
  match fuel with
  | O => Err NoFuel
  | S fuel =>
      if start <? ep then
        c ← peek buf ep;
        if strchr_in cset c then trim_right fuel buf cset (ep - 1) start else Ok ep
      else Ok ep
  end.

(** [cset] is the contents of the C string, without its terminator.  The two
    scans visit each byte of the string at most once. *)
Definition sdstrim (s : sdshdr) (cset : list byte) : result sdshdr :=
  let start := 0 in
  let end_ := sdslen s - 1 in
  let fuel := S (length (sds_buf s)) in
  sp ← trim_left fuel (sds_buf s) cset start end_;
  ep ← trim_right fuel (sds_buf s) cset end_ start;
  let len := if ep <? sp then 0 else ep - sp + 1 in
  buf ← (if sp =? 0 then Ok (sds_buf s) else memmove (sds_buf s) 0 sp len);
  buf ← poke buf len x00;
  Ok (Sdshdr (i32 len) (i32 (sds_free s + (sds_len s - len))) buf).

Definition sdsrange (s : sdshdr) (start end_ : Z) : result sdshdr :=
  let len := sdslen s in
  if len =? 0 then Ok s
  else
    let start := if start <? 0
                 then (let start := i32 (u32 (len + start)) in
                       if start <? 0 then 0 else start)
                 else start in
    let end_ := if end_ <? 0
                then (let end_ := i32 (u32 (len + end_)) in
                      if end_ <? 0 then 0 else end_)
                else end_ in
    let newlen := if end_ <? start then 0 else (end_ - start) + 1 in
    let '(start, newlen) :=
      if negb (newlen =? 0) then
        if i32 len <=? start then (start, 0)
        else if i32 len <=? end_ then
          (let end_ := i32 (len - 1) in
           (start, if end_ <? start then 0 else (end_ - start) + 1))
        else (start, newlen)
      else (0, newlen) in
    buf ← (if negb (start =? 0) && negb (newlen =? 0)
           then memmove (sds_buf s) 0 start newlen else Ok (sds_buf s));
    buf ← poke buf newlen x00;
    Ok (Sdshdr (i32 newlen) (i32 (sds_free s + (sds_len s - newlen))) buf).

Fixpoint map_chars (f : byte -> byte) (fuel : nat) (buf : cells) (j len : Z) : result cells :=
  match fuel with
  | O => Err NoFuel
  | S fuel =>
      if j <? len then
        c ← peek buf j;
        c ← ctype_char c;
        buf ← poke buf j (f c);
        map_chars f fuel buf (j + 1) len
      else Ok buf
  end.

Definition sdstolower (s : sdshdr) : result sdshdr :=
  buf ← map_chars tolower (length (sds_buf s)) (sds_buf s) 0 (i32 (sdslen s));
  Ok (Sdshdr (sds_len s) (sds_free s) buf).

Definition sdstoupper (s : sdshdr) : result sdshdr :=
  buf ← map_chars toupper (length (sds_buf s)) (sds_buf s) 0 (i32 (sdslen s));
  Ok (Sdshdr (sds_len s) (sds_free s) buf).

(** [memcmp], bytes compared as [unsigned char]; the sign of the result is the
    sign of the difference of the first bytes that differ. *)
Fixpoint memcmp (s t : list byte) (n : nat) : result Z :=
  match n, s, t with
  | O, _, _ => Ok 0
  | S n, a :: s, b :: t =>
      if bool_decide (a = b) then memcmp s t n else Ok (b2z a - b2z b)
  | _, _, _ => Err Undefined
  end.

Definition sdscmp (s1 s2 : sdshdr) : result Z :=
  let l1 := sdslen s1 in
  let l2 := sdslen s2 in
  let minlen := if l1 <? l2 then l1 else l2 in
  cmp ← memcmp (cell_bytes (sds_buf s1)) (cell_bytes (sds_buf s2)) (Z.to_nat minlen);
  if cmp =? 0 then Ok (i32 (u32 (l1 - l2))) else Ok cmp.

(** The [do] loop of [sdsfromlonglong]: at most twenty digits. *)
Fixpoint sdsfromlonglong_loop (fuel : nat) (buf : cells) (p v : Z) : result (cells * Z) :=
  match fuel with
  | O => Err NoFuel
  | S fuel =>
      buf ← poke buf p (z2b (48 + v mod 10));
      let p := p - 1 in
      let v := v / 10 in
      if v =? 0 then Ok (buf, p) else sdsfromlonglong_loop fuel buf p v
  end.

Definition sdsfromlonglong (value : Z) : result sdshdr :=
  v ← (if value <? 0 then chk64 (- value) else Ok value);
  '(buf, p) ← sdsfromlonglong_loop 20 (fresh_cells 32) 31 (u64 v);
  '(buf, p) ← (if value <? 0 then buf ← poke buf p x2d; Ok (buf, p - 1) else Ok (buf, p));
  let p := p + 1 in
  sdsnewlen (Some (cell_bytes (drop (Z.to_nat p) buf))) (32 - p).


(** ** The abstract string

    [sds_rep s v]: the string [s] holds the bytes [v]; [rest] are its spare
    cells.  The capacity is far enough from [INT_MAX] for the counters and the
    size of the block to be exact. *)

Definition sds_limit : Z := 2 ^ 31 - 9.
Definition sds_max : Z := 2 ^ 30 - 5.

Definition sds_make (v : list byte) (rest : cells) : sdshdr :=
  Sdshdr (zlen v) (zlen rest) ((Some <$> v) ++ Some x00 :: rest).

Definition sds_rep (s : sdshdr) (v : list byte) : Prop :=
  exists rest, s = sds_make v rest /\ zlen v + zlen rest < sds_limit.

Ltac sds_lia :=
  unfold sds_limit, sds_max, sizeof_sdshdr in *;
  change (2 ^ 31) with 2147483648 in *; change (2 ^ 32) with 4294967296 in *;
  change (2 ^ 30) with 1073741824 in *; len_lia.

(** Remove the wrap-arounds of in-range values, innermost first. *)
Ltac wrap_norm :=
  repeat match goal with
  | |- context [wrapU 32 ?z] =>
      lazymatch z with
      | context [wrapU] => fail
      | context [wrapS] => fail
      | _ => rewrite (u32_small z) by sds_lia
      end
  | |- context [wrapS 32 ?z] =>
      lazymatch z with
      | context [wrapU] => fail
      | context [wrapS] => fail
      | _ => rewrite (i32_small z) by sds_lia
      end
  end.

(** ** Operations refine the list operations *)

Lemma sds_len_make v rest : sds_len (sds_make v rest) = zlen v.
Proof. reflexivity. Qed.
Lemma sds_free_make v rest : sds_free (sds_make v rest) = zlen rest.
Proof. reflexivity. Qed.
Lemma sds_buf_make v rest : sds_buf (sds_make v rest) = (Some <$> v) ++ Some x00 :: rest.
Proof. reflexivity. Qed.

Ltac sds_fields := rewrite ?sds_len_make, ?sds_free_make, ?sds_buf_make.

Lemma sdslen_make v rest : zlen v + zlen rest < sds_limit -> sdslen (sds_make v rest) = zlen v.
Proof. intros. unfold sdslen. cbn. apply u32_small. sds_lia. Qed.

Lemma sdsavail_make v rest :
  zlen v + zlen rest < sds_limit -> sdsavail (sds_make v rest) = zlen rest.
Proof. intros. unfold sdsavail. cbn. apply u32_small. sds_lia. Qed.

Lemma sdslen_rep s v : sds_rep s v -> sdslen s = zlen v.
Proof. intros (rest & -> & H). by apply sdslen_make. Qed.

Lemma sds_rep_len s v : sds_rep s v -> sds_len s = zlen v.
Proof. by intros (rest & -> & H). Qed.

Lemma sds_rep_inj s v w : sds_rep s v -> sds_rep s w -> v = w.
Proof.
  intros (r1 & -> & _) (r2 & E & _). unfold sds_make in E.
  injection E as El _ Eb.
  apply app_inj_1 in Eb as [Ev _]; [|len_lia].
  by apply (inj (fmap Some)) in Ev.
Qed.

Lemma cell_bytes_app v rest : cell_bytes ((Some <$> v) ++ rest) = v ++ cell_bytes rest.
Proof. induction v as [|b v IH]; cbn; [done|]. by f_equal. Qed.

Lemma sds_room_ok n : 0 <= n -> n + 9 < 2 ^ 32 -> sds_room n = Ok (n + 1).
Proof.
  intros. unfold sds_room. rewrite u32_small by sds_lia.
  unfold sizeof_sdshdr. destruct (Z.ltb_spec (8 + n + 1) 8); [lia|]. f_equal. lia.
Qed.

Lemma sdsMakeRoomFor_spec v rest n :
  zlen v + zlen rest < sds_limit -> 0 <= n -> zlen v + n <= sds_max ->
  exists rest', sdsMakeRoomFor (sds_make v rest) n = Ok (sds_make v rest') /\
    n <= zlen rest' /\ zlen v + zlen rest' < sds_limit.
Proof.
  intros Hl Hn Hm. unfold sdsMakeRoomFor.
  rewrite sdsavail_make, sdslen_make by done.
  destruct (Z.leb_spec n (zlen rest)) as [H|H].
  { exists rest. done. }
  pose proof (zlen_nonneg v) as Hnn_v.
  wrap_norm.
  rewrite sds_room_ok by sds_lia. cbn.
  exists (take (Z.to_nat (zlen v + 2 * n)) (rest ++ fresh_cells (zlen v + 2 * n - zlen rest))).
  assert (E : zlen (take (Z.to_nat (zlen v + 2 * n))
    (rest ++ fresh_cells (zlen v + 2 * n - zlen rest))) = zlen v + 2 * n).
  { unfold fresh_cells. len_lia. }
  split; [|split; [lia|sds_lia]].
  unfold sds_make. do 2 f_equal.
  - lia.
  - unfold realloc_cells, fresh_cells.
    rewrite take_ge by (zify_len; lia).
    rewrite <- app_assoc. f_equal. cbn [app]. f_equal.
    rewrite take_ge by (zify_len; lia).
    f_equal. f_equal. len_lia.
Qed.

Lemma drop_cells_prefix v rest n :
  0 <= n <= zlen rest ->
  drop (Z.to_nat (zlen v) + Z.to_nat n) ((Some <$> v) ++ Some x00 :: rest)
    = drop (Z.to_nat n) (Some x00 :: rest).
Proof.
  intros. rewrite <- drop_drop, to_nat_zlen.
  rewrite drop_app_length'; [done|]. by rewrite length_fmap.
Qed.

(** Writing [t] and a terminator behind [v]. *)
Lemma sds_append_cells v rest t :
  zlen t <= zlen rest ->
  (buf ← memcpy ((Some <$> v) ++ Some x00 :: rest) (zlen v) t (zlen t);
   poke buf (zlen v + zlen t) x00)
  = Ok ((Some <$> (v ++ t)) ++ Some x00 :: drop (length t) rest).
Proof.
  intros H. unfold memcpy.
  rewrite (proj2 (Z.leb_le _ _) (zlen_nonneg t)), Z.leb_refl. cbn [andb].
  rewrite to_nat_zlen, take_ge by done.
  rewrite blit_app by len_lia. cbn [mbind result_bind].
  rewrite app_assoc, <- fmap_app. unfold poke.
  rewrite blit_app; [|len_lia|].
  - rewrite drop_drop, length_fmap. cbn [length app].
    by rewrite Nat.add_comm.
  - len_lia.
Qed.

Lemma memcpy_take m off t n :
  0 <= n <= zlen t ->
  memcpy m off t n = memcpy m off (take (Z.to_nat n) t) (zlen (take (Z.to_nat n) t)).
Proof.
  intros H. unfold memcpy. rewrite zlen_take by done.
  rewrite (proj2 (Z.leb_le _ _) (proj1 H)), (proj2 (Z.leb_le _ _) (proj2 H)).
  rewrite Z.leb_refl. cbn [andb]. by rewrite take_take, Nat.min_id.
Qed.

Lemma sdscatlen_spec s v t n :
  sds_rep s v -> 0 <= n <= zlen t -> zlen v + n <= sds_max ->
  exists s', sdscatlen s t n = Ok s' /\ sds_rep s' (v ++ take (Z.to_nat n) t).
Proof.
  intros (rest & -> & Hl) Hn Hm. unfold sdscatlen.
  rewrite sdslen_make by done.
  destruct (sdsMakeRoomFor_spec v rest n) as (rest' & -> & Hr & Hl'); [done|lia|done|].
  cbn [mbind result_bind sds_buf sds_make sds_free sds_len].
  pose proof (zlen_nonneg v) as Hnn_v.
  rewrite memcpy_take by done.
  pose proof (zlen_take n t Hn) as En.
  wrap_norm.
  pose proof (sds_append_cells v rest' (take (Z.to_nat n) t)) as E.
  rewrite En in *. specialize (E ltac:(lia)).
  apply bind_Ok in E as (buf & -> & E). cbn [mbind result_bind]. rewrite E.
  cbn [mbind result_bind].
  eexists. split; [reflexivity|].
  exists (drop (length (take (Z.to_nat n) t)) rest'). split; [|sds_lia].
  unfold sds_make. f_equal; len_lia.
Qed.

Lemma sdscatlen_all s v t :
  sds_rep s v -> zlen v + zlen t <= sds_max ->
  exists s', sdscatlen s t (zlen t) = Ok s' /\ sds_rep s' (v ++ t).
Proof.
  intros Hs Hm. destruct (sdscatlen_spec s v t (zlen t)) as (s' & E & H);
    [done|len_lia|done|].
  rewrite to_nat_zlen, take_ge in H by done. eauto.
Qed.

(** A zero-filled or copied fresh string. *)
Lemma sdsnewlen_spec init n :
  0 <= n <= sds_max ->
  (forall src, init = Some src -> n <= zlen src) ->
  exists s, sdsnewlen init n = Ok s /\
    sds_rep s (match init with
               | Some src => take (Z.to_nat n) src
               | None => replicate (Z.to_nat n) x00
               end).
Proof.
  intros Hn Hsrc. unfold sdsnewlen.
  rewrite sds_room_ok by sds_lia. cbn [mbind result_bind].
  set (v := match init with
            | Some src => take (Z.to_nat n) src
            | None => replicate (Z.to_nat n) x00
            end).
  assert (Hv : zlen v = n).
  { unfold v. destruct init as [src|]; [specialize (Hsrc _ eq_refl)|]; len_lia. }
  assert (E : (if n =? 0 then Ok (fresh_cells (n + 1))
               else match init with
                    | Some src => memcpy (fresh_cells (n + 1)) 0 src n
                    | None => memset (fresh_cells (n + 1)) 0 x00 n
                    end) = Ok ((Some <$> v) ++ fresh_cells 1)).
  { destruct (Z.eqb_spec n 0) as [->|Hn0].
    { destruct v; [done|]. len_lia. }
    assert (Hf : drop (Z.to_nat n) (fresh_cells (n + 1)) = fresh_cells 1).
    { unfold fresh_cells. rewrite drop_replicate. f_equal. lia. }
    destruct init as [src|].
    - specialize (Hsrc _ eq_refl).
      rewrite memcpy_ok by len_lia. change (Z.to_nat 0) with O.
      rewrite take_0. cbn [Nat.add app]. by rewrite Hf.
    - unfold memset. rewrite blit_ok by len_lia. change (Z.to_nat 0) with O.
      rewrite take_0. cbn [Nat.add app]. rewrite length_replicate, Hf. unfold v. by rewrite fmap_replicate. }
  rewrite E. cbn [mbind result_bind]. unfold poke.
  rewrite blit_app by len_lia. cbn [mbind result_bind].
  eexists. split; [reflexivity|]. exists []. split; [|sds_lia].
  unfold sds_make. rewrite i32_small by sds_lia. by rewrite Hv.
Qed.

Lemma sdsempty_spec : exists s, sdsempty = Ok s /\ sds_rep s [].
Proof.
  destruct (sdsnewlen_spec (Some [x00]) 0) as (s & E & H).
  - sds_lia.
  - intros src [= <-]. len_lia.
  - exists s. done.
Qed.

Lemma sdsnewlen_copy t n :
  0 <= n <= sds_max -> n <= zlen t ->
  exists s, sdsnewlen (Some t) n = Ok s /\ sds_rep s (take (Z.to_nat n) t).
Proof.
  intros Hn Ht.
  destruct (sdsnewlen_spec (Some t) n) as (s & E & H); [done| |eauto].
  by intros src [= <-].
Qed.

Lemma sdsnew_spec t :
  x00 ∉ t -> zlen t <= sds_max ->
  exists s, sdsnew (Some (cstr t)) = Ok s /\ sds_rep s t.
Proof.
  intros H0 Hm. unfold sdsnew, cstr. rewrite strlen_cstr by done. cbn.
  pose proof (zlen_nonneg t) as Hnn_t.
  destruct (sdsnewlen_copy (t ++ [x00]) (zlen t)) as (s & E & H); [lia|len_lia|].
  rewrite to_nat_zlen, take_app_length in H. eauto.
Qed.

Lemma cell_bytes_rep s v : sds_rep s v -> exists t, cell_bytes (sds_buf s) = v ++ x00 :: t.
Proof. intros (rest & -> & _). cbn. rewrite cell_bytes_app. cbn. eauto. Qed.

Lemma sdsdup_spec s v :
  sds_rep s v -> zlen v <= sds_max ->
  exists s', sdsdup s = Ok s' /\ sds_rep s' v.
Proof.
  intros Hs Hm. unfold sdsdup. rewrite (sdslen_rep s v) by done.
  destruct (cell_bytes_rep s v Hs) as (t & ->). pose proof (zlen_nonneg v) as Hnn_v.
  destruct (sdsnewlen_copy (v ++ x00 :: t) (zlen v)) as (s' & E & H); [lia|len_lia|].
  rewrite to_nat_zlen, take_app_length in H. eauto.
Qed.

Lemma sdscat_spec s v t u :
  sds_rep s v -> x00 ∉ t -> zlen v + zlen t <= sds_max ->
  exists s', sdscat s (t ++ x00 :: u) = Ok s' /\ sds_rep s' (v ++ t).
Proof.
  intros Hs H0 Hm. unfold sdscat. rewrite strlen_cstr by done. cbn.
  destruct (sdscatlen_spec s v (t ++ x00 :: u) (zlen t)) as (s' & E & H); [done|len_lia|done|].
  rewrite to_nat_zlen, take_app_length in H. eauto.
Qed.

(** ** Formatted output *)

Lemma vsnprintf_fits m buflen out :
  zlen m = buflen -> zlen out <= buflen - 1 ->
  vsnprintf m buflen out = Ok ((Some <$> out) ++ Some x00 :: drop (S (length out)) m).
Proof.
  intros Hm Ho. unfold vsnprintf. rewrite Z.min_l by done.
  rewrite to_nat_zlen, take_ge by done.
  rewrite blit_ok by len_lia. change (Z.to_nat 0) with O. rewrite take_0, fmap_app.
  cbn [app Nat.add]. rewrite <- app_assoc. cbn [app].
  rewrite length_app, length_fmap. cbn [length]. by rewrite Nat.add_comm.
Qed.

Lemma vsnprintf_cut m buflen out :
  1 <= buflen -> zlen m = buflen -> buflen - 1 <= zlen out ->
  vsnprintf m buflen out = Ok ((Some <$> take (Z.to_nat (buflen - 1)) out) ++ [Some x00]).
Proof.
  intros Hb Hm Ho. unfold vsnprintf. rewrite Z.min_r by done.
  rewrite blit_ok by len_lia. change (Z.to_nat 0) with O. rewrite take_0, fmap_app.
  cbn [app Nat.add]. rewrite drop_ge by len_lia. by rewrite app_nil_r.
Qed.

Lemma sdscatvprintf_loop_spec out : forall fuel buflen,
  x00 ∉ out -> zlen out <= sds_max -> 16 <= buflen <= 2 ^ 31 ->
  zlen out - buflen + 3 <= Z.of_nat fuel -> (0 < fuel)%nat ->
  exists buf t, sdscatvprintf_loop fuel buflen out = Ok buf /\
    cell_bytes buf = out ++ x00 :: t.
Proof.
  induction fuel as [|fuel IH]; intros buflen H0 Hm Hb Hf Hpos; [lia|]. cbn.
  unfold poke. rewrite blit_ok by len_lia. cbn [mbind result_bind].
  set (m := take _ _ ++ _ ++ _).
  assert (Hlen : zlen m = buflen) by (unfold m; len_lia).
  destruct (Z.le_gt_cases (zlen out) (buflen - 2)) as [Hfit|Hcut].
  - rewrite vsnprintf_fits by lia. cbn [mbind result_bind].
    assert (Hp : peek ((Some <$> out) ++ Some x00 :: drop (S (length out)) m) (buflen - 2)
                 = Ok x00).
    { unfold peek. destruct (Z.ltb_spec (buflen - 2) 0); [lia|].
      rewrite lookup_app_r by len_lia.
      destruct (Z.eq_dec (zlen out) (buflen - 2)) as [E|E].
      { replace (_ - _)%nat with O by len_lia. done. }
      replace (Z.to_nat (buflen - 2) - length (Some <$> out))%nat
        with (S (Z.to_nat (buflen - 2) - S (length out))) by len_lia.
      rewrite lookup_cons_S, lookup_drop.
      replace (S (length out) + (Z.to_nat (buflen - 2) - S (length out)))%nat
        with (Z.to_nat (buflen - 2)) by len_lia.
      unfold m. rewrite lookup_app_r by len_lia.
      replace (_ - _)%nat with O by len_lia. done. }
    rewrite Hp. cbn. eexists _, _. split; [done|].
    rewrite cell_bytes_app. cbn. done.
  - rewrite vsnprintf_cut by lia. cbn [mbind result_bind].
    rewrite peek_app_l by len_lia.
    rewrite lookup_take_lt by lia.
    destruct (out !! Z.to_nat (buflen - 2)) as [b|] eqn:Eb.
    2: { apply lookup_ge_None in Eb. len_lia. }
    cbn [of_option mbind result_bind].
    assert (b <> x00) by (intros ->; apply H0; by apply list_elem_of_lookup_2 in Eb).
    rewrite bool_decide_eq_false_2 by done.
    rewrite u32_small by sds_lia.
    apply IH; try done; sds_lia.
Qed.

Lemma sdscatprintf_spec s v out :
  sds_rep s v -> x00 ∉ out -> zlen v + zlen out <= sds_max ->
  exists s', sdscatprintf s out = Ok s' /\ sds_rep s' (v ++ out).
Proof.
  intros Hs H0 Hm. unfold sdscatprintf, sdscatvprintf.
  pose proof (zlen_nonneg v) as Hv.
  destruct (sdscatvprintf_loop_spec out (S (length out)) 16) as (buf & t & -> & E);
    [done|lia|sds_lia|sds_lia|lia|].
  cbn [mbind result_bind]. rewrite E. by apply sdscat_spec.
Qed.

(** ** Copying, growing and shortening *)

Lemma poke_end w tl b :
  tl <> [] -> poke ((Some <$> w) ++ tl) (zlen w) b = Ok ((Some <$> w) ++ Some b :: drop 1 tl).
Proof.
  intros H. unfold poke. rewrite blit_app; [done|len_lia|].
  destruct tl; [done|len_lia].
Qed.

(** Whatever cells follow a prefix [w] of the block, terminating it there gives
    a string that holds [w] and keeps the capacity. *)
Lemma sds_close w tl cap free' len' :
  tl <> [] -> zlen w + zlen tl = cap + 1 -> cap < sds_limit ->
  len' = zlen w -> free' = cap - zlen w ->
  exists buf, poke ((Some <$> w) ++ tl) (zlen w) x00 = Ok buf /\
    sds_rep (Sdshdr (i32 len') (i32 free') buf) w.
Proof.
  intros Htl Hlen Hcap -> ->. rewrite poke_end by done.
  eexists. split; [done|]. exists (drop 1 tl).
  pose proof (zlen_nonneg w). destruct tl as [|c tl]; [done|].
  unfold sds_make. cbn [drop]. rewrite drop_0.
  rewrite zlen_cons in Hlen. split; [|sds_lia].
  rewrite !i32_small by sds_lia. f_equal. sds_lia.
Qed.

Lemma sdscpylen_spec s v t n :
  sds_rep s v -> 0 <= n <= zlen t -> zlen v <= sds_max -> n <= sds_max ->
  exists s', sdscpylen s t n = Ok s' /\ sds_rep s' (take (Z.to_nat n) t).
Proof.
  intros (rest & -> & Hl) Hn Hv Hm. unfold sdscpylen.
  sds_fields.
  pose proof (zlen_nonneg v) as Hnv. pose proof (zlen_nonneg rest) as Hnr.
  assert (Hroom : exists rest',
    (if u32 (zlen rest + zlen v) <? n then
       s ← sdsMakeRoomFor (sds_make v rest) (u32 (n - zlen v));
       Ok (s, u32 (sds_free s + sds_len s))
     else Ok (sds_make v rest, u32 (zlen rest + zlen v)))
    = Ok (sds_make v rest', zlen v + zlen rest') /\
    n <= zlen v + zlen rest' /\ zlen v + zlen rest' < sds_limit).
  { rewrite (u32_small (zlen rest + zlen v)) by sds_lia.
    destruct (Z.ltb_spec (zlen rest + zlen v) n).
    - rewrite (u32_small (n - zlen v)) by sds_lia.
      destruct (sdsMakeRoomFor_spec v rest (n - zlen v)) as (rest' & -> & Hr & Hl');
        [done|lia|lia|].
      exists rest'. cbn [mbind result_bind]. sds_fields. rewrite u32_small by sds_lia.
      split; [|lia]. by rewrite Z.add_comm.
    - exists rest. split; [|lia]. by rewrite Z.add_comm. }
  destruct Hroom as (rest' & E & Hfit & Hl'). rewrite E.
  cbn [mbind result_bind]. sds_fields.
  rewrite memcpy_ok by len_lia. change (Z.to_nat 0) with O. rewrite take_0.
  cbn [mbind result_bind app Nat.add].
  set (tl := drop _ _). set (w := take (Z.to_nat n) t).
  assert (Hw : zlen w = n) by (unfold w; len_lia).
  assert (Htl : zlen tl = zlen v + zlen rest' + 1 - n) by (unfold tl; len_lia).
  destruct (sds_close w tl (zlen v + zlen rest') (zlen v + zlen rest' - zlen w) n)
    as (buf & Ep & Hr); [intros E0; rewrite E0, zlen_nil in Htl; lia|lia|lia|lia|reflexivity|].
  rewrite Hw in Ep, Hr. rewrite Ep. cbn. eauto.
Qed.

Lemma sdsgrowzero_spec s v n :
  sds_rep s v -> 0 <= n <= sds_max ->
  exists s', sdsgrowzero s n = Ok s' /\
    sds_rep s' (v ++ replicate (Z.to_nat (n - zlen v)) x00).
Proof.
  intros (rest & -> & Hl) Hn. unfold sdsgrowzero.
  pose proof (zlen_nonneg v) as Hnv. sds_fields.
  rewrite (u32_small (zlen v)) by sds_lia.
  destruct (Z.leb_spec n (zlen v)) as [Hle|Hgt].
  { exists (sds_make v rest). split; [done|].
    replace (Z.to_nat (n - zlen v)) with O by lia. cbn. rewrite app_nil_r. by exists rest. }
  destruct (sdsMakeRoomFor_spec v rest (n - zlen v)) as (rest' & E & Hr & Hl');
    [done|lia|lia|].
  rewrite E. cbn [mbind result_bind]. sds_fields.
  pose proof (zlen_nonneg rest') as Hnr.
  unfold memset. wrap_norm.
  rewrite blit_app by len_lia. cbn [mbind result_bind].
  eexists. split; [reflexivity|].
  exists (drop (Z.to_nat (n - zlen v)) rest'). split; [|len_lia].
  unfold sds_make. f_equal; [len_lia|len_lia|].
  rewrite fmap_app, fmap_replicate, <- app_assoc. f_equal.
  replace (Z.to_nat (n - zlen v + 1)) with (Z.to_nat (n - zlen v) + 1)%nat by lia.
  rewrite replicate_add, <- app_assoc. f_equal. cbn [replicate app].
  rewrite length_app, length_replicate. cbn [length].
  by rewrite Nat.add_comm.
Qed.

(** The part of [v] that [sdsrange] keeps: negative indices count from the end
    and stop at the first byte. *)
Definition clamp_index (len i : Z) : Z := if i <? 0 then Z.max 0 (len + i) else i.

Definition slice (v : list byte) (start end_ : Z) : list byte :=
  let s := clamp_index (zlen v) start in
  let e := clamp_index (zlen v) end_ in
  take (Z.to_nat (e - s + 1)) (drop (Z.to_nat s) v).

Lemma clamp_index_code len i :
  0 <= len < sds_limit -> - 2 ^ 31 <= i < 2 ^ 31 ->
  (if i <? 0
   then (let i := i32 (u32 (len + i)) in if i <? 0 then 0 else i)
   else i) = clamp_index len i.
Proof.
  intros Hl Hi. unfold clamp_index. destruct (Z.ltb_spec i 0); [|done].
  rewrite i32_u32, i32_small by sds_lia. cbn zeta.
  destruct (Z.ltb_spec (len + i) 0); lia.
Qed.

Lemma sds_shift_cells v rest start n :
  0 <= start -> 0 <= n -> start + n <= zlen v ->
  exists tl, memmove ((Some <$> v) ++ Some x00 :: rest) 0 start n
      = Ok ((Some <$> take (Z.to_nat n) (drop (Z.to_nat start) v)) ++ tl) /\
    tl <> [] /\ n + zlen tl = zlen v + zlen rest + 1.
Proof.
  intros Hs Hn Hb. unfold memmove.
  rewrite (proj2 (Z.leb_le 0 start) Hs), (proj2 (Z.leb_le 0 n) Hn).
  rewrite (proj2 (Z.leb_le (start + n) _)) by len_lia. cbn [andb].
  rewrite (drop_app_le (Some <$> v)) by len_lia.
  rewrite take_app_le by len_lia.
  rewrite <- fmap_drop, <- fmap_take.
  rewrite blit_ok by len_lia. change (Z.to_nat 0) with O. rewrite take_0. cbn [app].
  eexists. split; [reflexivity|].
  match goal with |- ?tl <> [] /\ _ =>
    assert (Hlen : zlen tl = zlen v + zlen rest + 1 - n) by len_lia end.
  split; [|lia]. intros E. rewrite E, zlen_nil in Hlen. len_lia.
Qed.

(** The bytes [w] of the text, at its start or moved there. *)
Lemma kept_cells v rest (b : bool) a w :
  (if b then w = take (length w) (drop (Z.to_nat a) v) /\ 0 <= a /\ a + zlen w <= zlen v
   else w = take (length w) v) ->
  exists tl, (if b then memmove ((Some <$> v) ++ Some x00 :: rest) 0 a (zlen w)
              else Ok ((Some <$> v) ++ Some x00 :: rest)) = Ok ((Some <$> w) ++ tl) /\
    tl <> [] /\ zlen w + zlen tl = zlen v + zlen rest + 1.
Proof.
  destruct b; [intros (Hw & Ha & Hb)|intros Hw].
  - destruct (sds_shift_cells v rest a (zlen w)) as (tl & -> & Htl & Hlen); [done|apply zlen_nonneg|done|].
    rewrite to_nat_zlen, <- Hw. eauto.
  - exists ((Some <$> drop (length w) v) ++ Some x00 :: rest). split; [|split].
    + f_equal. rewrite app_assoc, <- fmap_app. f_equal. f_equal. rewrite Hw at 1. by rewrite take_drop.
    + by destruct (Some <$> drop (length w) v).
    + apply (f_equal zlen) in Hw. len_lia.
Qed.

(** The bounds [sdsrange] computes are those of the slice. *)
Lemma range_bounds (v : list byte) a e :
  0 <= a -> 0 <= e -> zlen v <> 0 ->
  let w := take (Z.to_nat (e - a + 1)) (drop (Z.to_nat a) v) in
  let newlen := if e <? a then 0 else e - a + 1 in
  exists st, (if negb (newlen =? 0) then
      if zlen v <=? a then (a, 0)
      else if zlen v <=? e then (a, if zlen v - 1 <? a then 0 else zlen v - 1 - a + 1)
      else (a, newlen)
    else (0, newlen)) = (st, zlen w) /\ (zlen w <> 0 -> st = a).
Proof.
  intros Ha He Hv w newlen. unfold w, newlen. pose proof (zlen_nonneg v).
  destruct (Z.ltb_spec e a) as [H1|H1]; cbn [Z.eqb negb].
  - exists 0. split; [f_equal; len_lia|]. len_lia.
  - destruct (Z.eqb_spec (e - a + 1) 0); [lia|]. cbn [negb].
    destruct (Z.leb_spec (zlen v) a); [exists a; split; [f_equal; len_lia|tauto]|].
    destruct (Z.leb_spec (zlen v) e); [|exists a; split; [f_equal; len_lia|tauto]].
    destruct (Z.ltb_spec (zlen v - 1) a); [lia|]. exists a. split; [f_equal; len_lia|tauto].
Qed.

Lemma sdsrange_spec s v start end_ :
  sds_rep s v -> - 2 ^ 31 <= start < 2 ^ 31 -> - 2 ^ 31 <= end_ < 2 ^ 31 ->
  exists s', sdsrange s start end_ = Ok s' /\ sds_rep s' (slice v start end_).
Proof.
  intros (rest & -> & Hl) Hs He. unfold sdsrange.
  pose proof (zlen_nonneg v) as Hnv. pose proof (zlen_nonneg rest) as Hnr.
  rewrite sdslen_make by done.
  destruct (Z.eqb_spec (zlen v) 0) as [Hz|Hz].
  { exists (sds_make v rest). split; [done|].
    destruct v; [|len_lia]. unfold slice. rewrite drop_nil, take_nil. by exists rest. }
  rewrite !clamp_index_code by sds_lia.
  assert (Hcs : 0 <= clamp_index (zlen v) start < 2 ^ 31).
  { unfold clamp_index. destruct (Z.ltb_spec start 0); sds_lia. }
  assert (Hce : 0 <= clamp_index (zlen v) end_ < 2 ^ 31).
  { unfold clamp_index. destruct (Z.ltb_spec end_ 0); sds_lia. }
  unfold slice. set (a := clamp_index (zlen v) start) in *.
  set (e := clamp_index (zlen v) end_) in *. cbn zeta.
  set (w := take _ _).
  rewrite !i32_small by sds_lia. sds_fields.
  destruct (range_bounds v a e) as (st & -> & Hst); [lia..|]. fold w in Hst |- *.
  assert (Hwe : w = take (length w) (drop (Z.to_nat a) v)) by (unfold w; by rewrite take_length_take).
  destruct (kept_cells v rest (negb (st =? 0) && negb (zlen w =? 0)) st w) as (tl & -> & Htl & Hlen).
  { destruct (Z.eqb_spec (zlen w) 0) as [H0|H0]; rewrite ?andb_false_r; [by destruct w; [|len_lia]|].
    rewrite andb_true_r, (Hst H0). destruct (Z.eqb_spec a 0) as [Ha|Ha]; cbn [negb].
    - by rewrite Ha in Hwe.
    - split; [done|]. split; [lia|]. unfold w in *. len_lia. }
  cbn [mbind result_bind].
  assert (zlen w <= zlen v) by (unfold w; len_lia).
  destruct (sds_close w tl (zlen v + zlen rest) (zlen rest + (zlen v - zlen w)) (zlen w))
    as (buf & -> & Hr); [done|lia|lia|done|lia|].
  cbn. eauto.
Qed.

(** ** Trimming *)

Lemma peek_make v rest i b :
  0 <= i -> v !! Z.to_nat i = Some b ->
  peek ((Some <$> v) ++ rest) i = Ok b.
Proof.
  intros Hi E. pose proof (lookup_lt_Some _ _ _ E).
  rewrite peek_app_l by len_lia. by rewrite E.
Qed.

(** The left scan skips [a] and stops in front of [m]. *)
Lemma trim_left_spec cset m b rest end_ : forall a fuel sp pre,
  Forall (fun c => strchr_in cset c = true) a ->
  (forall c, head m = Some c -> strchr_in cset c = false) ->
  (m = [] -> b = []) ->
  sp = zlen pre -> end_ = zlen (pre ++ a ++ m ++ b) - 1 ->
  (length a < fuel)%nat ->
  trim_left fuel ((Some <$> (pre ++ a ++ m ++ b)) ++ rest) cset sp end_ = Ok (sp + zlen a).
Proof.
  induction a as [|c a IH]; intros fuel sp pre Ha Hm Hb -> -> Hf;
    (destruct fuel as [|fuel]; [cbn in Hf; lia|]); cbn [trim_left].
  - cbn [app]. destruct m as [|d m].
    + rewrite (Hb eq_refl). destruct (Z.leb_spec (zlen pre) (zlen (pre ++ [] ++ []) - 1));
        [len_lia|]. f_equal. len_lia.
    + destruct (Z.leb_spec (zlen pre) (zlen (pre ++ (d :: m) ++ b) - 1)); [|len_lia].
      rewrite (peek_make _ _ _ d); [| len_lia | by rewrite to_nat_zlen; apply list_lookup_middle].
      cbn [mbind result_bind]. rewrite (Hm d eq_refl). f_equal. len_lia.
  - inversion Ha as [|? ? Hc Ha']; subst.
    destruct (Z.leb_spec (zlen pre) (zlen (pre ++ (c :: a) ++ m ++ b) - 1)); [|len_lia].
    rewrite (peek_make _ _ _ c); [| len_lia | by rewrite to_nat_zlen; apply list_lookup_middle].
    cbn [mbind result_bind]. rewrite Hc.
    specialize (IH fuel (zlen pre + 1) (pre ++ [c]) Ha' Hm Hb).
    rewrite <- !app_assoc in IH. cbn [app] in IH |- *. rewrite IH; [|len_lia|done|cbn in Hf; lia].
    f_equal. len_lia.
Qed.

(** The right scan skips [b], down to [m] or to the first byte. *)
Lemma trim_right_spec cset : forall b rest fuel ep m,
  Forall (fun c => strchr_in cset c = true) b ->
  (forall c, last m = Some c -> strchr_in cset c = false) ->
  ep = zlen (m ++ b) - 1 -> (length b < fuel)%nat ->
  trim_right fuel ((Some <$> (m ++ b)) ++ rest) cset ep 0 =
    Ok (if zlen m =? 0 then Z.min ep 0 else zlen m - 1).
Proof.
  induction b as [|c b IH] using rev_ind; intros rest fuel ep m Hb Hm -> Hf;
    (destruct fuel as [|fuel]; [len_lia|]); cbn [trim_right].
  - rewrite app_nil_r. destruct (Z.ltb_spec 0 (zlen m - 1)) as [Hl|Hl].
    + destruct (last m) as [d|] eqn:El.
      2: { apply last_None in El as ->. len_lia. }
      rewrite (peek_make _ _ _ d); [|lia|].
      2: { rewrite last_lookup in El. rewrite <- El. f_equal. len_lia. }
      cbn [mbind result_bind]. rewrite (Hm d eq_refl).
      destruct (Z.eqb_spec (zlen m) 0); [lia|done].
    + pose proof (zlen_nonneg m).
      destruct (Z.eqb_spec (zlen m) 0); f_equal; lia.
  - apply Forall_app in Hb as [Hb Hc]. inversion Hc as [|? ? Hc' _]; subst.
    rewrite app_assoc. destruct (Z.ltb_spec 0 (zlen ((m ++ b) ++ [c]) - 1)) as [Hl|Hl].
    + rewrite (peek_make _ _ _ c); [|lia|].
      2: { replace (Z.to_nat _) with (length (m ++ b)) by len_lia.
           by apply list_lookup_middle. }
      cbn [mbind result_bind]. rewrite Hc'.
      rewrite fmap_app, <- (app_assoc (Some <$> (m ++ b))).
      rewrite (IH _ fuel (zlen ((m ++ b) ++ [c]) - 1 - 1) m Hb Hm) by len_lia.
      destruct (Z.eqb_spec (zlen m) 0); f_equal; len_lia.
    + destruct (Z.eqb_spec (zlen m) 0); f_equal; len_lia.
Qed.

(** [sdstrim] keeps the middle [m] between two runs of bytes of the set (which
    NUL belongs to) that is as short as possible. *)
Lemma sdstrim_spec s a m b cset :
  sds_rep s (a ++ m ++ b) ->
  Forall (fun c => strchr_in cset c = true) a ->
  Forall (fun c => strchr_in cset c = true) b ->
  (forall c, head m = Some c -> strchr_in cset c = false) ->
  (forall c, last m = Some c -> strchr_in cset c = false) ->
  (m = [] -> b = []) ->
  exists s', sdstrim s cset = Ok s' /\ sds_rep s' m.
Proof.
  intros (rest & -> & Hl) Ha Hb Hh Ht Hm. unfold sdstrim.
  rewrite sdslen_make by done. sds_fields.
  set (v := a ++ m ++ b) in *.
  assert (Hv : zlen v = zlen a + zlen m + zlen b) by (unfold v; len_lia).
  pose proof (zlen_nonneg a) as Hna. pose proof (zlen_nonneg m) as Hnm.
  pose proof (zlen_nonneg b) as Hnb. pose proof (zlen_nonneg rest) as Hnr.
  rewrite (trim_left_spec cset m b (Some x00 :: rest) _ a _ 0 [] Ha Hh Hm)
    by (unfold v in *; len_lia || done).
  cbn [mbind result_bind].
  assert (Hr : exists ep, trim_right (S (length ((Some <$> v) ++ Some x00 :: rest)))
      ((Some <$> v) ++ Some x00 :: rest) cset (zlen v - 1) 0 = Ok ep /\
      (if ep <? zlen a then 0 else ep - zlen a + 1) = zlen m).
  { unfold v. rewrite (app_assoc a m b).
    destruct m as [|d m'] eqn:Em.
    - specialize (Hm eq_refl). subst b. rewrite !app_nil_r.
      pose proof (trim_right_spec cset a (Some x00 :: rest)
        (S (length ((Some <$> a) ++ Some x00 :: rest))) (zlen a - 1) [] Ha) as E.
      rewrite app_nil_l in E. rewrite E by (done || len_lia).
      eexists. split; [done|]. rewrite zlen_nil. cbn [Z.eqb].
      destruct (Z.ltb_spec (Z.min (zlen a - 1) 0) (zlen a)); lia.
    - rewrite (trim_right_spec cset b _ _ _ (a ++ d :: m') Hb).
      + eexists. split; [done|].
        destruct (Z.eqb_spec (zlen (a ++ d :: m')) 0); [len_lia|].
        destruct (Z.ltb_spec (zlen (a ++ d :: m') - 1) (zlen a)); len_lia.
      + intros c. rewrite last_app_cons. apply Ht.
      + done.
      + len_lia. }
  destruct Hr as (ep & -> & Hep). cbn [mbind result_bind]. rewrite !Z.add_0_l, Hep.
  replace (if zlen a =? 0 then Ok _ else _) with (if negb (zlen a =? 0)
    then memmove ((Some <$> v) ++ Some x00 :: rest) 0 (zlen a) (zlen m) else Ok ((Some <$> v) ++ Some x00 :: rest))
    by (by destruct (zlen a =? 0)).
  destruct (kept_cells v rest (negb (zlen a =? 0)) (zlen a) m) as (tl & -> & Htl & Hlen).
  { unfold v. destruct (Z.eqb_spec (zlen a) 0) as [Ez|Ez]; cbn [negb].
    - destruct a; [|len_lia]. cbn [app]. by rewrite take_app_length.
    - rewrite to_nat_zlen, drop_app_length, take_app_length. split; [done|]. split; len_lia. }
  cbn [mbind result_bind].
  destruct (sds_close m tl (zlen v + zlen rest) (zlen rest + (zlen v - zlen m)) (zlen m))
    as (buf & -> & Hr); [done|lia|lia|done|lia|].
  cbn. eauto.
Qed.

(** ** Case mapping, comparison and numbers *)

Lemma map_chars_spec f : forall todo fuel done_ rest,
  (length todo < fuel)%nat -> Forall (fun c => is_ascii c = true) todo ->
  map_chars f fuel ((Some <$> (done_ ++ todo)) ++ rest) (zlen done_) (zlen (done_ ++ todo))
    = Ok ((Some <$> (done_ ++ (f <$> todo))) ++ rest).
Proof.
  induction todo as [|c todo IH]; intros fuel don rest Hf Hascii;
    (destruct fuel as [|fuel]; [cbn in Hf; lia|]); cbn [map_chars].
  - rewrite app_nil_r, (proj2 (Z.ltb_ge _ _)) by lia. cbn. by rewrite app_nil_r.
  - rewrite (proj2 (Z.ltb_lt _ _)) by len_lia.
    rewrite (peek_make _ _ _ c); [|len_lia|by rewrite to_nat_zlen; apply list_lookup_middle].
    apply Forall_cons in Hascii as [Hc Hascii].
    cbn [mbind result_bind]. rewrite (ctype_char_ascii c Hc).
    cbn [mbind result_bind]. rewrite fmap_app, fmap_cons, <- app_assoc. unfold poke.
    rewrite blit_app by len_lia. cbn [mbind result_bind app length drop]. rewrite drop_0.
    specialize (IH fuel (don ++ [f c]) rest ltac:(cbn in Hf; lia) Hascii).
    rewrite !fmap_app, <- !app_assoc in IH. cbn [fmap list_fmap app] in IH |- *.
    rewrite fmap_app, <- !app_assoc. cbn [fmap list_fmap app].
    replace (zlen (don ++ [f c])) with (zlen don + 1) in IH by len_lia.
    replace (zlen (don ++ f c :: todo)) with (zlen (don ++ c :: todo)) in IH by len_lia.
    exact IH.
Qed.

Lemma sds_map_spec f s v :
  sds_rep s v -> Forall (fun c => is_ascii c = true) v ->
  exists s', (buf ← map_chars f (length (sds_buf s)) (sds_buf s) 0 (i32 (sdslen s));
              Ok (Sdshdr (sds_len s) (sds_free s) buf)) = Ok s' /\ sds_rep s' (f <$> v).
Proof.
  intros (rest & -> & Hl) Hascii. pose proof (zlen_nonneg v). pose proof (zlen_nonneg rest).
  rewrite sdslen_make by done. sds_fields. rewrite i32_small by sds_lia.
  rewrite (map_chars_spec f v _ [] (Some x00 :: rest)) by (done || len_lia).
  cbn [mbind result_bind app]. eexists. split; [reflexivity|].
  exists rest. split; [|by rewrite zlen_fmap]. unfold sds_make. by rewrite zlen_fmap.
Qed.

Lemma sdstolower_spec s v :
  sds_rep s v -> Forall (fun c => is_ascii c = true) v ->
  exists s', sdstolower s = Ok s' /\ sds_rep s' (tolower <$> v).
Proof. apply sds_map_spec. Qed.

Lemma sdstoupper_spec s v :
  sds_rep s v -> Forall (fun c => is_ascii c = true) v ->
  exists s', sdstoupper s = Ok s' /\ sds_rep s' (toupper <$> v).
Proof. apply sds_map_spec. Qed.

Lemma memcmp_zero n : forall s t,
  (n <= length s)%nat -> (n <= length t)%nat ->
  exists z, memcmp s t n = Ok z /\ (z = 0 <-> take n s = take n t).
Proof.
  induction n as [|n IH]; intros [|a s] [|b t] Hs Ht; cbn in Hs, Ht; try lia;
    cbn [memcmp take]; try (by exists 0).
  case_bool_decide as Hab.
  - subst b. destruct (IH s t) as (z & -> & Hz); [lia..|].
    exists z. split; [done|]. rewrite Hz. split; [by intros ->|by intros [=]].
  - eexists. split; [done|]. split.
    + intros H. exfalso. apply Hab, b2z_inj. lia.
    + by intros [= ->].
Qed.

Lemma sdscmp_eq s1 s2 v1 v2 :
  sds_rep s1 v1 -> sds_rep s2 v2 ->
  exists z, sdscmp s1 s2 = Ok z /\ (z = 0 <-> v1 = v2).
Proof.
  intros H1 H2. unfold sdscmp.
  rewrite (sdslen_rep s1 v1), (sdslen_rep s2 v2) by done.
  destruct (cell_bytes_rep s1 v1 H1) as (t1 & ->).
  destruct (cell_bytes_rep s2 v2 H2) as (t2 & ->).
  set (n := if _ <? _ then _ else _).
  assert (Hn : n = Z.min (zlen v1) (zlen v2)).
  { unfold n. destruct (Z.ltb_spec (zlen v1) (zlen v2)); lia. }
  destruct (memcmp_zero (Z.to_nat n) (v1 ++ x00 :: t1) (v2 ++ x00 :: t2)) as (z & -> & Hz);
    [len_lia..|].
  cbn [mbind result_bind].
  assert (Hpre : zlen v1 = zlen v2 -> (z = 0 <-> v1 = v2)).
  { intros E. rewrite Hz, Hn, E, Z.min_id.
    rewrite <- E at 1. by rewrite !to_nat_zlen, !take_app_length. }
  destruct H1 as (r1 & _ & Hl1). destruct H2 as (r2 & _ & Hl2).
  pose proof (zlen_nonneg v1). pose proof (zlen_nonneg v2).
  pose proof (zlen_nonneg r1). pose proof (zlen_nonneg r2).
  destruct (Z.eqb_spec z 0) as [Hz0|Hz0].
  - eexists. split; [reflexivity|]. rewrite i32_u32, i32_small by sds_lia.
    split; [|intros ->; lia]. intros Hlen. apply Hpre; [lia|done].
  - exists z. split; [done|]. split; [done|]. intros ->. exfalso. by apply Hz0, Hpre.
Qed.

Lemma sdsfromlonglong_loop_spec : forall v, 0 <= v -> forall fuel p suf,
  zlen (print_u v) <= p + 1 -> zlen (print_u v) <= Z.of_nat fuel ->
  sdsfromlonglong_loop fuel (fresh_cells (p + 1) ++ (Some <$> suf)) p v =
    Ok (fresh_cells (p + 1 - zlen (print_u v)) ++ (Some <$> (print_u v ++ suf)),
        p - zlen (print_u v)).
Proof.
  assert (Hpoke : forall p b suf, 0 <= p ->
    poke (fresh_cells (p + 1) ++ (Some <$> suf)) p b
      = Ok (fresh_cells (p - 1 + 1) ++ (Some <$> (b :: suf)))).
  { intros p b suf Hp. unfold poke, fresh_cells.
    replace (Z.to_nat (p + 1)) with (Z.to_nat (p - 1 + 1) + 1)%nat by lia.
    rewrite replicate_add, <- app_assoc.
    rewrite blit_app by len_lia. do 2 f_equal. }
  refine (print_u_ind _ _ _).
  - intros v Hv fuel p suf Hp Hf. rewrite print_u_small in * by done.
    rewrite zlen_cons, zlen_nil in *. destruct fuel as [|fuel]; [lia|].
    cbn [sdsfromlonglong_loop]. rewrite Hpoke by lia. cbn [mbind result_bind].
    rewrite Z.div_small, Z.mod_small by done. cbn [Z.eqb]. do 2 f_equal.
    replace (p + 1 - (1 + 0)) with (p - 1 + 1) by lia. done.
  - intros v Hv IH fuel p suf Hp Hf. rewrite print_u_step in * by done.
    rewrite zlen_app, zlen_cons, zlen_nil in *.
    pose proof (zlen_nonneg (print_u (v / 10))) as Hnn.
    destruct fuel as [|fuel]; [lia|].
    cbn [sdsfromlonglong_loop]. rewrite Hpoke by lia. cbn [mbind result_bind].
    destruct (Z.eqb_spec (v / 10) 0) as [E|E].
    { assert (1 <= v / 10) by (apply Z.div_le_lower_bound; lia). lia. }
    rewrite IH by lia. fold (digit (v mod 10)). rewrite <- app_assoc. cbn [app].
    do 2 f_equal; [|lia]. do 2 f_equal. lia.
Qed.

Lemma sdsfromlonglong_spec value :
  - 2 ^ 63 < value < 2 ^ 63 ->
  exists s, sdsfromlonglong value = Ok s /\ sds_rep s (print_d value).
Proof.
  intros Hv. unfold sdsfromlonglong, print_d.
  set (a := Z.abs value).
  assert (Hlen : zlen (print_u a) <= 19).
  { apply (print_u_length 19); [|lia]. change (10 ^ Z.of_nat 19) with 10000000000000000000.
    change (2 ^ 63) with 9223372036854775808 in Hv. lia. }
  assert (Hw : u64 a = a) by (apply wrapU_small; lia).
  assert (Habs : (if value <? 0 then chk64 (- value) else Ok value) = Ok a).
  { destruct (Z.ltb_spec value 0); [rewrite chk64_ok by lia|]; f_equal; lia. }
  rewrite Habs. cbn [mbind result_bind]. rewrite Hw.
  pose proof (sdsfromlonglong_loop_spec a ltac:(lia) 20 31 [] ltac:(lia) ltac:(lia)) as E.
  rewrite !app_nil_r in E. change (31 + 1) with 32 in E.
  rewrite E.
  cbn [mbind result_bind]. clear E. pose proof (zlen_nonneg (print_u a)) as Hnn.
  set (k := zlen (print_u a)) in *.
  assert (Hcopy : forall w, 0 <= 32 - zlen w -> 
    exists s, sdsnewlen (Some (cell_bytes
      (drop (Z.to_nat (32 - zlen w)) (fresh_cells (32 - zlen w) ++ (Some <$> w)))))
      (zlen w) = Ok s /\ sds_rep s w).
  { intros w Hw0. rewrite drop_app_length' by len_lia.
    rewrite <- (app_nil_r (Some <$> w)), cell_bytes_app. cbn [cell_bytes]. rewrite app_nil_r.
    pose proof (zlen_nonneg w).
    destruct (sdsnewlen_copy w (zlen w)) as (s & Es & Hs); [sds_lia|lia|].
    rewrite to_nat_zlen, take_ge in Hs by done. eauto. }
  destruct (Z.ltb_spec value 0) as [Hneg|Hpos].
  - replace (print_u (- value)) with (print_u a) by (f_equal; lia).
    unfold poke, fresh_cells. replace (Z.to_nat (32 - k)) with (Z.to_nat (32 - zlen (x2d :: print_u a)) + 1)%nat
      by (rewrite zlen_cons; fold k; lia).
    rewrite replicate_add, <- app_assoc. rewrite blit_app by (rewrite ?zlen_cons; unfold k; len_lia).
    cbn [mbind result_bind app replicate length drop]. rewrite drop_0.
    change (Some x2d :: (Some <$> print_u a)) with (Some <$> (x2d :: print_u a)).
    replace (31 - k - 1 + 1) with (32 - zlen (x2d :: print_u a)) by (rewrite zlen_cons; fold k; lia).
    replace (32 - (32 - zlen (x2d :: print_u a))) with (zlen (x2d :: print_u a)) by lia.
    apply Hcopy. rewrite zlen_cons. fold k. lia.
  - replace (print_u value) with (print_u a) by (f_equal; lia).
    cbn [mbind result_bind]. replace (31 - k + 1) with (32 - k) by lia.
    replace (32 - (32 - k)) with k by lia. apply Hcopy. fold k. lia.
Qed.

(** ** The strings as a data type

    The operations a client of the library performs on one string, what each
    does to the abstract byte string, and what it asks for: room within the
    capacity, and characters below 128 for the case mappings, which hand a plain
    [char] to [tolower] and [toupper]. *)

Inductive sds_op :=
| Append (t : list byte) (n : Z)
| Printf (out : list byte)
| Assign (t : list byte) (n : Z)
| GrowZero (n : Z)
| Range (start end_ : Z)
| Lower
| Upper.

Definition run_op (op : sds_op) (s : sdshdr) : result sdshdr :=
  match op with
  | Append t n => sdscatlen s t n
  | Printf out => sdscatprintf s out
  | Assign t n => sdscpylen s t n
  | GrowZero n => sdsgrowzero s n
  | Range a b => sdsrange s a b
  | Lower => sdstolower s
  | Upper => sdstoupper s
  end.

Definition spec_op (op : sds_op) (v : list byte) : list byte :=
  match op with
  | Append t n => v ++ take (Z.to_nat n) t
  | Printf out => v ++ out
  | Assign t n => take (Z.to_nat n) t
  | GrowZero n => v ++ replicate (Z.to_nat (n - zlen v)) x00
  | Range a b => slice v a b
  | Lower => tolower <$> v
  | Upper => toupper <$> v
  end.

Definition op_fits (op : sds_op) (v : list byte) : Prop :=
  zlen v <= sds_max /\
  match op with
  | Append t n => (0 <= n <= zlen t) /\ zlen v + n <= sds_max
  | Printf out => (x00 ∉ out) /\ zlen v + zlen out <= sds_max
  | Assign t n => (0 <= n <= zlen t) /\ n <= sds_max
  | GrowZero n => 0 <= n <= sds_max
  | Range a b => (- 2 ^ 31 <= a < 2 ^ 31) /\ (- 2 ^ 31 <= b < 2 ^ 31)
  | Lower | Upper => Forall (fun c => is_ascii c = true) v
  end.

Fixpoint run_ops (ops : list sds_op) (s : sdshdr) : result sdshdr :=
  match ops with
  | [] => Ok s
  | op :: ops => (s ← run_op op s; run_ops ops s)
  end.

Fixpoint spec_ops (ops : list sds_op) (v : list byte) : list byte :=
  match ops with [] => v | op :: ops => spec_ops ops (spec_op op v) end.

Fixpoint ops_fit (ops : list sds_op) (v : list byte) : Prop :=
  match ops with [] => True | op :: ops => op_fits op v /\ ops_fit ops (spec_op op v) end.

Lemma sds_run_op_spec op s v :
  sds_rep s v -> op_fits op v ->
  exists s', run_op op s = Ok s' /\ sds_rep s' (spec_op op v).
Proof.
  intros Hs [Hm Hop]. destruct op; cbn [run_op spec_op] in *.
  - destruct Hop. by apply sdscatlen_spec.
  - destruct Hop. by apply sdscatprintf_spec.
  - destruct Hop. by apply (sdscpylen_spec s v).
  - by apply sdsgrowzero_spec.
  - destruct Hop. by apply sdsrange_spec.
  - by apply sdstolower_spec.
  - by apply sdstoupper_spec.
Qed.


Definition demo_string : sdshdr := sds_make (bytes "GET key") [].


(** Mapping the case of a string with a character of 128 or more is undefined. *)
Example case_of_high_bytes :
  sdstolower (sds_make [x4b; xe4] []) = Err Undefined /\
  sdstoupper (sds_make [x4b; xe4] []) = Err Undefined.
Proof. split; vm_compute; reflexivity. Qed.
