(* ===== verification/SdsText.v ===== *)
(** * Splitting and quoting dynamic strings ([win32/hiredis/sds.c])

    [sdssplitlen], [sdscatrepr] and [sdssplitargs], on top of the string
    operations of [Sds]. *)

From S2P Require Import Prelude Sds.

(** [tokens[elements] = t], the vector having [slots] slots. *)
Definition store_token (slots : Z) (tokens : list sdshdr) (t : sdshdr) : result (list sdshdr) :=
  if zlen tokens <? slots then Ok (tokens ++ [t]) else Err Undefined.

Fixpoint sdssplitlen_loop (fuel : nat) (s : list byte) (len : Z) (sep : list byte) (seplen : Z)
    (j start slots : Z) (tokens : list sdshdr) : result (Z * Z * list sdshdr) :=
  match fuel with
  | O => Err NoFuel
  | S fuel =>
      if j <? len - (seplen - 1) then
        let slots := if slots <? zlen tokens + 2 then slots * 2 else slots in
        found ← (if seplen =? 1
                 then (a ← deref s j; b ← deref sep 0;
                       if bool_decide (a = b) then Ok true
                       else cmp ← memcmp (at_ptr s j) sep (Z.to_nat seplen); Ok (cmp =? 0))
                 else cmp ← memcmp (at_ptr s j) sep (Z.to_nat seplen); Ok (cmp =? 0));
        if (found : bool) then
          t ← sdsnewlen (Some (at_ptr s start)) (j - start);
          tokens ← store_token slots tokens t;
          sdssplitlen_loop fuel s len sep seplen (j + seplen - 1 + 1) (j + seplen) slots tokens
        else sdssplitlen_loop fuel s len sep seplen (j + 1) start slots tokens
      else Ok (start, slots, tokens)
  end.

(** [None] is the NULL result; [count] is left alone in that case. *)
Definition sdssplitlen (s : list byte) (len : Z) (sep : list byte) (seplen : Z)
    : result (option (list sdshdr)) :=
  if (seplen <? 1) || (len <? 0) then Ok None
  else if len =? 0 then Ok (Some [])
  else
    '(start, slots, tokens) ← sdssplitlen_loop (S (Z.to_nat len)) s len sep seplen 0 0 5 [];
    t ← sdsnewlen (Some (at_ptr s start)) (len - start);
    tokens ← store_token slots tokens t;
    Ok (Some tokens).

Definition hexdigit (n : Z) : byte := z2b (if n <? 10 then 48 + n else 87 + n).

(** One round of the loop of [sdscatrepr]; the lengths are the literals of the
    source. *)
Definition sdscatrepr_char (s : sdshdr) (c : byte) : result sdshdr :=
  if bool_decide (c = x5c) || bool_decide (c = x22) then sdscatprintf s [x5c; c]
  else if bool_decide (c = x0a) then sdscatlen s (cstr [x5c; x6e]) 1
  else if bool_decide (c = x0d) then sdscatlen s (cstr [x5c; x72]) 1
  else if bool_decide (c = x09) then sdscatlen s (cstr [x5c; x74]) 1
  else if bool_decide (c = x07) then sdscatlen s (cstr [x5c; x61]) 1
  else if bool_decide (c = x08) then sdscatlen s (cstr [x5c; x62]) 1
  else
    c ← ctype_char c;
    if isprint c then sdscatprintf s [c]
    else sdscatprintf s [x5c; x78; hexdigit (b2z c / 16); hexdigit (b2z c mod 16)].

Fixpoint sdscatrepr_loop (s : sdshdr) (p : list byte) (len : nat) {struct len}
    : result sdshdr :=
  match len with
  | O => Ok s
  | S len =>
      match p with
      | [] => Err Undefined
      | c :: p => s ← sdscatrepr_char s c; sdscatrepr_loop s p len
      end
  end.

Definition sdscatrepr (s : sdshdr) (p : list byte) (len : Z) : result sdshdr :=
  s ← sdscatlen s (cstr [x22]) 1;
  s ← sdscatrepr_loop s p (Z.to_nat len);
  sdscatlen s (cstr [x22]) 1.

(** The character an escape sequence stands for in [sdssplitargs]. *)
Definition splitargs_escape (c : byte) : byte :=
  match c with
  | x6e => x0a | x72 => x0d | x74 => x09 | x62 => x08 | x61 => x07
  | _ => c
  end.

Fixpoint skip_blanks (fuel : nat) (line : list byte) (p : Z) : result Z :=
  match fuel with
  | O => Err NoFuel
  | S fuel =>
      c ← deref line p;
      if negb (bool_decide (c = x00)) then
        c ← ctype_char c;
        if isspace c then skip_blanks fuel line (p + 1) else Ok p
      else Ok p
  end.

(** The token loop; [None] is the jump to [err]. *)
Fixpoint splitargs_token (fuel : nat) (line : list byte) (p : Z) (inq : bool) (current : sdshdr)
    : result (option (Z * sdshdr)) :=
  match fuel with
  | O => Err NoFuel
  | S fuel =>
      let next p inq current :=
        c ← deref line p;
        splitargs_token fuel line (if bool_decide (c = x00) then p else p + 1) inq current in
      let done p current :=
        c ← deref line p;
        Ok (Some (if bool_decide (c = x00) then p else p + 1, current)) in
      c ← deref line p;
      if inq then
        esc ← (if bool_decide (c = x5c) then c1 ← deref line (p + 1); Ok (negb (bool_decide (c1 = x00)))
               else Ok false);
        if (esc : bool) then
          let p := p + 1 in
          c ← deref line p;
          current ← sdscatlen current [splitargs_escape c] 1;
          next p true current
        else if bool_decide (c = x22) then
          c1 ← deref line (p + 1);
          if negb (bool_decide (c1 = x00)) then
            c1 ← ctype_char c1;
            if negb (isspace c1) then Ok None else done p current
          else done p current
        else if bool_decide (c = x00) then Ok None
        else
          current ← sdscatlen current [c] 1;
          next p true current
      else
        if bool_decide (c ∈ [x20; x0a; x0d; x09; x00]) then done p current
        else if bool_decide (c = x22) then next p true current
        else current ← sdscatlen current [c] 1; next p false current
  end.

(** The outer loop; [None] is the NULL result after [err], everything freed. *)
Fixpoint splitargs_loop (fuel : nat) (line : list byte) (p : Z) (vector : list sdshdr)
    : result (option (list sdshdr)) :=
  match fuel with
  | O => Err NoFuel
  | S fuel =>
      p ← skip_blanks (S (length line)) line p;
      c ← deref line p;
      if negb (bool_decide (c = x00)) then
        current ← sdsempty;
        tok ← splitargs_token (S (length line)) line p false current;
        match tok with
        | None => Ok None
        | Some (p, current) => splitargs_loop fuel line p (vector ++ [current])
        end
      else Ok (Some vector)
  end.

Definition sdssplitargs (line : list byte) : result (option (list sdshdr)) :=
  splitargs_loop (S (length line)) line 0 [].

(** ** Splitting on a separator *)

(** The tokens with the separator put back between them. *)
Fixpoint join (sep : list byte) (toks : list (list byte)) : list byte :=
  match toks with
  | [] => []
  | [t] => t
  | t :: toks => t ++ sep ++ join sep toks
  end.

(** [sep] starts at position [i] of [t]. *)
Definition sep_at (sep t : list byte) (i : nat) : Prop := sep `prefix_of` drop i t.

Definition no_sep (sep t : list byte) : Prop := forall i, ~ sep_at sep t i.

(** Bytes [a] to [b] of [s]. *)
Definition sub (s : list byte) (a b : Z) : list byte :=
  take (Z.to_nat (b - a)) (drop (Z.to_nat a) s).

Lemma sub_length s a b : 0 <= a -> a <= b -> b <= zlen s -> zlen (sub s a b) = b - a.
Proof. intros. unfold sub. len_lia. Qed.

Lemma sub_split s a b c :
  0 <= a -> a <= b -> b <= c -> c <= zlen s -> sub s a c = sub s a b ++ sub s b c.
Proof.
  intros. unfold sub.
  replace (Z.to_nat (c - a)) with (Z.to_nat (b - a) + Z.to_nat (c - b))%nat by lia.
  rewrite <- take_take_drop. f_equal. rewrite drop_drop. do 2 f_equal. lia.
Qed.

(** Does the separator start at [j]? The two tests of the source agree. *)
Lemma sep_test s j sep seplen :
  0 <= j -> 1 <= seplen -> j + seplen <= zlen s -> seplen <= zlen sep ->
  exists b : bool,
    (if seplen =? 1
     then (a ← deref s j; b ← deref sep 0;
           if bool_decide (a = b) then Ok true
           else cmp ← memcmp (at_ptr s j) sep (Z.to_nat seplen); Ok (cmp =? 0))
     else cmp ← memcmp (at_ptr s j) sep (Z.to_nat seplen); Ok (cmp =? 0)) = Ok b /\
    (b = true <-> sub s j (j + seplen) = take (Z.to_nat seplen) sep).
Proof.
  intros Hj Hs Hb Hl.
  destruct (memcmp_zero (Z.to_nat seplen) (at_ptr s j) sep) as (z & Hz & Hiff);
    [unfold at_ptr; len_lia|len_lia|].
  unfold sub, at_ptr in *. replace (j + seplen - j) with seplen by lia.
  assert (Hb' : (z =? 0) = true <-> take (Z.to_nat seplen) (drop (Z.to_nat j) s)
      = take (Z.to_nat seplen) sep).
  { rewrite <- Hiff. apply Z.eqb_eq. }
  destruct (Z.eqb_spec seplen 1) as [->|_].
  - change (Z.to_nat 1) with 1%nat in *.
    destruct (drop (Z.to_nat j) s) as [|a s'] eqn:Ed.
    { apply (f_equal length) in Ed. len_lia. }
    destruct sep as [|b sep]; [len_lia|].
    assert (Ha : s !! Z.to_nat j = Some a).
    { rewrite <- (Nat.add_0_r (Z.to_nat j)), <- lookup_drop, Ed. done. }
    rewrite (deref_lookup s j a) by done. rewrite (deref_lookup _ 0 b) by done.
    cbn [mbind result_bind]. cbn [take] in *. rewrite !take_0 in *.
    case_bool_decide as Hab.
    + exists true. split; [done|]. subst. done.
    + rewrite Hz. cbn. exists (z =? 0). done.
  - rewrite Hz. cbn. exists (z =? 0). done.
Qed.

(** What the loop has established before it looks at position [j]. *)
Record split_inv (s : list byte) (len : Z) (sep : list byte)
    (j start slots : Z) (tokens : list sdshdr) (toks : list (list byte)) : Prop := {
  si_start : 0 <= start <= j;
  si_end : start <= len;
  si_slots : 1 <= slots /\ zlen tokens + 1 <= slots;
  si_tokens : Forall2 sds_rep tokens toks;
  si_join : concat (map (fun t => t ++ sep) toks) = sub s 0 start;
  si_nosep : Forall (no_sep sep) toks;
  si_scanned : forall i, start <= i < j -> ~ sep `prefix_of` drop (Z.to_nat i) s
}.

Lemma no_sep_sub s sep a b :
  0 <= a -> a <= b -> b <= zlen s -> 1 <= zlen sep ->
  (forall i, a <= i -> i + zlen sep <= b -> ~ sep `prefix_of` drop (Z.to_nat i) s) ->
  no_sep sep (sub s a b).
Proof.
  intros Ha Hab Hb Hs Hno i Hpre. unfold sep_at, sub in Hpre.
  pose proof (prefix_length _ _ Hpre) as Hlen.
  apply (Hno (a + Z.of_nat i)); [lia|len_lia|].
  destruct Hpre as [k Hk]. rewrite skipn_firstn_comm, drop_drop in Hk.
  exists (k ++ drop (Z.to_nat (b - a) - i) (drop (Z.to_nat a + i) s)).
  rewrite app_assoc, <- Hk.
  replace (Z.to_nat (a + Z.of_nat i)) with (Z.to_nat a + i)%nat by lia.
  by rewrite take_drop.
Qed.

Lemma sep_prefix_sub s j sep seplen :
  0 <= j -> 0 <= seplen -> j + seplen <= zlen s -> seplen = zlen sep ->
  sub s j (j + seplen) = sep <-> sep `prefix_of` drop (Z.to_nat j) s.
Proof.
  intros Hj Hs Hb ->. unfold sub. replace (j + zlen sep - j) with (zlen sep) by lia.
  rewrite to_nat_zlen. split.
  - intros E. exists (drop (length sep) (drop (Z.to_nat j) s)).
    rewrite <- E at 1. by rewrite take_drop.
  - intros [k ->]. by rewrite take_app_length.
Qed.

Lemma split_inv_skip s len sep j start slots slots' tokens toks :
  split_inv s len sep j start slots tokens toks ->
  ~ sep `prefix_of` drop (Z.to_nat j) s ->
  1 <= slots' -> zlen tokens + 1 <= slots' ->
  split_inv s len sep (j + 1) start slots' tokens toks.
Proof.
  intros [] Hno Hs1 Hs2. split; try done; [lia|].
  intros i Hi. destruct (Z.eq_dec i j) as [->|]; [done|]. apply si_scanned0. lia.
Qed.

Lemma split_inv_cut s len sep j start slots slots' tokens toks t :
  split_inv s len sep j start slots tokens toks ->
  sep `prefix_of` drop (Z.to_nat j) s -> 1 <= zlen sep ->
  j + zlen sep <= len -> len <= zlen s ->
  sds_rep t (sub s start j) ->
  1 <= slots' -> zlen tokens + 2 <= slots' ->
  split_inv s len sep (j + zlen sep) (j + zlen sep) slots' (tokens ++ [t]) (toks ++ [sub s start j]).
Proof.
  intros [] Hpre Hsep Hj Hlen Ht Hs1 Hs2. split.
  - lia.
  - lia.
  - rewrite zlen_app, zlen_cons, zlen_nil. lia.
  - apply Forall2_app; [done|]. by constructor.
  - rewrite map_app, concat_app, si_join0. cbn. rewrite app_nil_r.
    rewrite (sub_split s 0 j (j + zlen sep)) by lia.
    rewrite (sub_split s 0 start j) by lia. rewrite <- app_assoc. do 2 f_equal.
    symmetry. apply sep_prefix_sub; [lia..|done|done].
  - apply Forall_app. split; [done|]. constructor; [|done].
    apply no_sep_sub; [lia..|]. intros i Hi1 Hi2. apply si_scanned0. lia.
  - intros i Hi. lia.
Qed.

Lemma sdssplitlen_loop_spec s len sep : forall fuel j start slots tokens toks,
  0 <= len <= zlen s -> len <= sds_max -> 1 <= zlen sep ->
  split_inv s len sep j start slots tokens toks ->
  j <= len -> len - j < Z.of_nat fuel ->
  exists j' start' slots' tokens' toks',
    sdssplitlen_loop fuel s len sep (zlen sep) j start slots tokens
      = Ok (start', slots', tokens') /\
    split_inv s len sep j' start' slots' tokens' toks' /\
    len - (zlen sep - 1) <= j'.
Proof.
  induction fuel as [|fuel IH]; intros j start slots tokens toks Hlen Hmax Hsep Hinv Hjl Hf; [lia|].
  cbn [sdssplitlen_loop].
  destruct (Z.ltb_spec j (len - (zlen sep - 1))) as [Hj|Hj].
  2: { eexists j, start, slots, tokens, toks. split; [done|]. split; [done|lia]. }
  pose proof Hinv as [Hstart Hend Hslots _ _ _ _].
  set (slots' := if _ <? _ then _ else _).
  assert (Hs' : 1 <= slots' /\ zlen tokens + 2 <= slots').
  { unfold slots'. pose proof (zlen_nonneg tokens).
    destruct (Z.ltb_spec slots (zlen tokens + 2)); lia. }
  destruct (sep_test s j sep (zlen sep)) as (b & -> & Hb); [lia..|].
  rewrite to_nat_zlen, take_ge in Hb by done.
  rewrite sep_prefix_sub in Hb by (lia || done).
  cbn [mbind result_bind]. destruct b.
  - destruct (sdsnewlen_copy (at_ptr s start) (j - start)) as (t & -> & Ht);
      [lia|unfold at_ptr; len_lia|].
    cbn [mbind result_bind]. unfold store_token.
    rewrite (proj2 (Z.ltb_lt _ _)) by lia. cbn [mbind result_bind].
    replace (j + zlen sep - 1 + 1) with (j + zlen sep) by lia.
    eapply IH; [done..| |lia|lia].
    eapply split_inv_cut; [done|by apply Hb|done|lia|lia|done|lia|lia].
  - eapply IH; [done..| |lia|lia]. eapply split_inv_skip; [done| |lia|lia].
    intros H%Hb. discriminate.
Qed.

Lemma concat_join sep toks t :
  concat (map (fun t => t ++ sep) toks) ++ t = join sep (toks ++ [t]).
Proof.
  induction toks as [|a toks IH]; [done|]. cbn [map concat app].
  rewrite <- app_assoc, IH, <- app_assoc.
  destruct (toks ++ [t]) eqn:E; [by destruct toks|]. done.
Qed.

(** [sdssplitlen] returns tokens none of which contains the separator, and the
    separator put between them gives the input back. *)
Lemma sdssplitlen_sound s len sep :
  0 < len -> len <= zlen s -> len <= sds_max -> 1 <= zlen sep ->
  exists tokens toks,
    sdssplitlen s len sep (zlen sep) = Ok (Some tokens) /\
    Forall2 sds_rep tokens toks /\
    Forall (no_sep sep) toks /\
    join sep toks = take (Z.to_nat len) s.
Proof.
  intros H0 Hlen Hmax Hsep. unfold sdssplitlen.
  rewrite (proj2 (Z.ltb_ge (zlen sep) 1)), (proj2 (Z.ltb_ge len 0)) by lia. cbn [orb].
  rewrite (proj2 (Z.eqb_neq len 0)) by lia.
  destruct (sdssplitlen_loop_spec s len sep (S (Z.to_nat len)) 0 0 5 [] [])
    as (j & start & slots & tokens & toks & -> & Hinv & Hj); [lia..| |lia|lia|].
  { split; cbn; try done; try lia. }
  cbn [mbind result_bind].
  destruct (sdsnewlen_copy (at_ptr s start) (len - start)) as (t & -> & Ht).
  { destruct Hinv. lia. }
  { destruct Hinv. unfold at_ptr. len_lia. }
  cbn [mbind result_bind]. destruct Hinv. unfold store_token.
  rewrite (proj2 (Z.ltb_lt _ _)) by lia. cbn [mbind result_bind].
  exists (tokens ++ [t]), (toks ++ [sub s start len]).
  split; [done|]. split; [|split].
  - apply Forall2_app; [done|]. by constructor.
  - apply Forall_app. split; [done|]. constructor; [|done].
    apply no_sep_sub; [lia..|]. intros i Hi1 Hi2. apply si_scanned0. lia.
  - rewrite <- concat_join, si_join0, <- sub_split by lia.
    unfold sub. by rewrite Z.sub_0_r.
Qed.

(** ** Quoting *)

(** What [sdscatrepr] appends for one character. *)
Definition repr_out (c : byte) : list byte :=
  if bool_decide (c = x5c) || bool_decide (c = x22) then [x5c; c]
  else if bool_decide (c ∈ [x0a; x0d; x09; x07; x08]) then [x5c]
  else if isprint c then [c]
  else [x5c; x78; hexdigit (b2z c / 16); hexdigit (b2z c mod 16)].

Definition quote (w : list byte) : list byte :=
  [x22] ++ concat (map repr_out w) ++ [x22].

Lemma isprint_not0 c : isprint c = true -> c <> x00.
Proof. by intros H ->. Qed.

Lemma hexdigit_not0 n : 0 <= n < 16 -> hexdigit n <> x00.
Proof.
  intros H E. apply (f_equal b2z) in E. unfold hexdigit in E.
  change (b2z x00) with 0 in E.
  destruct (Z.ltb_spec n 10); rewrite b2z_z2b in E by lia; lia.
Qed.

Lemma sdscatrepr_char_spec s v c :
  is_ascii c = true -> sds_rep s v -> zlen v + 4 <= sds_max ->
  exists s', sdscatrepr_char s c = Ok s' /\ sds_rep s' (v ++ repr_out c).
Proof.
  intros Hc Hs Hm. unfold sdscatrepr_char, repr_out.
  assert (Hone : forall t u, zlen v + 1 <= sds_max ->
    exists s', sdscatlen s (cstr (t :: u)) 1 = Ok s' /\ sds_rep s' (v ++ [t])).
  { intros t u H. apply (sdscatlen_spec s v (cstr (t :: u)) 1); [done| |done].
    unfold cstr. len_lia. }
  destruct (bool_decide (c = x5c) || bool_decide (c = x22)) eqn:Esc.
  { apply sdscatprintf_spec; [done| |len_lia].
    intros [E|[E|[]%elem_of_nil]%elem_of_cons]%elem_of_cons; [done|by subst c]. }
  clear Esc.
  case_bool_decide; [subst; by apply Hone; lia|].
  case_bool_decide; [subst; by apply Hone; lia|].
  case_bool_decide; [subst; by apply Hone; lia|].
  case_bool_decide; [subst; by apply Hone; lia|].
  case_bool_decide; [subst; by apply Hone; lia|].
  rewrite bool_decide_eq_false_2 by
    (rewrite !not_elem_of_cons; repeat split; try done; apply not_elem_of_nil).
  rewrite (ctype_char_ascii c Hc). cbn [mbind result_bind].
  destruct (isprint c) eqn:Ep.
  - apply sdscatprintf_spec; [done| |len_lia].
    intros [E|[]%elem_of_nil]%elem_of_cons. by subst c.
  - pose proof (b2z_range c).
    assert (Hh1 : x00 <> hexdigit (b2z c / 16)).
    { apply not_eq_sym, hexdigit_not0. split; [apply Z.div_pos; lia|apply Z.div_lt_upper_bound; lia]. }
    assert (Hh2 : x00 <> hexdigit (b2z c mod 16)).
    { apply not_eq_sym, hexdigit_not0, Z.mod_pos_bound. lia. }
    apply sdscatprintf_spec; [done| |len_lia].
    rewrite !not_elem_of_cons. repeat split; try done. apply not_elem_of_nil.
Qed.

Lemma repr_out_length c : zlen (repr_out c) <= 4.
Proof. unfold repr_out. by repeat case_match. Qed.

Lemma sdscatrepr_loop_spec : forall w s v rest,
  Forall (fun c => is_ascii c = true) w -> sds_rep s v -> zlen v + 4 * zlen w <= sds_max ->
  exists s', sdscatrepr_loop s (w ++ rest) (length w) = Ok s' /\
    sds_rep s' (v ++ concat (map repr_out w)).
Proof.
  induction w as [|c w IH]; intros s v rest Hw Hs Hm.
  { exists s. split; [done|]. cbn [map concat]. by rewrite app_nil_r. }
  apply Forall_cons in Hw as [Hc Hw].
  cbn [length sdscatrepr_loop app map concat].
  rewrite zlen_cons in Hm. pose proof (zlen_nonneg w).
  destruct (sdscatrepr_char_spec s v c) as (s1 & -> & H1); [done|done|lia|].
  cbn [mbind result_bind]. pose proof (repr_out_length c).
  destruct (IH s1 (v ++ repr_out c) rest) as (s2 & -> & H2); [done|done|rewrite zlen_app; lia|].
  rewrite <- app_assoc in H2. eauto.
Qed.

Lemma sdscatrepr_value s v w rest :
  Forall (fun c => is_ascii c = true) w -> sds_rep s v -> zlen v + 4 * zlen w + 2 <= sds_max ->
  exists s', sdscatrepr s (w ++ rest) (zlen w) = Ok s' /\ sds_rep s' (v ++ quote w).
Proof.
  intros Hw Hs Hm. unfold sdscatrepr. pose proof (zlen_nonneg w).
  destruct (sdscatlen_spec s v (cstr [x22]) 1) as (s1 & -> & H1);
    [done|unfold cstr; len_lia|lia|]. cbn [mbind result_bind].
  change (take (Z.to_nat 1) (cstr [x22])) with [x22] in H1.
  rewrite to_nat_zlen.
  destruct (sdscatrepr_loop_spec w s1 (v ++ [x22]) rest) as (s2 & -> & H2);
    [done|done|len_lia|]. cbn [mbind result_bind].
  assert (Hle : zlen (concat (map repr_out w)) <= 4 * zlen w).
  { clear. induction w as [|c w IH]; [done|]. cbn [map concat].
    rewrite zlen_app, zlen_cons. pose proof (repr_out_length c). lia. }
  destruct (sdscatlen_spec s2 ((v ++ [x22]) ++ concat (map repr_out w)) (cstr [x22]) 1)
    as (s3 & -> & H3); [done|unfold cstr; len_lia|len_lia|].
  change (take (Z.to_nat 1) (cstr [x22])) with [x22] in H3.
  unfold quote. rewrite <- !app_assoc in H3. eauto.
Qed.

(** ** [sdssplitargs] reads quoted arguments back *)

Lemma deref_drop line p c t :
  0 <= p -> drop (Z.to_nat p) line = c :: t -> deref line p = Ok c.
Proof.
  intros Hp E. apply deref_lookup; [done|].
  by rewrite <- (Nat.add_0_r (Z.to_nat p)), <- lookup_drop, E.
Qed.

Lemma drop_next {A} (line : list A) p c t :
  0 <= p -> drop (Z.to_nat p) line = c :: t -> drop (Z.to_nat (p + 1)) line = t.
Proof.
  intros Hp E. replace (Z.to_nat (p + 1)) with (Z.to_nat p + 1)%nat by lia.
  by rewrite <- drop_drop, E.
Qed.

(** One printable character inside quotes, as [sdscatrepr] wrote it. *)
Lemma token_char fuel line p c t current v :
  0 <= p -> isprint c = true ->
  drop (Z.to_nat p) line = repr_out c ++ t ->
  sds_rep current v -> zlen v + 1 <= sds_max ->
  exists current', sds_rep current' (v ++ [c]) /\
    drop (Z.to_nat (p + zlen (repr_out c))) line = t /\
    splitargs_token (S fuel) line p true current =
      splitargs_token fuel line (p + zlen (repr_out c)) true current'.
Proof.
  intros Hp Hc E Hs Hm. cbn [splitargs_token].
  destruct (sdscatlen_spec current v [c] 1) as (current' & Ec & Hs');
    [done|len_lia|done|].
  exists current'. split; [done|].
  assert (H0 := isprint_not0 c Hc).
  unfold repr_out in *.
  assert (Hspecial : c ∉ [x0a; x0d; x09; x07; x08]).
  { intros Hin. rewrite !elem_of_cons in Hin.
    destruct Hin as [->|[->|[->|[->|[->|[]%elem_of_nil]]]]]; by discriminate Hc. }
  rewrite (bool_decide_eq_false_2 _ Hspecial), Hc in *.
  destruct (decide (c = x5c \/ c = x22)) as [Hesc|Hplain].
  - assert (Hb : bool_decide (c = x5c) || bool_decide (c = x22) = true).
    { apply orb_true_iff. destruct Hesc; [left|right]; by apply bool_decide_eq_true. }
    rewrite Hb in *. cbn [app] in E.
    pose proof (drop_next _ _ _ _ Hp E) as E1.
    pose proof (drop_next line (p + 1) _ _ ltac:(lia) E1) as E2.
    rewrite !zlen_cons, zlen_nil. replace (p + (1 + (1 + 0))) with (p + 1 + 1) by lia.
    split; [done|].
    rewrite (deref_drop _ _ _ _ Hp E). cbn [mbind result_bind].
    rewrite (bool_decide_eq_true_2 (x5c = x5c)) by done.
    rewrite (deref_drop line (p + 1) c t) by (done || lia). cbn [mbind result_bind].
    rewrite (bool_decide_eq_false_2 (c = x00)) by done. cbn [negb].
    assert (Heq : splitargs_escape c = c) by (destruct Hesc; by subst).
    by rewrite Heq, Ec.
  - assert (Hb : bool_decide (c = x5c) || bool_decide (c = x22) = false).
    { apply orb_false_iff. split; apply bool_decide_eq_false; tauto. }
    rewrite Hb in *. cbn [app] in E. apply orb_false_iff in Hb as [Hb1 Hb2].
    rewrite zlen_cons, zlen_nil, Z.add_0_r.
    split; [by eapply drop_next|].
    rewrite (deref_drop _ _ _ _ Hp E). cbn [mbind result_bind].
    rewrite Hb1. cbn [mbind result_bind]. rewrite Hb2.
    rewrite (bool_decide_eq_false_2 (c = x00)) by done.
    rewrite Ec. cbn [mbind result_bind]. done.
Qed.

(** The character behind a closing quote: the end of the line or a blank. *)
Definition ends_arg (t : list byte) : Prop :=
  exists c u, t = c :: u /\ (c = x00 \/ isspace c = true).

Lemma token_quoted : forall w fuel line p t current v,
  0 <= p -> Forall (fun c => isprint c = true) w ->
  drop (Z.to_nat p) line = concat (map repr_out w) ++ x22 :: t -> ends_arg t ->
  sds_rep current v -> zlen v + zlen w <= sds_max -> (length w < fuel)%nat ->
  exists p' current', splitargs_token fuel line p true current = Ok (Some (p', current')) /\
    0 <= p' /\ drop (Z.to_nat p') line = t /\ sds_rep current' (v ++ w).
Proof.
  induction w as [|c w IH]; intros fuel line p t current v Hp Hw E Ht Hs Hm Hf;
    (destruct fuel as [|fuel]; [cbn in Hf; lia|]).
  - cbn [map concat app] in E. destruct Ht as (d & u & -> & Hd).
    pose proof (drop_next _ _ _ _ Hp E) as E1.
    exists (p + 1), current. rewrite app_nil_r. split; [|split; [lia|done]].
    cbn [splitargs_token]. rewrite (deref_drop _ _ _ _ Hp E). cbn [mbind result_bind].
    rewrite (bool_decide_eq_false_2 (x22 = x5c)) by done. cbn [mbind result_bind].
    rewrite (bool_decide_eq_true_2 (x22 = x22)) by done.
    rewrite (deref_drop line (p + 1) d u) by (done || lia). cbn [mbind result_bind].
    destruct Hd as [->|Hd]; [done|]. case_bool_decide; [done|]. cbn [negb].
    rewrite (ctype_char_ascii d) by (by apply isspace_ascii). cbn [mbind result_bind].
    by rewrite Hd.
  - inversion Hw as [|? ? Hc Hw']; subst. cbn [map concat] in E.
    rewrite <- app_assoc in E. rewrite zlen_cons in Hm. pose proof (zlen_nonneg w).
    destruct (token_char fuel line p c _ current v Hp Hc E Hs) as (cur1 & Hs1 & E1 & ->); [lia|].
    pose proof (zlen_nonneg (repr_out c)).
    destruct (IH fuel line (p + zlen (repr_out c)) t cur1 (v ++ [c]))
      as (p' & cur' & -> & Hp' & E' & Hs'); try done; [lia|len_lia|cbn in Hf; lia|].
    rewrite <- app_assoc in Hs'. eauto 10.
Qed.

(** A line of quoted arguments with one blank between two of them. *)
Fixpoint args_line (ws : list (list byte)) : list byte :=
  match ws with
  | [] => [x00]
  | [w] => quote w ++ [x00]
  | w :: ws => quote w ++ x20 :: args_line ws
  end.

Lemma repr_out_concat_length w : (length w <= length (concat (map repr_out w)))%nat.
Proof.
  induction w as [|c w IH]; [done|]. cbn [map concat length]. rewrite length_app.
  assert (1 <= length (repr_out c))%nat; [|lia].
  unfold repr_out. repeat case_match; cbn; lia.
Qed.

Lemma quote_app w t : quote w ++ t = x22 :: concat (map repr_out w) ++ x22 :: t.
Proof. unfold quote. cbn. by rewrite <- app_assoc. Qed.

(** A whole quoted argument, from its opening quote on. *)
Lemma token_argument line p w t :
  0 <= p -> Forall (fun c => isprint c = true) w -> zlen w <= sds_max ->
  drop (Z.to_nat p) line = quote w ++ t -> ends_arg t ->
  exists p' current, sds_rep current w /\ 0 <= p' /\ drop (Z.to_nat p') line = t /\
    (current ← sdsempty; splitargs_token (S (length line)) line p false current)
      = Ok (Some (p', current)).
Proof.
  intros Hp Hw Hm E Ht. rewrite quote_app in E.
  destruct sdsempty_spec as (e & -> & He). cbn [mbind result_bind].
  pose proof (drop_next _ _ _ _ Hp E) as E1.
  destruct (token_quoted w (length line) line (p + 1) t e []) as
    (p' & cur & Et & Hp' & E' & Hc); try done; [lia| |].
  { apply (f_equal length) in E1. pose proof (repr_out_concat_length w). len_lia. }
  exists p', cur. split; [done|]. split; [done|]. split; [done|].
  cbn [splitargs_token]. rewrite (deref_drop _ _ _ _ Hp E). cbn [mbind result_bind].
  rewrite (bool_decide_eq_false_2 (x22 ∈ _)).
  2: { rewrite !not_elem_of_cons. repeat split; try done. apply not_elem_of_nil. }
  rewrite (bool_decide_eq_true_2 (x22 = x22)) by done.
  rewrite (bool_decide_eq_false_2 (x22 = x00)) by done. exact Et.
Qed.

(** Zero or one blank in front of something that is not a blank. *)
Lemma skip_blanks_spec line p blank c t :
  0 <= p -> blank = [] \/ blank = [x20] ->
  drop (Z.to_nat p) line = blank ++ c :: t -> isspace c = false -> is_ascii c = true ->
  exists p', skip_blanks (S (length line)) line p = Ok p' /\ 0 <= p' /\
    drop (Z.to_nat p') line = c :: t.
Proof.
  intros Hp Hb E Hc Hascii.
  assert (Hstop : forall fuel q, 0 <= q -> drop (Z.to_nat q) line = c :: t ->
    skip_blanks (S fuel) line q = Ok q).
  { intros fuel q Hq Eq. cbn [skip_blanks]. rewrite (deref_drop _ _ _ _ Hq Eq).
    cbn [mbind result_bind]. case_bool_decide; [done|]. cbn [negb].
    rewrite (ctype_char_ascii c Hascii). cbn [mbind result_bind]. by rewrite Hc. }
  destruct Hb as [->| ->]; cbn [app] in E.
  - exists p. auto.
  - pose proof (drop_next _ _ _ _ Hp E) as E1.
    exists (p + 1). split; [|split; [lia|done]].
    cbn [skip_blanks]. rewrite (deref_drop _ _ _ _ Hp E). cbn [mbind result_bind].
    change (negb (bool_decide (x20 = x00))) with true. change (ctype_char x20) with (@Ok byte x20).
    cbn [mbind result_bind]. change (isspace x20) with true. cbn match.
    destruct (length line) eqn:El.
    { apply (f_equal length) in E. len_lia. }
    apply Hstop; [lia|done].
Qed.

Lemma splitargs_loop_spec line : forall ws fuel p blank vector vs,
  Forall (Forall (fun c => isprint c = true)) ws -> Forall (fun w => zlen w <= sds_max) ws ->
  0 <= p -> blank = [] \/ blank = [x20] ->
  drop (Z.to_nat p) line = blank ++ args_line ws ->
  Forall2 sds_rep vector vs -> (length ws < fuel)%nat ->
  exists toks, splitargs_loop fuel line p vector = Ok (Some toks) /\
    Forall2 sds_rep toks (vs ++ ws).
Proof.
  induction ws as [|w ws IH]; intros fuel p blank vector vs Hw Hm Hp Hb E Hv Hf;
    (destruct fuel as [|fuel]; [cbn in Hf; lia|]); cbn [splitargs_loop].
  - cbn [args_line] in E.
    destruct (skip_blanks_spec line p blank x00 [] Hp Hb E) as (q & -> & Hq & Eq); [done|done|].
    cbn [mbind result_bind]. rewrite (deref_drop _ _ _ _ Hq Eq). cbn.
    exists vector. by rewrite app_nil_r.
  - inversion Hw as [|? ? Hw1 Hw2]; inversion Hm as [|? ? Hm1 Hm2]; subst.
    assert (Ht : exists t, args_line (w :: ws) = quote w ++ t /\ ends_arg t /\
      exists blank', (blank' = [] \/ blank' = [x20]) /\ t = blank' ++ args_line ws).
    { cbn [args_line]. destruct ws as [|w' ws'].
      - exists [x00]. split; [done|]. split; [exists x00, []; auto|]. exists []. auto.
      - exists (x20 :: args_line (w' :: ws')). split; [done|].
        split; [exists x20, (args_line (w' :: ws')); auto|]. exists [x20]. auto. }
    destruct Ht as (t & Et & Hends & blank' & Hb' & Et').
    rewrite Et, quote_app in E.
    destruct (skip_blanks_spec line p blank x22 _ Hp Hb E) as (q & -> & Hq & Eq); [done|done|].
    cbn [mbind result_bind]. rewrite (deref_drop _ _ _ _ Hq Eq). cbn [mbind result_bind].
    rewrite (bool_decide_eq_false_2 (x22 = x00)) by done. cbn [negb].
    rewrite <- quote_app in Eq.
    destruct (token_argument line q w t) as (p' & cur & Hc & Hp' & Ep' & Etok); [done..|].
    apply bind_Ok in Etok as (e & -> & Etok). cbn [mbind result_bind]. rewrite Etok.
    cbn [mbind result_bind].
    destruct (IH fuel p' blank' (vector ++ [cur]) (vs ++ [w])) as (toks & -> & Htoks);
      try done.
    + by rewrite Ep', Et'.
    + apply Forall2_app; [done|]. by constructor.
    + cbn in Hf. lia.
    + exists toks. by rewrite <- app_assoc in Htoks.
Qed.

Lemma args_line_length ws : (length ws < length (args_line ws))%nat.
Proof.
  induction ws as [|w ws IH]; cbn; [lia|].
  destruct ws; cbn [length] in *; rewrite length_app; unfold quote; cbn in *; lia.
Qed.

Lemma sdssplitargs_line ws :
  Forall (Forall (fun c => isprint c = true)) ws -> Forall (fun w => zlen w <= sds_max) ws ->
  exists toks, sdssplitargs (args_line ws) = Ok (Some toks) /\ Forall2 sds_rep toks ws.
Proof.
  intros Hw Hm. unfold sdssplitargs.
  apply (splitargs_loop_spec _ ws _ 0 [] [] []); auto; [lia|].
  pose proof (args_line_length ws). lia.
Qed.

(** ** Properties *)

(** [sdssplitargs] gives back the arguments of a line written with the
    quoting of [sdscatrepr], for arguments of printable characters; both
    functions succeed. *)
Theorem splitargs_reads_quotes ws :
  Forall (Forall (fun c => isprint c = true)) ws ->
  Forall (fun w => 4 * zlen w + 2 <= sds_max) ws ->
  Forall (fun w => exists e q, sdsempty = Ok e /\ sdscatrepr e w (zlen w) = Ok q /\
                     sds_rep q (quote w)) ws /\
  exists toks, sdssplitargs (args_line ws) = Ok (Some toks) /\ Forall2 sds_rep toks ws.
Proof.
  intros Hw Hm. split.
  - apply Forall_forall. intros w Hin. rewrite Forall_forall in Hm. specialize (Hm w Hin).
    destruct sdsempty_spec as (e & Ee & He).
    destruct (sdscatrepr_value e [] w []) as (q & Eq & Hq); [|done|by rewrite zlen_nil|].
    { rewrite Forall_forall in Hw. eapply Forall_impl; [by apply Hw|]. apply isprint_ascii. }
    rewrite app_nil_r in Eq. eauto 6.
  - apply sdssplitargs_line; [done|]. eapply Forall_impl; [exact Hm|].
    intros w H. cbn in H. pose proof (zlen_nonneg w). lia.
Qed.

Lemma splitargs_reads_quotes_witness :
  Forall (fun w => exists e q, sdsempty = Ok e /\ sdscatrepr e w (zlen w) = Ok q /\
            sds_rep q (quote w)) [bytes "say"; x22 :: bytes "hi\"] /\
  exists toks, sdssplitargs (args_line [bytes "say"; x22 :: bytes "hi\"]) = Ok (Some toks) /\
    Forall2 sds_rep toks [bytes "say"; x22 :: bytes "hi\"].
Proof.
  apply (splitargs_reads_quotes [bytes "say"; x22 :: bytes "hi\"]).
  - repeat constructor.
  - repeat constructor; vm_compute; discriminate.
Defined.

(** A newline does not survive the round trip: [sdscatrepr] appends only the
    backslash of its escape, and [sdssplitargs] rejects the line. *)
Example repr_newline_rejected :
  exists e q, sdsempty = Ok e /\ sdscatrepr e [x0a] 1 = Ok q /\
    sds_rep q [x22; x5c; x22] /\
    sdssplitargs (cstr [x22; x5c; x22]) = Ok None.
Proof.
  destruct sdsempty_spec as (e & Ee & He).
  destruct (sdscatrepr_value e [] [x0a] []) as (q & Eq & Hq);
    [by repeat constructor|done|vm_compute; discriminate|].
  exists e, q. repeat split; try done.
Qed.

(** [sdssplitlen] always returns a vector of tokens for a non-empty input;
    none of them contains the separator, and putting the separator back between
    them gives the input. *)
Theorem splitlen_join s len sep :
  0 < len -> len <= zlen s -> len <= sds_max -> 1 <= zlen sep ->
  exists tokens toks,
    sdssplitlen s len sep (zlen sep) = Ok (Some tokens) /\
    Forall2 sds_rep tokens toks /\
    Forall (no_sep sep) toks /\
    join sep toks = take (Z.to_nat len) s.
Proof. apply sdssplitlen_sound. Qed.

Lemma splitlen_join_witness :
  exists tokens toks,
    sdssplitlen (bytes "foo_-_bar") 9 (bytes "_-_") 3 = Ok (Some tokens) /\
    Forall2 sds_rep tokens toks /\
    Forall (no_sep (bytes "_-_")) toks /\
    join (bytes "_-_") toks = bytes "foo_-_bar".
Proof.
  apply (splitlen_join (bytes "foo_-_bar") 9 (bytes "_-_")); vm_compute; congruence.
Defined.
