(* ===== verification/Resp.v ===== *)
(** * The redis protocol: replies, their encoding, and parsing in pieces

    The grammar the reply reader of [win32/hiredis/hiredis.c] accepts, as
    functions on the bytes not yet consumed.  [lex] is one item of a reply,
    [parse] the stack machine over items, [encode] what a redis server sends.
    [Reader] proves that the reader implements [parse]. *)

From S2P Require Import Prelude Digits SdsText.

(** ** Replies *)

Inductive reply :=
| RStatus (s : list byte)
| RError (s : list byte)
| RString (s : list byte)
| RInteger (z : Z)
| RNil
| RArray (xs : list reply).

Fixpoint reply_nodes (x : reply) : nat :=
  match x with
  | RArray xs => S (fold_right (fun y n => reply_nodes y + n)%nat 0%nat xs)
  | _ => 1
  end.

Definition replies_nodes (xs : list reply) : nat :=
  fold_right (fun y n => reply_nodes y + n)%nat 0%nat xs.

(** The number of arrays around the innermost item. *)
Fixpoint reply_depth (x : reply) : nat :=
  match x with
  | RArray xs => S (fold_right (fun y n => max (reply_depth y) n) 0%nat xs)
  | _ => 0
  end.

(** ** Lines and numbers *)

(** The bytes before and after the first CR LF. *)
Fixpoint cut_line (u : list byte) : option (list byte * list byte) :=
  match u with
  | [] => None
  | c :: u' =>
      if bool_decide (c = x0d /\ head u' = Some x0a) then Some ([], tail u')
      else '(l, rest) ← cut_line u'; Some (c :: l, rest)
  end.

(** The digits of a number up to the first CR; [None] when the [long long]
    arithmetic overflows, [-1] for any other character. *)
Fixpoint number_digits (mult v : Z) (l : list byte) : option Z :=
  match l with
  | [] => if in_i64 (mult * v) then Some (mult * v) else None
  | c :: l' =>
      if bool_decide (c = x0d) then if in_i64 (mult * v) then Some (mult * v) else None
      else if isdigit c then
        if in_i64 (v * 10) && in_i64 (v * 10 + (b2z c - 48))
        then number_digits mult (v * 10 + (b2z c - 48)) l' else None
      else Some (-1)
  end.

Definition number (l : list byte) : option Z :=
  match l with
  | [] => Some 0
  | c :: l' =>
      if bool_decide (c = x2d) then number_digits (-1) 0 l'
      else if bool_decide (c = x2b) then number_digits 1 0 l'
      else number_digits 1 0 l
  end.

(** ** One item *)

Inductive token :=
| TItem (x : reply)
| TOpen (n : Z).  (** an array of [n > 0] elements follows *)

Inductive lexed :=
| Need                                (** more bytes are needed *)
| Bad (msg : list byte)               (** a protocol error *)
| Unsafe                              (** outside of what the reader can represent *)
| Got (t : token) (rest : list byte).

Definition max_nesting : nat := 8.

Definition nesting_error : list byte :=
  bytes "No support for nested multi bulk replies with depth > 7".
Definition type_error (c : byte) : list byte :=
  bytes "Protocol error, got " ++ quote [c] ++ bytes " as reply type byte".

Definition lex_number (u : list byte) (k : Z -> list byte -> lexed) : lexed :=
  match cut_line u with
  | None => Need
  | Some (l, rest) => match number l with Some z => k z rest | None => Unsafe end
  end.

Definition lex_line (u : list byte) (k : list byte -> reply) : lexed :=
  match cut_line u with
  | None => Need
  | Some (l, rest) => Got (TItem (k l)) rest
  end.

Definition lex_bulk (n : Z) (rest : list byte) : lexed :=
  if n <? 0 then Got (TItem RNil) rest
  else if 2 ^ 31 <=? n then Unsafe
  else if n + 2 <=? zlen rest
       then Got (TItem (RString (take (Z.to_nat n) rest))) (drop (Z.to_nat (n + 2)) rest)
       else Need.

Definition lex_array (n : Z) (rest : list byte) : lexed :=
  if n =? -1 then Got (TItem RNil) rest
  else if n =? 0 then Got (TItem (RArray [])) rest
  else if (n <? 0) || (2 ^ 30 <=? n) then Unsafe
  else Got (TOpen n) rest.

(** The item at the head of [u], below [depth] open arrays. *)
Definition lex (depth : nat) (u : list byte) : lexed :=
  match u with
  | [] => Need
  | c :: u' =>
      if bool_decide (c = x2d) then lex_line u' RError
      else if bool_decide (c = x2b) then lex_line u' RStatus
      else if bool_decide (c = x3a) then
        lex_number u' (fun z rest => Got (TItem (RInteger z)) rest)
      else if bool_decide (c = x24) then lex_number u' lex_bulk
      else if bool_decide (c = x2a) then
        if bool_decide (depth = max_nesting) then Bad nesting_error
        else lex_number u' lex_array
      else if is_ascii c then Bad (type_error c)
      else Unsafe
  end.

(** ** The stack of open arrays *)

(** Elements expected and elements read so far. *)
Abbreviation frame := (Z * list reply)%type.

Fixpoint plug (x : reply) (fs : list frame) : reply + list frame :=
  match fs with
  | [] => inl x
  | (n, ts) :: fs =>
      if zlen (ts ++ [x]) =? n then plug (RArray (ts ++ [x])) fs
      else inr ((n, ts ++ [x]) :: fs)
  end.

Inductive outcome :=
| Waiting (fs : list frame) (u : list byte)
| Failed (msg : list byte)
| Dangerous
| Finished (x : reply) (rest : list byte).

Fixpoint parse_fuel (fuel : nat) (fs : list frame) (u : list byte) : outcome :=
  match fuel with
  | O => Waiting fs u
  | S fuel =>
      match lex (length fs) u with
      | Need => Waiting fs u
      | Bad msg => Failed msg
      | Unsafe => Dangerous
      | Got (TOpen n) rest => parse_fuel fuel ((n, []) :: fs) rest
      | Got (TItem x) rest =>
          match plug x fs with
          | inl r => Finished r rest
          | inr fs => parse_fuel fuel fs rest
          end
      end
  end.

Definition parse (fs : list frame) (u : list byte) : outcome := parse_fuel (S (length u)) fs u.

(** ** Encoding *)

Definition crlf : list byte := [x0d; x0a].

Definition encode_bulk (s : list byte) : list byte :=
  [x24] ++ print_u (zlen s) ++ crlf ++ s ++ crlf.

Fixpoint encode (x : reply) : list byte :=
  match x with
  | RStatus s => [x2b] ++ s ++ crlf
  | RError s => [x2d] ++ s ++ crlf
  | RString s => encode_bulk s
  | RInteger z => [x3a] ++ print_d z ++ crlf
  | RNil => [x24] ++ print_d (-1) ++ crlf
  | RArray xs =>
      [x2a] ++ print_u (zlen xs) ++ crlf ++ fold_right (fun y b => encode y ++ b) [] xs
  end.

Definition encodes (xs : list reply) : list byte :=
  fold_right (fun y b => encode y ++ b) [] xs.

(** What a server may put into a reply: no CR in a status or error line, numbers
    in the range of [long long], lengths the reader can represent. *)
Fixpoint wf_reply (x : reply) : Prop :=
  match x with
  | RStatus s | RError s => x0d ∉ s
  | RString s => zlen s < 2 ^ 31
  | RInteger z => - 2 ^ 63 < z < 2 ^ 63
  | RNil => True
  | RArray xs => zlen xs < 2 ^ 30 /\ fold_right (fun y P => wf_reply y /\ P) True xs
  end.

(** ** Induction on replies *)

Section reply_induction.
Context (P : reply -> Prop).
Hypothesis Hstatus : forall s, P (RStatus s).
Hypothesis Herror : forall s, P (RError s).
Hypothesis Hstring : forall s, P (RString s).
Hypothesis Hinteger : forall z, P (RInteger z).
Hypothesis Hnil : P RNil.
Hypothesis Harray : forall xs, Forall P xs -> P (RArray xs).

Fixpoint reply_ind_list (x : reply) : P x :=
  match x with
  | RStatus s => Hstatus s
  | RError s => Herror s
  | RString s => Hstring s
  | RInteger z => Hinteger z
  | RNil => Hnil
  | RArray xs =>
      Harray xs ((fix go (ys : list reply) : Forall P ys :=
        match ys with
        | [] => List.Forall_nil P
        | y :: ys => List.Forall_cons P y ys (reply_ind_list y) (go ys)
        end) xs)
  end.
End reply_induction.

(** ** More bytes only help *)

Lemma cut_line_app u l rest v :
  cut_line u = Some (l, rest) -> cut_line (u ++ v) = Some (l, rest ++ v).
Proof.
  revert l rest. induction u as [|c u IH]; intros l rest H; [discriminate|].
  cbn [cut_line app] in *. case_bool_decide as Hc.
  - destruct Hc as [-> Hh]. destruct u as [|b u]; [discriminate|].
    cbn in Hh. rewrite bool_decide_eq_true_2 by done. by injection H as <- <-.
  - destruct u as [|b u]; [discriminate|].
    rewrite bool_decide_eq_false_2 by exact Hc.
    destruct (cut_line (b :: u)) as [[l' rest']|]; [|discriminate].
    cbn in H. injection H as <- <-. by rewrite (IH _ _ eq_refl).
Qed.

Lemma cut_line_eq u l rest :
  cut_line u = Some (l, rest) -> u = l ++ crlf ++ rest.
Proof.
  revert l rest. induction u as [|c u IH]; intros l rest H; [discriminate|].
  cbn [cut_line] in H. case_bool_decide as Hc.
  - destruct Hc as [-> Hh]. destruct u as [|b u]; [discriminate|].
    cbn in Hh. injection Hh as ->. by injection H as <- <-.
  - destruct (cut_line u) as [[l' rest']|]; [|discriminate].
    cbn in H. injection H as <- <-. cbn. by rewrite (IH _ _ eq_refl) at 1.
Qed.

Lemma cut_line_crlf l v : x0d ∉ l -> cut_line (l ++ crlf ++ v) = Some (l, v).
Proof.
  induction l as [|c l IH]; intros H.
  - cbn. by rewrite bool_decide_eq_true_2.
  - apply not_elem_of_cons in H as [Hc Hl]. cbn [cut_line app].
    rewrite bool_decide_eq_false_2 by (intros [? _]; congruence).
    by rewrite (IH Hl).
Qed.

Definition extend_lexed (x : lexed) (v : list byte) : lexed :=
  match x with Got t rest => Got t (rest ++ v) | x => x end.

Lemma lex_line_app u k v x :
  lex_line u k = x -> x <> Need -> lex_line (u ++ v) k = extend_lexed x v.
Proof.
  intros <- H. unfold lex_line in *. destruct (cut_line u) as [[l rest]|] eqn:E; [|done].
  by rewrite (cut_line_app _ _ _ v E).
Qed.

Lemma lex_number_app u k v :
  (forall z rest, k z rest <> Need -> k z (rest ++ v) = extend_lexed (k z rest) v) ->
  lex_number u k <> Need ->
  lex_number (u ++ v) k = extend_lexed (lex_number u k) v.
Proof.
  intros Hk H. unfold lex_number in *.
  destruct (cut_line u) as [[l rest]|] eqn:E; [|done].
  rewrite (cut_line_app _ _ _ v E). destruct (number l); auto.
Qed.

Lemma lex_bulk_app v z rest :
  lex_bulk z rest <> Need -> lex_bulk z (rest ++ v) = extend_lexed (lex_bulk z rest) v.
Proof.
  unfold lex_bulk. intros H. destruct (Z.ltb_spec z 0); [done|].
  destruct (Z.leb_spec (2 ^ 31) z); [done|].
  destruct (Z.leb_spec (z + 2) (zlen rest)); [|done].
  rewrite (proj2 (Z.leb_le _ _)) by len_lia.
  rewrite take_app_le, drop_app_le by len_lia. done.
Qed.

Lemma lex_array_app v z rest :
  lex_array z (rest ++ v) = extend_lexed (lex_array z rest) v.
Proof. unfold lex_array. by repeat case_match. Qed.

Lemma lex_app d u v :
  lex d u <> Need -> lex d (u ++ v) = extend_lexed (lex d u) v.
Proof.
  destruct u as [|c u]; [done|]. cbn [lex app]. intros H.
  repeat case_bool_decide; try done; try (by apply lex_line_app);
    [apply lex_number_app; try done..|by destruct (is_ascii c)].
  - intros. by apply lex_bulk_app.
  - intros. by apply lex_array_app.
Qed.

Lemma lex_shrinks d u t rest : lex d u = Got t rest -> (length rest < length u)%nat.
Proof.
  destruct u as [|c u]; [done|]. cbn [lex].
  assert (Hcut : forall l r, cut_line u = Some (l, r) -> (length r < length u)%nat).
  { intros l r ->%cut_line_eq. rewrite !length_app. cbn. lia. }
  unfold lex_line, lex_number, lex_bulk, lex_array. cbn [length].
  destruct (cut_line u) as [[l r]|]; [specialize (Hcut l r eq_refl)|];
    repeat case_match; intros; simplify_eq; rewrite ?length_drop; lia.
Qed.

(** ** The parser as a fixed point *)

Definition parse_with (go : list frame -> list byte -> outcome) (fs : list frame)
    (u : list byte) : outcome :=
  match lex (length fs) u with
  | Need => Waiting fs u
  | Bad msg => Failed msg
  | Unsafe => Dangerous
  | Got (TOpen n) rest => go ((n, []) :: fs) rest
  | Got (TItem x) rest =>
      match plug x fs with inl r => Finished r rest | inr fs => go fs rest end
  end.

Lemma parse_fuel_enough : forall n m fs u,
  (length u < n)%nat -> (length u < m)%nat -> parse_fuel n fs u = parse_fuel m fs u.
Proof.
  induction n as [|n IH]; intros [|m] fs u Hn Hm; try lia. cbn [parse_fuel].
  destruct (lex (length fs) u) as [| | |t rest] eqn:E; try done.
  apply lex_shrinks in E. destruct t as [x|k]; [|apply IH; lia].
  destruct (plug x fs); [done|]. apply IH; lia.
Qed.

Lemma parse_unfold fs u : parse fs u = parse_with parse fs u.
Proof.
  unfold parse at 1, parse_with. cbn [parse_fuel].
  destruct (lex (length fs) u) as [| | |t rest] eqn:E; try done.
  apply lex_shrinks in E. unfold parse.
  destruct t as [x|k]; [|apply parse_fuel_enough; lia].
  destruct (plug x fs); [done|]. apply parse_fuel_enough; lia.
Qed.

(** Induction along the items a parse consumes. *)
Lemma parse_induction (P : list frame -> list byte -> Prop) :
  (forall fs u,
     (forall fs' rest, (length rest < length u)%nat -> P fs' rest) -> P fs u) ->
  forall fs u, P fs u.
Proof.
  intros H fs u. remember (length u) as n eqn:En. revert fs u En.
  induction n as [n IH] using lt_wf_ind. intros fs u ->.
  apply H. intros fs' rest Hlt. by apply (IH (length rest)).
Qed.

Definition extend_outcome (o : outcome) (v : list byte) : outcome :=
  match o with
  | Waiting fs u => parse fs (u ++ v)
  | Finished x rest => Finished x (rest ++ v)
  | o => o
  end.

(** A parse that stopped for lack of input goes on where it stopped. *)
Lemma parse_app fs u v : parse fs (u ++ v) = extend_outcome (parse fs u) v.
Proof.
  revert fs u. apply (parse_induction (fun fs u => parse fs (u ++ v) = extend_outcome (parse fs u) v)).
  intros fs u IH. rewrite (parse_unfold fs u). unfold parse_with.
  destruct (lex (length fs) u) as [| | |t rest] eqn:E; [done|..];
    rewrite parse_unfold; unfold parse_with;
    rewrite (lex_app _ _ v) by (rewrite E; discriminate); rewrite E; cbn [extend_lexed];
    try done.
  apply lex_shrinks in E.
  destruct t as [x|n]; [|by apply IH].
  destruct (plug x fs); [done|by apply IH].
Qed.

Lemma parse_waiting fs u fs' u' :
  parse fs u = Waiting fs' u' -> lex (length fs') u' = Need.
Proof.
  revert fs u. apply (parse_induction (fun fs u => parse fs u = _ -> _)).
  intros fs u IH. rewrite parse_unfold. unfold parse_with.
  destruct (lex (length fs) u) as [| | |t rest] eqn:E; try done; [by intros [= <- <-]|].
  apply lex_shrinks in E.
  destruct t as [x|n]; [|by apply IH].
  destruct (plug x fs); [done|by apply IH].
Qed.

(** ** Round trip *)

Lemma isdigit_range c : isdigit c = true -> 48 <= b2z c <= 57.
Proof. unfold isdigit. intros H. bool_lia. Qed.

Lemma digits_value_mono ds : forall a,
  Forall (fun b => isdigit b = true) ds -> 0 <= a -> a <= digits_value a ds.
Proof.
  induction ds as [|d ds IH]; intros a H Ha; cbn; [lia|].
  inversion H as [|? ? Hd Hds]; subst. apply isdigit_range in Hd.
  specialize (IH (10 * a + (b2z d - 48)) Hds ltac:(lia)). unfold digits_value in IH. lia.
Qed.

Lemma in_i64_true z : - 2 ^ 63 <= z < 2 ^ 63 -> in_i64 z = true.
Proof. unfold in_i64. lia. Qed.

Lemma number_digits_value mult ds : forall v,
  mult = 1 \/ mult = -1 ->
  Forall (fun b => isdigit b = true) ds -> 0 <= v -> digits_value v ds < 2 ^ 63 ->
  number_digits mult v ds = Some (mult * digits_value v ds).
Proof.
  induction ds as [|d ds IH]; intros v Hmult H Hv Hlt; cbn [number_digits].
  - cbn in *. rewrite in_i64_true by lia. done.
  - inversion H as [|? ? Hd Hds]; subst.
    rewrite bool_decide_eq_false_2 by (intros ->; discriminate). rewrite Hd.
    pose proof (isdigit_range _ Hd).
    assert (Hm : v * 10 + (b2z d - 48) <= digits_value v (d :: ds)).
    { change (digits_value v (d :: ds)) with (digits_value (10 * v + (b2z d - 48)) ds).
      pose proof (digits_value_mono ds (10 * v + (b2z d - 48)) Hds). lia. }
    rewrite !in_i64_true by lia. cbn [andb].
    change (digits_value v (d :: ds)) with (digits_value (10 * v + (b2z d - 48)) ds) in *.
    replace (10 * v) with (v * 10) in * by lia.
    apply IH; [done|done|lia|done].
Qed.

Lemma number_print_d z : - 2 ^ 63 < z < 2 ^ 63 -> number (print_d z) = Some z.
Proof.
  intros Hz. unfold print_d.
  assert (Hval : forall m a, m = 1 \/ m = -1 -> 0 <= a < 2 ^ 63 ->
    number_digits m 0 (print_u a) = Some (m * a)).
  { intros m a Hm Ha. rewrite number_digits_value; rewrite ?digits_value_print; try lia; try done.
    apply print_u_isdigit. lia. }
  destruct (Z.ltb_spec z 0).
  - cbn [number]. rewrite bool_decide_eq_true_2 by done.
    rewrite Hval by (lia || tauto). f_equal. lia.
  - pose proof (print_u_isdigit z ltac:(lia)) as Hd.
    destruct (print_u z) as [|c l] eqn:E; [by apply print_u_nonempty in E|].
    inversion Hd as [|? ? Hc _]; subst. cbn [number].
    rewrite !bool_decide_eq_false_2 by (intros ->; discriminate).
    rewrite <- E, Hval by (lia || tauto). f_equal. lia.
Qed.

Lemma print_d_pos z : 0 <= z -> print_d z = print_u z.
Proof. intros. unfold print_d. by rewrite (proj2 (Z.ltb_ge _ _)). Qed.

Lemma lex_number_print z v k :
  - 2 ^ 63 < z < 2 ^ 63 -> lex_number (print_d z ++ crlf ++ v) k = k z v.
Proof.
  intros Hz. unfold lex_number. rewrite cut_line_crlf.
  - by rewrite number_print_d.
  - by apply print_d_no.
Qed.

Lemma lex_encode_bulk d s v :
  zlen s < 2 ^ 31 -> lex d (encode_bulk s ++ v) = Got (TItem (RString s)) v.
Proof.
  intros Hs. unfold encode_bulk. pose proof (zlen_nonneg s).
  rewrite <- print_d_pos by done. rewrite <- !app_assoc. cbn [app lex].
  rewrite !bool_decide_eq_false_2, bool_decide_eq_true_2 by done.
  rewrite lex_number_print by lia. unfold lex_bulk.
  destruct (Z.ltb_spec (zlen s) 0); [lia|].
  destruct (Z.leb_spec (2 ^ 31) (zlen s)); [lia|].
  rewrite (proj2 (Z.leb_le _ _)) by (unfold crlf; len_lia).
  rewrite to_nat_zlen, take_app_length.
  replace (Z.to_nat (zlen s + 2)) with (length s + 2)%nat by len_lia.
  rewrite <- drop_drop, drop_app_length. done.
Qed.

(** What the parser does once an item is complete. *)
Definition parse_closed (x : reply) (fs : list frame) (v : list byte) : outcome :=
  match plug x fs with inl r => Finished r v | inr fs' => parse fs' v end.

Definition parses (x : reply) : Prop :=
  forall fs v, wf_reply x -> (reply_depth x + length fs <= max_nesting)%nat ->
    parse fs (encode x ++ v) = parse_closed x fs v.

Lemma parse_item fs u x v :
  lex (length fs) u = Got (TItem x) v -> parse fs u = parse_closed x fs v.
Proof. intros E. rewrite parse_unfold. unfold parse_with. by rewrite E. Qed.

Lemma parse_open fs u n v :
  lex (length fs) u = Got (TOpen n) v -> parse fs u = parse ((n, []) :: fs) v.
Proof. intros E. rewrite parse_unfold. unfold parse_with. by rewrite E. Qed.

Definition depth_all (xs : list reply) : nat :=
  fold_right (fun y n => max (reply_depth y) n) 0%nat xs.

Definition wf_all (xs : list reply) : Prop :=
  fold_right (fun y P => wf_reply y /\ P) True xs.

Lemma parse_elements n fs v : forall ys,
  Forall parses ys -> forall closed,
  ys <> [] -> wf_all ys -> (depth_all ys + S (length fs) <= max_nesting)%nat ->
  zlen (closed ++ ys) = n ->
  parse ((n, closed) :: fs) (encodes ys ++ v) = parse_closed (RArray (closed ++ ys)) fs v.
Proof.
  induction 1 as [|y ys Hy Hys IH]; intros closed Hne Hwf Hd Hn; [done|].
  cbn [encodes fold_right] in *. fold (encodes ys). destruct Hwf as [Hwfy Hwfs].
  cbn [depth_all fold_right] in Hd. fold (depth_all ys) in Hd.
  rewrite <- app_assoc. rewrite Hy by (cbn [length]; first [done|lia]).
  unfold parse_closed at 1. cbn [plug].
  destruct ys as [|y' ys].
  - rewrite (proj2 (Z.eqb_eq _ _)) by done. done.
  - rewrite (proj2 (Z.eqb_neq _ _)) by len_lia.
    rewrite (IH (closed ++ [y])); rewrite <- ?app_assoc; try done. lia.
Qed.

Lemma lex_array_print d n v :
  0 <= n < 2 ^ 30 -> (d < max_nesting)%nat ->
  lex d ([x2a] ++ print_u n ++ crlf ++ v) =
    Got (if n =? 0 then TItem (RArray []) else TOpen n) v.
Proof.
  intros Hn Hd. rewrite <- print_d_pos by lia. cbn [app lex].
  rewrite !(bool_decide_eq_false_2 (x2a = _)) by done.
  rewrite bool_decide_eq_true_2 by done. rewrite bool_decide_eq_false_2 by lia.
  rewrite lex_number_print by lia. unfold lex_array.
  destruct (Z.eqb_spec n (-1)); [lia|]. destruct (Z.eqb_spec n 0); [done|].
  destruct (Z.ltb_spec n 0); [lia|]. destruct (Z.leb_spec (2 ^ 30) n); [lia|]. done.
Qed.

(** Select the branch of a known type byte. *)
Ltac lex_type :=
  cbn [app lex]; repeat rewrite bool_decide_eq_false_2 by done;
  rewrite bool_decide_eq_true_2 by done.

Lemma parse_encode x : parses x.
Proof.
  induction x using reply_ind_list; intros fs v Hwf Hd; cbn [encode wf_reply] in *;
    rewrite <- ?app_assoc.
  - apply parse_item. lex_type. unfold lex_line. by rewrite cut_line_crlf.
  - apply parse_item. lex_type. unfold lex_line. by rewrite cut_line_crlf.
  - apply parse_item. by apply lex_encode_bulk.
  - apply parse_item. lex_type. by rewrite lex_number_print.
  - apply parse_item. lex_type. by rewrite lex_number_print.
  - destruct Hwf as [Hn Hwf]. cbn [reply_depth] in Hd.
    fold (depth_all xs) (encodes xs) (wf_all xs) in *. pose proof (zlen_nonneg xs).
    pose proof (lex_array_print (length fs) (zlen xs) (encodes xs ++ v)) as Hlex.
    destruct xs as [|x xs]; [apply parse_item, Hlex; [done|lia]|].
    destruct (Z.eqb_spec (zlen (x :: xs)) 0) as [E|_]; [len_lia|].
    erewrite parse_open; [|apply Hlex; lia].
    apply (parse_elements _ _ _ (x :: xs) ltac:(done) []); try done. lia.
Qed.

Lemma parse_encode_root x v :
  wf_reply x -> (reply_depth x <= max_nesting)%nat -> parse [] (encode x ++ v) = Finished x v.
Proof. intros Hwf Hd. rewrite parse_encode; [done|done|cbn; lia]. Qed.

(** ** A stream of replies *)

(** All the replies of [u], and the parser state behind them. *)
Fixpoint stream_fuel (fuel : nat) (fs : list frame) (u : list byte)
    : option (list reply * list frame * list byte) :=
  match fuel with
  | O => None
  | S fuel =>
      match parse fs u with
      | Waiting fs' u' => Some ([], fs', u')
      | Finished x rest =>
          '(xs, fs', u') ← stream_fuel fuel [] rest; Some (x :: xs, fs', u')
      | _ => None
      end
  end.

Definition stream (fs : list frame) (u : list byte) := stream_fuel (S (length u)) fs u.

Lemma parse_shrinks fs u x rest : parse fs u = Finished x rest -> (length rest < length u)%nat.
Proof.
  revert fs u. apply (parse_induction (fun fs u => parse fs u = _ -> (length rest < length u)%nat)).
  intros fs u IH. rewrite parse_unfold. unfold parse_with.
  destruct (lex (length fs) u) as [| | |t rest'] eqn:E; try done. apply lex_shrinks in E.
  destruct t as [y|n].
  - destruct (plug y fs) as [z|fs']; [by intros [= _ <-]|]. intros H.
    specialize (IH fs' rest' E H). lia.
  - intros H. specialize (IH _ rest' E H). lia.
Qed.

Lemma stream_fuel_enough : forall n m fs u,
  (length u < n)%nat -> (length u < m)%nat -> stream_fuel n fs u = stream_fuel m fs u.
Proof.
  induction n as [|n IH]; intros [|m] fs u Hn Hm; try lia. cbn [stream_fuel].
  destruct (parse fs u) as [| | |x rest] eqn:E; try done.
  apply parse_shrinks in E. by rewrite (IH m) by lia.
Qed.

Lemma stream_unfold fs u :
  stream fs u =
    match parse fs u with
    | Waiting fs' u' => Some ([], fs', u')
    | Finished x rest => '(xs, fs', u') ← stream [] rest; Some (x :: xs, fs', u')
    | _ => None
    end.
Proof.
  unfold stream at 1. cbn [stream_fuel]. destruct (parse fs u) as [| | |x rest] eqn:E; try done.
  apply parse_shrinks in E. unfold stream. by rewrite (stream_fuel_enough _ (S (length rest))) by lia.
Qed.

(** A stream can be read in two parts. *)
Lemma stream_app : forall n fs u v xs fs' u', (length u < n)%nat ->
  stream fs (u ++ v) = Some (xs, fs', u') ->
  exists ys zs fs1 u1, stream fs u = Some (ys, fs1, u1) /\
    stream fs1 (u1 ++ v) = Some (zs, fs', u') /\ xs = ys ++ zs.
Proof.
  induction n as [|n IH]; intros fs u v xs fs' u' Hn H; [lia|].
  rewrite (stream_unfold fs u). destruct (parse fs u) as [fs1 u1| | |x rest] eqn:E.
  - exists [], xs, fs1, u1. split; [done|]. split; [|done].
    rewrite stream_unfold in H |- *. rewrite parse_app, E in H. exact H.
  - rewrite stream_unfold, parse_app, E in H. done.
  - rewrite stream_unfold, parse_app, E in H. done.
  - rewrite stream_unfold, parse_app, E in H. cbn [extend_outcome] in H.
    destruct (stream [] (rest ++ v)) as [[[ys fs2] u2]|] eqn:E2; [|done].
    cbn in H. injection H as <- <- <-. apply parse_shrinks in E.
    destruct (IH [] rest v ys fs2 u2 ltac:(lia) E2) as (ys' & zs & fs1 & u1 & -> & H1 & ->).
    exists (x :: ys'), zs, fs1, u1. done.
Qed.

Lemma stream_encodes xs :
  Forall wf_reply xs -> Forall (fun x => reply_depth x <= max_nesting)%nat xs ->
  stream [] (encodes xs) = Some (xs, [], []).
Proof.
  induction xs as [|x xs IH]; intros Hwf Hd; [done|].
  inversion Hwf; inversion Hd; subst. rewrite stream_unfold. cbn [encodes fold_right].
  fold (encodes xs). rewrite parse_encode_root by done. by rewrite IH.
Qed.

Lemma parse_rest fs u fs' u' : parse fs u = Waiting fs' u' -> (length u' <= length u)%nat.
Proof.
  revert fs u. apply (parse_induction (fun fs u => parse fs u = _ -> (length u' <= length u)%nat)).
  intros fs u IH. rewrite parse_unfold. unfold parse_with.
  destruct (lex (length fs) u) as [| | |t rest] eqn:E; try done; [by intros [= _ <-]|].
  apply lex_shrinks in E. destruct t as [x|n].
  - destruct (plug x fs) as [y|fs1]; [done|]. intros H. specialize (IH _ _ E H). lia.
  - intros H. specialize (IH _ _ E H). lia.
Qed.

Lemma stream_rest : forall n fs u xs fs' u', (length u < n)%nat ->
  stream fs u = Some (xs, fs', u') -> (length u' <= length u)%nat.
Proof.
  induction n as [|n IH]; intros fs u xs fs' u' Hn H; [lia|]. rewrite stream_unfold in H.
  destruct (parse fs u) as [fs1 u1| | |x rest] eqn:E; try done.
  - injection H as _ _ <-. by eapply parse_rest.
  - destruct (stream [] rest) as [[[ys fs2] u2]|] eqn:E2; [|done].
    cbn in H. injection H as _ _ <-. apply parse_shrinks in E.
    specialize (IH [] rest ys fs2 u2 ltac:(lia) E2). lia.
Qed.

(** What a stream leaves behind holds no complete reply. *)
Lemma stream_idem : forall n fs u xs fs' u', (length u < n)%nat ->
  stream fs u = Some (xs, fs', u') -> stream fs' u' = Some ([], fs', u').
Proof.
  induction n as [|n IH]; intros fs u xs fs' u' Hn H; [lia|]. rewrite stream_unfold in H.
  destruct (parse fs u) as [fs1 u1| | |x rest] eqn:E; try done.
  - injection H as _ <- <-. apply parse_waiting in E.
    rewrite stream_unfold, parse_unfold. unfold parse_with. by rewrite E.
  - destruct (stream [] rest) as [[[ys fs2] u2]|] eqn:E2; [|done].
    cbn in H. injection H as _ <- <-. apply parse_shrinks in E. by apply (IH [] rest ys); [lia|].
Qed.
