(* ===== verification/Reply.v ===== *)
(** * Reply objects ([win32/hiredis/hiredis.c], lines 64-160)

    The heap of [redisReply] objects, the default functions that build replies
    while a reader parses, and [freeReplyObject].  The heap hands out a fresh
    number for every object and never reuses one, so a use after [free] is an
    access to an absent object. *)

From S2P Require Import Prelude Sds Resp.

Definition REDIS_REPLY_STRING : Z := 1.
Definition REDIS_REPLY_ARRAY : Z := 2.
Definition REDIS_REPLY_INTEGER : Z := 3.
Definition REDIS_REPLY_NIL : Z := 4.
Definition REDIS_REPLY_STATUS : Z := 5.
Definition REDIS_REPLY_ERROR : Z := 6.

(** A [void *]: NULL, the address of an object, or an integer that was cast. *)
Inductive voidptr := Null | Loc (l : nat) | Int (z : Z).

#[global] Instance voidptr_eq_dec : EqDecision voidptr.
Proof. solve_decision. Defined.

(** [parent] points into the task stack of the reader: its index there. *)
Record redisReadTask := ReadTask {
  rt_type : Z;
  rt_elements : Z;
  rt_idx : Z;
  rt_obj : voidptr;
  rt_parent : option nat;
  rt_privdata : voidptr
}.

(** The table of functions a reader builds objects with, over the state [H] they
    act on.  Each gets the task stack its task points into; a [char *] is the
    cells from the pointer on. *)
Record redisReplyObjectFunctions (H : Type) := ReplyFns {
  fn_createString : option (list redisReadTask -> redisReadTask -> cells -> Z -> H -> result (voidptr * H));
  fn_createArray : option (list redisReadTask -> redisReadTask -> Z -> H -> result (voidptr * H));
  fn_createInteger : option (list redisReadTask -> redisReadTask -> Z -> H -> result (voidptr * H));
  fn_createNil : option (list redisReadTask -> redisReadTask -> H -> result (voidptr * H));
  fn_freeObject : option (voidptr -> H -> result H)
}.
Arguments ReplyFns {H}.
Arguments fn_createString {H}.
Arguments fn_createArray {H}.
Arguments fn_createInteger {H}.
Arguments fn_createNil {H}.
Arguments fn_freeObject {H}.

(** The fields [malloc] leaves uninitialised are [None]. *)
Record redisReply := RedisReply {
  rp_type : Z;
  rp_integer : option Z;
  rp_len : option Z;
  rp_str : option cells;
  rp_elements : option Z;
  rp_element : option (list voidptr)
}.

Record reply_heap := ReplyHeap { rh_next : nat; rh_objs : gmap nat redisReply }.

Definition empty_heap : reply_heap := ReplyHeap 0 ∅.

Definition alloc_reply (r : redisReply) (h : reply_heap) : nat * reply_heap :=
  (rh_next h, ReplyHeap (S (rh_next h)) (<[rh_next h := r]> (rh_objs h))).

Definition load_reply (p : voidptr) (h : reply_heap) : result (nat * redisReply) :=
  match p with
  | Loc l => r ← of_option Undefined (rh_objs h !! l); Ok (l, r)
  | _ => Err Undefined
  end.

Definition store_reply (l : nat) (r : redisReply) (h : reply_heap) : reply_heap :=
  ReplyHeap (rh_next h) (<[l := r]> (rh_objs h)).

Definition createReplyObject (type : Z) (h : reply_heap) : nat * reply_heap :=
  alloc_reply (RedisReply type None None None None None) h.

(** [parent->element[idx] = r] *)
Definition store_element (parent : redisReply) (idx : Z) (r : voidptr) : result redisReply :=
  element ← of_option Undefined (rp_element parent);
  if (0 <=? idx) && (idx <? zlen element)
  then Ok (RedisReply (rp_type parent) (rp_integer parent) (rp_len parent) (rp_str parent)
             (rp_elements parent) (Some (<[Z.to_nat idx := r]> element)))
  else Err Undefined.

(** The last part of every creation function. *)
Definition link_parent (rstack : list redisReadTask) (task : redisReadTask) (r : nat)
    (h : reply_heap) : result reply_heap :=
  match rt_parent task with
  | None => Ok h
  | Some i =>
      parent_task ← of_option Undefined (rstack !! i);
      '(l, parent) ← load_reply (rt_obj parent_task) h;
      _ ← c_assert (rp_type parent =? REDIS_REPLY_ARRAY);
      parent ← store_element parent (rt_idx task) (Loc r);
      Ok (store_reply l parent h)
  end.

Definition createStringObject (rstack : list redisReadTask) (task : redisReadTask)
    (str : cells) (len : Z) (h : reply_heap) : result (voidptr * reply_heap) :=
  let '(r, h) := createReplyObject (rt_type task) h in
  let value := fresh_cells (u32 (len + 1)) in
  _ ← c_assert ((rt_type task =? REDIS_REPLY_ERROR) || (rt_type task =? REDIS_REPLY_STATUS)
                || (rt_type task =? REDIS_REPLY_STRING));
  value ← (if len <=? zlen str then blit value 0 (take (Z.to_nat len) str) else Err Undefined);
  value ← poke value len x00;
  let h := store_reply r (RedisReply (rt_type task) None (Some (i32 len)) (Some value) None None) h in
  h ← link_parent rstack task r h;
  Ok (Loc r, h).

(** [calloc] of the element vector, NULL when the size overflows [size_t]. *)
Definition calloc_elements (elements : Z) : result (list voidptr) :=
  if 4 * u32 elements <? 2 ^ 32 then Ok (replicate (Z.to_nat (u32 elements)) Null)
  else Err OutOfMemory.

Definition createArrayObject (rstack : list redisReadTask) (task : redisReadTask)
    (elements : Z) (h : reply_heap) : result (voidptr * reply_heap) :=
  let '(r, h) := createReplyObject REDIS_REPLY_ARRAY h in
  element ← calloc_elements elements;
  let h := store_reply r
    (RedisReply REDIS_REPLY_ARRAY None None None (Some (u32 elements)) (Some element)) h in
  h ← link_parent rstack task r h;
  Ok (Loc r, h).

Definition createIntegerObject (rstack : list redisReadTask) (task : redisReadTask)
    (value : Z) (h : reply_heap) : result (voidptr * reply_heap) :=
  let '(r, h) := createReplyObject REDIS_REPLY_INTEGER h in
  let h := store_reply r (RedisReply REDIS_REPLY_INTEGER (Some value) None None None None) h in
  h ← link_parent rstack task r h;
  Ok (Loc r, h).

Definition createNilObject (rstack : list redisReadTask) (task : redisReadTask)
    (h : reply_heap) : result (voidptr * reply_heap) :=
  let '(r, h) := createReplyObject REDIS_REPLY_NIL h in
  h ← link_parent rstack task r h;
  Ok (Loc r, h).

(** [for (j = 0; j < n; j++) if (element[j]) free(element[j])] *)
Fixpoint free_elements (free : voidptr -> reply_heap -> result reply_heap)
    (element : list voidptr) (n : nat) (h : reply_heap) : result reply_heap :=
  match n with
  | O => Ok h
  | S n =>
      match element with
      | [] => Err Undefined
      | p :: element =>
          h ← (if bool_decide (p = Null) then Ok h else free p h);
          free_elements free element n h
      end
  end.

Fixpoint freeReplyObject_fuel (fuel : nat) (reply : voidptr) (h : reply_heap) : result reply_heap :=
  match fuel with
  | O => Err NoFuel
  | S fuel =>
      '(l, r) ← load_reply reply h;
      h ← (if rp_type r =? REDIS_REPLY_ARRAY then
             elements ← of_option Undefined (rp_elements r);
             element ← of_option Undefined (rp_element r);
             free_elements (freeReplyObject_fuel fuel) element (Z.to_nat elements) h
           else if (rp_type r =? REDIS_REPLY_ERROR) || (rp_type r =? REDIS_REPLY_STATUS)
                   || (rp_type r =? REDIS_REPLY_STRING) then
             _ ← of_option Undefined (rp_str r); Ok h
           else Ok h);
      Ok (ReplyHeap (rh_next h) (delete l (rh_objs h)))
  end.

(** The recursion goes down from an object to ones created after it, so the
    number of objects ever created bounds its depth. *)
Definition freeReplyObject (reply : voidptr) (h : reply_heap) : result reply_heap :=
  freeReplyObject_fuel (S (rh_next h)) reply h.

Definition defaultFunctions : redisReplyObjectFunctions reply_heap := {|
  fn_createString := Some createStringObject;
  fn_createArray := Some createArrayObject;
  fn_createInteger := Some createIntegerObject;
  fn_createNil := Some createNilObject;
  fn_freeObject := Some freeReplyObject
|}.

(** ** Calls through the function table

    [fn] itself and each of its entries may be NULL; the reader then uses the
    type code [dflt] in place of an object. *)

Section calls.
Context {H : Type} (fn : option (redisReplyObjectFunctions H)).

Definition call_createString (dflt : Z) (rstack : list redisReadTask) (cur : redisReadTask)
    (str : cells) (len : Z) (h : H) : result (voidptr * H) :=
  match fn ≫= fn_createString with Some f => f rstack cur str len h | None => Ok (Int dflt, h) end.

Definition call_createArray (rstack : list redisReadTask) (cur : redisReadTask)
    (elements : Z) (h : H) : result (voidptr * H) :=
  match fn ≫= fn_createArray with
  | Some f => f rstack cur elements h
  | None => Ok (Int REDIS_REPLY_ARRAY, h)
  end.

Definition call_createInteger (rstack : list redisReadTask) (cur : redisReadTask)
    (value : Z) (h : H) : result (voidptr * H) :=
  match fn ≫= fn_createInteger with
  | Some f => f rstack cur value h
  | None => Ok (Int REDIS_REPLY_INTEGER, h)
  end.

Definition call_createNil (rstack : list redisReadTask) (cur : redisReadTask)
    (h : H) : result (voidptr * H) :=
  match fn ≫= fn_createNil with
  | Some f => f rstack cur h
  | None => Ok (Int REDIS_REPLY_NIL, h)
  end.

(** [r->fn->freeObject(p)], unguarded: NULL is called or dereferenced. *)
Definition call_freeObject (p : voidptr) (h : H) : result H :=
  match fn ≫= fn_freeObject with Some f => f p h | None => Err Undefined end.
End calls.

(** ** What a reader relies on

    An open array: its object, the number of its elements, those read so far.
    A builder state tells which complete replies exist ([closed], the latest
    first) and which arrays are open (the innermost first). *)

Abbreviation open_array := (voidptr * Z * list reply)%type.

(** The task [cur] creates the next element of the innermost open array. *)
Definition task_for (rstack : list redisReadTask) (cur : redisReadTask)
    (fs : list open_array) : Prop :=
  match fs with
  | [] => rt_parent cur = None
  | (p, n, ts) :: _ =>
      exists i t, rt_parent cur = Some i /\ rstack !! i = Some t /\ rt_obj t = p /\
        rt_idx cur = zlen ts /\ zlen ts < n
  end.

(** The reply of a line of type [ty]. *)
Definition string_reply (ty : Z) (v : list byte) : reply :=
  if ty =? REDIS_REPLY_ERROR then RError v
  else if ty =? REDIS_REPLY_STATUS then RStatus v else RString v.

Section builder_state.
Context {H : Type} (B : H -> list (voidptr * reply) -> list open_array -> Prop).

(** The object [p] for [x] has been added. *)
Definition item_added (closed : list (voidptr * reply)) (fs : list open_array)
    (x : reply) (p : voidptr) (h : H) : Prop :=
  p <> Null /\
  match fs with
  | [] => B h ((p, x) :: closed) []
  | (q, n, ts) :: fs => B h closed ((q, n, ts ++ [x]) :: fs)
  end.

(** [r] succeeds and adds the object of [x]. *)
Definition adds_item (closed : list (voidptr * reply)) (fs : list open_array)
    (x : reply) (r : result (voidptr * H)) : Prop :=
  exists p h, r = Ok (p, h) /\ item_added closed fs x p h.
End builder_state.

Class ReplyBuilder {H} (fn : option (redisReplyObjectFunctions H)) := {
  building : H -> list (voidptr * reply) -> list open_array -> Prop;
  build_string h closed fs rstack cur dflt v rest :
    building h closed fs -> task_for rstack cur fs ->
    rt_type cur ∈ [REDIS_REPLY_STRING; REDIS_REPLY_STATUS; REDIS_REPLY_ERROR] ->
    dflt = rt_type cur -> zlen v < 2 ^ 31 ->
    adds_item building closed fs (string_reply (rt_type cur) v)
      (call_createString fn dflt rstack cur ((Some <$> v) ++ rest) (zlen v) h);
  build_integer h closed fs rstack cur z :
    building h closed fs -> task_for rstack cur fs ->
    adds_item building closed fs (RInteger z) (call_createInteger fn rstack cur z h);
  build_nil h closed fs rstack cur :
    building h closed fs -> task_for rstack cur fs ->
    adds_item building closed fs RNil (call_createNil fn rstack cur h);
  build_empty h closed fs rstack cur :
    building h closed fs -> task_for rstack cur fs ->
    adds_item building closed fs (RArray []) (call_createArray fn rstack cur 0 h);
  build_open h closed fs rstack cur n :
    building h closed fs -> task_for rstack cur fs -> 0 < n < 2 ^ 30 ->
    exists p h', call_createArray fn rstack cur n h = Ok (p, h') /\ p <> Null /\
      building h' closed ((p, n, []) :: fs);
  build_close h closed q n ts p m us fs :
    building h closed ((q, n, ts) :: (p, m, us) :: fs) -> zlen ts = n ->
    building h closed ((p, m, us ++ [RArray ts]) :: fs);
  build_close_root h closed q n ts :
    building h closed [(q, n, ts)] -> zlen ts = n ->
    building h ((q, RArray ts) :: closed) [];
  build_nonnull h closed fs :
    building h closed fs ->
    Forall (fun c => c.1 <> Null) closed /\ Forall (fun o => o.1.1 <> Null) fs
}.

(** What releasing objects does: an unfinished root, or a complete reply. *)
Class ReplyDisposer {H} (fn : option (redisReplyObjectFunctions H)) `{!ReplyBuilder fn} := {
  dispose_open h closed fs q n ts :
    building h closed (fs ++ [(q, n, ts)]) ->
    exists h', call_freeObject fn q h = Ok h' /\ building h' closed [];
  dispose_closed h c1 p x c2 :
    building h (c1 ++ (p, x) :: c2) [] ->
    exists h', call_freeObject fn p h = Ok h' /\ building h' (c1 ++ c2) []
}.
