(* ===== verification/ReplyHeap.v ===== *)
(** * The reply objects on the heap

    The default functions of [Reply] build the replies a reader parses: the
    instances of [ReplyBuilder] and [ReplyDisposer] for them, and the builder
    instance of a reader without functions.  A reply of the heap occupies an
    interval of object numbers, its elements following it in order, which keeps
    the trees apart; the number of live objects is the number of nodes of the
    replies somebody holds, so nothing leaks. *)

From S2P Require Import Prelude Sds Resp Reply.

Definition string_obj (ty : Z) (v : list byte) : redisReply :=
  RedisReply ty None (Some (zlen v)) (Some ((Some <$> v) ++ [Some x00])) None None.

Definition array_obj (n : Z) (ps : list voidptr) : redisReply :=
  RedisReply REDIS_REPLY_ARRAY None None None (Some n) (Some ps).

Definition leaf_obj (x : reply) : option redisReply :=
  match x with
  | RString v => Some (string_obj REDIS_REPLY_STRING v)
  | RStatus v => Some (string_obj REDIS_REPLY_STATUS v)
  | RError v => Some (string_obj REDIS_REPLY_ERROR v)
  | RInteger z => Some (RedisReply REDIS_REPLY_INTEGER (Some z) None None None None)
  | RNil => Some (RedisReply REDIS_REPLY_NIL None None None None None)
  | RArray _ => None
  end.

Section trees.
Context (m : gmap nat redisReply).

(** The reply at [p], its objects numbered from [lo] to below [hi]. *)
Inductive rep : nat -> nat -> voidptr -> reply -> Prop :=
| rep_leaf lo hi l x o :
    (lo <= l < hi)%nat -> m !! l = Some o -> leaf_obj x = Some o -> rep lo hi (Loc l) x
| rep_array lo hi l ps xs :
    (lo <= l)%nat -> m !! l = Some (array_obj (zlen xs) ps) -> rep_list (S l) hi ps xs ->
    rep lo hi (Loc l) (RArray xs)
with rep_list : nat -> nat -> list voidptr -> list reply -> Prop :=
| rep_nil lo hi : (lo <= hi)%nat -> rep_list lo hi [] []
| rep_cons lo mid hi p x ps xs :
    rep lo mid p x -> rep_list mid hi ps xs -> rep_list lo hi (p :: ps) (x :: xs).

(** A possibly unfinished tree of [n] objects. *)
Inductive owned : nat -> nat -> voidptr -> nat -> Prop :=
| owned_leaf lo hi l x o :
    (lo <= l < hi)%nat -> m !! l = Some o -> leaf_obj x = Some o -> owned lo hi (Loc l) 1
| owned_array lo hi l ps n :
    (lo <= l)%nat -> m !! l = Some (array_obj (zlen ps) ps) -> owned_list (S l) hi ps n ->
    owned lo hi (Loc l) (S n)
with owned_list : nat -> nat -> list voidptr -> nat -> Prop :=
| owned_nil lo hi : (lo <= hi)%nat -> owned_list lo hi [] 0
| owned_null lo hi ps n : owned_list lo hi ps n -> owned_list lo hi (Null :: ps) n
| owned_cons lo mid hi p ps k n :
    owned lo mid p k -> owned_list mid hi ps n -> owned_list lo hi (p :: ps) (k + n).

Fixpoint closed_rep (hi : nat) (closed : list (voidptr * reply)) : Prop :=
  match closed with
  | [] => True
  | (p, x) :: closed => exists lo, rep lo hi p x /\ closed_rep lo closed
  end.

(** The open arrays; [child] is the element under construction of the innermost
    one, whose objects are numbered from [hi]. *)
Fixpoint open_rep (hi : nat) (child : list voidptr) (closed : list (voidptr * reply))
    (fs : list open_array) : Prop :=
  match fs with
  | [] => closed_rep hi closed
  | (p, n, ts) :: fs =>
      exists l ps, p = Loc l /\
        m !! l = Some (array_obj n
          (ps ++ child ++ replicate (Z.to_nat n - length ts - length child) Null)) /\
        rep_list (S l) hi ps ts /\ 0 < n /\ zlen ts + zlen child <= n /\
        open_rep l [p] closed fs
  end.
End trees.

Scheme rep_mut := Minimality for rep Sort Prop
with rep_list_mut := Minimality for rep_list Sort Prop.
Combined Scheme rep_both from rep_mut, rep_list_mut.
Scheme owned_mut := Minimality for owned Sort Prop
with owned_list_mut := Minimality for owned_list Sort Prop.
Combined Scheme owned_both from owned_mut, owned_list_mut.

Definition closed_nodes (closed : list (voidptr * reply)) : nat :=
  sum_list_with (fun c => reply_nodes c.2) closed.
Definition open_nodes (fs : list open_array) : nat :=
  sum_list_with (fun f => S (replies_nodes f.2)) fs.

Definition heap_building (h : reply_heap) (closed : list (voidptr * reply))
    (fs : list open_array) : Prop :=
  open_rep (rh_objs h) (rh_next h) [] closed fs /\
  (forall l, (rh_next h <= l)%nat -> rh_objs h !! l = None) /\
  size (rh_objs h) = (closed_nodes closed + open_nodes fs)%nat.

(** ** Trees *)

Lemma rep_bounds m :
  (forall lo hi p x, rep m lo hi p x -> (lo < hi)%nat /\ p <> Null) /\
  (forall lo hi ps xs, rep_list m lo hi ps xs -> (lo <= hi)%nat /\ length ps = length xs).
Proof. apply rep_both; intros; cbn; split; (done || lia). Qed.

Lemma rep_frame m m' :
  (forall lo hi p x, rep m lo hi p x ->
     (forall l, (lo <= l < hi)%nat -> m' !! l = m !! l) -> rep m' lo hi p x) /\
  (forall lo hi ps xs, rep_list m lo hi ps xs ->
     (forall l, (lo <= l < hi)%nat -> m' !! l = m !! l) -> rep_list m' lo hi ps xs).
Proof.
  apply rep_both.
  - intros lo hi l x o Hl Hm Hx Hag. eapply rep_leaf; [done| |done]. by rewrite Hag.
  - intros lo hi l ps xs Hl Hm Hr IH Hag. apply rep_bounds in Hr as [Hb _].
    eapply rep_array; [done| |].
    + rewrite Hag by lia. done.
    + apply IH. intros j Hj. apply Hag. lia.
  - intros. by constructor.
  - intros lo mid hi p x ps xs Hr IHr Hrs IHrs Hag.
    apply rep_bounds in Hr as [Hb1 _]. apply rep_bounds in Hrs as [Hb2 _].
    apply (rep_cons _ _ mid); [apply IHr|apply IHrs]; intros j Hj; apply Hag; lia.
Qed.

Lemma rep_weaken m lo hi p x hi' : rep m lo hi p x -> (hi <= hi')%nat -> rep m lo hi' p x
with rep_list_weaken m lo hi ps xs hi' :
  rep_list m lo hi ps xs -> (hi <= hi')%nat -> rep_list m lo hi' ps xs.
Proof.
  - intros H Hh. destruct H; [eapply rep_leaf; [lia|done|done]|].
    eapply rep_array; [done|done|]. by eapply rep_list_weaken.
  - intros H Hh. destruct H; [constructor; lia|].
    eapply rep_cons; [done|]. by eapply rep_list_weaken.
Qed.

Lemma rep_list_snoc m lo mid hi ps xs p x :
  rep_list m lo mid ps xs -> rep m mid hi p x -> rep_list m lo hi (ps ++ [p]) (xs ++ [x]).
Proof.
  intros H Hp. induction H; cbn.
  - apply (rep_cons _ _ hi); [|by constructor].
    destruct Hp; [eapply rep_leaf; [lia|done|done]|eapply rep_array; [lia|done|done]].
  - eapply rep_cons; eauto.
Qed.

Lemma rep_owned m :
  (forall lo hi p x, rep m lo hi p x -> owned m lo hi p (reply_nodes x)) /\
  (forall lo hi ps xs, rep_list m lo hi ps xs -> owned_list m lo hi ps (replies_nodes xs)).
Proof.
  apply rep_both.
  - intros lo hi l x o Hl Hm Hx. replace (reply_nodes x) with 1%nat by (by destruct x).
    by eapply owned_leaf.
  - intros lo hi l ps xs Hl Hm Hr IH. apply rep_bounds in Hr as [_ Hb].
    apply owned_array with ps; [done| |done]. rewrite Hm. do 2 f_equal. len_lia.
  - intros. by constructor.
  - intros. eapply owned_cons; eauto.
Qed.

Lemma closed_rep_frame m m' closed : forall hi,
  (forall l, (l < hi)%nat -> m' !! l = m !! l) -> closed_rep m hi closed -> closed_rep m' hi closed.
Proof.
  induction closed as [|[p x] closed IH]; intros hi Hag H; [done|].
  destruct H as (lo & Hr & Hc). pose proof (proj1 (rep_bounds m) _ _ _ _ Hr) as [Hlt _].
  exists lo. split.
  - apply (rep_frame m); [done|]. intros l Hl. apply Hag. lia.
  - apply IH; [|done]. intros l Hl. apply Hag. lia.
Qed.

Lemma open_rep_frame m m' closed fs : forall hi child,
  (forall l, (l < hi)%nat -> m' !! l = m !! l) ->
  open_rep m hi child closed fs -> open_rep m' hi child closed fs.
Proof.
  induction fs as [|[[p n] ts] fs IH]; intros hi child Hag H; [by eapply closed_rep_frame|].
  destruct H as (l & ps & -> & Hm & Hr & Hn & Hle & Ho).
  pose proof (proj2 (rep_bounds m) _ _ _ _ Hr) as [Hlt _].
  exists l, ps. repeat split; try done.
  - rewrite Hag by lia. done.
  - apply (rep_frame m); [done|]. intros j Hj. apply Hag. lia.
  - apply IH; [|done]. intros j Hj. apply Hag. lia.
Qed.

(** ** Adding an element to the innermost open array *)

Lemma open_absorb m hi hi' closed fs p x :
  open_rep m hi [p] closed fs -> rep m hi hi' p x ->
  match fs with
  | [] => open_rep m hi' [] ((p, x) :: closed) []
  | (q, n, ts) :: fs => open_rep m hi' [] closed ((q, n, ts ++ [x]) :: fs)
  end.
Proof.
  intros Ho Hr. destruct fs as [|[[q n] ts] fs]; [by exists hi|].
  destruct Ho as (l & ps & -> & Hm & Hrs & Hn & Hle & Ho).
  pose proof (proj2 (rep_bounds m) _ _ _ _ Hrs) as [_ Hlen].
  exists l, (ps ++ [p]). split; [done|]. split.
  { rewrite Hm, <- app_assoc. do 4 f_equal. cbn [app]. f_equal.
    rewrite length_app. cbn. lia. }
  split; [by eapply rep_list_snoc|]. split; [done|]. split; [len_lia|done].
Qed.

Lemma open_close m hi closed q n ts fs :
  open_rep m hi [] closed ((q, n, ts) :: fs) -> zlen ts = n ->
  exists l, open_rep m l [q] closed fs /\ rep m l hi q (RArray ts).
Proof.
  intros (l & ps & -> & Hm & Hrs & Hn & Hle & Ho) <-. exists l. split; [done|].
  eapply rep_array; [done| |done]. rewrite Hm.
  replace (Z.to_nat (zlen ts) - length ts - length (@nil voidptr))%nat with 0%nat by len_lia.
  cbn [app replicate]. by rewrite app_nil_r.
Qed.

Lemma insert_next {A} (ps : list A) d k :
  (0 < k)%nat -> forall q, <[length ps := q]> (ps ++ replicate k d) = ps ++ [q] ++ replicate (k - 1) d.
Proof.
  intros Hk q. destruct k as [|k]; [lia|]. cbn [replicate].
  rewrite insert_app_r_alt by done. rewrite Nat.sub_diag. cbn.
  by rewrite Nat.sub_0_r.
Qed.

(** [link_parent] makes the object numbered [k] the element under construction. *)
Lemma link_parent_ok h closed fs rstack cur k :
  open_rep (rh_objs h) k [] closed fs -> task_for rstack cur fs ->
  exists h', link_parent rstack cur k h = Ok h' /\
    open_rep (rh_objs h') k [Loc k] closed fs /\
    rh_next h' = rh_next h /\
    size (rh_objs h') = size (rh_objs h) /\
    (forall j, (k <= j)%nat -> rh_objs h' !! j = rh_objs h !! j).
Proof.
  intros Ho Ht. unfold link_parent. destruct fs as [|[[p n] ts] fs].
  { cbn in Ht. rewrite Ht. exists h. auto. }
  destruct Ht as (i & t & -> & Hi & Hobj & Hidx & Hlt).
  destruct Ho as (l & ps & -> & Hm & Hrs & Hn & Hle & Ho).
  pose proof (proj2 (rep_bounds _) _ _ _ _ Hrs) as [Hb Hlen].
  rewrite Hi. cbn [of_option mbind result_bind]. rewrite Hobj. cbn [load_reply].
  rewrite Hm. cbn. unfold store_element. cbn [array_obj rp_element of_option mbind result_bind].
  rewrite Hidx. pose proof (zlen_nonneg ts).
  rewrite (proj2 (Z.leb_le _ _)) by lia. rewrite (proj2 (Z.ltb_lt _ _)) by len_lia.
  cbn [andb mbind result_bind].
  rewrite to_nat_zlen, <- Hlen, insert_next by len_lia.
  eexists. split; [done|]. cbn [store_reply rh_objs rh_next]. repeat split.
  - exists l, ps. split; [done|]. split.
    { rewrite lookup_insert_eq. unfold array_obj. do 5 f_equal. cbn. f_equal. f_equal. lia. }
    split; [|split; [done|split; [len_lia|]]].
    + eapply rep_frame; [done|]. intros j Hj. rewrite lookup_insert_ne by lia. done.
    + eapply open_rep_frame; [|done]. intros j Hj. rewrite lookup_insert_ne by lia. done.
  - rewrite map_size_insert_Some; [done|]. by rewrite Hm.
  - intros j Hj. rewrite lookup_insert_ne by lia. done.
Qed.

(** ** The creation functions *)

Lemma replies_nodes_snoc xs x : replies_nodes (xs ++ [x]) = (replies_nodes xs + reply_nodes x)%nat.
Proof. unfold replies_nodes. induction xs as [|y xs IH]; cbn; [lia|]. rewrite IH. lia. Qed.

Lemma alloc_linked h closed fs rstack cur o :
  heap_building h closed fs -> task_for rstack cur fs ->
  exists h', link_parent rstack cur (rh_next h) (alloc_reply o h).2 = Ok h' /\
    open_rep (rh_objs h') (rh_next h) [Loc (rh_next h)] closed fs /\
    rh_next h' = S (rh_next h) /\
    rh_objs h' !! rh_next h = Some o /\
    (forall l, (rh_next h' <= l)%nat -> rh_objs h' !! l = None) /\
    size (rh_objs h') = S (closed_nodes closed + open_nodes fs).
Proof.
  intros (Ho & Hfresh & Hsize) Ht.
  destruct (link_parent_ok (alloc_reply o h).2 closed fs rstack cur (rh_next h))
    as (h' & E & Ho' & En & Es & Hag); [|done|].
  { eapply open_rep_frame; [|done]. intros l Hl. cbn. rewrite lookup_insert_ne by lia. done. }
  exists h'. split; [done|]. split; [done|]. split; [done|]. split; [|split].
  - rewrite Hag by lia. cbn. apply lookup_insert_eq.
  - intros l Hl. rewrite En in Hl. cbn in Hl. rewrite Hag by lia. cbn.
    rewrite lookup_insert_ne by lia. apply Hfresh. lia.
  - rewrite Es. cbn. rewrite map_size_insert_None by (apply Hfresh; lia). by rewrite Hsize.
Qed.

Lemma item_added_heap h' k closed fs x p :
  open_rep (rh_objs h') k [p] closed fs -> rep (rh_objs h') k (rh_next h') p x ->
  (forall l, (rh_next h' <= l)%nat -> rh_objs h' !! l = None) ->
  size (rh_objs h') = (reply_nodes x + (closed_nodes closed + open_nodes fs))%nat ->
  item_added heap_building closed fs x p h'.
Proof.
  intros Ho Hr Hfresh Hsize. split; [by apply rep_bounds in Hr as [_ ?]|].
  pose proof (open_absorb _ _ _ _ _ _ _ Ho Hr) as Ha.
  destruct fs as [|[[q n] ts] fs]; (split; [done|split; [done|]]); rewrite Hsize;
    unfold closed_nodes, open_nodes; cbn [sum_list_with snd].
  - lia.
  - rewrite replies_nodes_snoc. lia.
Qed.

(** Every creation function allocates the finished object and links it. *)
Lemma create_item h closed fs rstack cur x o (r : result (voidptr * reply_heap)) :
  heap_building h closed fs -> task_for rstack cur fs ->
  reply_nodes x = 1%nat ->
  leaf_obj x = Some o \/ (x = RArray [] /\ o = array_obj 0 []) ->
  r = (h' ← link_parent rstack cur (rh_next h) (alloc_reply o h).2; Ok (Loc (rh_next h), h')) ->
  adds_item heap_building closed fs x r.
Proof.
  intros Hb Ht Hx Ho ->.
  destruct (alloc_linked h closed fs rstack cur o Hb Ht)
    as (h' & -> & Hop & En & Hl & Hfresh & Hsize).
  eexists _, h'. split; [done|]. eapply item_added_heap; [done| |done|by rewrite Hsize, Hx].
  destruct Ho as [Hleaf|[-> ->]].
  - eapply rep_leaf; [|done|done]. lia.
  - eapply rep_array; [done|done|]. constructor. lia.
Qed.

Lemma store_created h ty r :
  store_reply (rh_next h) r (createReplyObject ty h).2 = (alloc_reply r h).2.
Proof. unfold store_reply, createReplyObject, alloc_reply. cbn. by rewrite insert_insert_eq. Qed.

Lemma string_value v rest :
  zlen v < 2 ^ 31 ->
  (value ← (if zlen v <=? zlen ((Some <$> v) ++ rest)
            then blit (fresh_cells (u32 (zlen v + 1))) 0
                   (take (Z.to_nat (zlen v)) ((Some <$> v) ++ rest))
            else Err Undefined);
   poke value (zlen v) x00) = Ok ((Some <$> v) ++ [Some x00]).
Proof.
  intros Hv. pose proof (zlen_nonneg v). pose proof (zlen_nonneg rest).
  rewrite (proj2 (Z.leb_le _ _)) by len_lia.
  rewrite u32_small by lia. rewrite to_nat_zlen.
  replace (length v) with (length (Some <$> v)) by len_lia. rewrite take_app_length.
  pose proof (blit_app [] (Some <$> v) (fresh_cells (zlen v + 1)) 0) as Hblit.
  cbn [app] in Hblit. rewrite Hblit; [|done|len_lia]. cbn [mbind result_bind].
  unfold poke, fresh_cells. rewrite drop_replicate.
  replace (Z.to_nat (zlen v + 1) - length (Some <$> v))%nat with 1%nat by len_lia.
  cbn [replicate]. rewrite blit_app by len_lia. done.
Qed.

Lemma createStringObject_ok h closed fs rstack cur v rest :
  heap_building h closed fs -> task_for rstack cur fs ->
  rt_type cur ∈ [REDIS_REPLY_STRING; REDIS_REPLY_STATUS; REDIS_REPLY_ERROR] ->
  zlen v < 2 ^ 31 ->
  adds_item heap_building closed fs (string_reply (rt_type cur) v)
    (createStringObject rstack cur ((Some <$> v) ++ rest) (zlen v) h).
Proof.
  intros Hb Ht Hty Hv. pose proof (zlen_nonneg v).
  apply (create_item h closed fs rstack cur _ (string_obj (rt_type cur) v)); [done|done|..].
  - unfold string_reply. by repeat case_match.
  - left. rewrite !elem_of_cons in Hty.
    destruct Hty as [->|[->|[->|[]%not_elem_of_nil]]]; done.
  - unfold createStringObject. cbn [createReplyObject alloc_reply].
    rewrite c_assert_true.
    2: { rewrite !elem_of_cons in Hty.
         destruct Hty as [->|[->|[->|[]%not_elem_of_nil]]]; done. }
    cbn [mbind result_bind].
    pose proof (string_value v rest Hv) as Hval. apply bind_Ok in Hval as (val & -> & Hval).
    cbn [mbind result_bind]. rewrite Hval. cbn [mbind result_bind].
    rewrite i32_small by lia. f_equal.
    unfold link_parent, store_reply, alloc_reply. cbn. by rewrite insert_insert_eq.
Qed.

Lemma createIntegerObject_ok h closed fs rstack cur z :
  heap_building h closed fs -> task_for rstack cur fs ->
  adds_item heap_building closed fs (RInteger z) (createIntegerObject rstack cur z h).
Proof.
  intros Hb Ht. eapply create_item; [done|done|done|by left|].
  unfold createIntegerObject. rewrite <- (store_created h REDIS_REPLY_INTEGER). done.
Qed.

Lemma createNilObject_ok h closed fs rstack cur :
  heap_building h closed fs -> task_for rstack cur fs ->
  adds_item heap_building closed fs RNil (createNilObject rstack cur h).
Proof. intros Hb Ht. by eapply create_item; [..|by left|]. Qed.

Lemma createArrayObject_empty h closed fs rstack cur :
  heap_building h closed fs -> task_for rstack cur fs ->
  adds_item heap_building closed fs (RArray []) (createArrayObject rstack cur 0 h).
Proof.
  intros Hb Ht. eapply create_item; [done|done|done|by right|].
  unfold createArrayObject. rewrite <- (store_created h REDIS_REPLY_ARRAY). done.
Qed.

Lemma createArrayObject_open h closed fs rstack cur n :
  heap_building h closed fs -> task_for rstack cur fs -> 0 < n < 2 ^ 30 ->
  exists p h', createArrayObject rstack cur n h = Ok (p, h') /\ p <> Null /\
    heap_building h' closed ((p, n, []) :: fs).
Proof.
  intros Hb Ht Hn.
  destruct (alloc_linked h closed fs rstack cur (array_obj n (replicate (Z.to_nat n) Null)) Hb Ht)
    as (h' & E & Ho & En & Hl & Hfresh & Hsize).
  exists (Loc (rh_next h)), h'. split; [|split; [done|]].
  - unfold createArrayObject, calloc_elements. cbn [createReplyObject alloc_reply].
    rewrite u32_small by lia. rewrite (proj2 (Z.ltb_lt _ _)) by lia.
    cbn [mbind result_bind]. unfold store_reply. cbn [rh_next rh_objs].
    rewrite insert_insert_eq. cbn [alloc_reply snd] in E. unfold array_obj in E.
    by rewrite E.
  - split; [|split; [done|]].
    + exists (rh_next h), []. split; [done|]. split.
      { rewrite Hl. cbn. by rewrite !Nat.sub_0_r. }
      split; [constructor; lia|]. split; [lia|]. split; [len_lia|done].
    + rewrite Hsize. unfold open_nodes. cbn [sum_list_with snd]. cbn. lia.
Qed.

(** ** Releasing *)

Lemma owned_bounds m :
  (forall lo hi p n, owned m lo hi p n -> (lo < hi)%nat /\ p <> Null /\ (0 < n)%nat) /\
  (forall lo hi ps n, owned_list m lo hi ps n -> (lo <= hi)%nat).
Proof. apply owned_both; intros; try split; try split; (done || lia). Qed.

Lemma owned_frame m m' :
  (forall lo hi p n, owned m lo hi p n ->
     (forall l, (lo <= l < hi)%nat -> m' !! l = m !! l) -> owned m' lo hi p n) /\
  (forall lo hi ps n, owned_list m lo hi ps n ->
     (forall l, (lo <= l < hi)%nat -> m' !! l = m !! l) -> owned_list m' lo hi ps n).
Proof.
  apply owned_both.
  - intros lo hi l x o Hl Hm Hx Hag. eapply owned_leaf; [done| |done]. by rewrite Hag.
  - intros lo hi l ps n Hl Hm Hr IH Hag. apply owned_bounds in Hr as Hb.
    eapply owned_array; [done| |].
    + rewrite Hag by lia. done.
    + apply IH. intros j Hj. apply Hag. lia.
  - intros. by constructor.
  - intros lo hi ps n H IH Hag. constructor. by apply IH.
  - intros lo mid hi p ps k n Hr IHr Hrs IHrs Hag.
    apply owned_bounds in Hr as [Hb1 _]. apply owned_bounds in Hrs as Hb2.
    apply (owned_cons _ _ mid); [apply IHr|apply IHrs]; intros j Hj; apply Hag; lia.
Qed.

(** [r] is the heap [h] less the [n] objects of a tree numbered [lo] to [hi]. *)
Definition freed (h : reply_heap) (lo hi n : nat) (r : result reply_heap) : Prop :=
  exists h', r = Ok h' /\ rh_next h' = rh_next h /\
    (forall l, (l < lo \/ hi <= l)%nat -> rh_objs h' !! l = rh_objs h !! l) /\
    (forall l, rh_objs h !! l = None -> rh_objs h' !! l = None) /\
    (size (rh_objs h') + n)%nat = size (rh_objs h).

Lemma free_leaf_ok f h l o x :
  rh_objs h !! l = Some o -> leaf_obj x = Some o ->
  freeReplyObject_fuel (S f) (Loc l) h = Ok (ReplyHeap (rh_next h) (delete l (rh_objs h))).
Proof.
  intros Hl Hx. cbn [freeReplyObject_fuel load_reply]. rewrite Hl. cbn.
  destruct x; by simplify_eq/=.
Qed.

Lemma freed_delete h l :
  is_Some (rh_objs h !! l) ->
  freed h l (S l) 1 (Ok (ReplyHeap (rh_next h) (delete l (rh_objs h)))).
Proof.
  intros [o Hl]. eexists. split; [done|]. cbn. split; [done|]. split; [|split].
  - intros j Hj. rewrite lookup_delete_ne by lia. done.
  - intros j Hj. destruct (decide (l = j)) as [->|]; [apply lookup_delete_eq|].
    by rewrite lookup_delete_ne.
  - rewrite map_size_delete, Hl. cbn.
    assert (size (rh_objs h) <> 0%nat); [|lia].
    rewrite map_size_ne_0_lookup. by exists l, o.
Qed.

Lemma freed_seq h lo mid hi k n r (f : reply_heap -> result reply_heap) :
  (lo <= mid)%nat -> (mid <= hi)%nat ->
  freed h lo mid k r ->
  (forall h', (forall l, (mid <= l < hi)%nat -> rh_objs h' !! l = rh_objs h !! l) ->
     rh_next h' = rh_next h -> freed h' mid hi n (f h')) ->
  freed h lo hi (k + n) (h' ← r; f h').
Proof.
  intros Hb1 Hb2 (h1 & -> & En & Hag & Hno & Hs) Hf. cbn [mbind result_bind].
  destruct (Hf h1) as (h2 & -> & En2 & Hag2 & Hno2 & Hs2); [|done|].
  { intros l Hl. apply Hag. lia. }
  exists h2. split; [done|]. split; [congruence|]. split; [|split; [|lia]].
  - intros l Hl. rewrite Hag2, Hag by lia. done.
  - intros l Hl. auto.
Qed.

Lemma freed_weaken h lo hi lo' hi' n r :
  (lo' <= lo)%nat -> (hi <= hi')%nat -> freed h lo hi n r -> freed h lo' hi' n r.
Proof.
  intros H1 H2 (h' & -> & ? & Hag & ?). exists h'. repeat split; try tauto.
  intros l Hl. apply Hag. lia.
Qed.

Lemma freed_owned m :
  (forall lo hi p n, owned m lo hi p n -> forall h f,
     (forall l, (lo <= l < hi)%nat -> rh_objs h !! l = m !! l) -> (hi - lo < f)%nat ->
     freed h lo hi n (freeReplyObject_fuel f p h)) /\
  (forall lo hi ps n, owned_list m lo hi ps n -> forall h f,
     (forall l, (lo <= l < hi)%nat -> rh_objs h !! l = m !! l) -> (hi - lo < f)%nat ->
     freed h lo hi n (free_elements (freeReplyObject_fuel f) ps (length ps) h)).
Proof.
  apply owned_both.
  - intros lo hi l x o Hl Hm Hx h f Hag Hf. destruct f as [|f]; [lia|].
    rewrite (free_leaf_ok f h l o x) by (rewrite ?Hag; first [done|lia]).
    eapply (freed_weaken h l (S l)); [lia|lia|]. apply freed_delete.
    exists o. rewrite Hag by lia. done.
  - intros lo hi l ps n Hl Hm Hr IH h f Hag Hf. apply owned_bounds in Hr as Hb.
    destruct f as [|f]; [lia|]. cbn [freeReplyObject_fuel load_reply].
    assert (Hobj : rh_objs h !! l = Some (array_obj (zlen ps) ps)) by (rewrite Hag; [done|lia]).
    rewrite Hobj. cbn. rewrite to_nat_zlen.
    destruct (IH h f) as (h1 & -> & En & Hag1 & Hno & Hs); [|lia|].
    { intros j Hj. apply Hag. lia. }
    cbn [mbind result_bind]. eapply (freed_weaken h l hi); [lia|lia|].
    destruct (freed_delete h1 l) as (h2 & E & En2 & Hag2 & Hno2 & Hs2).
    { rewrite Hag1 by lia. by rewrite Hobj. }
    injection E as <-. eexists. split; [done|]. cbn in *. split; [done|].
    split; [|split; [|lia]].
    + intros j Hj. rewrite Hag2, Hag1 by lia. done.
    + intros j Hj. auto.
  - intros lo hi Hl h f Hag Hf. eexists. cbn. split; [done|]. repeat split; auto.
  - intros lo hi ps n H IH h f Hag Hf. cbn [free_elements length].
    rewrite bool_decide_eq_true_2 by done. cbn [mbind result_bind]. by apply IH.
  - intros lo mid hi p ps k n Hr IHr Hrs IHrs h f Hag Hf.
    apply owned_bounds in Hr as (Hb1 & Hp & _). apply owned_bounds in Hrs as Hb2.
    cbn [free_elements length]. rewrite bool_decide_eq_false_2 by done.
    apply (freed_seq h lo mid hi); [lia|lia|apply IHr; [|lia]|].
    + intros l Hl. apply Hag. lia.
    + intros h' Hag' En. apply IHrs; [|lia].
      intros l Hl. rewrite Hag', Hag by lia. done.
Qed.

Lemma freed_reply h lo hi p n :
  owned (rh_objs h) lo hi p n -> (hi <= rh_next h)%nat -> freed h lo hi n (freeReplyObject p h).
Proof.
  intros Ho Hh. apply (freed_owned (rh_objs h)); [done|done|lia].
Qed.

(** ** The unfinished root and the replies below it *)

Lemma owned_list_app m a b c ps n qs k :
  owned_list m a b ps n -> owned_list m b c qs k -> owned_list m a c (ps ++ qs) (n + k).
Proof.
  intros Hp Hq. induction Hp; cbn.
  - clear -H Hq. revert lo H. induction Hq; intros lo' Hl.
    + constructor. lia.
    + constructor. auto.
    + eapply owned_cons; [|done]. clear -H Hl.
      destruct H; [eapply owned_leaf; [lia|done|done]|eapply owned_array; [lia|done|done]].
  - constructor. auto.
  - rewrite <- Nat.add_assoc. eapply owned_cons; eauto.
Qed.

Lemma owned_nulls m a b j : (a <= b)%nat -> owned_list m a b (replicate j Null) 0.
Proof. intros. induction j; cbn; by constructor. Qed.

Lemma open_owned m closed q n ts : forall fs hi hi' child k,
  open_rep m hi child closed (fs ++ [(q, n, ts)]) ->
  owned_list m hi hi' child k ->
  exists lo, owned m lo hi' q (k + open_nodes (fs ++ [(q, n, ts)])) /\ closed_rep m lo closed.
Proof.
  assert (Hframe : forall hi hi' child k p n ts fs,
    open_rep m hi child closed ((p, n, ts) :: fs) -> owned_list m hi hi' child k ->
    exists l, p = Loc l /\ owned m l hi' p (S (replies_nodes ts + k)) /\
      open_rep m l [p] closed fs).
  { intros hi hi' child k p n' ts' fs (l & ps & -> & Hm & Hr & Hn & Hle & Ho) Hc.
    exists l. split; [done|]. split; [|done].
    pose proof (proj2 (rep_bounds _) _ _ _ _ Hr) as [_ Hlen].
    apply rep_owned in Hr. apply owned_bounds in Hc as Hb.
    eapply owned_array; [done| |].
    - rewrite Hm. do 2 f_equal. len_lia.
    - eapply owned_list_app; [done|]. rewrite <- (Nat.add_0_r k).
      eapply owned_list_app; [done|]. by apply owned_nulls. }
  induction fs as [|[[p n'] ts'] fs IH]; intros hi hi' child k Ho Hc; cbn [app] in Ho;
    destruct (Hframe _ _ _ _ _ _ _ _ Ho Hc) as (l & -> & Hown & Ho').
  - exists l. split; [|done]. unfold open_nodes. cbn [app sum_list_with snd].
    eapply eq_rect; [exact Hown|]. lia.
  - destruct (IH l hi' [Loc l] (S (replies_nodes ts' + k) + 0)%nat Ho') as (lo & Hq & Hcl).
    { eapply owned_cons; [done|]. constructor. done. }
    exists lo. split; [|done]. unfold open_nodes in *. cbn [app sum_list_with snd].
    eapply eq_rect; [exact Hq|]. lia.
Qed.

Lemma closed_rep_weaken m lo hi closed :
  closed_rep m lo closed -> (lo <= hi)%nat -> closed_rep m hi closed.
Proof.
  destruct closed as [|[p x] closed]; [done|]. intros (lo' & Hr & Hc) Hl.
  exists lo'. split; [|done]. by eapply rep_weaken.
Qed.

Lemma closed_nodes_app c1 c2 : closed_nodes (c1 ++ c2) = (closed_nodes c1 + closed_nodes c2)%nat.
Proof. unfold closed_nodes. induction c1 as [|c c1 IH]; cbn; [done|]. rewrite IH. lia. Qed.

(** The intervals around one of the complete replies. *)
Lemma closed_rep_split m c1 p x c2 : forall hi,
  closed_rep m hi (c1 ++ (p, x) :: c2) ->
  exists lo mid, (mid <= hi)%nat /\ rep m lo mid p x /\
    forall m', (forall l, (l < lo \/ mid <= l)%nat -> m' !! l = m !! l) ->
      closed_rep m' hi (c1 ++ c2).
Proof.
  induction c1 as [|[q y] c1 IH]; intros hi H; cbn [app closed_rep] in H.
  - destruct H as (lo & Hr & Hc). exists lo, hi. split; [done|]. split; [done|].
    intros m' Hag. apply (closed_rep_weaken _ lo).
    + eapply closed_rep_frame; [|done]. intros l Hl. apply Hag. lia.
    + apply rep_bounds in Hr. lia.
  - destruct H as (lo & Hr & Hc). destruct (IH lo Hc) as (lo' & mid & Hm & Hp & Hrest).
    pose proof (proj1 (rep_bounds _) _ _ _ _ Hr) as [Hb _].
    exists lo', mid. split; [lia|]. split; [done|]. intros m' Hag.
    exists lo. split; [|by apply Hrest].
    apply (rep_frame m); [done|]. intros l Hl. apply Hag. lia.
Qed.

(** ** The instances *)

#[global, program] Instance default_builder : ReplyBuilder (Some defaultFunctions) :=
  {| building := heap_building |}.
Next Obligation.
  cbn. intros h closed fs rstack cur dflt v rest Hb Ht Hty _ Hv.
  by apply createStringObject_ok.
Qed.
Next Obligation. intros. by apply createIntegerObject_ok. Qed.
Next Obligation. intros. by apply createNilObject_ok. Qed.
Next Obligation. intros. by apply createArrayObject_empty. Qed.
Next Obligation. intros. by apply createArrayObject_open. Qed.
Next Obligation.
  intros h closed q n ts p m us fs (Ho & Hfresh & Hsize) Hn.
  destruct (open_close _ _ _ _ _ _ _ Ho Hn) as (l & Hop & Hr).
  split; [by apply (open_absorb _ _ _ _ ((p, m, us) :: fs) _ _ Hop Hr)|]. split; [done|].
  rewrite Hsize. unfold open_nodes. cbn [sum_list_with snd]. rewrite replies_nodes_snoc.
  change (reply_nodes (RArray ts)) with (S (replies_nodes ts)). lia.
Qed.
Next Obligation.
  intros h closed q n ts (Ho & Hfresh & Hsize) Hn.
  destruct (open_close _ _ _ _ _ _ _ Ho Hn) as (l & Hop & Hr).
  split; [by apply (open_absorb _ _ _ _ [] _ _ Hop Hr)|]. split; [done|].
  rewrite Hsize. unfold closed_nodes, open_nodes. cbn [sum_list_with snd].
  change (reply_nodes (RArray ts)) with (S (replies_nodes ts)). lia.
Qed.
Next Obligation.
  intros h closed fs (Ho & _). revert Ho. generalize (rh_next h), (@nil voidptr).
  induction fs as [|[[p n] ts] fs IH]; intros hi child Ho.
  - split; [|done]. cbn in Ho. clear child. revert hi Ho.
    induction closed as [|[p x] closed IH]; intros hi Ho; [done|].
    destruct Ho as (lo & Hr & Hc). apply rep_bounds in Hr as [_ Hp].
    constructor; [done|]. by apply (IH lo).
  - destruct Ho as (l & ps & -> & _ & _ & _ & _ & Ho). destruct (IH _ _ Ho) as [Hc Hf].
    split; [done|]. by constructor.
Qed.

#[global] Instance default_disposer : ReplyDisposer (Some defaultFunctions).
Proof.
  split.
  - intros h closed fs q n ts (Ho & Hfresh & Hsize).
    destruct (open_owned _ _ _ _ _ _ _ (rh_next h) [] 0%nat Ho) as (lo & Hq & Hc);
      [by constructor|].
    destruct (freed_reply h lo (rh_next h) q _ Hq) as (h' & E & En & Hag & Hno & Hs); [done|].
    exists h'. split; [exact E|]. split; [|split].
    + apply (closed_rep_weaken _ lo).
      * eapply closed_rep_frame; [|done]. intros l Hl. apply Hag. lia.
      * apply owned_bounds in Hq. lia.
    + intros l Hl. apply Hno, Hfresh. lia.
    + unfold open_nodes in *. cbn [sum_list_with]. lia.
  - intros h c1 p x c2 (Ho & Hfresh & Hsize).
    destruct (closed_rep_split _ _ _ _ _ _ Ho) as (lo & mid & Hmid & Hr & Hrest).
    destruct (freed_reply h lo mid p (reply_nodes x)) as (h' & E & En & Hag & Hno & Hs);
      [by apply rep_owned|done|].
    exists h'. split; [exact E|]. split; [|split].
    + cbn. rewrite En. apply Hrest. intros l Hl. apply Hag. lia.
    + intros l Hl. apply Hno, Hfresh. lia.
    + rewrite closed_nodes_app in *. unfold closed_nodes in *.
      cbn [sum_list_with snd] in Hsize. lia.
Qed.

(** A reader without functions builds no objects: a reply is its type code. *)
Definition type_code (x : reply) : Z :=
  match x with
  | RString _ => REDIS_REPLY_STRING
  | RArray _ => REDIS_REPLY_ARRAY
  | RInteger _ => REDIS_REPLY_INTEGER
  | RNil => REDIS_REPLY_NIL
  | RStatus _ => REDIS_REPLY_STATUS
  | RError _ => REDIS_REPLY_ERROR
  end.

Definition codes_building {H : Type} (h : H) (closed : list (voidptr * reply))
    (fs : list open_array) : Prop :=
  Forall (fun c => c.1 = Int (type_code c.2)) closed /\
  Forall (fun f => f.1.1 = Int REDIS_REPLY_ARRAY) fs.

Lemma codes_added {H} (h : H) closed fs x :
  codes_building h closed fs ->
  item_added codes_building closed fs x (Int (type_code x)) h.
Proof.
  intros [Hc Hf]. split; [done|]. destruct fs as [|[[q n] ts] fs].
  - split; [by constructor|constructor].
  - inversion Hf; subst. split; [done|]. by constructor.
Qed.

#[global, program] Instance null_builder {H} : ReplyBuilder (H := H) None :=
  {| building := codes_building |}.
Next Obligation.
  intros H h closed fs rstack cur dflt v rest Hb Ht Hty -> Hv. eexists _, h. split; [done|].
  replace (rt_type cur) with (type_code (string_reply (rt_type cur) v)) at 2.
  - by apply codes_added.
  - rewrite !elem_of_cons in Hty.
    destruct Hty as [->|[->|[->|[]%not_elem_of_nil]]]; done.
Qed.
Next Obligation. intros. eexists _, h. split; [done|]. by apply (codes_added h _ _ (RInteger z)). Qed.
Next Obligation. intros. eexists _, h. split; [done|]. by apply (codes_added h _ _ RNil). Qed.
Next Obligation. intros. eexists _, h. split; [done|]. by apply (codes_added h _ _ (RArray [])). Qed.
Next Obligation.
  intros H h closed fs rstack cur n [Hc Hf] Ht Hn. eexists _, h. split; [done|]. split; [done|].
  split; [done|]. by constructor.
Qed.
Next Obligation.
  intros H h closed q n ts p m us fs [Hc Hf] Hn. split; [done|].
  inversion Hf as [|? ? Hq Hf']; inversion Hf' as [|? ? Hp Hfs]; subst. by constructor.
Qed.
Next Obligation.
  intros H h closed q n ts [Hc Hf] Hn. inversion Hf as [|? ? Hq _]; subst.
  split; [|constructor]. by constructor.
Qed.
Next Obligation.
  intros H h closed fs [Hc Hf].
  split; (eapply Forall_impl; [eassumption|]); intros o E; cbn in E; by rewrite E.
Qed.

Lemma empty_heap_building : heap_building empty_heap [] [].
Proof. repeat split; done. Qed.
