(* ===== verification/Reader.v ===== *)
(** * The reply reader ([win32/hiredis/hiredis.c], lines 38-590)

    The state machine that consumes the bytes fed to it and builds replies
    through a function table, over any state [H] the functions act on. *)

From S2P Require Import Prelude Sds SdsText Resp Reply.

Definition REDIS_OK : Z := 0.
Definition REDIS_ERR : Z := -1.

Record redisReader (H : Type) := Reader {
  r_fn : option (redisReplyObjectFunctions H);
  r_error : option sdshdr;
  r_reply : voidptr;
  r_buf : sdshdr;
  r_pos : Z;
  r_len : Z;
  r_rstack : list redisReadTask;
  r_ridx : Z;
  r_privdata : voidptr
}.
Arguments Reader {H}.
Arguments r_fn {H}.
Arguments r_error {H}.
Arguments r_reply {H}.
Arguments r_buf {H}.
Arguments r_pos {H}.
Arguments r_len {H}.
Arguments r_rstack {H}.
Arguments r_ridx {H}.
Arguments r_privdata {H}.

(** Assignments to the fields of a reader and of a task. *)
Section updates.
Context {H : Type}.
Implicit Types r : redisReader H.

Definition set_fn (fn : option (redisReplyObjectFunctions H)) r : redisReader H :=
  Reader fn (r_error r) (r_reply r) (r_buf r) (r_pos r) (r_len r) (r_rstack r) (r_ridx r) (r_privdata r).
Definition set_error error r :=
  Reader (r_fn r) error (r_reply r) (r_buf r) (r_pos r) (r_len r) (r_rstack r) (r_ridx r) (r_privdata r).
Definition set_reply reply r :=
  Reader (r_fn r) (r_error r) reply (r_buf r) (r_pos r) (r_len r) (r_rstack r) (r_ridx r) (r_privdata r).
Definition set_buf buf r :=
  Reader (r_fn r) (r_error r) (r_reply r) buf (r_pos r) (r_len r) (r_rstack r) (r_ridx r) (r_privdata r).
Definition set_pos pos r :=
  Reader (r_fn r) (r_error r) (r_reply r) (r_buf r) pos (r_len r) (r_rstack r) (r_ridx r) (r_privdata r).
Definition set_len len r :=
  Reader (r_fn r) (r_error r) (r_reply r) (r_buf r) (r_pos r) len (r_rstack r) (r_ridx r) (r_privdata r).
Definition set_rstack rstack r :=
  Reader (r_fn r) (r_error r) (r_reply r) (r_buf r) (r_pos r) (r_len r) rstack (r_ridx r) (r_privdata r).
Definition set_ridx ridx r :=
  Reader (r_fn r) (r_error r) (r_reply r) (r_buf r) (r_pos r) (r_len r) (r_rstack r) ridx (r_privdata r).
Definition set_privdata privdata r :=
  Reader (r_fn r) (r_error r) (r_reply r) (r_buf r) (r_pos r) (r_len r) (r_rstack r) (r_ridx r) privdata.
End updates.

Definition task_set_type type t :=
  ReadTask type (rt_elements t) (rt_idx t) (rt_obj t) (rt_parent t) (rt_privdata t).
Definition task_set_elements elements t :=
  ReadTask (rt_type t) elements (rt_idx t) (rt_obj t) (rt_parent t) (rt_privdata t).
Definition task_set_idx idx t :=
  ReadTask (rt_type t) (rt_elements t) idx (rt_obj t) (rt_parent t) (rt_privdata t).
Definition task_set_obj obj t :=
  ReadTask (rt_type t) (rt_elements t) (rt_idx t) obj (rt_parent t) (rt_privdata t).

(** [r->rstack[i]], an array of nine tasks. *)
Definition get_task {A} (rstack : list A) (i : Z) : result A :=
  if i <? 0 then Err Undefined else of_option Undefined (rstack !! Z.to_nat i).
Definition put_task {A} (i : Z) (t : A) (rstack : list A) : list A := <[Z.to_nat i := t]> rstack.

(** ** Reading the buffer *)

Section reader.
Context {H : Type}.
Implicit Types r : redisReader H.

(** [None] is NULL; a pointer into the buffer is its offset. *)
Definition readBytes (n : Z) r : option Z * redisReader H :=
  if n <=? u32 (r_len r - r_pos r)
  then (Some (r_pos r), set_pos (u32 (r_pos r + n)) r)
  else (None, r).

Fixpoint seek_cr (fuel : nat) (buf : cells) (s pos len : Z) : result Z :=
  match fuel with
  | O => Err NoFuel
  | S fuel =>
      if pos <? len then
        c ← peek buf (s + pos);
        if bool_decide (c = x0d) then Ok pos else seek_cr fuel buf s (pos + 1) len
      else Ok pos
  end.

Fixpoint seekNewline_loop (fuel : nat) (buf : cells) (s pos len : Z) : result (option Z) :=
  match fuel with
  | O => Err NoFuel
  | S fuel =>
      if pos <? len then
        pos ← seek_cr fuel buf s pos len;
        c ← peek buf (s + pos);
        if negb (bool_decide (c = x0d)) then Ok None
        else
          c1 ← peek buf (s + pos + 1);
          if bool_decide (c1 = x0a) then Ok (Some (s + pos))
          else seekNewline_loop fuel buf s (pos + 1) len
      else Ok None
  end.

(** The pointer to CR LF in the [len] bytes from [s] on. *)
Definition seekNewline (buf : cells) (s len : Z) : result (option Z) :=
  let _len := i32 (u32 (len - 1)) in
  seekNewline_loop (S (S (Z.to_nat len))) buf s 0 _len.

Fixpoint readLongLong_loop (fuel : nat) (buf : cells) (s mult v : Z) : result Z :=
  match fuel with
  | O => Err NoFuel
  | S fuel =>
      c ← peek buf s;
      if bool_decide (c = x0d) then chk64 (mult * v)
      else
        let dec := c2z c - 48 in
        if (0 <=? dec) && (dec <? 10) then
          v ← chk64 (v * 10);
          v ← chk64 (v + dec);
          readLongLong_loop fuel buf (s + 1) mult v
        else Ok (-1)
  end.

Definition readLongLong (buf : cells) (s : Z) : result Z :=
  c ← peek buf s;
  let '(mult, s) := (if bool_decide (c = x2d) then (-1, s + 1)
                     else if bool_decide (c = x2b) then (1, s + 1) else (1, s)) in
  readLongLong_loop (S (length buf)) buf s mult 0.

(** The line's start and length; [pos] moves behind its CR LF. *)
Definition readLine r : result (option (Z * Z) * redisReader H) :=
  let p := r_pos r in
  s ← seekNewline (sds_buf (r_buf r)) p (u32 (r_len r - r_pos r));
  match s with
  | Some s =>
      let len := i32 (s - p) in
      Ok (Some (p, len), set_pos (u32 (r_pos r + u32 (len + 2))) r)
  | None => Ok (None, r)
  end.

(** ** The task stack *)

Fixpoint moveToNextTask_loop (fuel : nat) r : result (redisReader H) :=
  match fuel with
  | O => Err NoFuel
  | S fuel =>
      if r_ridx r <? 0 then Ok r
      else if r_ridx r =? 0 then Ok (set_ridx (r_ridx r - 1) r)
      else
        cur ← get_task (r_rstack r) (r_ridx r);
        prv ← get_task (r_rstack r) (r_ridx r - 1);
        _ ← c_assert (rt_type prv =? REDIS_REPLY_ARRAY);
        if rt_idx cur =? rt_elements prv - 1
        then moveToNextTask_loop fuel (set_ridx (r_ridx r - 1) r)
        else
          _ ← c_assert (rt_idx cur <? rt_elements prv);
          let cur := task_set_idx (rt_idx cur + 1) (task_set_elements (-1) (task_set_type (-1) cur)) in
          Ok (set_rstack (put_task (r_ridx r) cur (r_rstack r)) r)
  end.

Definition moveToNextTask r : result (redisReader H) :=
  moveToNextTask_loop (S (S (Z.to_nat (r_ridx r)))) r.

(** Errors are built from sds strings: [%s] prints one up to its first NUL. *)
Definition sds_chars (s : sdshdr) : result (list byte) :=
  n ← strlen (cell_bytes (sds_buf s));
  Ok (take (Z.to_nat n) (cell_bytes (sds_buf s))).

Definition redisSetReplyReaderError (err : sdshdr) r (h : H) : result (redisReader H * H) :=
  h ← (if bool_decide (r_reply r = Null) then Ok h else call_freeObject (r_fn r) (r_reply r) h);
  buf ← sdsempty;
  Ok (set_error (Some err) (set_ridx (-1) (set_len 0 (set_pos 0 (set_buf buf r)))), h).

(** ** Items; the first component is the C result, [0] or [-1]. *)

Definition processLineItem r (h : H) : result (Z * redisReader H * H) :=
  cur ← get_task (r_rstack r) (r_ridx r);
  '(line, r) ← readLine r;
  match line with
  | Some (p, len) =>
      '(obj, h) ←
        (if rt_type cur =? REDIS_REPLY_INTEGER then
           match r_fn r ≫= fn_createInteger with
           | Some createInteger =>
               v ← readLongLong (sds_buf (r_buf r)) p;
               createInteger (r_rstack r) cur v h
           | None => Ok (Int REDIS_REPLY_INTEGER, h)
           end
         else call_createString (r_fn r) (rt_type cur) (r_rstack r) cur
                (drop (Z.to_nat p) (sds_buf (r_buf r))) (u32 len) h);
      let r := if r_ridx r =? 0 then set_reply obj r else r in
      r ← moveToNextTask r;
      Ok (0, r, h)
  | None => Ok (-1, r, h)
  end.

Definition processBulkItem r (h : H) : result (Z * redisReader H * H) :=
  cur ← get_task (r_rstack r) (r_ridx r);
  let p := r_pos r in
  s ← seekNewline (sds_buf (r_buf r)) p (u32 (r_len r - r_pos r));
  match s with
  | Some s =>
      let bytelen := u32 (s - p + 2) in
      len ← readLongLong (sds_buf (r_buf r)) p;
      made ←
        (if len <? 0 then
           '(obj, h) ← call_createNil (r_fn r) (r_rstack r) cur h;
           Ok (Some (obj, h, bytelen))
         else
           let bytelen := u32 (bytelen + u32 (u32 len + 2)) in
           if u32 (r_pos r + bytelen) <=? r_len r then
             '(obj, h) ← call_createString (r_fn r) REDIS_REPLY_STRING (r_rstack r) cur
                (drop (Z.to_nat (s + 2)) (sds_buf (r_buf r))) (u32 len) h;
             Ok (Some (obj, h, bytelen))
           else Ok None);
      match made with
      | Some (obj, h, bytelen) =>
          let r := set_pos (u32 (r_pos r + bytelen)) r in
          let r := if r_ridx r =? 0 then set_reply obj r else r in
          r ← moveToNextTask r;
          Ok (0, r, h)
      | None => Ok (-1, r, h)
      end
  | None => Ok (-1, r, h)
  end.

Definition processMultiBulkItem r (h : H) : result (Z * redisReader H * H) :=
  cur ← get_task (r_rstack r) (r_ridx r);
  if r_ridx r =? 8 then
    e ← sdsempty;
    e ← sdscatprintf e nesting_error;
    '(r, h) ← redisSetReplyReaderError e r h;
    Ok (-1, r, h)
  else
    '(line, r) ← readLine r;
    match line with
    | Some (p, _) =>
        elements ← readLongLong (sds_buf (r_buf r)) p;
        let root := r_ridx r =? 0 in
        '(obj, r, h) ←
          (if elements =? -1 then
             '(obj, h) ← call_createNil (r_fn r) (r_rstack r) cur h;
             r ← moveToNextTask r;
             Ok (obj, r, h)
           else
             '(obj, h) ← call_createArray (r_fn r) (r_rstack r) cur (i32 elements) h;
             if 0 <? elements then
               let i := r_ridx r in
               let r := set_rstack (put_task i
                          (task_set_obj obj (task_set_elements (i32 elements) cur)) (r_rstack r)) r in
               let r := set_ridx (i + 1) r in
               old ← get_task (r_rstack r) (r_ridx r);
               let new := ReadTask (-1) (-1) 0 Null (Some (Z.to_nat i)) (r_privdata r) in
               Ok (obj, set_rstack (put_task (r_ridx r) new (r_rstack r)) r, h)
             else
               r ← moveToNextTask r;
               Ok (obj, r, h));
        let r := if root then set_reply obj r else r in
        Ok (0, r, h)
    | None => Ok (-1, r, h)
    end.

(** The type a byte announces, if it does. *)
Definition reply_type_of (c : byte) : option Z :=
  if bool_decide (c = x2d) then Some REDIS_REPLY_ERROR
  else if bool_decide (c = x2b) then Some REDIS_REPLY_STATUS
  else if bool_decide (c = x3a) then Some REDIS_REPLY_INTEGER
  else if bool_decide (c = x24) then Some REDIS_REPLY_STRING
  else if bool_decide (c = x2a) then Some REDIS_REPLY_ARRAY
  else None.

Definition process_typed (type : Z) r (h : H) : result (Z * redisReader H * H) :=
  if (type =? REDIS_REPLY_ERROR) || (type =? REDIS_REPLY_STATUS) || (type =? REDIS_REPLY_INTEGER)
  then processLineItem r h
  else if type =? REDIS_REPLY_STRING then processBulkItem r h
  else if type =? REDIS_REPLY_ARRAY then processMultiBulkItem r h
  else Err AssertFailed.

Definition processItem r (h : H) : result (Z * redisReader H * H) :=
  cur ← get_task (r_rstack r) (r_ridx r);
  if rt_type cur <? 0 then
    match readBytes 1 r with
    | (Some p, r) =>
        c ← peek (sds_buf (r_buf r)) p;
        match reply_type_of c with
        | Some type =>
            let r := set_rstack (put_task (r_ridx r) (task_set_type type cur) (r_rstack r)) r in
            process_typed type r h
        | None =>
            byte ← sdsempty;
            byte ← sdscatrepr byte [c] 1;
            text ← sds_chars byte;
            e ← sdsempty;
            e ← sdscatprintf e (bytes "Protocol error, got " ++ text ++ bytes " as reply type byte");
            '(r, h) ← redisSetReplyReaderError e r h;
            Ok (-1, r, h)
        end
    | (None, r) => Ok (-1, r, h)
    end
  else process_typed (rt_type cur) r h.

(** ** The interface *)

Definition zero_task : redisReadTask := ReadTask 0 0 0 Null None Null.

Definition redisReplyReaderCreate (defaults : redisReplyObjectFunctions H) : result (redisReader H) :=
  buf ← sdsempty;
  Ok (Reader (Some defaults) None Null buf 0 0 (replicate 9 zero_task) (-1) Null).

Definition redisReplyReaderSetReplyObjectFunctions (fn : option (redisReplyObjectFunctions H)) r
    : Z * redisReader H :=
  if bool_decide (r_reply r = Null) then (REDIS_OK, set_fn fn r) else (REDIS_ERR, r).

Definition redisReplyReaderSetPrivdata (privdata : voidptr) r : Z * redisReader H :=
  if bool_decide (r_reply r = Null) then (REDIS_OK, set_privdata privdata r) else (REDIS_ERR, r).

Definition redisReplyReaderGetObject r : voidptr := r_reply r.

(** Releases the reader itself; what is left is the builder's state. *)
Definition redisReplyReaderFree r (h : H) : result H :=
  if bool_decide (r_reply r = Null) then Ok h
  else match r_fn r with
       | None => Ok h
       | Some _ => call_freeObject (r_fn r) (r_reply r) h
       end.

Definition redisReplyReaderGetError r : option sdshdr := r_error r.

(** [buf] is [None] for NULL. *)
Definition redisReplyReaderFeed (buf : option (list byte)) (len : Z) r : result (redisReader H) :=
  match buf with
  | Some buf =>
      if 1 <=? len then
        r ← (if (r_len r =? 0) && (16 * 1024 <? sdsavail (r_buf r))
             then b ← sdsempty; Ok (set_pos 0 (set_buf b r))
             else Ok r);
        b ← sdscatlen (r_buf r) buf len;
        Ok (set_len (sdslen b) (set_buf b r))
      else Ok r
  | None => Ok r
  end.

Fixpoint process_items (fuel : nat) r (h : H) : result (redisReader H * H) :=
  match fuel with
  | O => Err NoFuel
  | S fuel =>
      if r_ridx r <? 0 then Ok (r, h)
      else
        '(rc, r, h) ← processItem r h;
        if rc <? 0 then Ok (r, h) else process_items fuel r h
  end.

Definition discard_consumed r : result (redisReader H) :=
  if 1024 <=? r_pos r then
    b ← sdsrange (r_buf r) (i32 (r_pos r)) (-1);
    Ok (set_len (sdslen b) (set_pos 0 (set_buf b r)))
  else Ok r.

(** Status, the reply handed out, the reader, the builder's state. *)
Definition redisReplyReaderGetReply r (h : H) : result (Z * voidptr * redisReader H * H) :=
  if r_len r =? 0 then Ok (REDIS_OK, Null, r, h)
  else
    let r := if r_ridx r =? -1
             then set_ridx 0 (set_rstack
                    (put_task 0 (ReadTask (-1) (-1) (-1) Null None (r_privdata r)) (r_rstack r)) r)
             else r in
    '(r, h) ← process_items (Z.to_nat (r_len r - r_pos r) + 2) r h;
    r ← discard_consumed r;
    if r_ridx r =? -1 then
      let aux := r_reply r in
      let r := set_reply Null r in
      match r_error r with
      | Some _ => Ok (REDIS_ERR, Null, r, h)
      | None => Ok (REDIS_OK, aux, r, h)
      end
    else Ok (REDIS_OK, Null, r, h).
End reader.
