(* ===== verification/ReaderSpec.v ===== *)
(** * The reply reader implements the protocol parser

    [Reader] refines [Resp.parse]: what a reader holds between two calls is a
    parser state, one call of [redisReplyReaderGetReply] is one run of [parse],
    and [redisReplyReaderFeed] appends to the unread bytes.  The proofs use only
    the laws of [ReplyBuilder] and [ReplyDisposer], so they hold for the default
    functions and for a reader without functions. *)

From S2P Require Import Prelude Digits Sds SdsText Resp Reply ReplyHeap Reader.

(** ** Reading the buffer *)

(** The buffer of a reader that has consumed [pre] of [pre ++ w]. *)
Definition buffered (pre w : list byte) (rest : cells) : cells :=
  (Some <$> (pre ++ w)) ++ Some x00 :: rest.

Lemma peek_buffered pre w rest i c :
  0 <= i -> w !! Z.to_nat i = Some c -> peek (buffered pre w rest) (zlen pre + i) = Ok c.
Proof.
  intros Hi Hc. apply lookup_lt_Some in Hc as Hlt. pose proof (zlen_nonneg pre).
  unfold buffered. rewrite peek_app_l by len_lia.
  rewrite lookup_app_r by len_lia.
  replace (Z.to_nat (zlen pre + i) - length pre)%nat with (Z.to_nat i) by len_lia.
  by rewrite Hc.
Qed.

Lemma peek_buffered_end pre w rest i :
  i = zlen w -> peek (buffered pre w rest) (zlen pre + i) = Ok x00.
Proof.
  intros ->. pose proof (zlen_nonneg pre). pose proof (zlen_nonneg w).
  unfold peek, buffered. rewrite (proj2 (Z.ltb_ge _ _)) by lia.
  rewrite lookup_app_r by len_lia.
  by replace (Z.to_nat (zlen pre + zlen w) - length (Some <$> pre ++ w))%nat with 0%nat by len_lia.
Qed.

(** The offset of the first CR LF of [w] at or after [pos]. *)
Definition find_crlf (w : list byte) (pos : nat) : option nat :=
  '(l, _) ← cut_line (drop pos w); Some (pos + length l)%nat.

Lemma drop_cons {A} (w : list A) pos c : w !! pos = Some c -> drop pos w = c :: drop (S pos) w.
Proof. intros H. by rewrite (drop_S _ _ _ H). Qed.

Lemma find_crlf_here w pos :
  w !! pos = Some x0d -> w !! S pos = Some x0a -> find_crlf w pos = Some pos.
Proof.
  intros H1 H2. unfold find_crlf. rewrite (drop_cons _ _ _ H1), (drop_cons _ _ _ H2).
  cbn. rewrite bool_decide_eq_true_2 by done. cbn. f_equal. lia.
Qed.

Lemma find_crlf_next w pos c :
  w !! pos = Some c -> ~ (c = x0d /\ w !! S pos = Some x0a) ->
  find_crlf w pos = find_crlf w (S pos).
Proof.
  intros H1 H2. unfold find_crlf. rewrite (drop_cons _ _ _ H1). cbn [cut_line].
  rewrite bool_decide_eq_false_2.
  - destruct (cut_line (drop (S pos) w)) as [[l r]|]; [|done]. cbn. f_equal. lia.
  - intros [-> Hh]. apply H2. split; [done|]. rewrite <- Hh, head_lookup, lookup_drop.
    f_equal. lia.
Qed.

Lemma find_crlf_end w pos : (length w <= S pos)%nat -> find_crlf w pos = None.
Proof.
  intros H. unfold find_crlf. destruct (w !! pos) as [c|] eqn:E.
  - rewrite (drop_cons _ _ _ E), (drop_ge w (S pos)) by lia. cbn.
    rewrite bool_decide_eq_false_2; [done|]. by intros [_ ?].
  - apply lookup_ge_None in E. by rewrite drop_ge.
Qed.

Lemma seek_cr_spec pre w rest : forall fuel pos,
  zlen w - 1 - Z.of_nat pos < Z.of_nat fuel -> Z.of_nat pos <= zlen w - 1 ->
  exists pos', seek_cr fuel (buffered pre w rest) (zlen pre) (Z.of_nat pos) (zlen w - 1)
      = Ok (Z.of_nat pos') /\
    (pos <= pos')%nat /\ Z.of_nat pos' <= zlen w - 1 /\
    find_crlf w pos = find_crlf w pos' /\
    (Z.of_nat pos' < zlen w - 1 -> w !! pos' = Some x0d).
Proof.
  induction fuel as [|fuel IH]; intros pos Hf Hp; [lia|]. cbn [seek_cr].
  destruct (Z.ltb_spec (Z.of_nat pos) (zlen w - 1)) as [Hlt|Hge].
  - destruct (lookup_lt_is_Some_2 w pos) as [c Hc]; [len_lia|].
    rewrite (peek_buffered _ _ _ _ c) by (lia || by rewrite Nat2Z.id).
    cbn [mbind result_bind]. case_bool_decide as Hcr.
    + exists pos. subst. repeat split; auto; lia.
    + destruct (IH (S pos)) as (pos' & E & Hle & Hb & Hfind & Hcr'); [lia|lia|].
      exists pos'. replace (Z.of_nat pos + 1) with (Z.of_nat (S pos)) by lia.
      split; [done|]. split; [lia|]. split; [lia|]. split; [|done].
      rewrite <- Hfind. apply (find_crlf_next w pos c); [done|]. by intros [-> _].
  - exists pos. repeat split; auto; lia.
Qed.

Lemma seekNewline_loop_spec pre w rest : forall fuel pos,
  zlen w - Z.of_nat pos < Z.of_nat fuel -> Z.of_nat pos <= zlen w ->
  seekNewline_loop fuel (buffered pre w rest) (zlen pre) (Z.of_nat pos) (zlen w - 1) =
    Ok ((fun i => zlen pre + Z.of_nat i) <$> find_crlf w pos).
Proof.
  induction fuel as [|fuel IH]; intros pos Hf Hpos; [lia|]. cbn [seekNewline_loop].
  destruct (Z.ltb_spec (Z.of_nat pos) (zlen w - 1)) as [Hlt|Hge].
  2: { by rewrite find_crlf_end by len_lia. }
  destruct (seek_cr_spec pre w rest fuel pos) as (i & -> & Hle & Hb & -> & Hcr); [lia|lia|].
  cbn [mbind result_bind].
  destruct (lookup_lt_is_Some_2 w i) as [c Hc]; [len_lia|].
  rewrite (peek_buffered _ _ _ _ c) by (lia || by rewrite Nat2Z.id).
  cbn [mbind result_bind]. case_bool_decide as Hc0; cbn [negb].
  2: { destruct (Z.lt_ge_cases (Z.of_nat i) (zlen w - 1)); [naive_solver|].
       by rewrite find_crlf_end by len_lia. }
  subst c. rewrite <- Z.add_assoc.
  destruct (w !! S i) as [c1|] eqn:Hc1.
  - rewrite (peek_buffered _ _ _ _ c1) by (lia || by replace (Z.to_nat (Z.of_nat i + 1)) with (S i) by lia).
    cbn [mbind result_bind]. case_bool_decide as Hlf.
    + subst. by rewrite find_crlf_here.
    + replace (Z.of_nat i + 1) with (Z.of_nat (S i)) by lia. rewrite IH by lia.
      rewrite <- (find_crlf_next w i x0d Hc); [done|]. intros [_ ?]. congruence.
  - apply lookup_ge_None in Hc1. rewrite peek_buffered_end by len_lia.
    cbn [mbind result_bind]. rewrite bool_decide_eq_false_2 by done.
    replace (Z.of_nat i + 1) with (Z.of_nat (S i)) by lia. rewrite IH by lia.
    rewrite !find_crlf_end by len_lia. done.
Qed.

Lemma seekNewline_spec pre w rest :
  zlen w < 2 ^ 31 ->
  seekNewline (buffered pre w rest) (zlen pre) (zlen w) =
    Ok ((fun c => zlen pre + zlen c.1) <$> cut_line w).
Proof.
  intros Hw. unfold seekNewline. rewrite i32_u32, i32_small by (pose proof (zlen_nonneg w); lia).
  rewrite (seekNewline_loop_spec pre w rest _ 0) by (rewrite ?Nat2Z.inj_succ; len_lia).
  unfold find_crlf. rewrite drop_0. by destruct (cut_line w) as [[l r]|].
Qed.

Lemma isdigit_c2z c : (0 <=? c2z c - 48) && (c2z c - 48 <? 10) = isdigit c.
Proof. by destruct c. Qed.

Lemma c2z_isdigit c : isdigit c = true -> c2z c = b2z c.
Proof.
  intros H%isdigit_range. unfold c2z. apply wrapS_small; [lia|].
  change (2 ^ (8 - 1)) with 128. lia.
Qed.

Lemma readLongLong_loop_spec mult rest tail : forall l fuel pre v,
  (length l < fuel)%nat ->
  readLongLong_loop fuel (buffered pre (l ++ crlf ++ tail) rest) (zlen pre) mult v =
    of_option Undefined (number_digits mult v l).
Proof.
  induction l as [|c l IH]; intros fuel pre v Hf; (destruct fuel as [|fuel]; [cbn in Hf; lia|]);
    cbn [readLongLong_loop number_digits app].
  - pose proof (peek_buffered pre (crlf ++ tail) rest 0 x0d ltac:(lia) eq_refl) as Hp.
    rewrite Z.add_0_r in Hp. rewrite Hp. cbn [mbind result_bind].
    rewrite bool_decide_eq_true_2 by done. unfold chk64. by case_match.
  - pose proof (peek_buffered pre (c :: l ++ crlf ++ tail) rest 0 c ltac:(lia) eq_refl) as Hp.
    rewrite Z.add_0_r in Hp. rewrite Hp. cbn [mbind result_bind].
    case_bool_decide; [unfold chk64; by case_match|].
    rewrite isdigit_c2z. destruct (isdigit c) eqn:Hd; [|done].
    rewrite (c2z_isdigit c Hd). unfold chk64.
    destruct (in_i64 (v * 10)); [|done]. cbn [mbind result_bind andb].
    destruct (in_i64 (v * 10 + (b2z c - 48))); [|done]. cbn [mbind result_bind].
    specialize (IH fuel (pre ++ [c]) (v * 10 + (b2z c - 48)) ltac:(cbn in Hf; lia)).
    unfold buffered in *. rewrite <- app_assoc in IH. cbn [app] in IH.
    rewrite zlen_app in IH. exact IH.
Qed.

Lemma readLongLong_spec pre l tail rest :
  readLongLong (buffered pre (l ++ crlf ++ tail) rest) (zlen pre) =
    of_option Undefined (number l).
Proof.
  unfold readLongLong. destruct l as [|c l]; cbn [app number].
  - pose proof (peek_buffered pre (crlf ++ tail) rest 0 x0d ltac:(lia) eq_refl) as Hp.
    rewrite Z.add_0_r in Hp. rewrite Hp. cbn [mbind result_bind].
    rewrite !bool_decide_eq_false_2 by done.
    by rewrite (readLongLong_loop_spec 1 rest tail []) by (cbn; lia).
  - pose proof (peek_buffered pre (c :: l ++ crlf ++ tail) rest 0 c ltac:(lia) eq_refl) as Hp.
    rewrite Z.add_0_r in Hp. rewrite Hp. cbn [mbind result_bind].
    assert (Hlen : (length l < length (buffered pre (c :: l ++ crlf ++ tail) rest))%nat).
    { unfold buffered. rewrite !length_app, length_fmap, !length_app. cbn.
      rewrite length_app. lia. }
    assert (Hsign : forall m, readLongLong_loop (S (length (buffered pre (c :: l ++ crlf ++ tail) rest)))
        (buffered pre (c :: l ++ crlf ++ tail) rest) (zlen pre + 1) m 0
      = of_option Undefined (number_digits m 0 l)).
    { intros m. pose proof (readLongLong_loop_spec m rest tail l
        (S (length (buffered pre (c :: l ++ crlf ++ tail) rest))) (pre ++ [c]) 0 ltac:(lia)) as E.
      rewrite zlen_app in E. unfold buffered in *. rewrite <- app_assoc in E. exact E. }
    case_bool_decide; [apply Hsign|]. case_bool_decide; [apply Hsign|].
    apply (readLongLong_loop_spec 1 rest tail (c :: l)). cbn [length app]. lia.
Qed.

(** ** The state between two items *)

(** The reader has consumed a prefix of its buffer, [w] is what is left. *)
Definition unread {H} (r : redisReader H) (w : list byte) : Prop :=
  exists pre, sds_rep (r_buf r) (pre ++ w) /\ r_len r = zlen (pre ++ w) /\
    r_pos r = zlen pre /\ zlen (pre ++ w) <= sds_max.

Lemma unread_buffered {H} (r : redisReader H) w :
  unread r w -> exists pre rest, sds_buf (r_buf r) = buffered pre w rest /\
    r_pos r = zlen pre /\ r_len r = zlen pre + zlen w /\ zlen pre + zlen w <= sds_max.
Proof.
  intros (pre & (rest & Hs & _) & Hl & Hp & Hm). exists pre, rest. rewrite Hs.
  rewrite !zlen_app in *. done.
Qed.

Lemma unread_advance {H} (r : redisReader H) u w :
  unread r (u ++ w) -> unread (set_pos (r_pos r + zlen u) r) w.
Proof.
  intros (pre & Hs & Hl & Hp & Hm). exists (pre ++ u). rewrite <- !app_assoc.
  cbn [set_pos r_buf r_len r_pos]. by rewrite Hp, (zlen_app pre u).
Qed.

(** The line at the cursor. *)
Lemma readLine_spec {H} (r : redisReader H) w :
  unread r w ->
  match cut_line w with
  | None => readLine r = Ok (None, r)
  | Some (l, tail) =>
      readLine r = Ok (Some (r_pos r, zlen l), set_pos (r_pos r + zlen (l ++ crlf)) r) /\
      unread (set_pos (r_pos r + zlen (l ++ crlf)) r) tail
  end.
Proof.
  intros Hu. destruct (unread_buffered r w Hu) as (pre & rest & Hb & Hp & Hl & Hm).
  pose proof (zlen_nonneg pre). pose proof (zlen_nonneg w).
  unfold readLine. rewrite Hb, Hp, Hl.
  replace (zlen pre + zlen w - zlen pre) with (zlen w) by lia.
  rewrite u32_small by sds_lia. rewrite seekNewline_spec by sds_lia.
  destruct (cut_line w) as [[l tail]|] eqn:E; cbn; [|done].
  apply cut_line_eq in E as ->. pose proof (zlen_nonneg l). pose proof (zlen_nonneg tail).
  rewrite !zlen_app in *. change (zlen crlf) with 2 in *.
  replace (zlen pre + zlen l - zlen pre) with (zlen l) by lia.
  wrap_norm. split; [by rewrite !Z.add_assoc|].
  pose proof (unread_advance r (l ++ crlf) tail) as Ha. rewrite <- app_assoc in Ha.
  specialize (Ha Hu). rewrite zlen_app, Hp in Ha. exact Ha.
Qed.

(** The number on the line at the cursor. *)
Lemma readLongLong_unread {H} (r : redisReader H) l tail :
  unread r (l ++ crlf ++ tail) ->
  readLongLong (sds_buf (r_buf r)) (r_pos r) = of_option Undefined (number l).
Proof.
  intros Hu. destruct (unread_buffered r _ Hu) as (pre & rest & -> & -> & _).
  apply readLongLong_spec.
Qed.

(** ** The task stack *)

Definition frames (os : list open_array) : list frame := map (fun o => (o.1.2, o.2)) os.

(** [cur] is the task above the open arrays [os]. *)
Fixpoint stack_ok (rstack : list redisReadTask) (os : list open_array) (cur : redisReadTask) : Prop :=
  match os with
  | [] => rt_parent cur = None
  | (p, n, ts) :: os' =>
      rt_parent cur = Some (length os') /\ rt_idx cur = zlen ts /\ zlen ts < n /\
      exists t, rstack !! length os' = Some t /\ rt_type t = REDIS_REPLY_ARRAY /\
        rt_elements t = n /\ rt_obj t = p /\ stack_ok rstack os' t
  end.

Lemma stack_ok_frame rstack rstack' os : forall cur,
  stack_ok rstack os cur ->
  (forall i, (i < length os)%nat -> rstack' !! i = rstack !! i) -> stack_ok rstack' os cur.
Proof.
  induction os as [|[[p n] ts] os IH]; intros cur; [done|].
  intros (Hp & Hi & Hn & t & Ht & Hty & He & Ho & Hs) Hag. cbn [length] in Hag.
  split; [done|]. split; [done|]. split; [done|]. exists t.
  rewrite Hag by lia. repeat split; try done. apply IH; [done|]. intros i Hl. apply Hag. lia.
Qed.

(** The task [cur] with other [type] and [elements] fields. *)
Lemma stack_ok_cur rstack os cur cur' :
  rt_parent cur' = rt_parent cur -> rt_idx cur' = rt_idx cur ->
  stack_ok rstack os cur -> stack_ok rstack os cur'.
Proof.
  intros E1 E2. destruct os as [|[[p n] ts] os]; cbn; [congruence|]. by rewrite E1, E2.
Qed.

Lemma stack_ok_task rstack os cur : stack_ok rstack os cur -> task_for rstack cur os.
Proof.
  destruct os as [|[[p n] ts] os]; [done|].
  intros (Hp & Hi & Hn & t & Ht & _ & _ & Ho & _). exists (length os), t. auto.
Qed.

Definition root_ptr (os : list open_array) : voidptr :=
  match last os with Some (p, _, _) => p | None => Null end.

Lemma root_ptr_cons o os : os <> [] -> root_ptr (o :: os) = root_ptr os.
Proof. destruct os; [done|]. intros _. done. Qed.

Section spec.
Context {H : Type} (fn : option (redisReplyObjectFunctions H)) `{!ReplyBuilder fn}.
Implicit Types r : redisReader H.

(** What does not change while a reply is being read. *)
Definition reader_ok r : Prop :=
  r_fn r = fn /\ r_error r = None /\ length (r_rstack r) = 9%nat.

(** The reader is about to read an element of [os], with the task [cur]. *)
Definition on_stack r (os : list open_array) (cur : redisReadTask) : Prop :=
  (length os <= 8)%nat /\ r_ridx r = Z.of_nat (length os) /\
  r_rstack r !! length os = Some cur /\ stack_ok (r_rstack r) os cur /\
  r_reply r = root_ptr os.

(** The reader after an item, [res] being what the parser makes of it. *)
Definition settled r (h : H) (closed : list (voidptr * reply)) (res : reply + list frame)
    (w : list byte) : Prop :=
  reader_ok r /\ unread r w /\
  match res with
  | inl y => r_ridx r = -1 /\ building h ((r_reply r, y) :: closed) []
  | inr fs => exists os cur, frames os = fs /\ on_stack r os cur /\ rt_type cur = -1 /\
                building h closed os
  end.

Lemma get_task_lookup {A} (l : list A) i t :
  l !! i = Some t -> get_task l (Z.of_nat i) = Ok t.
Proof.
  intros Ht. unfold get_task. rewrite (proj2 (Z.ltb_ge _ _)) by lia.
  by rewrite Nat2Z.id, Ht.
Qed.

Lemma frames_cons p n ts os : frames ((p, n, ts) :: os) = (n, ts) :: frames os.
Proof. done. Qed.

(** One round of the loop: the innermost array is complete, or it is not. *)
Lemma move_step r p n ts os cur fuel :
  on_stack r ((p, n, ts) :: os) cur ->
  exists t, r_rstack r !! length os = Some t /\ stack_ok (r_rstack r) os t /\
    moveToNextTask_loop (S fuel) r =
      if zlen ts =? n - 1 then moveToNextTask_loop fuel (set_ridx (Z.of_nat (length os)) r)
      else Ok (set_rstack (<[S (length os) := ReadTask (-1) (-1) (zlen ts + 1) (rt_obj cur)
                 (rt_parent cur) (rt_privdata cur)]> (r_rstack r)) r).
Proof.
  intros (Hlen & Hidx & Hcur & (Hpar & Hci & Hlt & t & Ht & Hty & Hel & Hobj & Hst) & Hroot).
  exists t. split; [done|]. split; [done|]. cbn [moveToNextTask_loop length] in *.
  rewrite Hidx. destruct (Z.ltb_spec (Z.of_nat (S (length os))) 0); [lia|].
  destruct (Z.eqb_spec (Z.of_nat (S (length os))) 0); [lia|].
  rewrite (get_task_lookup _ _ _ Hcur).
  replace (Z.of_nat (S (length os)) - 1) with (Z.of_nat (length os)) by lia.
  rewrite (get_task_lookup _ _ _ Ht). cbn [mbind result_bind].
  rewrite (c_assert_true (rt_type t =? _)) by (by rewrite Hty).
  cbn [mbind result_bind]. rewrite Hci, Hel.
  destruct (Z.eqb_spec (zlen ts) (n - 1)); [done|].
  rewrite c_assert_true by lia. cbn [mbind result_bind].
  unfold put_task. rewrite Nat2Z.id. done.
Qed.

(** The innermost array waits for its next element. *)
Lemma settled_stay r h closed w p n ts x os cur :
  reader_ok r -> unread r w -> on_stack r ((p, n, ts) :: os) cur ->
  building h closed ((p, n, ts ++ [x]) :: os) -> zlen ts <> n - 1 ->
  settled (set_rstack (<[S (length os) := ReadTask (-1) (-1) (zlen ts + 1) (rt_obj cur)
             (rt_parent cur) (rt_privdata cur)]> (r_rstack r)) r)
    h closed (inr ((n, ts ++ [x]) :: frames os)) w.
Proof.
  intros (Hfn & He & H9) Hun (Hlen & Hidx & Hcur & (Hpar & Hci & Hlt & t & Ht & Hty & Hel & Hobj & Hst) & Hroot)
    Hb Hmore. cbn [length] in *.
  split; [split; [done|split; [done|by rewrite <- H9; cbn; rewrite length_insert]]|].
  split; [done|].
  eexists ((p, n, ts ++ [x]) :: os), (ReadTask (-1) (-1) (zlen ts + 1) _ _ _).
  split; [done|]. split; [|split; [|exact Hb]]; [|reflexivity].
  split; [done|]. split; [done|]. cbn [set_rstack r_rstack r_reply length].
  split; [|split; [|by rewrite Hroot; destruct os]].
  { apply list_lookup_insert_eq. apply lookup_lt_Some in Hcur. done. }
  split; [done|]. cbn [rt_idx]. split; [len_lia|]. split; [len_lia|]. exists t.
  rewrite list_lookup_insert_ne by lia. repeat split; try done.
  eapply stack_ok_frame; [done|]. intros i Hi. rewrite list_lookup_insert_ne by lia. done.
Qed.

(** Popping the arrays that the new element [x] completes. *)
Lemma moveToNextTask_loop_spec : forall os p n ts x r h closed w cur fuel,
  reader_ok r -> unread r w -> on_stack r ((p, n, ts) :: os) cur ->
  building h closed ((p, n, ts ++ [x]) :: os) ->
  (length os + 1 < fuel)%nat ->
  exists r', moveToNextTask_loop fuel r = Ok r' /\
    settled r' h closed (plug x ((n, ts) :: frames os)) w.
Proof.
  induction os as [|[[q m] us] os IH]; intros p n ts x r h closed w cur fuel
    Hok Hun Hon Hb Hf; (destruct fuel as [|fuel]; [lia|]);
    destruct (move_step r p n ts _ cur fuel Hon) as (t & Ht & Hst & ->);
    cbn [plug]; rewrite zlen_app; change (zlen [x]) with 1;
    (destruct (Z.eqb_spec (zlen ts) (n - 1)) as [Hfull|Hmore];
      [rewrite (proj2 (Z.eqb_eq _ _)) by lia|rewrite (proj2 (Z.eqb_neq _ _)) by lia]);
    try by (eexists; split; [done|]; eapply (settled_stay _ _ _ _ _ _ _ _ _ cur)).
  - destruct fuel as [|fuel]; [cbn in Hf; lia|]. cbn. eexists. split; [done|].
    split; [done|]. split; [done|]. split; [done|].
    destruct Hon as (_ & _ & _ & _ & Hroot). cbn in Hroot |- *. rewrite Hroot.
    apply (build_close_root _ _ _ n); [done|]. rewrite zlen_app. change (zlen [x]) with 1. lia.
  - destruct Hon as (Hlen & _ & _ & _ & Hroot). cbn [length] in *.
    apply (IH q m us (RArray (ts ++ [x])) (set_ridx (Z.of_nat (S (length os))) r) h closed w t fuel);
      [done|done| | |lia].
    2: { apply (build_close _ _ p n); [done|]. rewrite zlen_app. change (zlen [x]) with 1. lia. }
    split; [cbn; lia|]. split; [done|]. split; [done|]. split; [done|].
    cbn [set_ridx r_reply]. by rewrite Hroot.
Qed.

(** An item is complete: it becomes the reply, or the next task is chosen. *)
Lemma finish_item r h closed os cur x p w :
  reader_ok r -> unread r w -> on_stack r os cur -> item_added building closed os x p h ->
  exists r', moveToNextTask (if r_ridx r =? 0 then set_reply p r else r) = Ok r' /\
    settled r' h closed (plug x (frames os)) w.
Proof.
  intros Hok Hun Hon [Hp Hadd]. pose proof Hon as (Hlen & Hidx & Hcur & Hst & Hroot).
  rewrite Hidx. destruct os as [|[[q n] ts] os].
  - change (Z.of_nat (length (@nil open_array)) =? 0) with true. unfold moveToNextTask.
    cbn [moveToNextTask_loop set_reply r_ridx]. rewrite Hidx.
    eexists. split; [reflexivity|]. split; [done|]. split; [done|]. split; [done|]. exact Hadd.
  - destruct (Z.eqb_spec (Z.of_nat (length ((q, n, ts) :: os))) 0); [cbn in *; lia|].
    unfold moveToNextTask. rewrite Hidx. cbn [length] in *.
    eapply moveToNextTask_loop_spec; try done. lia.
Qed.
(** ** One item *)

(** The unread bytes, the type byte included that a waiting task has consumed. *)
Definition waiting r (cur : redisReadTask) (u : list byte) : Prop :=
  (rt_type cur = -1 /\ unread r u) \/
  (exists c w, reply_type_of c = Some (rt_type cur) /\ u = c :: w /\ unread r w).

(** After a protocol error: the message, an empty buffer, and no open array. *)
Definition errored r (h : H) (closed : list (voidptr * reply)) (msg : list byte) : Prop :=
  r_ridx r = -1 /\ r_fn r = fn /\ length (r_rstack r) = 9%nat /\ unread r [] /\
  building h closed [] /\ exists e, r_error r = Some e /\ sds_rep e msg.

(** The result of reading one item against what the parser says it is. *)
Definition item_spec (h : H) (closed : list (voidptr * reply)) (os : list open_array)
    (u : list byte) (lx : lexed) (res : result (Z * redisReader H * H)) : Prop :=
  match lx with
  | Need => exists r cur, res = Ok (-1, r, h) /\ reader_ok r /\ on_stack r os cur /\ waiting r cur u
  | Bad msg => ReplyDisposer fn -> exists r h', res = Ok (-1, r, h') /\ errored r h' closed msg
  | Unsafe => True
  | Got (TOpen n) rest => exists r h' p cur, res = Ok (0, r, h') /\ reader_ok r /\ unread r rest /\
      on_stack r ((p, n, []) :: os) cur /\ rt_type cur = -1 /\ building h' closed ((p, n, []) :: os)
  | Got (TItem x) rest => exists r h', res = Ok (0, r, h') /\
      settled r h' closed (plug x (frames os)) rest
  end.

Lemma get_cur r os cur : on_stack r os cur -> get_task (r_rstack r) (r_ridx r) = Ok cur.
Proof. intros (_ & -> & Hcur & _). by apply get_task_lookup. Qed.

Lemma drop_buffered pre l t rest :
  exists rest', drop (Z.to_nat (zlen pre)) (buffered pre (l ++ t) rest) = (Some <$> l) ++ rest'.
Proof.
  unfold buffered. rewrite !fmap_app, <- !app_assoc. rewrite to_nat_zlen.
  replace (length pre) with (length (Some <$> pre)) by len_lia.
  rewrite drop_app_length. eauto.
Qed.

Lemma cursor_cells r l t : unread r (l ++ t) ->
  zlen l < 2 ^ 31 /\
  exists rest, drop (Z.to_nat (r_pos r)) (sds_buf (r_buf r)) = (Some <$> l) ++ rest.
Proof.
  intros Hu. destruct (unread_buffered r _ Hu) as (pre & rest & -> & -> & _ & Hm).
  split; [|apply drop_buffered]. rewrite zlen_app in Hm.
  pose proof (zlen_nonneg pre). pose proof (zlen_nonneg t). sds_lia.
Qed.

(** The item [x] has been created from the bytes before [rest]. *)
Lemma item_created r closed os cur x res rest :
  reader_ok r -> unread r rest -> on_stack r os cur ->
  adds_item building closed os x res ->
  exists r' h', ('(obj, h) ← res;
     r ← moveToNextTask (if r_ridx r =? 0 then set_reply obj r else r);
     Ok (0, r, h)) = Ok (0, r', h') /\
    settled r' h' closed (plug x (frames os)) rest.
Proof.
  intros Hok Hun Hon (p & h' & -> & Hadd). cbn [mbind result_bind].
  destruct (finish_item r h' closed os cur x p rest Hok Hun Hon Hadd) as (r' & -> & Hs).
  cbn [mbind result_bind]. eauto.
Qed.

Lemma processLineItem_spec r h closed os cur w u :
  reader_ok r -> on_stack r os cur -> unread r w -> waiting r cur u -> building h closed os ->
  rt_type cur ∈ [REDIS_REPLY_ERROR; REDIS_REPLY_STATUS; REDIS_REPLY_INTEGER] ->
  item_spec h closed os u
    (if rt_type cur =? REDIS_REPLY_INTEGER
     then lex_number w (fun z rest => Got (TItem (RInteger z)) rest)
     else lex_line w (string_reply (rt_type cur)))
    (processLineItem r h).
Proof.
  intros Hok Hon Hun Hwait Hb Hty.
  pose proof Hon as (_ & _ & _ & Hst & _). apply stack_ok_task in Hst as Htask.
  unfold processLineItem. rewrite (get_cur r os cur Hon). cbn [mbind result_bind].
  pose proof (readLine_spec r w Hun) as Hline. unfold lex_number, lex_line.
  destruct (cut_line w) as [[l tail]|] eqn:Hcut.
  2: { rewrite Hline. by case_match; exists r, cur. }
  destruct Hline as [-> Hun']. cbn [mbind result_bind].
  apply cut_line_eq in Hcut as ->. destruct (cursor_cells r l _ Hun) as [Hl [cs Hcs]].
  set (r1 := set_pos _ r) in *.
  assert (Hon1 : on_stack r1 os cur) by exact Hon.
  assert (Hok1 : reader_ok r1) by exact Hok.
  pose proof Hok as (Hfn & _). change (r_fn r1) with (r_fn r). rewrite Hfn.
  destruct (Z.eqb_spec (rt_type cur) REDIS_REPLY_INTEGER) as [Hint|Hint].
  - change (sds_buf (r_buf r1)) with (sds_buf (r_buf r)).
    rewrite (readLongLong_unread r l tail Hun). destruct (number l) as [z|]; [|done].
    cbn [of_option mbind result_bind].
    apply (item_created r1 closed os cur _
             (call_createInteger fn (r_rstack r1) cur z h)); [done..|].
    by apply build_integer.
  - change (r_buf r1) with (r_buf r). rewrite Hcs. rewrite u32_small by (pose proof (zlen_nonneg l); lia).
    apply (item_created r1 closed os cur); [done..|].
    apply build_string; try done. rewrite !elem_of_cons in *. tauto.
Qed.
(** ** Protocol errors *)

Lemma root_ptr_last fs q n ts : root_ptr (fs ++ [(q, n, ts)]) = q.
Proof. unfold root_ptr. by rewrite last_snoc. Qed.

Lemma set_error_spec r h closed os cur e msg :
  reader_ok r -> on_stack r os cur -> building h closed os -> sds_rep e msg -> ReplyDisposer fn ->
  exists r' h', redisSetReplyReaderError e r h = Ok (r', h') /\ errored r' h' closed msg.
Proof.
  intros (Hfn & _ & H9) (_ & _ & _ & _ & Hroot) Hb He Hd. unfold redisSetReplyReaderError.
  assert (Hfree : exists h', (if bool_decide (r_reply r = Null) then Ok h
                              else call_freeObject (r_fn r) (r_reply r) h) = Ok h' /\
                             building h' closed []).
  { rewrite Hroot, Hfn. destruct os as [|[[q n] ts] fs _] using rev_ind; [by exists h|].
    rewrite root_ptr_last. pose proof (build_nonnull _ _ _ Hb) as Hq.
    rewrite Forall_app, Forall_singleton in Hq. destruct Hq as (_ & _ & Hq). cbn in Hq.
    rewrite bool_decide_eq_false_2 by done. by apply (dispose_open h closed fs q n ts). }
  destruct Hfree as (h' & -> & Hb'). cbn [mbind result_bind].
  destruct sdsempty_spec as (b & Eb & Hbuf). rewrite Eb. cbn [mbind result_bind].
  eexists _, h'. split; [done|]. split; [done|]. split; [done|]. split; [done|].
  split; [|split; [done|by exists e]]. exists []. repeat split; [exact Hbuf|done].
Qed.

Lemma format_error msg : x00 ∉ msg -> zlen msg <= 1000 ->
  exists e, (e ← sdsempty; sdscatprintf e msg) = Ok e /\ sds_rep e msg.
Proof.
  intros H0 Hm. destruct sdsempty_spec as (b & -> & Hb). cbn [mbind result_bind].
  destruct (sdscatprintf_spec b [] msg Hb H0) as (e & -> & He); [|eauto].
  rewrite zlen_nil. sds_lia.
Qed.

(** ** Bulk strings and arrays *)

Lemma buffered_split pre l tail rest :
  buffered pre (l ++ crlf ++ tail) rest = buffered (pre ++ l ++ crlf) tail rest.
Proof. unfold buffered. by rewrite <- !app_assoc. Qed.

(** Continue behind the line [l] and [k] more bytes with the object of [x]. *)
Lemma bulk_finish r h' closed os cur l tail (k : nat) p x pos :
  reader_ok r -> on_stack r os cur -> unread r (l ++ crlf ++ tail) ->
  item_added building closed os x p h' -> (k <= length tail)%nat ->
  pos = r_pos r + zlen l + 2 + Z.of_nat k ->
  exists r', moveToNextTask (if r_ridx (set_pos pos r) =? 0 then set_reply p (set_pos pos r)
                             else set_pos pos r) = Ok r' /\
    settled r' h' closed (plug x (frames os)) (drop k tail).
Proof.
  intros Hok Hon Hun Hadd Hk ->.
  apply (finish_item _ h' closed os cur x p); try done.
  pose proof (unread_advance r (l ++ crlf ++ take k tail) (drop k tail)) as Ha.
  rewrite <- !app_assoc, take_drop in Ha. specialize (Ha Hun).
  replace (r_pos r + zlen l + 2 + Z.of_nat k) with (r_pos r + zlen (l ++ crlf ++ take k tail));
    [exact Ha|unfold crlf; len_lia].
Qed.

Lemma processBulkItem_spec r h closed os cur w u :
  reader_ok r -> on_stack r os cur -> unread r w -> waiting r cur u -> building h closed os ->
  rt_type cur = REDIS_REPLY_STRING ->
  item_spec h closed os u (lex_number w lex_bulk) (processBulkItem r h).
Proof.
  intros Hok Hon Hun Hwait Hb Hty.
  pose proof Hon as (_ & _ & _ & Hst & _). apply stack_ok_task in Hst as Htask.
  unfold processBulkItem. rewrite (get_cur r os cur Hon). cbn [mbind result_bind].
  destruct (unread_buffered r w Hun) as (pre & rest & Hbuf & Hp & Hl & Hm).
  pose proof (zlen_nonneg pre). pose proof (zlen_nonneg w).
  rewrite Hbuf, Hp, Hl. replace (zlen pre + zlen w - zlen pre) with (zlen w) by lia.
  rewrite u32_small by sds_lia. rewrite seekNewline_spec by sds_lia. unfold lex_number.
  destruct (cut_line w) as [[l tail]|] eqn:Hcut; cbn [fmap option_fmap option_map mbind result_bind].
  2: { by exists r, cur. }
  apply cut_line_eq in Hcut as ->. rewrite readLongLong_spec.
  destruct (number l) as [z|]; [|done]. cbn [of_option mbind result_bind fst].
  pose proof Hok as (Hfn & _). rewrite Hfn.
  rewrite !zlen_app in *. change (zlen crlf) with 2 in *.
  pose proof (zlen_nonneg l). pose proof (zlen_nonneg tail).
  replace (zlen pre + zlen l - zlen pre + 2) with (zlen l + 2) by lia.
  rewrite (u32_small (zlen l + 2)) by sds_lia.
  unfold lex_bulk. destruct (Z.ltb_spec z 0) as [Hneg|Hpos].
  - destruct (build_nil h closed os (r_rstack r) cur Hb Htask) as (p & h' & -> & Hadd).
    cbn [mbind result_bind].
    destruct (bulk_finish r h' closed os cur l tail 0 p RNil
                (u32 (zlen pre + (zlen l + 2)))) as (r' & -> & Hs);
      [done..|lia|rewrite u32_small by sds_lia; lia|].
    rewrite drop_0 in Hs. cbn [mbind result_bind]. by exists r', h'.
  - destruct (Z.leb_spec (2 ^ 31) z) as [|Hz]; [done|].
    rewrite (u32_small z), (u32_small (z + 2)), (u32_small (zlen l + 2 + (z + 2))) by sds_lia.
    rewrite (u32_small (zlen pre + _)) by sds_lia.
    replace (zlen pre + (zlen l + 2 + (z + 2)) <=? zlen pre + (zlen l + (2 + zlen tail)))
      with (z + 2 <=? zlen tail) by lia.
    destruct (Z.leb_spec (z + 2) (zlen tail)) as [Hfits|Hshort].
    2: { by exists r, cur. }
    rewrite buffered_split.
    replace (zlen pre + zlen l + 2) with (zlen (pre ++ l ++ crlf))
      by (rewrite !zlen_app; change (zlen crlf) with 2; lia).
    destruct (drop_buffered (pre ++ l ++ crlf) (take (Z.to_nat z) tail) (drop (Z.to_nat z) tail) rest)
      as [cs Hcs].
    rewrite take_drop in Hcs. rewrite Hcs.
    destruct (build_string h closed os (r_rstack r) cur REDIS_REPLY_STRING
                (take (Z.to_nat z) tail) cs) as (p & h' & E & Hadd); [done..| |done| |].
    { rewrite Hty. by left. } { rewrite zlen_take by lia. lia. }
    rewrite zlen_take in E by lia. rewrite E. cbn [mbind result_bind].
    rewrite Hty in Hadd.
    destruct (bulk_finish r h' closed os cur l tail (Z.to_nat (z + 2)) p
                (RString (take (Z.to_nat z) tail)) (u32 (zlen pre + (zlen l + 2 + (z + 2)))))
      as (r' & -> & Hs); [done..|len_lia|rewrite u32_small by sds_lia; lia|].
    cbn [mbind result_bind]. by exists r', h'.
Qed.
Lemma move_then_reply r p :
  (r' ← moveToNextTask r; Ok (if r_ridx r =? 0 then set_reply p r' else r')) =
  moveToNextTask (if r_ridx r =? 0 then set_reply p r else r).
Proof.
  destruct (Z.eqb_spec (r_ridx r) 0) as [E|E].
  - unfold moveToNextTask. cbn [moveToNextTask_loop set_reply r_ridx]. by rewrite E.
  - by destruct (moveToNextTask r).
Qed.

(** The task of a new array's elements is pushed. *)
Lemma push_task r os cur p n w h closed :
  reader_ok r -> unread r w -> on_stack r os cur -> (length os < 8)%nat ->
  rt_type cur = REDIS_REPLY_ARRAY -> 0 < n -> building h closed ((p, n, []) :: os) ->
  let r1 := set_ridx (Z.of_nat (length os) + 1) (set_rstack (put_task (Z.of_nat (length os))
              (task_set_obj p (task_set_elements n cur)) (r_rstack r)) r) in
  let new := ReadTask (-1) (-1) 0 Null (Some (Z.to_nat (Z.of_nat (length os)))) (r_privdata r1) in
  exists old, get_task (r_rstack r1) (r_ridx r1) = Ok old /\
    let r2 := set_rstack (put_task (r_ridx r1) new (r_rstack r1)) r1 in
    let r3 := if r_ridx r =? 0 then set_reply p r2 else r2 in
    reader_ok r3 /\ unread r3 w /\ on_stack r3 ((p, n, []) :: os) new.
Proof.
  intros (Hfn & He & H9) Hun (Hlen & Hidx & Hcur & Hst & Hroot) H8 Hty Hn Hb r1 new.
  apply lookup_lt_Some in Hcur as Hlt.
  assert (Hl1 : length (r_rstack r1) = 9%nat) by (cbn; unfold put_task; by rewrite length_insert).
  destruct (lookup_lt_is_Some_2 (r_rstack r1) (S (length os))) as [old Hold]; [lia|].
  exists old. split.
  { change (r_ridx r1) with (Z.of_nat (length os) + 1).
    replace (Z.of_nat (length os) + 1) with (Z.of_nat (S (length os))) by lia.
    by apply get_task_lookup. }
  intros r2 r3.
  assert (Hr3 : r_rstack r3 = <[S (length os) := new]> (r_rstack r1) /\ r_ridx r3 = Z.of_nat (S (length os)) /\
                r_fn r3 = fn /\ r_error r3 = None /\ unread r3 w).
  { unfold r3, r2. unfold put_task. change (r_ridx r1) with (Z.of_nat (length os) + 1).
    replace (Z.to_nat (Z.of_nat (length os) + 1)) with (S (length os)) by lia.
    case_match; (split; [done|]; split; [cbn; lia|]; split; [exact Hfn|]; split; [exact He|exact Hun]). }
  destruct Hr3 as (Hrs & Hri & Hrf & Hre & Hru).
  split; [split; [done|split; [done|by rewrite Hrs, length_insert]]|]. split; [done|].
  split; [cbn; lia|]. split; [done|]. rewrite Hrs. cbn [length].
  split; [apply list_lookup_insert_eq; lia|]. split.
  - split; [cbn; f_equal; lia|]. split; [done|]. split; [len_lia|].
    exists (task_set_obj p (task_set_elements n cur)).
    rewrite list_lookup_insert_ne by lia. cbn [r1 set_ridx set_rstack r_rstack]. unfold put_task.
    rewrite Nat2Z.id. split; [by apply list_lookup_insert_eq|].
    split; [done|]. split; [done|]. split; [done|].
    apply (stack_ok_cur _ _ cur); [done|done|]. eapply stack_ok_frame; [done|].
    intros i Hi. rewrite !list_lookup_insert_ne by lia. done.
  - unfold r3. rewrite Hidx. destruct os as [|o os]; [done|].
    destruct (Z.eqb_spec (Z.of_nat (length (o :: os))) 0); [cbn in *; lia|].
    change (r_reply r2) with (r_reply r). by rewrite root_ptr_cons.
Qed.

Lemma length_frames os : length (frames os) = length os.
Proof. apply length_map. Qed.

Lemma nesting_error_ok : (x00 ∉ nesting_error) /\ zlen nesting_error <= 1000.
Proof. split; [|vm_compute; discriminate]. apply (bool_decide_unpack _). by vm_compute. Qed.

(** A reply without elements. *)
Lemma array_leaf r closed os cur x res rest :
  reader_ok r -> unread r rest -> on_stack r os cur ->
  adds_item building closed os x res ->
  exists r' h', ('(obj, r1, h) ← ('(obj, h) ← res; r ← moveToNextTask r; Ok (obj, r, h));
     Ok (0, if r_ridx r =? 0 then set_reply obj r1 else r1, h)) = Ok (0, r', h') /\
    settled r' h' closed (plug x (frames os)) rest.
Proof.
  intros Hok Hun Hon (p & h' & -> & Hadd). cbn [mbind result_bind].
  destruct (finish_item r h' closed os cur x p rest Hok Hun Hon Hadd) as (r' & E & Hs).
  rewrite <- move_then_reply in E. destruct (moveToNextTask r) as [r1|]; [|discriminate].
  cbn [mbind result_bind] in E |- *. injection E as ->. eauto.
Qed.

Lemma processMultiBulkItem_spec r h closed os cur w u :
  reader_ok r -> on_stack r os cur -> unread r w -> waiting r cur u -> building h closed os ->
  rt_type cur = REDIS_REPLY_ARRAY ->
  item_spec h closed os u
    (if bool_decide (length os = max_nesting) then Bad nesting_error else lex_number w lex_array)
    (processMultiBulkItem r h).
Proof.
  intros Hok Hon Hun Hwait Hb Hty.
  pose proof Hon as (Hlen & Hidx & _ & Hst & _). apply stack_ok_task in Hst as Htask.
  unfold processMultiBulkItem. rewrite (get_cur r os cur Hon). cbn [mbind result_bind].
  case_bool_decide as Hmax.
  - replace (r_ridx r =? 8) with true by (symmetry; rewrite Hidx, Hmax; done).
    intros Hd. destruct nesting_error_ok as [H0 Hm].
    destruct (format_error nesting_error H0 Hm) as (e & Ee & He).
    apply bind_Ok in Ee as (b & -> & Ee). cbn [mbind result_bind]. rewrite Ee.
    cbn [mbind result_bind].
    destruct (set_error_spec r h closed os cur e _ Hok Hon Hb He Hd) as (r' & h' & -> & Herr).
    by exists r', h'.
  - unfold max_nesting in Hmax. destruct (Z.eqb_spec (r_ridx r) 8) as [|_]; [lia|].
    pose proof (readLine_spec r w Hun) as Hline. unfold lex_number.
    destruct (cut_line w) as [[l tail]|] eqn:Hcut.
    2: { rewrite Hline. by exists r, cur. }
    destruct Hline as [-> Hun']. cbn [mbind result_bind]. apply cut_line_eq in Hcut as ->.
    set (r1 := set_pos _ r) in *. change (sds_buf (r_buf r1)) with (sds_buf (r_buf r)).
    rewrite (readLongLong_unread r l tail Hun). destruct (number l) as [z|]; [|done].
    cbn [of_option mbind result_bind]. pose proof Hok as (Hfn & _).
    change (r_fn r1) with (r_fn r). rewrite Hfn. unfold lex_array.
    destruct (Z.eqb_spec z (-1)) as [->|].
    { apply (array_leaf r1 closed os cur); [done..|]. by apply build_nil. }
    destruct (Z.eqb_spec z 0) as [->|].
    { apply (array_leaf r1 closed os cur); [done..|]. by apply build_empty. }
    destruct (Z.ltb_spec z 0); [done|]. destruct (Z.leb_spec (2 ^ 30) z) as [|Hz]; [done|].
    cbn [orb]. rewrite i32_small by lia.
    destruct (build_open h closed os (r_rstack r) cur z Hb Htask) as (p & h' & E & Hp & Hb'); [lia|].
    change (r_rstack r1) with (r_rstack r). rewrite E. cbn [mbind result_bind].
    rewrite (proj2 (Z.ltb_lt 0 z)) by lia.
    destruct (push_task r1 os cur p z tail h' closed) as (old & Eold & Hok3 & Hun3 & Hon3);
      [done|done|exact Hon|lia|done|lia|done|].
    change (r_ridx r1) with (r_ridx r) in *. rewrite Hidx in *. cbn zeta in *.
    change (r_rstack r1) with (r_rstack r) in *. rewrite Eold. cbn [mbind result_bind].
    eexists _, h', p, _. split; [reflexivity|]. split; [exact Hok3|]. split; [exact Hun3|].
    split; [exact Hon3|]. split; [done|exact Hb'].
Qed.
(** ** Items of every type *)

Lemma process_typed_spec r h closed os cur c w :
  reader_ok r -> on_stack r os cur -> unread r w -> reply_type_of c = Some (rt_type cur) ->
  building h closed os ->
  item_spec h closed os (c :: w) (lex (length os) (c :: w)) (process_typed (rt_type cur) r h).
Proof.
  intros Hok Hon Hun Hc Hb.
  assert (Hwait : waiting r cur (c :: w)) by (right; eauto).
  unfold reply_type_of in Hc. cbn [lex]. unfold process_typed.
  repeat (case_bool_decide; [injection Hc as Ht; rewrite <- Ht; cbn match|]); [..|done].
  - pose proof (processLineItem_spec r h closed os cur w _ Hok Hon Hun Hwait Hb) as P.
    rewrite <- Ht in P. apply P. by left.
  - pose proof (processLineItem_spec r h closed os cur w _ Hok Hon Hun Hwait Hb) as P.
    rewrite <- Ht in P. apply P. by right; left.
  - pose proof (processLineItem_spec r h closed os cur w _ Hok Hon Hun Hwait Hb) as P.
    rewrite <- Ht in P. apply P. by right; right; left.
  - by apply (processBulkItem_spec r h closed os cur).
  - by apply (processMultiBulkItem_spec r h closed os cur).
Qed.

Lemma repr_out_nul c : x00 ∉ repr_out c.
Proof. apply (bool_decide_unpack _). by destruct c; vm_compute. Qed.

Lemma quote_one c : (x00 ∉ quote [c]) /\ zlen (quote [c]) <= 6.
Proof. split; [apply (bool_decide_unpack _)|]; by destruct c; vm_compute. Qed.

Lemma sds_chars_spec s v : sds_rep s v -> x00 ∉ v -> sds_chars s = Ok v.
Proof.
  intros Hs H0. unfold sds_chars. destruct (cell_bytes_rep s v Hs) as (t & ->).
  rewrite strlen_cstr by done. cbn [mbind result_bind]. by rewrite to_nat_zlen, take_app_length.
Qed.

(** The text of the error for an unknown type byte. *)
Lemma type_error_spec c :
  is_ascii c = true -> exists e, (byte ← sdsempty;
     byte ← sdscatrepr byte [c] 1;
     text ← sds_chars byte;
     e ← sdsempty;
     sdscatprintf e (bytes "Protocol error, got " ++ text ++ bytes " as reply type byte")) = Ok e /\
    sds_rep e (type_error c).
Proof.
  intros Hc. destruct (quote_one c) as [H0 Hl].
  destruct sdsempty_spec as (b & Eb & Hb). rewrite Eb. cbn [mbind result_bind].
  destruct (sdscatrepr_value b [] [c] []) as (q & Eq & Hq);
    [by repeat constructor|done|vm_compute; discriminate|].
  cbn [app] in Eq, Hq. change (zlen [c]) with 1 in Eq. rewrite Eq. cbn [mbind result_bind].
  rewrite (sds_chars_spec _ _ Hq H0). cbn [mbind result_bind].
  destruct (format_error (type_error c)) as (e & Ee & He).
  - unfold type_error. rewrite !not_elem_of_app.
    split; [|split; [exact H0|]]; apply (bool_decide_unpack _); by vm_compute.
  - unfold type_error. rewrite !zlen_app. change (zlen (bytes "Protocol error, got ")) with 20.
    change (zlen (bytes " as reply type byte")) with 19. lia.
  - rewrite Eb in Ee. eauto.
Qed.

(** [processItem] reads exactly the item the parser sees. *)
Lemma processItem_spec r h closed os cur u :
  reader_ok r -> on_stack r os cur -> waiting r cur u -> building h closed os ->
  item_spec h closed os u (lex (length os) u) (processItem r h).
Proof.
  intros Hok Hon Hwait Hb. unfold processItem. rewrite (get_cur r os cur Hon).
  cbn [mbind result_bind].
  destruct Hwait as [[Hty Hun]|(c & w & Hc & -> & Hun)].
  2: { assert (0 <= rt_type cur).
       { unfold reply_type_of in Hc. repeat case_bool_decide; simplify_eq/=;
           match goal with E : _ = rt_type cur |- _ => rewrite <- E end; done. }
       destruct (Z.ltb_spec (rt_type cur) 0); [lia|]. by apply process_typed_spec. }
  rewrite Hty. cbn match. unfold readBytes.
  destruct (unread_buffered r u Hun) as (pre & rest & Hbuf & Hp & Hl & Hm).
  pose proof (zlen_nonneg pre). pose proof (zlen_nonneg u).
  rewrite Hp, Hl. replace (zlen pre + zlen u - zlen pre) with (zlen u) by lia.
  rewrite (u32_small (zlen u)) by sds_lia.
  destruct u as [|c w].
  { exists r, cur. split; [done|]. split; [done|]. split; [done|]. by left. }
  rewrite zlen_cons in *. pose proof (zlen_nonneg w).
  rewrite (proj2 (Z.leb_le _ _)) by lia. rewrite u32_small by sds_lia.
  set (r1 := set_pos (zlen pre + 1) r).
  assert (Hun1 : unread r1 w).
  { pose proof (unread_advance r [c] w Hun) as Ha. by rewrite Hp in Ha. }
  change (sds_buf (r_buf r1)) with (sds_buf (r_buf r)). rewrite Hbuf.
  pose proof (peek_buffered pre (c :: w) rest 0 c ltac:(lia) eq_refl) as Hpk.
  rewrite Z.add_0_r in Hpk. rewrite Hpk. cbn [mbind result_bind].
  destruct (reply_type_of c) as [t|] eqn:Hc.
  - pose proof Hok as (Hfn & Herr & H9). pose proof Hon as (Hlen & Hidx & Hcur & Hst & Hroot).
    set (r2 := set_rstack _ r1).
    assert (Hr2 : r_rstack r2 = <[length os := task_set_type t cur]> (r_rstack r)).
    { cbn. rewrite Hidx. unfold put_task. by rewrite Nat2Z.id. }
    apply (process_typed_spec r2 h closed os (task_set_type t cur)); try done.
    + split; [done|]. split; [done|]. by rewrite Hr2, length_insert.
    + split; [done|]. split; [done|]. rewrite Hr2. split; [|split; [|done]].
      { apply list_lookup_insert_eq. apply lookup_lt_Some in Hcur. done. }
      apply (stack_ok_cur _ _ cur); [done|done|]. eapply stack_ok_frame; [done|].
      intros i Hi. rewrite list_lookup_insert_ne by lia. done.
  - assert (Hlex : lex (length os) (c :: w) = if is_ascii c then Bad (type_error c) else Unsafe).
    { unfold reply_type_of in Hc. cbn [lex]. by repeat case_bool_decide. }
    rewrite Hlex. destruct (is_ascii c) eqn:Hascii; [|done].
    intros Hd. destruct (type_error_spec c Hascii) as (e & Ee & He).
    apply bind_Ok in Ee as (b & Eb & Ee). rewrite Eb in *.
    apply bind_Ok in Ee as (q & Eq & Ee). apply bind_Ok in Ee as (tx & Etx & Ee).
    change (-1 <? 0) with true. cbn match. cbn [mbind result_bind] in *. rewrite Eq.
    cbn [mbind result_bind]. rewrite Etx. cbn [mbind result_bind]. rewrite Ee.
    cbn [mbind result_bind].
    destruct (set_error_spec r1 h closed os cur e _ Hok Hon Hb He Hd) as (r' & h' & -> & Herr).
    by exists r', h'.
Qed.

(** ** The loop over items *)

Definition loop_spec (closed : list (voidptr * reply)) (o : outcome)
    (res : result (redisReader H * H)) : Prop :=
  match o with
  | Waiting fs u => exists r h os cur, res = Ok (r, h) /\ frames os = fs /\ reader_ok r /\
      on_stack r os cur /\ waiting r cur u /\ building h closed os
  | Failed msg => ReplyDisposer fn -> exists r h, res = Ok (r, h) /\ errored r h closed msg
  | Dangerous => True
  | Finished x rest => exists r h, res = Ok (r, h) /\ settled r h closed (inl x) rest
  end.

Lemma settled_stopped r h closed x w fuel :
  settled r h closed (inl x) w -> process_items (S fuel) r h = Ok (r, h).
Proof. intros (_ & _ & E & _). cbn [process_items]. by rewrite E. Qed.

Lemma process_items_spec : forall fuel r h closed os cur u,
  reader_ok r -> on_stack r os cur -> waiting r cur u -> building h closed os ->
  (length u < fuel)%nat ->
  loop_spec closed (parse (frames os) u) (process_items fuel r h).
Proof.
  induction fuel as [|fuel IH]; intros r h closed os cur u Hok Hon Hw Hb Hf; [lia|].
  cbn [process_items]. pose proof Hon as (_ & Hidx & _).
  destruct (Z.ltb_spec (r_ridx r) 0); [lia|].
  pose proof (processItem_spec r h closed os cur u Hok Hon Hw Hb) as Hitem.
  rewrite parse_unfold. unfold parse_with. rewrite length_frames.
  destruct (lex (length os) u) as [|msg| |t rest] eqn:Hlex; cbn [item_spec] in Hitem.
  - destruct Hitem as (r' & cur' & -> & Hok' & Hon' & Hw'). cbn. by exists r', h, os, cur'.
  - intros Hd. destruct (Hitem Hd) as (r' & h' & -> & He). cbn. by exists r', h'.
  - done.
  - apply lex_shrinks in Hlex as Hlt. destruct t as [x|n].
    + destruct Hitem as (r' & h' & -> & Hset). cbn [mbind result_bind].
      change (0 <? 0) with false. cbn match.
      destruct (plug x (frames os)) as [y|fs].
      * destruct fuel as [|fuel]; [lia|]. rewrite (settled_stopped _ _ _ _ _ _ Hset).
        by exists r', h'.
      * destruct Hset as (Hok' & Hun & os' & cur' & <- & Hon' & Hty & Hb').
        apply (IH _ _ _ _ cur'); try done; [by left|lia].
    + destruct Hitem as (r' & h' & p & cur' & -> & Hok' & Hun & Hon' & Hty & Hb').
      cbn [mbind result_bind]. change (0 <? 0) with false. cbn match.
      apply (IH r' h' closed ((p, n, []) :: os) cur'); try done; [by left|lia].
Qed.

(** ** Discarding consumed bytes, feeding new ones *)

(** [r'] is [r] with another buffer and cursor. *)
Definition same_state r r' : Prop :=
  r_fn r' = r_fn r /\ r_error r' = r_error r /\ r_reply r' = r_reply r /\
  r_rstack r' = r_rstack r /\ r_ridx r' = r_ridx r.

Lemma same_state_ok r r' : same_state r r' -> reader_ok r -> reader_ok r'.
Proof. intros (E1 & E2 & _ & E4 & _) (? & ? & ?). unfold reader_ok. by rewrite E1, E2, E4. Qed.

Lemma same_state_stack r r' os cur : same_state r r' -> on_stack r os cur -> on_stack r' os cur.
Proof. intros (_ & _ & E3 & E4 & E5). unfold on_stack. by rewrite E3, E4, E5. Qed.

Lemma unread_inj r w w' : unread r w -> unread r w' -> w = w'.
Proof.
  intros (pre & Hs & _ & Hp & _) (pre' & Hs' & _ & Hp' & _).
  pose proof (sds_rep_inj _ _ _ Hs Hs') as E.
  apply app_inj_1 in E as [_ ?]; [done|]. rewrite Hp in Hp'. len_lia.
Qed.

Lemma discard_spec r w :
  unread r w ->
  exists r', discard_consumed r = Ok r' /\ same_state r r' /\ unread r' w /\ r_pos r' < 1024.
Proof.
  intros Hun. pose proof Hun as (pre & Hs & Hl & Hp & Hm). unfold discard_consumed.
  destruct (Z.leb_spec 1024 (r_pos r)) as [Hge|Hlt]; [|by exists r].
  rewrite zlen_app in Hm. pose proof (zlen_nonneg w). rewrite Hp in *.
  rewrite i32_small by sds_lia.
  destruct (sdsrange_spec _ _ (zlen pre) (-1) Hs) as (b & Eb & Hb); [sds_lia|sds_lia|].
  rewrite Eb. cbn [mbind result_bind]. eexists. split; [done|]. split; [done|].
  assert (Hsl : slice (pre ++ w) (zlen pre) (-1) = w).
  { unfold slice, clamp_index. rewrite (proj2 (Z.ltb_ge (zlen pre) 0)) by lia.
    change (-1 <? 0) with true. cbn match. rewrite zlen_app.
    rewrite to_nat_zlen, drop_app_length. apply take_ge. len_lia. }
  rewrite Hsl in Hb. split; [|done]. exists []. cbn. rewrite (sdslen_rep _ _ Hb).
  split; [done|]. split; [done|]. split; [done|lia].
Qed.
(** ** Between two calls *)

(** The reader holds the parser state [fs], [u]; the client holds [closed]. *)
Definition holding r (h : H) (closed : list (voidptr * reply)) (fs : list frame)
    (u : list byte) : Prop :=
  reader_ok r /\ r_pos r < 1024 /\ (r_len r = 0 -> lex (length fs) u = Need) /\
  ((r_ridx r = -1 /\ fs = [] /\ r_reply r = Null /\ unread r u /\ building h closed []) \/
   (exists os cur, frames os = fs /\ on_stack r os cur /\ waiting r cur u /\ building h closed os)).

Lemma waiting_unread r cur u :
  waiting r cur u -> exists w, unread r w /\ (length w <= length u <= S (length w))%nat.
Proof.
  intros [[_ Hun]|(c & w & _ & -> & Hun)]; [exists u; split; [done|lia]|].
  exists w. split; [done|]. cbn. lia.
Qed.

Lemma holding_unread r h closed fs u :
  holding r h closed fs u ->
  exists w, unread r w /\ (length w <= length u <= S (length w))%nat.
Proof.
  intros (_ & _ & _ & [(_ & _ & _ & Hun & _)|(os & cur & _ & _ & Hw & _)]).
  - exists u. split; [done|lia].
  - by eapply waiting_unread.
Qed.

(** What [redisReplyReaderGetReply] returns for each outcome of the parser. *)
Definition get_reply_spec (closed : list (voidptr * reply)) (o : outcome)
    (res : result (Z * voidptr * redisReader H * H)) : Prop :=
  match o with
  | Waiting fs u => exists r h, res = Ok (REDIS_OK, Null, r, h) /\ holding r h closed fs u
  | Failed msg => ReplyDisposer fn ->
      exists r h, res = Ok (REDIS_ERR, Null, r, h) /\ errored r h closed msg /\ r_reply r = Null
  | Dangerous => True
  | Finished x rest => exists r h p, res = Ok (REDIS_OK, p, r, h) /\ p <> Null /\
      holding r h ((p, x) :: closed) [] rest
  end.

Lemma start_reply r h closed fs u :
  holding r h closed fs u -> r_len r <> 0 ->
  exists os cur, let r1 := if r_ridx r =? -1
             then set_ridx 0 (set_rstack
                    (put_task 0 (ReadTask (-1) (-1) (-1) Null None (r_privdata r)) (r_rstack r)) r)
             else r in
    frames os = fs /\ reader_ok r1 /\ on_stack r1 os cur /\ waiting r1 cur u /\
    building h closed os.
Proof.
  intros (Hok & Hpos & _ & [(Hidx & -> & Hnull & Hun & Hb)|(os & cur & Hf & Hon & Hw & Hb)]) Hl.
  - exists [], (ReadTask (-1) (-1) (-1) Null None (r_privdata r)). rewrite Hidx. cbn zeta match.
    change (-1 =? -1) with true. cbn match. destruct Hok as (Hfn & He & H9).
    split; [done|]. split; [split; [done|split; [done|cbn; unfold put_task; by rewrite length_insert]]|].
    split; [|split; [by left|done]]. split; [cbn; lia|]. split; [done|]. split; [|done].
    cbn. unfold put_task. apply list_lookup_insert_eq. lia.
  - exists os, cur. pose proof Hon as (_ & Hidx & _).
    rewrite (proj2 (Z.eqb_neq _ _)) by lia. done.
Qed.

Lemma waiting_moved r r' cur u w :
  waiting r cur u -> unread r w -> unread r' w -> waiting r' cur u.
Proof.
  intros [[Hty Hu]|(c & w' & Hc & -> & Hu)] Hw Hw';
    rewrite (unread_inj _ _ _ Hu Hw) in *; [by left|by right; exists c, w].
Qed.

Lemma redisReplyReaderGetReply_spec r h closed fs u :
  holding r h closed fs u ->
  get_reply_spec closed (parse fs u) (redisReplyReaderGetReply r h).
Proof.
  intros Hh. unfold redisReplyReaderGetReply. destruct (Z.eqb_spec (r_len r) 0) as [Hl|Hl].
  { pose proof Hh as (_ & _ & Hneed & _). rewrite parse_unfold. unfold parse_with.
    rewrite (Hneed Hl). by exists r, h. }
  destruct (holding_unread _ _ _ _ _ Hh) as (w0 & Hw0 & Hlen).
  destruct (unread_buffered r w0 Hw0) as (pre0 & rest0 & _ & Hp0 & Hl0 & _).
  destruct (start_reply r h closed fs u Hh Hl) as (os & cur & <- & Hok & Hon & Hw & Hb).
  set (r1 := if r_ridx r =? -1 then _ else r) in *.
  pose proof (process_items_spec (Z.to_nat (r_len r - r_pos r) + 2) r1 h closed os cur u
                Hok Hon Hw Hb) as Hloop.
  replace (r_len r1 - r_pos r1) with (r_len r - r_pos r) by (unfold r1; by case_match).
  specialize (Hloop ltac:(len_lia)).
  destruct (parse (frames os) u) as [fs' u'|msg| |x rest] eqn:Hparse; cbn [loop_spec] in Hloop.
  - destruct Hloop as (r2 & h2 & os2 & cur2 & -> & <- & Hok2 & Hon2 & Hw2 & Hb2).
    cbn [mbind result_bind]. destruct (waiting_unread _ _ _ Hw2) as (w & Hun & Hlen2).
    destruct (discard_spec r2 w Hun) as (r3 & -> & Hsame & Hun3 & Hpos3). cbn [mbind result_bind].
    pose proof (same_state_stack _ _ _ _ Hsame Hon2) as Hon3. pose proof Hon3 as (_ & Hidx3 & _).
    rewrite (proj2 (Z.eqb_neq _ _)) by lia. exists r3, h2. split; [done|].
    split; [by eapply same_state_ok|]. split; [done|].
    split; [intros _; by eapply parse_waiting|]. right. exists os2, cur2.
    split; [done|]. split; [done|]. split; [|done].
    by eapply waiting_moved.
  - intros Hd. destruct (Hloop Hd) as (r2 & h2 & -> & Hidx2 & Hfn2 & H92 & Hun2 & Hb2 & e & He & Hmsg).
    cbn [mbind result_bind].
    destruct (discard_spec r2 [] Hun2) as (r3 & -> & (E1 & E2 & E3 & E4 & E5) & Hun3 & _).
    cbn [mbind result_bind]. rewrite E5, Hidx2. change (-1 =? -1) with true. cbn match.
    cbn [set_reply r_error]. rewrite E2, He. eexists _, h2. split; [reflexivity|]. split; [|done].
    split; [by rewrite <- E5 in Hidx2|]. split; [by rewrite <- E1 in Hfn2|].
    split; [by rewrite <- E4 in H92|]. split; [exact Hun3|]. split; [done|].
    exists e. by rewrite <- E2 in He.
  - done.
  - destruct Hloop as (r2 & h2 & -> & Hok2 & Hun2 & Hidx2 & Hb2). cbn [mbind result_bind].
    destruct (discard_spec r2 rest Hun2) as (r3 & -> & Hsame & Hun3 & Hpos3). cbn [mbind result_bind].
    pose proof (same_state_ok _ _ Hsame Hok2) as Hok3. pose proof Hok3 as (_ & He3 & _).
    destruct Hsame as (_ & _ & E3 & _ & E5). rewrite E5, Hidx2. change (-1 =? -1) with true.
    cbn match. cbn [set_reply r_error]. rewrite He3, E3.
    eexists _, h2, _. split; [reflexivity|].
    split.
    { pose proof (build_nonnull _ _ _ Hb2) as [Hc _]. by inversion Hc. }
    split; [exact Hok3|]. split; [exact Hpos3|]. split.
    { cbn [set_reply r_len]. intros Hz. destruct Hun3 as (pre & _ & Hl3 & _).
      rewrite Hz, zlen_app in Hl3. pose proof (zlen_nonneg pre).
      destruct rest; [done|]. len_lia. }
    left. split; [by rewrite <- E5 in Hidx2|]. done.
Qed.

(** Feeding appends to the unread bytes. *)
Lemma redisReplyReaderFeed_spec r h closed fs u chunk extra :
  holding r h closed fs u -> 1 <= zlen chunk -> zlen u + zlen chunk + 1024 <= sds_max ->
  exists r', redisReplyReaderFeed (Some (chunk ++ extra)) (zlen chunk) r = Ok r' /\
    holding r' h closed fs (u ++ chunk).
Proof.
  intros Hh Hc Hm. unfold redisReplyReaderFeed. rewrite (proj2 (Z.leb_le _ _)) by lia.
  destruct (holding_unread _ _ _ _ _ Hh) as (w & Hun & Hlen).
  assert (Hgrow : forall r1, unread r1 w -> r_pos r1 < 1024 -> same_state r r1 ->
    exists r', (b ← sdscatlen (r_buf r1) (chunk ++ extra) (zlen chunk);
                Ok (set_len (sdslen b) (set_buf b r1))) = Ok r' /\
      same_state r r' /\ unread r' (w ++ chunk) /\ r_pos r' < 1024 /\ 0 < r_len r').
  { intros r1 (pre & Hs & Hl & Hp & Hmax) Hpos Hsame. rewrite zlen_app in Hmax.
    destruct (sdscatlen_spec _ _ (chunk ++ extra) (zlen chunk) Hs) as (b & -> & Hb);
      [len_lia|rewrite Hp in Hpos; len_lia|]. cbn [mbind result_bind].
    eexists. split; [done|]. split; [exact Hsame|]. split; [|split; [done|]].
    - exists pre. cbn. rewrite (sdslen_rep _ _ Hb). rewrite to_nat_zlen, take_app_length in Hb |- *.
      rewrite <- app_assoc in Hb |- *. split; [done|]. split; [done|]. split; [done|].
      rewrite Hp in Hpos. len_lia.
    - cbn. rewrite (sdslen_rep _ _ Hb). len_lia. }
  assert (Hstart : exists r1, (if (r_len r =? 0) && (16 * 1024 <? sdsavail (r_buf r))
       then b ← sdsempty; Ok (set_pos 0 (set_buf b r)) else Ok r) = Ok r1 /\
     unread r1 w /\ r_pos r1 < 1024 /\ same_state r r1).
  { destruct (Z.eqb_spec (r_len r) 0) as [Hz|]; cbn [andb].
    2: { exists r. destruct Hh as (_ & Hpos & _). done. }
    case_match; [|exists r; by destruct Hh as (_ & Hpos & _)].
    destruct sdsempty_spec as (b & -> & Hb). cbn [mbind result_bind].
    eexists. split; [done|]. split; [|done]. destruct Hun as (pre & _ & Hl & _ & _).
    rewrite Hz, zlen_app in Hl. pose proof (zlen_nonneg pre).
    destruct w; [|len_lia]. exists []. cbn. done. }
  destruct Hstart as (r1 & -> & Hun1 & Hpos1 & Hsame1). cbn [mbind result_bind].
  destruct (Hgrow r1 Hun1 Hpos1 Hsame1) as (r' & -> & Hsame & Hun' & Hpos' & Hl').
  exists r'. split; [done|]. destruct Hh as (Hok & _ & _ & Hst).
  split; [by eapply same_state_ok|]. split; [done|]. split; [lia|].
  destruct Hst as [(Hidx & -> & Hnull & Hu & Hb)|(os & cur & Hf & Hon & Hw & Hb)].
  - left. destruct Hsame as (_ & _ & E3 & _ & E5). rewrite E3, E5.
    by rewrite (unread_inj _ _ _ Hu Hun).
  - right. exists os, cur. split; [done|]. split; [by eapply same_state_stack|]. split; [|done].
    destruct Hw as [[Hty Hu]|(c & w' & Hc' & -> & Hu)]; rewrite (unread_inj _ _ _ Hu Hun);
      [by left|right]. exists c, (w ++ chunk). done.
Qed.
End spec.
