(* ===== verification/ReaderRun.v ===== *)
(** * Using the reply reader

    The loop every client of the reader runs (feed what arrived, take out the
    replies that are complete), proved against the protocol: for any way the
    bytes are cut into pieces the replies come out in order, and releasing them
    leaves no object behind.  The inputs the reader does not survive are at the
    end. *)

From S2P Require Import Prelude Digits Sds SdsText Resp Reply ReplyHeap Reader ReaderSpec.

Section client.
Context {H : Type}.

(** Take replies until there is none; the loop of [redisProcessCallbacks]. *)
Fixpoint drain (fuel : nat) (r : redisReader H) (h : H)
    : result (list voidptr * redisReader H * H) :=
  match fuel with
  | O => Err NoFuel
  | S fuel =>
      '(rc, p, r, h) ← redisReplyReaderGetReply r h;
      if (rc =? REDIS_ERR) || bool_decide (p = Null) then Ok ([], r, h)
      else '(ps, r, h) ← drain fuel r h; Ok (p :: ps, r, h)
  end.

Fixpoint drive (chunks : list (list byte)) (r : redisReader H) (h : H)
    : result (list voidptr * redisReader H * H) :=
  match chunks with
  | [] => Ok ([], r, h)
  | chunk :: chunks =>
      r ← redisReplyReaderFeed (Some chunk) (zlen chunk) r;
      '(ps, r, h) ← drain (Z.to_nat (r_len r) + 2) r h;
      '(qs, r, h) ← drive chunks r h;
      Ok (ps ++ qs, r, h)
  end.

Definition release (fn : option (redisReplyObjectFunctions H)) (ps : list voidptr) (h : H) : result H :=
  foldr (fun p k h => h ← call_freeObject fn p h; k h) (fun h => Ok h) ps h.

Context (fn : option (redisReplyObjectFunctions H)) `{!ReplyBuilder fn}.

(** The replies with their objects, the latest first. *)
Definition handed (ps : list voidptr) (xs : list reply) : list (voidptr * reply) :=
  rev (zip ps xs).

Lemma handed_app ps qs xs ys :
  length ps = length xs -> handed (ps ++ qs) (xs ++ ys) = handed qs ys ++ handed ps xs.
Proof. intros E. unfold handed. rewrite zip_with_app by done. apply rev_app_distr. Qed.

Lemma drain_spec : forall fuel r h closed fs u xs fs' u',
  holding fn r h closed fs u -> stream fs u = Some (xs, fs', u') -> (length u < fuel)%nat ->
  exists ps r' h', drain fuel r h = Ok (ps, r', h') /\ length ps = length xs /\
    holding fn r' h' (handed ps xs ++ closed) fs' u'.
Proof.
  induction fuel as [|fuel IH]; intros r h closed fs u xs fs' u' Hh Hs Hf; [lia|].
  cbn [drain]. pose proof (redisReplyReaderGetReply_spec fn r h closed fs u Hh) as Hg.
  rewrite stream_unfold in Hs.
  destruct (parse fs u) as [fs1 u1| | |x rest] eqn:E; try done; cbn [get_reply_spec] in Hg.
  - injection Hs as <- <- <-. destruct Hg as (r' & h' & -> & Hh'). cbn [mbind result_bind].
    rewrite bool_decide_eq_true_2 by done. rewrite orb_true_r. by exists [], r', h'.
  - destruct (stream [] rest) as [[[ys fs2] u2]|] eqn:E2; [|done].
    cbn in Hs. injection Hs as <- <- <-. apply parse_shrinks in E.
    destruct Hg as (r' & h' & p & -> & Hp & Hh'). cbn [mbind result_bind].
    rewrite bool_decide_eq_false_2 by done. change (REDIS_OK =? REDIS_ERR) with false. cbn [orb].
    destruct (IH r' h' _ _ _ _ _ _ Hh' E2) as (ps & r2 & h2 & -> & Hl & Hh2); [lia|].
    cbn [mbind result_bind]. exists (p :: ps), r2, h2. split; [done|]. split; [cbn; lia|].
    unfold handed in *. cbn [zip zip_with rev]. by rewrite <- app_assoc.
Qed.

Definition chunks_fit (u : list byte) (chunks : list (list byte)) : Prop :=
  Forall (fun c => 1 <= zlen c) chunks /\ zlen u + zlen (concat chunks) + 1024 <= sds_max.

Lemma drive_spec : forall chunks r h closed fs u xs fs' u',
  holding fn r h closed fs u -> chunks_fit u chunks ->
  stream fs (u ++ concat chunks) = Some (xs, fs', u') ->
  (chunks = [] -> stream fs u = Some ([], fs, u)) ->
  exists ps r' h', drive chunks r h = Ok (ps, r', h') /\ length ps = length xs /\
    holding fn r' h' (handed ps xs ++ closed) fs' u'.
Proof.
  induction chunks as [|c chunks IH]; intros r h closed fs u xs fs' u' Hh [Hne Hm] Hs H0.
  { cbn [concat] in Hs. rewrite app_nil_r, H0 in Hs by done. injection Hs as <- <- <-.
    by exists [], r, h. }
  cbn [drive concat] in *. inversion Hne as [|? ? Hc Hcs]; subst.
  pose proof (zlen_nonneg (concat chunks)). rewrite zlen_app in Hm.
  destruct (redisReplyReaderFeed_spec fn r h closed fs u c [] Hh Hc) as (r1 & E1 & Hh1); [lia|].
  rewrite app_nil_r in E1. rewrite E1. cbn [mbind result_bind].
  rewrite app_assoc in Hs.
  destruct (stream_app _ fs (u ++ c) (concat chunks) xs fs' u' (Nat.lt_succ_diag_r _) Hs)
    as (ys & zs & fs1 & u1 & Hs1 & Hs2 & ->).
  destruct (holding_unread _ _ _ _ _ _ Hh1) as (w & Hun & Hlen).
  destruct (unread_buffered r1 w Hun) as (pre & rest & _ & _ & Hl & _). pose proof (zlen_nonneg pre).
  destruct (drain_spec (Z.to_nat (r_len r1) + 2) r1 h closed fs (u ++ c) ys fs1 u1 Hh1 Hs1)
    as (ps & r2 & h2 & -> & Hps & Hh2); [len_lia|]. cbn [mbind result_bind].
  pose proof (stream_rest _ _ _ _ _ _ (Nat.lt_succ_diag_r _) Hs1) as Hshort.
  destruct (IH r2 h2 _ fs1 u1 zs fs' u' Hh2) as (qs & r3 & h3 & -> & Hqs & Hh3);
    [split; [done|len_lia]|done|..].
  { intros ->. cbn in Hs2. rewrite app_nil_r in Hs2. by apply (stream_idem _ _ _ _ _ _ (Nat.lt_succ_diag_r _) Hs1). }
  cbn [mbind result_bind]. exists (ps ++ qs), r3, h3. split; [done|].
  rewrite !length_app. split; [lia|]. by rewrite handed_app, <- app_assoc.
Qed.

Lemma release_spec `{!ReplyDisposer fn} : forall ps xs h,
  length ps = length xs -> building h (handed ps xs) [] ->
  exists h', release fn ps h = Ok h' /\ building h' [] [].
Proof.
  induction ps as [|p ps IH]; intros [|x xs] h Hl Hb; try done; [by exists h|].
  unfold handed in Hb. cbn [zip zip_with rev] in Hb.
  destruct (dispose_closed h (rev (zip ps xs)) p x [] Hb) as (h1 & E & Hb1).
  rewrite app_nil_r in Hb1. destruct (IH xs h1) as (h2 & E2 & Hb2); [by injection Hl|done|].
  exists h2. split; [|done]. cbn [release foldr]. rewrite E. exact E2.
Qed.
End client.

Lemma create_spec {H} (fns : redisReplyObjectFunctions H) `{!ReplyBuilder (Some fns)} h :
  building h [] [] ->
  exists r, redisReplyReaderCreate fns = Ok r /\ holding (Some fns) r h [] [] [].
Proof.
  intros Hb. unfold redisReplyReaderCreate. destruct sdsempty_spec as (b & -> & Hbuf).
  cbn [mbind result_bind]. eexists. split; [done|]. split; [done|]. split; [cbn; lia|].
  split; [done|]. left. repeat split; try done. exists []. done.
Qed.

Lemma default_create :
  exists r, redisReplyReaderCreate defaultFunctions = Ok r /\
    holding (Some defaultFunctions) r empty_heap [] [] [].
Proof. apply (create_spec defaultFunctions), empty_heap_building. Qed.

(** ** Properties *)

(** C1: [redisReplyReaderGetReply] refines the protocol parser: from a reader
    that holds a parser state, one call returns the complete reply of the
    unread bytes with its object, or nothing and keeps the parser state reached,
    or the error of the protocol; whatever function table meets the builder
    interface. *)
Theorem getreply_refines_parser {H} (fn : option (redisReplyObjectFunctions H))
    `{!ReplyBuilder fn} r h closed fs u :
  holding fn r h closed fs u ->
  get_reply_spec fn closed (parse fs u) (redisReplyReaderGetReply r h).
Proof. apply redisReplyReaderGetReply_spec. Qed.

Definition new_reader : redisReader reply_heap :=
  match redisReplyReaderCreate defaultFunctions with
  | Ok r => r
  | Err _ => Reader None None Null (Sdshdr 0 0 []) 0 0 [] 0 Null
  end.

Lemma getreply_refines_parser_witness :
  holding (Some defaultFunctions) new_reader empty_heap [] [] [] /\
  get_reply_spec (Some defaultFunctions) [] (parse [] []) (redisReplyReaderGetReply new_reader empty_heap).
Proof.
  assert (Hh : holding (Some defaultFunctions) new_reader empty_heap [] [] []).
  { destruct (default_create) as (r & E & Hr).
    unfold new_reader. by rewrite E. }
  split; [exact Hh|].
  exact (getreply_refines_parser (Some defaultFunctions) new_reader empty_heap [] [] [] Hh).
Defined.

(** A server's replies, cut into non-empty pieces. *)
Definition pieces_of (chunks : list (list byte)) (xs : list reply) : Prop :=
  concat chunks = encodes xs /\ chunks <> [] /\ chunks_fit [] chunks /\
  Forall wf_reply xs /\ Forall (fun x => reply_depth x <= max_nesting)%nat xs.

Lemma drive_pieces chunks xs :
  pieces_of chunks xs ->
  exists r ps r' h', redisReplyReaderCreate defaultFunctions = Ok r /\
    drive chunks r empty_heap = Ok (ps, r', h') /\ length ps = length xs /\
    holding (Some defaultFunctions) r' h' (handed ps xs) [] [].
Proof.
  intros (Hc & Hne & Hfit & Hwf & Hd).
  destruct (default_create) as (r & E & Hr).
  destruct (drive_spec (Some defaultFunctions) chunks r empty_heap [] [] [] xs [] [] Hr Hfit)
    as (ps & r' & h' & Hdr & Hl & Hh); [|done|].
  { cbn [app]. rewrite Hc. by apply stream_encodes. }
  rewrite app_nil_r in Hh. eauto 8.
Qed.

Lemma holding_building {H} (fn : option (redisReplyObjectFunctions H)) `{!ReplyBuilder fn} r h closed u :
  holding fn r h closed [] u -> building h closed [].
Proof.
  intros (_ & _ & _ & [(_ & _ & _ & _ & Hb)|(os & cur & Hf & _ & _ & Hb)]); [done|].
  by destruct os.
Qed.

(** C2: however the encodings of some replies are cut into pieces, feeding the
    pieces and taking out what is complete after each gives exactly these
    replies, in order, each an object tree on the heap that represents it; the
    reader ends with an empty stack and nothing unread. *)
Theorem replies_in_pieces chunks xs :
  pieces_of chunks xs ->
  exists r ps r' h', redisReplyReaderCreate defaultFunctions = Ok r /\
    drive chunks r empty_heap = Ok (ps, r', h') /\ length ps = length xs /\
    heap_building h' (handed ps xs) [] /\
    holding (Some defaultFunctions) r' h' (handed ps xs) [] [].
Proof.
  intros Hp. destruct (drive_pieces chunks xs Hp) as (r & ps & r' & h' & E & Hd & Hl & Hh).
  exists r, ps, r', h'. split; [done|]. split; [done|]. split; [done|]. split; [|done].
  exact (holding_building _ _ _ _ _ Hh).
Qed.

Definition demo_replies : list reply :=
  [RArray [RString (bytes "message"); RInteger (-3); RNil; RArray []]; RStatus (bytes "OK")].
Definition demo_pieces : list (list byte) :=
  [take 9 (encodes demo_replies); take 15 (drop 9 (encodes demo_replies)); drop 24 (encodes demo_replies)].

Lemma demo_pieces_ok : pieces_of demo_pieces demo_replies.
Proof.
  split; [reflexivity|]. split; [done|]. split; [|split].
  - split; [|vm_compute; discriminate].
    repeat (apply List.Forall_cons; [vm_compute; discriminate|]). apply List.Forall_nil.
  - apply List.Forall_cons; [|apply List.Forall_cons; [|apply List.Forall_nil]].
    + cbn [demo_replies wf_reply fold_right]. repeat split; vm_compute; congruence.
    + apply (bool_decide_unpack _). by vm_compute.
  - repeat constructor; vm_compute; lia.
Qed.

Lemma replies_in_pieces_witness :
  exists r ps r' h', redisReplyReaderCreate defaultFunctions = Ok r /\
    drive demo_pieces r empty_heap = Ok (ps, r', h') /\ length ps = length demo_replies /\
    heap_building h' (handed ps demo_replies) [] /\
    holding (Some defaultFunctions) r' h' (handed ps demo_replies) [] [].
Proof. apply (replies_in_pieces demo_pieces demo_replies), demo_pieces_ok. Defined.

(** C3: nothing leaks: when the client frees the replies it was handed with
    [freeReplyObject], every free succeeds and no object is left. *)
Theorem replies_released chunks xs :
  pieces_of chunks xs ->
  exists r ps r' h' h'', redisReplyReaderCreate defaultFunctions = Ok r /\
    drive chunks r empty_heap = Ok (ps, r', h') /\
    size (rh_objs h') = replies_nodes xs /\
    release (Some defaultFunctions) ps h' = Ok h'' /\ rh_objs h'' = ∅.
Proof.
  intros Hp. destruct (drive_pieces chunks xs Hp) as (r & ps & r' & h' & E & Hd & Hl & Hh).
  apply holding_building in Hh.
  destruct (release_spec (Some defaultFunctions) ps xs h' Hl Hh) as (h'' & Hr & Hb).
  exists r, ps, r', h', h''. split; [done|]. split; [done|].
  destruct Hh as (_ & _ & Hs). split; [|split; [done|]].
  - rewrite Hs. unfold open_nodes. cbn [sum_list_with]. rewrite Nat.add_0_r. clear -Hl.
    unfold handed. revert xs Hl. induction ps as [|p ps IH]; intros [|x xs] Hl; try done.
    cbn [zip zip_with rev]. rewrite closed_nodes_app, IH by (by injection Hl).
    unfold closed_nodes. cbn. unfold replies_nodes. lia.
  - destruct Hb as (_ & _ & Hz). by apply map_size_empty_iff.
Qed.

Lemma replies_released_witness :
  exists r ps r' h' h'', redisReplyReaderCreate defaultFunctions = Ok r /\
    drive demo_pieces r empty_heap = Ok (ps, r', h') /\
    size (rh_objs h') = replies_nodes demo_replies /\
    release (Some defaultFunctions) ps h' = Ok h'' /\ rh_objs h'' = ∅.
Proof. apply (replies_released demo_pieces demo_replies), demo_pieces_ok. Defined.

(** ** Errors *)

Definition read_bytes (u : list byte) : result (Z * voidptr * option (result (list byte))) :=
  r ← redisReplyReaderCreate defaultFunctions;
  r ← redisReplyReaderFeed (Some u) (zlen u) r;
  '(rc, p, r, h) ← redisReplyReaderGetReply r empty_heap;
  Ok (rc, p, sds_chars <$> redisReplyReaderGetError r).

(** A reply that starts with an unknown type byte below 128 makes the reader
    return an error whose text names the byte, whatever follows it. *)
Theorem unknown_type_reported c u :
  reply_type_of c = None -> is_ascii c = true -> zlen u + 2000 <= sds_max ->
  read_bytes (c :: u) = Ok (REDIS_ERR, Null, Some (Ok (type_error c))).
Proof.
  intros Hc Hascii Hu. unfold read_bytes. pose proof (zlen_nonneg u).
  destruct (default_create) as (r & -> & Hr).
  cbn [mbind result_bind].
  destruct (redisReplyReaderFeed_spec _ r empty_heap [] [] [] (c :: u) [] Hr) as (r1 & E1 & Hh1);
    [len_lia|len_lia|].
  rewrite app_nil_r in E1. rewrite E1. cbn [mbind result_bind].
  pose proof (redisReplyReaderGetReply_spec _ r1 empty_heap [] [] _ Hh1) as Hg.
  assert (Hp : parse [] (c :: u) = Failed (type_error c)).
  { rewrite parse_unfold. unfold parse_with. unfold reply_type_of in Hc. cbn [lex length].
    repeat case_bool_decide; try done. by rewrite Hascii. }
  cbn [app] in Hg. rewrite Hp in Hg.
  destruct (Hg default_disposer) as (r2 & h2 & -> & (_ & _ & _ & _ & _ & e & He & Hm) & _).
  cbn [mbind result_bind]. unfold redisReplyReaderGetError. rewrite He. cbn [fmap option_fmap option_map].
  rewrite (sds_chars_spec _ _ Hm); [done|].
  destruct (quote_one c) as [H0 _]. unfold type_error. rewrite !not_elem_of_app.
  split; [|split; [exact H0|]]; apply (bool_decide_unpack _); by vm_compute.
Qed.

Lemma unknown_type_reported_witness :
  read_bytes (bytes "GET") = Ok (REDIS_ERR, Null,
    Some (Ok ([x50; x72; x6f; x74; x6f; x63; x6f; x6c; x20; x65; x72; x72; x6f; x72; x2c] ++
              bytes " got " ++ [x22; x47; x22] ++ bytes " as reply type byte"))).
Proof. apply (unknown_type_reported x47 (bytes "ET")); vm_compute; congruence. Defined.

(** A type byte of 128 or more is handed to [isprint] as a negative number. *)
Example high_type_byte : read_bytes [xe4] = Err Undefined.
Proof. vm_compute. reflexivity. Qed.

(** Eight nested arrays are read, a ninth is an error; its text speaks of
    seven. *)
Theorem nesting_limit :
  read_bytes (concat (replicate 8 (bytes "*1" ++ crlf)) ++ bytes ":7" ++ crlf)
    = Ok (REDIS_OK, Loc 0, None) /\
  read_bytes (concat (replicate 9 (bytes "*1" ++ crlf)))
    = Ok (REDIS_ERR, Null, Some (Ok (bytes "No support for nested multi bulk replies with depth > 7"))).
Proof. split; vm_compute; reflexivity. Qed.

(** ** Lengths of 2^32 and more *)

(** The copy of more bytes than the buffer has behind its start. *)
Lemma copy_too_long rstack cur str m h :
  rt_type cur = REDIS_REPLY_STRING -> zlen str < m ->
  call_createString (Some defaultFunctions) REDIS_REPLY_STRING rstack cur str m h = Err Undefined.
Proof.
  intros Hty Hm. change (createStringObject rstack cur str m h = Err Undefined).
  unfold createStringObject. cbn [createReplyObject alloc_reply]. rewrite Hty.
  rewrite c_assert_true by done. cbn [mbind result_bind].
  by rewrite (proj2 (Z.leb_gt _ _)) by lia.
Qed.

(** Where the header line [l] of a bulk string ends. *)
Definition header_end (r : redisReader reply_heap) (l : list byte) : Z := r_pos r + zlen l + 2.

Lemma header_buffer r l tail :
  unread r (l ++ crlf ++ tail) ->
  header_end r l <= r_len r /\ r_len r = header_end r l + zlen tail /\ r_len r <= sds_max /\
  0 <= r_pos r /\
  zlen (drop (Z.to_nat (header_end r l)) (sds_buf (r_buf r))) <= 2 ^ 31 - header_end r l.
Proof.
  intros (pre & (rest & -> & Hcap) & Hlen & Hp & Hm). unfold header_end, sds_make. rewrite Hp, Hlen.
  cbn [sds_buf]. rewrite !zlen_app in *. change (zlen crlf) with 2 in *.
  pose proof (zlen_nonneg pre). pose proof (zlen_nonneg l). pose proof (zlen_nonneg tail).
  pose proof (zlen_nonneg rest). repeat split; unfold crlf; sds_lia.
Qed.

(** What is left of [processBulkItem] once it has read the length [n]. *)
Lemma bulk_header r cur os l tail n h :
  reader_ok (Some defaultFunctions) r -> on_stack r os cur ->
  unread r (l ++ crlf ++ tail) -> x0d ∉ l -> number l = Some n -> 0 <= n ->
  processBulkItem r h =
    if u32 (header_end r l + u32 n + 2) <=? r_len r then
      '(obj, h) ← call_createString (Some defaultFunctions) REDIS_REPLY_STRING (r_rstack r) cur
                    (drop (Z.to_nat (header_end r l)) (sds_buf (r_buf r))) (u32 n) h;
      let r := set_pos (u32 (header_end r l + u32 n + 2)) r in
      r ← moveToNextTask (if r_ridx r =? 0 then set_reply obj r else r);
      Ok (0, r, h)
    else Ok (-1, r, h).
Proof.
  intros (Hfn & _) Hon Hun Hl Hn Hpos. unfold header_end.
  destruct (unread_buffered r _ Hun) as (pre & rest & Hbuf & Hp & Hlen & Hm).
  unfold processBulkItem. rewrite (get_cur r os cur Hon). cbn [mbind result_bind].
  rewrite Hbuf, Hp, Hlen, Hfn. pose proof (zlen_nonneg pre).
  replace (zlen pre + zlen (l ++ crlf ++ tail) - zlen pre) with (zlen (l ++ crlf ++ tail)) by lia.
  pose proof (zlen_nonneg (l ++ crlf ++ tail)).
  rewrite u32_small by sds_lia. rewrite seekNewline_spec by sds_lia.
  rewrite cut_line_crlf by done. cbn [fmap option_fmap option_map mbind result_bind fst].
  rewrite readLongLong_spec, Hn. cbn [of_option mbind result_bind].
  rewrite (proj2 (Z.ltb_ge n 0)) by lia.
  replace (zlen pre + zlen l - zlen pre + 2) with (zlen l + 2) by lia.
  rewrite (u32_add_l (zlen l + 2)), (u32_add_r (zlen l + 2)).
  assert (Hend : u32 (zlen pre + u32 (zlen l + 2 + (u32 n + 2)))
                 = u32 (zlen pre + zlen l + 2 + u32 n + 2)) by (rewrite u32_add_r; f_equal; lia).
  rewrite Hend. destruct (_ <=? _); [|done].
  destruct (call_createString _ _ _ _ _ _ _) as [[obj h1]|]; [|done].
  cbn [mbind result_bind]. by rewrite Hend.
Qed.

(** The copy of a string that is there, and the step behind it. *)
Lemma bulk_copied r h closed cur os l tail m :
  reader_ok (Some defaultFunctions) r -> on_stack r os cur -> rt_type cur = REDIS_REPLY_STRING ->
  heap_building h closed os -> unread r (l ++ crlf ++ tail) -> 0 <= m -> m + 2 <= zlen tail ->
  exists r' h',
    ('(obj, h) ← call_createString (Some defaultFunctions) REDIS_REPLY_STRING (r_rstack r) cur
                   (drop (Z.to_nat (header_end r l)) (sds_buf (r_buf r))) m h;
     let r := set_pos (header_end r l + m + 2) r in
     r ← moveToNextTask (if r_ridx r =? 0 then set_reply obj r else r);
     Ok (0, r, h)) = Ok (0, r', h') /\
    settled (Some defaultFunctions) r' h' closed
      (plug (RString (take (Z.to_nat m) tail)) (frames os)) (drop (Z.to_nat (m + 2)) tail).
Proof.
  intros Hok Hon Hty Hb Hun Hm Hfits.
  destruct (header_buffer r l tail Hun) as (_ & Hlen & Hmax & _).
  destruct (unread_buffered r _ Hun) as (pre & rest & Hbuf & Hp & _).
  rewrite Hbuf, buffered_split.
  replace (header_end r l) with (zlen (pre ++ l ++ crlf))
    by (unfold header_end; rewrite Hp, !zlen_app; change (zlen crlf) with 2; lia).
  destruct (drop_buffered (pre ++ l ++ crlf) (take (Z.to_nat m) tail) (drop (Z.to_nat m) tail) rest)
    as [cs Hcs].
  rewrite take_drop in Hcs. rewrite Hcs.
  pose proof Hon as (_ & _ & _ & Hst & _). apply stack_ok_task in Hst as Htask.
  destruct (build_string (fn := Some defaultFunctions) h closed os (r_rstack r) cur REDIS_REPLY_STRING
              (take (Z.to_nat m) tail) cs) as (p & h' & E & Hadd); [done..| |done| |].
  { rewrite Hty. by left. } { rewrite zlen_take by lia. unfold header_end in *. sds_lia. }
  rewrite zlen_take in E by lia. rewrite E. cbn [mbind result_bind]. rewrite Hty in Hadd.
  destruct (bulk_finish (Some defaultFunctions) r h' closed os cur l tail (Z.to_nat (m + 2)) p
              (RString (take (Z.to_nat m) tail)) (zlen (pre ++ l ++ crlf) + m + 2))
    as (r' & -> & Hs); [done..|len_lia| |].
  { rewrite Hp, !zlen_app. change (zlen crlf) with 2. lia. }
  cbn [mbind result_bind]. by exists r', h'.
Qed.

(** C4: the length of a bulk string is cut to 32 bits.  Whatever state the
    reader is in, a header that announces [n] bytes is read as one that announces
    [m = n mod 2^32]: if the item's end does not wrap around, the reply is the
    next [m] bytes, or the reader waits for them; if it does, the test that the
    whole item is buffered passes for an item that is not, and the copy runs out
    of the buffer (unless the wrapped end is still missing). *)
Theorem bulk_length_wraps r h closed os cur l tail n :
  reader_ok (Some defaultFunctions) r -> on_stack r os cur -> rt_type cur = REDIS_REPLY_STRING ->
  heap_building h closed os ->
  unread r (l ++ crlf ++ tail) -> x0d ∉ l -> number l = Some n -> 0 <= n ->
  let m := n mod 2 ^ 32 in
  let item_end := r_pos r + zlen l + 2 + m + 2 in
  if item_end <? 2 ^ 32 then
    if m + 2 <=? zlen tail then
      exists r' h', processBulkItem r h = Ok (0, r', h') /\
        settled (Some defaultFunctions) r' h' closed
          (plug (RString (take (Z.to_nat m) tail)) (frames os)) (drop (Z.to_nat (m + 2)) tail)
    else processBulkItem r h = Ok (-1, r, h)
  else
    if item_end - 2 ^ 32 <=? r_len r then processBulkItem r h = Err Undefined
    else processBulkItem r h = Ok (-1, r, h).
Proof.
  intros Hok Hon Hty Hb Hun Hl Hn Hpos. cbn zeta.
  pose proof (bulk_header r cur os l tail n h Hok Hon Hun Hl Hn Hpos) as E.
  destruct (header_buffer r l tail Hun) as (Hle & Hlen & Hmax & Hp0 & Hcells).
  change (n mod 2 ^ 32) with (u32 n). pose proof (wrapU_range 32 n ltac:(lia)) as Hm.
  change (r_pos r + zlen l + 2) with (header_end r l).
  assert (Hh : 0 <= header_end r l) by (unfold header_end; pose proof (zlen_nonneg l); lia).
  destruct (Z.ltb_spec (header_end r l + u32 n + 2) (2 ^ 32)) as [Hnowrap|Hwrap].
  - rewrite u32_small in E by lia.
    replace (header_end r l + u32 n + 2 <=? r_len r) with (u32 n + 2 <=? zlen tail) in E by lia.
    destruct (Z.leb_spec (u32 n + 2) (zlen tail)) as [Hfits|]; [|exact E]. rewrite E.
    apply (bulk_copied r h closed cur os l tail); done || lia.
  - replace (u32 (header_end r l + u32 n + 2)) with (header_end r l + u32 n + 2 - 2 ^ 32) in E.
    2: { unfold wrapU at 2. rewrite <- (Z.mod_add _ (-1)) by lia.
         rewrite Z.mod_small by (clear Hcells; sds_lia). lia. }
    destruct (Z.leb_spec (header_end r l + u32 n + 2 - 2 ^ 32) (r_len r)) as [|]; [|exact E].
    rewrite E, copy_too_long by (done || sds_lia). done.
Qed.

(** A reader that has consumed the type byte of the reply [u]. *)
Definition bulk_reader (u : list byte) : redisReader reply_heap :=
  let cur := ReadTask REDIS_REPLY_STRING (-1) (-1) Null None Null in
  Reader (Some defaultFunctions) None Null (sds_make u []) 1 (zlen u)
    (put_task 0 cur (replicate 9 zero_task)) 0 Null.

Lemma bulk_length_wraps_witness :
  processBulkItem (bulk_reader (bytes "$4294967295" ++ crlf ++ [x78])) empty_heap = Err Undefined /\
  exists r' h', processBulkItem (bulk_reader (bytes "$4294967298" ++ crlf ++ bytes "abcd")) empty_heap
      = Ok (0, r', h') /\
    settled (Some defaultFunctions) r' h' [] (inl (RString (bytes "ab"))) [].
Proof.
  assert (Hgen : forall l tail n, x0d ∉ l -> number l = Some n -> 0 <= n -> zlen (l ++ tail) <= 100 ->
    let r := bulk_reader (x24 :: l ++ crlf ++ tail) in
    reader_ok (Some defaultFunctions) r /\
    on_stack r [] (ReadTask REDIS_REPLY_STRING (-1) (-1) Null None Null) /\
    heap_building empty_heap [] [] /\ unread r (l ++ crlf ++ tail)).
  { intros l tail n Hl Hn H0 Hlen r. split; [done|]. split; [by repeat split; cbn; lia|].
    split; [apply empty_heap_building|].
    exists [x24]. split; [exists []; split; [done|unfold crlf; sds_lia]|].
    repeat split. unfold crlf. sds_lia. }
  split.
  - destruct (Hgen (bytes "4294967295") [x78] 4294967295) as (H1 & H2 & H3 & H4);
      [by apply (bool_decide_unpack _); vm_compute|done..|].
    exact (bulk_length_wraps _ empty_heap [] [] _ (bytes "4294967295") [x78] 4294967295
      H1 H2 eq_refl H3 H4 ltac:(by apply (bool_decide_unpack _); vm_compute) eq_refl ltac:(lia)).
  - destruct (Hgen (bytes "4294967298") (bytes "abcd") 4294967298) as (H1 & H2 & H3 & H4);
      [by apply (bool_decide_unpack _); vm_compute|done..|].
    exact (bulk_length_wraps _ empty_heap [] [] _ (bytes "4294967298") (bytes "abcd") 4294967298
      H1 H2 eq_refl H3 H4 ltac:(by apply (bool_decide_unpack _); vm_compute) eq_refl ltac:(lia)).
Defined.

(** Single replies the reader does not survive: a bulk length that wraps; the
    smallest [long long], which overflows when it is negated; an element count of
    2^32, stored as zero, so that the first element is written out of bounds; a
    negative count other than -1, which exhausts the memory. *)
Example hostile_replies :
  read_bytes (bytes "$4294967295" ++ crlf ++ [x78]) = Err Undefined /\
  read_bytes (bytes ":-9223372036854775808" ++ crlf) = Err Undefined /\
  read_bytes (bytes "*4294967296" ++ crlf ++ bytes ":1" ++ crlf) = Err Undefined /\
  read_bytes (bytes "*-2" ++ crlf) = Err OutOfMemory.
Proof. repeat split; vm_compute; reflexivity. Qed.

(** A reader without functions reads replies, but an error inside an array
    calls [freeObject] through the NULL table. *)
Example null_functions_crash :
  (r ← redisReplyReaderCreate (H := unit) (ReplyFns None None None None None);
   let '(_, r) := redisReplyReaderSetReplyObjectFunctions None r in
   r ← redisReplyReaderFeed (Some (bytes "*1" ++ crlf ++ bytes ":7" ++ crlf)) 8 r;
   '(rc, p, r, h) ← redisReplyReaderGetReply r tt; Ok p) = Ok (Int REDIS_REPLY_ARRAY) /\
  (r ← redisReplyReaderCreate (H := unit) (ReplyFns None None None None None);
   let '(_, r) := redisReplyReaderSetReplyObjectFunctions None r in
   r ← redisReplyReaderFeed (Some (bytes "*1" ++ crlf ++ bytes "?")) 5 r;
   '(rc, p, r, h) ← redisReplyReaderGetReply r tt; Ok p) = Err Undefined.
Proof. split; vm_compute; reflexivity. Qed.
