(* ===== verification/Format.v ===== *)
(** * Formatting commands ([win32/hiredis/hiredis.c], lines 592-815)

    [redisvFormatCommand] interpolates arguments into a command and writes it in
    the wire format; [redisFormatCommandArgv] writes a command given as a vector.
    A [va_list] is the stack of 4-byte words of the Win32 calling convention. *)

From S2P Require Import Prelude Digits Sds SdsText Resp.

(** ** printf *)

(** A word of the argument list: a number, or a pointer to the bytes of an
    object.  A 64-bit argument is two words, the low one first. *)
Inductive va_word := WInt (z : Z) | WPtr (s : list byte).

(** [va_arg] of a string pointer, of a [size_t], and of any word. *)
Definition va_ptr (ap : list va_word) : result (list byte * list va_word) :=
  match ap with WPtr s :: ap => Ok (s, ap) | _ => Err Undefined end.
Definition va_size (ap : list va_word) : result (Z * list va_word) :=
  match ap with WInt z :: ap => Ok (u32 z, ap) | _ => Err Undefined end.
Definition va_skip (ap : list va_word) : result (list va_word) :=
  match ap with _ :: ap => Ok ap | [] => Err Undefined end.

(** A conversion specification of the subset the scanner lets through. *)
Record conversion := Conversion {
  cv_alt : bool; cv_zero : bool; cv_left : bool; cv_space : bool; cv_plus : bool;
  cv_width : Z; cv_prec : option Z;
  cv_size : list byte;  (** [h], [hh], [l], [ll] or nothing *)
  cv_spec : byte
}.

Definition take_flag (c : byte) (f : list byte) : bool * list byte :=
  match f with
  | b :: f' => if bool_decide (b = c) then (true, f') else (false, f)
  | [] => (false, [])
  end.

Fixpoint take_number (acc : Z) (f : list byte) : Z * list byte :=
  match f with
  | b :: f' => if isdigit b then take_number (10 * acc + (b2z b - 48)) f' else (acc, f)
  | [] => (acc, [])
  end.

Definition take_size (f : list byte) : list byte * list byte :=
  match f with
  | b :: f' =>
      if bool_decide (b = x68) || bool_decide (b = x6c) then
        if bool_decide (head f' = Some b) then ([b; b], tail f') else ([b], f')
      else ([], f)
  | [] => ([], [])
  end.

Definition parse_conversion (f : list byte) : conversion * list byte :=
  let '(alt, f) := take_flag x23 f in
  let '(zero, f) := take_flag x30 f in
  let '(left_, f) := take_flag x2d f in
  let '(space, f) := take_flag x20 f in
  let '(plus, f) := take_flag x2b f in
  let '(width, f) := take_number 0 f in
  let '(dot, f) := take_flag x2e f in
  let '(prec, f) := (if dot then let '(n, f) := take_number 0 f in (Some n, f) else (None, f)) in
  let '(size, f) := take_size f in
  (Conversion alt zero left_ space plus width prec size (default x00 (head f)), tail f).

(** Digits of [v] in base 8, 10 or 16. *)
Definition hex_char (upper : bool) (d : Z) : byte :=
  z2b (if d <? 10 then 48 + d else (if upper then 55 else 87) + d).

Fixpoint print_base (fuel : nat) (base : Z) (upper : bool) (v : Z) : list byte :=
  match fuel with
  | O => []
  | S fuel => if v <? base then [hex_char upper v]
              else print_base fuel base upper (v / base) ++ [hex_char upper (v mod base)]
  end.

(** The converted integer: sign, prefix, precision and padding. *)
Definition format_int (cv : conversion) (signed : bool) (base : Z) (upper : bool) (v : Z) : list byte :=
  let digits := (if (v =? 0) && bool_decide (cv_prec cv = Some 0) then []
                 else print_base 65 base upper (Z.abs v)) in
  let digits := replicate (Z.to_nat (default 0 (cv_prec cv) - zlen digits)) x30 ++ digits in
  let digits := (if cv_alt cv && (base =? 8) && negb (bool_decide (head digits = Some x30))
                 then x30 :: digits else digits) in
  let sign := (if signed then
                 if v <? 0 then [x2d] else if cv_plus cv then [x2b]
                 else if cv_space cv then [x20] else []
               else []) in
  let prefix := (if cv_alt cv && (base =? 16) && negb (v =? 0)
                 then [x30; if upper then x58 else x78] else []) in
  let pad := Z.to_nat (cv_width cv - zlen sign - zlen prefix - zlen digits) in
  if cv_left cv then sign ++ prefix ++ digits ++ replicate pad x20
  else if cv_zero cv && bool_decide (cv_prec cv = None)
       then sign ++ prefix ++ replicate pad x30 ++ digits
       else replicate pad x20 ++ sign ++ prefix ++ digits.

(** The integer argument of a conversion, at the width of its size prefix. *)
Definition int_argument (cv : conversion) (signed : bool) (ap : list va_word) : result Z :=
  let wrap (w z : Z) := if signed then wrapS w z else wrapU w z in
  match ap with
  | WInt lo :: ap' =>
      if bool_decide (cv_size cv = [x6c; x6c]) then
        match ap' with
        | WInt hi :: _ => Ok (wrap 64 (u32 lo + 2 ^ 32 * u32 hi))
        | _ => Err Undefined
        end
      else if bool_decide (cv_size cv = [x68; x68]) then Ok (wrap 8 lo)
      else if bool_decide (cv_size cv = [x68]) then Ok (wrap 16 lo)
      else Ok (wrap 32 lo)
  | _ => Err Undefined
  end.

Section format.

(** The text of a floating-point conversion of the two words of a [double]; what
    the C library prints for it. *)
Context (format_double : conversion -> Z -> Z -> list byte).

(** [vprintf] of one conversion. *)
Definition vformat (f : list byte) (ap : list va_word) : result (list byte) :=
  let '(cv, _) := parse_conversion (tail f) in
  let c := cv_spec cv in
  if bool_decide (c ∈ [x64; x69]) then v ← int_argument cv true ap; Ok (format_int cv true 10 false v)
  else if bool_decide (c = x75) then v ← int_argument cv false ap; Ok (format_int cv false 10 false v)
  else if bool_decide (c = x6f) then v ← int_argument cv false ap; Ok (format_int cv false 8 false v)
  else if bool_decide (c = x78) then v ← int_argument cv false ap; Ok (format_int cv false 16 false v)
  else if bool_decide (c = x58) then v ← int_argument cv false ap; Ok (format_int cv false 16 true v)
  else match ap with
       | WInt lo :: WInt hi :: _ => Ok (format_double cv lo hi)
       | _ => Err Undefined
       end.

(** ** Building the argument vector *)

Fixpoint intlen_loop (fuel : nat) (len i : Z) : result Z :=
  match fuel with
  | O => Err NoFuel
  | S fuel =>
      let len := len + 1 in
      let i := Z.quot i 10 in
      if i =? 0 then Ok len else intlen_loop fuel len i
  end.

Definition intlen (i : Z) : result Z :=
  if i <? 0 then i ← chk32 (- i); intlen_loop 10 1 i else intlen_loop 10 0 i.

(** [argv] grows by one; [argc] is its length. *)
Definition addArgument (a : sdshdr) (argv : list sdshdr) (totlen : Z)
    : result (list sdshdr * Z) :=
  n ← intlen (i32 (sdslen a));
  t ← chk32 (totlen + 1); t ← chk32 (t + n); t ← chk32 (t + 2);
  Ok (argv ++ [a], i32 (u32 (t + sdslen a + 2))).

Definition skip_if (fmt : list byte) (c : byte) (p : Z) : result Z :=
  b ← deref fmt p; Ok (if bool_decide (b = c) then p + 1 else p).

Fixpoint skip_digits (fuel : nat) (fmt : list byte) (p : Z) : result Z :=
  match fuel with
  | O => Err NoFuel
  | S fuel =>
      b ← deref fmt p;
      if negb (bool_decide (b = x00)) && isdigit b then skip_digits fuel fmt (p + 1) else Ok p
  end.

(** The position of the conversion specifier behind flags, width, precision and
    modifiers. *)
Definition scan_conversion (fmt : list byte) (p : Z) : result Z :=
  p ← skip_if fmt x23 p;
  p ← skip_if fmt x30 p;
  p ← skip_if fmt x2d p;
  p ← skip_if fmt x20 p;
  p ← skip_if fmt x2b p;
  p ← skip_digits (S (length fmt)) fmt p;
  b ← deref fmt p;
  p ← (if bool_decide (b = x2e) then skip_digits (S (length fmt)) fmt (p + 1) else Ok p);
  b ← deref fmt p;
  if bool_decide (b = x68) || bool_decide (b = x6c) then
    b1 ← deref fmt (p + 1);
    Ok (if bool_decide (b = b1) then p + 2 else p + 1)
  else Ok p.

(** The bytes of [diouxXeEfFgGaA]. *)
Definition conversion_specifiers : list byte := bytes "diouxXeEfFgGaA".

Definition format_directive (fmt : list byte) (c : Z) (current : sdshdr) (ap : list va_word)
    : result (Z * sdshdr * list va_word) :=
  c1 ← deref fmt (c + 1);
  if bool_decide (c1 = x73) then
    '(arg, ap) ← va_ptr ap;
    size ← strlen arg;
    current ← (if 0 <? size then sdscatlen current arg size else Ok current);
    Ok (c, current, ap)
  else if bool_decide (c1 = x62) then
    '(arg, ap) ← va_ptr ap;
    '(size, ap) ← va_size ap;
    current ← (if 0 <? size then sdscatlen current arg size else Ok current);
    Ok (c, current, ap)
  else if bool_decide (c1 = x25) then
    current ← sdscat current (cstr [x25]);
    Ok (c, current, ap)
  else
    p ← scan_conversion fmt (c + 1);
    b ← deref fmt p;
    '(c, current) ←
      (if negb (bool_decide (b = x00)) && bool_decide (b ∈ conversion_specifiers) then
         let l := p + 1 - c in
         if l <? 14 then
           text ← vformat (take (Z.to_nat l) (at_ptr fmt c)) ap;
           current ← sdscatvprintf current text;
           Ok (p - 1, current)
         else Ok (c, current)
       else Ok (c, current));
    ap ← va_skip ap;
    Ok (c, current, ap).

Fixpoint format_loop (fuel : nat) (fmt : list byte) (c : Z) (current : sdshdr) (touched : bool)
    (argv : list sdshdr) (totlen : Z) (ap : list va_word)
    : result (sdshdr * bool * list sdshdr * Z) :=
  match fuel with
  | O => Err NoFuel
  | S fuel =>
      c0 ← deref fmt c;
      if bool_decide (c0 = x00) then Ok (current, touched, argv, totlen)
      else
        literal ← (if bool_decide (c0 = x25)
                   then c1 ← deref fmt (c + 1); Ok (bool_decide (c1 = x00)) else Ok true);
        if (literal : bool) then
          if bool_decide (c0 = x20) then
            if touched then
              '(argv, totlen) ← addArgument current argv totlen;
              current ← sdsempty;
              format_loop fuel fmt (c + 1) current false argv totlen ap
            else format_loop fuel fmt (c + 1) current touched argv totlen ap
          else
            current ← sdscatlen current (at_ptr fmt c) 1;
            format_loop fuel fmt (c + 1) current true argv totlen ap
        else
          '(c, current, ap) ← format_directive fmt c current ap;
          format_loop fuel fmt (c + 1 + 1) current true argv totlen ap
  end.

(** ** Writing the command *)

(** [sprintf(cmd+pos, ...)]: the text and its terminator. *)
Definition sprintf_at (cmd : cells) (pos : Z) (text : list byte) : result (cells * Z) :=
  cmd ← blit cmd pos (Some <$> text ++ [x00]);
  Ok (cmd, i32 (pos + zlen text)).

(** One argument, [len] bytes of [arg]: the header, the bytes, CR LF. *)
Definition write_argument (cmd : cells) (pos : Z) (arg : cells) (len : Z) : result (cells * Z) :=
  '(cmd, pos) ← sprintf_at cmd pos (x24 :: print_u len ++ [x0d; x0a]);
  cmd ← (if len <=? zlen arg then blit cmd pos (take (Z.to_nat len) arg) else Err Undefined);
  let pos := i32 (u32 (pos + len)) in
  cmd ← poke cmd pos x0d;
  let pos := i32 (pos + 1) in
  cmd ← poke cmd pos x0a;
  Ok (cmd, i32 (pos + 1)).

Fixpoint write_arguments (cmd : cells) (pos : Z) (args : list (cells * Z)) : result (cells * Z) :=
  match args with
  | [] => Ok (cmd, pos)
  | (arg, len) :: args =>
      '(cmd, pos) ← write_argument cmd pos arg len;
      write_arguments cmd pos args
  end.

Definition write_command (totlen argc : Z) (args : list (cells * Z)) : result (Z * cells) :=
  let cmd := fresh_cells (u32 (totlen + 1)) in
  '(cmd, pos) ← sprintf_at cmd 0 (x2a :: print_d argc ++ [x0d; x0a]);
  '(cmd, pos) ← write_arguments cmd pos args;
  _ ← c_assert (pos =? totlen);
  cmd ← poke cmd totlen x00;
  Ok (totlen, cmd).

(** The result is the length and the block [*target] points to. *)
Definition redisvFormatCommand (format : list byte) (ap : list va_word) : result (Z * cells) :=
  current ← sdsempty;
  '(current, touched, argv, totlen) ←
    format_loop (S (length format)) format 0 current false [] 0 ap;
  '(argv, totlen) ← (if (touched : bool) then addArgument current argv totlen else Ok (argv, totlen));
  n ← intlen (zlen argv);
  totlen ← chk32 (totlen + (1 + n + 2));
  write_command totlen (zlen argv) (map (fun a => (sds_buf a, sdslen a)) argv).

Definition redisFormatCommand := redisvFormatCommand.

(** The length of an argument: given, or found with [strlen]. *)
Definition argument_length (argvlen : option (list Z)) (j : nat) (arg : list byte) : result Z :=
  match argvlen with
  | Some lens => n ← of_option Undefined (lens !! j); Ok (u32 n)
  | None => strlen arg
  end.

Fixpoint argument_lengths (argvlen : option (list Z)) (j : nat) (argv : list (list byte))
    : result (list Z) :=
  match argv with
  | [] => Ok []
  | arg :: argv =>
      n ← argument_length argvlen j arg;
      ns ← argument_lengths argvlen (S j) argv;
      Ok (n :: ns)
  end.

Fixpoint argv_totlen (totlen : Z) (lens : list Z) : result Z :=
  match lens with
  | [] => Ok totlen
  | len :: lens =>
      n ← intlen (i32 len);
      argv_totlen (i32 (u32 (totlen + (1 + n + 2 + len + 2)))) lens
  end.

Definition redisFormatCommandArgv (argv : list (list byte)) (argvlen : option (list Z))
    : result (Z * cells) :=
  let argc := zlen argv in
  n ← intlen argc;
  lens ← argument_lengths argvlen 0 argv;
  totlen ← argv_totlen (1 + n + 2) lens;
  write_command totlen argc (zip (map (fun a => Some <$> a) argv) lens).
End format.

(** ** The length of a command *)

Definition command_bytes (args : list (list byte)) : list byte := encode (RArray (map RString args)).

Lemma command_bytes_eq args :
  command_bytes args = [x2a] ++ print_u (zlen args) ++ crlf ++ concat (map encode_bulk args).
Proof.
  unfold command_bytes. cbn [encode]. rewrite (zlen_fmap (A := list byte)). do 3 f_equal.
  induction args as [|a args IH]; [done|]. cbn. by rewrite IH.
Qed.

Lemma zlen_encode_bulk v : zlen (encode_bulk v) = 1 + zlen (print_u (zlen v)) + 2 + zlen v + 2.
Proof. unfold encode_bulk, crlf. len_lia. Qed.

Lemma zlen_print_u_step i : 10 <= i -> zlen (print_u i) = zlen (print_u (i / 10)) + 1.
Proof. intros H. rewrite print_u_step by done. len_lia. Qed.

Lemma intlen_loop_spec : forall fuel len i,
  0 <= i < 10 ^ Z.of_nat fuel -> (0 < fuel)%nat ->
  intlen_loop fuel len i = Ok (len + zlen (print_u i)).
Proof.
  induction fuel as [|fuel IH]; intros len i Hi Hf; [lia|]. cbn [intlen_loop].
  rewrite Z.quot_div_nonneg by lia. destruct (Z.lt_ge_cases i 10).
  - rewrite Z.div_small by lia. rewrite print_u_small by lia. done.
  - assert (0 < i / 10) by (apply Z.div_str_pos; lia).
    rewrite (proj2 (Z.eqb_neq _ _)) by lia. rewrite IH.
    + rewrite (zlen_print_u_step i) by done. f_equal. lia.
    + rewrite Nat2Z.inj_succ, Z.pow_succ_r in Hi by lia. split; [lia|].
      apply Z.div_lt_upper_bound; lia.
    + destruct fuel; [|lia]. cbn in Hi. lia.
Qed.

Lemma intlen_spec i : 0 <= i < 2 ^ 31 -> intlen i = Ok (zlen (print_u i)).
Proof.
  intros Hi. unfold intlen. rewrite (proj2 (Z.ltb_ge _ _)) by lia.
  rewrite intlen_loop_spec; [done| |lia]. change (10 ^ Z.of_nat 10) with 10000000000. lia.
Qed.

Lemma addArgument_spec a v argv totlen :
  sds_rep a v -> 0 <= totlen -> totlen + zlen (encode_bulk v) < 2 ^ 31 ->
  addArgument a argv totlen = Ok (argv ++ [a], totlen + zlen (encode_bulk v)).
Proof.
  intros Ha Ht Hm. rewrite zlen_encode_bulk in *. unfold addArgument.
  rewrite (sdslen_rep _ _ Ha). pose proof (zlen_nonneg v). pose proof (zlen_nonneg (print_u (zlen v))).
  rewrite i32_small by lia. rewrite intlen_spec by lia. cbn [mbind result_bind].
  rewrite !chk32_ok by lia. cbn [mbind result_bind].
  rewrite !chk32_ok by lia. cbn [mbind result_bind].
  rewrite !chk32_ok by lia. cbn [mbind result_bind].
  rewrite u32_small, i32_small by lia. do 2 f_equal. lia.
Qed.

(** ** Writing *)

(** [cmd] is a block of [n] cells that starts with [pre]. *)
Definition written (cmd : cells) (n : Z) (pre : list byte) : Prop :=
  exists rest, cmd = (Some <$> pre) ++ rest /\ zlen cmd = n.

Lemma blit_written cmd n pre text :
  written cmd n pre -> zlen pre + zlen text <= n ->
  exists cmd', blit cmd (zlen pre) (Some <$> text) = Ok cmd' /\ written cmd' n (pre ++ text).
Proof.
  intros (rest & -> & Hn) Hm. rewrite blit_app by len_lia. eexists. split; [done|].
  rewrite zlen_app, zlen_fmap in Hn.
  eexists. rewrite fmap_app, <- app_assoc. split; [done|]. len_lia.
Qed.

(** Text that overwrites what follows it. *)
Lemma written_shorten cmd n pre t : written cmd n (pre ++ t) -> written cmd n pre.
Proof.
  intros (rest & -> & Hn). exists ((Some <$> t) ++ rest). split; [|done].
  by rewrite fmap_app, <- app_assoc.
Qed.

Lemma sprintf_at_spec cmd n pre text :
  written cmd n pre -> zlen pre + zlen text + 1 <= n -> n <= 2 ^ 31 ->
  exists cmd', sprintf_at cmd (zlen pre) text = Ok (cmd', zlen (pre ++ text)) /\
    written cmd' n (pre ++ text).
Proof.
  intros Hw Hm Hn. unfold sprintf_at.
  destruct (blit_written cmd n pre (text ++ [x00]) Hw) as (cmd' & -> & Hw'); [len_lia|].
  cbn [mbind result_bind]. pose proof (zlen_nonneg pre). pose proof (zlen_nonneg text).
  rewrite i32_small by lia. rewrite zlen_app. exists cmd'. split; [done|].
  rewrite app_assoc in Hw'. by apply written_shorten in Hw'.
Qed.

Lemma poke_written cmd n pre b :
  written cmd n pre -> zlen pre + 1 <= n ->
  exists cmd', poke cmd (zlen pre) b = Ok cmd' /\ written cmd' n (pre ++ [b]).
Proof. intros Hw Hm. by apply (blit_written cmd n pre [b]). Qed.

Lemma write_argument_spec cmd n pre arg v :
  written cmd n pre -> zlen pre + zlen (encode_bulk v) + 1 <= n -> n <= 2 ^ 31 ->
  (exists rest, arg = (Some <$> v) ++ rest) ->
  exists cmd', write_argument cmd (zlen pre) arg (zlen v) = Ok (cmd', zlen (pre ++ encode_bulk v)) /\
    written cmd' n (pre ++ encode_bulk v).
Proof.
  intros Hw Hm Hn [rest ->]. rewrite zlen_encode_bulk in Hm. unfold write_argument.
  pose proof (zlen_nonneg pre). pose proof (zlen_nonneg v).
  pose proof (zlen_nonneg (print_u (zlen v))). pose proof (zlen_nonneg rest).
  destruct (sprintf_at_spec cmd n pre (x24 :: print_u (zlen v) ++ [x0d; x0a]) Hw)
    as (c1 & -> & Hw1); [len_lia|done|]. cbn [mbind result_bind].
  set (p1 := pre ++ x24 :: print_u (zlen v) ++ [x0d; x0a]) in *.
  assert (Hp1 : zlen p1 = zlen pre + 1 + zlen (print_u (zlen v)) + 2) by (unfold p1; len_lia).
  rewrite (proj2 (Z.leb_le _ _)) by len_lia.
  rewrite to_nat_zlen. replace (length v) with (length (Some <$> v)) by len_lia.
  rewrite take_app_length.
  destruct (blit_written c1 n p1 v Hw1) as (c2 & -> & Hw2); [lia|]. cbn [mbind result_bind].
  rewrite (u32_small (zlen p1 + zlen v)), (i32_small (zlen p1 + zlen v)) by lia. rewrite <- zlen_app.
  destruct (poke_written c2 n (p1 ++ v) x0d Hw2) as (c3 & -> & Hw3); [rewrite zlen_app; lia|].
  cbn [mbind result_bind].
  replace (i32 (zlen (p1 ++ v) + 1)) with (zlen ((p1 ++ v) ++ [x0d]))
    by (rewrite i32_small; rewrite !zlen_app; change (zlen [x0d]) with 1; lia).
  destruct (poke_written c3 n _ x0a Hw3) as (c4 & -> & Hw4);
    [rewrite !zlen_app; change (zlen [x0d]) with 1; lia|].
  cbn [mbind result_bind].
  assert (Heq : ((p1 ++ v) ++ [x0d]) ++ [x0a] = pre ++ encode_bulk v).
  { unfold p1, encode_bulk, crlf. rewrite <- !app_assoc. cbn. by rewrite <- !app_assoc. }
  rewrite Heq in Hw4. exists c4. split; [|done]. rewrite <- Heq. do 2 f_equal.
  rewrite i32_small; rewrite !zlen_app; change (zlen [x0d]) with 1; change (zlen [x0a]) with 1; lia.
Qed.

Definition holds_value (a : cells * Z) (v : list byte) : Prop :=
  a.2 = zlen v /\ exists rest, a.1 = (Some <$> v) ++ rest.

Lemma write_arguments_spec n : forall args vs cmd pre,
  Forall2 holds_value args vs ->
  written cmd n pre -> zlen pre + zlen (concat (map encode_bulk vs)) + 1 <= n -> n <= 2 ^ 31 ->
  exists cmd', write_arguments cmd (zlen pre) args
      = Ok (cmd', zlen (pre ++ concat (map encode_bulk vs))) /\
    written cmd' n (pre ++ concat (map encode_bulk vs)).
Proof.
  intros args vs cmd pre H. revert cmd pre.
  induction H as [|[arg len] v args vs [Hlen Hcells] H IH]; intros cmd pre Hw Hm Hn;
    cbn [map concat write_arguments] in *.
  - exists cmd. by rewrite app_nil_r.
  - cbn in Hlen, Hcells. subst len. rewrite zlen_app in Hm.
    pose proof (zlen_nonneg (concat (map encode_bulk vs))).
    destruct (write_argument_spec cmd n pre arg v Hw) as (c1 & -> & Hw1); [lia|done|done|].
    cbn [mbind result_bind].
    destruct (IH c1 _ Hw1) as (c2 & -> & Hw2); [rewrite zlen_app; lia|done|].
    exists c2. by rewrite <- app_assoc in *.
Qed.

Lemma zlen_command args :
  zlen (command_bytes args) =
    1 + zlen (print_u (zlen args)) + 2 + zlen (concat (map encode_bulk args)).
Proof. rewrite command_bytes_eq. unfold crlf. len_lia. Qed.

Lemma write_command_spec args vs :
  Forall2 holds_value args vs -> zlen (command_bytes vs) < 2 ^ 31 - 1 ->
  write_command (zlen (command_bytes vs)) (zlen vs) args =
    Ok (zlen (command_bytes vs), Some <$> (command_bytes vs ++ [x00])).
Proof.
  intros Ha Hm. unfold write_command. pose proof (zlen_nonneg vs).
  pose proof (zlen_nonneg (command_bytes vs)).
  rewrite u32_small by lia. set (n := zlen (command_bytes vs) + 1).
  assert (Hw0 : written (fresh_cells n) n []).
  { exists (fresh_cells n). split; [done|]. unfold fresh_cells, n. len_lia. }
  rewrite print_d_pos by done.
  pose proof (zlen_command vs) as Hlen. pose proof (zlen_nonneg (concat (map encode_bulk vs))).
  destruct (sprintf_at_spec (fresh_cells n) n [] (x2a :: print_u (zlen vs) ++ [x0d; x0a]) Hw0)
    as (c1 & E1 & Hw1); [unfold n; len_lia|unfold n; lia|].
  rewrite zlen_nil in E1. rewrite E1. cbn [mbind result_bind].
  destruct (write_arguments_spec n args vs c1 _ Ha Hw1) as (c2 & -> & Hw2);
    [unfold n; len_lia|unfold n; lia|]. cbn [mbind result_bind].
  assert (Heq : ([] ++ x2a :: print_u (zlen vs) ++ [x0d; x0a]) ++ concat (map encode_bulk vs)
                = command_bytes vs).
  { rewrite command_bytes_eq. cbn. by rewrite <- app_assoc. }
  rewrite Heq in *. rewrite c_assert_true by lia. cbn [mbind result_bind].
  destruct (poke_written c2 n _ x00 Hw2) as (c3 & -> & (rest & -> & Hl)); [unfold n; lia|].
  cbn [mbind result_bind]. destruct rest as [|c rest]; [by rewrite app_nil_r|].
  unfold n in Hl. len_lia.
Qed.

(** ** A command given as a vector *)

(** The bytes of one argument: the given length, or up to the NUL. *)
Definition argument_value (len : option Z) (arg v : list byte) : Prop :=
  match len with
  | Some n => n = zlen v /\ exists t, arg = v ++ t
  | None => (x00 ∉ v) /\ exists t, arg = v ++ x00 :: t
  end.

Definition argument_values (argvlen : option (list Z)) (argv vs : list (list byte)) : Prop :=
  match argvlen with
  | Some lens => Forall3 (fun n => argument_value (Some n)) lens argv vs
  | None => Forall2 (argument_value None) argv vs
  end.

Lemma argument_lengths_spec pre : forall argvlen argv vs,
  argument_values argvlen argv vs -> Forall (fun v => zlen v < 2 ^ 31) vs ->
  argument_lengths (app pre <$> argvlen) (length pre) argv = Ok (map zlen vs).
Proof.
  intros [lens|] argv vs; cbn [argument_values fmap option_fmap option_map].
  - intros H. revert pre. induction H as [|n arg v lens argv vs [-> _] H IH]; intros pre Hm; [done|].
    inversion Hm; subst. cbn [argument_lengths argument_length].
    rewrite list_lookup_middle by done. cbn [of_option mbind result_bind].
    rewrite u32_small by (pose proof (zlen_nonneg v); lia).
    specialize (IH (pre ++ [zlen v])). rewrite <- app_assoc, length_app, Nat.add_1_r in IH.
    cbn [app] in IH. rewrite IH by done. done.
  - intros H. generalize (length pre). clear pre.
    induction H as [|arg v argv vs [H0 [t ->]] H IH]; intros j Hm; [done|].
    inversion Hm; subst. cbn [argument_lengths argument_length].
    rewrite strlen_cstr by done. cbn [mbind result_bind]. by rewrite IH.
Qed.

Lemma argv_totlen_spec : forall vs totlen,
  0 <= totlen -> totlen + zlen (concat (map encode_bulk vs)) < 2 ^ 31 ->
  argv_totlen totlen (map zlen vs) = Ok (totlen + zlen (concat (map encode_bulk vs))).
Proof.
  induction vs as [|v vs IH]; intros totlen Ht Hm; cbn [map concat argv_totlen] in *.
  - f_equal. rewrite zlen_nil. lia.
  - rewrite zlen_app, zlen_encode_bulk in *. pose proof (zlen_nonneg v).
    pose proof (zlen_nonneg (print_u (zlen v))). pose proof (zlen_nonneg (concat (map encode_bulk vs))).
    rewrite (i32_small (zlen v)) by lia. rewrite intlen_spec by lia. cbn [mbind result_bind].
    rewrite (u32_small (totlen + _)), (i32_small (totlen + _)) by lia.
    rewrite IH by lia. f_equal. lia.
Qed.

Lemma argument_values_holds argvlen argv vs :
  argument_values argvlen argv vs ->
  Forall2 holds_value (zip (map (fun a => Some <$> a) argv) (map zlen vs)) vs.
Proof.
  destruct argvlen as [lens|]; cbn; intros H.
  - induction H as [|n arg v lens argv vs [_ [t ->]] H IH]; cbn; constructor; [|done].
    split; [done|]. exists (Some <$> t). by rewrite <- fmap_app.
  - induction H as [|arg v argv vs [_ [t ->]] H IH]; cbn; constructor; [|done].
    split; [done|]. exists (Some <$> x00 :: t). by rewrite <- fmap_app.
Qed.

Lemma argument_values_length argvlen argv vs :
  argument_values argvlen argv vs -> zlen argv = zlen vs.
Proof.
  destruct argvlen; cbn; intros H; [|apply Forall2_length in H; len_lia].
  pose proof (Forall3_length_lr _ _ _ _ H). pose proof (Forall3_length_lm _ _ _ _ H). len_lia.
Qed.

Lemma bulk_in_command v vs : v ∈ vs -> zlen v < zlen (concat (map encode_bulk vs)).
Proof.
  induction vs as [|w vs IH]; intros Hin; [by apply not_elem_of_nil in Hin|].
  cbn [map concat]. rewrite zlen_app, zlen_encode_bulk.
  pose proof (zlen_nonneg (concat (map encode_bulk vs))). pose proof (zlen_nonneg w).
  pose proof (zlen_nonneg (print_u (zlen w))).
  apply elem_of_cons in Hin as [->|Hin]; [lia|]. specialize (IH Hin). lia.
Qed.

Lemma command_bound vs :
  zlen (command_bytes vs) < 2 ^ 31 - 1 ->
  Forall (fun v => zlen v < 2 ^ 31) vs /\ zlen vs < 2 ^ 31.
Proof.
  intros Hm. rewrite zlen_command in Hm. pose proof (zlen_nonneg (print_u (zlen vs))). split.
  - apply Forall_forall. intros v Hv%bulk_in_command. lia.
  - assert (zlen vs <= zlen (concat (map encode_bulk vs))); [|lia]. clear.
    induction vs as [|v vs IH]; cbn [map concat]; [done|].
    rewrite zlen_cons, zlen_app, zlen_encode_bulk.
    pose proof (zlen_nonneg v). pose proof (zlen_nonneg (print_u (zlen v))). lia.
Qed.

Lemma redisFormatCommandArgv_spec argvlen argv vs :
  argument_values argvlen argv vs -> zlen (command_bytes vs) < 2 ^ 31 - 1 ->
  redisFormatCommandArgv argv argvlen =
    Ok (zlen (command_bytes vs), Some <$> (command_bytes vs ++ [x00])).
Proof.
  intros Ha Hm. destruct (command_bound vs Hm) as [Hv Hn]. unfold redisFormatCommandArgv.
  rewrite (argument_values_length _ _ _ Ha). pose proof (zlen_nonneg vs).
  rewrite intlen_spec by lia. cbn [mbind result_bind].
  pose proof (argument_lengths_spec [] argvlen argv vs Ha Hv) as El. cbn [length] in El.
  replace (app [] <$> argvlen) with argvlen in El by (by destruct argvlen). rewrite El.
  cbn [mbind result_bind]. pose proof (zlen_command vs) as Hlen.
  pose proof (zlen_nonneg (print_u (zlen vs))).
  rewrite argv_totlen_spec by lia. cbn [mbind result_bind].
  replace (1 + zlen (print_u (zlen vs)) + 2 + zlen (concat (map encode_bulk vs)))
    with (zlen (command_bytes vs)) by lia.
  by apply write_command_spec; [eapply argument_values_holds|].
Qed.
