(* ===== verification/FormatSpec.v ===== *)
(** * What the command formatter promises

    A format is words of literal characters and conversions, separated by
    spaces.  [redisvFormatCommand] turns every word into one argument, whatever
    bytes the interpolated values contain, and its output parses back to these
    arguments; [redisFormatCommandArgv] does the same for a vector. *)

From S2P Require Import Prelude Digits Sds SdsText Resp Format.

Inductive piece :=
| Lit (b : byte)
| Str (s : list byte)   (** [%s] *)
| Bin (s : list byte)   (** [%b] *)
| Percent               (** [%%] *)
| Dec (z : Z).          (** [%d] *)

Definition piece_text (p : piece) : list byte :=
  match p with
  | Lit b => [b]
  | Str _ => [x25; x73]
  | Bin _ => [x25; x62]
  | Percent => [x25; x25]
  | Dec _ => [x25; x64]
  end.

Definition piece_args (p : piece) : list va_word :=
  match p with
  | Str s => [WPtr (cstr s)]
  | Bin s => [WPtr s; WInt (zlen s)]
  | Dec z => [WInt z]
  | _ => []
  end.

Definition piece_value (p : piece) : list byte :=
  match p with
  | Lit b => [b]
  | Str s | Bin s => s
  | Percent => [x25]
  | Dec z => print_d (i32 z)
  end.

Definition piece_ok (p : piece) : Prop :=
  match p with
  | Lit b => b ∉ [x25; x20; x00]
  | Str s => x00 ∉ s
  | _ => True
  end.

Definition word_text (w : list piece) : list byte := concat (map piece_text w).
Definition word_args (w : list piece) : list va_word := concat (map piece_args w).
Definition word_value (w : list piece) : list byte := concat (map piece_value w).

(** A template: every word with the number of spaces behind it. *)
Abbreviation template := (list (list piece * nat)).

Definition template_text (t : template) : list byte :=
  concat (map (fun w => word_text w.1 ++ replicate w.2 x20) t).
Definition template_args (t : template) : list va_word := concat (map (fun w => word_args w.1) t).
Definition template_values (t : template) : list (list byte) := map (fun w => word_value w.1) t.

(** Words are not empty and are kept apart by a space; the last one need not be. *)
Fixpoint template_ok (t : template) : Prop :=
  match t with
  | [] => True
  | (w, n) :: t => w <> [] /\ Forall piece_ok w /\ (t <> [] -> (0 < n)%nat) /\ template_ok t
  end.

#[global] Instance piece_eq_dec : EqDecision piece.
Proof. solve_decision. Defined.

#[global] Instance piece_ok_dec p : Decision (piece_ok p).
Proof. destruct p; cbn; apply _. Defined.

#[global] Instance template_ok_dec t : Decision (template_ok t).
Proof. induction t as [|[w n] t IH]; cbn; apply _. Defined.

(** ** Decimal conversion *)

Lemma print_base_10 fuel : forall v,
  0 <= v -> print_base fuel 10 false v = print_fuel fuel v.
Proof.
  induction fuel as [|fuel IH]; intros v Hv; [done|]. cbn [print_base print_fuel].
  assert (Hd : forall d, d < 10 -> hex_char false d = digit d).
  { intros d Hd. unfold hex_char, digit. by rewrite (proj2 (Z.ltb_lt d 10)). }
  destruct (Z.ltb_spec v 10); [by rewrite Hd|].
  rewrite IH by (apply Z.div_pos; lia).
  rewrite Hd; [done|]. apply Z.mod_pos_bound. lia.
Qed.

Lemma print_base_u v : 0 <= v < 2 ^ 64 -> print_base 65 10 false v = print_u v.
Proof.
  intros Hv. rewrite print_base_10 by lia. unfold print_u. apply print_fuel_enough; [lia| |lia].
  assert (Z.log2 v < 64); [|lia].
  destruct (Z.eq_dec v 0) as [->|]; [done|]. apply Z.log2_lt_pow2; lia.
Qed.

Section spec.
Context (format_double : conversion -> Z -> Z -> list byte).

Lemma vformat_d z ap : vformat format_double [x25; x64] (WInt z :: ap) = Ok (print_d (i32 z)).
Proof.
  unfold vformat. cbn [tail parse_conversion take_flag].
  assert (E : parse_conversion [x64] = (Conversion false false false false false 0 None [] x64, []))
    by reflexivity.
  rewrite E. cbn [cv_spec]. rewrite bool_decide_eq_true_2 by (by left).
  change (int_argument (Conversion false false false false false 0 None [] x64) true (WInt z :: ap))
    with (@Ok Z (i32 z)). cbn [mbind result_bind].
  pose proof (wrapS_range 32 z ltac:(lia)) as Hr. change (2 ^ (32 - 1)) with (2 ^ 31) in Hr.
  unfold format_int. cbn [cv_prec cv_alt cv_plus cv_space cv_width cv_left cv_zero].
  rewrite (bool_decide_eq_false_2 (None = Some 0)) by done. rewrite andb_false_r.
  rewrite print_base_u by lia. pose proof (zlen_nonneg (print_u (Z.abs (i32 z)))).
  cbn [default andb app]. rewrite !andb_false_r. cbn match.
  rewrite (Z2Nat.nonpos (0 - zlen (print_u _))) by lia. cbn [replicate app].
  unfold print_d. change (10 =? 16) with false. cbn [andb].
  destruct (Z.ltb_spec (i32 z) 0) as [Hneg|Hpos]; rewrite Z2Nat.nonpos by len_lia; cbn [replicate app].
  - by rewrite Z.abs_neq by lia.
  - by rewrite Z.abs_eq by lia.
Qed.

(** ** One piece, one word, one template *)

Lemma string_piece current v (s extra : list byte) :
  sds_rep current v -> zlen v + zlen s <= sds_max ->
  exists current', (if 0 <? zlen s then sdscatlen current (s ++ extra) (zlen s) else Ok current)
      = Ok current' /\ sds_rep current' (v ++ s).
Proof.
  intros Hc Hm. destruct (Z.ltb_spec 0 (zlen s)).
  - destruct (sdscatlen_spec current v (s ++ extra) (zlen s) Hc) as (c' & -> & Hc'); [len_lia|lia|].
    rewrite to_nat_zlen, take_app_length in Hc'. eauto.
  - destruct s; [|len_lia]. rewrite app_nil_r. eauto.
Qed.

Lemma scan_d fmt c g :
  0 <= c -> drop (Z.to_nat c) fmt = x64 :: g -> scan_conversion fmt c = Ok c.
Proof.
  intros Hc E. pose proof (deref_drop _ _ _ _ Hc E) as Hd. unfold scan_conversion, skip_if.
  cbn [skip_digits]. change (isdigit x64) with false.
  repeat first [progress cbn [mbind result_bind] | rewrite Hd | rewrite andb_false_r
               | rewrite (bool_decide_eq_false_2 (x64 = _)) by done].
  done.
Qed.

Lemma directive_piece p fmt c g current v ap :
  match p with Lit _ => False | _ => True end ->
  piece_ok p -> 0 <= c -> drop (Z.to_nat c) fmt = piece_text p ++ g ->
  sds_rep current v -> zlen v + zlen (piece_value p) <= sds_max ->
  exists current', format_directive format_double fmt c current (piece_args p ++ ap)
      = Ok (c, current', ap) /\ sds_rep current' (v ++ piece_value p).
Proof.
  intros Hp Hok Hc E Hcur Hm.
  assert (E1 : exists b, drop (Z.to_nat (c + 1)) fmt = b :: g /\ piece_text p = [x25; b]).
  { destruct p; [done|..]; eexists; (split; [|reflexivity]);
      (eapply drop_next; [exact Hc|exact E]). }
  destruct E1 as (b & E1 & Hb). unfold format_directive.
  rewrite (deref_drop fmt (c + 1) _ g ltac:(lia) E1). cbn [mbind result_bind].
  destruct p as [l|s|s| |z]; [done|..]; cbn in Hb; injection Hb as <-; cbn [piece_args app va_ptr va_size piece_value].
  - rewrite (bool_decide_eq_true_2 (x73 = _)) by done. cbn [mbind result_bind].
    unfold cstr. rewrite strlen_cstr by done. cbn [mbind result_bind].
    destruct (string_piece current v s [x00] Hcur Hm) as (c' & -> & Hc'). cbn. eauto.
  - rewrite (bool_decide_eq_false_2 (x62 = x73)), (bool_decide_eq_true_2 (x62 = _)) by done.
    cbn [mbind result_bind va_size]. cbn [piece_value] in Hm. pose proof (zlen_nonneg s). pose proof (zlen_nonneg v).
    rewrite u32_small by sds_lia.
    destruct (string_piece current v s [] Hcur Hm) as (c' & Ec & Hc'). rewrite app_nil_r in Ec.
    rewrite Ec. cbn. eauto.
  - rewrite !(bool_decide_eq_false_2 (x25 = _)) by done. rewrite bool_decide_eq_true_2 by done.
    destruct (sdscat_spec current v [x25] [] Hcur) as (c' & Ec & Hc'); [by apply (bool_decide_unpack _)|done|].
    unfold cstr. cbn [app] in *. rewrite Ec. cbn. eauto.
  - rewrite !(bool_decide_eq_false_2 (x64 = _)) by done.
    rewrite (scan_d fmt (c + 1) g) by (lia || done). cbn [mbind result_bind].
    rewrite (deref_drop fmt (c + 1) _ g ltac:(lia) E1). cbn [mbind result_bind].
    rewrite (bool_decide_eq_true_2 (x64 ∈ _)) by (by apply (bool_decide_unpack _)).
    change (negb (bool_decide (x64 = x00)) && true) with true. cbn match.
    replace (c + 1 + 1 - c) with 2 by lia. change (2 <? 14) with true. cbn match.
    unfold at_ptr. rewrite E. cbn [piece_text app]. change (Z.to_nat 2) with 2%nat.
    cbn [take]. rewrite take_0, vformat_d. cbn [mbind result_bind].
    destruct (sdscatprintf_spec current v (print_d (i32 z)) Hcur) as (c' & Ec & Hc');
      [by apply print_d_no|done|].
    unfold sdscatprintf in Ec. rewrite Ec. cbn [mbind result_bind va_skip].
    replace (c + 1 - 1) with c by lia. eauto.
Qed.
Abbreviation loop := (format_loop format_double).

Lemma loop_piece p fmt c g fuel current touched v argv totlen ap :
  piece_ok p -> 0 <= c -> drop (Z.to_nat c) fmt = piece_text p ++ g ->
  sds_rep current v -> zlen v + zlen (piece_value p) <= sds_max ->
  exists current',
    loop (S fuel) fmt c current touched argv totlen (piece_args p ++ ap) =
      loop fuel fmt (c + zlen (piece_text p)) current' true argv totlen ap /\
    sds_rep current' (v ++ piece_value p).
Proof.
  intros Hok Hc E Hcur Hm. assert (Hl : (exists b, p = Lit b) \/ match p with Lit _ => False | _ => True end)
    by (destruct p; eauto). destruct Hl as [[b ->]|Hlit].
  - cbn [piece_ok piece_text piece_args piece_value app] in *. cbn [format_loop].
    rewrite !not_elem_of_cons in Hok. destruct Hok as (H1 & H2 & H3 & _).
    rewrite (deref_drop _ _ _ _ Hc E). cbn [mbind result_bind].
    rewrite !bool_decide_eq_false_2 by done. cbn [mbind result_bind]. unfold at_ptr. rewrite E.
    destruct (sdscatlen_spec current v (b :: g) 1 Hcur) as (c' & -> & Hc'); [len_lia|done|].
    cbn [mbind result_bind]. change (zlen [b]) with 1.
    change (take (Z.to_nat 1) (b :: g)) with (b :: take 0 g) in Hc'. rewrite take_0 in Hc'. eauto.
  - destruct (directive_piece p fmt c g current v ap Hlit Hok Hc E Hcur Hm) as (c' & Ed & Hc').
    assert (Et : exists b, piece_text p = [x25; b] /\ b <> x00) by (destruct p; [done|..]; eauto; by eexists).
    destruct Et as (b & Et & Hb). rewrite Et in *. cbn [app] in E. cbn [format_loop].
    rewrite (deref_drop _ _ _ _ Hc E). cbn [mbind result_bind].
    rewrite (bool_decide_eq_false_2 (x25 = x00)), (bool_decide_eq_true_2 (x25 = x25)) by done.
    rewrite (deref_drop fmt (c + 1) b g ltac:(lia) (drop_next _ _ _ _ Hc E)).
    cbn [mbind result_bind]. rewrite (bool_decide_eq_false_2 (b = x00)) by done.
    rewrite Ed. cbn [mbind result_bind]. change (zlen [x25; b]) with 2.
    replace (c + 1 + 1) with (c + 2) by lia. eauto.
Qed.

Lemma loop_word : forall w fmt c g fuel current touched v argv totlen ap,
  Forall piece_ok w -> 0 <= c -> drop (Z.to_nat c) fmt = word_text w ++ g ->
  sds_rep current v -> zlen v + zlen (word_value w) <= sds_max ->
  exists current',
    loop (length w + fuel) fmt c current touched argv totlen (word_args w ++ ap) =
      loop fuel fmt (c + zlen (word_text w)) current' (touched || negb (bool_decide (w = [])))
        argv totlen ap /\
    sds_rep current' (v ++ word_value w) /\
    drop (Z.to_nat (c + zlen (word_text w))) fmt = g.
Proof.
  induction w as [|p w IH]; intros fmt c g fuel current touched v argv totlen ap Hok Hc E Hcur Hm.
  - exists current. rewrite app_nil_r. cbn. rewrite Z.add_0_r, orb_false_r. done.
  - inversion Hok as [|? ? Hp Hw]; subst. cbn [word_text word_value word_args map concat length Nat.add] in *.
    fold (word_text w) (word_args w) (word_value w) in *. rewrite <- !app_assoc in *.
    rewrite !zlen_app in *. pose proof (zlen_nonneg (word_value w)).
    pose proof (zlen_nonneg (piece_text p)).
    destruct (loop_piece p fmt c _ (length w + fuel) current touched v argv totlen (word_args w ++ ap)
                Hp Hc E Hcur) as (c1 & -> & Hc1); [lia|].
    assert (E1 : drop (Z.to_nat (c + zlen (piece_text p))) fmt = word_text w ++ g).
    { rewrite Z2Nat.inj_add, to_nat_zlen by lia. rewrite <- drop_drop, E. by rewrite drop_app_length. }
    destruct (IH fmt (c + zlen (piece_text p)) g fuel c1 true (v ++ piece_value p)
                argv totlen ap Hw) as (c2 & -> & Hc2 & E2);
      [lia|done|done|rewrite zlen_app; lia|].
    exists c2. rewrite app_assoc, Z.add_assoc. split; [|done].
    rewrite (bool_decide_eq_false_2 (p :: w = [])) by done. by rewrite orb_true_r.
Qed.

(** Spaces after nothing are skipped. *)
Lemma loop_blanks n : forall fmt c g fuel current argv totlen ap,
  0 <= c -> drop (Z.to_nat c) fmt = replicate n x20 ++ g ->
  loop (n + fuel) fmt c current false argv totlen ap =
    loop fuel fmt (c + Z.of_nat n) current false argv totlen ap.
Proof.
  induction n as [|n IH]; intros fmt c g fuel current argv totlen ap Hc E.
  - by rewrite Z.add_0_r.
  - cbn [replicate app Nat.add format_loop] in *. rewrite (deref_drop _ _ _ _ Hc E).
    cbn [mbind result_bind]. rewrite (bool_decide_eq_false_2 (x20 = x00)), (bool_decide_eq_false_2 (x20 = x25)) by done.
    cbn [mbind result_bind]. rewrite (bool_decide_eq_true_2 (x20 = x20)) by done.
    rewrite (IH fmt (c + 1) g) by (lia || by eapply drop_next). f_equal. lia.
Qed.

(** The first space after a word adds the argument. *)
Lemma loop_spaces n fmt c g fuel current v argv totlen ap :
  0 <= c -> drop (Z.to_nat c) fmt = replicate n x20 ++ g -> (0 < n)%nat ->
  sds_rep current v -> 0 <= totlen -> totlen + zlen (encode_bulk v) < 2 ^ 31 ->
  exists empty, sds_rep empty [] /\
    loop (n + fuel) fmt c current true argv totlen ap =
      loop fuel fmt (c + Z.of_nat n) empty false (argv ++ [current]) (totlen + zlen (encode_bulk v)) ap.
Proof.
  intros Hc E Hn Hcur Ht Hm. destruct n as [|n]; [lia|].
  destruct sdsempty_spec as (e & Ee & He). exists e. split; [done|].
  cbn [replicate app Nat.add format_loop] in *. rewrite (deref_drop _ _ _ _ Hc E).
  cbn [mbind result_bind]. rewrite (bool_decide_eq_false_2 (x20 = x00)), (bool_decide_eq_false_2 (x20 = x25)) by done.
  cbn [mbind result_bind]. rewrite (bool_decide_eq_true_2 (x20 = x20)) by done.
  rewrite (addArgument_spec current v) by done. cbn [mbind result_bind]. rewrite Ee.
  cbn [mbind result_bind].
  rewrite (loop_blanks n fmt (c + 1) g) by (lia || by eapply drop_next). f_equal. lia.
Qed.
Definition template_rounds (t : template) : nat := sum_list_with (fun w => length w.1 + w.2)%nat t.

Abbreviation bulks vs := (zlen (concat (map encode_bulk vs))).

Lemma bulks_app vs ws : bulks (vs ++ ws) = bulks vs + bulks ws.
Proof. by rewrite map_app, concat_app, zlen_app. Qed.

Lemma bulks_cons v vs : bulks (v :: vs) = zlen (encode_bulk v) + bulks vs.
Proof. apply zlen_app. Qed.

(** What the loop leaves: the arguments finished, and the one in progress. *)
Definition collected (res : result (sdshdr * bool * list sdshdr * Z)) (vs : list (list byte)) : Prop :=
  exists current v touched argv ws, res = Ok (current, touched, argv, bulks ws) /\
    Forall2 sds_rep argv ws /\ sds_rep current v /\ vs = ws ++ (if (touched : bool) then [v] else []).

Lemma loop_end fmt c g fuel current v touched argv ws totlen ap :
  0 <= c -> drop (Z.to_nat c) fmt = x00 :: g ->
  Forall2 sds_rep argv ws -> sds_rep current v -> totlen = bulks ws ->
  collected (loop (S fuel) fmt c current touched argv totlen ap)
    (ws ++ (if (touched : bool) then [v] else [])).
Proof.
  intros Hc E Ha Hcur ->. cbn [format_loop]. rewrite (deref_drop _ _ _ _ Hc E).
  cbn [mbind result_bind]. rewrite (bool_decide_eq_true_2 (x00 = x00)) by done.
  exists current, v, touched, argv, ws. done.
Qed.

Lemma loop_template tail : forall t fmt c fuel current argv ws ap,
  template_ok t -> 0 <= c -> drop (Z.to_nat c) fmt = template_text t ++ x00 :: tail ->
  sds_rep current [] -> Forall2 sds_rep argv ws -> bulks (ws ++ template_values t) <= sds_max ->
  collected (loop (template_rounds t + S fuel) fmt c current false argv (bulks ws)
               (template_args t ++ ap)) (ws ++ template_values t).
Proof.
  induction t as [|[w n] t IH]; intros fmt c fuel current argv ws ap Hok Hc E Hcur Ha Hm.
  { apply (loop_end fmt c tail fuel current [] false argv ws); done. }
  destruct Hok as (Hne & Hw & Hn & Hok).
  cbn [template_rounds sum_list_with template_text template_args template_values map concat fst snd] in *.
  fold (template_rounds t) (template_text t) (template_args t) (template_values t) in *.
  rewrite <- !app_assoc in *. rewrite bulks_app, bulks_cons, zlen_encode_bulk in Hm.
  pose proof (zlen_nonneg (concat (map encode_bulk (template_values t)))).
  pose proof (zlen_nonneg (concat (map encode_bulk ws))). pose proof (zlen_nonneg (word_text w)).
  pose proof (zlen_nonneg (print_u (zlen (word_value w)))). pose proof (zlen_nonneg (word_value w)).
  rewrite <- !Nat.add_assoc.
  destruct (loop_word w fmt c _ (n + (template_rounds t + S fuel)) current false [] argv (bulks ws)
              (template_args t ++ ap) Hw Hc E Hcur) as (c1 & -> & Hc1 & E1); [rewrite zlen_nil; lia|].
  rewrite (bool_decide_eq_false_2 (w = [])) by done. cbn [negb orb app] in *.
  destruct n as [|n].
  - destruct t as [|w' t]; [|specialize (Hn ltac:(done)); lia].
    apply (loop_end fmt (c + zlen (word_text w)) tail fuel c1 (word_value w) true argv ws); try done. lia.
  - destruct (loop_spaces (S n) fmt (c + zlen (word_text w)) (template_text t ++ x00 :: tail)
                (template_rounds t + S fuel) c1 (word_value w) argv
                (bulks ws) (template_args t ++ ap)) as (e & He & ->);
      [lia|exact E1|lia|done|lia|rewrite zlen_encode_bulk; sds_lia|].
    replace (bulks ws + zlen (encode_bulk (word_value w))) with (bulks (ws ++ [word_value w]))
      by (rewrite bulks_app, bulks_cons; change (bulks []) with 0; lia).
    replace (ws ++ word_value w :: template_values t) with ((ws ++ [word_value w]) ++ template_values t)
      by (by rewrite <- app_assoc).
    apply IH; [done|lia| |done| |].
    + rewrite Z2Nat.inj_add, Nat2Z.id by lia. rewrite <- drop_drop, E1.
      replace (S n) with (length (replicate (S n) x20)) at 1 by apply length_replicate.
      by rewrite drop_app_length.
    + apply Forall2_app; [done|]. by constructor.
    + rewrite <- app_assoc, bulks_app. cbn [app]. rewrite bulks_cons, zlen_encode_bulk. lia.
Qed.

Lemma word_rounds w : (length w <= length (word_text w))%nat.
Proof.
  induction w as [|p w IH]; [done|]. cbn [word_text map concat length]. fold (word_text w).
  rewrite length_app. destruct p; cbn; lia.
Qed.

Lemma template_rounds_le t : (template_rounds t <= length (template_text t))%nat.
Proof.
  induction t as [|[w n] t IH]; [done|]. cbn [template_rounds sum_list_with template_text map concat fst snd].
  fold (template_rounds t) (template_text t). rewrite !length_app, length_replicate.
  pose proof (word_rounds w). lia.
Qed.

Lemma redisvFormatCommand_spec lead t tail ap :
  template_ok t -> zlen (command_bytes (template_values t)) <= sds_max ->
  redisvFormatCommand format_double (replicate lead x20 ++ template_text t ++ x00 :: tail)
      (template_args t ++ ap) =
    Ok (zlen (command_bytes (template_values t)),
        Some <$> (command_bytes (template_values t) ++ [x00])).
Proof.
  intros Hok Hm. set (fmt := replicate lead x20 ++ template_text t ++ x00 :: tail).
  pose proof (zlen_command (template_values t)) as Hlen. set (vs := template_values t) in *.
  pose proof (zlen_nonneg (print_u (zlen vs))). pose proof (zlen_nonneg (concat (map encode_bulk vs))).
  destruct (command_bound vs ltac:(sds_lia)) as [Hb Hn].
  unfold redisvFormatCommand. destruct sdsempty_spec as (e & -> & He). cbn [mbind result_bind].
  pose proof (template_rounds_le t) as Hr.
  replace (S (length fmt)) with (lead + (template_rounds t + S (length fmt - lead - template_rounds t)))%nat
    by (unfold fmt; rewrite !length_app, length_replicate; cbn; lia).
  rewrite (loop_blanks lead fmt 0 (template_text t ++ x00 :: tail)) by done.
  destruct (loop_template tail t fmt (0 + Z.of_nat lead) (length fmt - lead - template_rounds t) e [] []
              ap Hok) as (cur & v & touched & argv & ws & E & Ha & Hcur & Hvs);
    [lia| |done|constructor|cbn [app]; fold vs; lia|].
  { unfold fmt. rewrite Z.add_0_l, Nat2Z.id.
    replace lead with (length (replicate lead x20)) at 1 by apply length_replicate.
    by rewrite drop_app_length. }
  change (bulks []) with 0 in E. rewrite E. cbn [mbind result_bind]. cbn [app] in Hvs. fold vs in Hvs.
  assert (Hlast : exists argv', (if touched then addArgument cur argv (bulks ws) else Ok (argv, bulks ws))
                    = Ok (argv', bulks vs) /\ Forall2 sds_rep argv' vs).
  { destruct touched; [|exists argv; by rewrite Hvs, app_nil_r].
    exists (argv ++ [cur]). assert (Hbs : bulks vs = bulks ws + zlen (encode_bulk v)).
    { rewrite Hvs, bulks_app, bulks_cons. change (bulks []) with 0. lia. }
    rewrite (addArgument_spec cur v) by (try done; try apply zlen_nonneg; sds_lia).
    rewrite Hbs. split; [done|]. rewrite Hvs. apply Forall2_app; [done|]. by constructor. }
  destruct Hlast as (argv' & -> & Ha'). cbn [mbind result_bind].
  assert (Hargc : zlen argv' = zlen vs) by (apply Forall2_length in Ha'; len_lia).
  pose proof (zlen_nonneg vs). rewrite Hargc, intlen_spec by lia. cbn [mbind result_bind].
  rewrite chk32_ok by sds_lia. cbn [mbind result_bind].
  replace (bulks vs + (1 + zlen (print_u (zlen vs)) + 2)) with (zlen (command_bytes vs)) by lia.
  apply write_command_spec; [|sds_lia].
  clear -Ha'. induction Ha' as [|a v argv vs (rest & -> & Hr) H IH]; cbn [map]; constructor; [|done].
  split; [by apply sdslen_make|]. by exists (Some x00 :: rest).
Qed.
End spec.

(** ** Properties *)

Lemma command_wf vs :
  zlen (command_bytes vs) <= sds_max -> wf_reply (RArray (map RString vs)).
Proof.
  intros Hm. destruct (command_bound vs ltac:(sds_lia)) as [Hb _].
  assert (Hn : zlen vs < 2 ^ 30).
  { rewrite zlen_command in Hm. pose proof (zlen_nonneg (print_u (zlen vs))).
    assert (zlen vs <= zlen (concat (map encode_bulk vs))); [|sds_lia]. clear.
    induction vs as [|v vs IH]; cbn [map concat]; [done|].
    rewrite zlen_cons, zlen_app, zlen_encode_bulk.
    pose proof (zlen_nonneg v). pose proof (zlen_nonneg (print_u (zlen v))). lia. }
  split; [rewrite (zlen_fmap (A := list byte)); done|]. clear -Hb.
  induction Hb; cbn; [done|]. split; [done|exact IHHb].
Qed.

Lemma parse_command vs rest :
  zlen (command_bytes vs) <= sds_max ->
  parse [] (command_bytes vs ++ rest) = Finished (RArray (map RString vs)) rest.
Proof.
  intros Hm. apply parse_encode_root; [by apply command_wf|].
  replace (reply_depth (RArray (map RString vs))) with 1%nat; [unfold max_nesting; lia|].
  cbn [reply_depth]. f_equal. clear. induction vs as [|v vs IH]; [done|]. cbn. by rewrite <- IH.
Qed.

(** C5: the command formatter splits a format into exactly the words of its
    template, whatever bytes the values of [%s], [%b] and [%d] hold: it returns
    the length and the wire format of these arguments, the assertion on the
    length holds, and a parser of the protocol reads the same arguments back. *)
Theorem format_arguments format_double lead t tail ap rest :
  template_ok t -> zlen (command_bytes (template_values t)) <= sds_max ->
  exists n cmd,
    redisFormatCommand format_double (replicate lead x20 ++ template_text t ++ x00 :: tail)
      (template_args t ++ ap) = Ok (n, Some <$> (cmd ++ [x00])) /\ n = zlen cmd /\
    parse [] (cmd ++ rest) = Finished (RArray (map RString (template_values t))) rest.
Proof.
  intros Hok Hm. exists (zlen (command_bytes (template_values t))), (command_bytes (template_values t)).
  split; [by apply redisvFormatCommand_spec|]. split; [done|]. by apply parse_command.
Qed.

Definition demo_template : template :=
  [(map Lit (bytes "SET"), 1%nat);
   (map Lit (bytes "user:") ++ [Dec (-7); Percent], 2%nat);
   ([Bin (bytes "two words" ++ crlf ++ bytes "*9")], 0%nat)].

Lemma format_arguments_witness :
  exists n cmd,
    redisFormatCommand (fun _ _ _ => []) (cstr (bytes "SET user:%d%%  %b"))
      [WInt (-7); WPtr (bytes "two words" ++ crlf ++ bytes "*9"); WInt 13]
      = Ok (n, Some <$> (cmd ++ [x00])) /\ n = zlen cmd /\
    parse [] (cmd ++ []) = Finished (RArray (map RString
      [bytes "SET"; bytes "user:-7%"; bytes "two words" ++ crlf ++ bytes "*9"])) [].
Proof.
  apply (format_arguments (fun _ _ _ => []) 0 demo_template [] [] []).
  - apply (bool_decide_unpack _). by vm_compute.
  - vm_compute. discriminate.
Defined.

(** [redisFormatCommandArgv] writes the wire format of the given values,
    their lengths given or found with [strlen], and its output parses back. *)
Theorem format_argv argvlen argv vs rest :
  argument_values argvlen argv vs -> zlen (command_bytes vs) <= sds_max ->
  redisFormatCommandArgv argv argvlen =
    Ok (zlen (command_bytes vs), Some <$> (command_bytes vs ++ [x00])) /\
  parse [] (command_bytes vs ++ rest) = Finished (RArray (map RString vs)) rest.
Proof.
  intros Ha Hm. split; [|by apply parse_command].
  apply redisFormatCommandArgv_spec; [done|sds_lia].
Qed.

Lemma format_argv_witness :
  redisFormatCommandArgv [cstr (bytes "GET"); cstr (bytes "key")] None =
    Ok (22, Some <$> (command_bytes [bytes "GET"; bytes "key"] ++ [x00])) /\
  parse [] (command_bytes [bytes "GET"; bytes "key"] ++ []) =
    Finished (RArray [RString (bytes "GET"); RString (bytes "key")]) [].
Proof.
  apply (format_argv None [cstr (bytes "GET"); cstr (bytes "key")] [bytes "GET"; bytes "key"] []).
  - repeat (apply List.Forall2_cons; [split; [apply (bool_decide_unpack _); by vm_compute|by exists []]|]).
    apply List.Forall2_nil.
  - vm_compute. discriminate.
Defined.

(** The two formatters agree: a format gives what the vector of its values
    gives. *)
Theorem format_equals_argv format_double lead t tail ap :
  template_ok t -> zlen (command_bytes (template_values t)) <= sds_max ->
  redisvFormatCommand format_double (replicate lead x20 ++ template_text t ++ x00 :: tail)
      (template_args t ++ ap) =
    redisFormatCommandArgv (template_values t) (Some (map zlen (template_values t))).
Proof.
  intros Hok Hm. rewrite redisvFormatCommand_spec by done. symmetry.
  apply redisFormatCommandArgv_spec; [|sds_lia]. cbn. clear.
  induction (template_values t) as [|v vs IH]; cbn; constructor; [|done].
  split; [done|]. exists []. by rewrite app_nil_r.
Qed.

Lemma format_equals_argv_witness :
  redisvFormatCommand (fun _ _ _ => []) (cstr (bytes "DEL %s")) [WPtr (cstr (bytes "a b"))] =
    redisFormatCommandArgv [bytes "DEL"; bytes "a b"] (Some [3; 3]).
Proof.
  apply (format_equals_argv (fun _ _ _ => []) 0
    [(map Lit (bytes "DEL"), 1%nat); ([Str (bytes "a b")], 0%nat)] [] []).
  - apply (bool_decide_unpack _). by vm_compute.
  - vm_compute. discriminate.
Defined.

(** A 64-bit conversion takes one word off the argument list although its
    argument is two: alone it prints the number, but a [%s] after it reads the
    high word as its pointer. *)
Example long_long_misaligns :
  redisvFormatCommand (fun _ _ _ => []) (cstr (bytes "EXPIREAT k %lld")) [WInt 7; WInt 1] =
    Ok (42, Some <$> (command_bytes [bytes "EXPIREAT"; bytes "k"; bytes "4294967303"] ++ [x00])) /\
  redisvFormatCommand (fun _ _ _ => []) (cstr (bytes "SET %lld %s"))
    [WInt 7; WInt 1; WPtr (cstr (bytes "v"))] = Err Undefined.
Proof. split; vm_compute; reflexivity. Qed.
