(* ===== verification/Dict.v ===== *)
(** * The chained hash table ([win32/hiredis/dict.c], [include/hiredis/dict.h])

    Entries live in a heap of their own, linked through [next]; the table holds
    the heads of the chains.  Keys and values are what the client stores; the
    functions of [dictType] may be NULL.  The calls of the destructors are kept
    as a trace. *)

From S2P Require Import Prelude.

Definition DICT_OK : Z := 0.
Definition DICT_ERR : Z := 1.
Definition DICT_HT_INITIAL_SIZE : Z := 4.

(** [hash = ((hash << 5) + hash) + *buf] for each byte, in [unsigned int]. *)
Fixpoint dictGenHash_loop (hash : Z) (buf : list byte) (len : nat) {struct len} : result Z :=
  match len with
  | O => Ok hash
  | S len =>
      match buf with
      | [] => Err Undefined
      | c :: buf =>
          dictGenHash_loop (u32 (u32 (u32 (Z.shiftl hash 5) + hash) + b2z c)) buf len
      end
  end.

(** [while (len--)] of a negative length runs out of the buffer. *)
Definition dictGenHashFunction (buf : list byte) (len : Z) : result Z :=
  if len <? 0 then Err Undefined else dictGenHash_loop 5381 buf (Z.to_nat len).

Section dict.
Context {K V : Type} `{!EqDecision K}.

Record dictEntry := DictEntry { de_key : K; de_val : V; de_next : option nat }.

Record dictType := DictType {
  hashFunction : K -> result Z;
  keyDup : option (K -> K);
  valDup : option (V -> V);
  keyCompare : option (K -> K -> bool);
  keyDestructor : bool;  (** is there one? *)
  valDestructor : bool
}.

(** What the destructors were called with. *)
Inductive destroyed := KeyDestroyed (k : K) | ValDestroyed (v : V).

Record dict := Dict {
  ht_table : option (list (option nat));
  ht_size : Z;
  ht_sizemask : Z;
  ht_used : Z;
  ht_entries : gmap nat dictEntry;  (** the entries allocated and not freed *)
  ht_fresh : nat;
  ht_trace : list destroyed
}.

Record dictIterator := DictIterator {
  it_index : Z;
  it_entry : option nat;
  it_nextEntry : option nat
}.

Context (type : dictType).

(** ** The macros of dict.h *)

Definition dictFreeEntryVal (e : dictEntry) (trace : list destroyed) : list destroyed :=
  if valDestructor type then trace ++ [ValDestroyed (de_val e)] else trace.
Definition dictFreeEntryKey (e : dictEntry) (trace : list destroyed) : list destroyed :=
  if keyDestructor type then trace ++ [KeyDestroyed (de_key e)] else trace.
Definition dictSetHashVal (v : V) : V := match valDup type with Some f => f v | None => v end.
Definition dictSetHashKey (k : K) : K := match keyDup type with Some f => f k | None => k end.
Definition dictCompareHashKeys (k1 k2 : K) : bool :=
  match keyCompare type with Some f => f k1 k2 | None => bool_decide (k1 = k2) end.

(** ** Memory *)

Definition load_entry (d : gmap nat dictEntry) (i : nat) : result dictEntry :=
  of_option Undefined (d !! i).

Definition table_get (t : option (list (option nat))) (i : Z) : result (option nat) :=
  match t with
  | Some t => if i <? 0 then Err Undefined else of_option Undefined (t !! Z.to_nat i)
  | None => Err Undefined
  end.

Definition table_put (t : option (list (option nat))) (i : Z) (p : option nat)
    : result (option (list (option nat))) :=
  match t with
  | Some t => if (0 <=? i) && (i <? zlen t) then Ok (Some (<[Z.to_nat i := p]> t)) else Err Undefined
  | None => Err Undefined
  end.

(** NULL when the size overflows [size_t]. *)
Definition calloc_table (n : Z) : option (list (option nat)) :=
  if 4 * n <? 2 ^ 32 then Some (replicate (Z.to_nat n) None) else None.

(** ** Creation and growth *)

Definition _dictReset (d : dict) : dict :=
  Dict None 0 0 0 (ht_entries d) (ht_fresh d) (ht_trace d).

Definition dictCreate : dict := _dictReset (Dict None 0 0 0 ∅ 0 []).

Fixpoint dictNextPower_loop (fuel : nat) (i size : Z) : result Z :=
  match fuel with
  | O => Err NoFuel
  | S fuel => if size <=? i then Ok i else dictNextPower_loop fuel (u32 (i * 2)) size
  end.

(** [LONG_MAX] is [2^31-1]. *)
Definition _dictNextPower (size : Z) : result Z :=
  if 2 ^ 31 - 1 <=? size then Ok (2 ^ 31 - 1)
  else dictNextPower_loop 32 DICT_HT_INITIAL_SIZE size.

(** The inner loop of [dictExpand]: move one chain into the new table. *)
Fixpoint rehash_chain (fuel : nat) (he : option nat) (table : option (list (option nat)))
    (sizemask used : Z) (entries : gmap nat dictEntry)
    : result (option (list (option nat)) * Z * gmap nat dictEntry) :=
  match he with
  | None => Ok (table, used, entries)
  | Some i =>
      match fuel with
      | O => Err NoFuel
      | S fuel =>
          e ← load_entry entries i;
          hash ← hashFunction type (de_key e);
          let h := Z.land hash sizemask in
          head ← table_get table h;
          let entries := <[i := DictEntry (de_key e) (de_val e) head]> entries in
          table ← table_put table h (Some i);
          rehash_chain fuel (de_next e) table sizemask (u32 (used - 1)) entries
      end
  end.

(** The outer loop, over [n] more slots from [i] on. *)
Fixpoint rehash_slots (n : nat) (i : Z) (old table : option (list (option nat)))
    (sizemask used : Z) (entries : gmap nat dictEntry)
    : result (option (list (option nat)) * Z * gmap nat dictEntry) :=
  match n with
  | O => Ok (table, used, entries)
  | S n =>
      if 0 <? used then
        he ← table_get old i;
        '(table, used, entries) ← rehash_chain (size entries) he table sizemask used entries;
        rehash_slots n (i + 1) old table sizemask used entries
      else Ok (table, used, entries)
  end.

Definition dictExpand (size : Z) (d : dict) : result (Z * dict) :=
  realsize ← _dictNextPower size;
  if size <? ht_used d then Ok (DICT_ERR, d)
  else
    let table := calloc_table realsize in
    '(table, used, entries) ←
      rehash_slots (Z.to_nat (ht_size d)) 0 (ht_table d) table (u32 (realsize - 1)) (ht_used d) (ht_entries d);
    _ ← c_assert (used =? 0);
    Ok (DICT_OK, Dict table realsize (u32 (realsize - 1)) (ht_used d) entries (ht_fresh d) (ht_trace d)).

Definition _dictExpandIfNeeded (d : dict) : result (Z * dict) :=
  if ht_size d =? 0 then dictExpand DICT_HT_INITIAL_SIZE d
  else if ht_used d =? ht_size d then dictExpand (u32 (ht_size d * 2)) d
  else Ok (DICT_OK, d).

(** ** Lookup *)

(** Walk a chain to the first entry with the key. *)
Fixpoint find_in_chain (fuel : nat) (he : option nat) (key : K) (entries : gmap nat dictEntry)
    : result (option nat) :=
  match he with
  | None => Ok None
  | Some i =>
      match fuel with
      | O => Err NoFuel
      | S fuel =>
          e ← load_entry entries i;
          if dictCompareHashKeys key (de_key e) then Ok (Some i)
          else find_in_chain fuel (de_next e) key entries
      end
  end.

Definition dictFind (key : K) (d : dict) : result (option nat) :=
  if ht_size d =? 0 then Ok None
  else
    hash ← hashFunction type key;
    he ← table_get (ht_table d) (Z.land hash (ht_sizemask d));
    find_in_chain (size (ht_entries d)) he key (ht_entries d).

(** The slot for a new key, [-1] when it exists already. *)
Definition _dictKeyIndex (key : K) (d : dict) : result (Z * dict) :=
  '(rc, d) ← _dictExpandIfNeeded d;
  if rc =? DICT_ERR then Ok (-1, d)
  else
    hash ← hashFunction type key;
    let h := Z.land hash (ht_sizemask d) in
    he ← table_get (ht_table d) h;
    found ← find_in_chain (size (ht_entries d)) he key (ht_entries d);
    match found with
    | Some _ => Ok (-1, d)
    | None => Ok (i32 h, d)
    end.

(** ** Updates *)

Definition dictAdd (key : K) (val : V) (d : dict) : result (Z * dict) :=
  '(index, d) ← _dictKeyIndex key d;
  if index =? -1 then Ok (DICT_ERR, d)
  else
    let entry := ht_fresh d in
    next ← table_get (ht_table d) index;
    table ← table_put (ht_table d) index (Some entry);
    let e := DictEntry (dictSetHashKey key) (dictSetHashVal val) next in
    Ok (DICT_OK, Dict table (ht_size d) (ht_sizemask d) (u32 (ht_used d + 1))
                   (<[entry := e]> (ht_entries d)) (S entry) (ht_trace d)).

(** [1]: added, [0]: the value of the existing entry was replaced. *)
Definition dictReplace (key : K) (val : V) (d : dict) : result (Z * dict) :=
  '(rc, d) ← dictAdd key val d;
  if rc =? DICT_OK then Ok (1, d)
  else
    entry ← dictFind key d;
    match entry with
    | None => Err Undefined
    | Some i =>
        auxentry ← load_entry (ht_entries d) i;
        let e := DictEntry (de_key auxentry) (dictSetHashVal val) (de_next auxentry) in
        Ok (0, Dict (ht_table d) (ht_size d) (ht_sizemask d) (ht_used d)
                 (<[i := e]> (ht_entries d)) (ht_fresh d) (dictFreeEntryVal auxentry (ht_trace d)))
    end.

(** The loop of [dictDelete]: unlink and free the entry with the key. *)
Fixpoint delete_in_chain (fuel : nat) (h : Z) (de prevde : option nat) (key : K) (d : dict)
    : result (Z * dict) :=
  match de with
  | None => Ok (DICT_ERR, d)
  | Some i =>
      match fuel with
      | O => Err NoFuel
      | S fuel =>
          e ← load_entry (ht_entries d) i;
          if dictCompareHashKeys key (de_key e) then
            '(table, entries) ←
              (match prevde with
               | Some p =>
                   pe ← load_entry (ht_entries d) p;
                   Ok (ht_table d, <[p := DictEntry (de_key pe) (de_val pe) (de_next e)]> (ht_entries d))
               | None =>
                   table ← table_put (ht_table d) h (de_next e);
                   Ok (table, ht_entries d)
               end);
            let trace := dictFreeEntryVal e (dictFreeEntryKey e (ht_trace d)) in
            Ok (DICT_OK, Dict table (ht_size d) (ht_sizemask d) (u32 (ht_used d - 1))
                           (delete i entries) (ht_fresh d) trace)
          else delete_in_chain fuel h (de_next e) de key d
      end
  end.

Definition dictDelete (key : K) (d : dict) : result (Z * dict) :=
  if ht_size d =? 0 then Ok (DICT_ERR, d)
  else
    hash ← hashFunction type key;
    let h := Z.land hash (ht_sizemask d) in
    de ← table_get (ht_table d) h;
    delete_in_chain (size (ht_entries d)) h de None key d.

(** ** Destruction *)

Fixpoint clear_chain (fuel : nat) (he : option nat) (d : dict) : result dict :=
  match he with
  | None => Ok d
  | Some i =>
      match fuel with
      | O => Err NoFuel
      | S fuel =>
          e ← load_entry (ht_entries d) i;
          let trace := dictFreeEntryVal e (dictFreeEntryKey e (ht_trace d)) in
          clear_chain fuel (de_next e)
            (Dict (ht_table d) (ht_size d) (ht_sizemask d) (u32 (ht_used d - 1))
               (delete i (ht_entries d)) (ht_fresh d) trace)
      end
  end.

Fixpoint clear_slots (n : nat) (i : Z) (d : dict) : result dict :=
  match n with
  | O => Ok d
  | S n =>
      if 0 <? ht_used d then
        he ← table_get (ht_table d) i;
        d ← clear_chain (size (ht_entries d)) he d;
        clear_slots n (i + 1) d
      else Ok d
  end.

Definition _dictClear (d : dict) : result dict :=
  d ← clear_slots (Z.to_nat (ht_size d)) 0 d;
  Ok (_dictReset d).

(** What is left after the table itself is freed. *)
Definition dictRelease (d : dict) : result (gmap nat dictEntry * list destroyed) :=
  d ← _dictClear d;
  Ok (ht_entries d, ht_trace d).

(** ** Iteration *)

Definition dictGetIterator : dictIterator := DictIterator (-1) None None.

Fixpoint dictNext_loop (fuel : nat) (it : dictIterator) (d : dict)
    : result (option nat * dictIterator) :=
  match fuel with
  | O => Err NoFuel
  | S fuel =>
      match it_entry it with
      | None =>
          let index := it_index it + 1 in
          if i32 (ht_size d) <=? index then Ok (None, DictIterator index None (it_nextEntry it))
          else
            entry ← table_get (ht_table d) index;
            match entry with
            | Some i =>
                e ← load_entry (ht_entries d) i;
                Ok (Some i, DictIterator index (Some i) (de_next e))
            | None => dictNext_loop fuel (DictIterator index None (it_nextEntry it)) d
            end
      | Some _ =>
          match it_nextEntry it with
          | Some i =>
              e ← load_entry (ht_entries d) i;
              Ok (Some i, DictIterator (it_index it) (Some i) (de_next e))
          | None => dictNext_loop fuel (DictIterator (it_index it) None None) d
          end
      end
  end.

Definition dictNext (it : dictIterator) (d : dict) : result (option nat * dictIterator) :=
  dictNext_loop (Z.to_nat (ht_size d) + 2) it d.
End dict.
