(* ===== verification/DictSpec.v ===== *)
(** * The hash table is a finite map

    For hash and comparison functions that agree on an abstract key, the table
    of [Dict] holds a [gmap]: lookups, insertions, replacements and deletions are
    those of the map, the growth of the table changes nothing, and an iterator
    visits every entry once. *)

From S2P Require Import Prelude Dict.

(** ** What the functions of a [dictType] have to satisfy *)

Class HashType {K V A} `{!EqDecision K} (type : dictType (K := K) (V := V)) (abs : K -> A)
    (hash : A -> Z) `{!EqDecision A} : Prop := {
  hash_abs k : hashFunction type k = Ok (hash (abs k));
  hash_range a : 0 <= hash a < 2 ^ 32;
  compare_abs k1 k2 : dictCompareHashKeys type k1 k2 = bool_decide (abs k1 = abs k2);
  dup_abs k : abs (dictSetHashKey type k) = abs k
}.

Section spec.
Context {K V A : Type} `{!EqDecision K} `{Countable A}.
Context (type : dictType (K := K) (V := V)) (abs : K -> A) (hash : A -> Z) `{!HashType type abs hash}.
Implicit Types es : gmap nat (dictEntry (K := K) (V := V)).
Implicit Types d : dict (K := K) (V := V).

(** The ids [l] linked from [p] on. *)
Fixpoint chain es (p : option nat) (l : list nat) : Prop :=
  match l with
  | [] => p = None
  | i :: l => p = Some i /\ exists e, es !! i = Some e /\ chain es (de_next e) l
  end.

Definition bucket (mask : Z) (e : dictEntry (K := K) (V := V)) : Z := Z.land (hash (abs (de_key e))) mask.

Lemma chain_frame es es' l : forall p,
  (forall i, i ∈ l -> es' !! i = es !! i) -> chain es p l -> chain es' p l.
Proof.
  induction l as [|i l IH]; intros p Hag Hc; [done|].
  destruct Hc as (-> & e & He & Hc). split; [done|]. exists e.
  rewrite Hag by (by left). split; [done|]. apply IH; [|done]. intros j Hj. apply Hag. by right.
Qed.

Lemma chain_in es l : forall p i, chain es p l -> i ∈ l -> is_Some (es !! i).
Proof.
  induction l as [|j l IH]; intros p i Hc Hi; [by apply not_elem_of_nil in Hi|].
  destruct Hc as (_ & e & He & Hc). apply elem_of_cons in Hi as [->|Hi]; [by exists e|]. eauto.
Qed.

(** The table [t] with mask [mask] holds the chains [cs]. *)
Record table_rep (t : list (option nat)) (mask : Z) es (cs : list (list nat)) : Prop := {
  tr_chains : Forall2 (chain es) t cs;
  tr_nodup : NoDup (concat cs);
  tr_bucket : forall b c i e, cs !! b = Some c -> i ∈ c -> es !! i = Some e -> bucket mask e = Z.of_nat b
}.

Record dict_shape d (t : list (option nat)) (cs : list (list nat)) (k : Z) : Prop := {
  ds_table : ht_table d = Some t;
  ds_k : 2 <= k <= 28;
  ds_size : ht_size d = 2 ^ k;
  ds_mask : ht_sizemask d = 2 ^ k - 1;
  ds_len : zlen t = 2 ^ k;
  ds_rep : table_rep t (2 ^ k - 1) (ht_entries d) cs;
  ds_all : forall i, is_Some (ht_entries d !! i) -> i ∈ concat cs
}.

Record dict_holds d (m : gmap A V) : Prop := {
  dh_shape : (ht_size d = 0 /\ ht_table d = None /\ ht_entries d = ∅) \/
             exists t cs k, dict_shape d t cs k /\ ht_used d <= ht_size d;
  dh_used : ht_used d = Z.of_nat (size (ht_entries d));
  dh_fresh : forall i, (ht_fresh d <= i)%nat -> ht_entries d !! i = None;
  dh_keys : forall i j ei ej, ht_entries d !! i = Some ei -> ht_entries d !! j = Some ej ->
    abs (de_key ei) = abs (de_key ej) -> i = j;
  dh_map : forall a v, m !! a = Some v <->
    exists i e, ht_entries d !! i = Some e /\ abs (de_key e) = a /\ de_val e = v
}.

(** ** Chains and sizes *)

Lemma concat_elem (cs : list (list nat)) i :
  i ∈ concat cs <-> exists b c, cs !! b = Some c /\ i ∈ c.
Proof.
  induction cs as [|c cs IH]; cbn [concat].
  - split; [by intros ?%not_elem_of_nil|]. by intros (b & c & ? & _).
  - rewrite elem_of_app, IH. split.
    + intros [Hi|(b & c' & Hb & Hi)]; [by exists 0%nat, c|by exists (S b), c'].
    + intros ([|b] & c' & Hb & Hi); [left; by injection Hb as ->|right; eauto].
Qed.

Lemma ids_size es (l : list nat) :
  NoDup l -> (forall i, i ∈ l -> is_Some (es !! i)) -> (length l <= size es)%nat.
Proof.
  intros Hnd Hin. rewrite <- size_dom, <- (size_list_to_set (C := gset nat) l) by done.
  apply subseteq_size. intros i Hi. apply elem_of_list_to_set in Hi. by apply elem_of_dom, Hin.
Qed.

Lemma ids_size_eq es (l : list nat) :
  NoDup l -> (forall i, i ∈ l <-> is_Some (es !! i)) -> length l = size es.
Proof.
  intros Hnd Hin. rewrite <- size_dom, <- (size_list_to_set (C := gset nat) l) by done.
  f_equal. apply set_eq. intros i. by rewrite elem_of_list_to_set, elem_of_dom.
Qed.

Lemma land_range x k : 0 <= k -> 0 <= Z.land x (2 ^ k - 1) < 2 ^ k.
Proof.
  intros Hk. replace (2 ^ k - 1) with (Z.ones k) by (rewrite Z.ones_equiv; lia).
  rewrite Z.land_ones by done. apply Z.mod_pos_bound. lia.
Qed.

Lemma rep_chain t mask es cs b c :
  table_rep t mask es cs -> cs !! b = Some c ->
  exists p, t !! b = Some p /\ chain es p c.
Proof.
  intros Hr Hb. pose proof (tr_chains _ _ _ _ Hr) as Hc.
  destruct (Forall2_lookup_r _ _ _ _ _ Hc Hb) as (p & Hp & Hch). eauto.
Qed.

Lemma rep_in t mask es cs i : table_rep t mask es cs -> i ∈ concat cs -> is_Some (es !! i).
Proof.
  intros Hr (b & c & Hb & Hi)%concat_elem.
  destruct (rep_chain _ _ _ _ _ _ Hr Hb) as (p & _ & Hc). by eapply chain_in.
Qed.

Lemma nodup_chain (cs : list (list nat)) b c : NoDup (concat cs) -> cs !! b = Some c -> NoDup c.
Proof.
  revert b. induction cs as [|c' cs IH]; intros [|b] Hnd Hb; try done; cbn [concat] in Hnd;
    apply NoDup_app in Hnd as (H1 & _ & H2); [by injection Hb as <-|eauto].
Qed.

(** The chain a key belongs to. *)
Lemma slot d t cs k a :
  dict_shape d t cs k ->
  let b := Z.land (hash a) (ht_sizemask d) in
  0 <= b < 2 ^ k /\ exists p c, table_get (ht_table d) b = Ok p /\
    t !! Z.to_nat b = Some p /\ cs !! Z.to_nat b = Some c /\ chain (ht_entries d) p c /\
    (length c <= size (ht_entries d))%nat.
Proof.
  intros [Ht Hk Hs Hm Hl Hr Ha] b. unfold b. rewrite Hm.
  pose proof (land_range (hash a) k ltac:(lia)) as Hb. split; [done|].
  pose proof (tr_chains _ _ _ _ Hr) as Hcs. apply Forall2_length in Hcs as Hlen.
  destruct (lookup_lt_is_Some_2 cs (Z.to_nat (Z.land (hash a) (2 ^ k - 1)))) as [c Hc]; [len_lia|].
  destruct (rep_chain _ _ _ _ _ _ Hr Hc) as (p & Hp & Hch).
  exists p, c. unfold table_get. rewrite Ht, (proj2 (Z.ltb_ge _ _)), Hp by lia.
  repeat split; try done. apply ids_size.
  - eapply nodup_chain; [by apply tr_nodup in Hr|done].
  - intros i Hi. by eapply chain_in.
Qed.

Lemma in_slot d t cs k i e c :
  dict_shape d t cs k -> ht_entries d !! i = Some e ->
  cs !! Z.to_nat (Z.land (hash (abs (de_key e))) (ht_sizemask d)) = Some c -> i ∈ c.
Proof.
  intros Hsh He Hc. assert (Hi : i ∈ concat cs) by (eapply ds_all; eauto).
  apply concat_elem in Hi as (b & c' & Hb & Hi).
  pose proof (tr_bucket _ _ _ _ (ds_rep _ _ _ _ Hsh) _ _ _ _ Hb Hi He) as Hbk.
  unfold bucket in Hbk. rewrite (ds_mask _ _ _ _ Hsh), Hbk, Nat2Z.id in Hc. congruence.
Qed.

(** ** Lookup *)

Lemma find_in_chain_spec es key : forall c fuel p,
  chain es p c -> (length c <= fuel)%nat ->
  exists r, find_in_chain type fuel p key es = Ok r /\
    match r with
    | Some i => i ∈ c /\ exists e, es !! i = Some e /\ abs (de_key e) = abs key
    | None => forall i e, i ∈ c -> es !! i = Some e -> abs (de_key e) <> abs key
    end.
Proof.
  induction c as [|i c IH]; intros fuel p Hc Hf.
  - cbn in Hc. subst. exists None. split; [by destruct fuel|]. by intros i e ?%not_elem_of_nil.
  - destruct Hc as (-> & e & He & Hc). destruct fuel as [|fuel]; [cbn in Hf; lia|].
    cbn [find_in_chain]. unfold load_entry. rewrite He. cbn [of_option mbind result_bind].
    rewrite compare_abs. case_bool_decide as Hk.
    + exists (Some i). split; [done|]. split; [by left|]. by exists e.
    + destruct (IH fuel (de_next e) Hc) as (r & -> & Hr); [cbn in Hf; lia|].
      exists r. split; [done|]. destruct r as [j|].
      * destruct Hr as (Hj & He'). split; [by right|done].
      * intros j e' Hj He'. apply elem_of_cons in Hj as [->|Hj]; [|by eapply Hr].
        rewrite He in He'. injection He' as <-. congruence.
Qed.

(** The entry of a key, if it has one. *)
Definition found d (key : K) (r : option nat) : Prop :=
  match r with
  | Some i => exists e, ht_entries d !! i = Some e /\ abs (de_key e) = abs key
  | None => forall i e, ht_entries d !! i = Some e -> abs (de_key e) <> abs key
  end.

Lemma find_slot d t cs k key :
  dict_shape d t cs k ->
  exists p r, table_get (ht_table d) (Z.land (hash (abs key)) (ht_sizemask d)) = Ok p /\
    find_in_chain type (size (ht_entries d)) p key (ht_entries d) = Ok r /\ found d key r.
Proof.
  intros Hsh. destruct (slot d t cs k (abs key) Hsh) as (Hb & p & c & Hp & _ & Hc & Hch & Hl).
  destruct (find_in_chain_spec (ht_entries d) key c _ p Hch Hl) as (r & Er & Hr).
  exists p, r. split; [done|]. split; [done|]. destruct r as [i|].
  - by destruct Hr as [_ He].
  - intros i e He Hk. apply (Hr i e); [|done|done].
    eapply in_slot; [done|done|]. by rewrite Hk.
Qed.

Lemma dictFind_found d m key :
  dict_holds d m -> exists r, dictFind type key d = Ok r /\ found d key r.
Proof.
  intros [Hsh Hu Hf Hk Hm]. unfold dictFind.
  destruct Hsh as [(Hs & _ & He)|(t & cs & k & Hsh & _)].
  - rewrite Hs. exists None. split; [done|]. intros i e Hi. by rewrite He, lookup_empty in Hi.
  - pose proof (ds_k _ _ _ _ Hsh). rewrite (ds_size _ _ _ _ Hsh).
    assert (2 ^ k <> 0) by (apply Z.pow_nonzero; lia).
    rewrite (proj2 (Z.eqb_neq _ _)) by done. rewrite hash_abs. cbn [mbind result_bind].
    destruct (find_slot d t cs k key Hsh) as (p & r & -> & Er & Hr). cbn [mbind result_bind]. eauto.
Qed.

Lemma found_map d m key r :
  dict_holds d m -> found d key r ->
  match r with
  | Some i => exists e, ht_entries d !! i = Some e /\ m !! abs key = Some (de_val e)
  | None => m !! abs key = None
  end.
Proof.
  intros [_ _ _ _ Hm] Hr. destruct r as [i|].
  - destruct Hr as (e & He & Hk). exists e. split; [done|]. apply Hm. eauto.
  - destruct (m !! abs key) as [v|] eqn:E; [|done]. apply Hm in E as (i & e & He & Hk & _).
    by apply (Hr i e) in He.
Qed.
(** ** Growing *)

(** The same keys and values under the same ids. *)
Definition same_content es es' : Prop :=
  forall i, (fun e => (de_key e, de_val e)) <$> es' !! i = (fun e => (de_key e, de_val e)) <$> es !! i.

Lemma same_content_refl es : same_content es es.
Proof. by intros i. Qed.

Lemma same_content_trans es1 es2 es3 :
  same_content es1 es2 -> same_content es2 es3 -> same_content es1 es3.
Proof. intros H1 H2 i. by rewrite H2. Qed.

Lemma same_content_lookup es es' i e' :
  same_content es es' -> es' !! i = Some e' ->
  exists e, es !! i = Some e /\ de_key e = de_key e' /\ de_val e = de_val e'.
Proof.
  intros Hs He. specialize (Hs i). rewrite He in Hs. destruct (es !! i) as [e|]; [|done].
  cbn in Hs. injection Hs as ??. by exists e.
Qed.

Lemma same_content_sym es es' : same_content es es' -> same_content es' es.
Proof. intros Hs i. by rewrite Hs. Qed.

Lemma same_content_is_some es es' i : same_content es es' -> is_Some (es' !! i) <-> is_Some (es !! i).
Proof. intros Hs. specialize (Hs i). destruct (es !! i), (es' !! i); try done; split; by intros [? ?]. Qed.

Lemma same_content_size es es' : same_content es es' -> size es' = size es.
Proof.
  intros Hs. rewrite <- !size_dom. f_equal. apply set_eq. intros i.
  rewrite !elem_of_dom. by apply same_content_is_some.
Qed.

Lemma same_content_next es i e q :
  es !! i = Some e -> same_content es (<[i := DictEntry (de_key e) (de_val e) q]> es).
Proof.
  intros He j. destruct (decide (i = j)) as [<-|]; [|by rewrite lookup_insert_ne].
  by rewrite lookup_insert_eq, He.
Qed.

Lemma concat_insert (cs : list (list nat)) b c i :
  cs !! b = Some c -> concat (<[b := i :: c]> cs) ≡ₚ i :: concat cs.
Proof.
  revert b. induction cs as [|c' cs IH]; intros [|b] Hb; try done; cbn [concat].
  - by injection Hb as ->.
  - change (<[S b := i :: c]> (c' :: cs)) with (c' :: <[b := i :: c]> cs). cbn [concat].
    rewrite (IH b Hb). by rewrite Permutation_middle.
Qed.

(** A new entry at the head of its chain. *)
Lemma table_push t mask es cs i e q c b :
  table_rep t mask es cs -> i ∉ concat cs -> b = bucket mask e -> 0 <= b ->
  t !! Z.to_nat b = Some q -> cs !! Z.to_nat b = Some c -> de_next e = q ->
  table_rep (<[Z.to_nat b := Some i]> t) mask (<[i := e]> es) (<[Z.to_nat b := i :: c]> cs).
Proof.
  intros Hr Hi -> Hb Hq Hc Hn. destruct (rep_chain _ _ _ _ _ _ Hr Hc) as (q' & Hq' & Hch).
  rewrite Hq in Hq'. injection Hq' as <-.
  assert (Hfr : forall b' c' p', cs !! b' = Some c' -> chain es p' c' -> chain (<[i := e]> es) p' c').
  { intros b' c' p' Hb' Hch'. eapply chain_frame; [|done]. intros j Hj.
    rewrite lookup_insert_ne; [done|]. intros ->. apply Hi, concat_elem. eauto. }
  split.
  - apply Forall2_insert.
    + apply Forall2_same_length_lookup. pose proof (tr_chains _ _ _ _ Hr) as Hf.
      split; [by eapply Forall2_length|]. intros b' p' c' Hp' Hc'.
      apply (Hfr b'); [done|]. by eapply Forall2_lookup_lr.
    + split; [done|]. exists e. rewrite lookup_insert_eq. split; [done|]. rewrite Hn. by eapply Hfr.
  - rewrite (concat_insert cs _ c) by done. constructor; [done|]. by apply tr_nodup in Hr.
  - intros b' c' j e' Hb' Hj He'. destruct (decide (Z.to_nat (bucket mask e) = b')) as [<-|Hne].
    + rewrite list_lookup_insert_eq in Hb' by (by eapply lookup_lt_Some). injection Hb' as <-.
      apply elem_of_cons in Hj as [->|Hj].
      * rewrite lookup_insert_eq in He'. injection He' as <-. lia.
      * rewrite lookup_insert_ne in He' by (intros ->; apply Hi, concat_elem; eauto).
        by eapply (tr_bucket _ _ _ _ Hr).
    + rewrite list_lookup_insert_ne in Hb' by done.
      rewrite lookup_insert_ne in He' by (intros ->; apply Hi, concat_elem; eauto).
      by eapply (tr_bucket _ _ _ _ Hr).
Qed.

Lemma table_ops t b (p : option nat) k :
  zlen t = 2 ^ k -> 0 <= b < 2 ^ k -> 0 <= k ->
  (exists q, table_get (Some t) b = Ok q /\ t !! Z.to_nat b = Some q) /\
  table_put (Some t) b p = Ok (Some (<[Z.to_nat b := p]> t)).
Proof.
  intros Hl Hb Hk. unfold table_get, table_put. split.
  - destruct (lookup_lt_is_Some_2 t (Z.to_nat b)) as [q Hq]; [len_lia|].
    exists q. by rewrite (proj2 (Z.ltb_ge _ _)), Hq by lia.
  - rewrite (proj2 (Z.leb_le _ _)), (proj2 (Z.ltb_lt _ _)) by lia. done.
Qed.

Lemma rehash_chain_spec k : forall c fuel p t used es cs,
  0 <= k -> chain es p c -> (length c <= fuel)%nat -> NoDup c ->
  zlen t = 2 ^ k -> table_rep t (2 ^ k - 1) es cs -> (forall i, i ∈ c -> i ∉ concat cs) ->
  Z.of_nat (length c) <= used < 2 ^ 32 ->
  exists t' es' cs',
    rehash_chain type fuel p (Some t) (2 ^ k - 1) used es = Ok (Some t', used - Z.of_nat (length c), es') /\
    zlen t' = 2 ^ k /\ table_rep t' (2 ^ k - 1) es' cs' /\ concat cs' ≡ₚ c ++ concat cs /\
    same_content es es' /\ (forall i, i ∉ c -> es' !! i = es !! i).
Proof.
  induction c as [|i c IH]; intros fuel p t used es cs Hk Hch Hf Hnd Hl Hr Hdis Hu.
  - cbn in Hch. subst. exists t, es, cs. split; [rewrite Z.sub_0_r; by destruct fuel|].
    split; [done|]. split; [done|]. split; [done|]. split; [apply same_content_refl|done].
  - destruct Hch as (-> & e & He & Hch). destruct fuel as [|fuel]; [cbn in Hf; lia|].
    apply NoDup_cons in Hnd as [Hic Hnd]. cbn [rehash_chain length] in *.
    unfold load_entry. rewrite He. cbn [of_option mbind result_bind]. rewrite hash_abs.
    cbn [mbind result_bind]. pose proof (land_range (hash (abs (de_key e))) k Hk) as Hb.
    set (b := Z.land _ _) in *.
    destruct (table_ops t b (Some i) k Hl Hb Hk) as [(q & Eq & Hq) Ep].
    rewrite Eq. cbn [mbind result_bind]. rewrite Ep. cbn [mbind result_bind].
    set (e' := DictEntry (de_key e) (de_val e) q).
    pose proof (tr_chains _ _ _ _ Hr) as Hcs. apply Forall2_length in Hcs.
    destruct (lookup_lt_is_Some_2 cs (Z.to_nat b)) as [cb Hcb]; [len_lia|].
    assert (Hi : i ∉ concat cs) by (apply Hdis; by left).
    pose proof (table_push t (2 ^ k - 1) es cs i e' q cb b Hr Hi eq_refl ltac:(lia) Hq Hcb eq_refl) as Hr1.
    rewrite u32_small by lia.
    destruct (IH fuel (de_next e) (<[Z.to_nat b := Some i]> t) (used - 1) (<[i := e']> es)
                (<[Z.to_nat b := i :: cb]> cs) Hk)
      as (t' & es' & cs' & E & Hl' & Hr' & Hperm & Hsame & Hag); [|lia|done|len_lia|exact Hr1| |lia|].
    { eapply chain_frame; [|done]. intros j Hj. rewrite lookup_insert_ne; [done|]. by intros ->. }
    { intros j Hj. rewrite (concat_insert cs _ cb) by done. rewrite not_elem_of_cons.
      split; [by intros ->|]. apply Hdis. by right. }
    exists t', es', cs'. split.
    { rewrite E. do 3 f_equal. lia. }
    split; [done|]. split; [done|]. split; [|split].
    + rewrite Hperm, (concat_insert cs _ cb) by done. cbn. by rewrite Permutation_middle.
    + eapply same_content_trans; [by apply same_content_next|done].
    + intros j [Hji Hj]%not_elem_of_cons. rewrite Hag by done. by rewrite lookup_insert_ne.
Qed.
Lemma chains_frame es es' : forall (ps : list (option nat)) ocs,
  (forall i, i ∈ concat ocs -> es' !! i = es !! i) ->
  Forall2 (chain es) ps ocs -> Forall2 (chain es') ps ocs.
Proof.
  intros ps ocs Hag Hf. induction Hf as [|p c ps ocs Hc Hf IH]; constructor.
  - eapply chain_frame; [|done]. intros i Hi. apply Hag. cbn. apply elem_of_app. by left.
  - apply IH. intros i Hi. apply Hag. cbn. apply elem_of_app. by right.
Qed.

Lemma rehash_slots_spec k ot : forall ocs i t used es cs,
  0 <= k -> Forall2 (chain es) (drop i ot) ocs -> NoDup (concat ocs) ->
  zlen t = 2 ^ k -> table_rep t (2 ^ k - 1) es cs ->
  (forall j, j ∈ concat ocs -> j ∉ concat cs) ->
  used = zlen (concat ocs) -> used < 2 ^ 32 ->
  exists t' es' cs',
    rehash_slots type (length ocs) (Z.of_nat i) (Some ot) (Some t) (2 ^ k - 1) used es
      = Ok (Some t', 0, es') /\
    zlen t' = 2 ^ k /\ table_rep t' (2 ^ k - 1) es' cs' /\
    concat cs' ≡ₚ concat ocs ++ concat cs /\ same_content es es'.
Proof.
  induction ocs as [|c ocs IH]; intros i t used es cs Hk Hch Hnd Hl Hr Hdis -> Hu.
  { exists t, es, cs. split; [done|]. split; [done|]. split; [done|]. split; [done|]. apply same_content_refl. }
  cbn [rehash_slots length]. destruct (Z.ltb_spec 0 (zlen (concat (c :: ocs)))) as [Hpos|Hz].
  2: { destruct (concat (c :: ocs)) eqn:E; [|len_lia]. exists t, es, cs.
       split; [done|]. split; [done|]. split; [done|]. split; [done|]. apply same_content_refl. }
  apply Forall2_cons_inv_r in Hch as (p & ps & Hp & Hps & Eps). cbn [concat] in *.
  apply NoDup_app in Hnd as (Hnc & Hnco & Hno). rewrite zlen_app in *.
  pose proof (zlen_nonneg (concat ocs)).
  assert (Hot : ot !! i = Some p).
  { rewrite <- (Nat.add_0_r i), <- lookup_drop, Eps. done. }
  unfold table_get. rewrite (proj2 (Z.ltb_ge _ _)), Nat2Z.id, Hot by lia.
  cbn [of_option mbind result_bind].
  destruct (rehash_chain_spec k c (size es) p t (zlen c + zlen (concat ocs)) es cs)
    as (t1 & es1 & cs1 & -> & Hl1 & Hr1 & Hperm1 & Hsame1 & Hag1); try done.
  { apply ids_size; [done|]. intros j Hj. by eapply chain_in. }
  { intros j Hj. apply Hdis. apply elem_of_app. by left. }
  { unfold zlen in *. lia. }
  cbn [mbind result_bind].
  destruct (IH (S i) t1 (zlen c + zlen (concat ocs) - Z.of_nat (length c)) es1 cs1)
    as (t2 & es2 & cs2 & E2 & Hl2 & Hr2 & Hperm2 & Hsame2); try done.
  - replace (drop (S i) ot) with ps by (by rewrite <- Nat.add_1_r, <- drop_drop, Eps).
    eapply chains_frame; [|done]. intros j Hj. apply Hag1. intros Hjc. by eapply Hnco.
  - intros j Hj. rewrite Hperm1, elem_of_app. intros [Hjc|Hjs]; [by eapply Hnco|].
    by apply (Hdis j); [apply elem_of_app; right|].
  - unfold zlen. lia.
  - unfold zlen in *. lia.
  - exists t2, es2, cs2. split.
    { rewrite <- E2. f_equal; [lia..]. }
    split; [done|]. split; [done|]. split; [|by eapply same_content_trans].
    rewrite Hperm2, Hperm1, (Permutation_app_comm c (concat ocs)), <- app_assoc. done.
Qed.

Lemma nextPower_loop_spec j : forall fuel i,
  0 <= i -> i <= j -> j <= 30 -> (Z.to_nat (j - i) < fuel)%nat ->
  dictNextPower_loop fuel (2 ^ i) (2 ^ j) = Ok (2 ^ j).
Proof.
  induction fuel as [|fuel IH]; intros i Hi Hij Hj Hf; [lia|]. cbn [dictNextPower_loop].
  destruct (Z.leb_spec (2 ^ j) (2 ^ i)) as [Hle|Hlt].
  - f_equal. apply Z.pow_le_mono_r_iff in Hle; [|lia|lia]. f_equal. lia.
  - apply Z.pow_lt_mono_r_iff in Hlt; [|lia|lia].
    replace (2 ^ i * 2) with (2 ^ (i + 1)) by (rewrite Z.pow_add_r by lia; done).
    assert (2 ^ (i + 1) <= 2 ^ 30) by (apply Z.pow_le_mono_r; lia).
    rewrite u32_small by (split; [apply Z.pow_nonneg; lia|lia]). apply IH; lia.
Qed.

Lemma nextPower_spec j : 2 <= j <= 30 -> _dictNextPower (2 ^ j) = Ok (2 ^ j).
Proof.
  intros Hj. unfold _dictNextPower. assert (2 ^ j <= 2 ^ 30) by (apply Z.pow_le_mono_r; lia).
  rewrite (proj2 (Z.leb_gt _ _)) by lia. apply (nextPower_loop_spec j 32 2); lia.
Qed.

Lemma empty_table k es : 0 <= k -> table_rep (replicate (Z.to_nat (2 ^ k)) None) (2 ^ k - 1) es
    (replicate (Z.to_nat (2 ^ k)) []).
Proof.
  intros Hk. split.
  - by apply Forall2_replicate.
  - replace (concat _) with (@nil nat); [constructor|].
    induction (Z.to_nat (2 ^ k)) as [|n IH]; [done|]. exact IH.
  - intros b c i e Hb Hi. apply lookup_replicate_1 in Hb as [-> _]. by apply not_elem_of_nil in Hi.
Qed.

Lemma empty_table_concat n : concat (replicate n (@nil nat)) = [].
Proof. induction n as [|n IH]; [done|]. exact IH. Qed.

(** The table has a slot layout and the same entries as [d]. *)
Definition grown d d' (k : Z) : Prop :=
  (exists t cs, dict_shape d' t cs k) /\ ht_used d' = ht_used d /\ ht_fresh d' = ht_fresh d /\
  ht_trace d' = ht_trace d /\ same_content (ht_entries d) (ht_entries d').

Lemma dictExpand_spec d m j :
  dict_holds d m -> 2 <= j <= 28 -> ht_used d <= 2 ^ j ->
  exists d', dictExpand type (2 ^ j) d = Ok (DICT_OK, d') /\ grown d d' j.
Proof.
  intros [Hsh Hu Hf Hk Hm] Hj Hle. unfold dictExpand.
  rewrite nextPower_spec by lia. cbn [mbind result_bind].
  rewrite (proj2 (Z.ltb_ge _ _)) by lia.
  assert (Hpow : 2 ^ 2 <= 2 ^ j <= 2 ^ 28) by (split; apply Z.pow_le_mono_r; lia).
  unfold calloc_table. rewrite (proj2 (Z.ltb_lt _ _)) by lia. rewrite u32_small by lia.
  set (nt := replicate (Z.to_nat (2 ^ j)) None).
  assert (Hnl : zlen nt = 2 ^ j) by (unfold nt; rewrite zlen_replicate; lia).
  assert (Hloop : exists t' es' cs',
    rehash_slots type (Z.to_nat (ht_size d)) 0 (ht_table d) (Some nt) (2 ^ j - 1) (ht_used d) (ht_entries d)
      = Ok (Some t', 0, es') /\ zlen t' = 2 ^ j /\ table_rep t' (2 ^ j - 1) es' cs' /\
    (forall i, is_Some (ht_entries d !! i) -> i ∈ concat cs') /\ same_content (ht_entries d) es').
  { destruct Hsh as [(Hs & Ht & He)|(t & cs & k & Hsh & _)].
    - rewrite Hs, Hu, He, map_size_empty. exists nt, ∅, (replicate (Z.to_nat (2 ^ j)) []).
      split; [done|]. split; [done|]. split; [by apply empty_table; lia|].
      split; [|apply same_content_refl]. intros i [? ?]. by rewrite lookup_empty in *.
    - pose proof (ds_rep _ _ _ _ Hsh) as Hr. pose proof (tr_chains _ _ _ _ Hr) as Hcs.
      apply Forall2_length in Hcs as Hlen. pose proof (ds_len _ _ _ _ Hsh) as Hl.
      assert (Hids : length (concat cs) = size (ht_entries d)).
      { apply ids_size_eq; [by apply tr_nodup in Hr|]. intros i. split.
        - by eapply rep_in.
        - by apply (ds_all _ _ _ _ Hsh). }
      destruct (rehash_slots_spec j t cs 0 nt (ht_used d) (ht_entries d)
                  (replicate (Z.to_nat (2 ^ j)) [])) as (t' & es' & cs' & E & Hl' & Hr' & Hperm & Hsame);
        [lia|done|by apply tr_nodup in Hr|done|apply empty_table; lia| |len_lia|lia|].
      { intros i _. rewrite empty_table_concat. apply not_elem_of_nil. }
      exists t', es', cs'. rewrite (ds_table _ _ _ _ Hsh), (ds_size _ _ _ _ Hsh).
      replace (Z.to_nat (2 ^ k)) with (length cs) by len_lia.
      change (Z.of_nat 0) with 0 in E. rewrite E.
      split; [done|]. split; [done|]. split; [done|]. split; [|done].
      intros i Hi. rewrite Hperm, elem_of_app. left. by apply (ds_all _ _ _ _ Hsh). }
  destruct Hloop as (t' & es' & cs' & -> & Hl' & Hr' & Hall & Hsame). cbn [mbind result_bind].
  rewrite c_assert_true by done. cbn [mbind result_bind]. eexists. split; [done|].
  split; [|done]. exists t', cs'. split; try done.
  cbn. intros i Hi. apply Hall. by apply (same_content_is_some _ _ _ Hsame).
Qed.
Lemma grown_holds d d' m k :
  dict_holds d m -> grown d d' k -> ht_used d <= 2 ^ k -> dict_holds d' m.
Proof.
  intros [Hsh Hu Hf Hk Hm] ((t & cs & Hd') & Eu & Ef & Et & Hsame) Hle. split.
  - right. exists t, cs, k. split; [done|]. rewrite Eu, (ds_size _ _ _ _ Hd'). done.
  - rewrite Eu, Hu. by rewrite (same_content_size _ _ Hsame).
  - rewrite Ef. intros i Hi. specialize (Hf i Hi). apply eq_None_not_Some.
    rewrite (same_content_is_some _ _ _ Hsame), Hf. by intros [? ?].
  - intros i j ei ej Hi Hj. apply (same_content_lookup _ _ _ _ Hsame) in Hi as (ei' & Hi & <- & _).
    apply (same_content_lookup _ _ _ _ Hsame) in Hj as (ej' & Hj & <- & _). by apply Hk.
  - intros a v. rewrite Hm. apply same_content_sym in Hsame as Hback. split.
    + intros (i & e & Hi & Ha & Hv).
      apply (same_content_lookup _ _ _ _ Hback) in Hi as (e' & Hi & Ek & Ev).
      exists i, e'. by rewrite Ek, Ev.
    + intros (i & e & Hi & Ha & Hv).
      apply (same_content_lookup _ _ _ _ Hsame) in Hi as (e' & Hi & Ek & Ev).
      exists i, e'. by rewrite Ek, Ev.
Qed.

(** After [_dictExpandIfNeeded] there is a table with a free place. *)
Lemma expandIfNeeded_spec d m :
  dict_holds d m -> ht_used d < 2 ^ 27 ->
  exists d' t cs k, _dictExpandIfNeeded type d = Ok (DICT_OK, d') /\ dict_holds d' m /\
    dict_shape d' t cs k /\ ht_used d' < ht_size d' /\ ht_trace d' = ht_trace d.
Proof.
  intros Hd Hu. pose proof Hd as [Hsh Hus _ _ _]. unfold _dictExpandIfNeeded.
  destruct Hsh as [(Hs & Ht & He)|(t & cs & k & Hsh & Hle)].
  - rewrite Hs. change (0 =? 0) with true. cbn match. rewrite He, map_size_empty in Hus.
    destruct (dictExpand_spec d m 2 Hd ltac:(lia)) as (d' & E & Hg); [rewrite Hus; lia|].
    exists d'. pose proof Hg as ((t' & cs' & Hsh') & Eu & _ & Et & _). exists t', cs', 2.
    split; [exact E|]. split; [eapply grown_holds; [done|done|rewrite Hus; lia]|]. split; [done|].
    split; [|done]. rewrite Eu, (ds_size _ _ _ _ Hsh'), Hus. lia.
  - pose proof (ds_k _ _ _ _ Hsh). pose proof (ds_size _ _ _ _ Hsh) as Hs.
    assert (0 < 2 ^ k) by (apply Z.pow_pos_nonneg; lia).
    rewrite (proj2 (Z.eqb_neq _ _)) by lia. destruct (Z.eqb_spec (ht_used d) (ht_size d)) as [Heq|Hne].
    + assert (k < 27).
      { rewrite Heq, Hs in Hu. apply Z.pow_lt_mono_r_iff in Hu; lia. }
      assert (Hdbl : 2 ^ (k + 1) = 2 ^ k * 2) by (rewrite Z.pow_add_r by lia; done).
      assert (2 ^ (k + 1) <= 2 ^ 28) by (apply Z.pow_le_mono_r; lia).
      rewrite Hs, u32_small, <- Hdbl by lia.
      destruct (dictExpand_spec d m (k + 1) Hd ltac:(lia)) as (d' & E & Hg); [lia|].
      exists d'. pose proof Hg as ((t' & cs' & Hsh') & Eu & _ & Et & _). exists t', cs', (k + 1).
      split; [exact E|]. split; [eapply grown_holds; [done|done|lia]|]. split; [done|].
      split; [|done]. rewrite Eu, (ds_size _ _ _ _ Hsh'). lia.
    + exists d, t, cs, k. split; [done|]. split; [exact Hd|]. split; [done|]. split; [lia|done].
Qed.

Lemma keyIndex_spec d m key :
  dict_holds d m -> ht_used d < 2 ^ 27 ->
  exists d' r t cs k, dict_holds d' m /\ dict_shape d' t cs k /\ ht_used d' < ht_size d' /\
    ht_trace d' = ht_trace d /\ found d' key r /\
    _dictKeyIndex type key d = Ok (match r with
      | Some _ => -1 | None => Z.land (hash (abs key)) (ht_sizemask d') end, d').
Proof.
  intros Hd Hu. destruct (expandIfNeeded_spec d m Hd Hu) as (d' & t & cs & k & E & Hd' & Hsh & Hroom & Htr).
  destruct (find_slot d' t cs k key Hsh) as (p & r & Ep & Er & Hr).
  exists d', r, t, cs, k. split; [done|]. split; [done|]. split; [done|]. split; [done|]. split; [done|].
  unfold _dictKeyIndex. rewrite E. cbn [mbind result_bind]. change (DICT_OK =? DICT_ERR) with false.
  cbn match. rewrite hash_abs. cbn [mbind result_bind]. rewrite Ep. cbn [mbind result_bind].
  rewrite Er. cbn [mbind result_bind]. destruct r; [done|].
  rewrite i32_small; [done|]. rewrite (ds_mask _ _ _ _ Hsh).
  pose proof (ds_k _ _ _ _ Hsh). pose proof (land_range (hash (abs key)) k ltac:(lia)).
  assert (2 ^ k <= 2 ^ 28) by (apply Z.pow_le_mono_r; lia). lia.
Qed.

(** ** Adding and replacing *)

(** An entry with a new key, pushed on its chain, adds its binding. *)
Lemma dict_with d m t cs k b p c e :
  dict_holds d m -> dict_shape d t cs k -> ht_used d < ht_size d ->
  (forall i ei, ht_entries d !! i = Some ei -> abs (de_key ei) <> abs (de_key e)) ->
  bucket (2 ^ k - 1) e = b -> 0 <= b ->
  t !! Z.to_nat b = Some p -> cs !! Z.to_nat b = Some c -> de_next e = p ->
  dict_holds (Dict (Some (<[Z.to_nat b := Some (ht_fresh d)]> t)) (ht_size d) (ht_sizemask d)
                (u32 (ht_used d + 1)) (<[ht_fresh d := e]> (ht_entries d)) (S (ht_fresh d)) (ht_trace d))
    (<[abs (de_key e) := de_val e]> m).
Proof.
  intros [_ Hus Hf Hk Hm] Hsh Hroom Hnew He Hb Hp Hc Hnext.
  pose proof (Hf (ht_fresh d) (le_n _)) as Hnone. pose proof (ds_rep _ _ _ _ Hsh) as Hrep.
  assert (Hfresh : ht_fresh d ∉ concat cs).
  { intros Hin. apply (rep_in _ _ _ _ _ Hrep) in Hin. rewrite Hnone in Hin. by destruct Hin. }
  pose proof (table_push t (2 ^ k - 1) (ht_entries d) cs (ht_fresh d) e p c b Hrep Hfresh (eq_sym He)
                Hb Hp Hc Hnext) as Hpush.
  pose proof (ds_k _ _ _ _ Hsh) as Hkr. pose proof (ds_size _ _ _ _ Hsh) as Hsz.
  assert (Hpow : 2 ^ k <= 2 ^ 28) by (apply Z.pow_le_mono_r; lia). split; cbn.
  - right. exists (<[Z.to_nat b := Some (ht_fresh d)]> t), (<[Z.to_nat b := ht_fresh d :: c]> cs), k.
    split; [|cbn; rewrite u32_small by lia; lia]. split; try done; cbn.
    + by apply (ds_mask _ _ _ _ Hsh).
    + rewrite <- (ds_len _ _ _ _ Hsh). len_lia.
    + intros i Hi. rewrite (concat_insert cs _ c) by done. apply elem_of_cons.
      destruct (decide (i = ht_fresh d)) as [->|Hne]; [by left|right].
      rewrite lookup_insert_ne in Hi by done. by apply (ds_all _ _ _ _ Hsh).
  - rewrite u32_small, map_size_insert_None by (done || lia). lia.
  - intros i Hi. rewrite lookup_insert_ne by lia. apply Hf. lia.
  - intros i j ei ej Hi Hj Hij.
    apply lookup_insert_Some in Hi as [[<- <-]|[Hne1 Hi]];
      apply lookup_insert_Some in Hj as [[<- <-]|[Hne2 Hj]]; [done|..].
    + by apply Hnew in Hj.
    + by apply Hnew in Hi.
    + by eapply Hk.
  - intros a v. rewrite lookup_insert_Some, Hm. split.
    + intros [[<- <-]|(Hne & i & ei & Hi & Ha & Hv)]; [exists (ht_fresh d), e; by rewrite lookup_insert_eq|].
      exists i, ei. rewrite lookup_insert_ne; [done|]. intros Heq. rewrite <- Heq in Hi. congruence.
    + intros (i & ei & Hi & Ha & Hv). apply lookup_insert_Some in Hi as [[<- <-]|[Hne Hi]]; [by left|].
      right. split; [|by exists i, ei]. intros Hka. apply (Hnew i ei Hi). congruence.
Qed.
Lemma dictAdd_spec d m key val :
  dict_holds d m -> ht_used d < 2 ^ 27 ->
  exists d', ht_trace d' = ht_trace d /\
    match m !! abs key with
    | Some _ => dictAdd type key val d = Ok (DICT_ERR, d') /\ dict_holds d' m
    | None => dictAdd type key val d = Ok (DICT_OK, d') /\
        dict_holds d' (<[abs key := dictSetHashVal type val]> m)
    end.
Proof.
  intros Hd Hu. destruct (keyIndex_spec d m key Hd Hu) as (d1 & r & t & cs & k & Hd1 & Hsh & Hroom & Htr & Hr & E).
  pose proof (found_map d1 m key r Hd1 Hr) as Hmap. unfold dictAdd. rewrite E. cbn [mbind result_bind].
  destruct r as [i|].
  { destruct Hmap as (e & _ & ->). change (-1 =? -1) with true. by exists d1. }
  rewrite Hmap. destruct (slot d1 t cs k (abs key) Hsh) as (Hb & p & c & Ep & Hp & Hc & Hch & _).
  set (b := Z.land (hash (abs key)) (ht_sizemask d1)) in *.
  rewrite (proj2 (Z.eqb_neq _ _)) by lia. rewrite Ep. cbn [mbind result_bind].
  pose proof (ds_k _ _ _ _ Hsh) as Hkr.
  destruct (table_ops t b (Some (ht_fresh d1)) k) as [_ Epu]; [by eapply ds_len|done|lia|].
  rewrite (ds_table _ _ _ _ Hsh), Epu. cbn [mbind result_bind].
  set (e := DictEntry _ _ _). eexists. split; [|split; [reflexivity|]]; [done|].
  replace (abs key) with (abs (de_key e)) by apply dup_abs. apply (dict_with d1 m t cs k b p c e); try done.
  - intros i ei Hi. cbn. rewrite dup_abs. by apply (Hr i ei).
  - unfold bucket, e, b. cbn. by rewrite dup_abs, (ds_mask _ _ _ _ Hsh).
  - apply Hb.
Qed.

(** Storing another value in an entry. *)
Lemma chain_value es i e v l : forall p,
  es !! i = Some e -> chain es p l ->
  chain (<[i := DictEntry (de_key e) v (de_next e)]> es) p l.
Proof.
  intros p He. revert p. induction l as [|j l IH]; intros p Hc; [done|].
  destruct Hc as (-> & ej & Hj & Hc). split; [done|].
  destruct (decide (i = j)) as [<-|Hne].
  - rewrite He in Hj. injection Hj as <-. eexists. rewrite lookup_insert_eq. split; [done|]. by apply IH.
  - exists ej. rewrite lookup_insert_ne by done. split; [done|]. by apply IH.
Qed.

Lemma table_value t mask es cs i e v :
  table_rep t mask es cs -> es !! i = Some e ->
  table_rep t mask (<[i := DictEntry (de_key e) v (de_next e)]> es) cs.
Proof.
  intros [Hc Hn Hb] He. split; [|done|].
  - eapply Forall2_impl; [exact Hc|]. intros p c. by apply chain_value.
  - intros b c j ej Hbc Hj Hej. destruct (decide (i = j)) as [<-|Hne].
    + rewrite lookup_insert_eq in Hej. injection Hej as <-. by apply (Hb b c i e).
    + rewrite lookup_insert_ne in Hej by done. by apply (Hb b c j ej).
Qed.

Lemma dict_set_value d m i e v trace :
  dict_holds d m -> ht_entries d !! i = Some e ->
  dict_holds (Dict (ht_table d) (ht_size d) (ht_sizemask d) (ht_used d)
      (<[i := DictEntry (de_key e) v (de_next e)]> (ht_entries d)) (ht_fresh d) trace)
    (<[abs (de_key e) := v]> m).
Proof.
  intros [Hsh Hu Hf Hk Hm] He. split; cbn.
  - destruct Hsh as [(Hs & Ht & Hempty)|(t & cs & k & Hsh & Hle)].
    { by rewrite Hempty, lookup_empty in He. }
    right. exists t, cs, k. split; [|done]. destruct Hsh as [? ? ? ? ? Hr Hall]. split; try done; cbn.
    + by apply table_value.
    + intros j Hj. apply Hall. destruct (decide (i = j)) as [<-|Hne]; [by exists e|].
      by rewrite lookup_insert_ne in Hj.
  - rewrite map_size_insert_Some by (by exists e). done.
  - intros j Hj. rewrite lookup_insert_ne; [by apply Hf|]. intros <-. rewrite Hf in He; done.
  - assert (Hkey : forall j ej, <[i := DictEntry (de_key e) v (de_next e)]> (ht_entries d) !! j = Some ej ->
      exists ej', ht_entries d !! j = Some ej' /\ de_key ej' = de_key ej).
    { intros j ej Hj. apply lookup_insert_Some in Hj as [[<- <-]|[_ Hj]]; eauto. }
    intros j1 j2 e1 e2 H1 H2. apply Hkey in H1 as (e1' & H1 & <-). apply Hkey in H2 as (e2' & H2 & <-).
    by apply Hk.
  - intros a w. rewrite lookup_insert_Some, Hm. split.
    + intros [[<- <-]|(Hne & j & ej & Hj & Ha & Hv)].
      * eexists i, _. by rewrite lookup_insert_eq.
      * exists j, ej. rewrite lookup_insert_ne; [done|]. intros <-.
        rewrite He in Hj. injection Hj as <-. congruence.
    + intros (j & ej & Hj & Ha & Hv). apply lookup_insert_Some in Hj as [[<- <-]|[Hne Hj]].
      * left. done.
      * right. split; [|by exists j, ej]. intros Hka. apply Hne.
        apply (Hk i j e ej); [done|done|congruence].
Qed.

Lemma dictReplace_spec d m key val :
  dict_holds d m -> ht_used d < 2 ^ 27 ->
  exists d', dict_holds d' (<[abs key := dictSetHashVal type val]> m) /\
    match m !! abs key with
    | Some old => dictReplace type key val d = Ok (0, d') /\
        ht_trace d' = if valDestructor type then ht_trace d ++ [ValDestroyed old] else ht_trace d
    | None => dictReplace type key val d = Ok (1, d') /\ ht_trace d' = ht_trace d
    end.
Proof.
  intros Hd Hu. destruct (dictAdd_spec d m key val Hd Hu) as (d1 & Htr & Hadd). unfold dictReplace.
  destruct (m !! abs key) as [old|] eqn:Em.
  - destruct Hadd as [-> Hd1]. cbn [mbind result_bind]. change (DICT_ERR =? DICT_OK) with false.
    cbn match. destruct (dictFind_found d1 m key Hd1) as (r & -> & Hr). cbn [mbind result_bind].
    pose proof (found_map d1 m key r Hd1 Hr) as Hmap. destruct r as [i|]; [|congruence].
    destruct Hmap as (e & He & Hv). unfold load_entry. rewrite He. cbn [of_option mbind result_bind].
    assert (Hka : abs (de_key e) = abs key).
    { destruct Hr as (e' & He' & Hk). rewrite He in He'. by injection He' as <-. }
    eexists. split; [|split; [done|]].
    + rewrite <- Hka. by apply dict_set_value.
    + cbn. unfold dictFreeEntryVal. rewrite Htr. rewrite Em in Hv. by injection Hv as ->.
  - destruct Hadd as [-> Hd1]. cbn [mbind result_bind]. by exists d1.
Qed.

(** ** Deleting *)

Lemma load_entry_ok es i e : es !! i = Some e -> load_entry es i = Ok e.
Proof. intros He. unfold load_entry. by rewrite He. Qed.

Lemma delete_in_chain_spec key h : forall c1 c2 fuel de prev d,
  chain (ht_entries d) de (c1 ++ c2) -> (length (c1 ++ c2) <= fuel)%nat ->
  (forall i e, i ∈ c1 -> ht_entries d !! i = Some e -> abs (de_key e) <> abs key) ->
  match c2 with
  | [] => delete_in_chain type fuel h de prev key d = Ok (DICT_ERR, d)
  | i :: _ => forall e, ht_entries d !! i = Some e -> abs (de_key e) = abs key ->
      delete_in_chain type fuel h de prev key d =
        ('(table, entries) ←
           match last (option_list prev ++ c1) with
           | Some p => pe ← load_entry (ht_entries d) p;
               Ok (ht_table d, <[p := DictEntry (de_key pe) (de_val pe) (de_next e)]> (ht_entries d))
           | None => table ← table_put (ht_table d) h (de_next e); Ok (table, ht_entries d)
           end;
         Ok (DICT_OK, Dict table (ht_size d) (ht_sizemask d) (u32 (ht_used d - 1)) (delete i entries)
               (ht_fresh d) (dictFreeEntryVal type e (dictFreeEntryKey type e (ht_trace d)))))
  end.
Proof.
  induction c1 as [|j c1 IH]; intros c2 fuel de prev d Hc Hf Hno; cbn [app] in *.
  - destruct c2 as [|i c2]; [cbn in Hc; subst; by destruct fuel|].
    destruct Hc as (-> & e' & He' & Hc). destruct fuel as [|fuel]; [cbn in Hf; lia|].
    intros e He Hk. cbn [delete_in_chain]. rewrite (load_entry_ok _ _ _ He).
    cbn [mbind result_bind]. rewrite compare_abs, bool_decide_eq_true_2 by done.
    by destruct prev.
  - destruct Hc as (-> & ej & Hj & Hc). destruct fuel as [|fuel]; [cbn in Hf; lia|].
    assert (Hstep : delete_in_chain type (S fuel) h (Some j) prev key d
      = delete_in_chain type fuel h (de_next ej) (Some j) key d).
    { cbn [delete_in_chain]. rewrite (load_entry_ok _ _ _ Hj). cbn [mbind result_bind].
      rewrite compare_abs, bool_decide_eq_false_2; [done|]. intros Hk. by apply (Hno j ej); [left|done|]. }
    rewrite Hstep. specialize (IH c2 fuel (de_next ej) (Some j) d Hc ltac:(cbn in Hf; lia)).
    assert (Hlast : last (option_list prev ++ j :: c1) = last (option_list (Some j) ++ c1)).
    { destruct prev; [|done]. cbn. by destruct c1. }
    destruct c2 as [|i c2].
    + apply IH. intros i e Hi He. apply (Hno i e); [by right|done].
    + rewrite Hlast. intros e He Hk. apply IH; [|done|done].
      intros i' e' Hi' He'. apply (Hno i' e'); [by right|done].
Qed.
Lemma chain_unlink es e i c2 : forall c1 p0 p pe,
  chain es p0 (c1 ++ i :: c2) -> NoDup (c1 ++ i :: c2) -> es !! i = Some e ->
  last c1 = Some p -> es !! p = Some pe ->
  chain (delete i (<[p := DictEntry (de_key pe) (de_val pe) (de_next e)]> es)) p0 (c1 ++ c2).
Proof.
  induction c1 as [|j c1 IH]; intros p0 p pe Hc Hnd He Hlast Hpe; [done|].
  cbn [app] in *. destruct Hc as (-> & ej & Hj & Hc). apply NoDup_cons in Hnd as [Hjn Hnd].
  rewrite elem_of_app, elem_of_cons in Hjn. split; [done|].
  destruct c1 as [|j' c1].
  - injection Hlast as <-. rewrite Hj in Hpe. injection Hpe as <-. eexists.
    rewrite lookup_delete_ne by (intros ->; tauto). rewrite lookup_insert_eq. split; [done|].
    cbn [de_next app] in *. destruct Hc as (_ & e' & He' & Hc). rewrite He in He'. injection He' as <-.
    eapply chain_frame; [|done]. intros x Hx. apply NoDup_cons in Hnd as [Hin _].
    rewrite lookup_delete_ne by (intros ->; done). rewrite lookup_insert_ne; [done|].
    intros ->. apply Hjn. right. by right.
  - exists ej. assert (j <> p).
    { intros ->. apply Hjn. left. exact (last_Some_elem_of (j' :: c1) p Hlast). }
    rewrite lookup_delete_ne by (intros ->; tauto). rewrite lookup_insert_ne by done. split; [done|].
    apply IH; done.
Qed.

Lemma concat_unlink (cs : list (list nat)) b c1 i c2 :
  cs !! b = Some (c1 ++ i :: c2) -> concat cs ≡ₚ i :: concat (<[b := c1 ++ c2]> cs).
Proof.
  revert b. induction cs as [|c' cs IH]; intros [|b] Hb; try done.
  - injection Hb as ->. cbn. rewrite <- !app_assoc. cbn. by rewrite <- Permutation_middle.
  - change (<[S b := c1 ++ c2]> (c' :: cs)) with (c' :: <[b := c1 ++ c2]> cs). cbn [concat].
    rewrite (IH b Hb). by rewrite Permutation_middle.
Qed.

(** An id lies in one chain. *)
Lemma chains_disjoint (cs : list (list nat)) : forall b b' c c' j,
  NoDup (concat cs) -> cs !! b = Some c -> cs !! b' = Some c' -> b' <> b -> j ∈ c' -> j ∉ c.
Proof.
  induction cs as [|c0 cs IH]; intros [|b] [|b'] c c' j Hnd Hb Hb' Hne Hj Hjc; try done;
    cbn [concat] in Hnd; apply NoDup_app in Hnd as (_ & Hd & Hnd).
  - injection Hb as ->. apply (Hd j Hjc), concat_elem. by exists b', c'.
  - injection Hb' as ->. apply (Hd j Hj), concat_elem. by exists b, c.
  - revert Hjc. apply (IH b b' c c' j Hnd Hb Hb'); [congruence|done].
Qed.

(** A table that differs from a good one in the chain of the removed entry only. *)
Lemma removed_rep t mask es cs b c1 i c2 t' es' p' :
  table_rep t mask es cs -> cs !! b = Some (c1 ++ i :: c2) -> same_content es es' ->
  (forall j, j ∉ c1 ++ i :: c2 -> es' !! j = es !! j) ->
  length t' = length t -> (forall b', b' <> b -> t' !! b' = t !! b') ->
  t' !! b = Some p' -> chain (delete i es') p' (c1 ++ c2) ->
  table_rep t' mask (delete i es') (<[b := c1 ++ c2]> cs).
Proof.
  intros Hr Hb Hsame Hag Hlen Hag' Hp' Hc'.
  pose proof (tr_nodup _ _ _ _ Hr) as Hnd. pose proof (tr_chains _ _ _ _ Hr) as Hcs.
  split.
  - apply Forall2_same_length_lookup. split; [rewrite length_insert, Hlen; by eapply Forall2_length|].
    intros b' q c Hq Hc. destruct (decide (b = b')) as [<-|Hne].
    + rewrite list_lookup_insert_eq in Hc by (by eapply lookup_lt_Some).
      injection Hc as <-. rewrite Hp' in Hq. by injection Hq as <-.
    + rewrite list_lookup_insert_ne in Hc by done. rewrite Hag' in Hq by done.
      eapply chain_frame; [|by eapply Forall2_lookup_lr]. intros j Hj.
      assert (Hjn : j ∉ c1 ++ i :: c2) by (by apply (chains_disjoint cs b b' _ c)).
      rewrite lookup_delete_ne; [by apply Hag|]. intros <-. apply Hjn, elem_of_app. right. by left.
  - pose proof (concat_unlink cs b c1 i c2 Hb) as Hperm. rewrite Hperm in Hnd. by apply NoDup_cons in Hnd as [_ Hnd].
  - intros b' c j ej Hc Hj Hej. apply lookup_delete_Some in Hej as [Hij Hej].
    apply (same_content_lookup _ _ _ _ Hsame) in Hej as (ej' & Hej & Hkey & _).
    replace (bucket mask ej) with (bucket mask ej') by (unfold bucket; by rewrite Hkey).
    destruct (decide (b = b')) as [<-|Hne].
    + rewrite list_lookup_insert_eq in Hc by (by eapply lookup_lt_Some). injection Hc as <-.
      eapply (tr_bucket _ _ _ _ Hr); [done| |done].
      rewrite elem_of_app, elem_of_cons. rewrite elem_of_app in Hj. tauto.
    + rewrite list_lookup_insert_ne in Hc by done. by eapply (tr_bucket _ _ _ _ Hr).
Qed.

(** The entry [i] leaves its chain. *)
Lemma table_unlink t mask es cs b c1 i c2 e :
  table_rep t mask es cs -> cs !! b = Some (c1 ++ i :: c2) -> es !! i = Some e ->
  exists t' es', 
    match last c1 with
    | Some p => exists pe, es !! p = Some pe /\ t' = t /\
        es' = <[p := DictEntry (de_key pe) (de_val pe) (de_next e)]> es
    | None => t' = <[b := de_next e]> t /\ es' = es
    end /\
    table_rep t' mask (delete i es') (<[b := c1 ++ c2]> cs) /\ same_content es es'.
Proof.
  intros Hr Hb He. destruct (rep_chain _ _ _ _ _ _ Hr Hb) as (p0 & Hp0 & Hch).
  pose proof (nodup_chain _ _ _ (tr_nodup _ _ _ _ Hr) Hb) as Hndc.
  destruct (last c1) as [p|] eqn:Hlast.
  - assert (Hpc : p ∈ c1) by (by apply last_Some_elem_of).
    destruct (chain_in es (c1 ++ i :: c2) p0 p Hch) as [pe Hpe]; [apply elem_of_app; by left|].
    exists t, (<[p := DictEntry (de_key pe) (de_val pe) (de_next e)]> es).
    split; [by exists pe|]. assert (Hsame := same_content_next es p pe (de_next e) Hpe).
    split; [|done]. apply (removed_rep t mask es cs b c1 i c2 _ _ p0); try done; [|by apply chain_unlink].
    intros j Hj. rewrite lookup_insert_ne; [done|]. intros <-. apply Hj, elem_of_app. by left.
  - apply last_None in Hlast. subst c1. exists (<[b := de_next e]> t), es. split; [done|].
    split; [|apply same_content_refl].
    apply (removed_rep t mask es cs b [] i c2 _ _ (de_next e)); try done; [by rewrite length_insert|..].
    + intros b' Hne. by rewrite list_lookup_insert_ne.
    + apply list_lookup_insert_eq. by eapply lookup_lt_Some.
    + destruct Hch as (_ & e' & He' & Hc). rewrite He in He'. injection He' as <-.
      eapply chain_frame; [|exact Hc]. intros j Hj. apply NoDup_cons in Hndc as [Hin _].
      rewrite lookup_delete_ne; [done|]. by intros ->.
Qed.

(** A dictionary whose entry [i] was unlinked and freed loses its binding. *)
Lemma dict_without d m t cs k t' cs' es' i e tr :
  dict_holds d m -> dict_shape d t cs k -> ht_used d <= ht_size d -> ht_entries d !! i = Some e ->
  same_content (ht_entries d) es' -> table_rep t' (2 ^ k - 1) (delete i es') cs' -> zlen t' = 2 ^ k ->
  concat cs ≡ₚ i :: concat cs' ->
  dict_holds (Dict (Some t') (ht_size d) (ht_sizemask d) (u32 (ht_used d - 1)) (delete i es') (ht_fresh d) tr)
    (delete (abs (de_key e)) m).
Proof.
  intros [_ Hus Hf Hk Hm] Hsh Hle He Hsame Hrep' Hlt Hperm.
  pose proof (ds_k _ _ _ _ Hsh) as Hkr. pose proof (ds_size _ _ _ _ Hsh) as Hsz.
  assert (Hsub : forall j ej, delete i es' !! j = Some ej ->
    exists ej', ht_entries d !! j = Some ej' /\ i <> j /\ de_key ej' = de_key ej /\ de_val ej' = de_val ej).
  { intros j ej Hj. apply lookup_delete_Some in Hj as [Hij Hj].
    apply (same_content_lookup _ _ _ _ Hsame) in Hj as (ej' & Hj & ? & ?). by exists ej'. }
  apply same_content_is_some with (i := i) in Hsame as Hi'.
  assert (Hsize : size (ht_entries d) = S (size (delete i es'))).
  { rewrite <- (same_content_size _ _ Hsame). destruct Hi' as [_ Hi']. destruct (Hi' ltac:(by exists e)) as [e' He'].
    rewrite <- (insert_delete_id es' i e' He') at 1. by rewrite map_size_insert_None by apply lookup_delete_eq. }
  assert (Hpow : 2 ^ k <= 2 ^ 28) by (apply Z.pow_le_mono_r; lia).
  split; cbn.
  - right. exists t', cs', k. split; [|cbn; rewrite u32_small by lia; lia].
    split; try done; cbn; [by apply (ds_mask _ _ _ _ Hsh)|].
    intros j [ej Hj]. destruct (Hsub _ _ Hj) as (ej' & Hj' & Hij & _).
    assert (Hjc : j ∈ concat cs) by (apply (ds_all _ _ _ _ Hsh); by exists ej').
    rewrite Hperm in Hjc. apply elem_of_cons in Hjc as [->|?]; done.
  - rewrite u32_small by lia. lia.
  - intros j Hj. apply eq_None_not_Some. intros [ej Hej]. destruct (Hsub _ _ Hej) as (ej' & Hej' & _).
    by rewrite (Hf j Hj) in Hej'.
  - intros j1 j2 e1 e2 H1 H2 Heq. destruct (Hsub _ _ H1) as (e1' & H1' & _ & Ek1 & _).
    destruct (Hsub _ _ H2) as (e2' & H2' & _ & Ek2 & _). apply (Hk j1 j2 e1' e2' H1' H2'). congruence.
  - intros a w. rewrite lookup_delete_Some, Hm. split.
    + intros (Hne & j & ej & Hj & Ha & Hw). apply same_content_sym in Hsame as Hback.
      destruct (same_content_lookup _ _ _ _ Hback Hj) as (ej' & Hj' & Ek & Ev).
      exists j, ej'. rewrite lookup_delete_ne; [by rewrite Ek, Ev|]. intros <-. congruence.
    + intros (j & ej & Hj & Ha & Hw). destruct (Hsub _ _ Hj) as (ej' & Hj' & Hij & Ek & Ev).
      split; [|exists j, ej'; by rewrite Ek, Ev]. intros Hka'. apply Hij.
      apply (Hk i j e ej' He Hj'). congruence.
Qed.

Lemma dictDelete_spec d m key :
  dict_holds d m -> ht_used d < 2 ^ 27 ->
  match m !! abs key with
  | Some v => exists d' k, dictDelete type key d = Ok (DICT_OK, d') /\
      dict_holds d' (delete (abs key) m) /\ abs k = abs key /\
      ht_trace d' = dictFreeEntryVal type (DictEntry k v None)
                      (dictFreeEntryKey type (DictEntry k v None) (ht_trace d))
  | None => dictDelete type key d = Ok (DICT_ERR, d)
  end.
Proof.
  intros Hd Hu. pose proof Hd as [Hsh Hus Hf Hk Hm]. unfold dictDelete.
  destruct Hsh as [(Hs & Ht & He)|(t & cs & k & Hsh & Hle)].
  { rewrite Hs. destruct (m !! abs key) as [v|] eqn:E; [|done].
    apply Hm in E as (i & e & Hi & _). by rewrite He, lookup_empty in Hi. }
  pose proof (ds_k _ _ _ _ Hsh) as Hkr. pose proof (ds_size _ _ _ _ Hsh) as Hsz.
  assert (0 < 2 ^ k) by (apply Z.pow_pos_nonneg; lia).
  rewrite (proj2 (Z.eqb_neq _ _)) by lia. rewrite hash_abs. cbn [mbind result_bind].
  destruct (slot d t cs k (abs key) Hsh) as (Hb & p & c & Ep & Hp & Hc & Hch & Hlen).
  set (b := Z.land _ _) in *. rewrite Ep. cbn [mbind result_bind].
  destruct (m !! abs key) as [v|] eqn:E.
  2: { pose proof (delete_in_chain_spec key b c [] (size (ht_entries d)) p None d) as Hdel.
       rewrite app_nil_r in Hdel. apply Hdel; [done|done|]. intros i e _ He Hka.
       assert (m !! abs key = Some (de_val e)) by (apply Hm; eauto). congruence. }
  apply Hm in E as (i & e & He & Hka & Hv).
  assert (Hic : i ∈ c) by (eapply in_slot; [done|done|by rewrite Hka]).
  apply list_elem_of_split in Hic as (c1 & c2 & ->).
  pose proof (ds_rep _ _ _ _ Hsh) as Hrep.
  pose proof (nodup_chain _ _ _ (tr_nodup _ _ _ _ Hrep) Hc) as Hnd.
  pose proof (delete_in_chain_spec key b c1 (i :: c2) (size (ht_entries d)) p None d Hch Hlen) as Hdel.
  cbn match in Hdel. specialize (fun Hno => Hdel Hno e He Hka). rewrite Hdel; clear Hdel.
  2: { intros j ej Hj Hej Hkj. apply NoDup_app in Hnd as (_ & Hd' & _).
       apply (Hd' j Hj). rewrite (Hk j i ej e Hej He); [by left|congruence]. }
  change (option_list (@None nat) ++ c1) with c1.
  destruct (table_unlink t (2 ^ k - 1) (ht_entries d) cs (Z.to_nat b) c1 i c2 e Hrep Hc He)
    as (t' & es' & Hcase & Hrep' & Hsame).
  assert (Hlt : zlen t' = 2 ^ k).
  { rewrite <- (ds_len _ _ _ _ Hsh). destruct (last c1).
    - by destruct Hcase as (pe & _ & -> & _).
    - destruct Hcase as [-> _]. len_lia. }
  assert (Hmem : match last c1 with
     | Some p => pe ← load_entry (ht_entries d) p;
         Ok (ht_table d, <[p := DictEntry (de_key pe) (de_val pe) (de_next e)]> (ht_entries d))
     | None => table ← table_put (ht_table d) b (de_next e); Ok (table, ht_entries d)
     end = Ok (Some t', es')).
  { rewrite (ds_table _ _ _ _ Hsh). destruct (last c1) as [q|].
    - destruct Hcase as (pe & Hpe & -> & ->). by rewrite (load_entry_ok _ _ _ Hpe).
    - destruct Hcase as [-> ->].
      destruct (table_ops t b (de_next e) k) as [_ ->]; [by eapply ds_len|done|lia|done]. }
  rewrite Hmem. cbn [mbind result_bind]. eexists _, (de_key e). split; [reflexivity|].
  split; [|split; [done|by rewrite <- Hv; destruct e]].
  rewrite <- Hka. by apply (dict_without d m t cs k t' _ es' i e _ Hd Hsh Hle He Hsame Hrep' Hlt), concat_unlink.
Qed.

(** ** All the entries *)

Definition content es (i : nat) : option (A * V) := (fun e => (abs (de_key e), de_val e)) <$> es !! i.

Lemma content_perm d m (ids : list nat) :
  dict_holds d m -> NoDup ids -> (forall i, i ∈ ids <-> is_Some (ht_entries d !! i)) ->
  omap (content (ht_entries d)) ids ≡ₚ map_to_list m.
Proof.
  intros [_ _ _ Hk Hm] Hnd Hids. apply NoDup_Permutation; [|apply NoDup_map_to_list|].
  - assert (Hex : forall i, i ∈ ids -> is_Some (ht_entries d !! i)) by (intros i; apply Hids).
    clear Hids. induction ids as [|i ids IH]; [constructor|].
    apply NoDup_cons in Hnd as [Hi Hnd]. destruct (Hex i) as [e He]; [by left|].
    cbn. unfold content at 1. rewrite He. cbn. constructor.
    + intros (j & Hj & Ej)%list_elem_of_omap. unfold content in Ej.
      destruct (ht_entries d !! j) as [e'|] eqn:He'; [|done]. cbn in Ej. injection Ej as Ek _.
      apply Hi. by rewrite (Hk i j e e' He He' ltac:(congruence)).
    + apply IH; [done|]. intros j Hj. apply Hex. by right.
  - intros [a v]. rewrite elem_of_map_to_list, Hm, list_elem_of_omap. split.
    + intros (i & _ & Ei). unfold content in Ei. destruct (ht_entries d !! i) as [e|] eqn:He; [|done].
      cbn in Ei. injection Ei as <- <-. by exists i, e.
    + intros (i & e & He & <- & <-). exists i. split; [by apply Hids; exists e|].
      unfold content. by rewrite He.
Qed.

Lemma content_length es (ids : list nat) :
  (forall i, i ∈ ids -> is_Some (es !! i)) -> length (omap (content es) ids) = length ids.
Proof.
  intros Hex. induction ids as [|i l IH]; [done|]. cbn. destruct (Hex i) as [e He]; [by left|].
  unfold content at 1. rewrite He. cbn. f_equal. apply IH. intros j Hj. apply Hex. by right.
Qed.

(** The table counts the entries of the map. *)
Lemma holds_used d m : dict_holds d m -> ht_used d = Z.of_nat (size m).
Proof.
  intros Hd. rewrite (dh_used _ _ Hd). f_equal.
  set (ids := elements (dom (ht_entries d))).
  assert (Hids : forall i, i ∈ ids <-> is_Some (ht_entries d !! i)).
  { intros i. unfold ids. by rewrite elem_of_elements, elem_of_dom. }
  pose proof (NoDup_elements (dom (ht_entries d))) as Hnd.
  rewrite <- (ids_size_eq _ ids Hnd Hids), <- (content_length (ht_entries d) ids) by (intros i; apply Hids).
  rewrite (content_perm d m ids Hd Hnd Hids). apply length_map_to_list.
Qed.

Lemma shape_ids d t cs k : dict_shape d t cs k ->
  NoDup (concat cs) /\ forall i, i ∈ concat cs <-> is_Some (ht_entries d !! i).
Proof.
  intros Hsh. pose proof (ds_rep _ _ _ _ Hsh) as Hr. split; [by apply tr_nodup in Hr|].
  intros i. split; [by eapply rep_in|by apply (ds_all _ _ _ _ Hsh)].
Qed.

(** ** Releasing *)

(** What freeing an entry destroys. *)
Definition destroys (e : dictEntry (K := K) (V := V)) : list destroyed :=
  dictFreeEntryVal type e (dictFreeEntryKey type e []).

Lemma free_trace e tr : dictFreeEntryVal type e (dictFreeEntryKey type e tr) = tr ++ destroys e.
Proof.
  unfold destroys, dictFreeEntryVal, dictFreeEntryKey.
  destruct (valDestructor type), (keyDestructor type); cbn; rewrite <- ?app_assoc, ?app_nil_r; done.
Qed.

Definition remove_ids (l : list nat) es := foldl (fun es i => delete i es) es l.

Lemma remove_ids_lookup l : forall es i, remove_ids l es !! i = if decide (i ∈ l) then None else es !! i.
Proof.
  induction l as [|j l IH]; intros es i; [done|]. unfold remove_ids in *. cbn [foldl]. rewrite IH.
  destruct (decide (i ∈ l)).
  - rewrite decide_True; [done|by right].
  - destruct (decide (i = j)) as [->|Hne].
    + rewrite lookup_delete_eq. rewrite decide_True; [done|by left].
    + rewrite lookup_delete_ne by done. rewrite decide_False; [done|]. by rewrite not_elem_of_cons.
Qed.

(** What freeing the entries [l] destroys. *)
Definition destroys_all es (l : list nat) : list destroyed := omap (es !!.) l ≫= destroys.

Lemma destroys_all_app es l1 l2 : destroys_all es (l1 ++ l2) = destroys_all es l1 ++ destroys_all es l2.
Proof. unfold destroys_all. by rewrite omap_app, bind_app. Qed.

Lemma destroys_all_ext es es' l : (forall i, i ∈ l -> es' !! i = es !! i) -> destroys_all es' l = destroys_all es l.
Proof.
  intros Hag. unfold destroys_all. f_equal. apply list_omap_ext.
  apply Forall2_same_length_lookup. split; [done|].
  intros n x y Hx Hy. assert (x = y) as <- by congruence. apply Hag. by eapply list_elem_of_lookup_2.
Qed.

Lemma clear_chain_spec : forall c fuel p d,
  chain (ht_entries d) p c -> NoDup c -> (length c <= fuel)%nat ->
  Z.of_nat (length c) <= ht_used d < 2 ^ 32 ->
  clear_chain type fuel p d =
    Ok (Dict (ht_table d) (ht_size d) (ht_sizemask d) (ht_used d - Z.of_nat (length c))
          (remove_ids c (ht_entries d)) (ht_fresh d) (ht_trace d ++ destroys_all (ht_entries d) c)).
Proof.
  induction c as [|i c IH]; intros fuel p d Hc Hnd Hf Hu.
  - cbn in Hc. subst. destruct d; destruct fuel; cbn; by rewrite app_nil_r, Z.sub_0_r.
  - destruct Hc as (-> & e & He & Hc). destruct fuel as [|fuel]; [cbn in Hf; lia|].
    apply NoDup_cons in Hnd as [Hi Hnd]. cbn [clear_chain length] in *.
    rewrite (load_entry_ok _ _ _ He). cbn [mbind result_bind]. rewrite u32_small by lia.
    rewrite IH; cbn [ht_table ht_size ht_sizemask ht_used ht_entries ht_fresh ht_trace]; try done.
    + f_equal. f_equal; [lia|]. rewrite free_trace, <- app_assoc.
      change (i :: c) with ([i] ++ c). rewrite destroys_all_app.
      unfold destroys_all at 2. cbn. rewrite He. cbn. rewrite app_nil_r. do 2 f_equal.
      apply destroys_all_ext. intros j Hj. apply lookup_delete_ne. by intros ->.
    + eapply chain_frame; [|done]. intros j Hj. apply lookup_delete_ne. by intros ->.
    + lia.
    + lia.
Qed.

Lemma clear_slots_spec ot : forall ocs i d,
  ht_table d = Some ot -> Forall2 (chain (ht_entries d)) (drop i ot) ocs -> NoDup (concat ocs) ->
  (forall j, is_Some (ht_entries d !! j) -> j ∈ concat ocs) ->
  ht_used d = zlen (concat ocs) -> ht_used d < 2 ^ 32 ->
  exists d', clear_slots type (length ocs) (Z.of_nat i) d = Ok d' /\ ht_entries d' = ∅ /\
    ht_trace d' = ht_trace d ++ destroys_all (ht_entries d) (concat ocs).
Proof.
  induction ocs as [|c ocs IH]; intros i d Ht Hch Hnd Hall Hu Hlt.
  { exists d. split; [done|]. split; [|by rewrite app_nil_r].
    apply map_empty. intros j. apply eq_None_not_Some. intros Hj. by apply Hall, not_elem_of_nil in Hj. }
  cbn [clear_slots length]. rewrite Hu. destruct (Z.ltb_spec 0 (zlen (concat (c :: ocs)))) as [Hpos|Hz].
  2: { destruct (concat (c :: ocs)) eqn:E; [|len_lia]. exists d. split; [done|].
       split; [|by rewrite app_nil_r]. apply map_empty. intros j. apply eq_None_not_Some. intros Hj.
       by apply Hall, not_elem_of_nil in Hj. }
  apply Forall2_cons_inv_r in Hch as (p & ps & Hp & Hps & Eps). cbn [concat] in *.
  apply NoDup_app in Hnd as (Hnc & Hnco & Hno). rewrite zlen_app in *. pose proof (zlen_nonneg (concat ocs)).
  assert (Hot : ot !! i = Some p) by (by rewrite <- (Nat.add_0_r i), <- lookup_drop, Eps).
  unfold table_get. rewrite Ht, (proj2 (Z.ltb_ge _ _)), Nat2Z.id, Hot by lia. cbn [of_option mbind result_bind].
  rewrite (clear_chain_spec c); [|done|done| |unfold zlen in *; lia].
  2: { apply ids_size; [done|]. intros j Hj. by eapply chain_in. }
  cbn [mbind result_bind].
  destruct (IH (S i) (Dict (ht_table d) (ht_size d) (ht_sizemask d) (ht_used d - Z.of_nat (length c))
              (remove_ids c (ht_entries d)) (ht_fresh d) (ht_trace d ++ destroys_all (ht_entries d) c)))
    as (d' & E & He & Htr); cbn [ht_table ht_entries ht_used ht_trace] in *; try done.
  - replace (drop (S i) ot) with ps by (by rewrite <- Nat.add_1_r, <- drop_drop, Eps).
    eapply chains_frame; [|done]. intros j Hj. rewrite remove_ids_lookup, decide_False; [done|].
    intros Hjc. by eapply Hnco.
  - intros j Hj. rewrite remove_ids_lookup in Hj. destruct (decide (j ∈ c)); [by destruct Hj|].
    apply Hall, elem_of_app in Hj. tauto.
  - unfold zlen in *. lia.
  - unfold zlen in *. lia.
  - exists d'. split; [|split; [done|]].
    { rewrite <- E. f_equal. lia. }
    rewrite Htr, destroys_all_app, <- app_assoc. do 2 f_equal. apply destroys_all_ext.
    intros j Hj. rewrite remove_ids_lookup, decide_False; [done|]. intros Hjc. by eapply Hnco.
Qed.

Lemma dictRelease_spec d m :
  dict_holds d m -> ht_used d < 2 ^ 32 ->
  exists ids, dictRelease type d = Ok (∅, ht_trace d ++ destroys_all (ht_entries d) ids) /\
    omap (content (ht_entries d)) ids ≡ₚ map_to_list m.
Proof.
  intros Hd Hu. pose proof Hd as [Hsh Hus _ _ _]. unfold dictRelease, _dictClear.
  destruct Hsh as [(Hs & _ & He)|(t & cs & k & Hsh & _)].
  - exists []. rewrite Hs. change (Z.to_nat 0) with 0%nat. cbn [clear_slots mbind result_bind _dictReset ht_entries ht_trace].
    rewrite He. split; [unfold destroys_all; cbn [omap list_omap mbind list_bind]; by rewrite app_nil_r|]. rewrite <- He.
    apply (content_perm d m []); [done|constructor|]. intros i. rewrite He, lookup_empty.
    split; [by intros ?%not_elem_of_nil|by intros [? ?]].
  - destruct (shape_ids d t cs k Hsh) as [Hnd Hids].
    pose proof (ds_rep _ _ _ _ Hsh) as Hr. pose proof (tr_chains _ _ _ _ Hr) as Hcs.
    apply Forall2_length in Hcs as Hlen. pose proof (ds_len _ _ _ _ Hsh) as Hl.
    pose proof (ids_size_eq (ht_entries d) _ Hnd Hids) as Hsize.
    destruct (clear_slots_spec t cs 0 d) as (d' & E & He & Htr); [by eapply ds_table|done|done| |len_lia|done|].
    { intros j. apply Hids. }
    exists (concat cs). rewrite (ds_size _ _ _ _ Hsh).
    replace (Z.to_nat (2 ^ k)) with (length cs) by len_lia. change (Z.of_nat 0) with 0 in E.
    rewrite E. cbn. rewrite He, Htr. split; [done|]. by apply content_perm.
Qed.

(** ** Iterating *)

(** [while ((de = dictNext(it)) != NULL)], collecting the entries. *)
Fixpoint dict_walk (fuel : nat) (it : dictIterator) (d : dict (K := K) (V := V)) : result (list nat) :=
  match fuel with
  | O => Err NoFuel
  | S fuel =>
      '(de, it) ← dictNext it d;
      match de with
      | None => Ok []
      | Some i => l ← dict_walk fuel it d; Ok (i :: l)
      end
  end.

(** The ids the iterator [it] has still to give. *)
Definition it_rest d (cs : list (list nat)) (it : dictIterator) (rest : list nat) : Prop :=
  -1 <= it_index it /\
  match it_entry it with
  | None => rest = concat (drop (Z.to_nat (it_index it + 1)) cs)
  | Some _ => 0 <= it_index it /\ exists c, chain (ht_entries d) (it_nextEntry it) c /\
      rest = c ++ concat (drop (Z.to_nat (it_index it + 1)) cs)
  end.

Lemma dictNext_none d t cs k : dict_shape d t cs k -> forall fuel it rest,
  it_entry it = None -> it_rest d cs it rest ->
  (Z.to_nat (ht_size d - it_index it) < fuel)%nat ->
  match rest with
  | [] => exists it', dictNext_loop fuel it d = Ok (None, it')
  | i :: rest => exists it', dictNext_loop fuel it d = Ok (Some i, it') /\ it_rest d cs it' rest
  end.
Proof.
  intros Hsh. pose proof (ds_k _ _ _ _ Hsh) as Hk. pose proof (ds_size _ _ _ _ Hsh) as Hs.
  assert (Hpow : 2 ^ 2 <= 2 ^ k <= 2 ^ 28) by (split; apply Z.pow_le_mono_r; lia).
  pose proof (ds_len _ _ _ _ Hsh) as Hl. pose proof (ds_rep _ _ _ _ Hsh) as Hr.
  pose proof (Forall2_length _ _ _ (tr_chains _ _ _ _ Hr)) as Hlen.
  induction fuel as [|fuel IH]; intros it rest Hn [Hi Hrest] Hf; [lia|].
  rewrite Hn in Hrest. subst rest. cbn [dictNext_loop]. rewrite Hn, i32_small by lia.
  destruct (Z.leb_spec (ht_size d) (it_index it + 1)) as [Hge|Hlt].
  { rewrite drop_ge by len_lia. cbn. by eexists. }
  destruct (lookup_lt_is_Some_2 cs (Z.to_nat (it_index it + 1))) as [c Hc]; [len_lia|].
  rewrite (drop_S cs c) by done. cbn [concat].
  destruct (rep_chain _ _ _ _ _ _ Hr Hc) as (p & Hp & Hch).
  rewrite (ds_table _ _ _ _ Hsh). unfold table_get. rewrite (proj2 (Z.ltb_ge _ _)), Hp by lia.
  cbn [of_option mbind result_bind]. destruct c as [|i c].
  - cbn in Hch. subst p. cbn [app].
    apply (IH (DictIterator (it_index it + 1) None (it_nextEntry it))); cbn; [done| |lia].
    split; cbn; [lia|]. f_equal. f_equal. lia.
  - destruct Hch as (-> & e & He & Hch). rewrite (load_entry_ok _ _ _ He). cbn [mbind result_bind app].
    eexists. split; [done|]. split; cbn; [lia|]. split; [lia|]. exists c. split; [done|]. do 3 f_equal. lia.
Qed.

Lemma dictNext_spec d t cs k it rest : dict_shape d t cs k -> it_rest d cs it rest ->
  match rest with
  | [] => exists it', dictNext it d = Ok (None, it')
  | i :: rest => exists it', dictNext it d = Ok (Some i, it') /\ it_rest d cs it' rest
  end.
Proof.
  intros Hsh Hrest. pose proof Hrest as [Hi Hc]. unfold dictNext.
  destruct (it_entry it) as [n|] eqn:En.
  2: { by apply (dictNext_none d t cs k Hsh); [..|lia]. }
  destruct Hc as (Hi0 & c & Hch & ->).
  replace (Z.to_nat (ht_size d) + 2)%nat with (S (Z.to_nat (ht_size d) + 1)) by lia.
  cbn [dictNext_loop]. rewrite En. destruct c as [|i c].
  - cbn in Hch. rewrite Hch. cbn [app].
    by apply (dictNext_none d t cs k Hsh (Z.to_nat (ht_size d) + 1) (DictIterator (it_index it) None None)); cbn; [..|lia].
  - destruct Hch as (-> & e & He & Hch). rewrite (load_entry_ok _ _ _ He). cbn [mbind result_bind app].
    eexists. split; [done|]. split; cbn; [lia|]. split; [lia|]. by exists c.
Qed.

(** The iterator gives the entries [ids], in order, then NULL. *)
Fixpoint iterates d (it : dictIterator) (ids : list nat) : Prop :=
  match ids with
  | [] => exists it', dictNext it d = Ok (None, it')
  | i :: ids => exists it', dictNext it d = Ok (Some i, it') /\ iterates d it' ids
  end.

Lemma rest_iterates d t cs k : dict_shape d t cs k -> forall rest it, it_rest d cs it rest -> iterates d it rest.
Proof.
  intros Hsh. induction rest as [|i rest IH]; intros it Hit;
    destruct (dictNext_spec d t cs k it _ Hsh Hit) as [it' Hn]; [by exists it'|].
  destruct Hn as [Hn Hit']. exists it'. split; [done|by apply IH].
Qed.

Lemma dict_iterates_spec d m :
  dict_holds d m ->
  exists ids, iterates d dictGetIterator ids /\ (forall i, i ∈ ids <-> is_Some (ht_entries d !! i)) /\
    omap (content (ht_entries d)) ids ≡ₚ map_to_list m.
Proof.
  intros Hd. pose proof Hd as [Hsh Hus _ _ _].
  destruct Hsh as [(Hs & _ & He)|(t & cs & k & Hsh & _)].
  - exists []. split; [|split].
    + cbn [iterates]. unfold dictNext, dictGetIterator. rewrite Hs. change (Z.to_nat 0 + 2)%nat with 2%nat.
      cbn [dictNext_loop it_entry it_index]. rewrite Hs. by eexists.
    + intros i. rewrite He, lookup_empty. split; [by intros ?%not_elem_of_nil|by intros [? ?]].
    + apply (content_perm d m []); [done|constructor|]. intros i. rewrite He, lookup_empty.
      split; [by intros ?%not_elem_of_nil|by intros [? ?]].
  - destruct (shape_ids d t cs k Hsh) as [Hnd Hids]. exists (concat cs).
    split; [|split; [done|by apply content_perm]]. apply (rest_iterates d t cs k Hsh). by split; cbn; [lia|].
Qed.

Lemma walk_spec d : forall ids fuel it, iterates d it ids -> (length ids < fuel)%nat -> dict_walk fuel it d = Ok ids.
Proof.
  induction ids as [|i ids IH]; intros [|fuel] it Hit Hf; try (cbn in Hf; lia); cbn [dict_walk iterates] in *;
    destruct Hit as [it' Hn].
  - by rewrite Hn.
  - destruct Hn as [-> Hit']. cbn [mbind result_bind]. rewrite IH; [done|done|]. cbn in Hf. lia.
Qed.

Lemma dict_walk_spec d m :
  dict_holds d m ->
  exists ids, dict_walk (S (size m)) dictGetIterator d = Ok ids /\
    omap (content (ht_entries d)) ids ≡ₚ map_to_list m.
Proof.
  intros Hd. destruct (dict_iterates_spec d m Hd) as (ids & Hit & Hids & Hp). exists ids. split; [|done].
  apply walk_spec; [done|]. apply Permutation_length in Hp.
  rewrite length_map_to_list, content_length in Hp by (intros i; apply Hids). lia.
Qed.
End spec.
