(* ===== verification/DictRun.v ===== *)
(** * Using the hash table

    Sequences of operations on a table, against a finite map; what the
    destructors are called with; the table [async.c] keeps its subscriptions
    in, whose keys are byte strings. *)

From S2P Require Import Prelude Dict DictSpec.

Section ops.
Context {K V A : Type} `{!EqDecision K} `{Countable A}.
Context (type : dictType (K := K) (V := V)) (abs : K -> A) (hash : A -> Z) `{!HashType type abs hash}.

Inductive dict_op := DoAdd (k : K) (v : V) | DoReplace (k : K) (v : V) | DoDelete (k : K) | DoFind (k : K).

(** The C result of an operation; the value of the entry found. *)
Inductive dict_answer := Code (rc : Z) | Fetched (v : option V).

Definition run_op (op : dict_op) (d : dict (K := K) (V := V)) : result (dict_answer * dict (K := K) (V := V)) :=
  match op with
  | DoAdd k v => '(rc, d) ← dictAdd type k v d; Ok (Code rc, d)
  | DoReplace k v => '(rc, d) ← dictReplace type k v d; Ok (Code rc, d)
  | DoDelete k => '(rc, d) ← dictDelete type k d; Ok (Code rc, d)
  | DoFind k =>
      r ← dictFind type k d;
      match r with
      | None => Ok (Fetched None, d)
      | Some i => e ← load_entry (ht_entries d) i; Ok (Fetched (Some (de_val e)), d)
      end
  end.

Fixpoint run_ops (ops : list dict_op) (d : dict (K := K) (V := V))
    : result (list dict_answer * dict (K := K) (V := V)) :=
  match ops with
  | [] => Ok ([], d)
  | op :: ops =>
      '(x, d) ← run_op op d;
      '(xs, d) ← run_ops ops d;
      Ok (x :: xs, d)
  end.

(** The same operations on a map; also the values it stops to hold, in order. *)
Definition map_op (op : dict_op) (m : gmap A V) : dict_answer * gmap A V * list V :=
  match op with
  | DoAdd k v =>
      match m !! abs k with
      | Some _ => (Code DICT_ERR, m, [])
      | None => (Code DICT_OK, <[abs k := dictSetHashVal type v]> m, [])
      end
  | DoReplace k v =>
      (Code (if m !! abs k is Some _ then 0 else 1), <[abs k := dictSetHashVal type v]> m, option_list (m !! abs k))
  | DoDelete k =>
      match m !! abs k with
      | Some v => (Code DICT_OK, delete (abs k) m, [v])
      | None => (Code DICT_ERR, m, [])
      end
  | DoFind k => (Fetched (m !! abs k), m, [])
  end.

Fixpoint map_ops (ops : list dict_op) (m : gmap A V) : list dict_answer * gmap A V * list V :=
  match ops with
  | [] => ([], m, [])
  | op :: ops =>
      let '(x, m, dead) := map_op op m in
      let '(xs, m, dead') := map_ops ops m in
      (x :: xs, m, dead ++ dead')
  end.

Definition values_destroyed (trace : list (destroyed (K := K) (V := V))) : list V :=
  omap (fun x => match x with ValDestroyed v => Some v | KeyDestroyed _ => None end) trace.

Lemma values_destroyed_app t1 t2 :
  values_destroyed (t1 ++ t2) = values_destroyed t1 ++ values_destroyed t2.
Proof. apply omap_app. Qed.

Lemma values_freed e tr :
  valDestructor type = true ->
  values_destroyed (dictFreeEntryVal type e (dictFreeEntryKey type e tr)) = values_destroyed tr ++ [de_val e].
Proof.
  intros Hv. unfold dictFreeEntryVal, dictFreeEntryKey. rewrite Hv.
  destruct (keyDestructor type); rewrite !values_destroyed_app; cbn; by rewrite ?app_nil_r.
Qed.

Lemma run_op_spec op d (m : gmap A V) :
  dict_holds abs hash d m -> Z.of_nat (size m) < 2 ^ 27 ->
  let '(x, m', dead) := map_op op m in
  exists d', run_op op d = Ok (x, d') /\ dict_holds abs hash d' m' /\
    (valDestructor type = true ->
     values_destroyed (ht_trace d') = values_destroyed (ht_trace d) ++ dead).
Proof.
  intros Hd Hs. pose proof (holds_used abs hash d m Hd) as Hu. rewrite <- Hu in Hs.
  destruct op as [k v|k v|k|k]; cbn [map_op run_op].
  - destruct (dictAdd_spec type abs hash d m k v Hd Hs) as (d' & Ht & Hadd).
    destruct (m !! abs k); destruct Hadd as [-> Hd']; exists d'; rewrite Ht, app_nil_r; done.
  - destruct (dictReplace_spec type abs hash d m k v Hd Hs) as (d' & Hd' & Hr).
    destruct (m !! abs k); destruct Hr as [-> Ht]; exists d'; rewrite Ht; (split; [done|]; split; [done|]).
    + intros ->. by rewrite values_destroyed_app.
    + by rewrite app_nil_r.
  - pose proof (dictDelete_spec type abs hash d m k Hd Hs) as Hdel.
    destruct (m !! abs k) as [v|].
    + destruct Hdel as (d' & k' & -> & Hd' & _ & Ht). exists d'. split; [done|]. split; [done|].
      intros Hv. rewrite Ht. by rewrite values_freed.
    + rewrite Hdel. exists d. by rewrite app_nil_r.
  - destruct (dictFind_found type abs hash d m k Hd) as (r & -> & Hr). cbn [mbind result_bind].
    pose proof (found_map abs hash d m k r Hd Hr) as Hf. exists d. destruct r as [i|].
    + destruct Hf as (e & He & ->). rewrite (load_entry_ok _ _ _ He). by rewrite app_nil_r.
    + rewrite Hf. by rewrite app_nil_r.
Qed.

Lemma map_op_size op (m : gmap A V) :
  (size (map_op op m).1.2 <= S (size m))%nat.
Proof.
  destruct op as [k v|k v|k|k]; cbn [map_op].
  - destruct (m !! abs k) eqn:E; cbn; [lia|]. rewrite map_size_insert_None by done. lia.
  - cbn. rewrite map_size_insert. destruct (m !! abs k); cbn; lia.
  - destruct (m !! abs k) eqn:E; cbn; [|lia]. rewrite map_size_delete, E. lia.
  - cbn. lia.
Qed.

Lemma run_ops_spec : forall ops d (m : gmap A V),
  dict_holds abs hash d m -> Z.of_nat (size m) + zlen ops < 2 ^ 27 ->
  let '(xs, m', dead) := map_ops ops m in
  exists d', run_ops ops d = Ok (xs, d') /\ dict_holds abs hash d' m' /\
    (valDestructor type = true ->
     values_destroyed (ht_trace d') = values_destroyed (ht_trace d) ++ dead).
Proof.
  induction ops as [|op ops IH]; intros d m Hd Hs; cbn [map_ops run_ops].
  { exists d. by rewrite app_nil_r. }
  rewrite zlen_cons in Hs. pose proof (zlen_nonneg ops).
  pose proof (run_op_spec op d m Hd ltac:(lia)) as Hop. pose proof (map_op_size op m) as Hsz.
  destruct (map_op op m) as [[x m1] dead]. cbn in Hsz.
  destruct Hop as (d1 & -> & Hd1 & Ht1). specialize (IH d1 m1 Hd1 ltac:(lia)).
  destruct (map_ops ops m1) as [[xs m2] dead']. destruct IH as (d2 & E2 & Hd2 & Ht2).
  exists d2. cbn [mbind result_bind]. rewrite E2. split; [done|]. split; [done|].
  intros Hv. by rewrite Ht2, Ht1, <- app_assoc.
Qed.

Lemma create_holds : dict_holds abs hash (dictCreate (K := K) (V := V)) ∅.
Proof.
  split.
  - by left.
  - cbn. by rewrite map_size_empty.
  - intros i _. apply lookup_empty.
  - cbn. intros i j ei ej Hi. by rewrite lookup_empty in Hi.
  - cbn. intros a v. rewrite lookup_empty. split; [done|]. intros (i & e & Hi & _). by rewrite lookup_empty in Hi.
Qed.

(** The values an operation makes the table hold. *)
Definition stored_by (op : dict_op) (m : gmap A V) : list V :=
  match op with
  | DoAdd k v => match m !! abs k with Some _ => [] | None => [dictSetHashVal type v] end
  | DoReplace k v => [dictSetHashVal type v]
  | _ => []
  end.

Fixpoint stored (ops : list dict_op) (m : gmap A V) : list V :=
  match ops with
  | [] => []
  | op :: ops => stored_by op m ++ stored ops (map_op op m).1.2
  end.

Definition values_of (m : gmap A V) : list V := snd <$> map_to_list m.

Lemma values_insert (m : gmap A V) a v :
  m !! a = None -> values_of (<[a := v]> m) ≡ₚ v :: values_of m.
Proof. intros E. unfold values_of. by rewrite map_to_list_insert. Qed.

Lemma values_delete (m : gmap A V) a v :
  m !! a = Some v -> values_of m ≡ₚ v :: values_of (delete a m).
Proof. intros E. rewrite <- (insert_delete_id m a v E) at 1. apply values_insert, lookup_delete_eq. Qed.

Lemma values_replace (m : gmap A V) a v :
  option_list (m !! a) ++ values_of (<[a := v]> m) ≡ₚ v :: values_of m.
Proof.
  destruct (m !! a) as [w|] eqn:E; [|by apply values_insert].
  rewrite (values_delete m a w E), (values_delete (<[a := v]> m) a v) by apply lookup_insert_eq.
  rewrite delete_insert_eq. cbn. constructor.
Qed.

(** No value appears or disappears on the way. *)
Lemma values_conserved : forall ops (m : gmap A V),
  let '(_, m', dead) := map_ops ops m in dead ++ values_of m' ≡ₚ stored ops m ++ values_of m.
Proof.
  induction ops as [|op ops IH]; intros m; cbn [map_ops stored]; [done|].
  assert (Hop : (map_op op m).2 ++ values_of (map_op op m).1.2 ≡ₚ stored_by op m ++ values_of m).
  { destruct op as [k v|k v|k|k]; cbn; try done.
    - destruct (m !! abs k) eqn:E; cbn; [done|]. by apply values_insert.
    - apply values_replace.
    - destruct (m !! abs k) eqn:E; cbn; [|done]. symmetry. by apply values_delete. }
  destruct (map_op op m) as [[x m1] dead]. cbn in *. specialize (IH m1).
  destruct (map_ops ops m1) as [[xs m2] dead']. rewrite <- app_assoc, IH.
  rewrite (Permutation_app_comm (stored ops m1)), app_assoc, Hop.
  rewrite <- !app_assoc. f_equiv. apply Permutation_app_comm.
Qed.

Lemma map_ops_size : forall ops (m : gmap A V),
  (size (map_ops ops m).1.2 <= length ops + size m)%nat.
Proof.
  induction ops as [|op ops IH]; intros m; cbn [map_ops length]; [done|].
  pose proof (map_op_size op m). destruct (map_op op m) as [[x m1] dead]. cbn in *.
  specialize (IH m1). destruct (map_ops ops m1) as [[xs m2] dead']. cbn in *. lia.
Qed.

Lemma values_destroys es ids :
  valDestructor type = true ->
  values_destroyed (destroys_all type es ids) = snd <$> omap (content abs es) ids.
Proof.
  intros Hv. induction ids as [|i ids IH]; [done|]. unfold destroys_all in *. cbn.
  unfold content at 1. destruct (es !! i) as [e|]; cbn; [|done].
  rewrite values_destroyed_app, IH. unfold destroys. by rewrite values_freed.
Qed.
End ops.

(** ** The table of subscriptions ([win32/hiredis/async.c], lines 51-90)

    A key is the contents of an sds string. *)

Section callbacks.
Context {V : Type}.

Definition callbackHash (key : list byte) : result Z := dictGenHashFunction key (zlen key).

Definition callbackValDup (src : V) : V := src.

Definition callbackKeyCompare (key1 key2 : list byte) : bool :=
  if zlen key1 =? zlen key2 then bool_decide (key1 = key2) else false.

Definition callbackDict : dictType (K := list byte) (V := V) := {|
  hashFunction := callbackHash;
  keyDup := None;
  valDup := Some callbackValDup;
  keyCompare := Some callbackKeyCompare;
  keyDestructor := true;
  valDestructor := true
|}.

Definition string_hash (key : list byte) : Z :=
  foldl (fun h c => u32 (u32 (u32 (Z.shiftl h 5) + h) + b2z c)) 5381 key.

Lemma dictGenHash_loop_spec : forall buf hash,
  dictGenHash_loop hash buf (length buf) =
    Ok (foldl (fun h c => u32 (u32 (u32 (Z.shiftl h 5) + h) + b2z c)) hash buf).
Proof. induction buf as [|c buf IH]; intros hash; [done|]. apply IH. Qed.

Lemma callbackHash_spec key : callbackHash key = Ok (string_hash key).
Proof.
  unfold callbackHash, dictGenHashFunction. rewrite (proj2 (Z.ltb_ge _ _)) by apply zlen_nonneg.
  rewrite to_nat_zlen. apply dictGenHash_loop_spec.
Qed.

#[export] Instance callback_hash_type : HashType callbackDict (fun k => k) string_hash.
Proof.
  split.
  - apply callbackHash_spec.
  - intros key. unfold string_hash. assert (forall h, 0 <= h < 2 ^ 32 ->
      0 <= foldl (fun h c => u32 (u32 (u32 (Z.shiftl h 5) + h) + b2z c)) h key < 2 ^ 32) as Hr; [|by apply Hr].
    induction key as [|c key IH]; intros h Hh; [done|]. cbn [foldl]. apply IH. by apply wrapU_range.
  - intros k1 k2. unfold dictCompareHashKeys. cbn. unfold callbackKeyCompare.
    destruct (Z.eqb_spec (zlen k1) (zlen k2)); [done|]. symmetry. apply bool_decide_eq_false_2.
    by intros ->.
  - done.
Qed.
End callbacks.

(** ** Properties *)

(** C6: a hash table refines a finite map: any sequence of additions,
    replacements, deletions and lookups on a new table, growing and rehashing as
    it needs, gives the answers a map gives and ends representing that map. *)
Theorem dict_is_map {K V A} `{!EqDecision K} `{Countable A} (type : dictType (K := K) (V := V))
    (abs : K -> A) (hash : A -> Z) `{!HashType type abs hash} ops :
  zlen ops < 2 ^ 27 ->
  exists d, run_ops type ops dictCreate = Ok ((map_ops type abs ops ∅).1.1, d) /\
    dict_holds abs hash d (map_ops type abs ops ∅).1.2.
Proof.
  intros Hl. pose proof (run_ops_spec type abs hash ops dictCreate ∅ (create_holds abs hash)) as Hrun.
  rewrite map_size_empty in Hrun. specialize (Hrun Hl).
  destruct (map_ops type abs ops ∅) as [[xs m] dead]. destruct Hrun as (d & E & Hd & _). eauto.
Qed.

Definition demo_ops : list (dict_op (K := list byte) (V := Z)) :=
  (fun n => DoAdd (bytes "chan" ++ [z2b n]) n) <$> [1; 2; 3; 4; 5; 1].
Definition demo_changes : list (dict_op (K := list byte) (V := Z)) :=
  [DoReplace (bytes "chan" ++ [x02]) 20; DoDelete (bytes "chan" ++ [x03]); DoFind (bytes "chan" ++ [x02])].

Lemma dict_is_map_witness :
  zlen (demo_ops ++ demo_changes) < 2 ^ 27 /\
  exists d, run_ops callbackDict (demo_ops ++ demo_changes) dictCreate
      = Ok ([Code 0; Code 0; Code 0; Code 0; Code 0; Code 1; Code 0; Code 0; Fetched (Some 20)], d) /\
    dict_holds (fun k => k) string_hash d
      (map_ops callbackDict (fun k => k) (demo_ops ++ demo_changes) ∅).1.2.
Proof.
  split; [reflexivity|].
  exact (dict_is_map callbackDict (fun k => k) string_hash (demo_ops ++ demo_changes) eq_refl).
Defined.

(** Over the life of a table with a value destructor, each value it was
    given is destroyed exactly once: whatever the operations, after
    [dictRelease] no entry is left and the values the destructor was called with
    are those stored. *)
Theorem dict_values_destroyed_once {K V A} `{!EqDecision K} `{Countable A}
    (type : dictType (K := K) (V := V)) (abs : K -> A) (hash : A -> Z) `{!HashType type abs hash} ops :
  valDestructor type = true -> zlen ops < 2 ^ 27 ->
  exists xs d trace, run_ops type ops dictCreate = Ok (xs, d) /\
    dictRelease type d = Ok (∅, trace) /\
    values_destroyed trace ≡ₚ stored type abs ops ∅.
Proof.
  intros Hv Hl. pose proof (run_ops_spec type abs hash ops dictCreate ∅ (create_holds abs hash)) as Hrun.
  rewrite map_size_empty in Hrun. specialize (Hrun Hl).
  pose proof (values_conserved type abs ops ∅) as Hc. pose proof (map_ops_size type abs ops ∅) as Hsz.
  destruct (map_ops type abs ops ∅) as [[xs m] dead]. destruct Hrun as (d & E & Hd & Ht).
  destruct (dictRelease_spec type abs hash d m Hd) as (ids & Er & Hids).
  { rewrite (holds_used abs hash d m Hd). rewrite map_size_empty in Hsz. cbn in Hsz. unfold zlen in Hl. lia. }
  exists xs, d, (ht_trace d ++ destroys_all type (ht_entries d) ids). split; [done|]. split; [done|].
  rewrite values_destroyed_app, (Ht Hv). unfold values_of in Hc at 2. rewrite map_to_list_empty in Hc.
  cbn in Hc. rewrite app_nil_r in Hc. rewrite <- Hc. cbn. f_equiv.
  unfold values_of. rewrite <- Hids. by rewrite (values_destroys type abs (ht_entries d) ids Hv).
Qed.

Lemma dict_values_destroyed_once_witness :
  exists xs d trace, run_ops callbackDict (demo_ops ++ demo_changes) dictCreate = Ok (xs, d) /\
    dictRelease callbackDict d = Ok (∅, trace) /\ values_destroyed trace ≡ₚ [1; 2; 3; 4; 5; 20].
Proof.
  exact (dict_values_destroyed_once callbackDict (fun k => k) string_hash (demo_ops ++ demo_changes)
           eq_refl eq_refl).
Defined.

(** An iterator over a table gives each entry exactly once, then NULL. *)
Theorem dict_iterates {K V A} `{!EqDecision K} `{Countable A}
    (type : dictType (K := K) (V := V)) (abs : K -> A) (hash : A -> Z) `{!HashType type abs hash} ops :
  zlen ops < 2 ^ 27 ->
  let m := (map_ops type abs ops ∅).1.2 in
  exists xs d ids, run_ops type ops dictCreate = Ok (xs, d) /\
    dict_walk (S (size m)) dictGetIterator d = Ok ids /\
    omap (content abs (ht_entries d)) ids ≡ₚ map_to_list m.
Proof.
  intros Hl m. pose proof (run_ops_spec type abs hash ops dictCreate ∅ (create_holds abs hash)) as Hrun.
  rewrite map_size_empty in Hrun. specialize (Hrun Hl). unfold m.
  destruct (map_ops type abs ops ∅) as [[xs m'] dead]. destruct Hrun as (d & E & Hd & _).
  destruct (dict_walk_spec abs hash d m' Hd) as (ids & Ew & Hids). by exists xs, d, ids.
Qed.

Lemma dict_iterates_witness :
  let m := (map_ops callbackDict (fun k => k) demo_ops ∅).1.2 in
  exists xs d ids, run_ops callbackDict demo_ops dictCreate = Ok (xs, d) /\
    dict_walk (S (size m)) dictGetIterator d = Ok ids /\
    omap (content (fun k => k) (ht_entries d)) ids ≡ₚ map_to_list m.
Proof. exact (dict_iterates callbackDict (fun k => k) string_hash demo_ops eq_refl). Defined.
