(* ===== verification/Socket.v ===== *)
(** * The connection state and the system below it

    [redisContext] of [include/hiredis/hiredis.h] (32-bit Windows configuration)
    and the socket calls [net.c] and [hiredis.c] make.  The operating system is
    a script: each call takes the next answer.  A call past the end of the
    script is [Blocked].  All calls are recorded. *)

From S2P Require Import Prelude Digits Sds Reply Reader.

(** ** The system *)

Inductive syscall :=
| SysSocket (type : Z)
| SysSetsockopt (fd level option : Z)
| SysGetsockopt (fd : Z)
| SysIoctl (fd : Z) (nonblocking : bool)
| SysGetfl (fd : Z)
| SysSetfl (fd flags : Z)
| SysConnect (fd : Z) (address : list byte) (port : Z)
| SysConnectLocal (fd : Z) (path : list byte)
| SysSelect (fd : Z) (timeout : option (Z * Z))
| SysGethostbyname (name : list byte)
| SysRecv (fd : Z)
| SysSend (fd : Z) (data : list byte)
| SysClose (fd : Z).

#[global] Instance syscall_eq_dec : EqDecision syscall.
Proof. solve_decision. Defined.

(** What a call returns, the error code it leaves, the integer [getsockopt]
    stores (for [select]: whether the socket is in the set), the bytes received
    or the address of a host. *)
Record answer := Answer { a_ret : Z; a_err : Z; a_value : Z; a_data : list byte }.

Record world := World {
  w_script : list answer;
  w_trace : list syscall;
  w_errno : Z;  (** [errno] *)
  w_last : Z    (** [WSAGetLastError()] *)
}.

Definition set_errno (e : Z) (w : world) : world := World (w_script w) (w_trace w) e (w_last w).

Definition sys (call : syscall) (w : world) : result (answer * world) :=
  match w_script w with
  | [] => Err Blocked
  | a :: script => Ok (a, World script (w_trace w ++ [call]) (w_errno w) (i32 (a_err a)))
  end.

Definition closesocket (fd : Z) (w : world) : world :=
  World (w_script w) (w_trace w ++ [SysClose fd]) (w_errno w) (w_last w).

(** [recv (fd, buf, n, 0)]; what does not fit is delivered by the next call. *)
Definition recv (fd n : Z) (w : world) : result (Z * list byte * world) :=
  '(a, w) ← sys (SysRecv fd) w;
  if a_ret a =? -1 then Ok (-1, [], w)
  else if zlen (a_data a) <=? n then Ok (zlen (a_data a), a_data a, w)
  else Ok (n, take (Z.to_nat n) (a_data a),
           World (Answer 0 (a_err a) 0 (drop (Z.to_nat n) (a_data a)) :: w_script w)
             (w_trace w) (w_errno w) (w_last w)).

(** [send (fd, buf, len, 0)]; the trace has what was accepted. *)
Definition send (fd : Z) (buf : list byte) (w : world) : result (Z * world) :=
  match w_script w with
  | [] => Err Blocked
  | a :: script =>
      let n := if a_ret a =? -1 then -1 else Z.max 0 (Z.min (a_ret a) (zlen buf)) in
      Ok (n, World script (w_trace w ++ [SysSend fd (take (Z.to_nat n) buf)]) (w_errno w) (i32 (a_err a)))
  end.

(** ** Constants *)

Definition REDIS_ERR_IO : Z := 1.
Definition REDIS_ERR_EOF : Z := 3.
Definition REDIS_ERR_PROTOCOL : Z := 4.
Definition REDIS_ERR_OTHER : Z := 2.

Definition REDIS_BLOCK : Z := 1.
Definition REDIS_CONNECTED : Z := 2.
Definition REDIS_DISCONNECTING : Z := 4.
Definition REDIS_FREEING : Z := 8.
Definition REDIS_IN_CALLBACK : Z := 16.
Definition REDIS_SUBSCRIBED : Z := 32.

(** [flags & f], [flags |= f], [flags &= ~f] *)
Definition has_flag (flags f : Z) : bool := negb (Z.land flags f =? 0).
Definition add_flag (flags f : Z) : Z := Z.lor flags f.
Definition del_flag (flags f : Z) : Z := Z.land flags (Z.lnot f).

(** Codes of the platform. *)
Definition ENOENT : Z := 2.
Definition EAGAIN : Z := 11.
Definition WSAEINVAL : Z := 10022.
Definition WSAEWOULDBLOCK : Z := 10035.
Definition EINPROGRESS : Z := 10036.

(** ** The context *)

Record redisContext (H : Type) := RedisContext {
  c_fd : Z;
  c_flags : Z;
  c_obuf : sdshdr;
  c_err : Z;
  c_errstr : option sdshdr;
  c_fn : option (redisReplyObjectFunctions H);
  c_reader : option (redisReader H)
}.
Arguments RedisContext {H}.
Arguments c_fd {H}.
Arguments c_flags {H}.
Arguments c_obuf {H}.
Arguments c_err {H}.
Arguments c_errstr {H}.
Arguments c_fn {H}.
Arguments c_reader {H}.

Section context.
Context {H : Type}.
Implicit Types c : redisContext H.

Definition set_fd fd c :=
  RedisContext fd (c_flags c) (c_obuf c) (c_err c) (c_errstr c) (c_fn c) (c_reader c).
Definition set_flags flags c :=
  RedisContext (c_fd c) flags (c_obuf c) (c_err c) (c_errstr c) (c_fn c) (c_reader c).
Definition set_obuf obuf c :=
  RedisContext (c_fd c) (c_flags c) obuf (c_err c) (c_errstr c) (c_fn c) (c_reader c).
Definition set_err err errstr c :=
  RedisContext (c_fd c) (c_flags c) (c_obuf c) err errstr (c_fn c) (c_reader c).
Definition set_functions fn c :=
  RedisContext (c_fd c) (c_flags c) (c_obuf c) (c_err c) (c_errstr c) fn (c_reader c).
Definition set_reader reader c :=
  RedisContext (c_fd c) (c_flags c) (c_obuf c) (c_err c) (c_errstr c) (c_fn c) reader.

(** The text of an error code in the C library, without its NUL. *)
Context (strerror : Z -> list byte).

Definition __redisSetError (type : Z) (errstr : option sdshdr) (w : world) c : result (redisContext H) :=
  match errstr with
  | Some s => Ok (set_err type (Some s) c)
  | None =>
      _ ← c_assert (type =? REDIS_ERR_IO);
      s ← sdsnew (Some (cstr (strerror (w_errno w))));
      Ok (set_err type (Some s) c)
  end.

(** [__redisSetError (c, type, sdscatprintf (sdsempty (), ...))] *)
Definition set_error_text (type : Z) (text : list byte) (w : world) c : result (redisContext H) :=
  e ← sdsempty;
  e ← sdscatprintf e text;
  __redisSetError type (Some e) w c.
End context.
