(* ===== verification/Net.v ===== *)
(** * Connecting ([win32/hiredis/net.c])

    The Windows branches of the file, over the scripted system of [Socket]. *)

From S2P Require Import Prelude Digits Sds Reply Reader Socket.

Definition AF_INET : Z := 2.
Definition SOL_SOCKET : Z := 65535.
Definition SO_REUSEADDR : Z := 4.
Definition SO_LINGER : Z := 128.
Definition SO_SNDTIMEO : Z := 4101.
Definition SO_RCVTIMEO : Z := 4102.
Definition IPPROTO_TCP : Z := 6.
Definition TCP_NODELAY : Z := 1.
Definition INVALID_SOCKET : Z := 2 ^ 32 - 1.
Definition INADDR_ANY : Z := 0.
Definition INADDR_NONE : Z := 2 ^ 32 - 1.

Definition newline : list byte := [x0a].

Section net.
Context {H : Type}.
Implicit Types c : redisContext H.
Context (strerror : Z -> list byte).

(** [inet_addr] of the socket library: the address in network order. *)
Context (inet_addr : list byte -> Z).

(** An error: set it, close the socket, return. *)
Definition fail_io (fd : Z) (text : option (list byte)) (w : world) c
    : result (Z * redisContext H * world) :=
  c ← match text with
      | Some text => set_error_text strerror REDIS_ERR_IO text w c
      | None => __redisSetError strerror REDIS_ERR_IO None w c
      end;
  Ok (REDIS_ERR, c, closesocket fd w).

Definition redisCreateSocket (type : Z) (w : world) c : result (Z * redisContext H * world) :=
  '(a, w) ← sys (SysSocket type) w;
  let s := u32 (a_ret a) in
  if s =? INVALID_SOCKET then
    c ← set_error_text strerror REDIS_ERR_IO
          (bytes "socket error: " ++ print_d (w_last w) ++ newline) w c;
    Ok (REDIS_ERR, c, w)
  else if type =? AF_INET then
    '(_, w) ← sys (SysSetsockopt s SOL_SOCKET SO_LINGER) w;
    '(a, w) ← sys (SysSetsockopt s SOL_SOCKET SO_REUSEADDR) w;
    if a_ret a =? -1 then fail_io s None w c
    else Ok (i32 s, c, w)
  else Ok (i32 s, c, w).

Definition redisSetBlocking (fd : Z) (blocking : bool) (w : world) c
    : result (Z * redisContext H * world) :=
  '(a, w) ← sys (SysIoctl (u32 fd) (negb blocking)) w;
  if a_ret a =? -1 then
    let w := set_errno (w_last w) w in
    fail_io (u32 fd) (Some (bytes "ioctlsocket(FIONBIO): " ++ print_d (w_errno w) ++ newline)) w c
  else Ok (REDIS_OK, c, w).

Definition redisSetTcpNoDelay (fd : Z) (w : world) c : result (Z * redisContext H * world) :=
  '(a, w) ← sys (SysSetsockopt (u32 fd) IPPROTO_TCP TCP_NODELAY) w;
  if a_ret a =? -1 then
    fail_io (u32 fd) (Some (bytes "setsockopt(TCP_NODELAY): " ++ print_d (w_last w))) w c
  else Ok (REDIS_OK, c, w).

Definition redisContextWaitReady (fd : Z) (timeout : option (Z * Z)) (w : world) c
    : result (Z * redisContext H * world) :=
  if w_errno w =? EINPROGRESS then
    '(a, w) ← sys (SysSelect (u32 fd) timeout) w;
    if a_ret a =? -1 then
      fail_io (u32 fd) (Some (bytes "select(2): " ++ strerror (w_errno w))) w c
    else if a_value a =? 0 then
      let w := set_errno (w_last w) w in
      fail_io (u32 fd) None w c
    else
      '(a, w) ← sys (SysGetsockopt (u32 fd)) w;
      if a_ret a =? -1 then
        fail_io (u32 fd) (Some (bytes "getsockopt(SO_ERROR): " ++ print_d (w_last w))) w c
      else if negb (a_value a =? 0) then
        let w := set_errno (a_value a) w in
        fail_io (u32 fd) None w c
      else Ok (REDIS_OK, c, w)
  else fail_io (u32 fd) None w c.

Definition redisContextSetTimeout (tv : Z * Z) (w : world) c : result (Z * redisContext H * world) :=
  '(a, w) ← sys (SysSetsockopt (c_fd c) SOL_SOCKET SO_RCVTIMEO) w;
  if a_ret a =? -1 then
    c ← set_error_text strerror REDIS_ERR_IO (bytes "setsockopt(SO_RCVTIMEO): " ++ print_d (w_last w)) w c;
    Ok (REDIS_ERR, c, w)
  else
    '(a, w) ← sys (SysSetsockopt (c_fd c) SOL_SOCKET SO_SNDTIMEO) w;
    if a_ret a =? -1 then
      c ← set_error_text strerror REDIS_ERR_IO (bytes "setsockopt(SO_SNDTIMEO): " ++ print_d (w_last w)) w c;
      Ok (REDIS_ERR, c, w)
    else Ok (REDIS_OK, c, w).

(** The four bytes of an address in memory. *)
Definition address_bytes (a : Z) : list byte :=
  [z2b a; z2b (Z.shiftr a 8); z2b (Z.shiftr a 16); z2b (Z.shiftr a 24)].

(** [None]: the host is not known. *)
Definition resolve (addr : list byte) (w : world) : result (option (list byte) * world) :=
  let inAddress := u32 (inet_addr addr) in
  if (inAddress =? INADDR_NONE) || (inAddress =? INADDR_ANY) then
    '(he, w) ← sys (SysGethostbyname addr) w;
    Ok (if a_ret he =? 0 then None else Some (take 4 (a_data he)), w)
  else Ok (Some (address_bytes inAddress), w).

(** [connect], and waiting when it does not succeed at once. *)
Definition connect_wait (s : Z) (sin_addr : list byte) (port : Z) (timeout : option (Z * Z))
    (w : world) c : result (Z * redisContext H * world) :=
  '(a, w) ← sys (SysConnect (u32 s) sin_addr (u16 port)) w;
  if a_ret a =? -1 then
    let w := set_errno (w_last w) w in
    let w := if (w_errno w =? WSAEINVAL) || (w_errno w =? WSAEWOULDBLOCK)
             then set_errno EINPROGRESS w else w in
    if (w_errno w =? EINPROGRESS) && negb (has_flag (c_flags c) REDIS_BLOCK) then Ok (REDIS_OK, c, w)
    else redisContextWaitReady s timeout w c
  else Ok (REDIS_OK, c, w).

(** The part behind the creation of the socket [s]. *)
Definition connect_socket (s : Z) (addr : list byte) (port : Z) (timeout : option (Z * Z))
    (w : world) c : result (Z * redisContext H * world) :=
  '(rc, c, w) ← redisSetTcpNoDelay s w c;
  if negb (rc =? REDIS_OK) then Ok (REDIS_ERR, c, w)
  else
    '(sin_addr, w) ← resolve addr w;
    match sin_addr with
    | None =>
        c ← set_error_text strerror REDIS_ERR_OTHER (bytes "can't resolve: " ++ addr ++ newline) w c;
        Ok (REDIS_ERR, c, closesocket (u32 s) w)
    | Some sin_addr =>
        '(rc, c, w) ← connect_wait s sin_addr port timeout w c;
        if negb (rc =? REDIS_OK) then Ok (REDIS_ERR, c, w)
        else Ok (REDIS_OK, set_flags (add_flag (c_flags c) REDIS_CONNECTED) (set_fd (u32 s) c), w)
    end.

Definition redisContextConnectTcp (addr : list byte) (port : Z) (timeout : option (Z * Z))
    (w : world) c : result (Z * redisContext H * world) :=
  '(s, c, w) ← redisCreateSocket AF_INET w c;
  if s <? 0 then Ok (REDIS_ERR, c, w) else connect_socket s addr port timeout w c.

Definition redisContextConnectUnix (path : list byte) (w : world) c : result (Z * redisContext H * world) :=
  c ← set_error_text strerror REDIS_ERR_IO
        (bytes "Unix sockets are not suported on Windows platform. (" ++ path ++ bytes ")" ++ newline) w c;
  Ok (REDIS_ERR, c, w).
End net.

(** ** What connecting leaves behind *)

Definition closes (call : syscall) : bool := match call with SysClose _ => true | _ => false end.
Definition sets_mode (call : syscall) : bool := match call with SysIoctl _ _ => true | _ => false end.

(** Calls that leave every socket open and in its mode. *)
Definition quiet (calls : list syscall) : Prop :=
  Forall (fun call => closes call = false /\ sets_mode call = false) calls.

Definition ran (w w' : world) (calls : list syscall) : Prop :=
  w_trace w' = w_trace w ++ calls /\ quiet calls.

Lemma ran_refl w : ran w w [].
Proof. split; [by rewrite app_nil_r|constructor]. Qed.

Lemma ran_trans w1 w2 w3 k1 k2 : ran w1 w2 k1 -> ran w2 w3 k2 -> ran w1 w3 (k1 ++ k2).
Proof. intros [E1 Q1] [E2 Q2]. split; [by rewrite E2, E1, app_assoc|by apply Forall_app]. Qed.

Lemma ran_errno w w' k e : ran w w' k -> ran w (set_errno e w') k.
Proof. done. Qed.

Lemma sys_ran call w :
  closes call = false -> sets_mode call = false ->
  sys call w = Err Blocked \/
  exists a w', sys call w = Ok (a, w') /\ ran w w' [call] /\ w_errno w' = w_errno w /\
    - 2 ^ 31 <= w_last w' < 2 ^ 31 /\ w_script w = a :: w_script w'.
Proof.
  intros Hc Hm. unfold sys. destruct (w_script w) as [|a script]; [by left|]. right.
  eexists _, _. split; [done|]. split; [split; [done|by repeat constructor]|]. split; [done|].
  split; [|done]. apply (wrapS_range 32). lia.
Qed.

(** The texts of the C library are short and hold no NUL. *)
Definition texts_ok (strerror : Z -> list byte) : Prop :=
  forall e, (x00 ∉ strerror e) /\ zlen (strerror e) <= 1000.

Definition text_ok (t : list byte) : Prop := (x00 ∉ t) /\ zlen t <= 2000.

Lemma text_ok_app s t :
  (x00 ∉ s) /\ zlen s <= 1000 -> (x00 ∉ t) /\ zlen t <= 1000 -> text_ok (s ++ t).
Proof. intros [H1 L1] [H2 L2]. split; [rewrite elem_of_app; tauto|len_lia]. Qed.

Ltac text_tac := apply (bool_decide_unpack _); by vm_compute.

Section connect.
Context {H : Type}.
Implicit Types c : redisContext H.
Context (strerror : Z -> list byte) (inet_addr : list byte -> Z) (Hstr : texts_ok strerror).

(** [c'] is [c] with an error. *)
Definition failed c c' : Prop := exists type e, type <> 0 /\ c' = set_err type (Some e) c.

Lemma set_error_text_ok type text w c :
  text_ok text -> type <> 0 -> exists c', set_error_text strerror type text w c = Ok c' /\ failed c c'.
Proof.
  intros [H0 Hl] Ht. unfold set_error_text. destruct sdsempty_spec as (e & -> & He). cbn [mbind result_bind].
  destruct (sdscatprintf_spec e [] text He H0) as (e' & -> & _); [unfold sds_max; len_lia|].
  cbn [mbind result_bind]. eexists. split; [done|]. by exists type, e'.
Qed.

Lemma set_error_io w c :
  exists c', __redisSetError strerror REDIS_ERR_IO None w c = Ok c' /\ failed c c'.
Proof.
  unfold __redisSetError. rewrite c_assert_true by done. cbn [mbind result_bind].
  destruct (Hstr (w_errno w)) as [H0 Hl].
  destruct (sdsnew_spec (strerror (w_errno w)) H0) as (e & -> & _); [unfold sds_max; lia|].
  cbn [mbind result_bind]. eexists. split; [done|]. by exists REDIS_ERR_IO, e.
Qed.

Lemma fail_io_ok s text w c :
  from_option text_ok True text ->
  exists c', fail_io strerror s text w c = Ok (REDIS_ERR, c', closesocket s w) /\ failed c c'.
Proof.
  intros Ht. unfold fail_io. destruct text as [t|].
  - destruct (set_error_text_ok REDIS_ERR_IO t w c Ht) as (c' & -> & Hf); [done|]. by exists c'.
  - destruct (set_error_io w c) as (c' & -> & Hf). by exists c'.
Qed.

(** The socket [s] is fine, or it is closed and [c] has an error. *)
Definition step_spec (s : Z) c (w : world) (r : result (Z * redisContext H * world)) : Prop :=
  r = Err Blocked \/
  (exists w' k, r = Ok (REDIS_OK, c, w') /\ ran w w' k) \/
  (exists c' w' k, r = Ok (REDIS_ERR, c', closesocket s w') /\ failed c c' /\ ran w w' k).

Lemma step_fail s text w w' c k :
  from_option text_ok True text -> ran w w' k -> step_spec s c w (fail_io strerror s text w' c).
Proof.
  intros Ht Hr. destruct (fail_io_ok s text w' c Ht) as (c' & -> & Hf). right. right. by exists c', w', k.
Qed.

Lemma noDelay_spec s w c : step_spec (u32 s) c w (redisSetTcpNoDelay strerror s w c).
Proof.
  unfold redisSetTcpNoDelay.
  destruct (sys_ran (SysSetsockopt (u32 s) IPPROTO_TCP TCP_NODELAY) w) as [->|(a & w' & -> & Hr & _ & Hl & _)];
    [done|done|by left|]. cbn [mbind result_bind]. destruct (a_ret a =? -1).
  - eapply step_fail; [|exact Hr]. apply text_ok_app; [split; [text_tac|vm_compute; congruence]|].
    destruct (print_d_text (w_last w') Hl). split; [done|lia].
  - right. left. eauto.
Qed.

Lemma waitReady_spec s timeout w c : step_spec (u32 s) c w (redisContextWaitReady strerror s timeout w c).
Proof.
  unfold redisContextWaitReady. destruct (w_errno w =? EINPROGRESS).
  2: { eapply step_fail; [done|apply ran_refl]. }
  destruct (sys_ran (SysSelect (u32 s) timeout) w) as [->|(a & w1 & -> & Hr & _ & Hl & _)];
    [done|done|by left|]. cbn [mbind result_bind]. destruct (a_ret a =? -1).
  { eapply step_fail; [|exact Hr]. apply text_ok_app; [|apply Hstr].
    split; [text_tac|vm_compute; congruence]. }
  destruct (a_value a =? 0).
  { eapply step_fail; [done|]. apply ran_errno, Hr. }
  destruct (sys_ran (SysGetsockopt (u32 s)) w1) as [->|(a2 & w2 & -> & Hr2 & _ & Hl2 & _)];
    [done|done|by left|]. cbn [mbind result_bind].
  pose proof (ran_trans _ _ _ _ _ Hr Hr2) as Hr3. destruct (a_ret a2 =? -1).
  { eapply step_fail; [|exact Hr3]. apply text_ok_app.
    - split; [text_tac|vm_compute; congruence].
    - destruct (print_d_text (w_last w2) Hl2). split; [done|lia]. }
  destruct (negb _).
  - eapply step_fail; [done|]. apply ran_errno, Hr3.
  - right. left. eauto.
Qed.

(** What the first call, the one that makes the socket, returns. *)
Definition new_socket (w : world) : option Z := a_ret <$> head (w_script w).

(** The first answer of the script is a new socket or none. *)
Definition sockets_small (w : world) : Prop :=
  match w_script w with a :: _ => a_ret a = -1 \/ 0 <= a_ret a < 2 ^ 31 | [] => True end.

Lemma createSocket_spec w c :
  sockets_small w ->
  redisCreateSocket strerror AF_INET w c = Err Blocked \/
  (exists s w' k, redisCreateSocket strerror AF_INET w c = Ok (s, c, w') /\ new_socket w = Some s /\
     0 <= s < 2 ^ 31 /\ ran w w' k) \/
  (exists c' w', redisCreateSocket strerror AF_INET w c = Ok (REDIS_ERR, c', w') /\ failed c c' /\
     ((new_socket w = Some (-1) /\ ran w w' [SysSocket AF_INET]) \/
      exists s w1 k, new_socket w = Some s /\ 0 <= s < 2 ^ 31 /\ w' = closesocket s w1 /\ ran w w1 k)).
Proof.
  intros Hs. unfold redisCreateSocket.
  destruct (sys_ran (SysSocket AF_INET) w) as [->|(a & w1 & -> & Hr & _ & Hl & E)]; [done|done|by left|].
  cbn [mbind result_bind]. unfold sockets_small in Hs. rewrite E in Hs.
  assert (Hnew : new_socket w = Some (a_ret a)) by (unfold new_socket; by rewrite E).
  destruct Hs as [Ha|Hs].
  { rewrite Ha in *. change (u32 (-1) =? INVALID_SOCKET) with true. cbn match. right. right.
    destruct (set_error_text_ok REDIS_ERR_IO (bytes "socket error: " ++ print_d (w_last w1) ++ newline) w1 c)
      as (c' & -> & Hf); [|done|].
    - destruct (print_d_text (w_last w1) Hl) as [H0 Hlen]. apply text_ok_app; [split; [text_tac|vm_compute; congruence]|].
      split; [|unfold newline; len_lia]. rewrite elem_of_app. unfold newline. rewrite list_elem_of_singleton. by intros [?|?].
    - cbn [mbind result_bind]. exists c', w1. split; [done|]. split; [done|by left]. }
  rewrite u32_small by lia. rewrite (proj2 (Z.eqb_neq _ _)) by (unfold INVALID_SOCKET; lia).
  change (AF_INET =? AF_INET) with true. cbn match.
  destruct (sys_ran (SysSetsockopt (a_ret a) SOL_SOCKET SO_LINGER) w1) as [->|(a2 & w2 & -> & Hr2 & _)];
    [done|done|by left|]. cbn [mbind result_bind].
  destruct (sys_ran (SysSetsockopt (a_ret a) SOL_SOCKET SO_REUSEADDR) w2) as [->|(a3 & w3 & -> & Hr3 & _)];
    [done|done|by left|]. cbn [mbind result_bind].
  pose proof (ran_trans _ _ _ _ _ Hr (ran_trans _ _ _ _ _ Hr2 Hr3)) as Hr4. destruct (a_ret a3 =? -1).
  - destruct (fail_io_ok (a_ret a) None w3 c) as (c' & -> & Hf); [done|]. right. right.
    eexists c', _. split; [done|]. split; [done|]. right. exists (a_ret a), w3. eauto.
  - right. left. rewrite i32_small by lia. eauto 8.
Qed.

(** The calls after the creation of the socket [s]: connected, or failed and closed. *)
Definition outcome_spec (s : Z) c (w : world) (r : result (Z * redisContext H * world)) : Prop :=
  r = Err Blocked \/
  (exists w' k, r = Ok (REDIS_OK, set_flags (add_flag (c_flags c) REDIS_CONNECTED) (set_fd s c), w') /\ ran w w' k) \/
  (exists c' w' k, r = Ok (REDIS_ERR, c', closesocket s w') /\ failed c c' /\ ran w w' k).

Lemma resolve_spec addr w :
  resolve inet_addr addr w = Err Blocked \/
  exists a w' k, resolve inet_addr addr w = Ok (a, w') /\ ran w w' k.
Proof.
  unfold resolve. destruct (_ || _).
  - destruct (sys_ran (SysGethostbyname addr) w) as [->|(a & w' & -> & Hr & _)]; [done|done|by left|].
    right. cbn [mbind result_bind]. eauto.
  - right. exists (Some (address_bytes (u32 (inet_addr addr)))), w, []. split; [done|apply ran_refl].
Qed.

Lemma connect_wait_spec s sin_addr port timeout w c :
  step_spec (u32 s) c w (connect_wait strerror s sin_addr port timeout w c).
Proof.
  unfold connect_wait.
  destruct (sys_ran (SysConnect (u32 s) sin_addr (u16 port)) w) as [->|(a & w1 & -> & Hr & _)];
    [done|done|by left|]. cbn [mbind result_bind]. destruct (a_ret a =? -1); [|right; left; eauto].
  cbn zeta. set (w2 := if _ || _ then _ else _).
  assert (Hr2 : ran w w2 [SysConnect (u32 s) sin_addr (u16 port)]) by (unfold w2; by destruct (_ || _)).
  destruct (_ && _); [right; left; eauto|].
  destruct (waitReady_spec s timeout w2 c) as [->|[(w3 & k & -> & Hr3)|(c' & w3 & k & -> & Hf & Hr3)]];
    [by left|right; left; eauto using ran_trans|right; right].
  exists c', w3, ([SysConnect (u32 s) sin_addr (u16 port)] ++ k). eauto using ran_trans.
Qed.

Lemma connect_socket_spec s addr port timeout w c :
  text_ok (bytes "can't resolve: " ++ addr ++ newline) ->
  outcome_spec (u32 s) c w (connect_socket strerror inet_addr s addr port timeout w c).
Proof.
  intros Htext. unfold connect_socket.
  destruct (noDelay_spec s w c) as [->|[(w1 & k1 & -> & Hr1)|(c' & w1 & k1 & -> & Hf & Hr1)]];
    [by left| |right; right; exists c', w1, k1; done].
  cbn [mbind result_bind]. change (negb (REDIS_OK =? REDIS_OK)) with false. cbn match.
  destruct (resolve_spec addr w1) as [->|(a & w2 & k2 & -> & Hr2)]; [by left|]. cbn [mbind result_bind].
  pose proof (ran_trans _ _ _ _ _ Hr1 Hr2) as Hr3. destruct a as [a|].
  - destruct (connect_wait_spec s a port timeout w2 c)
      as [->|[(w3 & k3 & -> & Hr4)|(c' & w3 & k3 & -> & Hf & Hr4)]]; [by left|right; left|right; right].
    + exists w3, ((k1 ++ k2) ++ k3). split; [done|]. by eapply ran_trans.
    + exists c', w3, ((k1 ++ k2) ++ k3). split; [done|]. split; [done|]. by eapply ran_trans.
  - destruct (set_error_text_ok REDIS_ERR_OTHER (bytes "can't resolve: " ++ addr ++ newline) w2 c Htext)
      as (c' & -> & Hf); [done|]. right. right. by exists c', w2, (k1 ++ k2).
Qed.
End connect.

(** ** Properties *)


Definition demo_context : redisContext reply_heap :=
  RedisContext 0 0 (Sdshdr 0 0 []) 0 None (Some defaultFunctions) None.
Definition demo_world : world :=
  World [Answer 5 0 0 []; Answer 0 0 0 []; Answer 0 0 0 []; Answer 0 0 0 []; Answer (-1) 10061 0 []] [] 0 0.

Definition demo_connect : result (Z * redisContext reply_heap * world) :=
  redisContextConnectTcp (fun _ => bytes "refused") (fun _ => 16777343) (bytes "127.0.0.1") 6379 None
    demo_world demo_context.

