(* ===== verification/NetPosix.v ===== *)
(** * Connecting on POSIX systems ([win32/hiredis/net.c])

    The branches of [net.c] for systems other than Windows, over the scripted
    system of [Socket]: a call that fails leaves its code in [errno].  The socket
    does not block while it connects, and is set to what the context asks for
    afterwards. *)

From S2P Require Import Prelude Digits Sds Reply Reader Socket Net.

(** Constants of Linux. *)
Definition AF_LOCAL : Z := 1.
Definition O_NONBLOCK : Z := 2048.
Definition FD_SETSIZE : Z := 1024.
Definition ETIMEDOUT : Z := 110.
Definition POSIX_EINPROGRESS : Z := 115.
Definition POSIX_SOL_SOCKET : Z := 1.
Definition POSIX_SO_REUSEADDR : Z := 2.
Definition POSIX_SO_RCVTIMEO : Z := 20.
Definition POSIX_SO_SNDTIMEO : Z := 21.
Definition SUN_PATH : Z := 108.

Definition posix_sys (call : syscall) (w : world) : result (answer * world) :=
  '(a, w) ← sys call w;
  Ok (a, if a_ret a =? -1 then set_errno (i32 (a_err a)) w else w).

Section posix.
Context {H : Type}.
Implicit Types c : redisContext H.
Context (strerror : Z -> list byte).

(** [inet_aton] of the C library: the four bytes of an address. *)
Context (inet_aton : list byte -> option (list byte)).

Definition posix_redisCreateSocket (type : Z) (w : world) c : result (Z * redisContext H * world) :=
  '(a, w) ← posix_sys (SysSocket type) w;
  let s := i32 (a_ret a) in
  if s =? -1 then c ← __redisSetError strerror REDIS_ERR_IO None w c; Ok (REDIS_ERR, c, w)
  else if type =? AF_INET then
    '(a, w) ← posix_sys (SysSetsockopt s POSIX_SOL_SOCKET POSIX_SO_REUSEADDR) w;
    if a_ret a =? -1 then fail_io strerror s None w c else Ok (s, c, w)
  else Ok (s, c, w).

Definition posix_redisSetBlocking (fd : Z) (blocking : bool) (w : world) c : result (Z * redisContext H * world) :=
  '(a, w) ← posix_sys (SysGetfl fd) w;
  if a_ret a =? -1 then
    fail_io strerror fd (Some (bytes "fcntl(F_GETFL): " ++ strerror (w_errno w))) w c
  else
    let flags := if blocking then Z.land (a_ret a) (Z.lnot O_NONBLOCK) else Z.lor (a_ret a) O_NONBLOCK in
    '(a, w) ← posix_sys (SysSetfl fd flags) w;
    if a_ret a =? -1 then
      fail_io strerror fd (Some (bytes "fcntl(F_SETFL): " ++ strerror (w_errno w))) w c
    else Ok (REDIS_OK, c, w).

Definition posix_redisSetTcpNoDelay (fd : Z) (w : world) c : result (Z * redisContext H * world) :=
  '(a, w) ← posix_sys (SysSetsockopt fd IPPROTO_TCP TCP_NODELAY) w;
  if a_ret a =? -1 then
    fail_io strerror fd (Some (bytes "setsockopt(TCP_NODELAY): " ++ strerror (w_errno w))) w c
  else Ok (REDIS_OK, c, w).

(** [FD_SET] writes the bit of the descriptor, which has to be one of [FD_SETSIZE]. *)
Definition posix_redisContextWaitReady (fd : Z) (timeout : option (Z * Z)) (w : world) c
    : result (Z * redisContext H * world) :=
  if w_errno w =? POSIX_EINPROGRESS then
    if negb ((0 <=? fd) && (fd <? FD_SETSIZE)) then Err Undefined else
    '(a, w) ← posix_sys (SysSelect fd timeout) w;
    if a_ret a =? -1 then
      fail_io strerror fd (Some (bytes "select(2): " ++ strerror (w_errno w))) w c
    else if a_value a =? 0 then fail_io strerror fd None (set_errno ETIMEDOUT w) c
    else
      '(a, w) ← posix_sys (SysGetsockopt fd) w;
      if a_ret a =? -1 then
        fail_io strerror fd (Some (bytes "getsockopt(SO_ERROR): " ++ strerror (w_errno w))) w c
      else if negb (a_value a =? 0) then fail_io strerror fd None (set_errno (a_value a) w) c
      else Ok (REDIS_OK, c, w)
  else fail_io strerror fd None w c.

Definition posix_redisContextSetTimeout (tv : Z * Z) (w : world) c : result (Z * redisContext H * world) :=
  '(a, w) ← posix_sys (SysSetsockopt (c_fd c) POSIX_SOL_SOCKET POSIX_SO_RCVTIMEO) w;
  if a_ret a =? -1 then
    c ← set_error_text strerror REDIS_ERR_IO (bytes "setsockopt(SO_RCVTIMEO): " ++ strerror (w_errno w)) w c;
    Ok (REDIS_ERR, c, w)
  else
    '(a, w) ← posix_sys (SysSetsockopt (c_fd c) POSIX_SOL_SOCKET POSIX_SO_SNDTIMEO) w;
    if a_ret a =? -1 then
      c ← set_error_text strerror REDIS_ERR_IO (bytes "setsockopt(SO_SNDTIMEO): " ++ strerror (w_errno w)) w c;
      Ok (REDIS_ERR, c, w)
    else Ok (REDIS_OK, c, w).

(** [None]: the host is not known. *)
Definition posix_resolve (addr : list byte) (w : world) : result (option (list byte) * world) :=
  match inet_aton addr with
  | Some sin_addr => Ok (Some sin_addr, w)
  | None =>
      '(he, w) ← sys (SysGethostbyname addr) w;
      Ok (if a_ret he =? 0 then None else Some (take 4 (a_data he)), w)
  end.

(** [connect], and waiting when it does not succeed at once. *)
Definition posix_connect_wait (call : syscall) (s : Z) (timeout : option (Z * Z)) (w : world) c
    : result (Z * redisContext H * world) :=
  '(a, w) ← posix_sys call w;
  if a_ret a =? -1 then
    if (w_errno w =? POSIX_EINPROGRESS) && negb (has_flag (c_flags c) REDIS_BLOCK) then Ok (REDIS_OK, c, w)
    else posix_redisContextWaitReady s timeout w c
  else Ok (REDIS_OK, c, w).

(** A blocking context gets a socket that blocks again. *)
Definition posix_reset_blocking (s : Z) (w : world) c : result (Z * redisContext H * world) :=
  if has_flag (c_flags c) REDIS_BLOCK then posix_redisSetBlocking s true w c else Ok (REDIS_OK, c, w).

(** The next part of a function that returns [REDIS_ERR] when the last one did. *)
Definition and_then (r : Z * redisContext H * world)
    (f : redisContext H -> world -> result (Z * redisContext H * world)) : result (Z * redisContext H * world) :=
  let '(rc, c, w) := r in if negb (rc =? REDIS_OK) then Ok (REDIS_ERR, c, w) else f c w.

Definition connected (s : Z) c (w : world) : result (Z * redisContext H * world) :=
  Ok (REDIS_OK, set_flags (add_flag (c_flags c) REDIS_CONNECTED) (set_fd s c), w).

(** The part behind the creation of the socket [s]. *)
Definition posix_connect_tcp (s : Z) (addr : list byte) (port : Z) (timeout : option (Z * Z)) (w : world) c
    : result (Z * redisContext H * world) :=
  r ← posix_redisSetBlocking s false w c;
  and_then r (fun c w =>
    '(sin_addr, w) ← posix_resolve addr w;
    match sin_addr with
    | None =>
        c ← set_error_text strerror REDIS_ERR_OTHER (bytes "Can't resolve: " ++ addr) w c;
        Ok (REDIS_ERR, c, closesocket s w)
    | Some sin_addr =>
        r ← posix_connect_wait (SysConnect s sin_addr (u16 port)) s timeout w c;
        and_then r (fun c w =>
          r ← posix_reset_blocking s w c;
          and_then r (fun c w =>
            r ← posix_redisSetTcpNoDelay s w c;
            and_then r (fun c w => connected s c w)))
    end).

Definition posix_redisContextConnectTcp (addr : list byte) (port : Z) (timeout : option (Z * Z)) (w : world) c
    : result (Z * redisContext H * world) :=
  '(s, c, w) ← posix_redisCreateSocket AF_INET w c;
  if s <? 0 then Ok (REDIS_ERR, c, w) else posix_connect_tcp s addr port timeout w c.

(** [strncpy( sa.sun_path, path, sizeof( sa.sun_path ) - 1 )] on the stack; the
    system reads the path up to its NUL. *)
Definition sun_path (path : list byte) : result (list byte) :=
  let n := SUN_PATH - 1 in
  let s := take (Z.to_nat n) path in
  cells ← memcpy (fresh_cells SUN_PATH) 0 (s ++ replicate (Z.to_nat (n - zlen s)) x00) n;
  cell_text cells.

Definition posix_connect_unix (s : Z) (path : list byte) (timeout : option (Z * Z)) (w : world) c
    : result (Z * redisContext H * world) :=
  r ← posix_redisSetBlocking s false w c;
  and_then r (fun c w =>
    path ← sun_path path;
    r ← posix_connect_wait (SysConnectLocal s path) s timeout w c;
    and_then r (fun c w =>
      r ← posix_reset_blocking s w c;
      and_then r (fun c w => connected s c w))).

Definition posix_redisContextConnectUnix (path : list byte) (timeout : option (Z * Z)) (w : world) c
    : result (Z * redisContext H * world) :=
  '(s, c, w) ← posix_redisCreateSocket AF_LOCAL w c;
  if s <? 0 then Ok (REDIS_ERR, c, w) else posix_connect_unix s path timeout w c.
End posix.

(** ** What connecting leaves behind *)

(** The mode the last [F_SETFL] gave the socket: whether it blocks. *)
Fixpoint mode_of (s : Z) (calls : list syscall) : option bool :=
  match calls with
  | [] => None
  | call :: calls =>
      match mode_of s calls with
      | Some m => Some m
      | None =>
          match call with
          | SysSetfl fd flags => if fd =? s then Some (negb (Z.testbit flags 11)) else None
          | _ => None
          end
      end
  end.

Lemma mode_of_app s k1 k2 : mode_of s (k1 ++ k2) = match mode_of s k2 with Some m => Some m | None => mode_of s k1 end.
Proof.
  induction k1 as [|call k1 IH]; cbn [app mode_of]; [by destruct (mode_of s k2)|]. rewrite IH. by destruct (mode_of s k2).
Qed.

Definition posix_calls (w w' : world) (calls : list syscall) : Prop :=
  w_trace w' = w_trace w ++ calls /\ Forall (fun call => closes call = false) calls.

Lemma calls_refl w : posix_calls w w [].
Proof. split; [by rewrite app_nil_r|constructor]. Qed.

Lemma calls_trans w1 w2 w3 k1 k2 : posix_calls w1 w2 k1 -> posix_calls w2 w3 k2 -> posix_calls w1 w3 (k1 ++ k2).
Proof. intros [E1 Q1] [E2 Q2]. split; [by rewrite E2, E1, app_assoc|by apply Forall_app]. Qed.

Lemma posix_sys_spec call w :
  closes call = false ->
  posix_sys call w = Err Blocked \/
  exists a w', posix_sys call w = Ok (a, w') /\ posix_calls w w' [call] /\ w_script w = a :: w_script w'.
Proof.
  intros Hc. unfold posix_sys, sys. destruct (w_script w) as [|a script]; [by left|]. right. cbn [mbind result_bind].
  eexists a, _. split; [done|]. by destruct (a_ret a =? -1); (split; [split; [done|by constructor]|]).
Qed.

(** Steps of the code below know what they did to the socket [s] when they end:
    failed, they have closed it, and the context has an error. *)
Section steps.
Context {H : Type}.
Implicit Types c : redisContext H.
Context (strerror : Z -> list byte) (inet_aton : list byte -> option (list byte)) (Hstr : texts_ok strerror).

(** [und]: when the behaviour may be undefined; [good]: the result and the mode of
    the socket when it is fine. *)
Record step_ok (und : Prop) (s : Z) c (w : world) (c' : redisContext H) (m : option bool)
    (r : result (Z * redisContext H * world)) : Prop := {
  step_cases :
    r = Err Blocked \/ (r = Err Undefined /\ und) \/
    (exists w' k, r = Ok (REDIS_OK, c', w') /\ posix_calls w w' k /\ mode_of s k = m) \/
    (exists cf w' k, r = Ok (REDIS_ERR, cf, closesocket s w') /\ failed c cf /\ posix_calls w w' k)
}.

Lemma posix_fail und s text w w' c c' m k :
  from_option text_ok True text -> posix_calls w w' k -> step_ok und s c w c' m (fail_io strerror s text w' c).
Proof.
  intros Ht Hr. destruct (fail_io_ok strerror Hstr s text w' c Ht) as (cf & -> & Hf). split. do 3 right. by exists cf, w', k.
Qed.

Lemma posix_good und s w w' c c' k m :
  posix_calls w w' k -> mode_of s k = m -> step_ok und s c w c' m (Ok (REDIS_OK, c', w')).
Proof. intros Hr Hm. split. do 2 right. left. by exists w', k. Qed.

Lemma posix_blocked und s w c c' m : step_ok und s c w c' m (Err Blocked).
Proof. split. by left. Qed.

(** A step behind another that leaves the context as it was. *)
Lemma posix_seq und s w c c' (m1 m2 : option bool) r f :
  step_ok und s c w c m1 r ->
  (forall w', step_ok und s c w' c' m2 (f c w')) ->
  step_ok und s c w c' (match m2 with Some m => Some m | None => m1 end) (r ← r; and_then r f).
Proof.
  intros [[->|[(-> & Hu)|[(w1 & k1 & -> & Hr1 & Hm1)|(cf & w1 & k1 & -> & Hf & Hr1)]]]] Hf'; cbn [mbind result_bind and_then].
  - split. by left.
  - split. right. by left.
  - change (negb (REDIS_OK =? REDIS_OK)) with false. cbv iota.
    destruct (Hf' w1) as [[->|[(-> & Hu)|[(w2 & k2 & -> & Hr2 & Hm2)|(cf & w2 & k2 & -> & Hf & Hr2)]]]]; split.
    + by left.
    + right. by left.
    + do 2 right. left. exists w2, (k1 ++ k2). split; [done|]. split; [by eapply calls_trans|]. by rewrite mode_of_app, Hm1, Hm2.
    + do 3 right. exists cf, w2, (k1 ++ k2). split; [done|]. split; [done|]. by eapply calls_trans.
  - change (negb (REDIS_ERR =? REDIS_OK)) with true. cbv iota. split. do 3 right. by exists cf, w1, k1.
Qed.

Lemma posix_text (p : list byte) w : bool_decide ((x00 ∉ p) /\ zlen p <= 1000) = true -> text_ok (p ++ strerror (w_errno w)).
Proof. intros Hp. apply text_ok_app; [by apply bool_decide_eq_true_1 in Hp|apply Hstr]. Qed.

Lemma posix_setBlocking_spec und s blocking w c :
  step_ok und s c w c (Some blocking) (posix_redisSetBlocking strerror s blocking w c).
Proof.
  unfold posix_redisSetBlocking. destruct (posix_sys_spec (SysGetfl s) w) as [->|(a & w1 & -> & Hr & _)]; [done|apply posix_blocked|].
  cbn [mbind result_bind]. destruct (a_ret a =? -1).
  { eapply posix_fail; [by apply posix_text|exact Hr]. }
  set (flags := if blocking then _ else _).
  destruct (posix_sys_spec (SysSetfl s flags) w1) as [->|(a2 & w2 & -> & Hr2 & _)]; [done|apply posix_blocked|].
  cbn [mbind result_bind]. pose proof (calls_trans _ _ _ _ _ Hr Hr2) as Hr3. destruct (a_ret a2 =? -1).
  { eapply posix_fail; [by apply posix_text|exact Hr3]. }
  eapply posix_good; [exact Hr3|]. cbn [app mode_of]. rewrite Z.eqb_refl. f_equal. subst flags.
  destruct blocking; [rewrite Z.land_spec|rewrite Z.lor_spec].
  - change (Z.testbit (Z.lnot O_NONBLOCK) 11) with false. by rewrite andb_false_r.
  - change (Z.testbit O_NONBLOCK 11) with true. by rewrite orb_true_r.
Qed.

Lemma posix_noDelay_spec und s w c : step_ok und s c w c None (posix_redisSetTcpNoDelay strerror s w c).
Proof.
  unfold posix_redisSetTcpNoDelay.
  destruct (posix_sys_spec (SysSetsockopt s IPPROTO_TCP TCP_NODELAY) w) as [->|(a & w1 & -> & Hr & _)]; [done|apply posix_blocked|].
  cbn [mbind result_bind]. destruct (a_ret a =? -1).
  - eapply posix_fail; [by apply posix_text|exact Hr].
  - by eapply posix_good; [exact Hr|].
Qed.

(** The descriptors [FD_SET] cannot take, which only a context that blocks gives it. *)
Definition beyond_set (s : Z) c : Prop := has_flag (c_flags c) REDIS_BLOCK = true /\ ~ (0 <= s < FD_SETSIZE).

Lemma posix_waitReady_spec (und : Prop) s timeout w c :
  (w_errno w = POSIX_EINPROGRESS -> has_flag (c_flags c) REDIS_BLOCK = true) -> (beyond_set s c -> und) ->
  step_ok und s c w c None (posix_redisContextWaitReady strerror s timeout w c).
Proof.
  intros Hb Hund. unfold posix_redisContextWaitReady. destruct (Z.eqb_spec (w_errno w) POSIX_EINPROGRESS) as [He|He].
  2: { eapply posix_fail; [done|apply calls_refl]. }
  destruct ((0 <=? s) && (s <? FD_SETSIZE)) eqn:Efd; cbn [negb].
  2: { split. right. left. split; [done|]. apply Hund. split; [by apply Hb|]. intros [H1 H2].
       by rewrite (proj2 (Z.leb_le _ _) H1), (proj2 (Z.ltb_lt _ _) H2) in Efd. }
  destruct (posix_sys_spec (SysSelect s timeout) w) as [->|(a & w1 & -> & Hr & _)]; [done|apply posix_blocked|].
  cbn [mbind result_bind]. destruct (a_ret a =? -1).
  { eapply posix_fail; [by apply posix_text|exact Hr]. }
  destruct (a_value a =? 0).
  { by eapply posix_fail; [|exact Hr]. }
  destruct (posix_sys_spec (SysGetsockopt s) w1) as [->|(a2 & w2 & -> & Hr2 & _)]; [done|apply posix_blocked|].
  cbn [mbind result_bind]. pose proof (calls_trans _ _ _ _ _ Hr Hr2) as Hr3. destruct (a_ret a2 =? -1).
  { eapply posix_fail; [by apply posix_text|exact Hr3]. }
  destruct (negb _).
  - by eapply posix_fail; [|exact Hr3].
  - by eapply posix_good; [exact Hr3|].
Qed.

(** Calls in front of a step. *)
Lemma posix_after und s c w w1 c' m k r :
  posix_calls w w1 k -> mode_of s k = None -> step_ok und s c w1 c' m r -> step_ok und s c w c' m r.
Proof.
  intros Hr Hk [[->|[(-> & Hu)|[(w2 & k2 & -> & Hr2 & Hm2)|(cf & w2 & k2 & -> & Hf & Hr2)]]]]; split.
  - by left.
  - right. by left.
  - do 2 right. left. exists w2, (k ++ k2). split; [done|]. split; [by eapply calls_trans|]. rewrite mode_of_app, Hk, Hm2. by destruct m.
  - do 3 right. exists cf, w2, (k ++ k2). split; [done|]. split; [done|]. by eapply calls_trans.
Qed.

Lemma posix_connect_wait_spec (und : Prop) call s timeout w c :
  closes call = false -> mode_of s [call] = None -> (beyond_set s c -> und) ->
  step_ok und s c w c None (posix_connect_wait strerror call s timeout w c).
Proof.
  intros Hc Hm Hund. unfold posix_connect_wait.
  destruct (posix_sys_spec call w) as [->|(a & w1 & -> & Hr & _)]; [done|apply posix_blocked|]. cbn [mbind result_bind].
  destruct (a_ret a =? -1); [|by eapply posix_good].
  destruct (_ && _) eqn:Eb; [by eapply posix_good|]. eapply posix_after; [done|done|].
  apply posix_waitReady_spec; [|done]. intros He. rewrite He in Eb. cbn in Eb. by destruct (has_flag _ _).
Qed.

Lemma posix_reset_spec und s w c :
  step_ok und s c w c (if has_flag (c_flags c) REDIS_BLOCK then Some true else None) (posix_reset_blocking strerror s w c).
Proof.
  unfold posix_reset_blocking. destruct (has_flag _ _); [by apply posix_setBlocking_spec|]. by eapply posix_good; [apply calls_refl|].
Qed.

Definition connected_to (s : Z) c : redisContext H := set_flags (add_flag (c_flags c) REDIS_CONNECTED) (set_fd s c).

Lemma posix_connected und s w c : step_ok und s c w (connected_to s c) None (connected s c w).
Proof. by eapply posix_good; [apply calls_refl|]. Qed.

Lemma posix_tcp_spec s addr port timeout w c :
  text_ok (bytes "Can't resolve: " ++ addr) ->
  step_ok (beyond_set s c) s c w (connected_to s c) (Some (has_flag (c_flags c) REDIS_BLOCK))
    (posix_connect_tcp strerror inet_aton s addr port timeout w c).
Proof.
  intros Ht. unfold posix_connect_tcp.
  pose proof (posix_seq (beyond_set s c) s w c (connected_to s c) (Some false) (if has_flag (c_flags c) REDIS_BLOCK then Some true else None)) as Hseq.
  replace (Some (has_flag (c_flags c) REDIS_BLOCK)) with
    (match (if has_flag (c_flags c) REDIS_BLOCK then Some true else None) with Some m => Some m | None => Some false end)
    by by destruct (has_flag _ _).
  apply Hseq; [by apply posix_setBlocking_spec|]. clear Hseq. intros w1.
  assert (Hrest : forall a w2, step_ok (beyond_set s c) s c w2 (connected_to s c) (if has_flag (c_flags c) REDIS_BLOCK then Some true else None)
    (r ← posix_connect_wait strerror (SysConnect s a (u16 port)) s timeout w2 c;
        and_then r (fun c w => r ← posix_reset_blocking strerror s w c;
          and_then r (fun c w => r ← posix_redisSetTcpNoDelay strerror s w c; and_then r (fun c w => connected s c w))))).
  { intros a w2. replace (if has_flag _ _ then _ else _) with
      (match (if has_flag (c_flags c) REDIS_BLOCK then Some true else None) with Some m => Some m | None => None end)
      by by destruct (has_flag _ _).
    apply posix_seq; [by apply posix_connect_wait_spec|]. intros w3.
    apply (posix_seq _ _ _ _ _ _ None); [by apply posix_reset_spec|]. intros w4.
    apply (posix_seq _ _ _ _ _ None None); [by apply posix_noDelay_spec|]. intros w5. apply posix_connected. }
  unfold posix_resolve. destruct (inet_aton addr) as [a|]; [exact (Hrest a w1)|]. unfold sys.
  destruct (w_script w1) as [|he script] eqn:Es; [apply posix_blocked|]. cbn [mbind result_bind].
  set (w2 := World script _ _ _). assert (Hr : posix_calls w1 w2 [SysGethostbyname addr]) by (split; [done|by constructor]).
  eapply posix_after; [exact Hr|done|]. destruct (a_ret he =? 0); [|apply Hrest].
  destruct (set_error_text_ok strerror REDIS_ERR_OTHER (bytes "Can't resolve: " ++ addr) w2 c Ht) as (c' & -> & Hf); [done|].
  split. do 3 right. exists c', w2, []. split; [done|]. split; [done|apply calls_refl].
Qed.

Lemma sun_path_spec path : x00 ∉ path -> sun_path path = if zlen path <? SUN_PATH - 1 then Ok path else Err Undefined.
Proof.
  intros H0. unfold sun_path. change (SUN_PATH - 1) with 107. set (s := take (Z.to_nat 107) path).
  assert (Hs : zlen s = Z.min 107 (zlen path)) by (unfold s; len_lia).
  set (t := s ++ replicate _ x00). assert (Ht : zlen t = 107) by (unfold t; len_lia).
  assert (memcpy (fresh_cells SUN_PATH) 0 t 107 = Ok ((Some <$> t) ++ [None])) as ->.
  { unfold memcpy. rewrite Ht, take_ge by len_lia. cbn [Z.leb Z.compare andb]. unfold blit. rewrite zlen_fmap, Ht.
    change (zlen (fresh_cells SUN_PATH)) with 108. cbn [Z.leb Z.add Z.compare Pos.compare Pos.compare_cont andb].
    rewrite length_fmap. replace (length t) with 107%nat by len_lia. done. }
  cbn [mbind result_bind]. destruct (Z.ltb_spec (zlen path) 107) as [Hlt|Hge].
  - unfold t. assert (s = path) as -> by (unfold s; rewrite take_ge by len_lia; done).
    replace (Z.to_nat (107 - zlen path)) with (S (Z.to_nat (106 - zlen path))) by lia. cbn [replicate].
    replace (path ++ x00 :: replicate (Z.to_nat (106 - zlen path)) x00) with ((path ++ [x00]) ++ replicate (Z.to_nat (106 - zlen path)) x00)
      by (by rewrite <- app_assoc).
    rewrite fmap_app, <- app_assoc. by apply cell_text_spec.
  - unfold t. replace (Z.to_nat (107 - zlen s)) with O by lia. rewrite app_nil_r.
    assert (Hn : x00 ∉ s) by (intros Hin; apply H0; rewrite <- (take_drop (Z.to_nat 107) path); apply elem_of_app; by left).
    clear -Hn. induction s as [|b s IH]; [done|]. apply not_elem_of_cons in Hn as [Hb Hn].
    cbn [fmap list_fmap app cell_text]. rewrite bool_decide_eq_false_2 by done. fold (fmap (M := list) (@Some byte)). by rewrite IH.
Qed.

(** A path that leaves no room for its NUL. *)
Definition long_path (path : list byte) : Prop := SUN_PATH - 1 <= zlen path.

Lemma posix_unix_spec s path timeout w c :
  x00 ∉ path ->
  step_ok (beyond_set s c \/ long_path path) s c w (connected_to s c) (Some (has_flag (c_flags c) REDIS_BLOCK))
    (posix_connect_unix strerror s path timeout w c).
Proof.
  intros H0. unfold posix_connect_unix. set (und := beyond_set s c \/ long_path path).
  set (m := if has_flag (c_flags c) REDIS_BLOCK then Some true else None).
  replace (Some (has_flag (c_flags c) REDIS_BLOCK)) with (match m with Some m => Some m | None => Some false end)
    by (unfold m; by destruct (has_flag _ _)).
  apply posix_seq; [by apply posix_setBlocking_spec|]. intros w1. rewrite (sun_path_spec path H0).
  destruct (Z.ltb_spec (zlen path) (SUN_PATH - 1)) as [_|Hl]; cbn [mbind result_bind].
  2: { split. right. left. split; [done|]. by right. }
  replace m with (match m with Some m => Some m | None => None end) by (by destruct m).
  apply posix_seq; [apply posix_connect_wait_spec; [done|done|by left]|]. intros w2.
  apply (posix_seq _ _ _ _ _ _ None); [by apply posix_reset_spec|]. intros w3. apply posix_connected.
Qed.

Lemma posix_createSocket_spec type w c :
  sockets_small w ->
  posix_redisCreateSocket strerror type w c = Err Blocked \/
  (exists s w' k, posix_redisCreateSocket strerror type w c = Ok (s, c, w') /\ 0 <= s < 2 ^ 31 /\ posix_calls w w' k /\
     new_socket w = Some s /\ mode_of s k = None) \/
  (exists c' w', posix_redisCreateSocket strerror type w c = Ok (REDIS_ERR, c', w') /\ failed c c' /\
     ((new_socket w = Some (-1) /\ posix_calls w w' [SysSocket type]) \/
      exists s w1 k, new_socket w = Some s /\ 0 <= s < 2 ^ 31 /\ w' = closesocket s w1 /\ posix_calls w w1 k)).
Proof.
  intros Hs. unfold posix_redisCreateSocket.
  destruct (posix_sys_spec (SysSocket type) w) as [->|(a & w1 & -> & Hr & E)]; [done|by left|]. cbn [mbind result_bind].
  assert (Hnew : new_socket w = Some (a_ret a)) by (unfold new_socket; by rewrite E).
  unfold sockets_small in Hs. rewrite E in *. destruct Hs as [Ha|Ha].
  { rewrite Ha. change (i32 (-1) =? -1) with true. cbv iota. destruct (set_error_io strerror Hstr w1 c) as (c' & -> & Hf).
    right. right. exists c', w1. split; [done|]. split; [done|]. left. by rewrite Hnew, Ha. }
  rewrite (i32_small (a_ret a)) by lia. rewrite (proj2 (Z.eqb_neq _ _)) by lia. destruct (type =? AF_INET).
  - destruct (posix_sys_spec (SysSetsockopt (a_ret a) POSIX_SOL_SOCKET POSIX_SO_REUSEADDR) w1) as [->|(a2 & w2 & -> & Hr2 & _)];
      [done|by left|]. cbn [mbind result_bind]. pose proof (calls_trans _ _ _ _ _ Hr Hr2) as Hr3. destruct (a_ret a2 =? -1).
    + destruct (fail_io_ok strerror Hstr (a_ret a) None w2 c) as (c' & -> & Hf); [done|]. right. right.
      eexists c', _. split; [done|]. split; [done|]. right. exists (a_ret a), w2. eauto.
    + right. left. eexists _, _, _. split; [done|]. split; [done|]. split; [exact Hr3|]. done.
  - right. left. eexists _, _, _. split; [done|]. split; [done|]. split; [exact Hr|]. done.
Qed.
End steps.

(** ** Properties *)

Inductive target := Tcp (addr : list byte) (port : Z) | Local_ (path : list byte).

Definition posix_connect {H} (strerror : Z -> list byte) (inet_aton : list byte -> option (list byte)) (t : target)
    (timeout : option (Z * Z)) (w : world) (c : redisContext H) : result (Z * redisContext H * world) :=
  match t with
  | Tcp addr port => posix_redisContextConnectTcp strerror inet_aton addr port timeout w c
  | Local_ path => posix_redisContextConnectUnix strerror path timeout w c
  end.

Definition family (t : target) : Z := match t with Tcp _ _ => AF_INET | Local_ _ => AF_LOCAL end.
Definition target_ok (t : target) : Prop :=
  match t with Tcp addr _ => text_ok (bytes "Can't resolve: " ++ addr) | Local_ path => x00 ∉ path end.
Definition target_long (t : target) : Prop := match t with Tcp _ _ => False | Local_ path => long_path path end.

(** The part of both functions behind the creation of the socket. *)
Definition posix_rest {H} (strerror : Z -> list byte) (inet_aton : list byte -> option (list byte)) (t : target) (s : Z)
    (timeout : option (Z * Z)) (w : world) (c : redisContext H) : result (Z * redisContext H * world) :=
  match t with
  | Tcp addr port => posix_connect_tcp strerror inet_aton s addr port timeout w c
  | Local_ path => posix_connect_unix strerror s path timeout w c
  end.

Lemma posix_connect_eq {H} strerror inet_aton t timeout w (c : redisContext H) :
  posix_connect strerror inet_aton t timeout w c =
  ('(s, c, w) ← posix_redisCreateSocket strerror (family t) w c;
   if s <? 0 then Ok (REDIS_ERR, c, w) else posix_rest strerror inet_aton t s timeout w c).
Proof. by destruct t. Qed.

Lemma posix_rest_spec {H} strerror inet_aton t s timeout w (c : redisContext H) :
  texts_ok strerror -> target_ok t ->
  step_ok (beyond_set s c \/ target_long t) s c w (connected_to s c) (Some (has_flag (c_flags c) REDIS_BLOCK))
    (posix_rest strerror inet_aton t s timeout w c).
Proof.
  intros Hstr Ht. destruct t as [addr port|path]; [|by apply posix_unix_spec].
  destruct (posix_tcp_spec strerror inet_aton Hstr s addr port timeout w c Ht) as [[E|[(E & Hu)|Hrest]]]; split; auto.
Qed.

(** C10: Connecting on POSIX leaks no socket and gives one that waits as it is
    asked to.  However the system answers, the functions for TCP and for local
    sockets return [REDIS_OK] with the open socket in the context, marked
    connected, which blocks exactly when the context is to block; or [REDIS_ERR]
    with an error in a context that is otherwise as before, and then the first call
    made no socket and was the only one, or the socket it made is closed by the
    last call and not before.  Undefined behaviour is left
    in two places: a context that blocks and gets a descriptor of [FD_SETSIZE] or
    more may write behind the [fd_set], and a path of 107 bytes or more is handed to
    the system without its NUL. *)
Theorem posix_connects {H} (strerror : Z -> list byte) (inet_aton : list byte -> option (list byte)) t timeout
    w (c : redisContext H) :
  texts_ok strerror -> target_ok t -> sockets_small w ->
  let r := posix_connect strerror inet_aton t timeout w c in
  let blocks := has_flag (c_flags c) REDIS_BLOCK in
  r = Err Blocked \/
  (r = Err Undefined /\
    ((blocks = true /\ exists s, new_socket w = Some s /\ FD_SETSIZE <= s) \/ target_long t)) \/
  (exists s w' k, r = Ok (REDIS_OK, connected_to s c, w') /\ new_socket w = Some s /\ 0 <= s < 2 ^ 31 /\
     posix_calls w w' k /\ mode_of s k = Some blocks) \/
  (exists c' w', r = Ok (REDIS_ERR, c', w') /\ failed c c' /\
     ((new_socket w = Some (-1) /\ posix_calls w w' [SysSocket (family t)]) \/
      exists s w1 k, new_socket w = Some s /\ 0 <= s < 2 ^ 31 /\ w' = closesocket s w1 /\ posix_calls w w1 k)).
Proof.
  intros Hstr Ht Hs r blocks. unfold r. rewrite posix_connect_eq.
  destruct (posix_createSocket_spec strerror Hstr (family t) w c Hs)
    as [->|[(s & w1 & k1 & -> & Hb & Hr1 & Hhd & Hm1)|(c' & w1 & -> & Hf & Hr1)]]; [by left| |].
  2: { do 3 right. by exists c', w1. }
  cbn [mbind result_bind]. rewrite (proj2 (Z.ltb_ge _ _)) by lia.
  destruct (posix_after _ s c w w1 _ _ k1 _ Hr1 Hm1 (posix_rest_spec strerror inet_aton t s timeout w1 c Hstr Ht))
    as [[E|[(E & Hu)|[(w2 & k & E & Hr & Hm)|(c' & w2 & k & E & Hf & Hr)]]]]; rewrite E.
  - by left.
  - right. left. split; [done|]. destruct Hu as [[Hbl Hfd]|Hl]; [left|by right]. split; [done|]. exists s. split; [done|]. lia.
  - do 2 right. left. by exists s, w2, k.
  - do 3 right. exists c', (closesocket s w2). split; [done|]. split; [done|]. right. by exists s, w2, k.
Qed.

Definition blocking_context : redisContext reply_heap := set_flags REDIS_BLOCK demo_context.
Definition posix_script (fd : Z) : list answer :=
  [Answer fd 0 0 []; Answer 0 0 0 []; Answer 2 0 0 []; Answer 0 0 0 []; Answer (-1) 115 0 []; Answer 1 0 1 []; Answer 0 0 0 [];
   Answer 2050 0 0 []; Answer 0 0 0 []; Answer 0 0 0 []].
Definition posix_demo (fd : Z) : result (Z * redisContext reply_heap * world) :=
  posix_connect (fun _ => bytes "error") (fun _ => Some [x7f; x00; x00; x01]) (Tcp (bytes "127.0.0.1") 6379) None
    (World (posix_script fd) [] 0 0) blocking_context.

(** A connection that takes a while. *)
Lemma posix_connects_witness :
  exists w' k, posix_demo 5 = Ok (REDIS_OK, connected_to 5 blocking_context, w') /\
    posix_calls (World (posix_script 5) [] 0 0) w' k /\ mode_of 5 k = Some true.
Proof.
  assert (Hstr : texts_ok (fun _ => bytes "error")).
  { intros e. split; [apply (bool_decide_unpack _); by vm_compute|by vm_compute]. }
  assert (Ht : target_ok (Tcp (bytes "127.0.0.1") 6379)).
  { split; [apply (bool_decide_unpack _); by vm_compute|by vm_compute]. }
  assert (Hs : sockets_small (World (posix_script 5) [] 0 0)) by (right; cbn; lia).
  assert (Hrc : match posix_demo 5 with Ok (rc, _, _) => rc =? REDIS_OK | Err _ => false end = true) by by vm_compute.
  destruct (posix_connects (fun _ => bytes "error") (fun _ => Some [x7f; x00; x00; x01]) _ None _ blocking_context Hstr Ht Hs)
    as [E|[(E & _)|[(s & w' & k & E & Hnew & _ & Hr & Hm)|(c' & w' & E & _)]]].
  3: { cbn in Hnew. injection Hnew as <-. by exists w', k. }
  all: unfold posix_demo in Hrc; rewrite E in Hrc; discriminate Hrc.
Defined.

(** The server has many connections already: the bit of the descriptor is not in the set. *)
Example descriptor_beyond_set : posix_demo 1024 = Err Undefined.
Proof. by vm_compute. Qed.

(** A path that fills [sun_path] has no NUL. *)
Example path_without_nul : sun_path (replicate 107 x61) = Err Undefined.
Proof. by vm_compute. Qed.
