(* ===== verification/Context.v ===== *)
(** * The blocking and the buffered client ([win32/hiredis/hiredis.c], lines 817-1159)

    A context owns the output buffer and the reader of a connection; [H] is the
    state the functions that build replies act on.  The Windows branches. *)

From S2P Require Import Prelude Digits Sds Reply Reader Format Socket Net.

Section client.
Context {H : Type}.
Implicit Types c : redisContext H.

(** [&defaultFunctions]; the C library; the socket library. *)
Context (defaults : redisReplyObjectFunctions H).
Context (strerror : Z -> list byte) (inet_addr : list byte -> Z).
Context (format_double : conversion -> Z -> Z -> list byte).

Definition redisContextInit : result (redisContext H) :=
  obuf ← sdsempty;
  Ok (RedisContext 0 0 obuf 0 None (Some defaults) None).

(** What is left of the builder's state and the system. *)
Definition redisFree c (h : H) (w : world) : result (H * world) :=
  let w := if 0 <? c_fd c then closesocket (c_fd c) w else w in
  h ← (match c_reader c with Some r => redisReplyReaderFree r h | None => Ok h end);
  Ok (h, w).

Definition connect_tcp (block : bool) (ip : list byte) (port : Z) (tv : option (Z * Z)) (w : world)
    : result (redisContext H * world) :=
  c ← redisContextInit;
  let c := set_flags (if block then add_flag (c_flags c) REDIS_BLOCK else del_flag (c_flags c) REDIS_BLOCK) c in
  '(_, c, w) ← redisContextConnectTcp strerror inet_addr ip port tv w c;
  Ok (c, w).

Definition redisConnect (ip : list byte) (port : Z) := connect_tcp true ip port None.
Definition redisConnectWithTimeout (ip : list byte) (port : Z) (tv : Z * Z) := connect_tcp true ip port (Some tv).
Definition redisConnectNonBlock (ip : list byte) (port : Z) := connect_tcp false ip port None.

Definition connect_unix (block : bool) (path : list byte) (w : world) : result (redisContext H * world) :=
  c ← redisContextInit;
  let c := set_flags (if block then add_flag (c_flags c) REDIS_BLOCK else del_flag (c_flags c) REDIS_BLOCK) c in
  '(_, c, w) ← redisContextConnectUnix strerror path w c;
  Ok (c, w).

Definition redisConnectUnix := connect_unix true.
Definition redisConnectUnixWithTimeout (path : list byte) (tv : Z * Z) := connect_unix true path.
Definition redisConnectUnixNonBlock := connect_unix false.

(** [fd] is unsigned: [-1] is [INVALID_SOCKET]. *)
Definition redisConnected : result (redisContext H) :=
  c ← redisContextInit;
  let c := set_fd (u32 (-1)) c in
  Ok (set_flags (add_flag (c_flags c) REDIS_BLOCK) c).

Definition redisConnectedNonBlock : result (redisContext H) :=
  c ← redisContextInit;
  let c := set_fd (u32 (-1)) c in
  Ok (set_flags (del_flag (c_flags c) REDIS_BLOCK) c).

Definition redisSetTimeout c (tv : Z * Z) (w : world) : result (Z * redisContext H * world) :=
  if has_flag (c_flags c) REDIS_BLOCK then redisContextSetTimeout strerror tv w c
  else Ok (REDIS_ERR, c, w).

Definition redisSetReplyObjectFunctions c (fn : option (redisReplyObjectFunctions H)) : Z * redisContext H :=
  match c_reader c with
  | Some _ => (REDIS_ERR, c)
  | None => (REDIS_OK, set_functions fn c)
  end.

(** The reader, created when there is none. *)
Definition __redisCreateReplyReader c : result (redisReader H * redisContext H) :=
  match c_reader c with
  | Some r => Ok (r, c)
  | None =>
      r ← redisReplyReaderCreate defaults;
      let '(rc, r) := redisReplyReaderSetReplyObjectFunctions (c_fn c) r in
      _ ← c_assert (rc =? REDIS_OK);
      Ok (r, set_reader (Some r) c)
  end.

(** ** Socket input and output *)

(** The error code of a failed [recv] or [send], with its translation. *)
Definition socket_errno (w : world) : world :=
  let w := set_errno (w_last w) w in
  if (w_errno w =? ENOENT) || (w_errno w =? WSAEWOULDBLOCK) then set_errno EAGAIN w else w.

Definition again c (w : world) : bool := (w_errno w =? EAGAIN) && negb (has_flag (c_flags c) REDIS_BLOCK).

Definition feed_reader (buf : list byte) (nread : Z) c : result (redisContext H) :=
  '(r, c) ← __redisCreateReplyReader c;
  r ← redisReplyReaderFeed (Some buf) (u32 nread) r;
  Ok (set_reader (Some r) c).

Definition set_eof (w : world) c : result (redisContext H) :=
  e ← sdsnew (Some (cstr (bytes "Server closed the connection")));
  __redisSetError strerror REDIS_ERR_EOF (Some e) w c.

Definition redisBufferRead c (w : world) : result (Z * redisContext H * world) :=
  '(nread, buf, w) ← recv (c_fd c) 2048 w;
  if nread =? -1 then
    let w := socket_errno w in
    if again c w then Ok (REDIS_OK, c, w)
    else c ← __redisSetError strerror REDIS_ERR_IO None w c; Ok (REDIS_ERR, c, w)
  else if nread =? 0 then c ← set_eof w c; Ok (REDIS_ERR, c, w)
  else c ← feed_reader buf nread c; Ok (REDIS_OK, c, w).

Definition redisBufferReadDone c (buf : list byte) (nread : Z) (w : world) : result (Z * redisContext H) :=
  if nread =? 0 then c ← set_eof w c; Ok (REDIS_ERR, c)
  else c ← feed_reader buf nread c; Ok (REDIS_OK, c).

(** Status, whether the buffer is empty, the context, the system. *)
Definition redisBufferWrite c (w : world) : result (Z * bool * redisContext H * world) :=
  '(rc, c, w) ←
    (if 0 <? sdslen (c_obuf c) then
       '(nwritten, w) ← send (c_fd c) (take (Z.to_nat (sdslen (c_obuf c))) (cell_bytes (sds_buf (c_obuf c)))) w;
       if nwritten =? -1 then
         let w := socket_errno w in
         if again c w then Ok (REDIS_OK, c, w)
         else c ← __redisSetError strerror REDIS_ERR_IO None w c; Ok (REDIS_ERR, c, w)
       else if 0 <? nwritten then
         obuf ← (if nwritten =? i32 (sdslen (c_obuf c)) then sdsempty else sdsrange (c_obuf c) nwritten (-1));
         Ok (REDIS_OK, set_obuf obuf c, w)
       else Ok (REDIS_OK, c, w)
     else Ok (REDIS_OK, c, w));
  Ok (rc, sdslen (c_obuf c) =? 0, c, w).

(** ** Replies *)

Definition redisGetReplyFromReader c (h : H) (w : world) : result (Z * voidptr * redisContext H * H) :=
  '(r, c) ← __redisCreateReplyReader c;
  '(rc, reply, r, h) ← redisReplyReaderGetReply r h;
  let c := set_reader (Some r) c in
  if rc =? REDIS_ERR then
    e ← sdsnew ((fun e => cell_bytes (sds_buf e)) <$> r_error r);
    c ← __redisSetError strerror REDIS_ERR_PROTOCOL (Some e) w c;
    Ok (REDIS_ERR, Null, c, h)
  else Ok (REDIS_OK, reply, c, h).

(** [do ... while (!wdone)]; every round with something to write calls [send]. *)
Fixpoint write_all (fuel : nat) c (w : world) : result (Z * redisContext H * world) :=
  match fuel with
  | O => Err NoFuel
  | S fuel =>
      '(rc, wdone, c, w) ← redisBufferWrite c w;
      if rc =? REDIS_ERR then Ok (REDIS_ERR, c, w)
      else if (wdone : bool) then Ok (REDIS_OK, c, w) else write_all fuel c w
  end.

(** [do ... while (aux == NULL)]; every round calls [recv]. *)
Fixpoint read_until_reply (fuel : nat) c (h : H) (w : world) : result (Z * voidptr * redisContext H * H * world) :=
  match fuel with
  | O => Err NoFuel
  | S fuel =>
      '(rc, c, w) ← redisBufferRead c w;
      if rc =? REDIS_ERR then Ok (REDIS_ERR, Null, c, h, w)
      else
        '(rc, aux, c, h) ← redisGetReplyFromReader c h w;
        if rc =? REDIS_ERR then Ok (REDIS_ERR, Null, c, h, w)
        else if bool_decide (aux = Null) then read_until_reply fuel c h w
        else Ok (REDIS_OK, aux, c, h, w)
  end.

(** Calls of [recv] the script can answer. *)
Definition script_reads (w : world) : nat := sum_list_with (fun a => S (length (a_data a))) (w_script w).

Definition redisGetReply c (h : H) (w : world) : result (Z * voidptr * redisContext H * H * world) :=
  '(rc, aux, c, h) ← redisGetReplyFromReader c h w;
  if rc =? REDIS_ERR then Ok (REDIS_ERR, Null, c, h, w)
  else if bool_decide (aux = Null) && has_flag (c_flags c) REDIS_BLOCK then
    '(rc, c, w) ← write_all (S (length (w_script w))) c w;
    if rc =? REDIS_ERR then Ok (REDIS_ERR, Null, c, h, w)
    else read_until_reply (S (script_reads w)) c h w
  else Ok (REDIS_OK, aux, c, h, w).

(** ** Commands *)

Definition __redisAppendCommand c (cmd : cells) (len : Z) : result (redisContext H) :=
  obuf ← sdscatlen (c_obuf c) (cell_bytes cmd) (u32 len);
  Ok (set_obuf obuf c).

Definition redisvAppendCommand c (format : list byte) (ap : list va_word) : result (redisContext H) :=
  '(len, cmd) ← redisvFormatCommand format_double format ap;
  __redisAppendCommand c cmd len.

Definition redisAppendCommand := redisvAppendCommand.

Definition redisAppendCommandArgv c (argv : list (list byte)) (argvlen : option (list Z))
    : result (redisContext H) :=
  '(len, cmd) ← redisFormatCommandArgv argv argvlen;
  __redisAppendCommand c cmd len.

Definition __redisCommand c (cmd : cells) (len : Z) (h : H) (w : world)
    : result (voidptr * redisContext H * H * world) :=
  c ← __redisAppendCommand c cmd len;
  if has_flag (c_flags c) REDIS_BLOCK then
    '(rc, aux, c, h, w) ← redisGetReply c h w;
    if rc =? REDIS_OK then Ok (aux, c, h, w) else Ok (Null, c, h, w)
  else Ok (Null, c, h, w).

Definition redisvCommand c (format : list byte) (ap : list va_word) (h : H) (w : world)
    : result (voidptr * redisContext H * H * world) :=
  '(len, cmd) ← redisvFormatCommand format_double format ap;
  __redisCommand c cmd len h w.

Definition redisCommand := redisvCommand.

Definition redisCommandArgv c (argv : list (list byte)) (argvlen : option (list Z)) (h : H) (w : world)
    : result (voidptr * redisContext H * H * world) :=
  '(len, cmd) ← redisFormatCommandArgv argv argvlen;
  __redisCommand c cmd len h w.
End client.
