(* ===== verification/ContextSpec.v ===== *)
(** * The client against the protocol

    A context holds bytes still to be sent and a parser state of the bytes
    received.  Writing moves bytes from the buffer to the socket, reading extends
    what the parser has seen, and a blocking call for a reply does both until the
    reply is complete. *)

From S2P Require Import Prelude Digits Sds SdsText Resp Reply ReplyHeap Reader ReaderSpec ReaderRun Format.
From S2P Require Import FormatSpec Socket Net Context.

Section spec.
Context {H : Type} (defaults : redisReplyObjectFunctions H).
Context (fn : option (redisReplyObjectFunctions H)) `{!ReplyBuilder fn}.
Context (strerror : Z -> list byte) (Hstr : texts_ok strerror).
Implicit Types c : redisContext H.

(** [c] has the bytes [out] to send and the parser state [fs], [u]. *)
Record ctx_holds c (h : H) (closed : list (voidptr * reply)) (fs : list frame) (u out : list byte) : Prop := {
  ch_fn : c_fn c = fn;
  ch_out : sds_rep (c_obuf c) out;
  ch_reader : match c_reader c with
              | Some r => holding fn r h closed fs u
              | None => fs = [] /\ u = [] /\ building h closed []
              end
}.

Lemma ctx_holds_eq c c' h closed fs u out :
  c_fn c' = c_fn c -> c_obuf c' = c_obuf c -> c_reader c' = c_reader c ->
  ctx_holds c h closed fs u out -> ctx_holds c' h closed fs u out.
Proof. intros E1 E2 E3 [H1 H2 H3]. split; [by rewrite E1|by rewrite E2|by rewrite E3]. Qed.

Lemma new_reader_holds h closed :
  building h closed [] ->
  exists r, redisReplyReaderCreate defaults = Ok r /\
    redisReplyReaderSetReplyObjectFunctions fn r = (REDIS_OK, set_fn fn r) /\
    holding fn (set_fn fn r) h closed [] [].
Proof.
  intros Hb. unfold redisReplyReaderCreate. destruct sdsempty_spec as (b & -> & Hbuf).
  cbn [mbind result_bind]. eexists. split; [done|]. split; [done|].
  split; [done|]. split; [cbn; lia|]. split; [done|]. left.
  split; [done|]. split; [done|]. split; [done|]. split; [|done]. by exists [].
Qed.

(** What [c] is after the reader [r] has been put back. *)
Lemma createReader_spec c h closed fs u out :
  ctx_holds c h closed fs u out ->
  exists r c', __redisCreateReplyReader defaults c = Ok (r, c') /\ holding fn r h closed fs u /\
    forall r', set_reader (Some r') c' = set_reader (Some r') c.
Proof.
  intros [Hfn Hout Hr]. unfold __redisCreateReplyReader. destruct (c_reader c) as [r|] eqn:E.
  - exists r, c. done.
  - destruct Hr as (-> & -> & Hb). destruct (new_reader_holds h closed Hb) as (r & -> & Es & Hh).
    cbn [mbind result_bind]. rewrite Hfn, Es, c_assert_true by done. cbn [mbind result_bind].
    eexists _, _. split; [done|]. split; [done|]. done.
Qed.

Lemma feed_reader_spec c h closed fs u out chunk :
  ctx_holds c h closed fs u out -> 1 <= zlen chunk < 2 ^ 32 -> zlen u + zlen chunk + 1024 <= sds_max ->
  exists r, feed_reader defaults chunk (zlen chunk) c = Ok (set_reader (Some r) c) /\
    ctx_holds (set_reader (Some r) c) h closed fs (u ++ chunk) out.
Proof.
  intros Hc Hl Hm. unfold feed_reader.
  destruct (createReader_spec c h closed fs u out Hc) as (r & c' & -> & Hr & Heq). cbn [mbind result_bind].
  rewrite u32_small by lia.
  destruct (redisReplyReaderFeed_spec fn r h closed fs u chunk [] Hr) as (r' & E & Hr'); [lia|lia|].
  rewrite app_nil_r in E. rewrite E. cbn [mbind result_bind]. exists r'. rewrite Heq. split; [done|].
  destruct Hc as [H1 H2 _]. by split.
Qed.

(** The reply at hand, or none yet. *)
Lemma fromReader_spec c h closed fs u out w :
  ctx_holds c h closed fs u out ->
  match parse fs u with
  | Waiting fs' u' => exists r h', redisGetReplyFromReader defaults strerror c h w
        = Ok (REDIS_OK, Null, set_reader (Some r) c, h') /\
      ctx_holds (set_reader (Some r) c) h' closed fs' u' out
  | Finished x rest => exists r h' p, redisGetReplyFromReader defaults strerror c h w
        = Ok (REDIS_OK, p, set_reader (Some r) c, h') /\ p <> Null /\
      ctx_holds (set_reader (Some r) c) h' ((p, x) :: closed) [] rest out
  | Failed msg => ReplyDisposer fn -> x00 ∉ msg -> zlen msg <= sds_max ->
      exists r e h', redisGetReplyFromReader defaults strerror c h w
        = Ok (REDIS_ERR, Null, set_err REDIS_ERR_PROTOCOL (Some e) (set_reader (Some r) c), h') /\
      sds_rep e msg /\ building h' closed [] /\ r_reply r = Null
  | Dangerous => True
  end.
Proof.
  intros Hc. destruct (createReader_spec c h closed fs u out Hc) as (r & c' & E & Hr & Heq).
  pose proof (redisReplyReaderGetReply_spec fn r h closed fs u Hr) as Hg. destruct Hc as [H1 H2 _].
  unfold redisGetReplyFromReader. rewrite E. cbn [mbind result_bind].
  destruct (parse fs u) as [fs' u'|msg| |x rest]; cbn [get_reply_spec] in Hg; [..|done|].
  - destruct Hg as (r' & h' & -> & Hr'). cbn [mbind result_bind]. exists r', h'. rewrite Heq.
    split; [done|]. by split.
  - intros Hd H0 Hl. destruct (Hg Hd) as (r' & h' & -> & (_ & _ & _ & _ & Hb & e & He & Hm) & Hnull).
    cbn [mbind result_bind]. change (REDIS_ERR =? REDIS_ERR) with true. cbn match. rewrite He.
    destruct (cell_bytes_rep e msg Hm) as (t & Et). cbn [fmap option_fmap option_map]. rewrite Et.
    unfold sdsnew. rewrite strlen_cstr by done. cbn [mbind result_bind]. pose proof (zlen_nonneg msg).
    destruct (sdsnewlen_copy (msg ++ x00 :: t) (zlen msg)) as (e' & -> & He'); [lia|len_lia|].
    rewrite to_nat_zlen, take_app_length in He'. cbn [mbind result_bind __redisSetError].
    exists r', e', h'. by rewrite Heq.
  - destruct Hg as (r' & h' & p & -> & Hp & Hr'). cbn [mbind result_bind]. exists r', h', p. rewrite Heq.
    split; [done|]. split; [done|]. by split.
Qed.

(** ** Writing *)

(** The answers [acs] accept all of [out], each some of what is left. *)
Fixpoint flushes (acs : list answer) (out : list byte) : Prop :=
  match acs with
  | [] => out = []
  | a :: acs => out <> [] /\ 0 < a_ret a /\ flushes acs (drop (Z.to_nat (a_ret a)) out)
  end.

(** [w'] is [w] after answers up to the script [rest] and the calls [calls]. *)
Definition went (w w' : world) (rest : list answer) (calls : list syscall) : Prop :=
  w_script w' = rest /\ w_trace w' = w_trace w ++ calls.

Lemma went_trans w1 w2 w3 s2 s3 k1 k2 : went w1 w2 s2 k1 -> went w2 w3 s3 k2 -> went w1 w3 s3 (k1 ++ k2).
Proof. intros [_ T1] [S2 T2]. split; [done|]. by rewrite T2, T1, app_assoc. Qed.

Lemma slice_rest (out : list byte) n : 0 < n < zlen out -> slice out n (-1) = drop (Z.to_nat n) out.
Proof.
  intros Hn. unfold slice, clamp_index. rewrite (proj2 (Z.ltb_ge n 0)) by lia.
  change (-1 <? 0) with true. cbn match. apply take_ge. len_lia.
Qed.

Lemma bufferWrite_spec c out a script w :
  sds_rep (c_obuf c) out -> out <> [] -> 0 < a_ret a -> w_script w = a :: script ->
  exists b w', let n := Z.to_nat (a_ret a) in
    redisBufferWrite strerror c w = Ok (REDIS_OK, bool_decide (drop n out = []), set_obuf b c, w') /\
    sds_rep b (drop n out) /\ went w w' script [SysSend (c_fd c) (take n out)].
Proof.
  intros Hb Hne Ha Hs. unfold redisBufferWrite. rewrite (sdslen_rep _ _ Hb).
  destruct (cell_bytes_rep _ _ Hb) as (t & ->). rewrite to_nat_zlen, take_app_length.
  assert (Hlen : 0 < zlen out) by (destruct out; [done|len_lia]).
  assert (Hmax : zlen out < 2 ^ 31) by (destruct Hb as (r & _ & Hr); unfold sds_limit in Hr; len_lia).
  rewrite (proj2 (Z.ltb_lt _ _)) by lia. unfold send. rewrite Hs, (proj2 (Z.eqb_neq (a_ret a) (-1))) by lia.
  cbn [mbind result_bind]. rewrite (proj2 (Z.eqb_neq _ (-1))) by lia. rewrite (proj2 (Z.ltb_lt 0 _)) by lia.
  rewrite (i32_small (zlen out)) by lia. set (n := Z.max 0 (Z.min (a_ret a) (zlen out))).
  assert (Htake : take (Z.to_nat n) out = take (Z.to_nat (a_ret a)) out).
  { destruct (Z.le_ge_cases (a_ret a) (zlen out)); [f_equal; lia|]. rewrite !take_ge by len_lia. done. }
  assert (Hdrop : drop (Z.to_nat n) out = drop (Z.to_nat (a_ret a)) out).
  { destruct (Z.le_ge_cases (a_ret a) (zlen out)); [f_equal; lia|]. rewrite !drop_ge by len_lia. done. }
  rewrite Htake. destruct (Z.eqb_spec n (zlen out)) as [Heq|Hneq].
  - destruct sdsempty_spec as (b & -> & Hb'). cbn [mbind result_bind].
    rewrite <- Hdrop, drop_ge by len_lia. rewrite bool_decide_eq_true_2 by done.
    eexists b, _. cbn [c_obuf set_obuf]. rewrite (sdslen_rep _ _ Hb'). split; [done|]. split; [done|]. by split.
  - destruct (sdsrange_spec _ _ n (-1) Hb) as (b & -> & Hb'); [lia|lia|]. cbn [mbind result_bind].
    rewrite slice_rest, Hdrop in Hb' by lia. eexists b, _. cbn [c_obuf set_obuf].
    rewrite (sdslen_rep _ _ Hb').
    assert (Hdone : (zlen (drop (Z.to_nat (a_ret a)) out) =? 0) = bool_decide (drop (Z.to_nat (a_ret a)) out = [])).
    { rewrite <- Hdrop. destruct (drop (Z.to_nat n) out) as [|x l] eqn:E.
      - apply (f_equal zlen) in E. revert E. zify_len. lia.
      - rewrite bool_decide_eq_false_2 by done. apply Z.eqb_neq. len_lia. }
    rewrite Hdone. split; [done|]. split; [done|]. by split.
Qed.

Lemma bufferWrite_empty c w :
  sds_rep (c_obuf c) [] -> redisBufferWrite strerror c w = Ok (REDIS_OK, true, c, w).
Proof.
  intros Hb. unfold redisBufferWrite. rewrite (sdslen_rep _ _ Hb). change (0 <? zlen []) with false. cbn [mbind result_bind].
  by rewrite (sdslen_rep _ _ Hb).
Qed.

Lemma write_all_spec : forall acs fuel c out w rest,
  sds_rep (c_obuf c) out -> flushes acs out -> w_script w = acs ++ rest -> (length acs < fuel)%nat ->
  exists b w' pieces, write_all strerror fuel c w = Ok (REDIS_OK, set_obuf b c, w') /\ sds_rep b [] /\
    concat pieces = out /\ went w w' rest (SysSend (c_fd c) <$> pieces).
Proof.
  induction acs as [|a acs IH]; intros [|fuel] c out w rest Hb Hfl Hs Hf; try (cbn in Hf; lia);
    cbn [write_all flushes length app] in *.
  - subst out. rewrite bufferWrite_empty by done. cbn [mbind result_bind].
    change (REDIS_OK =? REDIS_ERR) with false. exists (c_obuf c), w, []. split; [by destruct c|].
    split; [done|]. split; [done|]. split; [done|by rewrite app_nil_r].
  - destruct Hfl as (Hne & Ha & Hfl).
    destruct (bufferWrite_spec c out a _ w Hb Hne Ha Hs) as (b & w1 & -> & Hb1 & Hw1). cbn [mbind result_bind].
    change (REDIS_OK =? REDIS_ERR) with false. cbn match. case_bool_decide as Hd.
    + assert (acs = []) as -> by (destruct acs as [|a' acs]; [done|]; destruct Hfl as [? _]; done).
      exists b, w1, [out]. rewrite Hd in Hb1. split; [done|]. split; [done|].
      split; [apply app_nil_r|]. rewrite <- (take_drop (Z.to_nat (a_ret a)) out) at 1.
      rewrite Hd, app_nil_r. exact Hw1.
    + destruct (IH fuel (set_obuf b c) _ w1 rest Hb1 Hfl (proj1 Hw1)) as (b2 & w2 & pieces & -> & Hb2 & Hp & Hw2);
        [lia|]. exists b2, w2, (take (Z.to_nat (a_ret a)) out :: pieces). split; [done|]. split; [done|].
      split; [cbn; rewrite Hp; apply take_drop|]. exact (went_trans _ _ _ _ _ _ _ Hw1 Hw2).
Qed.

(** ** Reading *)

Definition delivers (a : answer) (chunk : list byte) : Prop :=
  a_ret a <> -1 /\ a_data a = chunk /\ 1 <= zlen chunk <= 2048.

Lemma bufferRead_spec c h closed fs u out a chunk script w :
  ctx_holds c h closed fs u out -> delivers a chunk -> w_script w = a :: script ->
  zlen u + zlen chunk + 1024 <= sds_max ->
  exists r w', redisBufferRead defaults strerror c w = Ok (REDIS_OK, set_reader (Some r) c, w') /\
    ctx_holds (set_reader (Some r) c) h closed fs (u ++ chunk) out /\ went w w' script [SysRecv (c_fd c)].
Proof.
  intros Hc (Hr & <- & Hl) Hs Hm. unfold redisBufferRead, recv, sys. rewrite Hs. cbn [mbind result_bind].
  rewrite (proj2 (Z.eqb_neq (a_ret a) (-1))), (proj2 (Z.leb_le _ _)) by lia. cbn [mbind result_bind].
  rewrite (proj2 (Z.eqb_neq _ (-1))), (proj2 (Z.eqb_neq _ 0)) by lia.
  destruct (feed_reader_spec c h closed fs u out (a_data a) Hc) as (r & -> & Hc'); [lia|lia|].
  cbn [mbind result_bind]. eexists r, _. split; [done|]. split; [done|]. by split.
Qed.

Lemma read_loop_spec x rest : forall chunks acs fuel c h closed fs u out w more,
  ctx_holds c h closed fs u out -> lex (length fs) u = Need -> Forall2 delivers acs chunks ->
  w_script w = acs ++ more -> zlen u + zlen (concat chunks) + 1024 <= sds_max ->
  parse fs (u ++ concat chunks) = Finished x rest -> (length chunks < fuel)%nat ->
  exists acs1 acs2 chunks2 u' r h' w' p, acs = acs1 ++ acs2 /\ Forall2 delivers acs2 chunks2 /\
    u' ++ concat chunks2 = rest /\ p <> Null /\
    read_until_reply defaults strerror fuel c h w = Ok (REDIS_OK, p, set_reader (Some r) c, h', w') /\
    ctx_holds (set_reader (Some r) c) h' ((p, x) :: closed) [] u' out /\
    went w w' (acs2 ++ more) (replicate (length acs1) (SysRecv (c_fd c))).
Proof.
  assert (Hneed : forall fs u, lex (length fs) u = Need -> parse fs u = Waiting fs u).
  { intros fs u Hl. rewrite parse_unfold. unfold parse_with. by rewrite Hl. }
  induction chunks as [|chunk chunks IH]; intros acs fuel c h closed fs u out w more Hc Hl Hd Hs Hm Hp Hf.
  { cbn [concat] in Hp. rewrite app_nil_r, Hneed in Hp by done. done. }
  apply Forall2_cons_inv_r in Hd as (a & acs' & Ha & Hd & ->). cbn [concat app] in *.
  destruct fuel as [|fuel]; [cbn in Hf; lia|]. rewrite zlen_app in Hm. pose proof (zlen_nonneg (concat chunks)).
  destruct (bufferRead_spec c h closed fs u out a chunk _ w Hc Ha Hs) as (r1 & w1 & E1 & Hc1 & Hw1); [lia|].
  cbn [read_until_reply]. rewrite E1. cbn [mbind result_bind]. change (REDIS_OK =? REDIS_ERR) with false.
  cbn match. rewrite app_assoc, parse_app in Hp.
  pose proof (fromReader_spec (set_reader (Some r1) c) h closed fs (u ++ chunk) out w1 Hc1) as Hg.
  destruct (parse fs (u ++ chunk)) as [fs2 u2| | |x2 rest2] eqn:Ep; try done; cbn [extend_outcome] in Hp.
  - destruct Hg as (r2 & h2 & -> & Hc2). cbn [mbind result_bind]. change (REDIS_OK =? REDIS_ERR) with false.
    cbn match. rewrite bool_decide_eq_true_2 by done.
    pose proof (parse_waiting _ _ _ _ Ep) as Hl2. apply parse_rest in Ep as Hshort.
    destruct (IH acs' fuel (set_reader (Some r2) (set_reader (Some r1) c)) h2 closed fs2 u2 out w1 more Hc2 Hl2 Hd
                (proj1 Hw1)) as (acs1 & acs2 & chunks2 & u' & r & h' & w' & p & -> & Hd2 & Hu & Hne & E & Hc' & Hw');
      [len_lia|done|cbn in Hf; lia|].
    exists (a :: acs1), acs2, chunks2, u', r, h', w', p. split; [done|]. split; [done|]. split; [done|].
    split; [done|]. split; [exact E|]. split; [exact Hc'|]. exact (went_trans _ _ _ _ _ _ _ Hw1 Hw').
  - injection Hp as -> <-. destruct Hg as (r2 & h2 & p & -> & Hne & Hc2). cbn [mbind result_bind].
    change (REDIS_OK =? REDIS_ERR) with false. cbn match. rewrite bool_decide_eq_false_2 by done.
    exists [a], acs', chunks, rest2, r2, h2, w1, p. split; [done|]. split; [done|]. split; [done|].
    split; [done|]. split; [done|]. split; [exact Hc2|exact Hw1].
Qed.

(** ** A reply on a blocking context *)

Definition blocking c : Prop := has_flag (c_flags c) REDIS_BLOCK = true.

Lemma script_reads_app acs chunks more w :
  Forall2 delivers acs chunks -> w_script w = acs ++ more -> (length chunks < S (script_reads w))%nat.
Proof.
  intros Hd E. unfold script_reads. rewrite E. clear E.
  induction Hd as [|a c acs chunks _ Hd IH]; cbn [app length sum_list_with]; [lia|]. lia.
Qed.

Lemma getReply_spec x rest chunks acs facs c h closed fs u out w more :
  ctx_holds c h closed fs u out -> blocking c -> Forall2 delivers acs chunks -> flushes facs out ->
  ((exists fs' u', parse fs u = Waiting fs' u') \/ facs = []) ->
  w_script w = facs ++ acs ++ more -> zlen u + zlen (concat chunks) + 1024 <= sds_max ->
  parse fs (u ++ concat chunks) = Finished x rest ->
  exists acs1 acs2 chunks2 u' r b h' w' p pieces, acs = acs1 ++ acs2 /\ Forall2 delivers acs2 chunks2 /\
    u' ++ concat chunks2 = rest /\ p <> Null /\ concat pieces = out /\
    redisGetReply defaults strerror c h w = Ok (REDIS_OK, p, set_reader (Some r) (set_obuf b c), h', w') /\
    ctx_holds (set_reader (Some r) (set_obuf b c)) h' ((p, x) :: closed) [] u' [] /\
    went w w' (acs2 ++ more) ((SysSend (c_fd c) <$> pieces) ++ replicate (length acs1) (SysRecv (c_fd c))).
Proof.
  intros Hc Hblk Hd Hfl Hwait Hs Hm Hp. unfold redisGetReply.
  pose proof (fromReader_spec c h closed fs u out w Hc) as Hg. rewrite parse_app in Hp.
  destruct (parse fs u) as [fs1 u1| | |x1 rest1] eqn:Ep; try done; cbn [extend_outcome] in Hp.
  - destruct Hg as (r1 & h1 & -> & Hc1). cbn [mbind result_bind]. change (REDIS_OK =? REDIS_ERR) with false.
    cbn match. rewrite bool_decide_eq_true_2 by done. cbn [c_flags set_reader]. rewrite Hblk. cbn [andb].
    destruct (write_all_spec facs (S (length (w_script w))) (set_reader (Some r1) c) out w (acs ++ more))
      as (b & w1 & pieces & -> & Hb & Hpc & Hw1); [apply Hc|done|done|rewrite Hs, length_app; lia|].
    cbn [mbind result_bind]. change (REDIS_OK =? REDIS_ERR) with false. cbn match.
    apply parse_rest in Ep as Hshort. pose proof (parse_waiting _ _ _ _ Ep) as Hl.
    destruct (read_loop_spec x rest chunks acs (S (script_reads w1)) (set_obuf b (set_reader (Some r1) c)) h1 closed fs1
                u1 [] w1 more) as (acs1 & acs2 & chunks2 & u' & r & h' & w' & p & -> & Hd2 & Hu & Hne & -> & Hc' & Hw');
      [|done|done|apply Hw1|len_lia|done|by eapply script_reads_app; [|apply Hw1]|].
    { destruct Hc1 as [H1 _ H3]. by split. }
    exists acs1, acs2, chunks2, u', r, b, h', w', p, pieces.
    split; [done|]. split; [done|]. split; [done|]. split; [done|]. split; [done|]. split; [done|].
    split; [exact Hc'|]. exact (went_trans _ _ _ _ _ _ _ Hw1 Hw').
  - injection Hp as -> <-. destruct Hwait as [(? & ? & ?)| ->]; [done|]. cbn [flushes] in Hfl. subst out.
    destruct Hg as (r1 & h1 & p & -> & Hne & Hc1). cbn [mbind result_bind].
    change (REDIS_OK =? REDIS_ERR) with false. cbn match. rewrite bool_decide_eq_false_2 by done. cbn [andb].
    exists [], acs, chunks, rest1, r1, (c_obuf c), h1, w, p, []. replace (set_obuf (c_obuf c) c) with c by (by destruct c).
    split; [done|]. split; [done|]. split; [done|]. split; [done|]. split; [done|]. split; [done|].
    split; [exact Hc1|]. split; [done|]. by rewrite app_nil_r.
Qed.

Fixpoint get_replies (n : nat) c (h : H) (w : world) : result (list voidptr * redisContext H * H * world) :=
  match n with
  | O => Ok ([], c, h, w)
  | S n =>
      '(rc, p, c, h, w) ← redisGetReply defaults strerror c h w;
      if rc =? REDIS_ERR then Ok ([], c, h, w)
      else '(ps, c, h, w) ← get_replies n c h w; Ok (p :: ps, c, h, w)
  end.

(** The bytes given to the socket. *)
Definition sent (calls : list syscall) : list byte :=
  concat (omap (fun call => match call with SysSend _ data => Some data | _ => None end) calls).

Lemma sent_app k1 k2 : sent (k1 ++ k2) = sent k1 ++ sent k2.
Proof. unfold sent. by rewrite omap_app, concat_app. Qed.

Lemma sent_calls fd pieces n : sent ((SysSend fd <$> pieces) ++ replicate n (SysRecv fd)) = concat pieces.
Proof.
  rewrite sent_app. replace (sent (replicate n _)) with (@nil byte) by (by induction n).
  rewrite app_nil_r. induction pieces as [|q pieces IH]; [done|]. unfold sent in *. cbn. by rewrite IH.
Qed.

Lemma replies_spec : forall xs chunks acs facs c h closed u out w more,
  ctx_holds c h closed [] u out -> blocking c -> Forall2 delivers acs chunks -> flushes facs out ->
  (u = [] \/ facs = []) -> w_script w = facs ++ acs ++ more ->
  zlen u + zlen (concat chunks) + 1024 <= sds_max -> u ++ concat chunks = encodes xs ->
  Forall wf_reply xs -> Forall (fun x => reply_depth x <= max_nesting)%nat xs ->
  (xs = [] -> out = []) ->
  exists ps c' h' w' calls, get_replies (length xs) c h w = Ok (ps, c', h', w') /\ length ps = length xs /\
    ctx_holds c' h' (handed ps xs ++ closed) [] [] [] /\ went w w' more calls /\ sent calls = out.
Proof.
  induction xs as [|x xs IH]; intros chunks acs facs c h closed u out w more Hc Hblk Hd Hfl Hu Hs Hm He Hwf Hdep Hout.
  { rewrite Hout in * by done. apply app_eq_nil in He as [-> He].
    assert (chunks = []) as ->.
    { destruct chunks as [|q chunks]; [done|]. apply Forall2_cons_inv_r in Hd as (a & ? & (_ & _ & Hq) & _).
      cbn in He. apply app_eq_nil in He as [-> _]. len_lia. }
    apply Forall2_nil_inv_r in Hd as ->. exists [], c, h, w, [].
    assert (facs = []) as -> by (destruct facs as [|f facs]; [done|]; by destruct Hfl).
    split; [done|]. split; [done|]. split; [exact Hc|]. split; [|done]. split; [done|by rewrite app_nil_r]. }
  apply Forall_cons in Hwf as [Hx Hwf]. apply Forall_cons in Hdep as [Hdx Hdep].
  cbn [encodes fold_right] in He. fold (encodes xs) in He.
  destruct (getReply_spec x (encodes xs) chunks acs facs c h closed [] u out w more Hc Hblk Hd Hfl)
    as (acs1 & acs2 & chunks2 & u' & r & b & h' & w1 & p & pieces & -> & Hd2 & Hu' & Hne & Hpc & E & Hc' & Hw1).
  - destruct Hu as [->| ->]; [left; by exists [], []|by right].
  - done.
  - done.
  - rewrite He. by apply parse_encode_root.
  - cbn [length get_replies]. rewrite E. cbn [mbind result_bind]. change (REDIS_OK =? REDIS_ERR) with false. cbn match.
    assert (Hshort : zlen u' + zlen (concat chunks2) <= zlen u + zlen (concat chunks)).
    { rewrite <- !zlen_app, Hu', He, zlen_app. pose proof (zlen_nonneg (encode x)). lia. }
    destruct (IH chunks2 acs2 [] _ h' ((p, x) :: closed) u' [] w1 more Hc' Hblk Hd2 eq_refl (or_intror eq_refl)
                (proj1 Hw1)) as (ps & c2 & h2 & w2 & calls & -> & Hl & Hc2 & Hw2 & Hsent); [lia|done|done|done|done|].
    cbn [mbind result_bind].
    exists (p :: ps), c2, h2, w2, (((SysSend (c_fd c) <$> pieces) ++ replicate (length acs1) (SysRecv (c_fd c))) ++ calls).
    split; [done|]. split; [cbn; lia|]. split; [|split].
    + unfold handed in *. cbn [zip zip_with rev]. by rewrite <- app_assoc.
    + exact (went_trans _ _ _ _ _ _ _ Hw1 Hw2).
    + rewrite sent_app, sent_calls, Hsent, Hpc. apply app_nil_r.
Qed.
End spec.
