(* ===== verification/ContextRun.v ===== *)
(** * Commands and their replies over a connection

    The properties of the blocking client, end to end: from a format and its
    arguments to the bytes a server gets, and from the bytes it answers to the
    reply objects. *)

From S2P Require Import Prelude Digits Sds SdsText Resp Reply ReplyHeap Reader ReaderSpec ReaderRun Format.
From S2P Require Import FormatSpec Socket Net Context ContextSpec.

Section run.
Context {H : Type} (defaults : redisReplyObjectFunctions H).
Context (fn : option (redisReplyObjectFunctions H)) `{!ReplyBuilder fn}.
Context (strerror : Z -> list byte) (Hstr : texts_ok strerror).
Context (format_double : conversion -> Z -> Z -> list byte).
Implicit Types c : redisContext H.

Lemma append_spec c h closed fs u out cmd :
  ctx_holds fn c h closed fs u out -> zlen out + zlen cmd <= sds_max ->
  exists b, __redisAppendCommand c (Some <$> (cmd ++ [x00])) (zlen cmd) = Ok (set_obuf b c) /\
    ctx_holds fn (set_obuf b c) h closed fs u (out ++ cmd).
Proof.
  intros [H1 H2 H3] Hm. unfold __redisAppendCommand. pose proof (zlen_nonneg cmd). pose proof (zlen_nonneg out).
  rewrite u32_small by (unfold sds_max in Hm; lia).
  rewrite <- (app_nil_r (Some <$> _)), cell_bytes_app. cbn [cell_bytes]. rewrite app_nil_r.
  destruct (sdscatlen_spec (c_obuf c) out (cmd ++ [x00]) (zlen cmd) H2) as (b & -> & Hb); [len_lia|lia|].
  rewrite to_nat_zlen, take_app_length in Hb. cbn [mbind result_bind]. exists b. split; [done|]. by split.
Qed.

(** A format and its arguments, from a template. *)
Definition template_format (t : template) : list byte := template_text t ++ [x00].
Definition template_command (t : template) : list byte := command_bytes (template_values t).

Lemma appendCommand_spec t c h closed fs u out :
  ctx_holds fn c h closed fs u out -> template_ok t -> zlen out + zlen (template_command t) <= sds_max ->
  exists b, redisAppendCommand format_double c (template_format t) (template_args t) = Ok (set_obuf b c) /\
    ctx_holds fn (set_obuf b c) h closed fs u (out ++ template_command t).
Proof.
  intros Hc Ht Hm. unfold redisAppendCommand, redisvAppendCommand. pose proof (zlen_nonneg out).
  pose proof (redisvFormatCommand_spec format_double 0 t [] [] Ht) as Hf.
  cbn [replicate app] in Hf. rewrite app_nil_r in Hf. unfold template_format.
  rewrite Hf by (unfold template_command in Hm; lia). cbn [mbind result_bind]. by apply (append_spec c h).
Qed.

Fixpoint append_all (ts : list template) c : result (redisContext H) :=
  match ts with
  | [] => Ok c
  | t :: ts => c ← redisAppendCommand format_double c (template_format t) (template_args t); append_all ts c
  end.

Definition commands_bytes (ts : list template) : list byte := concat (template_command <$> ts).

Lemma append_all_spec : forall ts c h closed fs u out,
  ctx_holds fn c h closed fs u out -> Forall template_ok ts -> zlen out + zlen (commands_bytes ts) <= sds_max ->
  exists b, append_all ts c = Ok (set_obuf b c) /\
    ctx_holds fn (set_obuf b c) h closed fs u (out ++ commands_bytes ts).
Proof.
  induction ts as [|t ts IH]; intros c h closed fs u out Hc Hts Hm; cbn [append_all].
  { exists (c_obuf c). rewrite app_nil_r. by destruct c. }
  apply Forall_cons in Hts as [Ht Hts]. cbn [commands_bytes fmap list_fmap concat] in *.
  fold (commands_bytes ts) in *. rewrite zlen_app in Hm. pose proof (zlen_nonneg (commands_bytes ts)).
  destruct (appendCommand_spec t c h closed fs u out Hc Ht) as (b & -> & Hc1); [lia|]. cbn [mbind result_bind].
  destruct (IH _ h closed fs u _ Hc1 Hts) as (b2 & -> & Hc2); [len_lia|]. exists b2.
  split; [done|]. rewrite app_assoc. exact Hc2.
Qed.

(** What a server that reads [ts] sees. *)
Lemma commands_parse ts : zlen (commands_bytes ts) <= sds_max ->
  stream [] (commands_bytes ts) = Some ((fun t => RArray (map RString (template_values t))) <$> ts, [], []).
Proof.
  induction ts as [|t ts IH]; intros Hm; [done|]. cbn [commands_bytes fmap list_fmap concat] in *.
  fold (commands_bytes ts) in *. rewrite zlen_app in Hm. pose proof (zlen_nonneg (commands_bytes ts)).
  pose proof (zlen_nonneg (template_command t)).
  rewrite stream_unfold. unfold template_command at 1. rewrite parse_command by (unfold template_command in Hm; lia).
  rewrite IH by lia. done.
Qed.

(** The answers of the system: all of [out] is accepted, then [chunks] arrive. *)
Definition exchange (w : world) (out : list byte) (chunks : list (list byte)) (more : list answer) : Prop :=
  exists facs acs, w_script w = facs ++ acs ++ more /\ flushes facs out /\ Forall2 delivers acs chunks.

Definition replies_ok (xs : list reply) : Prop :=
  Forall wf_reply xs /\ Forall (fun x => reply_depth x <= max_nesting)%nat xs.

Lemma pipeline_spec ts xs chunks c h w more :
  ctx_holds fn c h [] [] [] [] -> blocking c -> Forall template_ok ts -> xs <> [] ->
  zlen (commands_bytes ts) <= sds_max -> exchange w (commands_bytes ts) chunks more ->
  concat chunks = encodes xs -> zlen (encodes xs) + 1024 <= sds_max -> replies_ok xs ->
  exists c1 ps c' h' w' calls, append_all ts c = Ok c1 /\
    get_replies defaults strerror (length xs) c1 h w = Ok (ps, c', h', w') /\ length ps = length xs /\
    ctx_holds fn c' h' (handed ps xs) [] [] [] /\ went w w' more calls /\ sent calls = commands_bytes ts.
Proof.
  intros Hc Hblk Hts Hne Hm (facs & acs & Hs & Hfl & Hd) He Hx [Hwf Hdep].
  destruct (append_all_spec ts c h [] [] [] [] Hc Hts) as (b & E & Hc1); [exact Hm|]. cbn [app] in Hc1.
  destruct (replies_spec defaults fn strerror xs chunks acs facs (set_obuf b c) h [] [] _ w more Hc1 Hblk Hd Hfl)
    as (ps & c' & h' & w' & calls & Eg & Hl & Hc' & Hw & Hsent); try done; [by left|by rewrite He|].
  rewrite app_nil_r in Hc'. eauto 12.
Qed.
End run.

(** ** Properties *)

(** C7: a pipeline of commands: formats appended to the buffer of a blocking
    connection reach the server as the commands they spell, completely and in
    order, however the socket cuts the writes, and the same number of calls of
    [redisGetReply] gives the replies the server sent, in order, however they
    arrive, leaving nothing unread and nothing unsent. *)
Theorem pipeline {H} (defaults : redisReplyObjectFunctions H) (fn : option (redisReplyObjectFunctions H))
    `{!ReplyBuilder fn} strerror format_double ts xs chunks c (h : H) w more :
  ctx_holds fn c h [] [] [] [] -> blocking c -> Forall template_ok ts -> xs <> [] ->
  zlen (commands_bytes ts) <= sds_max -> exchange w (commands_bytes ts) chunks more ->
  concat chunks = encodes xs -> zlen (encodes xs) + 1024 <= sds_max -> replies_ok xs ->
  exists c1 ps c' h' w' calls, append_all format_double ts c = Ok c1 /\
    get_replies defaults strerror (length xs) c1 h w = Ok (ps, c', h', w') /\
    length ps = length xs /\ ctx_holds fn c' h' (handed ps xs) [] [] [] /\ went w w' more calls /\
    stream [] (sent calls) = Some ((fun t => RArray (map RString (template_values t))) <$> ts, [], []).
Proof.
  intros Hc Hblk Hts Hne Hm Hex He Hx Hok.
  destruct (pipeline_spec defaults fn strerror format_double ts xs chunks c h w more Hc Hblk Hts Hne Hm Hex He Hx Hok)
    as (c1 & ps & c' & h' & w' & calls & Ea & Eg & Hl & Hc' & Hw & Hsent).
  exists c1, ps, c', h', w', calls. rewrite Hsent, commands_parse by done. eauto 8.
Qed.

Definition demo_conn : redisContext reply_heap :=
  match redisConnected defaultFunctions with
  | Ok c => set_fd 5 c
  | Err _ => RedisContext 0 0 (Sdshdr 0 0 []) 0 None None None
  end.

Lemma demo_conn_holds : ctx_holds (Some defaultFunctions) demo_conn empty_heap [] [] [] [].
Proof.
  unfold demo_conn, redisConnected, redisContextInit. destruct sdsempty_spec as (b & -> & Hb).
  cbn [mbind result_bind]. split; [done|done|]. split; [done|]. split; [done|]. apply empty_heap_building.
Qed.

Definition demo_pipeline : list template :=
  [[(map Lit (bytes "GET"), 1%nat); ([Str (bytes "key")], 0%nat)]; [(map Lit (bytes "PING"), 0%nat)]].

Definition demo_exchange : world :=
  World [Answer 7 0 0 []; Answer 100 0 0 [];
         Answer 1 0 0 (take 20 (encodes demo_replies)); Answer 1 0 0 (drop 20 (encodes demo_replies))] [] 0 0.

Lemma demo_exchange_ok :
  exchange demo_exchange (commands_bytes demo_pipeline)
    [take 20 (encodes demo_replies); drop 20 (encodes demo_replies)] [].
Proof.
  exists [Answer 7 0 0 []; Answer 100 0 0 []],
    [Answer 1 0 0 (take 20 (encodes demo_replies)); Answer 1 0 0 (drop 20 (encodes demo_replies))].
  split; [done|]. split.
  - cbn [flushes a_ret]. split; [by vm_compute|]. split; [lia|]. split; [by vm_compute|]. split; [lia|].
    by vm_compute.
  - repeat (apply List.Forall2_cons; [split; [done|]; split; [done|]; vm_compute; split; congruence|]).
    apply List.Forall2_nil.
Qed.

Lemma demo_replies_ok : replies_ok demo_replies.
Proof. destruct demo_pieces_ok as (_ & _ & _ & Hwf & Hd). by split. Qed.

Lemma pipeline_witness :
  exists c1 ps c' h' w' calls, append_all (fun _ _ _ => []) demo_pipeline demo_conn = Ok c1 /\
    get_replies defaultFunctions (fun _ => []) 2 c1 empty_heap demo_exchange = Ok (ps, c', h', w') /\
    length ps = 2%nat /\ ctx_holds (Some defaultFunctions) c' h' (handed ps demo_replies) [] [] [] /\
    went demo_exchange w' [] calls /\
    stream [] (sent calls) = Some ([RArray [RString (bytes "GET"); RString (bytes "key")];
                                    RArray [RString (bytes "PING")]], [], []).
Proof.
  apply (pipeline defaultFunctions (Some defaultFunctions) (fun _ => []) (fun _ _ _ => []) demo_pipeline demo_replies
           [take 20 (encodes demo_replies); drop 20 (encodes demo_replies)] demo_conn empty_heap demo_exchange []).
  - apply demo_conn_holds.
  - reflexivity.
  - repeat (apply List.Forall_cons; [apply (bool_decide_unpack _); by vm_compute|]). apply List.Forall_nil.
  - discriminate.
  - vm_compute. discriminate.
  - apply demo_exchange_ok.
  - reflexivity.
  - vm_compute. discriminate.
  - apply demo_replies_ok.
Defined.

Section command.
Context {H : Type} (defaults : redisReplyObjectFunctions H).
Context (fn : option (redisReplyObjectFunctions H)) `{!ReplyBuilder fn}.
Context (strerror : Z -> list byte) (Hstr : texts_ok strerror).
Implicit Types c : redisContext H.

Lemma command_spec cmd x chunks c h w more :
  ctx_holds fn c h [] [] [] [] -> blocking c -> zlen cmd <= sds_max -> exchange w cmd chunks more ->
  concat chunks = encode x -> zlen (encode x) + 1024 <= sds_max -> wf_reply x ->
  (reply_depth x <= max_nesting)%nat ->
  exists p c' h' w' calls,
    __redisCommand defaults strerror c (Some <$> (cmd ++ [x00])) (zlen cmd) h w = Ok (p, c', h', w') /\
    p <> Null /\ ctx_holds fn c' h' [(p, x)] [] [] [] /\ went w w' more calls /\ sent calls = cmd.
Proof.
  intros Hc Hblk Hm (facs & acs & Hs & Hfl & Hd) He Hx Hwf Hdep. unfold __redisCommand.
  destruct (append_spec fn c h [] [] [] [] cmd Hc) as (b & -> & Hc1); [done|]. cbn [mbind result_bind app] in *.
  change (c_flags (set_obuf b c)) with (c_flags c). rewrite Hblk.
  destruct (getReply_spec defaults fn strerror x [] chunks acs facs (set_obuf b c) h [] [] [] _ w more Hc1 Hblk Hd Hfl)
    as (acs1 & acs2 & chunks2 & u' & r & b' & h' & w' & p & pieces & -> & Hd2 & Hu & Hne & Hpc & -> & Hc' & Hw).
  - left. by exists [], [].
  - done.
  - rewrite He. exact Hx.
  - cbn [app]. rewrite He, <- (app_nil_r (encode x)). by apply parse_encode_root.
  - cbn [mbind result_bind]. change (REDIS_OK =? REDIS_OK) with true. cbn match.
    apply app_eq_nil in Hu as [-> Hu].
    assert (acs2 = []) as ->.
    { destruct Hd2 as [|a q acs2 chunks2 (_ & _ & Hq) _]; [done|]. cbn in Hu. apply app_eq_nil in Hu as [-> _]. len_lia. }
    eexists p, _, h', w', _. split; [done|]. split; [done|]. split; [exact Hc'|]. split; [exact Hw|].
    by rewrite sent_calls.
Qed.

(** The reply fails to come: what the context says then. *)
Definition fails_with c c' (type : Z) (text : list byte) : Prop :=
  c_err c' = type /\ (exists e, c_errstr c' = Some e /\ sds_rep e text) /\
  c_fd c' = c_fd c /\ c_flags c' = c_flags c.

Lemma getReply_waits c h closed fs u out fs1 u1 w facs more :
  ctx_holds fn c h closed fs u out -> blocking c -> parse fs u = Waiting fs1 u1 -> flushes facs out ->
  w_script w = facs ++ more ->
  exists c1 h1 w1, redisGetReply defaults strerror c h w
      = read_until_reply defaults strerror (S (script_reads w1)) c1 h1 w1 /\
    ctx_holds fn c1 h1 closed fs1 u1 [] /\ w_script w1 = more /\ c_fd c1 = c_fd c /\ c_flags c1 = c_flags c.
Proof.
  intros Hc Hblk Ep Hfl Hs. unfold redisGetReply.
  pose proof (fromReader_spec defaults fn strerror c h closed fs u out w Hc) as Hg. rewrite Ep in Hg.
  destruct Hg as (r1 & h1 & -> & Hc1). cbn [mbind result_bind]. change (REDIS_OK =? REDIS_ERR) with false.
  cbn match. rewrite bool_decide_eq_true_2 by done. cbn [c_flags set_reader]. rewrite Hblk. cbn [andb].
  destruct (write_all_spec strerror facs (S (length (w_script w))) (set_reader (Some r1) c) out w more)
    as (b & w1 & pieces & -> & Hb & Hpc & Hw1); [apply Hc|done|done|rewrite Hs, length_app; lia|].
  cbn [mbind result_bind]. change (REDIS_OK =? REDIS_ERR) with false. cbn match.
  exists (set_obuf b (set_reader (Some r1) c)), h1, w1. split; [done|].
  split; [destruct Hc1 as [H1 _ H3]; by split|]. split; [apply Hw1|done].
Qed.

Lemma set_io_error c w :
  exists c', __redisSetError strerror REDIS_ERR_IO None w c = Ok c' /\
    fails_with c c' REDIS_ERR_IO (strerror (w_errno w)).
Proof.
  unfold __redisSetError. rewrite c_assert_true by done. cbn [mbind result_bind].
  destruct (Hstr (w_errno w)) as [H0 Hl].
  destruct (sdsnew_spec (strerror (w_errno w)) H0) as (e & -> & He); [unfold sds_max; lia|].
  cbn [mbind result_bind]. eexists. split; [done|]. split; [done|]. split; [by exists e|done].
Qed.

Lemma set_eof_error c w :
  exists c', set_eof strerror w c = Ok c' /\ fails_with c c' REDIS_ERR_EOF (bytes "Server closed the connection").
Proof.
  unfold set_eof.
  destruct (sdsnew_spec (bytes "Server closed the connection")) as (e & -> & He).
  - apply (bool_decide_unpack _). by vm_compute.
  - by vm_compute.
  - cbn [mbind result_bind __redisSetError]. eexists. split; [done|]. split; [done|]. split; [by exists e|done].
Qed.

(** The error a code of the system becomes in [errno]. *)
Definition translated (e : Z) : Z := if (e =? ENOENT) || (e =? WSAEWOULDBLOCK) then EAGAIN else e.

(** What ends the wait: the peer closed, an error of the system, or bytes that break the protocol. *)
Inductive failure (a : answer) (fs : list frame) (u : list byte) : Z -> list byte -> Prop :=
| failure_eof : a_ret a <> -1 -> a_data a = [] ->
    failure a fs u REDIS_ERR_EOF (bytes "Server closed the connection")
| failure_io : a_ret a = -1 -> failure a fs u REDIS_ERR_IO (strerror (translated (i32 (a_err a))))
| failure_protocol chunk msg : delivers a chunk -> zlen u + zlen chunk + 1024 <= sds_max ->
    parse fs (u ++ chunk) = Failed msg -> (x00 ∉ msg) -> zlen msg <= sds_max ->
    failure a fs u REDIS_ERR_PROTOCOL msg.

Lemma read_fails `{!ReplyDisposer fn} a more type text fuel c h closed fs u out w :
  ctx_holds fn c h closed fs u out -> blocking c -> w_script w = a :: more -> failure a fs u type text ->
  exists c' h' w', read_until_reply defaults strerror (S fuel) c h w = Ok (REDIS_ERR, Null, c', h', w') /\
    fails_with c c' type text /\ w_script w' = more.
Proof.
  intros Hc Hblk Hs Hf. cbn [read_until_reply]. destruct Hf as [Hr Hd|Hr|chunk msg Hd Hm Hp H0 Hl].
  - unfold redisBufferRead, recv, sys. rewrite Hs. cbn [mbind result_bind].
    rewrite (proj2 (Z.eqb_neq (a_ret a) (-1))), Hd by done. change (zlen [] <=? 2048) with true. cbn [mbind result_bind].
    change (zlen [] =? -1) with false. change (zlen [] =? 0) with true. cbn match.
    edestruct (set_eof_error c) as (c' & -> & Hf). cbn [mbind result_bind]. change (REDIS_ERR =? REDIS_ERR) with true.
    cbn match. eexists _, _, _. split; [done|]. by split.
  - unfold redisBufferRead, recv, sys. rewrite Hs. cbn [mbind result_bind]. rewrite Hr.
    change (-1 =? -1) with true. cbn match. cbn [mbind result_bind]. change (-1 =? -1) with true. cbn match.
    unfold again. rewrite Hblk, andb_false_r.
    edestruct (set_io_error c) as (c' & -> & Hf). cbn [mbind result_bind]. change (REDIS_ERR =? REDIS_ERR) with true.
    cbn match. eexists _, _, _. split; [done|]. split.
    + unfold translated. unfold socket_errno in Hf. cbn [w_errno w_last set_errno] in Hf.
      destruct (_ || _) in Hf |- *; exact Hf.
    + unfold socket_errno. cbn [w_errno w_last set_errno]. by destruct (_ || _).
  - destruct (bufferRead_spec defaults fn strerror c h closed fs u out a chunk more w Hc Hd Hs Hm)
      as (r1 & w1 & -> & Hc1 & Hw1). cbn [mbind result_bind]. change (REDIS_OK =? REDIS_ERR) with false. cbn match.
    pose proof (fromReader_spec defaults fn strerror (set_reader (Some r1) c) h closed fs (u ++ chunk) out w1 Hc1) as Hg.
    rewrite Hp in Hg. destruct (Hg ltac:(done) H0 Hl) as (r & e & h' & -> & He & _). cbn [mbind result_bind].
    change (REDIS_ERR =? REDIS_ERR) with true. cbn match. eexists _, _, _. split; [done|].
    split; [|apply Hw1]. split; [done|]. split; [by exists e|done].
Qed.
End command.

(** [redisCommand] on a blocking connection: the server receives exactly the
    words of the format, and the call returns the reply the server sends, as an
    object of the reply functions in use. *)
Theorem command_roundtrip {H} (defaults : redisReplyObjectFunctions H) (fn : option (redisReplyObjectFunctions H))
    `{!ReplyBuilder fn} strerror format_double t x chunks c (h : H) w more :
  ctx_holds fn c h [] [] [] [] -> blocking c -> template_ok t -> zlen (template_command t) <= sds_max ->
  exchange w (template_command t) chunks more -> concat chunks = encode x ->
  zlen (encode x) + 1024 <= sds_max -> wf_reply x -> (reply_depth x <= max_nesting)%nat ->
  exists p c' h' w' calls,
    redisCommand defaults strerror format_double c (template_format t) (template_args t) h w = Ok (p, c', h', w') /\
    p <> Null /\ ctx_holds fn c' h' [(p, x)] [] [] [] /\ building h' [(p, x)] [] /\ went w w' more calls /\
    parse [] (sent calls) = Finished (RArray (map RString (template_values t))) [].
Proof.
  intros Hc Hblk Ht Hm Hex He Hx Hwf Hdep. unfold redisCommand, redisvCommand, template_format.
  pose proof (redisvFormatCommand_spec format_double 0 t [] [] Ht Hm) as Hf.
  cbn [replicate app] in Hf. rewrite app_nil_r in Hf. rewrite Hf. cbn [mbind result_bind].
  destruct (command_spec defaults fn strerror (template_command t) x chunks c h w more Hc Hblk Hm Hex He Hx Hwf Hdep)
    as (p & c' & h' & w' & calls & E & Hp & Hc' & Hw & Hsent).
  exists p, c', h', w', calls. split; [exact E|]. split; [done|]. split; [done|].
  split; [|split; [done|]].
  - destruct Hc' as [_ _ Hr]. destruct (c_reader c') as [r|].
    + by eapply holding_building.
    + apply Hr.
  - rewrite Hsent, <- (app_nil_r (template_command t)). by apply parse_command.
Qed.

Definition demo_reply : reply := RArray [RString (bytes "a value"); RNil].

Definition demo_answers : world :=
  World [Answer 500 0 0 []; Answer 1 0 0 (take 5 (encode demo_reply)); Answer 1 0 0 (drop 5 (encode demo_reply))] [] 0 0.

Lemma demo_answers_ok :
  exchange demo_answers (template_command [(map Lit (bytes "MGET"), 2%nat); ([Bin (bytes "k" ++ crlf)], 0%nat)])
    [take 5 (encode demo_reply); drop 5 (encode demo_reply)] [].
Proof.
  exists [Answer 500 0 0 []],
    [Answer 1 0 0 (take 5 (encode demo_reply)); Answer 1 0 0 (drop 5 (encode demo_reply))].
  split; [done|]. split.
  - cbn [flushes a_ret]. split; [by vm_compute|]. split; [lia|]. by vm_compute.
  - repeat (apply List.Forall2_cons; [split; [done|]; split; [done|]; vm_compute; split; congruence|]).
    apply List.Forall2_nil.
Qed.

Lemma command_roundtrip_witness :
  exists p c' h' w' calls,
    redisCommand defaultFunctions (fun _ => []) (fun _ _ _ => []) demo_conn (cstr (bytes "MGET  %b"))
      [WPtr (bytes "k" ++ crlf); WInt 3] empty_heap demo_answers = Ok (p, c', h', w') /\
    p <> Null /\ ctx_holds (Some defaultFunctions) c' h' [(p, demo_reply)] [] [] [] /\
    heap_building h' [(p, demo_reply)] [] /\ went demo_answers w' [] calls /\
    parse [] (sent calls) = Finished (RArray [RString (bytes "MGET"); RString (bytes "k" ++ crlf)]) [].
Proof.
  refine (command_roundtrip defaultFunctions (Some defaultFunctions) (fun _ => []) (fun _ _ _ => [])
           [(map Lit (bytes "MGET"), 2%nat); ([Bin (bytes "k" ++ crlf)], 0%nat)] demo_reply
           [take 5 (encode demo_reply); drop 5 (encode demo_reply)] demo_conn empty_heap demo_answers [] _ _ _ _ _ _ _ _ _).
  - apply demo_conn_holds.
  - reflexivity.
  - apply (bool_decide_unpack _). by vm_compute.
  - vm_compute. discriminate.
  - apply demo_answers_ok.
  - reflexivity.
  - vm_compute. discriminate.
  - cbn [demo_reply wf_reply fold_right]. repeat split; vm_compute; congruence.
  - vm_compute. lia.
Defined.

(** C8: when no reply comes, [redisGetReply] on a blocking connection returns
    [REDIS_ERR], takes no further answer of the system, and the context tells
    the three causes apart: end of file, an error of the system with its text
    (would-block being translated), a violation of the protocol with the
    message of the parser. *)
Theorem reply_failures {H} (defaults : redisReplyObjectFunctions H) (fn : option (redisReplyObjectFunctions H))
    `{!ReplyBuilder fn} `{!ReplyDisposer fn} strerror c (h : H) closed fs u out fs1 u1 w facs a more type text :
  texts_ok strerror -> ctx_holds fn c h closed fs u out -> blocking c -> parse fs u = Waiting fs1 u1 ->
  flushes facs out -> w_script w = facs ++ a :: more -> failure strerror a fs1 u1 type text ->
  exists c' h' w', redisGetReply defaults strerror c h w = Ok (REDIS_ERR, Null, c', h', w') /\
    fails_with c c' type text /\ w_script w' = more.
Proof.
  intros Hstr Hc Hblk Ep Hfl Hs Hf.
  destruct (getReply_waits defaults fn strerror c h closed fs u out fs1 u1 w facs (a :: more) Hc Hblk Ep Hfl Hs)
    as (c1 & h1 & w1 & -> & Hc1 & Hs1 & Efd & Efl).
  assert (Hblk1 : blocking c1) by (unfold blocking; by rewrite Efl).
  destruct (read_fails defaults fn strerror Hstr a more type text (script_reads w1) c1 h1 closed fs1 u1 [] w1
              Hc1 Hblk1 Hs1 Hf) as (c' & h' & w' & -> & (E1 & E2 & E3 & E4) & Hw').
  exists c', h', w'. split; [done|]. split; [|done]. split; [done|]. split; [done|]. by rewrite E3, E4.
Qed.

(** The server answers a byte that is no type, after a complete write. *)
Lemma reply_failures_witness :
  exists c' h' w',
    redisGetReply defaultFunctions (fun _ => bytes "error") demo_conn empty_heap
      (World [Answer 3 0 0 (bytes "?3"); Answer 0 0 0 []] [] 0 0) = Ok (REDIS_ERR, Null, c', h', w') /\
    fails_with demo_conn c' REDIS_ERR_PROTOCOL (type_error x3f) /\ w_script w' = [Answer 0 0 0 []].
Proof.
  apply (reply_failures defaultFunctions (Some defaultFunctions) (fun _ => bytes "error") demo_conn empty_heap
           [] [] [] [] [] [] (World [Answer 3 0 0 (bytes "?3"); Answer 0 0 0 []] [] 0 0) []
           (Answer 3 0 0 (bytes "?3")) [Answer 0 0 0 []]).
  - intros e. split; [apply (bool_decide_unpack _); by vm_compute|vm_compute; congruence].
  - apply demo_conn_holds.
  - reflexivity.
  - reflexivity.
  - reflexivity.
  - reflexivity.
  - apply (failure_protocol _ _ _ _ (bytes "?3")).
    + split; [discriminate|]. split; [reflexivity|]. vm_compute. split; congruence.
    + vm_compute. discriminate.
    + reflexivity.
    + apply (bool_decide_unpack _). by vm_compute.
    + vm_compute. discriminate.
Defined.

(** A connection that is not blocking never waits: [redisGetReply] makes no
    call of the system and hands out a reply exactly when the bytes received so
    far complete one; a read that would block changes nothing but [errno]. *)
Theorem nonblocking_never_waits {H} (defaults : redisReplyObjectFunctions H)
    (fn : option (redisReplyObjectFunctions H)) `{!ReplyBuilder fn} strerror c (h : H) closed fs u out w a more :
  ctx_holds fn c h closed fs u out -> has_flag (c_flags c) REDIS_BLOCK = false ->
  w_script w = a :: more -> a_ret a = -1 -> translated (i32 (a_err a)) = EAGAIN ->
  (exists w', redisBufferRead defaults strerror c w = Ok (REDIS_OK, c, w') /\ w_script w' = more) /\
  match parse fs u with
  | Waiting fs' u' => exists c' h', redisGetReply defaults strerror c h w = Ok (REDIS_OK, Null, c', h', w) /\
      ctx_holds fn c' h' closed fs' u' out
  | Finished x rest => exists p c' h', redisGetReply defaults strerror c h w = Ok (REDIS_OK, p, c', h', w) /\
      p <> Null /\ ctx_holds fn c' h' ((p, x) :: closed) [] rest out
  | _ => True
  end.
Proof.
  intros Hc Hblk Hs Hr He. split.
  - unfold redisBufferRead, recv, sys. rewrite Hs. cbn [mbind result_bind]. rewrite Hr.
    change (-1 =? -1) with true. cbn match. cbn [mbind result_bind]. change (-1 =? -1) with true. cbn match.
    unfold again. rewrite Hblk. set (w1 := socket_errno _).
    assert (Hw1 : w_errno w1 = EAGAIN /\ w_script w1 = more).
    { rewrite <- He. unfold w1, socket_errno, translated. cbn [w_errno w_last set_errno]. by destruct (_ || _). }
    destruct Hw1 as [-> Hw1]. rewrite Z.eqb_refl. cbn [negb andb]. eauto.
  - pose proof (fromReader_spec defaults fn strerror c h closed fs u out w Hc) as Hg. unfold redisGetReply.
    destruct (parse fs u) as [fs' u'| | |x rest]; [|done|done|].
    + destruct Hg as (r & h' & -> & Hc'). cbn [mbind result_bind]. change (REDIS_OK =? REDIS_ERR) with false.
      cbn match. cbn [c_flags set_reader]. rewrite Hblk, andb_false_r. eauto.
    + destruct Hg as (r & h' & p & -> & Hne & Hc'). cbn [mbind result_bind]. change (REDIS_OK =? REDIS_ERR) with false.
      cbn match. cbn [c_flags set_reader]. rewrite Hblk, andb_false_r. eauto 8.
Qed.

Definition demo_quiet : redisContext reply_heap := set_flags 0 demo_conn.

Lemma demo_quiet_holds : ctx_holds (Some defaultFunctions) demo_quiet empty_heap [] [] [] [].
Proof. apply (ctx_holds_eq _ demo_conn); [done|done|done|apply demo_conn_holds]. Qed.

Lemma nonblocking_never_waits_witness :
  let w := World [Answer (-1) WSAEWOULDBLOCK 0 []] [] 0 0 in
  (exists w', redisBufferRead defaultFunctions (fun _ => []) demo_quiet w = Ok (REDIS_OK, demo_quiet, w') /\
     w_script w' = []) /\
  exists c' h', redisGetReply defaultFunctions (fun _ => []) demo_quiet empty_heap w
      = Ok (REDIS_OK, Null, c', h', w) /\
    ctx_holds (Some defaultFunctions) c' h' [] [] [] [].
Proof.
  apply (nonblocking_never_waits defaultFunctions (Some defaultFunctions) (fun _ => []) demo_quiet empty_heap
           [] [] [] [] (World [Answer (-1) WSAEWOULDBLOCK 0 []] [] 0 0) (Answer (-1) WSAEWOULDBLOCK 0 []) []).
  - apply demo_quiet_holds.
  - reflexivity.
  - reflexivity.
  - reflexivity.
  - reflexivity.
Defined.
