(* ===== verification/Callbacks.v ===== *)
(** * The lists of callbacks ([win32/hiredis/async.c], lines 172-207)

    A singly linked list with a pointer to its last node; the nodes of all the
    lists of a connection live on one heap. *)

From S2P Require Import Prelude Reply Reader.

(** A function of the client is known by a number; [None] is NULL. *)
Record redisCallback := RedisCallback { cb_fn : option nat; cb_privdata : voidptr }.

#[global] Instance redisCallback_eq_dec : EqDecision redisCallback.
Proof. solve_decision. Defined.

(** A node: its [next] and its contents; [None] where [malloc] left it
    uninitialised. *)
Record cb_node := CbNode { nd_next : option (option nat); nd_cb : option redisCallback }.

Record cb_heap := CbHeap { ch_nodes : gmap nat cb_node; ch_fresh : nat }.

Definition empty_callbacks : cb_heap := CbHeap ∅ 0.

Record redisCallbackList := CallbackList { cl_head : option nat; cl_tail : option nat }.

Definition empty_list : redisCallbackList := CallbackList None None.

Definition load_node (g : cb_heap) (i : nat) : result cb_node := of_option Undefined (ch_nodes g !! i).

Definition __redisPushCallback (cbl : redisCallbackList) (source : option redisCallback) (g : cb_heap)
    : result (Z * redisCallbackList * cb_heap) :=
  let cb := ch_fresh g in
  let node := match source with
              | Some s => CbNode (Some None) (Some s)
              | None => CbNode None None
              end in
  let nodes := <[cb := node]> (ch_nodes g) in
  let head := match cl_head cbl with None => Some cb | h => h end in
  nodes ← (match cl_tail cbl with
           | Some t => n ← of_option Undefined (nodes !! t); Ok (<[t := CbNode (Some (Some cb)) (nd_cb n)]> nodes)
           | None => Ok nodes
           end);
  Ok (REDIS_OK, CallbackList head (Some cb), CbHeap nodes (S cb)).

(** Status, what [*target] gets ([None]: nothing is written), the list, the heap. *)
Definition __redisShiftCallback (cbl : redisCallbackList) (g : cb_heap)
    : result (Z * option redisCallback * redisCallbackList * cb_heap) :=
  match cl_head cbl with
  | Some cb =>
      n ← load_node g cb;
      next ← of_option Undefined (nd_next n);
      let tail := if bool_decide (cl_tail cbl = Some cb) then None else cl_tail cbl in
      Ok (REDIS_OK, nd_cb n, CallbackList next tail, CbHeap (delete cb (ch_nodes g)) (ch_fresh g))
  | None => Ok (REDIS_ERR, None, cbl, g)
  end.

(** ** A list is a queue *)

(** The nodes [ids], linked from [p] on, hold the callbacks [cbs]. *)
Fixpoint linked (nodes : gmap nat cb_node) (p : option nat) (ids : list nat) (cbs : list redisCallback) : Prop :=
  match ids, cbs with
  | [], [] => p = None
  | i :: ids, cb :: cbs =>
      p = Some i /\ exists next, nodes !! i = Some (CbNode (Some next) (Some cb)) /\ linked nodes next ids cbs
  | _, _ => False
  end.

Record queue_holds (nodes : gmap nat cb_node) (cbl : redisCallbackList) (ids : list nat)
    (cbs : list redisCallback) : Prop := {
  qh_linked : linked nodes (cl_head cbl) ids cbs;
  qh_tail : cl_tail cbl = last ids;
  qh_nodup : NoDup ids
}.

Lemma linked_frame nodes nodes' ids : forall p cbs,
  (forall i, i ∈ ids -> nodes' !! i = nodes !! i) -> linked nodes p ids cbs -> linked nodes' p ids cbs.
Proof.
  induction ids as [|i ids IH]; intros p [|cb cbs] Hag Hl; try done.
  destruct Hl as (-> & next & Hi & Hl). split; [done|]. exists next.
  rewrite Hag by (by left). split; [done|]. apply IH; [|done]. intros j Hj. apply Hag. by right.
Qed.

Lemma queue_frame nodes nodes' cbl ids cbs :
  (forall i, i ∈ ids -> nodes' !! i = nodes !! i) -> queue_holds nodes cbl ids cbs -> queue_holds nodes' cbl ids cbs.
Proof. intros Hag [H1 H2 H3]. split; [by eapply linked_frame|done|done]. Qed.

Lemma linked_length nodes ids : forall p cbs, linked nodes p ids cbs -> length ids = length cbs.
Proof.
  induction ids as [|i ids IH]; intros p [|cb cbs] Hl; try done. destruct Hl as (_ & next & _ & Hl).
  cbn. f_equal. by eapply IH.
Qed.

Lemma linked_in nodes ids i : forall p cbs, linked nodes p ids cbs -> i ∈ ids -> is_Some (nodes !! i).
Proof.
  induction ids as [|j ids IH]; intros p [|cb cbs] Hl Hi; try done; [by apply not_elem_of_nil in Hi|].
  destruct Hl as (_ & next & Hj & Hl). apply elem_of_cons in Hi as [->|Hi]; [by eexists|]. by eapply IH.
Qed.

Lemma linked_snoc nodes k cb : forall ids cbs p t,
  linked nodes p (ids ++ [t]) cbs -> NoDup (ids ++ [t]) -> k ∉ ids ++ [t] ->
  exists last_cb, nodes !! t = Some (CbNode (Some None) (Some last_cb)) /\
  linked (<[t := CbNode (Some (Some k)) (Some last_cb)]> (<[k := CbNode (Some None) (Some cb)]> nodes)) p
    ((ids ++ [t]) ++ [k]) (cbs ++ [cb]).
Proof.
  induction ids as [|i ids IH]; intros cbs p t Hl Hnd Hk; cbn [app] in *.
  - destruct cbs as [|c0 [|? ?]]; try done; [|by destruct Hl as (_ & ? & _ & ?)].
    destruct Hl as (-> & next & Ht & ->). exists c0. split; [done|]. split; [done|].
    exists (Some k). rewrite lookup_insert_eq. split; [done|]. split; [done|]. exists None.
    rewrite lookup_insert_ne by (intros ->; apply Hk; by left). by rewrite lookup_insert_eq.
  - destruct cbs as [|c0 cbs]; [done|]. destruct Hl as (-> & next & Hi & Hl).
    apply NoDup_cons in Hnd as [Hin Hnd]. apply not_elem_of_cons in Hk as [Hki Hk].
    destruct (IH cbs next t Hl Hnd Hk) as (last_cb & Ht & Hl'). exists last_cb. split; [done|].
    split; [done|]. exists next. split; [|done].
    assert (i <> t) by (intros ->; apply Hin, elem_of_app; right; by left).
    by rewrite !lookup_insert_ne by done.
Qed.

(** Pushing adds at the end and touches no node of another list. *)
Lemma push_spec cbl cb g ids cbs :
  queue_holds (ch_nodes g) cbl ids cbs -> ch_nodes g !! ch_fresh g = None ->
  exists cbl' g', __redisPushCallback cbl (Some cb) g = Ok (REDIS_OK, cbl', g') /\
    queue_holds (ch_nodes g') cbl' (ids ++ [ch_fresh g]) (cbs ++ [cb]) /\ ch_fresh g' = S (ch_fresh g) /\
    (forall i, i ∉ ids -> i <> ch_fresh g -> ch_nodes g' !! i = ch_nodes g !! i) /\
    dom (ch_nodes g') = {[ ch_fresh g ]} ∪ dom (ch_nodes g).
Proof.
  intros [Hl Ht Hnd] Hfresh. set (k := ch_fresh g).
  assert (Hk : k ∉ ids).
  { intros Hin. destruct (linked_in _ _ _ _ _ Hl Hin) as [n Hn]. unfold k in Hn. congruence. }
  unfold __redisPushCallback. fold k. rewrite Ht.
  destruct ids as [|t ids _] using rev_ind.
  - destruct cbs as [|c cbs]; [|done]. cbn in Hl. rewrite Hl. cbn [last mbind result_bind].
    eexists _, _. split; [done|]. split; [|split; [done|]].
    + split; cbn; [|done|constructor; [apply not_elem_of_nil|constructor]].
      split; [done|]. exists None. by rewrite lookup_insert_eq.
    + split; [|cbn; by rewrite dom_insert_L]. intros i _ Hi. cbn. by rewrite lookup_insert_ne.
  - rewrite last_snoc. destruct (linked_snoc _ k cb ids cbs _ t Hl Hnd Hk) as (c0 & Htn & Hl').
    assert (Hkt : k <> t) by (intros ->; apply Hk, elem_of_app; right; by left).
    cbn [ch_nodes]. rewrite lookup_insert_ne, Htn by done. cbn [of_option mbind result_bind nd_cb].
    eexists _, _. split; [done|]. split; [|split; [done|split]].
    + split; cbn [cl_head cl_tail ch_nodes].
      * destruct (cl_head cbl) as [h|]; [exact Hl'|]. destruct ids, cbs; cbn in Hl; try done; by destruct Hl.
      * by rewrite last_snoc.
      * apply NoDup_app. split; [done|]. split; [|constructor; [apply not_elem_of_nil|constructor]].
        intros i Hi ->%list_elem_of_singleton. done.
    + intros i Hi Hik. cbn. rewrite lookup_insert_ne by (intros ->; apply Hi, elem_of_app; right; by left).
      by rewrite lookup_insert_ne.
    + cbn. rewrite !dom_insert_L. apply elem_of_dom_2 in Htn. apply set_eq. intros j.
      rewrite !elem_of_union, !elem_of_singleton. split; [intros [->|Hj]; [by right|done]|by right].
Qed.

(** Shifting takes the first and frees its node. *)
Lemma shift_spec cbl g ids cbs :
  queue_holds (ch_nodes g) cbl ids cbs ->
  match ids, cbs with
  | i :: ids, cb :: cbs =>
      exists cbl', __redisShiftCallback cbl g
          = Ok (REDIS_OK, Some cb, cbl', CbHeap (delete i (ch_nodes g)) (ch_fresh g)) /\
        queue_holds (delete i (ch_nodes g)) cbl' ids cbs
  | _, _ => __redisShiftCallback cbl g = Ok (REDIS_ERR, None, cbl, g)
  end.
Proof.
  intros [Hl Ht Hnd]. unfold __redisShiftCallback.
  destruct ids as [|i ids]; destruct cbs as [|cb cbs]; try done; [cbn in Hl; by rewrite Hl|].
  destruct Hl as (-> & next & Hi & Hl). unfold load_node. rewrite Hi. cbn [of_option mbind result_bind nd_next nd_cb].
  eexists. split; [done|]. apply NoDup_cons in Hnd as [Hin Hnd].
  assert (Hl' : linked (delete i (ch_nodes g)) next ids cbs).
  { eapply linked_frame; [|done]. intros j Hj. rewrite lookup_delete_ne; [done|]. by intros ->. }
  split; [done| |done]. cbn [cl_tail]. rewrite Ht. destruct ids as [|j ids] using rev_ind.
  - cbn. by rewrite bool_decide_eq_true_2.
  - clear IHids. rewrite app_comm_cons, !last_snoc. rewrite bool_decide_eq_false_2; [done|].
    intros [= ->]. apply Hin, elem_of_app. right. by left.
Qed.
