(* ===== verification/Async.v ===== *)
(** * The asynchronous client ([win32/hiredis/async.c])

    A connection driven by an event library: commands carry callbacks, replies
    call them.  The client's functions are known by number, and what they do is a
    parameter: the calls of the library each of them makes, which may depend on
    everything that happened before.  The hooks of the event library and the
    client's functions are recorded as events. *)

From S2P Require Import Prelude Digits Sds Resp Reply ReplyHeap Reader Format Dict DictRun Socket Net Context.
From S2P Require Import Callbacks.

(** ** Strings of the C library *)

(** [strchr] from the offset [p]: the offset found, or NULL. *)
Fixpoint strchr_loop (fuel : nat) (s : list byte) (p : Z) (c : byte) : result (option Z) :=
  match fuel with
  | O => Err NoFuel
  | S fuel =>
      b ← deref s p;
      if bool_decide (b = c) then Ok (Some p)
      else if bool_decide (b = x00) then Ok None
      else strchr_loop fuel s (p + 1) c
  end.

Definition strchr (s : list byte) (p : Z) (c : byte) : result (option Z) :=
  strchr_loop (S (length s)) s p c.

(** [strncasecmp]: zero when the first [n] characters agree up to case. *)
Fixpoint strncasecmp (n : nat) (s t : list byte) : result Z :=
  match n with
  | O => Ok 0
  | S n =>
      match s, t with
      | a :: s, b :: t =>
          let d := b2z (tolower a) - b2z (tolower b) in
          if negb (d =? 0) then Ok d
          else if bool_decide (a = x00) then Ok 0 else strncasecmp n s t
      | _, _ => Err Undefined
      end
  end.

Definition strcasecmp (s t : list byte) : result Z := strncasecmp (length s + length t) s t.

(** [strtol (s + p, NULL, 10)] with a 32-bit [long]: blanks, a sign, digits; the
    value saturates. *)
Fixpoint strtol_digits (fuel : nat) (s : list byte) (p acc : Z) : result Z :=
  match fuel with
  | O => Err NoFuel
  | S fuel =>
      b ← deref s p;
      if isdigit b then strtol_digits fuel s (p + 1) (10 * acc + (b2z b - 48)) else Ok acc
  end.

Fixpoint strtol_blanks (fuel : nat) (s : list byte) (p : Z) : result Z :=
  match fuel with
  | O => Err NoFuel
  | S fuel => b ← deref s p; if isspace b then strtol_blanks fuel s (p + 1) else Ok p
  end.

Definition strtol (s : list byte) (p : Z) : result Z :=
  p ← strtol_blanks (S (length s)) s p;
  b ← deref s p;
  let neg := bool_decide (b = x2d) in
  let p := if neg || bool_decide (b = x2b) then p + 1 else p in
  v ← strtol_digits (S (length s)) s p 0;
  Ok (Z.max (- 2 ^ 31) (Z.min (2 ^ 31 - 1) (if neg then - v else v))).

(** ** The context *)

Record event_hooks := EventHooks {
  ev_addRead : bool;
  ev_delRead : bool;
  ev_addWrite : bool;
  ev_delWrite : bool;
  ev_cleanup : bool
}.

Abbreviation callbacks := (dict (K := list byte) (V := redisCallback)).
Abbreviation destroyed_callback := (destroyed (K := list byte) (V := redisCallback)).

(** [cb_heap] is the memory of the nodes of both lists. *)
Record redisAsyncContext := AsyncContext {
  ac_c : redisContext reply_heap;
  ac_err : Z;
  ac_errstr : option sdshdr;
  ac_ev : event_hooks;
  ac_onDisconnect : option nat;
  ac_onConnect : option nat;
  ac_replies : redisCallbackList;
  ac_invalid : redisCallbackList;
  ac_channels : callbacks;
  ac_patterns : callbacks;
  ac_cbs : cb_heap
}.

Inductive event :=
| EvAddRead | EvDelRead | EvAddWrite | EvDelWrite | EvCleanup
| EvConnect (fn : nat)
| EvDisconnect (fn : nat) (status : Z)
| EvCallback (fn : nat) (reply : voidptr) (privdata : voidptr) (seen : reply_heap).

(** What is around a context: the replies, the system, the events so far, the
    names of channels allocated, what the tables that were released destroyed. *)
Record env := Env {
  e_heap : reply_heap;
  e_world : world;
  e_events : list event;
  e_names : list (list byte);
  e_destroyed : list destroyed_callback
}.

(** A call of the library by a client's function. *)
Inductive api_call :=
| CallFormat (fn : option nat) (privdata : voidptr) (format : list byte) (ap : list va_word)
| CallArgv (fn : option nat) (privdata : voidptr) (argv : list (list byte)) (argvlen : option (list Z))
| CallDisconnect
| CallFree.

Definition ac_set_c c ac := AsyncContext c (ac_err ac) (ac_errstr ac) (ac_ev ac) (ac_onDisconnect ac)
  (ac_onConnect ac) (ac_replies ac) (ac_invalid ac) (ac_channels ac) (ac_patterns ac) (ac_cbs ac).
Definition ac_set_err err errstr ac := AsyncContext (ac_c ac) err errstr (ac_ev ac) (ac_onDisconnect ac)
  (ac_onConnect ac) (ac_replies ac) (ac_invalid ac) (ac_channels ac) (ac_patterns ac) (ac_cbs ac).
Definition ac_set_ev ev ac := AsyncContext (ac_c ac) (ac_err ac) (ac_errstr ac) ev (ac_onDisconnect ac)
  (ac_onConnect ac) (ac_replies ac) (ac_invalid ac) (ac_channels ac) (ac_patterns ac) (ac_cbs ac).
Definition ac_set_onDisconnect fn ac := AsyncContext (ac_c ac) (ac_err ac) (ac_errstr ac) (ac_ev ac) fn
  (ac_onConnect ac) (ac_replies ac) (ac_invalid ac) (ac_channels ac) (ac_patterns ac) (ac_cbs ac).
Definition ac_set_onConnect fn ac := AsyncContext (ac_c ac) (ac_err ac) (ac_errstr ac) (ac_ev ac)
  (ac_onDisconnect ac) fn (ac_replies ac) (ac_invalid ac) (ac_channels ac) (ac_patterns ac) (ac_cbs ac).
Definition ac_set_replies l g ac := AsyncContext (ac_c ac) (ac_err ac) (ac_errstr ac) (ac_ev ac)
  (ac_onDisconnect ac) (ac_onConnect ac) l (ac_invalid ac) (ac_channels ac) (ac_patterns ac) g.
Definition ac_set_invalid l g ac := AsyncContext (ac_c ac) (ac_err ac) (ac_errstr ac) (ac_ev ac)
  (ac_onDisconnect ac) (ac_onConnect ac) (ac_replies ac) l (ac_channels ac) (ac_patterns ac) g.
Definition ac_set_channels d ac := AsyncContext (ac_c ac) (ac_err ac) (ac_errstr ac) (ac_ev ac)
  (ac_onDisconnect ac) (ac_onConnect ac) (ac_replies ac) (ac_invalid ac) d (ac_patterns ac) (ac_cbs ac).
Definition ac_set_patterns d ac := AsyncContext (ac_c ac) (ac_err ac) (ac_errstr ac) (ac_ev ac)
  (ac_onDisconnect ac) (ac_onConnect ac) (ac_replies ac) (ac_invalid ac) (ac_channels ac) d (ac_cbs ac).
Definition ac_set_flags flags ac := ac_set_c (set_flags flags (ac_c ac)) ac.
Definition ac_flags ac := c_flags (ac_c ac).
Definition ac_has ac f := has_flag (ac_flags ac) f.

Definition e_set_heap h e := Env h (e_world e) (e_events e) (e_names e) (e_destroyed e).
Definition e_set_world w e := Env (e_heap e) w (e_events e) (e_names e) (e_destroyed e).
Definition e_emit ev e := Env (e_heap e) (e_world e) (e_events e ++ [ev]) (e_names e) (e_destroyed e).
Definition e_name n e := Env (e_heap e) (e_world e) (e_events e) (e_names e ++ [n]) (e_destroyed e).
Definition e_destroy l e := Env (e_heap e) (e_world e) (e_events e) (e_names e) (e_destroyed e ++ l).

(** [if (ac->ev.hook) ac->ev.hook(...)] *)
Definition hook (present : bool) (ev : event) (e : env) : env := if present then e_emit ev e else e.

(** ** Creation *)

Definition redisAsyncInitialize (c : redisContext reply_heap) : redisAsyncContext :=
  AsyncContext (set_flags (del_flag (c_flags c) REDIS_CONNECTED) c) 0 None
    (EventHooks false false false false false) None None empty_list empty_list dictCreate dictCreate empty_callbacks.

Definition __redisAsyncCopyError (ac : redisAsyncContext) : redisAsyncContext :=
  ac_set_err (c_err (ac_c ac)) (c_errstr (ac_c ac)) ac.

Section async.
Context (strerror : Z -> list byte) (inet_addr : list byte -> Z).
Context (format_double : conversion -> Z -> Z -> list byte).

(** What the client's function does: the events so far, the last one being its
    call, with the replies it can see. *)
Context (behave : list event -> list api_call).

Definition redisAsyncConnect (ip : list byte) (port : Z) (w : world) : result (redisAsyncContext * world) :=
  '(c, w) ← redisConnectNonBlock defaultFunctions strerror inet_addr ip port w;
  Ok (__redisAsyncCopyError (redisAsyncInitialize c), w).

Definition redisAsyncConnectUnix (path : list byte) (w : world) : result (redisAsyncContext * world) :=
  '(c, w) ← redisConnectUnixNonBlock defaultFunctions strerror path w;
  Ok (__redisAsyncCopyError (redisAsyncInitialize c), w).

Definition redisAsyncSetReplyObjectFunctions (ac : redisAsyncContext)
    (fn : option (redisReplyObjectFunctions reply_heap)) : Z * redisAsyncContext :=
  let '(rc, c) := redisSetReplyObjectFunctions (ac_c ac) fn in (rc, ac_set_c c ac).

Definition redisAsyncSetConnectCallback (fn : option nat) (ac : redisAsyncContext) (e : env)
    : Z * redisAsyncContext * env :=
  match ac_onConnect ac with
  | None =>
      let ac := ac_set_onConnect fn ac in
      (REDIS_OK, ac, hook (ev_addWrite (ac_ev ac)) EvAddWrite e)
  | Some _ => (REDIS_ERR, ac, e)
  end.

Definition redisAsyncSetDisconnectCallback (fn : option nat) (ac : redisAsyncContext) : Z * redisAsyncContext :=
  match ac_onDisconnect ac with
  | None => (REDIS_OK, ac_set_onDisconnect fn ac)
  | Some _ => (REDIS_ERR, ac)
  end.

(** ** Issuing commands *)

(** The argument that starts at or behind [start]: its offset, its length, the
    offset behind it; or NULL. *)
Definition nextArgument (cmd : list byte) (start : Z) : result (option (Z * Z * Z)) :=
  b ← deref cmd start;
  p ← (if negb (bool_decide (b = x24)) then strchr cmd start x24 else Ok (Some start));
  match p with
  | None => Ok None
  | Some p =>
      n ← strtol cmd (p + 1);
      let len := u32 n in
      p ← strchr cmd p x0d;
      match p with
      | None => Err AssertFailed
      | Some p => Ok (Some (p + 2, len, p + 2 + len + 2))
      end
  end.

(** The loop over the channels of a SUBSCRIBE. *)
Fixpoint subscribe_loop (fuel : nat) (cmd : list byte) (p : Z) (pvariant : bool) (cb : redisCallback)
    (ac : redisAsyncContext) (e : env) : result (redisAsyncContext * env) :=
  match fuel with
  | O => Err NoFuel
  | S fuel =>
      a ← nextArgument cmd p;
      match a with
      | None => Ok (ac, e)
      | Some (astr, alen, p) =>
          s ← sdsnewlen (Some (at_ptr cmd astr)) alen;
          let sname := take (Z.to_nat alen) (at_ptr cmd astr) in
          let e := e_name sname e in
          ac ← (if (pvariant : bool)
                then '(_, d) ← dictReplace callbackDict sname cb (ac_patterns ac); Ok (ac_set_patterns d ac)
                else '(_, d) ← dictReplace callbackDict sname cb (ac_channels ac); Ok (ac_set_channels d ac));
          subscribe_loop fuel cmd p pvariant cb ac e
      end
  end.

Definition subscribe_word : list byte := bytes "subscribe" ++ [x0d; x0a; x00].
Definition unsubscribe_word : list byte := bytes "unsubscribe" ++ [x0d; x0a; x00].

Definition __redisAsyncCommand (fn : option nat) (privdata : voidptr) (cmd : cells) (len : Z)
    (ac : redisAsyncContext) (e : env) : result (Z * redisAsyncContext * env) :=
  if has_flag (ac_flags ac) (Z.lor REDIS_DISCONNECTING REDIS_FREEING) then Ok (REDIS_ERR, ac, e)
  else
    let cb := RedisCallback fn privdata in
    let text := cell_bytes cmd in
    a ← nextArgument text 0;
    match a with
    | None => Err AssertFailed
    | Some (cstr, clen, p) =>
        b ← deref text p;
        let hasnext := bool_decide (b = x24) in
        c0 ← deref text cstr;
        let pvariant := bool_decide (tolower c0 = x70) in
        let cstr := if pvariant then cstr + 1 else cstr in
        sub ← (if hasnext then rc ← strncasecmp 11 (at_ptr text cstr) subscribe_word; Ok (rc =? 0) else Ok false);
        unsub ← (if (sub : bool) then Ok false
                 else rc ← strncasecmp 13 (at_ptr text cstr) unsubscribe_word; Ok (rc =? 0));
        if (sub : bool) then
          let ac := ac_set_flags (add_flag (ac_flags ac) REDIS_SUBSCRIBED) ac in
          '(ac, e) ← subscribe_loop (S (length text)) text p pvariant cb ac e;
          c ← __redisAppendCommand (ac_c ac) cmd len;
          Ok (REDIS_OK, ac_set_c c ac, hook (ev_addWrite (ac_ev ac)) EvAddWrite e)
        else if (unsub : bool) && negb (ac_has ac REDIS_SUBSCRIBED) then Ok (REDIS_ERR, ac, e)
        else
          ac ← (if (unsub : bool) then Ok ac
                else if ac_has ac REDIS_SUBSCRIBED then
                  '(_, l, g) ← __redisPushCallback (ac_invalid ac) (Some cb) (ac_cbs ac);
                  Ok (ac_set_invalid l g ac)
                else
                  '(_, l, g) ← __redisPushCallback (ac_replies ac) (Some cb) (ac_cbs ac);
                  Ok (ac_set_replies l g ac));
          c ← __redisAppendCommand (ac_c ac) cmd len;
          Ok (REDIS_OK, ac_set_c c ac, hook (ev_addWrite (ac_ev ac)) EvAddWrite e)
    end.

Definition redisvAsyncCommand (fn : option nat) (privdata : voidptr) (format : list byte) (ap : list va_word)
    (ac : redisAsyncContext) (e : env) : result (Z * redisAsyncContext * env) :=
  '(len, cmd) ← redisvFormatCommand format_double format ap;
  __redisAsyncCommand fn privdata cmd len ac e.

Definition redisAsyncCommand := redisvAsyncCommand.

Definition redisAsyncCommandArgv (fn : option nat) (privdata : voidptr) (argv : list (list byte))
    (argvlen : option (list Z)) (ac : redisAsyncContext) (e : env) : result (Z * redisAsyncContext * env) :=
  '(len, cmd) ← redisFormatCommandArgv argv argvlen;
  __redisAsyncCommand fn privdata cmd len ac e.

(** ** Calling the client *)

(** A library call made while [REDIS_IN_CALLBACK] is set; [redisAsyncFree] and
    [redisAsyncDisconnect] then only set their flag. *)
Definition in_callback_call (call : api_call) (ac : redisAsyncContext) (e : env)
    : result (redisAsyncContext * env) :=
  match call with
  | CallFormat fn privdata format ap => '(_, ac, e) ← redisAsyncCommand fn privdata format ap ac e; Ok (ac, e)
  | CallArgv fn privdata argv argvlen => '(_, ac, e) ← redisAsyncCommandArgv fn privdata argv argvlen ac e; Ok (ac, e)
  | CallDisconnect => Ok (ac_set_flags (add_flag (ac_flags ac) REDIS_DISCONNECTING) ac, e)
  | CallFree => Ok (ac_set_flags (add_flag (ac_flags ac) REDIS_FREEING) ac, e)
  end.

Fixpoint in_callback_calls (calls : list api_call) (ac : redisAsyncContext) (e : env)
    : result (redisAsyncContext * env) :=
  match calls with
  | [] => Ok (ac, e)
  | call :: calls => '(ac, e) ← in_callback_call call ac e; in_callback_calls calls ac e
  end.

Definition __redisRunCallback (cb : redisCallback) (reply : voidptr) (ac : redisAsyncContext) (e : env)
    : result (redisAsyncContext * env) :=
  match cb_fn cb with
  | Some fn =>
      let ac := ac_set_flags (add_flag (ac_flags ac) REDIS_IN_CALLBACK) ac in
      let e := e_emit (EvCallback fn reply (cb_privdata cb) (e_heap e)) e in
      '(ac, e) ← in_callback_calls (behave (e_events e)) ac e;
      Ok (ac_set_flags (del_flag (ac_flags ac) REDIS_IN_CALLBACK) ac, e)
  | None => Ok (ac, e)
  end.

(** ** Freeing *)

(** [while (__redisShiftCallback(...) == REDIS_OK) __redisRunCallback(...)] *)
Fixpoint run_replies (fuel : nat) (ac : redisAsyncContext) (e : env) : result (redisAsyncContext * env) :=
  match fuel with
  | O => Err NoFuel
  | S fuel =>
      '(rc, cb, l, g) ← __redisShiftCallback (ac_replies ac) (ac_cbs ac);
      if rc =? REDIS_OK then
        cb ← of_option Undefined cb;
        '(ac, e) ← __redisRunCallback cb Null (ac_set_replies l g ac) e;
        run_replies fuel ac e
      else Ok (ac, e)
  end.

Fixpoint run_invalid (fuel : nat) (ac : redisAsyncContext) (e : env) : result (redisAsyncContext * env) :=
  match fuel with
  | O => Err NoFuel
  | S fuel =>
      '(rc, cb, l, g) ← __redisShiftCallback (ac_invalid ac) (ac_cbs ac);
      if rc =? REDIS_OK then
        cb ← of_option Undefined cb;
        '(ac, e) ← __redisRunCallback cb Null (ac_set_invalid l g ac) e;
        run_invalid fuel ac e
      else Ok (ac, e)
  end.

(** The loop over the entries of a table ([get] says which) that the context
    keeps. *)
Fixpoint run_table (get : redisAsyncContext -> callbacks) (fuel : nat) (it : dictIterator)
    (ac : redisAsyncContext) (e : env) : result (redisAsyncContext * env) :=
  match fuel with
  | O => Err NoFuel
  | S fuel =>
      '(de, it) ← dictNext it (get ac);
      match de with
      | None => Ok (ac, e)
      | Some i =>
          entry ← load_entry (ht_entries (get ac)) i;
          '(ac, e) ← __redisRunCallback (de_val entry) Null ac e;
          run_table get fuel it ac e
      end
  end.

Definition table_fuel (d : callbacks) : nat := S (size (ht_entries d)).

Definition disconnect_status (ac : redisAsyncContext) : Z :=
  if ac_has ac REDIS_FREEING then REDIS_OK else if ac_err ac =? 0 then REDIS_OK else REDIS_ERR.

(** The context is gone afterwards; what is left of its callbacks is returned. *)
Definition __redisAsyncFree (ac : redisAsyncContext) (e : env) : result (gmap nat cb_node * env) :=
  '(ac, e) ← run_replies (S (size (ch_nodes (ac_cbs ac)))) ac e;
  '(ac, e) ← run_invalid (S (size (ch_nodes (ac_cbs ac)))) ac e;
  '(ac, e) ← run_table ac_channels (table_fuel (ac_channels ac)) dictGetIterator ac e;
  '(left1, t1) ← dictRelease callbackDict (ac_channels ac);
  let e := e_destroy t1 e in
  '(ac, e) ← run_table ac_patterns (table_fuel (ac_patterns ac)) dictGetIterator ac e;
  '(left2, t2) ← dictRelease callbackDict (ac_patterns ac);
  let e := e_destroy t2 e in
  let e := hook (ev_cleanup (ac_ev ac)) EvCleanup e in
  let e := match ac_onDisconnect ac with
           | Some fn => if ac_has ac REDIS_CONNECTED then e_emit (EvDisconnect fn (disconnect_status ac)) e else e
           | None => e
           end in
  '(h, w) ← redisFree (ac_c ac) (e_heap e) (e_world e);
  Ok (ch_nodes (ac_cbs ac), e_set_world w (e_set_heap h e)).

(** A context, or what is left of it. *)
Abbreviation live_or_left := (redisAsyncContext + gmap nat cb_node)%type.

Definition gone (r : result (gmap nat cb_node * env)) : result (live_or_left * env) :=
  '(l, e) ← r; Ok (inr l, e).

Definition redisAsyncFree (ac : redisAsyncContext) (e : env) : result (live_or_left * env) :=
  let ac := ac_set_flags (add_flag (ac_flags ac) REDIS_FREEING) ac in
  if negb (ac_has ac REDIS_IN_CALLBACK) then gone (__redisAsyncFree ac e) else Ok (inl ac, e).

Definition __redisAsyncDisconnect (ac : redisAsyncContext) (e : env) : result (gmap nat cb_node * env) :=
  let ac := __redisAsyncCopyError ac in
  if ac_err ac =? 0 then
    '(rc, _, l, g) ← __redisShiftCallback (ac_replies ac) (ac_cbs ac);
    _ ← c_assert (rc =? REDIS_ERR);
    __redisAsyncFree (ac_set_replies l g ac) e
  else __redisAsyncFree (ac_set_flags (add_flag (ac_flags ac) REDIS_DISCONNECTING) ac) e.

Definition redisAsyncDisconnect (ac : redisAsyncContext) (e : env) : result (live_or_left * env) :=
  let ac := ac_set_flags (add_flag (ac_flags ac) REDIS_DISCONNECTING) ac in
  if negb (ac_has ac REDIS_IN_CALLBACK) && bool_decide (cl_head (ac_replies ac) = None)
  then gone (__redisAsyncDisconnect ac e) else Ok (inl ac, e).

(** ** Replies *)

(** [reply->element[i]] *)
Definition element_of (r : redisReply) (i : Z) (h : reply_heap) : result redisReply :=
  element ← of_option Undefined (rp_element r);
  p ← (if i <? 0 then Err Undefined else of_option Undefined (element !! Z.to_nat i));
  '(_, x) ← load_reply p h;
  Ok x.

(** [*dstcb] is [None] while nothing has been written to it. *)
Definition __redisGetSubscribeCallback (reply : voidptr) (dstcb : option redisCallback)
    (ac : redisAsyncContext) (e : env) : result (option redisCallback * redisAsyncContext * env) :=
  '(_, r) ← load_reply reply (e_heap e);
  if rp_type r =? REDIS_REPLY_ARRAY then
    elements ← of_option Undefined (rp_elements r);
    _ ← c_assert (2 <=? elements);
    e0 ← element_of r 0 (e_heap e);
    _ ← c_assert (rp_type e0 =? REDIS_REPLY_STRING);
    stype ← of_option Undefined (rp_str e0);
    let stype := cell_bytes stype in
    c0 ← deref stype 0;
    let pvariant := bool_decide (tolower c0 = x70) in
    let callbacks := if pvariant then ac_patterns ac else ac_channels ac in
    e1 ← element_of r 1 (e_heap e);
    _ ← c_assert (rp_type e1 =? REDIS_REPLY_STRING);
    str ← of_option Undefined (rp_str e1);
    len ← of_option Undefined (rp_len e1);
    s ← sdsnewlen (Some (cell_bytes str)) (u32 len);
    let sname := take (Z.to_nat (u32 len)) (cell_bytes str) in
    de ← dictFind callbackDict sname callbacks;
    match de with
    | Some i =>
        entry ← load_entry (ht_entries callbacks) i;
        let dstcb := Some (de_val entry) in
        rc ← strcasecmp (at_ptr stype (if pvariant then 1 else 0)) (cstr (bytes "unsubscribe"));
        if rc =? 0 then
          '(_, d) ← dictDelete callbackDict sname callbacks;
          let ac := if pvariant then ac_set_patterns d ac else ac_set_channels d ac in
          e2 ← element_of r 2 (e_heap e);
          _ ← c_assert (rp_type e2 =? REDIS_REPLY_INTEGER);
          n ← of_option Undefined (rp_integer e2);
          let ac := if n =? 0 then ac_set_flags (del_flag (ac_flags ac) REDIS_SUBSCRIBED) ac else ac in
          Ok (dstcb, ac, e)
        else Ok (dstcb, ac, e)
    | None => Ok (dstcb, ac, e)
    end
  else
    '(_, cb, l, g) ← __redisShiftCallback (ac_invalid ac) (ac_cbs ac);
    Ok (match cb with Some cb => Some cb | None => dstcb end, ac_set_invalid l g ac, e).

Definition free_reply (reply : voidptr) (ac : redisAsyncContext) (e : env) : result env :=
  h ← call_freeObject (c_fn (ac_c ac)) reply (e_heap e);
  Ok (e_set_heap h e).

(** The callback a reply belongs to. *)
Definition callback_for (reply : voidptr) (cb : option redisCallback) (ac : redisAsyncContext) (e : env)
    : result (option redisCallback * redisAsyncContext * env) :=
  '(rc, shifted, l, g) ← __redisShiftCallback (ac_replies ac) (ac_cbs ac);
  let ac := ac_set_replies l g ac in
  if rc =? REDIS_OK then Ok (shifted, ac, e)
  else
    _ ← c_assert (ac_has ac REDIS_SUBSCRIBED);
    __redisGetSubscribeCallback reply cb ac e.

(** The loop of [redisProcessCallbacks]; [cb] is its local variable. *)
Fixpoint process_loop (fuel : nat) (cb : option redisCallback) (ac : redisAsyncContext) (e : env)
    : result (live_or_left * env) :=
  match fuel with
  | O => Err NoFuel
  | S fuel =>
      '(status, reply, c, h, w) ← redisGetReply defaultFunctions strerror (ac_c ac) (e_heap e) (e_world e);
      let ac := ac_set_c c ac in
      let e := e_set_world w (e_set_heap h e) in
      if negb (status =? REDIS_OK) then gone (__redisAsyncDisconnect ac e)
      else if bool_decide (reply = Null) then
        if ac_has ac REDIS_DISCONNECTING && (sdslen (c_obuf (ac_c ac)) =? 0)
        then gone (__redisAsyncDisconnect ac e)
        else Ok (inl ac, e)
      else
        '(cb, ac, e) ← callback_for reply cb ac e;
        cbv ← of_option Undefined cb;
        match cb_fn cbv with
        | Some _ =>
            '(ac, e) ← __redisRunCallback cbv reply ac e;
            e ← free_reply reply ac e;
            if ac_has ac REDIS_FREEING then gone (__redisAsyncFree ac e)
            else process_loop fuel cb ac e
        | None =>
            e ← free_reply reply ac e;
            process_loop fuel cb ac e
        end
  end.

(** Every round consumes a byte of the buffer. *)
Definition process_fuel (ac : redisAsyncContext) : nat :=
  match c_reader (ac_c ac) with Some r => Z.to_nat (r_len r) + 2 | None => 2 end.

Definition redisProcessCallbacks (ac : redisAsyncContext) (e : env) : result (live_or_left * env) :=
  process_loop (process_fuel ac) None ac e.

(** ** Events of the socket *)

Definition redisAsyncHandleRead (ac : redisAsyncContext) (e : env) : result (live_or_left * env) :=
  '(rc, c, w) ← redisBufferRead defaultFunctions strerror (ac_c ac) (e_world e);
  let ac := ac_set_c c ac in
  let e := e_set_world w e in
  if rc =? REDIS_ERR then gone (__redisAsyncDisconnect ac e)
  else redisProcessCallbacks ac (hook (ev_addRead (ac_ev ac)) EvAddRead e).

Definition redisAsyncHandleWrite (ac : redisAsyncContext) (e : env) : result (live_or_left * env) :=
  '(rc, done, c, w) ← redisBufferWrite strerror (ac_c ac) (e_world e);
  let ac := ac_set_c c ac in
  let e := e_set_world w e in
  if rc =? REDIS_ERR then gone (__redisAsyncDisconnect ac e)
  else
    let e := if negb done then hook (ev_addWrite (ac_ev ac)) EvAddWrite e
             else hook (ev_delWrite (ac_ev ac)) EvDelWrite e in
    let e := hook (ev_addRead (ac_ev ac)) EvAddRead e in
    if negb (ac_has ac REDIS_CONNECTED) then
      let ac := ac_set_flags (add_flag (ac_flags ac) REDIS_CONNECTED) ac in
      Ok (inl ac, match ac_onConnect ac with Some fn => e_emit (EvConnect fn) e | None => e end)
    else Ok (inl ac, e).
End async.
