(* ===== verification/AsyncCommand.v ===== *)
(** * Issuing asynchronous commands

    How a formatted command is taken apart again to find its name and its
    channels, and what issuing it does to the queues of callbacks. *)

From S2P Require Import Prelude Digits Sds SdsText Resp Reply ReplyHeap Reader ReaderSpec ReaderRun Format.
From S2P Require Import FormatSpec Dict DictSpec DictRun Socket Net Context ContextSpec ContextRun Callbacks.
From S2P Require Import Async.

(** ** Flags *)

Lemma has_flag_bit f k : 0 <= k -> has_flag f (2 ^ k) = Z.testbit f k.
Proof.
  intros Hk. unfold has_flag. destruct (Z.testbit f k) eqn:E.
  - apply negb_true_iff, Z.eqb_neq. intros H0. apply (f_equal (fun z => Z.testbit z k)) in H0.
    rewrite Z.land_spec, E, Z.pow2_bits_true, Z.bits_0 in H0 by done. done.
  - apply negb_false_iff, Z.eqb_eq. apply Z.bits_inj'. intros n Hn. rewrite Z.land_spec, Z.bits_0.
    destruct (decide (n = k)) as [->|Hne]; [by rewrite E|].
    rewrite (Z.pow2_bits_false k n) by lia. apply andb_false_r.
Qed.

(** A flag of the library is one bit. *)
Definition one_flag (f : Z) : Prop := exists k, 0 <= k /\ f = 2 ^ k.

Lemma one_block : one_flag REDIS_BLOCK. Proof. by exists 0. Qed.
Lemma one_connected : one_flag REDIS_CONNECTED. Proof. by exists 1. Qed.
Lemma one_disconnecting : one_flag REDIS_DISCONNECTING. Proof. by exists 2. Qed.
Lemma one_freeing : one_flag REDIS_FREEING. Proof. by exists 3. Qed.
Lemma one_in_callback : one_flag REDIS_IN_CALLBACK. Proof. by exists 4. Qed.
Lemma one_subscribed : one_flag REDIS_SUBSCRIBED. Proof. by exists 5. Qed.
#[export] Hint Resolve one_block one_connected one_disconnecting one_freeing one_in_callback one_subscribed : mms.

Lemma has_add f a b : one_flag a -> one_flag b -> has_flag (add_flag f a) b = has_flag f b || bool_decide (a = b).
Proof.
  intros (i & Hi & ->) (j & Hj & ->). unfold add_flag. rewrite !has_flag_bit, Z.lor_spec by done. f_equal.
  case_bool_decide as E.
  - apply Z.pow_inj_r in E; [|lia..]. subst. by apply Z.pow2_bits_true.
  - apply Z.pow2_bits_false. by intros ->.
Qed.

Lemma has_del f a b : one_flag a -> one_flag b ->
  has_flag (del_flag f a) b = has_flag f b && negb (bool_decide (a = b)).
Proof.
  intros (i & Hi & ->) (j & Hj & ->). unfold del_flag. rewrite !has_flag_bit, Z.land_spec, Z.lnot_spec by done.
  f_equal. f_equal. case_bool_decide as E.
  - apply Z.pow_inj_r in E; [|lia..]. subst. by apply Z.pow2_bits_true.
  - apply Z.pow2_bits_false. by intros ->.
Qed.

Lemma has_either f : has_flag f (Z.lor REDIS_DISCONNECTING REDIS_FREEING) =
  has_flag f REDIS_DISCONNECTING || has_flag f REDIS_FREEING.
Proof.
  unfold has_flag. rewrite Z.land_lor_distr_r.
  destruct (Z.eqb_spec (Z.land f REDIS_DISCONNECTING) 0) as [->|H1];
    destruct (Z.eqb_spec (Z.land f REDIS_FREEING) 0) as [->|H2]; cbn [negb orb]; try done;
    apply negb_true_iff, Z.eqb_neq; intros H0; apply Z.lor_eq_0_iff in H0; tauto.
Qed.

(** ** Words *)

(** [t] starts with the word [w], in any case of letters. *)
Definition starts_with (w t : list byte) : bool := bool_decide (tolower <$> take (length w) t = w).

Lemma strncasecmp_spec w : forall t rest,
  (tolower <$> w) = w -> (x00 ∉ w) -> (x00 ∈ t) ->
  exists rc, strncasecmp (length w) t (w ++ rest) = Ok rc /\ (rc =? 0) = starts_with w t.
Proof.
  induction w as [|b w IH]; intros t rest Hlow Hz Ht; [by exists 0|].
  destruct t as [|a t]; [by apply not_elem_of_nil in Ht|].
  cbn [fmap list_fmap] in Hlow. injection Hlow as Hb Hlow. apply not_elem_of_cons in Hz as [Hb0 Hz].
  cbn [strncasecmp length app]. rewrite Hb.
  assert (Hstart : starts_with (b :: w) (a :: t) = bool_decide (tolower a = b) && starts_with w t).
  { unfold starts_with. cbn [length take fmap list_fmap]. rewrite <- bool_decide_and.
    apply bool_decide_ext. split; [by intros [= -> ->]|by intros [-> ->]]. }
  rewrite Hstart. destruct (Z.eqb_spec (b2z (tolower a) - b2z b) 0) as [E|E]; cbn [negb].
  - assert (tolower a = b) as Hab by (apply b2z_inj; lia). rewrite (bool_decide_eq_true_2 (tolower a = b)) by done.
    cbn [andb]. destruct (decide (a = x00)) as [Ha0|Ha0].
    + exfalso. apply Hb0. rewrite <- Hab, Ha0. reflexivity.
    + rewrite (bool_decide_eq_false_2 (a = x00)) by done. apply IH; [done|done|].
      apply elem_of_cons in Ht as [?|?]; [by subst|done].
  - rewrite (bool_decide_eq_false_2 (tolower a = b)) by (intros Hab; rewrite Hab in E; lia).
    eexists. split; [done|]. cbn. by apply Z.eqb_neq.
Qed.

(** ** Finding the arguments *)

Lemma strchr_loop_spec s c : forall l fuel p t,
  0 <= p -> drop (Z.to_nat p) s = l ++ c :: t -> c ∉ l -> x00 ∉ l -> (length l < fuel)%nat ->
  strchr_loop fuel s p c = Ok (Some (p + zlen l)).
Proof.
  induction l as [|b l IH]; intros [|fuel] p t Hp E Hc H0 Hf; try (cbn in Hf; lia); cbn [strchr_loop app] in *;
    rewrite (deref_drop _ _ _ _ Hp E); cbn [mbind result_bind].
  - rewrite bool_decide_eq_true_2 by done. do 2 f_equal. len_lia.
  - apply not_elem_of_cons in Hc as [Hcb Hc]. apply not_elem_of_cons in H0 as [Hb0 H0].
    rewrite (bool_decide_eq_false_2 (b = c)) by congruence. rewrite (bool_decide_eq_false_2 (b = x00)) by congruence.
    rewrite (IH fuel (p + 1) t); [do 2 f_equal; len_lia|lia| |done|done|cbn in Hf; lia].
    by apply (drop_next s p b).
Qed.

Lemma strchr_none s c : forall l fuel p t,
  0 <= p -> drop (Z.to_nat p) s = l ++ x00 :: t -> c ∉ l -> x00 ∉ l -> c <> x00 -> (length l < fuel)%nat ->
  strchr_loop fuel s p c = Ok None.
Proof.
  induction l as [|b l IH]; intros [|fuel] p t Hp E Hc H0 Hcz Hf; try (cbn in Hf; lia); cbn [strchr_loop app] in *;
    rewrite (deref_drop _ _ _ _ Hp E); cbn [mbind result_bind].
  - rewrite (bool_decide_eq_false_2 (x00 = c)) by congruence. by rewrite bool_decide_eq_true_2.
  - apply not_elem_of_cons in Hc as [Hcb Hc]. apply not_elem_of_cons in H0 as [Hb0 H0].
    rewrite (bool_decide_eq_false_2 (b = c)) by congruence. rewrite (bool_decide_eq_false_2 (b = x00)) by congruence.
    apply (IH fuel (p + 1) t); [lia| |done|done|done|cbn in Hf; lia]. by apply (drop_next s p b).
Qed.

Lemma strtol_digits_spec s b : forall ds fuel p acc t,
  0 <= p -> drop (Z.to_nat p) s = ds ++ b :: t -> Forall (fun d => isdigit d = true) ds -> isdigit b = false ->
  (length ds < fuel)%nat -> strtol_digits fuel s p acc = Ok (digits_value acc ds).
Proof.
  induction ds as [|d ds IH]; intros [|fuel] p acc t Hp E Hd Hb Hf; try (cbn in Hf; lia); cbn [strtol_digits app] in *;
    rewrite (deref_drop _ _ _ _ Hp E); cbn [mbind result_bind].
  - by rewrite Hb.
  - apply Forall_cons in Hd as [Hd Hds]. rewrite Hd. rewrite (IH fuel (p + 1) _ t); [done|lia| |done|done|cbn in Hf; lia].
    by apply (drop_next s p d).
Qed.

Lemma isdigit_class d : isdigit d = true -> isspace d = false /\ d <> x2d /\ d <> x2b.
Proof.
  unfold isdigit, isspace. intros H. bool_lia. split.
  - destruct (Z.eqb_spec (b2z d) 32); [lia|]. cbn [orb].
    destruct (Z.leb_spec 9 (b2z d)), (Z.leb_spec (b2z d) 13); lia || reflexivity.
  - split; intros ->; cbn in *; lia.
Qed.

Lemma strtol_print s v p b t :
  0 <= v < 2 ^ 31 -> 0 <= p -> drop (Z.to_nat p) s = print_u v ++ b :: t -> isdigit b = false ->
  strtol s p = Ok v.
Proof.
  intros Hv Hp E Hb. unfold strtol. pose proof (print_u_isdigit v ltac:(lia)) as Hd.
  pose proof (digits_value_print v ltac:(lia)) as Hval.
  assert (Hlen : (length (print_u v) < S (length s))%nat).
  { apply (f_equal length) in E. rewrite length_drop, length_app in E. cbn [length] in E. lia. }
  destruct (print_u v) as [|d ds] eqn:Epr; [by apply print_u_nonempty in Epr; [|lia]|].
  pose proof Hd as Hd'. apply Forall_cons in Hd' as [Hd1 _]. destruct (isdigit_class d Hd1) as (Hsp & Hm & Hpl).
  cbn [strtol_blanks app] in *. rewrite (deref_drop _ _ _ _ Hp E). cbn [mbind result_bind]. rewrite Hsp.
  cbn [mbind result_bind]. rewrite (deref_drop _ _ _ _ Hp E). cbn [mbind result_bind].
  rewrite (bool_decide_eq_false_2 (d = x2d)), (bool_decide_eq_false_2 (d = x2b)) by done. cbn [orb].
  rewrite (strtol_digits_spec s b (d :: ds) (S (length s)) p 0 t Hp E Hd Hb Hlen).
  rewrite Hval. cbn [mbind result_bind]. f_equal. lia.
Qed.

Lemma drop_app_zlen {A} (s : list A) p l t :
  0 <= p -> drop (Z.to_nat p) s = l ++ t -> drop (Z.to_nat (p + zlen l)) s = t.
Proof.
  intros Hp E. rewrite Z2Nat.inj_add, to_nat_zlen by (try apply zlen_nonneg; done).
  by rewrite <- drop_drop, E, drop_app_length.
Qed.

Lemma print_u_no b v : 0 <= v -> isdigit b = false -> b ∉ print_u v.
Proof. intros Hv Hb Hin. pose proof (print_u_isdigit v Hv) as Hd. rewrite Forall_forall in Hd. apply Hd in Hin. congruence. Qed.

(** Move an equation on [drop p cmd] over its first byte, or its first run. *)
Ltac next_byte E E' :=
  pose proof (fun Hp => drop_next _ _ _ _ Hp E) as E'; specialize (E' ltac:(lia)).
Ltac next_run E E' :=
  pose proof (fun Hp => drop_app_zlen _ _ _ _ Hp E) as E'; specialize (E' ltac:(lia)).

(** The offset of the value of the argument [v], behind [gap] from [p] on. *)
Definition value_at (p : Z) (gap v : list byte) : Z := p + zlen gap + 1 + zlen (print_u (zlen v)) + 2.

Lemma nextArgument_spec cmd p gap v tail :
  0 <= p -> drop (Z.to_nat p) cmd = gap ++ encode_bulk v ++ tail -> x24 ∉ gap -> x00 ∉ gap -> zlen v < 2 ^ 31 ->
  let q := value_at p gap v in
  nextArgument cmd p = Ok (Some (q, zlen v, q + zlen v + 2)) /\
  at_ptr cmd q = v ++ crlf ++ tail /\ drop (Z.to_nat (q + zlen v + 2)) cmd = tail /\ p < q + zlen v + 2.
Proof.
  intros Hp E Hg Hg0 Hv q. pose proof (zlen_nonneg v). pose proof (zlen_nonneg gap).
  pose proof (zlen_nonneg (print_u (zlen v))).
  assert (Elen : (length gap < S (length cmd))%nat).
  { apply (f_equal length) in E. rewrite length_drop, length_app in E. lia. }
  pose proof (drop_app_zlen _ _ _ _ Hp E) as E1. unfold encode_bulk in E1. rewrite <- !app_assoc in E1. cbn [app] in E1.
  next_byte E1 E2.
  next_run E2 E3. unfold crlf at 1 in E3. cbn [app] in E3.
  next_byte E3 E4. next_byte E4 E5.
  next_run E5 E6. unfold crlf at 1 in E6. cbn [app] in E6.
  next_byte E6 E7. next_byte E7 E8.
  assert (Hfirst : (b ← deref cmd p;
    (if negb (bool_decide (b = x24)) then strchr cmd p x24 else Ok (Some p))) = Ok (Some (p + zlen gap))).
  { destruct gap as [|g gap].
    - cbn [app] in E. unfold encode_bulk in E. rewrite <- !app_assoc in E. cbn [app] in E.
      rewrite (deref_drop _ _ _ _ Hp E). cbn [mbind result_bind].
      rewrite bool_decide_eq_true_2 by done. cbn [negb]. by rewrite zlen_nil, Z.add_0_r.
    - cbn [app] in E. rewrite (deref_drop _ _ _ _ Hp E). cbn [mbind result_bind].
      rewrite bool_decide_eq_false_2 by (apply not_elem_of_cons in Hg as [? _]; congruence). cbn [negb].
      unfold strchr. unfold encode_bulk in E. rewrite <- !app_assoc in E.
      exact (strchr_loop_spec cmd x24 (g :: gap) _ p _ Hp E Hg Hg0 Elen). }
  split; [|split; [|split]].
  - unfold nextArgument. unfold mbind, result_bind in Hfirst |- *.
    destruct (deref cmd p) as [b|]; [|done]. rewrite Hfirst. fold (@mbind result result_bind).
    rewrite (strtol_print cmd (zlen v) (p + zlen gap + 1) x0d _ ltac:(lia) ltac:(lia) E2) by done.
    cbn [mbind result_bind]. unfold strchr.
    rewrite (strchr_loop_spec cmd x0d (x24 :: print_u (zlen v)) _ (p + zlen gap) _ ltac:(lia) E1).
    + cbn [mbind result_bind]. rewrite u32_small by lia. do 2 f_equal. unfold q, value_at. rewrite zlen_cons.
      f_equal; [f_equal; lia|lia].
    + apply not_elem_of_cons. split; [done|]. by apply print_u_no.
    + apply not_elem_of_cons. split; [done|]. by apply print_u_no.
    + apply (f_equal length) in E1. rewrite length_drop in E1. cbn [length] in *. rewrite length_app in E1. lia.
  - unfold at_ptr. rewrite <- E5. f_equal. unfold q, value_at. lia.
  - rewrite <- E8. f_equal. unfold q, value_at. lia.
  - unfold q, value_at. lia.
Qed.

Lemma nextArgument_end cmd p : 0 <= p -> drop (Z.to_nat p) cmd = [x00] -> nextArgument cmd p = Ok None.
Proof.
  intros Hp E. unfold nextArgument. rewrite (deref_drop _ _ _ _ Hp E). cbn [mbind result_bind].
  rewrite bool_decide_eq_false_2 by done. cbn [negb]. unfold strchr.
  rewrite (strchr_none cmd x24 [] (S (length cmd)) p []); [done|done|done|apply not_elem_of_nil..|done|cbn; lia].
Qed.

(** What follows the header of a command. *)
Definition command_tail (vs : list (list byte)) : list byte := concat (map encode_bulk vs) ++ [x00].

Lemma first_argument v vs :
  zlen v < 2 ^ 31 ->
  exists q p, nextArgument (command_bytes (v :: vs) ++ [x00]) 0 = Ok (Some (q, zlen v, p)) /\
    0 <= q /\ at_ptr (command_bytes (v :: vs) ++ [x00]) q = v ++ crlf ++ command_tail vs /\
    0 <= p /\ drop (Z.to_nat p) (command_bytes (v :: vs) ++ [x00]) = command_tail vs.
Proof.
  intros Hv. set (cmd := command_bytes (v :: vs) ++ [x00]).
  assert (E : drop (Z.to_nat 0) cmd = ([x2a] ++ print_u (zlen (v :: vs)) ++ crlf) ++ encode_bulk v ++ command_tail vs).
  { unfold cmd, command_tail. rewrite command_bytes_eq. cbn [map concat]. by rewrite <- !app_assoc. }
  pose proof (zlen_nonneg (v :: vs)).
  destruct (nextArgument_spec cmd 0 _ v (command_tail vs) ltac:(lia) E) as (E1 & E2 & E3 & E4); [| |done|].
  - rewrite !elem_of_app. intros [Hin|[Hin|Hin]]; [|by apply print_u_no in Hin|]; revert Hin;
      apply (bool_decide_unpack _); by vm_compute.
  - rewrite !elem_of_app. intros [Hin|[Hin|Hin]]; [|by apply print_u_no in Hin|]; revert Hin;
      apply (bool_decide_unpack _); by vm_compute.
  - eexists _, _. split; [exact E1|]. split; [|split; [exact E2|split; [lia|exact E3]]].
    unfold value_at. pose proof (zlen_nonneg ([x2a] ++ print_u (zlen (v :: vs)) ++ crlf)).
    pose proof (zlen_nonneg (print_u (zlen v))). lia.
Qed.

(** ** The state of a connection *)

Abbreviation subscriptions := (gmap (list byte) redisCallback).

Record amodel := AModel {
  a_pending : list redisCallback;   (** callbacks of commands without a reply *)
  a_strays : list redisCallback;    (** the same, issued while subscribed *)
  a_chan : subscriptions;
  a_pat : subscriptions;
  a_out : list byte                 (** bytes to send *)
}.

(** The replies the library holds during a call, and the parser state. *)
Record reading := Reading {
  rd_closed : list (voidptr * reply);
  rd_frames : list frame;
  rd_in : list byte
}.

(** The nodes of the two queues, and no others. *)
Record queues_hold (ac : redisAsyncContext) (pending strays : list redisCallback) : Prop := {
  qs_queues : exists ids1 ids2,
    queue_holds (ch_nodes (ac_cbs ac)) (ac_replies ac) ids1 pending /\
    queue_holds (ch_nodes (ac_cbs ac)) (ac_invalid ac) ids2 strays /\
    NoDup (ids1 ++ ids2) /\ forall i, is_Some (ch_nodes (ac_cbs ac) !! i) <-> i ∈ ids1 ++ ids2;
  qs_fresh : forall i, (ch_fresh (ac_cbs ac) <= i)%nat -> ch_nodes (ac_cbs ac) !! i = None
}.

Abbreviation sub_holds := (dict_holds (fun k : list byte => k) string_hash).

Record async_ok (ac : redisAsyncContext) (e : env) (R : reading) (A : amodel) : Prop := {
  ao_ctx : ctx_holds (Some defaultFunctions) (ac_c ac) (e_heap e) (rd_closed R) (rd_frames R) (rd_in R) (a_out A);
  ao_queues : queues_hold ac (a_pending A) (a_strays A);
  ao_chan : sub_holds (ac_channels ac) (a_chan A);
  ao_pat : sub_holds (ac_patterns ac) (a_pat A)
}.

(** What calls of the library leave alone. *)
Record ac_frame (ac ac' : redisAsyncContext) : Prop := {
  af_ev : ac_ev ac' = ac_ev ac;
  af_disc : ac_onDisconnect ac' = ac_onDisconnect ac;
  af_conn : ac_onConnect ac' = ac_onConnect ac;
  af_err : ac_err ac' = ac_err ac;
  af_fd : c_fd (ac_c ac') = c_fd (ac_c ac);
  af_cerr : c_err (ac_c ac') = c_err (ac_c ac)
}.

Lemma ac_frame_refl ac : ac_frame ac ac.
Proof. by split. Qed.

Lemma ac_frame_trans ac1 ac2 ac3 : ac_frame ac1 ac2 -> ac_frame ac2 ac3 -> ac_frame ac1 ac3.
Proof. intros [] []. split; congruence. Qed.

(** The environment, apart from events and names. *)
Record env_frame (e e' : env) : Prop := {
  ef_heap : e_heap e' = e_heap e;
  ef_world : e_world e' = e_world e;
  ef_destroyed : e_destroyed e' = e_destroyed e
}.

Lemma env_frame_refl e : env_frame e e.
Proof. by split. Qed.

Lemma env_frame_trans e1 e2 e3 : env_frame e1 e2 -> env_frame e2 e3 -> env_frame e1 e3.
Proof. intros [] []. split; congruence. Qed.

Lemma hook_frame b ev e : env_frame e (hook b ev e).
Proof. by destruct b. Qed.

(** ** Pushing on one of the queues *)

Lemma queue_other nodes nodes' cbl ids1 ids2 cbs k :
  (forall i, i ∉ ids1 -> i <> k -> nodes' !! i = nodes !! i) -> NoDup (ids1 ++ ids2) -> nodes !! k = None ->
  queue_holds nodes cbl ids2 cbs -> queue_holds nodes' cbl ids2 cbs.
Proof.
  intros Hag Hnd Hk Hq. apply (queue_frame nodes); [|done]. intros i Hi. apply Hag.
  - intros Hi1. apply NoDup_app in Hnd as (_ & Hd & _). by apply (Hd i Hi1).
  - intros ->. destruct (linked_in _ _ _ _ _ (qh_linked _ _ _ _ Hq) Hi) as [n Hn]. congruence.
Qed.

Lemma push_ids (nodes nodes' : gmap nat cb_node) ids1 ids2 k :
  (forall i, is_Some (nodes !! i) <-> i ∈ ids1 ++ ids2) -> NoDup (ids1 ++ ids2) -> nodes !! k = None ->
  dom nodes' = {[ k ]} ∪ dom nodes ->
  NoDup ((ids1 ++ [k]) ++ ids2) /\ forall i, is_Some (nodes' !! i) <-> i ∈ (ids1 ++ [k]) ++ ids2.
Proof.
  intros Hall Hnd Hk Hdom. assert (Hkn : k ∉ ids1 ++ ids2).
  { rewrite <- Hall, Hk. by intros [? ?]. }
  assert (Hp : (ids1 ++ [k]) ++ ids2 ≡ₚ k :: ids1 ++ ids2).
  { rewrite <- app_assoc. cbn. by rewrite Permutation_middle. }
  split; [rewrite Hp; by constructor|]. intros i. rewrite Hp, elem_of_cons, <- Hall, <- !elem_of_dom, Hdom.
  by rewrite elem_of_union, elem_of_singleton.
Qed.

Lemma push_replies_spec ac pending strays cb :
  queues_hold ac pending strays ->
  exists l g, __redisPushCallback (ac_replies ac) (Some cb) (ac_cbs ac) = Ok (REDIS_OK, l, g) /\
    queues_hold (ac_set_replies l g ac) (pending ++ [cb]) strays.
Proof.
  intros [(ids1 & ids2 & Hq1 & Hq2 & Hnd & Hall) Hfresh].
  pose proof (Hfresh (ch_fresh (ac_cbs ac)) (le_n _)) as Hk.
  destruct (push_spec _ cb _ _ _ Hq1 Hk) as (l & g & -> & Hq1' & Hf & Hag & Hdom).
  exists l, g. split; [done|]. destruct (push_ids _ _ _ _ _ Hall Hnd Hk Hdom) as [Hnd' Hall'].
  split; cbn.
  - exists (ids1 ++ [ch_fresh (ac_cbs ac)]), ids2. split; [done|]. split; [|done].
    by eapply queue_other.
  - rewrite Hf. intros i Hi. apply not_elem_of_dom. rewrite Hdom, elem_of_union, elem_of_singleton, elem_of_dom.
    rewrite (Hfresh i) by lia. intros [->|[? ?]]; [lia|done].
Qed.

Lemma push_invalid_spec ac pending strays cb :
  queues_hold ac pending strays ->
  exists l g, __redisPushCallback (ac_invalid ac) (Some cb) (ac_cbs ac) = Ok (REDIS_OK, l, g) /\
    queues_hold (ac_set_invalid l g ac) pending (strays ++ [cb]).
Proof.
  intros [(ids1 & ids2 & Hq1 & Hq2 & Hnd & Hall) Hfresh].
  pose proof (Hfresh (ch_fresh (ac_cbs ac)) (le_n _)) as Hk.
  destruct (push_spec _ cb _ _ _ Hq2 Hk) as (l & g & -> & Hq2' & Hf & Hag & Hdom).
  assert (Hnd2 : NoDup (ids2 ++ ids1)) by (by rewrite Permutation_app_comm).
  assert (Hall2 : forall i, is_Some (ch_nodes (ac_cbs ac) !! i) <-> i ∈ ids2 ++ ids1).
  { intros i. rewrite Hall, !elem_of_app. tauto. }
  exists l, g. split; [done|]. destruct (push_ids _ _ _ _ _ Hall2 Hnd2 Hk Hdom) as [Hnd' Hall'].
  split; cbn.
  - exists ids1, (ids2 ++ [ch_fresh (ac_cbs ac)]). split; [by eapply queue_other|]. split; [done|].
    split; [by rewrite Permutation_app_comm|]. intros i. rewrite Hall', !elem_of_app. tauto.
  - rewrite Hf. intros i Hi. apply not_elem_of_dom. rewrite Hdom, elem_of_union, elem_of_singleton, elem_of_dom.
    rewrite (Hfresh i) by lia. intros [->|[? ?]]; [lia|done].
Qed.

Lemma shift_ids (nodes : gmap nat cb_node) i ids1 ids2 :
  (forall j, is_Some (nodes !! j) <-> j ∈ i :: ids1 ++ ids2) -> NoDup (i :: ids1 ++ ids2) ->
  forall j, is_Some (delete i nodes !! j) <-> j ∈ ids1 ++ ids2.
Proof.
  intros Hall Hnd j. apply NoDup_cons in Hnd as [Hi _]. destruct (decide (i = j)) as [<-|Hne].
  - rewrite lookup_delete_eq. split; [by intros [? ?]|done].
  - rewrite lookup_delete_ne, Hall, elem_of_cons by done.
    split; [by intros [->|?]|by right].
Qed.

Lemma shift_replies_spec ac pending strays :
  queues_hold ac pending strays ->
  match pending with
  | cb :: pending => exists l g, __redisShiftCallback (ac_replies ac) (ac_cbs ac) = Ok (REDIS_OK, Some cb, l, g) /\
      queues_hold (ac_set_replies l g ac) pending strays
  | [] => __redisShiftCallback (ac_replies ac) (ac_cbs ac) = Ok (REDIS_ERR, None, ac_replies ac, ac_cbs ac)
  end.
Proof.
  intros [(ids1 & ids2 & Hq1 & Hq2 & Hnd & Hall) Hfresh]. pose proof (shift_spec _ _ _ _ Hq1) as Hs.
  pose proof (linked_length _ _ _ _ (qh_linked _ _ _ _ Hq1)) as Hlen.
  destruct ids1 as [|i ids1], pending as [|cb pending]; try done. destruct Hs as (l & -> & Hq1').
  eexists l, _. split; [done|].
  split; cbn.
  - exists ids1, ids2. split; [done|]. split; [|split; [by apply NoDup_cons in Hnd as [_ ?]|by eapply shift_ids]].
    apply (queue_frame (ch_nodes (ac_cbs ac))); [|done]. intros j Hj. rewrite lookup_delete_ne; [done|].
    intros ->. apply NoDup_cons in Hnd as [Hn _]. apply Hn, elem_of_app. by right.
  - intros j Hj. destruct (decide (i = j)) as [->|]; [apply lookup_delete_eq|]. rewrite lookup_delete_ne by done. by apply Hfresh.
Qed.

Lemma shift_invalid_spec ac pending strays :
  queues_hold ac pending strays ->
  match strays with
  | cb :: strays => exists l g, __redisShiftCallback (ac_invalid ac) (ac_cbs ac) = Ok (REDIS_OK, Some cb, l, g) /\
      queues_hold (ac_set_invalid l g ac) pending strays
  | [] => __redisShiftCallback (ac_invalid ac) (ac_cbs ac) = Ok (REDIS_ERR, None, ac_invalid ac, ac_cbs ac)
  end.
Proof.
  intros [(ids1 & ids2 & Hq1 & Hq2 & Hnd & Hall) Hfresh]. pose proof (shift_spec _ _ _ _ Hq2) as Hs.
  pose proof (linked_length _ _ _ _ (qh_linked _ _ _ _ Hq2)) as Hlen.
  destruct ids2 as [|i ids2], strays as [|cb strays]; try done. destruct Hs as (l & -> & Hq2').
  assert (Hp : ids1 ++ i :: ids2 ≡ₚ i :: ids2 ++ ids1).
  { rewrite <- Permutation_middle. by rewrite (Permutation_app_comm ids1). }
  assert (Hall' : forall j, is_Some (ch_nodes (ac_cbs ac) !! j) <-> j ∈ i :: ids2 ++ ids1).
  { intros j. by rewrite Hall, Hp. }
  rewrite Hp in Hnd. eexists l, _. split; [done|]. split; cbn.
  - exists ids1, ids2. split; [|split; [done|]].
    + apply (queue_frame (ch_nodes (ac_cbs ac))); [|done]. intros j Hj. rewrite lookup_delete_ne; [done|].
      intros ->. apply NoDup_cons in Hnd as [Hn _]. apply Hn, elem_of_app. by right.
    + split; [apply NoDup_cons in Hnd as [_ ?]; by rewrite Permutation_app_comm|].
      intros j. rewrite (shift_ids _ _ _ _ Hall' Hnd), !elem_of_app. tauto.
  - intros j Hj. destruct (decide (i = j)) as [->|]; [apply lookup_delete_eq|]. rewrite lookup_delete_ne by done. by apply Hfresh.
Qed.

Lemma queues_size ac pending strays :
  queues_hold ac pending strays -> (length pending + length strays)%nat = size (ch_nodes (ac_cbs ac)).
Proof.
  intros [(ids1 & ids2 & Hq1 & Hq2 & Hnd & Hall) _].
  rewrite <- (linked_length _ _ _ _ (qh_linked _ _ _ _ Hq1)), <- (linked_length _ _ _ _ (qh_linked _ _ _ _ Hq2)).
  rewrite <- length_app, <- size_dom, <- (size_list_to_set (C := gset nat) (ids1 ++ ids2)) by done.
  f_equal. apply set_eq. intros i. by rewrite elem_of_list_to_set, elem_of_dom, Hall.
Qed.

(** ** Issuing a command *)

(** The first argument and what follows it in memory. *)
Definition first_text (v : list byte) (vs : list (list byte)) : list byte := v ++ crlf ++ command_tail vs.

Definition pvariant_of (t : list byte) : bool :=
  match t with c :: _ => bool_decide (tolower c = x70) | [] => false end.
Definition body_of (t : list byte) : list byte := if pvariant_of t then tail t else t.

Definition is_subscribe (v : list byte) (vs : list (list byte)) : bool :=
  negb (bool_decide (vs = [])) && starts_with (bytes "subscribe" ++ crlf) (body_of (first_text v vs)).
Definition is_unsubscribe (v : list byte) (vs : list (list byte)) : bool :=
  negb (is_subscribe v vs) && starts_with (bytes "unsubscribe" ++ crlf) (body_of (first_text v vs)).

Definition subscribe_all (cb : redisCallback) (vs : list (list byte)) (m : subscriptions) : subscriptions :=
  foldl (fun m v => <[v := cb]> m) m vs.

(** What a command does, [sub] telling whether the connection is subscribed. *)
Definition a_command (sub : bool) (cb : redisCallback) (v : list byte) (vs : list (list byte)) (A : amodel) : amodel :=
  let out := a_out A ++ command_bytes (v :: vs) in
  if is_subscribe v vs then
    if pvariant_of (first_text v vs)
    then AModel (a_pending A) (a_strays A) (a_chan A) (subscribe_all cb vs (a_pat A)) out
    else AModel (a_pending A) (a_strays A) (subscribe_all cb vs (a_chan A)) (a_pat A) out
  else if is_unsubscribe v vs then
    if sub then AModel (a_pending A) (a_strays A) (a_chan A) (a_pat A) out else A
  else if sub then AModel (a_pending A) (a_strays A ++ [cb]) (a_chan A) (a_pat A) out
  else AModel (a_pending A ++ [cb]) (a_strays A) (a_chan A) (a_pat A) out.

Definition table_of (pv : bool) (ac : redisAsyncContext) : Async.callbacks :=
  if pv then ac_patterns ac else ac_channels ac.
Definition set_table (pv : bool) (d : Async.callbacks) (ac : redisAsyncContext) : redisAsyncContext :=
  if pv then ac_set_patterns d ac else ac_set_channels d ac.

Lemma replace_callback (d : Async.callbacks) (m : subscriptions) key cb :
  sub_holds d m -> Z.of_nat (size m) < 2 ^ 27 ->
  exists rc d', dictReplace callbackDict key cb d = Ok (rc, d') /\ sub_holds d' (<[key := cb]> m).
Proof.
  intros Hd Hs. rewrite <- (holds_used (fun k => k) string_hash d m Hd) in Hs.
  destruct (dictReplace_spec callbackDict (fun k => k) string_hash d m key cb Hd Hs) as (d' & Hd' & Hr).
  destruct (m !! key); destruct Hr as [-> _]; by eexists _, d'.
Qed.

Lemma subscribe_loop_spec text pv cb : forall vs fuel p ac e (m : subscriptions),
  0 <= p -> drop (Z.to_nat p) text = command_tail vs -> Forall (fun v => zlen v <= sds_max) vs ->
  sub_holds (table_of pv ac) m -> Z.of_nat (size m) + zlen vs < 2 ^ 27 -> (length vs < fuel)%nat ->
  exists d' e', subscribe_loop fuel text p pv cb ac e = Ok (set_table pv d' ac, e') /\
    sub_holds d' (subscribe_all cb vs m) /\ env_frame e e' /\ e_events e' = e_events e /\
    e_names e' = e_names e ++ vs.
Proof.
  induction vs as [|v vs IH]; intros [|fuel] p ac e m Hp E Hv Hm Hs Hf; try (cbn in Hf; lia); cbn [subscribe_loop].
  - rewrite (nextArgument_end _ _ Hp E). cbn [mbind result_bind]. exists (table_of pv ac), e.
    split; [by destruct pv, ac|]. split; [done|]. split; [apply env_frame_refl|]. split; [done|by rewrite app_nil_r].
  - apply Forall_cons in Hv as [Hv Hvs]. rewrite zlen_cons in Hs. pose proof (zlen_nonneg vs). pose proof (zlen_nonneg v).
    unfold command_tail in E. cbn [map concat] in E. rewrite <- app_assoc in E. fold (command_tail vs) in E.
    destruct (nextArgument_spec text p [] v (command_tail vs) Hp E) as (En & Eat & Edrop & Hlt);
      [apply not_elem_of_nil..|unfold sds_max in Hv; lia|]. rewrite En. cbn [mbind result_bind]. rewrite Eat.
    destruct (sdsnewlen_copy (v ++ crlf ++ command_tail vs) (zlen v)) as (s & -> & _); [lia|len_lia|].
    cbn [mbind result_bind]. rewrite to_nat_zlen, take_app_length.
    destruct (replace_callback _ m v cb Hm) as (rc & d1 & Er & Hd1); [lia|].
    assert (Hstep : (if pv
       then '(_, d) ← dictReplace callbackDict v cb (ac_patterns ac); Ok (ac_set_patterns d ac)
       else '(_, d) ← dictReplace callbackDict v cb (ac_channels ac); Ok (ac_set_channels d ac))
       = Ok (set_table pv d1 ac)).
    { unfold table_of in Er. destruct pv; rewrite Er; done. }
    rewrite Hstep. cbn [mbind result_bind].
    destruct (IH fuel (value_at p [] v + zlen v + 2) (set_table pv d1 ac) (e_name v e) (<[v := cb]> m) ltac:(lia) Edrop Hvs)
      as (d' & e' & -> & Hd' & He & Hev & Hn).
    + by destruct pv.
    + rewrite map_size_insert. destruct (m !! v); cbn; lia.
    + cbn in Hf. lia.
    + exists d', e'. split; [by destruct pv|]. split; [exact Hd'|]. split; [destruct He; by split|].
      split; [done|]. rewrite Hn. cbn. by rewrite <- app_assoc.
Qed.

Lemma body_at text q t : 0 <= q -> t <> [] -> at_ptr text q = t ->
  deref text q = Ok (hd x00 t) /\
  at_ptr text (if bool_decide (tolower (hd x00 t) = x70) then q + 1 else q) = body_of t.
Proof.
  intros Hq Hne E. destruct t as [|c t]; [done|]. split; [by eapply deref_drop|]. unfold body_of, pvariant_of. cbn [hd tail].
  case_bool_decide; [|done]. by apply (drop_next text q c).
Qed.

Lemma body_nul v vs : x00 ∈ body_of (first_text v vs).
Proof.
  assert (Htail : x00 ∈ [x0a] ++ command_tail vs).
  { unfold command_tail. rewrite !elem_of_app. right. right. by left. }
  unfold body_of, first_text. destruct (pvariant_of _); [|rewrite !elem_of_app; right; right; unfold command_tail; rewrite elem_of_app; right; by left].
  destruct v as [|c v]; [exact Htail|]. cbn [tail app]. rewrite !elem_of_app. right. right.
  unfold command_tail. rewrite elem_of_app. right. by left.
Qed.

Lemma command_tests v vs text q :
  0 <= q -> at_ptr text q = first_text v vs ->
  exists c0, deref text q = Ok c0 /\ bool_decide (tolower c0 = x70) = pvariant_of (first_text v vs) /\
  exists rc1 rc2, let p := if bool_decide (tolower c0 = x70) then q + 1 else q in
    strncasecmp 11 (at_ptr text p) subscribe_word = Ok rc1 /\
    (rc1 =? 0) = starts_with (bytes "subscribe" ++ crlf) (body_of (first_text v vs)) /\
    strncasecmp 13 (at_ptr text p) unsubscribe_word = Ok rc2 /\
    (rc2 =? 0) = starts_with (bytes "unsubscribe" ++ crlf) (body_of (first_text v vs)).
Proof.
  intros Hq E. destruct (body_at text q (first_text v vs) Hq) as [Hc Hb]; [by destruct v|done|].
  eexists. split; [exact Hc|]. split; [by destruct v|]. cbv zeta. rewrite Hb. pose proof (body_nul v vs) as Hnul.
  destruct (strncasecmp_spec (bytes "subscribe" ++ crlf) (body_of (first_text v vs)) [x00]) as (rc1 & E1 & H1);
    [reflexivity|apply (bool_decide_unpack _); by vm_compute|done|].
  destruct (strncasecmp_spec (bytes "unsubscribe" ++ crlf) (body_of (first_text v vs)) [x00]) as (rc2 & E2 & H2);
    [reflexivity|apply (bool_decide_unpack _); by vm_compute|done|].
  exists rc1, rc2. done.
Qed.

Definition add_out (cmd : list byte) (A : amodel) : amodel :=
  AModel (a_pending A) (a_strays A) (a_chan A) (a_pat A) (a_out A ++ cmd).

(** The end of every accepted command: the bytes are appended, a write is scheduled. *)
Lemma issue_end ac e R A cmd (rc : Z) :
  async_ok ac e R A -> zlen (a_out A) + zlen cmd <= sds_max ->
  exists ac', (c ← __redisAppendCommand (ac_c ac) (Some <$> (cmd ++ [x00])) (zlen cmd);
      Ok (rc, ac_set_c c ac, hook (ev_addWrite (ac_ev ac)) EvAddWrite e))
      = Ok (rc, ac', hook (ev_addWrite (ac_ev ac)) EvAddWrite e) /\
    async_ok ac' (hook (ev_addWrite (ac_ev ac)) EvAddWrite e) R (add_out cmd A) /\
    ac_frame ac ac' /\ ac_flags ac' = ac_flags ac.
Proof.
  intros [Hc Hq H1 H2] Hm.
  destruct (append_spec (Some defaultFunctions) (ac_c ac) (e_heap e) _ _ _ _ cmd Hc Hm) as (b & -> & Hc').
  cbn [mbind result_bind]. eexists. split; [done|]. split; [|split; [by split|done]].
  split; [|destruct Hq; by split|done|done]. cbn [add_out a_out ac_c ac_set_c].
  by destruct (ev_addWrite (ac_ev ac)).
Qed.

Lemma asyncCommand_closing fn priv cmd len ac e :
  ac_has ac REDIS_DISCONNECTING || ac_has ac REDIS_FREEING = true ->
  __redisAsyncCommand fn priv cmd len ac e = Ok (REDIS_ERR, ac, e).
Proof. intros Hcl. unfold __redisAsyncCommand. rewrite has_either. unfold ac_has in Hcl. by rewrite Hcl. Qed.

Definition fits (v : list byte) (vs : list (list byte)) (A : amodel) : Prop :=
  zlen (a_out A) + zlen (command_bytes (v :: vs)) <= sds_max /\
  Z.of_nat (size (a_chan A)) + zlen vs < 2 ^ 27 /\ Z.of_nat (size (a_pat A)) + zlen vs < 2 ^ 27.

Lemma argument_sizes v vs : zlen (command_bytes (v :: vs)) <= sds_max -> Forall (fun v => zlen v <= sds_max) (v :: vs).
Proof.
  intros Hm. rewrite zlen_command in Hm. pose proof (zlen_nonneg (print_u (zlen (v :: vs)))).
  apply Forall_forall. intros x Hx%bulk_in_command. lia.
Qed.

Lemma async_ok_event ac e b ev R A : async_ok ac e R A -> async_ok ac (hook b ev e) R A.
Proof. intros [H1 H2 H3 H4]. split; try done. by destruct b. Qed.

Lemma async_ok_env ac e e' R A : env_frame e e' -> async_ok ac e R A -> async_ok ac e' R A.
Proof. intros [E _ _] [H1 H2 H3 H4]. split; try done. by rewrite E. Qed.

Lemma async_ok_flags ac e R A flags : async_ok ac e R A -> async_ok (ac_set_flags flags ac) e R A.
Proof.
  intros [H1 [H2 H2'] H3 H4]. split; try done. by eapply ctx_holds_eq; [..|exact H1].
Qed.

(** Issuing [v :: vs] does what [a_command] says. *)
Record issued (ac ac' : redisAsyncContext) (e e' : env) (R : reading) (A' : amodel)
    (flags : Z) : Prop := {
  is_ok : async_ok ac' e' R A';
  is_frame : ac_frame ac ac';
  is_env : env_frame e e';
  is_flags : ac_flags ac' = flags
}.

Lemma bulks_longer vs : (length vs <= length (concat (map encode_bulk vs)))%nat.
Proof. induction vs as [|x vs IH]; [done|]. cbn. rewrite length_app. lia. Qed.

(** A subscription: the table of the names is updated, then the command is issued. *)
Lemma issue_subscribe fn priv v vs ac e R A sub p :
  async_ok ac e R A -> fits v vs A -> is_subscribe v vs = true ->
  let cmd := command_bytes (v :: vs) in
  0 <= p -> drop (Z.to_nat p) (cmd ++ [x00]) = command_tail vs ->
  exists ac' e', ('(ac, e) ← subscribe_loop (S (length (cmd ++ [x00]))) (cmd ++ [x00]) p (pvariant_of (first_text v vs))
                     (RedisCallback fn priv) (ac_set_flags (add_flag (ac_flags ac) REDIS_SUBSCRIBED) ac) e;
      c ← __redisAppendCommand (ac_c ac) (Some <$> (cmd ++ [x00])) (zlen cmd);
      Ok (REDIS_OK, ac_set_c c ac, hook (ev_addWrite (ac_ev ac)) EvAddWrite e)) = Ok (REDIS_OK, ac', e') /\
    issued ac ac' e e' R (a_command sub (RedisCallback fn priv) v vs A) (add_flag (ac_flags ac) REDIS_SUBSCRIBED) /\
    e_events e' = e_events (hook (ev_addWrite (ac_ev ac)) EvAddWrite e).
Proof.
  intros Hok (Hm & Hmc & Hmp) Hs cmd Hp Ep. unfold a_command. rewrite Hs.
  pose proof (zlen_nonneg (a_out A)). pose proof (argument_sizes v vs ltac:(lia)) as Hsz.
  apply Forall_cons in Hsz as [_ Hvs].
  set (ac1 := ac_set_flags _ _). set (pv := pvariant_of (first_text v vs)).
  pose proof (async_ok_flags ac e R A (add_flag (ac_flags ac) REDIS_SUBSCRIBED) Hok) as Hok1. fold ac1 in Hok1.
  destruct (subscribe_loop_spec (cmd ++ [x00]) pv (RedisCallback fn priv) vs (S (length (cmd ++ [x00]))) p ac1 e
              (if pv then a_pat A else a_chan A) Hp Ep Hvs) as (d' & e1 & -> & Hd & He1 & Hev & _).
  { unfold pv. by destruct (pvariant_of _); apply Hok1. }
  { by destruct pv. }
  { apply (f_equal length) in Ep. rewrite length_drop in Ep. unfold command_tail in Ep.
    rewrite (length_app (concat _)) in Ep. pose proof (bulks_longer vs). cbn [length] in Ep. lia. }
  cbn [mbind result_bind].
  assert (Hok2 : async_ok (set_table pv d' ac1) e1 R
    (if pv then AModel (a_pending A) (a_strays A) (a_chan A) (subscribe_all (RedisCallback fn priv) vs (a_pat A)) (a_out A)
     else AModel (a_pending A) (a_strays A) (subscribe_all (RedisCallback fn priv) vs (a_chan A)) (a_pat A) (a_out A))).
  { apply (async_ok_env _ e e1) in Hok1; [|done]. destruct Hok1 as [H1 [H2 H2'] H3 H4]. destruct pv; by split. }
  destruct (issue_end _ _ _ _ cmd REDIS_OK Hok2) as (ac' & Eend & Hok' & Hfr & Hfl); [by destruct pv|].
  exists ac', (hook (ev_addWrite (ac_ev (set_table pv d' ac1))) EvAddWrite e1). split; [exact Eend|]. split; [split|].
  - by destruct pv.
  - destruct Hfr. destruct pv; by split.
  - eapply env_frame_trans; [exact He1|apply hook_frame].
  - rewrite Hfl. by destruct pv.
  - replace (ac_ev (set_table pv d' ac1)) with (ac_ev ac) by (by destruct pv).
    destruct (ev_addWrite (ac_ev ac)); cbn; by rewrite Hev.
Qed.

(** Any other command: its callback is queued, among the strays when the connection is subscribed. *)
Lemma issue_queued fn priv v vs ac e R A sub :
  async_ok ac e R A -> ac_has ac REDIS_SUBSCRIBED = sub -> fits v vs A ->
  is_subscribe v vs = false -> is_unsubscribe v vs = false ->
  let cmd := command_bytes (v :: vs) in
  exists ac' e', (ac ← (if sub then
        '(_, l, g) ← __redisPushCallback (ac_invalid ac) (Some (RedisCallback fn priv)) (ac_cbs ac);
        Ok (ac_set_invalid l g ac)
      else
        '(_, l, g) ← __redisPushCallback (ac_replies ac) (Some (RedisCallback fn priv)) (ac_cbs ac);
        Ok (ac_set_replies l g ac));
      c ← __redisAppendCommand (ac_c ac) (Some <$> (cmd ++ [x00])) (zlen cmd);
      Ok (REDIS_OK, ac_set_c c ac, hook (ev_addWrite (ac_ev ac)) EvAddWrite e)) = Ok (REDIS_OK, ac', e') /\
    issued ac ac' e e' R (a_command sub (RedisCallback fn priv) v vs A) (ac_flags ac) /\
    e_events e' = e_events (hook (ev_addWrite (ac_ev ac)) EvAddWrite e).
Proof.
  intros [H1 H2 H3 H4] Hsub (Hm & _ & _) Hs Hu cmd. unfold a_command. rewrite Hs, Hu. destruct sub.
  - destruct (push_invalid_spec ac _ _ (RedisCallback fn priv) H2) as (l & g & -> & Hq'). cbn [mbind result_bind].
    destruct (issue_end (ac_set_invalid l g ac) e R
      (AModel (a_pending A) (a_strays A ++ [RedisCallback fn priv]) (a_chan A) (a_pat A) (a_out A))
      cmd REDIS_OK) as (ac' & -> & Hok' & Hfr & Hfl); [by split|done|].
    eexists ac', _. split; [done|]. split; [|done]. split; [exact Hok'|destruct Hfr; by split|apply hook_frame|done].
  - destruct (push_replies_spec ac _ _ (RedisCallback fn priv) H2) as (l & g & -> & Hq'). cbn [mbind result_bind].
    destruct (issue_end (ac_set_replies l g ac) e R
      (AModel (a_pending A ++ [RedisCallback fn priv]) (a_strays A) (a_chan A) (a_pat A) (a_out A))
      cmd REDIS_OK) as (ac' & -> & Hok' & Hfr & Hfl); [by split|done|].
    eexists ac', _. split; [done|]. split; [|done]. split; [exact Hok'|destruct Hfr; by split|apply hook_frame|done].
Qed.

Lemma asyncCommand_spec fn priv v vs ac e R A sub :
  async_ok ac e R A -> ac_has ac REDIS_DISCONNECTING = false -> ac_has ac REDIS_FREEING = false ->
  ac_has ac REDIS_SUBSCRIBED = sub -> fits v vs A ->
  let cmd := command_bytes (v :: vs) in
  let rejected := is_unsubscribe v vs && negb sub in
  exists ac' e', __redisAsyncCommand fn priv (Some <$> (cmd ++ [x00])) (zlen cmd) ac e
      = Ok (if rejected then REDIS_ERR else REDIS_OK, ac', e') /\
    issued ac ac' e e' R (a_command sub (RedisCallback fn priv) v vs A)
      (if is_subscribe v vs then add_flag (ac_flags ac) REDIS_SUBSCRIBED else ac_flags ac) /\
    e_events e' = if rejected then e_events e else e_events (hook (ev_addWrite (ac_ev ac)) EvAddWrite e).
Proof.
  intros Hok Hdisc Hfree Hsub Hfits cmd rejected. pose proof Hfits as (Hm & _ & _). unfold __redisAsyncCommand.
  rewrite has_either. unfold ac_has in Hdisc, Hfree. rewrite Hdisc, Hfree. cbn [orb].
  pose proof (zlen_nonneg (a_out A)). pose proof (argument_sizes v vs ltac:(lia)) as Hsz.
  apply Forall_cons in Hsz as [Hv _].
  rewrite <- (app_nil_r (Some <$> _)), cell_bytes_app. cbn [cell_bytes]. rewrite !app_nil_r.
  destruct (first_argument v vs) as (q & p & En & Hq & Eq & Hp & Ep); [unfold sds_max in Hv; lia|].
  fold cmd in En, Eq, Ep. rewrite En.
  cbn [mbind result_bind].
  assert (Hpd : deref (cmd ++ [x00]) p = Ok (if bool_decide (vs = []) then x00 else x24)).
  { apply (deref_drop _ _ _ (tail (command_tail vs)) Hp). rewrite Ep. destruct vs; [done|].
    by rewrite bool_decide_eq_false_2. }
  rewrite Hpd. cbn [mbind result_bind].
  destruct (command_tests v vs (cmd ++ [x00]) q Hq Eq) as (c0 & -> & Hpv & rc1 & rc2 & E1 & Hr1 & E2 & Hr2).
  cbn [mbind result_bind]. cbv zeta in E1, E2. rewrite E1, E2. cbn [mbind result_bind]. rewrite Hr1, Hr2, Hpv.
  assert (Hhas : bool_decide ((if bool_decide (vs = []) then x00 else x24) = x24) = negb (bool_decide (vs = []))).
  { by destruct (bool_decide (vs = [])). }
  rewrite Hhas.
  replace (if negb (bool_decide (vs = [])) then _ else Ok false) with (Ok (is_subscribe v vs))
    by (unfold is_subscribe; by destruct (bool_decide (vs = []))).
  cbn [mbind result_bind].
  replace (if is_subscribe v vs then Ok false else _) with (Ok (is_unsubscribe v vs))
    by (unfold is_unsubscribe; by destruct (is_subscribe v vs)).
  cbn [mbind result_bind]. unfold rejected, ac_has in *. rewrite Hsub. destruct (is_subscribe v vs) eqn:Hs.
  { assert (is_unsubscribe v vs = false) as -> by (unfold is_unsubscribe; by rewrite Hs). by apply issue_subscribe. }
  destruct (is_unsubscribe v vs) eqn:Hu; cbn [andb]; [|by apply issue_queued].
  unfold a_command. rewrite Hs, Hu. destruct sub; cbn [negb].
  - cbn [mbind result_bind]. destruct (issue_end ac e R A cmd REDIS_OK Hok Hm) as (ac' & -> & Hok' & Hfr & Hfl).
    eexists ac', _. split; [done|]. split; [|done]. split; [exact Hok'|done|apply hook_frame|done].
  - exists ac, e. split; [done|]. split; [|done]. split; [done|apply ac_frame_refl|apply env_frame_refl|done].
Qed.
