(* ===== verification/AsyncSpec.v ===== *)
(** * Callbacks, replies and the end of a connection

    The asynchronous client against a model of a connection: the commands
    waiting for a reply, the subscriptions, the bytes to send, the flags, the
    events.  The model says which events a reply or the end of the connection
    causes, whatever the client's functions do. *)

From S2P Require Import Prelude Digits Sds SdsText Resp Reply ReplyHeap Reader ReaderSpec ReaderRun Format.
From S2P Require Import FormatSpec Dict DictSpec DictRun Socket Net Context ContextSpec ContextRun Callbacks.
From S2P Require Import Async AsyncCommand.

(** ** The model of a connection *)

Record conn := Conn {
  k_model : amodel;
  k_sub : bool;
  k_disc : bool;
  k_free : bool;
  k_events : list event
}.

Definition k_closing (k : conn) : bool := k_disc k || k_free k.

(** [busy]: a function of the client is running. *)
Record conn_ok (busy : bool) (ac : redisAsyncContext) (e : env) (R : reading) (k : conn) : Prop := {
  co_ok : async_ok ac e R (k_model k);
  co_block : ac_has ac REDIS_BLOCK = false;
  co_sub : ac_has ac REDIS_SUBSCRIBED = k_sub k;
  co_disc : ac_has ac REDIS_DISCONNECTING = k_disc k;
  co_free : ac_has ac REDIS_FREEING = k_free k;
  co_busy : ac_has ac REDIS_IN_CALLBACK = busy;
  co_events : e_events e = k_events k
}.

(** What stays the same while the client runs. *)
Record conn_frame (ac ac' : redisAsyncContext) (e e' : env) : Prop := {
  cf_frame : ac_frame ac ac';
  cf_connected : ac_has ac' REDIS_CONNECTED = ac_has ac REDIS_CONNECTED;
  cf_env : env_frame e e'
}.

Lemma conn_frame_refl ac e : conn_frame ac ac e e.
Proof. split; [apply ac_frame_refl|done|apply env_frame_refl]. Qed.

Lemma conn_frame_trans ac1 ac2 ac3 e1 e2 e3 :
  conn_frame ac1 ac2 e1 e2 -> conn_frame ac2 ac3 e2 e3 -> conn_frame ac1 ac3 e1 e3.
Proof.
  intros [F1 C1 E1] [F2 C2 E2]. split; [by eapply ac_frame_trans|by rewrite C2|by eapply env_frame_trans].
Qed.

(** [call] issues the command [v :: vs] with the callback [cb]. *)
Inductive issues : api_call -> redisCallback -> list byte -> list (list byte) -> Prop :=
| issues_argv fn priv argv argvlen v vs :
    argument_values argvlen argv (v :: vs) -> issues (CallArgv fn priv argv argvlen) (RedisCallback fn priv) v vs
| issues_format fn priv t v vs :
    template_ok t -> template_values t = v :: vs ->
    issues (CallFormat fn priv (template_format t) (template_args t)) (RedisCallback fn priv) v vs.

Definition k_command (w : bool) (cb : redisCallback) (v : list byte) (vs : list (list byte)) (k : conn) : conn :=
  if k_closing k then k
  else Conn (a_command (k_sub k) cb v vs (k_model k)) (k_sub k || is_subscribe v vs) (k_disc k) (k_free k)
         (k_events k ++ (if is_unsubscribe v vs && negb (k_sub k) then [] else if w then [EvAddWrite] else [])).

(** What a call made by a function of the client does; [w]: there is a hook for writing. *)
Inductive does (w : bool) : api_call -> conn -> conn -> Prop :=
| does_command call cb v vs k : issues call cb v vs -> does w call k (k_command w cb v vs k)
| does_disconnect k : does w CallDisconnect k (Conn (k_model k) (k_sub k) true (k_free k) (k_events k))
| does_free k : does w CallFree k (Conn (k_model k) (k_sub k) (k_disc k) true (k_events k)).

Inductive does_all (w : bool) : list api_call -> conn -> conn -> Prop :=
| does_nil k : does_all w [] k k
| does_cons call calls k k1 k2 : does w call k k1 -> does_all w calls k1 k2 -> does_all w (call :: calls) k k2.

(** The bytes of the commands among some calls. *)
Inductive costs : list api_call -> Z -> Prop :=
| costs_nil : costs [] 0
| costs_command call cb v vs calls n :
    issues call cb v vs -> costs calls n -> costs (call :: calls) (zlen (command_bytes (v :: vs)) + n)
| costs_disconnect calls n : costs calls n -> costs (CallDisconnect :: calls) n
| costs_free calls n : costs calls n -> costs (CallFree :: calls) n.

(** What a connection holds, and how much it may hold. *)
Definition load (A : amodel) : Z := zlen (a_out A) + Z.of_nat (size (a_chan A)) + Z.of_nat (size (a_pat A)).
Definition room : Z := 2 ^ 26.

(** Every call of a client's function issues well-formed commands of at most
    [B] bytes altogether. *)
Definition well_behaved (behave : list event -> list api_call) (B : Z) : Prop :=
  forall evs, exists n, costs (behave evs) n /\ n <= B.

Lemma costs_nonneg calls n : costs calls n -> 0 <= n.
Proof.
  induction 1 as [|call cb v vs calls n Hi Hc IH| |]; [lia| |done|done].
  pose proof (zlen_nonneg (command_bytes (v :: vs))). lia.
Qed.

Lemma zlen_args vs : zlen vs <= zlen (concat (map encode_bulk vs)).
Proof.
  induction vs as [|x vs IH]; [done|]. cbn [map concat]. rewrite zlen_cons, zlen_app, zlen_encode_bulk.
  pose proof (zlen_nonneg x). pose proof (zlen_nonneg (print_u (zlen x))). lia.
Qed.

Lemma subscribe_size cb vs : forall m : subscriptions, (size (subscribe_all cb vs m) <= size m + length vs)%nat.
Proof.
  induction vs as [|x vs IH]; intros m; cbn [subscribe_all foldl length]; [lia|].
  specialize (IH (<[x := cb]> m)). rewrite map_size_insert in IH. unfold subscribe_all in IH.
  destruct (m !! x); cbn in IH; lia.
Qed.

Lemma command_load sub cb v vs A :
  load (a_command sub cb v vs A) <= load A + 2 * zlen (command_bytes (v :: vs)).
Proof.
  pose proof (zlen_command (v :: vs)) as Hc. pose proof (zlen_args (v :: vs)) as Ha. rewrite zlen_cons in Ha.
  pose proof (zlen_nonneg (print_u (zlen (v :: vs)))). pose proof (zlen_nonneg vs).
  pose proof (subscribe_size cb vs (a_chan A)) as H1. pose proof (subscribe_size cb vs (a_pat A)) as H2.
  unfold load, a_command. destruct (is_subscribe v vs), (pvariant_of (first_text v vs)), (is_unsubscribe v vs), sub;
    cbn [a_out a_chan a_pat]; rewrite ?zlen_app; unfold zlen in *; lia.
Qed.

Lemma load_fits v vs A : load A + 2 * zlen (command_bytes (v :: vs)) <= room -> fits v vs A.
Proof.
  intros Hl. pose proof (zlen_command (v :: vs)) as Hc. pose proof (zlen_args (v :: vs)) as Ha.
  rewrite zlen_cons in Ha. pose proof (zlen_nonneg (print_u (zlen (v :: vs)))). pose proof (zlen_nonneg vs).
  pose proof (zlen_nonneg (a_out A)). unfold fits, load, room, sds_max in *.
  repeat split; lia.
Qed.

(** ** Running the client's calls *)

Lemma issues_run sd call cb v vs ac e (P : result (redisAsyncContext * env) -> Prop) :
  issues call cb v vs -> zlen (command_bytes (v :: vs)) <= sds_max ->
  P ('(_, ac, e) ← __redisAsyncCommand (cb_fn cb) (cb_privdata cb) (Some <$> (command_bytes (v :: vs) ++ [x00]))
       (zlen (command_bytes (v :: vs))) ac e; Ok (ac, e)) ->
  P (in_callback_call sd call ac e).
Proof.
  intros Hi Hm HP. destruct Hi as [fn priv argv argvlen v vs Ha|fn priv t v vs Ht Hv]; cbn [in_callback_call cb_fn cb_privdata] in *.
  - unfold redisAsyncCommandArgv. rewrite (redisFormatCommandArgv_spec _ _ _ Ha) by (unfold sds_max in Hm; lia).
    cbn [mbind result_bind]. exact HP.
  - unfold redisAsyncCommand, redisvAsyncCommand, template_format.
    pose proof (redisvFormatCommand_spec sd 0 t [] [] Ht) as Hf. cbn [replicate app] in Hf.
    rewrite app_nil_r, Hv in Hf. rewrite Hf by done. cbn [mbind result_bind]. exact HP.
Qed.

Lemma has_flags_eq ac ac' f : ac_flags ac' = ac_flags ac -> ac_has ac' f = ac_has ac f.
Proof. intros E. unfold ac_has. by rewrite E. Qed.

Lemma has_set_add ac a b : one_flag a -> one_flag b ->
  ac_has (ac_set_flags (add_flag (ac_flags ac) a) ac) b = ac_has ac b || bool_decide (a = b).
Proof. intros Ha Hb. unfold ac_has. cbn. by apply has_add. Qed.

Lemma has_set_del ac a b : one_flag a -> one_flag b ->
  ac_has (ac_set_flags (del_flag (ac_flags ac) a) ac) b = ac_has ac b && negb (bool_decide (a = b)).
Proof. intros Ha Hb. unfold ac_has. cbn. by apply has_del. Qed.

Lemma flags_frame ac e flags :
  has_flag flags REDIS_CONNECTED = ac_has ac REDIS_CONNECTED -> conn_frame ac (ac_set_flags flags ac) e e.
Proof. intros Hf. split; [by split|done|apply env_frame_refl]. Qed.

Lemma issued_conn busy ac ac' e e' R k cb v vs :
  conn_ok busy ac e R k -> k_closing k = false ->
  issued ac ac' e e' R (a_command (k_sub k) cb v vs (k_model k))
    (if is_subscribe v vs then add_flag (ac_flags ac) REDIS_SUBSCRIBED else ac_flags ac) ->
  e_events e' = (if is_unsubscribe v vs && negb (k_sub k) then e_events e
                 else e_events (hook (ev_addWrite (ac_ev ac)) EvAddWrite e)) ->
  conn_ok busy ac' e' R (k_command (ev_addWrite (ac_ev ac)) cb v vs k) /\ conn_frame ac ac' e e'.
Proof.
  intros [H1 H2 H3 H4 H5 H6 H7] Hcl [Iok Ifr Ienv Ifl] Hev. unfold k_command. rewrite Hcl.
  assert (Hother : forall f, one_flag f -> f <> REDIS_SUBSCRIBED -> ac_has ac' f = ac_has ac f).
  { intros f Hf Hne. unfold ac_has. rewrite Ifl. destruct (is_subscribe v vs); [|done].
    rewrite has_add by eauto with mms. rewrite bool_decide_eq_false_2 by congruence. apply orb_false_r. }
  split; [|split; [done|apply Hother; [eauto with mms|done]|done]]. split; cbn [k_model k_sub k_disc k_free k_events].
  - done.
  - by rewrite Hother by (eauto with mms).
  - unfold ac_has in *. rewrite Ifl. destruct (is_subscribe v vs).
    + rewrite has_add by eauto with mms. by rewrite bool_decide_eq_true_2, !orb_true_r.
    + by rewrite H3, orb_false_r.
  - by rewrite Hother by (eauto with mms).
  - by rewrite Hother by (eauto with mms).
  - by rewrite Hother by (eauto with mms).
  - rewrite Hev. destruct (_ && _); [by rewrite app_nil_r|]. destruct (ev_addWrite (ac_ev ac)); cbn; rewrite H7; by rewrite ?app_nil_r.
Qed.

(** What the calls of one function can do to a connection. *)
Record grows (k k' : conn) (n : Z) : Prop := {
  gr_load : load (k_model k') <= load (k_model k) + 2 * n;
  gr_pending : exists l, a_pending (k_model k') = a_pending (k_model k) ++ l;
  gr_strays : exists l, a_strays (k_model k') = a_strays (k_model k) ++ l;
  gr_disc : k_disc k = true -> k_disc k' = true;
  gr_free : k_free k = true -> k_free k' = true;
  gr_closing : k_closing k = true -> k_model k' = k_model k /\ k_events k' = k_events k
}.

Lemma grows_refl k : grows k k 0.
Proof. split; try done; [lia|exists []; by rewrite app_nil_r..]. Qed.

Lemma closing_mono k k' n : grows k k' n -> k_closing k = true -> k_closing k' = true.
Proof.
  intros Hg Hc. unfold k_closing in *. apply orb_true_iff in Hc as [Hc|Hc]; apply orb_true_iff;
    [left; by apply (gr_disc _ _ _ Hg)|right; by apply (gr_free _ _ _ Hg)].
Qed.

Lemma grows_trans k1 k2 k3 n m : grows k1 k2 n -> grows k2 k3 m -> grows k1 k3 (n + m).
Proof.
  intros G1 G2. split.
  - pose proof (gr_load _ _ _ G1). pose proof (gr_load _ _ _ G2). lia.
  - destruct (gr_pending _ _ _ G1) as [l1 E1], (gr_pending _ _ _ G2) as [l2 E2]. exists (l1 ++ l2).
    by rewrite E2, E1, app_assoc.
  - destruct (gr_strays _ _ _ G1) as [l1 E1], (gr_strays _ _ _ G2) as [l2 E2]. exists (l1 ++ l2).
    by rewrite E2, E1, app_assoc.
  - intros H. by apply (gr_disc _ _ _ G2), (gr_disc _ _ _ G1).
  - intros H. by apply (gr_free _ _ _ G2), (gr_free _ _ _ G1).
  - intros H. destruct (gr_closing _ _ _ G1 H) as [E1 E2].
    destruct (gr_closing _ _ _ G2 (closing_mono _ _ _ G1 H)) as [E3 E4]. by rewrite E3, E4.
Qed.

Lemma command_grows w cb v vs k : grows k (k_command w cb v vs k) (zlen (command_bytes (v :: vs))).
Proof.
  pose proof (zlen_nonneg (command_bytes (v :: vs))). unfold k_command. destruct (k_closing k) eqn:Hcl.
  - split; try done; [lia|exists []; by rewrite app_nil_r..].
  - split; cbn [k_model k_disc k_free]; [apply command_load| | |done|done|congruence];
      unfold a_command; destruct (is_subscribe v vs), (pvariant_of (first_text v vs)), (is_unsubscribe v vs), (k_sub k);
      cbn [a_pending a_strays]; first [by exists [cb]|exists []; by rewrite app_nil_r].
Qed.

Lemma set_conn busy ac e R k a (k' : conn) :
  one_flag a -> a <> REDIS_BLOCK -> a <> REDIS_SUBSCRIBED -> a <> REDIS_IN_CALLBACK -> a <> REDIS_CONNECTED ->
  k_model k' = k_model k -> k_sub k' = k_sub k -> k_events k' = k_events k ->
  k_disc k' = k_disc k || bool_decide (a = REDIS_DISCONNECTING) -> k_free k' = k_free k || bool_decide (a = REDIS_FREEING) ->
  conn_ok busy ac e R k ->
  let ac' := ac_set_flags (add_flag (ac_flags ac) a) ac in conn_ok busy ac' e R k' /\ conn_frame ac ac' e e.
Proof.
  intros Ha N1 N2 N3 N4 Em Es Ee Ed Ef [H1 H2 H3 H4 H5 H6 H7] ac'.
  assert (Hother : forall f, one_flag f -> a <> f -> ac_has ac' f = ac_has ac f).
  { intros f Hf Hne. unfold ac'. rewrite has_set_add by done. by rewrite bool_decide_eq_false_2, orb_false_r. }
  split; [|split; [by split|apply Hother; [eauto with mms|done]|apply env_frame_refl]]. split.
  - rewrite Em. by apply async_ok_flags.
  - by rewrite Hother by (eauto with mms).
  - rewrite Hother by (eauto with mms). by rewrite Es.
  - unfold ac'. rewrite has_set_add by (eauto with mms). by rewrite Ed, H4.
  - unfold ac'. rewrite has_set_add by (eauto with mms). by rewrite Ef, H5.
  - by rewrite Hother by (eauto with mms).
  - by rewrite Ee.
Qed.

Lemma calls_spec sd : forall calls n, costs calls n -> forall ac e R k w,
  conn_ok true ac e R k -> w = ev_addWrite (ac_ev ac) -> load (k_model k) + 2 * n <= room ->
  exists k' ac' e', does_all w calls k k' /\ in_callback_calls sd calls ac e = Ok (ac', e') /\
    conn_ok true ac' e' R k' /\ conn_frame ac ac' e e' /\ grows k k' n.
Proof.
  assert (Hseq : forall call calls n m ac e R k w k1 ac1 e1,
    (forall ac e R k w, conn_ok true ac e R k -> w = ev_addWrite (ac_ev ac) -> load (k_model k) + 2 * n <= room ->
       exists k' ac' e', does_all w calls k k' /\ in_callback_calls sd calls ac e = Ok (ac', e') /\
         conn_ok true ac' e' R k' /\ conn_frame ac ac' e e' /\ grows k k' n) ->
    w = ev_addWrite (ac_ev ac) -> does w call k k1 -> in_callback_call sd call ac e = Ok (ac1, e1) ->
    conn_ok true ac1 e1 R k1 -> conn_frame ac ac1 e e1 -> grows k k1 m -> load (k_model k) + 2 * (m + n) <= room ->
    exists k' ac' e', does_all w (call :: calls) k k' /\ in_callback_calls sd (call :: calls) ac e = Ok (ac', e') /\
      conn_ok true ac' e' R k' /\ conn_frame ac ac' e e' /\ grows k k' (m + n)).
  { intros call calls n m ac e R k w k1 ac1 e1 IH -> Hd E1 Hk1 Hf1 Hg1 Hl. cbn [in_callback_calls]. rewrite E1.
    cbn [mbind result_bind]. pose proof (gr_load _ _ _ Hg1).
    destruct (IH ac1 e1 R k1 (ev_addWrite (ac_ev ac)) Hk1) as (k' & ac' & e' & Hda & -> & Hk' & Hf' & Hg').
    - by rewrite (af_ev _ _ (cf_frame _ _ _ _ Hf1)).
    - lia.
    - exists k', ac', e'. split; [by econstructor|]. split; [done|]. split; [done|].
      split; [by eapply conn_frame_trans|by eapply grows_trans]. }
  induction 1 as [|call cb v vs calls n Hi Hc IH|calls n Hc IH|calls n Hc IH]; intros ac e R k w Hk -> Hl.
  - exists k, ac, e. split; [constructor|]. split; [done|]. split; [done|]. split; [apply conn_frame_refl|apply grows_refl].
  - pose proof (costs_nonneg _ _ Hc). pose proof (zlen_nonneg (command_bytes (v :: vs))).
    assert (Hload : 0 <= load (k_model k)) by (unfold load; pose proof (zlen_nonneg (a_out (k_model k))); lia).
    assert (Hfit : fits v vs (k_model k)) by (apply load_fits; lia).
    assert (Hone : exists ac1 e1, in_callback_call sd call ac e = Ok (ac1, e1) /\
      conn_ok true ac1 e1 R (k_command (ev_addWrite (ac_ev ac)) cb v vs k) /\ conn_frame ac ac1 e e1).
    { apply (issues_run sd call cb v vs); [done|unfold room in Hl; unfold sds_max; lia|].
      destruct (k_closing k) eqn:Hcl.
      - rewrite asyncCommand_closing.
        + exists ac, e. split; [done|]. unfold k_command. rewrite Hcl. split; [done|apply conn_frame_refl].
        + by rewrite (co_disc _ _ _ _ _ Hk), (co_free _ _ _ _ _ Hk).
      - pose proof Hcl as Hcl'. unfold k_closing in Hcl'. apply orb_false_iff in Hcl' as [Hd Hf].
        destruct (asyncCommand_spec (cb_fn cb) (cb_privdata cb) v vs ac e R (k_model k) (k_sub k))
          as (ac1 & e1 & -> & Hiss & Hev); [apply Hk|by rewrite (co_disc _ _ _ _ _ Hk)|
          by rewrite (co_free _ _ _ _ _ Hk)|apply Hk|done|].
        cbn [mbind result_bind]. exists ac1, e1. split; [done|]. replace (RedisCallback _ _) with cb in Hiss by (by destruct cb).
        by eapply issued_conn. }
    destruct Hone as (ac1 & e1 & E1 & Hk1 & Hf1).
    eapply (Hseq call calls n); [exact IH|done|by apply does_command|done|done|done|apply command_grows|lia].
  - destruct (set_conn true ac e R k REDIS_DISCONNECTING (Conn (k_model k) (k_sub k) true (k_free k) (k_events k)))
      as [Hk1 Hf1]; try done; [eauto with mms|by rewrite orb_true_r|by rewrite orb_false_r|].
    eapply (Hseq CallDisconnect calls n 0); [exact IH|done|apply does_disconnect|done|done|done| |lia].
    split; cbn; try done; [lia|exists []; by rewrite app_nil_r..].
  - destruct (set_conn true ac e R k REDIS_FREEING (Conn (k_model k) (k_sub k) (k_disc k) true (k_events k)))
      as [Hk1 Hf1]; try done; [eauto with mms|by rewrite orb_false_r|by rewrite orb_true_r|].
    eapply (Hseq CallFree calls n 0); [exact IH|done|apply does_free|done|done|done| |lia].
    split; cbn; try done; [lia|exists []; by rewrite app_nil_r..].
Qed.

(** ** One callback *)

Definition k_emit (ev : event) (k : conn) : conn :=
  Conn (k_model k) (k_sub k) (k_disc k) (k_free k) (k_events k ++ [ev]).

Lemma emit_conn busy ac e R k ev : conn_ok busy ac e R k -> conn_ok busy ac (e_emit ev e) R (k_emit ev k).
Proof. intros [[H1 H2 H3 H4] H5 H6 H7 H8 H9 H10]. split; try done. cbn. by rewrite H10. Qed.

Lemma busy_conn (busy busy' : bool) ac e R k flags :
  flags = (if busy' then add_flag (ac_flags ac) REDIS_IN_CALLBACK else del_flag (ac_flags ac) REDIS_IN_CALLBACK) ->
  conn_ok busy ac e R k ->
  conn_ok busy' (ac_set_flags flags ac) e R k /\ conn_frame ac (ac_set_flags flags ac) e e.
Proof.
  intros -> [H1 H2 H3 H4 H5 H6 H7]. set (flags := if busy' then _ else _).
  assert (Hother : forall f, one_flag f -> REDIS_IN_CALLBACK <> f -> ac_has (ac_set_flags flags ac) f = ac_has ac f).
  { intros f Hf Hne. unfold flags. destruct busy'; [rewrite has_set_add by eauto with mms|rewrite has_set_del by eauto with mms];
      rewrite bool_decide_eq_false_2 by done; [apply orb_false_r|apply andb_true_r]. }
  split; [|split; [by split|by apply Hother; [eauto with mms|]|apply env_frame_refl]].
  split; try (by rewrite Hother by (eauto with mms)); [by apply async_ok_flags| |done].
  unfold flags. destruct busy'; [rewrite has_set_add by eauto with mms|rewrite has_set_del by eauto with mms].
  - rewrite bool_decide_eq_true_2 by done. apply orb_true_r.
  - rewrite bool_decide_eq_true_2 by done. apply andb_false_r.
Qed.

Section behaviour.
Context (sd : conversion -> Z -> Z -> list byte) (strerror : Z -> list byte) (Hstr : texts_ok strerror).
Context (behave : list event -> list api_call) (B : Z) (Hbehave : well_behaved behave B).

Lemma behave_costs evs : exists n, costs (behave evs) n /\ 0 <= n <= B.
Proof. destruct (Hbehave evs) as (n & Hn & Hle). exists n. split; [done|]. split; [by eapply costs_nonneg|done]. Qed.

Lemma B_nonneg : 0 <= B.
Proof. destruct (behave_costs []) as (n & _ & Hn). lia. Qed.

(** What running [cb] with the reply [p] does; [h] is what the client can see. *)
Inductive calls_back (w : bool) (h : reply_heap) (cb : redisCallback) (p : voidptr) : conn -> conn -> Prop :=
| calls_nothing k : cb_fn cb = None -> calls_back w h cb p k k
| calls_function k fn k' : cb_fn cb = Some fn ->
    does_all w (behave (k_events k ++ [EvCallback fn p (cb_privdata cb) h])) (k_emit (EvCallback fn p (cb_privdata cb) h) k) k' ->
    calls_back w h cb p k k'.

Lemma grows_weaken k k' n m : grows k k' n -> n <= m -> grows k k' m.
Proof. intros [] Hle. split; try done. lia. Qed.

Lemma run_callback_spec cb p ac e R k :
  conn_ok false ac e R k -> load (k_model k) + 2 * B <= room ->
  exists k' ac' e', calls_back (ev_addWrite (ac_ev ac)) (e_heap e) cb p k k' /\
    __redisRunCallback sd behave cb p ac e = Ok (ac', e') /\ conn_ok false ac' e' R k' /\
    conn_frame ac ac' e e' /\ load (k_model k') <= load (k_model k) + 2 * B /\
    (exists l, a_pending (k_model k') = a_pending (k_model k) ++ l) /\
    (exists l, a_strays (k_model k') = a_strays (k_model k) ++ l) /\
    (k_disc k = true -> k_disc k' = true) /\ (k_free k = true -> k_free k' = true) /\
    (k_closing k = true -> k_model k' = k_model k /\
       k_events k' = k_events k ++ match cb_fn cb with Some fn => [EvCallback fn p (cb_privdata cb) (e_heap e)] | None => [] end).
Proof.
  intros Hk Hl. unfold __redisRunCallback. pose proof B_nonneg. destruct (cb_fn cb) as [fn|] eqn:Hfn.
  - set (ev := EvCallback fn p (cb_privdata cb) (e_heap e)).
    set (ac1 := ac_set_flags (add_flag (ac_flags ac) REDIS_IN_CALLBACK) ac).
    destruct (busy_conn false true ac e R k _ eq_refl Hk) as [Hk1 Hf1]. fold ac1 in Hk1, Hf1.
    apply (emit_conn _ _ _ _ _ ev) in Hk1.
    destruct (behave_costs (e_events (e_emit ev e))) as (n & Hn & Hle).
    destruct (calls_spec sd _ n Hn ac1 (e_emit ev e) R (k_emit ev k) (ev_addWrite (ac_ev ac)) Hk1 eq_refl)
      as (k' & ac' & e' & Hda & E & Hk' & Hf' & Hg); [cbn; lia|].
    rewrite E. cbn [mbind result_bind].
    destruct (busy_conn true false ac' e' R k' _ eq_refl Hk') as [Hk2 Hf2].
    exists k', (ac_set_flags (del_flag (ac_flags ac') REDIS_IN_CALLBACK) ac'), e'.
    split.
    { eapply calls_function; [done|]. cbn [e_events e_emit] in Hda. by rewrite (co_events _ _ _ _ _ Hk) in Hda. }
    split; [done|]. split; [done|]. split.
    { eapply conn_frame_trans; [|exact Hf2]. eapply conn_frame_trans; [exact Hf1|]. destruct Hf' as [F1 F2 F3].
      split; [done|done|]. destruct F3; by split. }
    split; [pose proof (gr_load _ _ _ Hg) as Hgl; cbn in Hgl; lia|].
    split; [exact (gr_pending _ _ _ Hg)|]. split; [exact (gr_strays _ _ _ Hg)|].
    split; [exact (gr_disc _ _ _ Hg)|]. split; [exact (gr_free _ _ _ Hg)|].
    intros Hcl. destruct (gr_closing _ _ _ Hg Hcl) as [E1 E2]. split; [done|]. by rewrite E2.
  - exists k, ac, e. split; [by constructor|]. split; [done|]. split; [done|]. split; [apply conn_frame_refl|].
    split; [lia|]. split; [exists []; by rewrite app_nil_r|]. split; [exists []; by rewrite app_nil_r|].
    split; [done|]. split; [done|]. intros _. split; [done|by rewrite app_nil_r].
Qed.
End behaviour.
