(* ===== verification/AsyncFree.v ===== *)
(** * The end of an asynchronous connection

    [__redisAsyncFree] calls every callback that still waits, releases the
    tables, the context and the reply under construction. *)

From S2P Require Import Prelude Digits Sds SdsText Resp Reply ReplyHeap Reader ReaderSpec ReaderRun Format.
From S2P Require Import FormatSpec Dict DictSpec DictRun Socket Net Context ContextSpec ContextRun Callbacks.
From S2P Require Import Async AsyncCommand AsyncSpec.

(** The callbacks [cbs], each called without a reply. *)
Definition null_calls (h : reply_heap) (cbs : list redisCallback) : list event :=
  omap (fun cb => (fun fn => EvCallback fn Null (cb_privdata cb) h) <$> cb_fn cb) cbs.

Lemma null_calls_app h l1 l2 : null_calls h (l1 ++ l2) = null_calls h l1 ++ null_calls h l2.
Proof. apply omap_app. Qed.

Definition closing (ac : redisAsyncContext) : bool := ac_has ac REDIS_DISCONNECTING || ac_has ac REDIS_FREEING.

(** From [ac] to [ac'] only flags that end the connection were set; [freed]:
    the client may have asked for the end itself. *)
Record only_ends (freed : Prop) (ac ac' : redisAsyncContext) : Prop := {
  oe_conn : ac_has ac' REDIS_CONNECTED = ac_has ac REDIS_CONNECTED;
  oe_disc : ac_has ac REDIS_DISCONNECTING = true -> ac_has ac' REDIS_DISCONNECTING = true;
  oe_free : ac_has ac REDIS_FREEING = true -> ac_has ac' REDIS_FREEING = true;
  oe_freed : ac_has ac' REDIS_FREEING = true -> ac_has ac REDIS_FREEING = true \/ freed
}.

Section only_ends.
Context (freed : Prop).
Abbreviation only_ends := (only_ends freed).

Lemma only_ends_eq ac ac' : ac_flags ac' = ac_flags ac -> only_ends ac ac'.
Proof. intros E. split; unfold ac_has; rewrite E; auto. Qed.

Lemma only_ends_trans ac1 ac2 ac3 : only_ends ac1 ac2 -> only_ends ac2 ac3 -> only_ends ac1 ac3.
Proof.
  intros [F1 D1 R1 S1] [F2 D2 R2 S2]. split; [by rewrite F2|auto|auto|].
  intros H. apply S2 in H as [H|H]; [by apply S1|by right].
Qed.

Lemma only_ends_closing ac ac' : only_ends ac ac' -> closing ac = true -> closing ac' = true.
Proof. intros [_ D F _] [H|H]%orb_true_iff; apply orb_true_iff; auto. Qed.

Lemma add_ends ac a : a = REDIS_DISCONNECTING \/ a = REDIS_FREEING /\ freed ->
  only_ends ac (ac_set_flags (add_flag (ac_flags ac) a) ac).
Proof.
  intros Ha. assert (one_flag a) by (destruct Ha as [-> | [-> _]]; eauto with mms).
  split; [|intros H1..|]; rewrite has_set_add by eauto with mms; rewrite ?H1; [|done|done|].
  - rewrite bool_decide_eq_false_2; [apply orb_false_r|]. by destruct Ha as [-> | [-> _]].
  - destruct Ha as [-> | [-> ?]]; [|by right]. rewrite bool_decide_eq_false_2, orb_false_r by done. auto.
Qed.
End only_ends.

Section closing.
Context (sd : conversion -> Z -> Z -> list byte).
Context (behave : list event -> list api_call) (B : Z) (Hbehave : well_behaved behave B) (HB : B <= sds_max).

(** A function of the client may free the connection. *)
Definition client_frees : Prop := exists evs, CallFree ∈ behave evs.
Abbreviation only_ends := (only_ends client_frees).

(** While the connection closes, the client's calls only set flags. *)
Lemma calls_closing : forall calls n, costs calls n -> forall ac e, n <= sds_max -> closing ac = true ->
  (CallFree ∈ calls -> client_frees) ->
  exists f, in_callback_calls sd calls ac e = Ok (ac_set_flags f ac, e) /\ only_ends ac (ac_set_flags f ac).
Proof.
  assert (Hflag : forall a call calls ac e, a = REDIS_DISCONNECTING \/ a = REDIS_FREEING /\ client_frees ->
    (forall ac e, in_callback_call sd call ac e = Ok (ac_set_flags (add_flag (ac_flags ac) a) ac, e)) ->
    (forall ac e, closing ac = true ->
       exists f, in_callback_calls sd calls ac e = Ok (ac_set_flags f ac, e) /\ only_ends ac (ac_set_flags f ac)) ->
    closing ac = true ->
    exists f, in_callback_calls sd (call :: calls) ac e = Ok (ac_set_flags f ac, e) /\ only_ends ac (ac_set_flags f ac)).
  { intros a call calls ac e Ha Hc IH Hcl. pose proof (add_ends _ ac a Ha) as Ho.
    destruct (IH _ e (only_ends_closing _ _ _ Ho Hcl)) as (f & Ef & Hf). cbn [in_callback_calls]. rewrite Hc.
    cbn [mbind result_bind]. exists f. split; [exact Ef|]. by eapply only_ends_trans. }
  induction 1 as [|call cb v vs calls n Hi Hc IH|calls n Hc IH|calls n Hc IH]; intros ac e Hn Hcl Hfr.
  - exists (ac_flags ac). split; [by destruct ac as [[] ? ? ? ? ? ? ? ? ? ?]|by apply only_ends_eq].
  - pose proof (costs_nonneg _ _ Hc). pose proof (zlen_nonneg (command_bytes (v :: vs))).
    assert (E : in_callback_call sd call ac e = Ok (ac, e)).
    { apply (issues_run sd call cb v vs); [done|lia|]. by rewrite asyncCommand_closing. }
    cbn [in_callback_calls]. rewrite E. cbn [mbind result_bind]. apply IH; [lia|done|]. intros Hin. apply Hfr. by right.
  - apply (Hflag REDIS_DISCONNECTING); auto. intros ac' e' Hcl'. apply IH; [done|done|]. intros Hin. apply Hfr. by right.
  - assert (client_frees) by (apply Hfr; by left). apply (Hflag REDIS_FREEING); auto.
Qed.

(** A phase of the end: nothing changes but events, flags that end the
    connection and, in between, the queues. *)
Record phase (ac ac' : redisAsyncContext) (e e' : env) (cbs : list redisCallback) : Prop := {
  ph_frame : ac_frame ac ac';
  ph_reader : c_reader (ac_c ac') = c_reader (ac_c ac);
  ph_fn : c_fn (ac_c ac') = c_fn (ac_c ac);
  ph_ends : only_ends ac ac';
  ph_tables : ac_channels ac' = ac_channels ac /\ ac_patterns ac' = ac_patterns ac;
  ph_env : env_frame e e';
  ph_events : e_events e' = e_events e ++ null_calls (e_heap e) cbs
}.

Lemma phase_refl ac e : phase ac ac e e [].
Proof. split; [by split|done|done|by apply only_ends_eq|done|by split|by rewrite app_nil_r]. Qed.

Lemma phase_trans ac1 ac2 ac3 e1 e2 e3 c1 c2 :
  phase ac1 ac2 e1 e2 c1 -> phase ac2 ac3 e2 e3 c2 -> phase ac1 ac3 e1 e3 (c1 ++ c2).
Proof.
  intros [F1 R1 N1 O1 [T1 P1] E1 V1] [F2 R2 N2 O2 [T2 P2] E2 V2]. split.
  - by eapply ac_frame_trans.
  - by rewrite R2.
  - by rewrite N2.
  - by eapply only_ends_trans.
  - by rewrite T2, P2.
  - by eapply env_frame_trans.
  - by rewrite V2, V1, null_calls_app, app_assoc, (ef_heap _ _ E1).
Qed.

Lemma phase_closing ac ac' e e' cbs : phase ac ac' e e' cbs -> closing ac = true -> closing ac' = true.
Proof. intros [_ _ _ Ho _ _ _]. by apply (only_ends_closing client_frees). Qed.

Lemma set_queues_phase l g (which : bool) ac e :
  phase ac (if which then ac_set_replies l g ac else ac_set_invalid l g ac) e e [].
Proof. destruct which; (split; [by split|done|done|by apply only_ends_eq|done|by split|by rewrite app_nil_r]). Qed.

Lemma run_closing cb ac e : closing ac = true ->
  exists f e', __redisRunCallback sd behave cb Null ac e = Ok (ac_set_flags f ac, e') /\
    phase ac (ac_set_flags f ac) e e' [cb].
Proof.
  intros Hcl. unfold __redisRunCallback, null_calls. destruct (cb_fn cb) as [fn|] eqn:Hfn.
  - set (e1 := e_emit _ e). set (ac1 := ac_set_flags _ ac).
    destruct (Hbehave (e_events e1)) as (n & Hn & Hle).
    assert (H1 : forall f, one_flag f -> REDIS_IN_CALLBACK <> f -> ac_has ac1 f = ac_has ac f).
    { intros f Hf Hne. unfold ac1. rewrite has_set_add by eauto with mms.
      rewrite bool_decide_eq_false_2 by done. apply orb_false_r. }
    destruct (calls_closing _ n Hn ac1 e1) as (f & Ef & Ho); [lia| |by eexists|].
    + unfold closing. by rewrite !H1 by (done || eauto with mms).
    + rewrite Ef. cbn [mbind result_bind]. eexists _, e1. split; [done|]. split; [by split|done|done| |done|by split|].
      * assert (H2 : forall g, one_flag g -> REDIS_IN_CALLBACK <> g ->
          ac_has (ac_set_flags (del_flag f REDIS_IN_CALLBACK) ac) g = has_flag f g).
        { intros g Hg Hne. unfold ac_has. cbn. rewrite has_del by eauto with mms.
          rewrite bool_decide_eq_false_2 by done. apply andb_true_r. }
        assert (H3 : forall g, one_flag g -> ac_has (ac_set_flags f ac1) g = has_flag f g) by done.
        destruct Ho as [Ho1 Ho2 Ho3 Ho4]. rewrite !H3 in Ho1, Ho2, Ho3, Ho4 by (eauto with mms).
        rewrite !H1 in Ho1, Ho2, Ho3, Ho4 by (done || eauto with mms).
        split; by rewrite !H2 by (done || eauto with mms).
      * cbn. by rewrite Hfn.
  - exists (ac_flags ac), e. split; [by destruct ac as [[] ? ? ? ? ? ? ? ? ? ?]|].
    split; [by split|done|done|by apply only_ends_eq|done|by split|]. cbn. by rewrite Hfn, app_nil_r.
Qed.

Lemma queues_flags f ac pending strays : queues_hold ac pending strays -> queues_hold (ac_set_flags f ac) pending strays.
Proof. intros [H1 H2]. by split. Qed.

Lemma run_replies_spec strays : forall pending fuel ac e,
  closing ac = true -> queues_hold ac pending strays -> (length pending < fuel)%nat ->
  exists ac' e', run_replies sd behave fuel ac e = Ok (ac', e') /\ phase ac ac' e e' pending /\
    queues_hold ac' [] strays.
Proof.
  induction pending as [|cb pending IH]; intros [|fuel] ac e Hcl Hq Hf; try (cbn in Hf; lia); cbn [run_replies];
    pose proof (shift_replies_spec _ _ _ Hq) as Hs; cbn match in Hs.
  - rewrite Hs. cbn [mbind result_bind]. exists ac, e. split; [done|]. split; [apply phase_refl|done].
  - destruct Hs as (l & g & -> & Hq1). cbn [mbind result_bind]. change (REDIS_OK =? REDIS_OK) with true.
    cbn [of_option mbind result_bind]. pose proof (set_queues_phase l g true ac e) as Hp0. cbn match in Hp0.
    destruct (run_closing cb (ac_set_replies l g ac) e) as (f & e1 & -> & Hp1); [done|]. cbn [mbind result_bind].
    pose proof (phase_trans _ _ _ _ _ _ _ _ Hp0 Hp1) as Hp2.
    destruct (IH fuel (ac_set_flags f (ac_set_replies l g ac)) e1) as (ac' & e' & -> & Hp3 & Hq');
      [by apply (phase_closing _ _ _ _ _ Hp2)|by apply queues_flags|cbn in Hf; lia|].
    exists ac', e'. split; [done|]. split; [|done]. exact (phase_trans _ _ _ _ _ _ _ _ Hp2 Hp3).
Qed.

Lemma run_invalid_spec pending : forall strays fuel ac e,
  closing ac = true -> queues_hold ac pending strays -> (length strays < fuel)%nat ->
  exists ac' e', run_invalid sd behave fuel ac e = Ok (ac', e') /\ phase ac ac' e e' strays /\
    queues_hold ac' pending [].
Proof.
  induction strays as [|cb strays IH]; intros [|fuel] ac e Hcl Hq Hf; try (cbn in Hf; lia); cbn [run_invalid];
    pose proof (shift_invalid_spec _ _ _ Hq) as Hs; cbn match in Hs.
  - rewrite Hs. cbn [mbind result_bind]. exists ac, e. split; [done|]. split; [apply phase_refl|done].
  - destruct Hs as (l & g & -> & Hq1). cbn [mbind result_bind]. change (REDIS_OK =? REDIS_OK) with true.
    cbn [of_option mbind result_bind]. pose proof (set_queues_phase l g false ac e) as Hp0. cbn match in Hp0.
    destruct (run_closing cb (ac_set_invalid l g ac) e) as (f & e1 & -> & Hp1); [done|]. cbn [mbind result_bind].
    pose proof (phase_trans _ _ _ _ _ _ _ _ Hp0 Hp1) as Hp2.
    destruct (IH fuel (ac_set_flags f (ac_set_invalid l g ac)) e1) as (ac' & e' & -> & Hp3 & Hq');
      [by apply (phase_closing _ _ _ _ _ Hp2)|by apply queues_flags|cbn in Hf; lia|].
    exists ac', e'. split; [done|]. split; [|done]. exact (phase_trans _ _ _ _ _ _ _ _ Hp2 Hp3).
Qed.

(** The callbacks of some entries of a table. *)
Definition entry_callbacks (d : Async.callbacks) (ids : list nat) : list redisCallback :=
  omap (fun i => de_val <$> ht_entries d !! i) ids.

Lemma run_table_ids (get : redisAsyncContext -> Async.callbacks) :
  (forall f ac, get (ac_set_flags f ac) = get ac) ->
  forall ids fuel it ac e, closing ac = true -> iterates (get ac) it ids ->
  (forall i, i ∈ ids -> is_Some (ht_entries (get ac) !! i)) -> (length ids < fuel)%nat ->
  exists f e', run_table sd behave get fuel it ac e = Ok (ac_set_flags f ac, e') /\
    phase ac (ac_set_flags f ac) e e' (entry_callbacks (get ac) ids).
Proof.
  intros Hget. induction ids as [|i ids IH]; intros [|fuel] it ac e Hcl Hit Hin Hf; try (cbn in Hf; lia);
    cbn [run_table iterates] in *; destruct Hit as [it' Hn].
  - rewrite Hn. cbn [mbind result_bind]. exists (ac_flags ac), e.
    replace (ac_set_flags _ ac) with ac by (by destruct ac as [[] ? ? ? ? ? ? ? ? ? ?]). split; [done|apply phase_refl].
  - destruct Hn as [-> Hit]. cbn [mbind result_bind]. destruct (Hin i) as [en Hen]; [by left|].
    rewrite (load_entry_ok _ _ _ Hen). cbn [mbind result_bind].
    destruct (run_closing (de_val en) ac e Hcl) as (f1 & e1 & -> & Hp1). cbn [mbind result_bind].
    destruct (IH fuel it' (ac_set_flags f1 ac) e1) as (f & e' & -> & Hp2);
      rewrite ?Hget; [by apply (phase_closing _ _ _ _ _ Hp1)|done|intros j Hj; apply Hin; by right|cbn in Hf; lia|].
    exists f, e'. split; [done|]. rewrite Hget in Hp2.
    pose proof (phase_trans _ _ _ _ _ _ _ _ Hp1 Hp2) as Hp3. unfold entry_callbacks in *. cbn [omap list_omap].
    rewrite Hen. exact Hp3.
Qed.

(** The callbacks of a table of subscriptions. *)
Definition map_callbacks (m : subscriptions) : list redisCallback := (map_to_list m).*2.

Lemma entry_callbacks_map (d : Async.callbacks) (m : subscriptions) ids :
  omap (content (fun k => k) (ht_entries d)) ids ≡ₚ map_to_list m -> entry_callbacks d ids ≡ₚ map_callbacks m.
Proof.
  intros Hp. unfold map_callbacks. rewrite <- Hp. clear Hp.
  unfold entry_callbacks. induction ids as [|i ids IH]; [done|]. cbn [omap list_omap]. unfold content at 1.
  destruct (ht_entries d !! i); cbn [fmap option_fmap option_map]; [cbn; by constructor|done].
Qed.

Lemma run_table_spec (get : redisAsyncContext -> Async.callbacks) (ac : redisAsyncContext) (e : env) (m : subscriptions) :
  (forall f ac, get (ac_set_flags f ac) = get ac) -> closing ac = true -> sub_holds (get ac) m ->
  exists f e' cbs, run_table sd behave get (table_fuel (get ac)) dictGetIterator ac e = Ok (ac_set_flags f ac, e') /\
    phase ac (ac_set_flags f ac) e e' cbs /\ cbs ≡ₚ map_callbacks m.
Proof.
  intros Hget Hcl Hm. destruct (dict_iterates_spec (fun k => k) string_hash _ _ Hm) as (ids & Hit & Hids & Hp).
  assert (Hl : length ids = size (ht_entries (get ac))).
  { pose proof (holds_used _ _ _ _ Hm) as H1. rewrite (dh_used _ _ _ _ Hm) in H1.
    rewrite <- (content_length (fun k => k) (ht_entries (get ac)) ids) by (intros i; apply Hids).
    rewrite Hp, length_map_to_list. lia. }
  destruct (run_table_ids get Hget ids (table_fuel (get ac)) dictGetIterator ac e Hcl Hit) as (f & e' & -> & Hph);
    [intros i; apply Hids|unfold table_fuel; lia|].
  exists f, e', (entry_callbacks (get ac) ids). split; [done|]. split; [done|]. by apply entry_callbacks_map.
Qed.

(** ** Releasing the context *)

Lemma readerFree_spec r h closed fs u :
  holding (Some defaultFunctions) r h closed fs u ->
  exists h', redisReplyReaderFree r h = Ok h' /\ heap_building h' closed [].
Proof.
  intros ((Hfn & _) & _ & _ & [(_ & _ & Hr & _ & Hb)|(os & cur & _ & (_ & _ & _ & _ & Hroot) & _ & Hb)]);
    unfold redisReplyReaderFree.
  - rewrite Hr. by exists h.
  - rewrite Hroot, Hfn. destruct os as [|[[q n] ts] os _] using rev_ind; [by exists h|].
    rewrite root_ptr_last. pose proof (build_nonnull _ _ _ Hb) as Hq.
    rewrite Forall_app, Forall_singleton in Hq. destruct Hq as (_ & _ & Hq). cbn in Hq.
    rewrite bool_decide_eq_false_2 by done. exact (dispose_open (fn := Some defaultFunctions) h closed os q n ts Hb).
Qed.

(** What the client has of replies once the reader of the context is released. *)
Definition releases (c : redisContext reply_heap) (h : reply_heap) (closed : list (voidptr * reply)) : Prop :=
  exists h', (match c_reader c with Some r => redisReplyReaderFree r h | None => Ok h end) = Ok h' /\
    heap_building h' closed [].

Lemma holds_releases c h closed fs u out :
  ctx_holds (Some defaultFunctions) c h closed fs u out -> releases c h closed.
Proof.
  intros [_ _ Hr]. unfold releases. destruct (c_reader c) as [r|]; [by eapply readerFree_spec|].
  exists h. split; [done|apply Hr].
Qed.

(** What the end of a connection tells the event library and the client. *)
Definition goodbye (ac : redisAsyncContext) (status : Z) : list event :=
  (if ev_cleanup (ac_ev ac) then [EvCleanup] else []) ++
  match ac_onDisconnect ac with
  | Some fn => if ac_has ac REDIS_CONNECTED then [EvDisconnect fn status] else []
  | None => []
  end.

Definition closed_world (ac : redisAsyncContext) (w : world) : world :=
  if 0 <? c_fd (ac_c ac) then closesocket (c_fd (ac_c ac)) w else w.

(** What releasing a table of subscriptions frees: the name and the callback of
    each entry. *)
Definition entry_freed (kv : list byte * redisCallback) : list destroyed_callback :=
  [KeyDestroyed kv.1; ValDestroyed kv.2].
Definition table_freed (m : subscriptions) : list destroyed_callback := map_to_list m ≫= entry_freed.

Lemma destroys_entries (es : gmap nat (dictEntry (K := list byte) (V := redisCallback))) ids :
  destroys_all callbackDict es ids = omap (content (fun k => k) es) ids ≫= entry_freed.
Proof.
  unfold destroys_all. induction ids as [|i ids IH]; [done|]. cbn [omap list_omap]. unfold content at 1.
  destruct (es !! i) as [en|]; cbn [fmap option_fmap option_map]; [|exact IH].
  cbn [mbind list_bind]. by rewrite IH.
Qed.

(** The end of [ac] with the model [A], the client holding [held]. *)
Record ended (ac : redisAsyncContext) (e : env) (A : amodel) (held : list (voidptr * reply)) (e' : env) : Prop := {
  ed_events : exists chans pats status,
    e_events e' = e_events e ++ null_calls (e_heap e) (a_pending A ++ a_strays A ++ chans ++ pats) ++ goodbye ac status /\
    chans ≡ₚ map_callbacks (a_chan A) /\ pats ≡ₚ map_callbacks (a_pat A) /\
    (ac_err ac = 0 \/ ac_has ac REDIS_FREEING = true -> status = REDIS_OK) /\
    (ac_err ac <> 0 -> ac_has ac REDIS_FREEING = false -> ~ client_frees -> status = REDIS_ERR);
  ed_heap : heap_building (e_heap e') held [];
  ed_freed : exists old, e_destroyed e' ≡ₚ old ++ table_freed (a_chan A) ++ table_freed (a_pat A);
  ed_world : e_world e' = closed_world ac (e_world e)
}.

(** A connection that ends: its queues, tables and context. *)
Record ending (ac : redisAsyncContext) (e : env) (A : amodel) (held : list (voidptr * reply)) : Prop := {
  en_closing : closing ac = true;
  en_queues : queues_hold ac (a_pending A) (a_strays A);
  en_chan : sub_holds (ac_channels ac) (a_chan A);
  en_pat : sub_holds (ac_patterns ac) (a_pat A);
  en_size : load A <= room;
  en_ctx : releases (ac_c ac) (e_heap e) held
}.

Lemma release_table (d : Async.callbacks) (m : subscriptions) :
  sub_holds d m -> Z.of_nat (size m) <= room ->
  exists t, dictRelease callbackDict d = Ok (∅, t) /\ t ≡ₚ ht_trace d ++ table_freed m.
Proof.
  intros Hd Hm. destruct (dictRelease_spec callbackDict (fun k => k) string_hash d m Hd) as (ids & E & Hp).
  - rewrite (holds_used _ _ _ _ Hd). unfold room in Hm. lia.
  - eexists. split; [exact E|]. rewrite destroys_entries. unfold table_freed. by rewrite Hp.
Qed.

Lemma asyncFree_spec ac e A held :
  ending ac e A held ->
  exists e', __redisAsyncFree sd behave ac e = Ok (∅, e') /\ ended ac e A held e'.
Proof.
  intros [Hcl Hq Hch Hpt Hsz Hrel]. unfold __redisAsyncFree. pose proof (queues_size _ _ _ Hq) as Hn.
  destruct (run_replies_spec _ _ (S (size (ch_nodes (ac_cbs ac)))) ac e Hcl Hq) as (ac1 & e1 & -> & P1 & Hq1); [lia|].
  cbn [mbind result_bind]. pose proof (queues_size _ _ _ Hq1) as Hn1. pose proof (phase_closing _ _ _ _ _ P1 Hcl) as Hc1.
  destruct (run_invalid_spec _ _ (S (size (ch_nodes (ac_cbs ac1)))) ac1 e1 Hc1 Hq1) as (ac2 & e2 & -> & P2 & Hq2);
    [cbn in Hn1; lia|]. cbn [mbind result_bind].
  pose proof (phase_trans _ _ _ _ _ _ _ _ P1 P2) as P12. pose proof (phase_closing _ _ _ _ _ P12 Hcl) as Hc2.
  destruct (ph_tables _ _ _ _ _ P12) as [Et1 Et2]. rewrite <- Et1 in Hch. rewrite <- Et2 in Hpt.
  destruct (run_table_spec ac_channels ac2 e2 (a_chan A)) as (f3 & e3 & chans & -> & P3 & Hchans); [done|done|done|].
  cbn [mbind result_bind]. unfold load in Hsz. pose proof (zlen_nonneg (a_out A)).
  destruct (release_table _ _ Hch) as (t1 & Er1 & Ht1); [lia|]. change (ac_channels (ac_set_flags f3 ac2)) with (ac_channels ac2).
  rewrite Er1. cbn [mbind result_bind].
  pose proof (phase_trans _ _ _ _ _ _ _ _ P12 P3) as P123. pose proof (phase_closing _ _ _ _ _ P123 Hcl) as Hc3.
  destruct (run_table_spec ac_patterns (ac_set_flags f3 ac2) (e_destroy t1 e3) (a_pat A))
    as (f4 & e4 & pats & -> & P4 & Hpats); [done|done|done|]. cbn [mbind result_bind].
  destruct (release_table _ _ Hpt) as (t2 & Er2 & Ht2); [lia|].
  set (ac4 := ac_set_flags f4 (ac_set_flags f3 ac2)) in *. change (ac_patterns ac4) with (ac_patterns ac2).
  rewrite Er2. cbn [mbind result_bind].
  assert (P4' : phase (ac_set_flags f3 ac2) ac4 e3 (Env (e_heap e4) (e_world e4) (e_events e4) (e_names e4) (e_destroyed e3)) pats).
  { destruct P4 as [G1 G2 G3 G4 G5 [G6 G7 G8] G9]. by split. }
  pose proof (phase_trans _ _ _ _ _ _ _ _ P123 P4') as P.
  destruct P as [Fr Rd Fn Oe _ [Eh Ew Ed] Ev]. cbn [e_heap e_world e_events e_destroyed] in *.
  assert (Ed4 : e_destroyed e4 = e_destroyed e3 ++ t1) by apply (ph_env _ _ _ _ _ P4).
  set (e5 := match ac_onDisconnect ac4 with Some fn => _ | None => _ end).
  assert (He5 : exists status, (e_heap e5 = e_heap e /\ e_destroyed e5 = e_destroyed e4 ++ t2) /\ e_world e5 = e_world e /\
    e_events e5 = e_events e4 ++ goodbye ac status /\ (ac_err ac = 0 \/ ac_has ac REDIS_FREEING = true -> status = REDIS_OK) /\
    (ac_err ac <> 0 -> ac_has ac REDIS_FREEING = false -> ~ client_frees -> status = REDIS_ERR)).
  { exists (disconnect_status ac4). unfold e5, goodbye. rewrite (af_disc _ _ Fr), (af_ev _ _ Fr), (oe_conn _ _ _ Oe).
    assert (Hfin : forall o c st ev, let e6 := match o with Some fn => if (c : bool) then e_emit (EvDisconnect fn st) ev else ev | None => ev end in
      (e_heap e6 = e_heap ev /\ e_destroyed e6 = e_destroyed ev) /\ e_world e6 = e_world ev /\
      e_events e6 = e_events ev ++ match o with Some fn => if c then [EvDisconnect fn st] else [] | None => [] end).
    { intros [fn|] [] st ev; cbn; by rewrite ?app_nil_r. }
    destruct (Hfin (ac_onDisconnect ac) (ac_has ac REDIS_CONNECTED) (disconnect_status ac4)
      (hook (ev_cleanup (ac_ev ac)) EvCleanup (e_destroy t2 e4))) as ([-> ->] & -> & ->).
    split; [destruct (ev_cleanup (ac_ev ac)); done|]. split; [destruct (ev_cleanup (ac_ev ac)); done|]. split.
    - rewrite app_assoc. f_equal. destruct (ev_cleanup (ac_ev ac)); cbn; by rewrite ?app_nil_r.
    - unfold disconnect_status. rewrite (af_err _ _ Fr). split; [intros [H0|H0]|intros H0 H1 H2].
      + rewrite H0. by destruct (ac_has ac4 REDIS_FREEING).
      + by rewrite (oe_free _ _ _ Oe H0).
      + destruct (ac_has ac4 REDIS_FREEING) eqn:Hfr.
        * apply (oe_freed _ _ _ Oe) in Hfr as [?|?]; [congruence|done].
        * by rewrite (proj2 (Z.eqb_neq _ _)). }
  destruct He5 as (status & [Hh5 Hd5] & Hw5 & Hev5 & Hst). unfold redisFree.
  destruct Hrel as (h' & Eh' & Hb). rewrite <- Rd in Eh'. rewrite Hh5, Eh'. cbn [mbind result_bind].
  assert (Hnodes : ch_nodes (ac_cbs ac4) = ∅).
  { apply map_size_empty_inv. change (ac_cbs ac4) with (ac_cbs ac2). by rewrite <- (queues_size _ _ _ Hq2). }
  rewrite Hnodes. eexists. split; [done|]. split; cbn [e_heap e_world e_set_heap e_set_world].
  - exists chans, pats, status. split; [|done]. cbn [e_events e_set_heap e_set_world]. by rewrite Hev5, Ev, <- !app_assoc.
  - exact Hb.
  - exists (e_destroyed e3 ++ ht_trace (ac_channels ac2) ++ ht_trace (ac_patterns ac2)).
    cbn [e_destroyed e_set_heap e_set_world]. rewrite Hd5, Ed4, Ht1, Ht2, <- !app_assoc. solve_Permutation.
  - unfold closed_world. by rewrite Hw5, (af_fd _ _ Fr).
Qed.
End closing.
