(* ===== verification/AsyncServe.v ===== *)
(** * Serving replies

    What [redisProcessCallbacks] does with the bytes received so far: a relation
    on the models of a connection, and the proof that the code follows it. *)

From S2P Require Import Prelude Digits Sds SdsText Resp Reply ReplyHeap Reader ReaderSpec ReaderRun Format.
From S2P Require Import FormatSpec Dict DictSpec DictRun Socket Net Context ContextSpec ContextRun Callbacks.
From S2P Require Import Async AsyncCommand AsyncSpec AsyncFree.

Definition with_model (A : amodel) (k : conn) : conn := Conn A (k_sub k) (k_disc k) (k_free k) (k_events k).

(** The C string at the head of [t]. *)
Fixpoint until_nul (t : list byte) : list byte :=
  match t with
  | [] => []
  | c :: t => if bool_decide (c = x00) then [] else c :: until_nul t
  end.

Definition says_unsubscribe (t : list byte) : bool :=
  bool_decide (tolower <$> until_nul (body_of t) = bytes "unsubscribe").

(** The callback of the reply [x] and the connection it leaves; [None] where the
    library aborts or uses a callback it never set. *)
Definition dispatch (k : conn) (x : reply) : option (redisCallback * conn) :=
  let A := k_model k in
  match a_pending A with
  | cb :: rest => Some (cb, with_model (AModel rest (a_strays A) (a_chan A) (a_pat A) (a_out A)) k)
  | [] =>
      if negb (k_sub k) then None
      else match x with
           | RArray (RString t :: RString name :: more) =>
               let pv := pvariant_of t in
               let m := if pv then a_pat A else a_chan A in
               if negb (zlen name <=? sds_max) then None
               else match m !! name with
                    | None => None
                    | Some cb =>
                        if says_unsubscribe t then
                          match more with
                          | RInteger n :: _ =>
                              let A := if pv then AModel [] (a_strays A) (a_chan A) (delete name (a_pat A)) (a_out A)
                                       else AModel [] (a_strays A) (delete name (a_chan A)) (a_pat A) (a_out A) in
                              Some (cb, Conn A (negb (n =? 0)) (k_disc k) (k_free k) (k_events k))
                          | _ => None
                          end
                        else Some (cb, k)
                    end
           | RArray _ => None
           | _ =>
               match a_strays A with
               | cb :: rest => Some (cb, with_model (AModel [] rest (a_chan A) (a_pat A) (a_out A)) k)
               | [] => None
               end
           end
  end.

(** A disconnection was asked for and nothing is left to send. *)
Definition disconnects (k : conn) : bool := k_disc k && bool_decide (a_out (k_model k) = []).

Inductive verdict :=
| Open (k : conn) (fs : list frame) (u : list byte)   (** waiting for more bytes *)
| Closed (k : conn)                                   (** ended in order *)
| Broken (k : conn) (msg : list byte)                 (** ended by a protocol error *)
| Aborted                                             (** an assertion fails *)
| Unclaimed.                                          (** outside of the model *)

Section serving.
Context (behave : list event -> list api_call).
Context (w : bool) (held : list (voidptr * reply)).

Inductive serving : conn -> list frame -> list byte -> verdict -> Prop :=
| serve_wait k fs u fs' u' :
    parse fs u = Waiting fs' u' -> disconnects k = false -> serving k fs u (Open k fs' u')
| serve_bye k fs u fs' u' :
    parse fs u = Waiting fs' u' -> disconnects k = true -> a_pending (k_model k) = [] -> serving k fs u (Closed k)
| serve_abort k fs u fs' u' :
    parse fs u = Waiting fs' u' -> disconnects k = true -> a_pending (k_model k) <> [] -> serving k fs u Aborted
| serve_bad k fs u msg : parse fs u = Failed msg -> serving k fs u (Broken k msg)
| serve_unsafe k fs u : parse fs u = Dangerous -> serving k fs u Unclaimed
| serve_lost k fs u x rest : parse fs u = Finished x rest -> dispatch k x = None -> serving k fs u Unclaimed
| serve_next k fs u x rest cb k1 p h k2 v :
    parse fs u = Finished x rest -> dispatch k x = Some (cb, k1) -> heap_building h ((p, x) :: held) [] ->
    calls_back behave w h cb p k1 k2 -> k_free k2 = false -> serving k2 [] rest v -> serving k fs u v
| serve_freed k fs u x rest cb k1 p h k2 :
    parse fs u = Finished x rest -> dispatch k x = Some (cb, k1) -> heap_building h ((p, x) :: held) [] ->
    calls_back behave w h cb p k1 k2 -> k_free k2 = true -> serving k fs u (Closed k2).
End serving.

(** ** Reading a reply object *)

Lemma closed_load h p x held fs :
  heap_building h ((p, x) :: held) fs -> fs = [] ->
  exists lo hi, rep (rh_objs h) lo hi p x.
Proof. intros [Ho _] ->. cbn in Ho. destruct Ho as (lo & Hr & _). eauto. Qed.

Lemma rep_load h lo hi p x : rep (rh_objs h) lo hi p x ->
  exists l o, load_reply p h = Ok (l, o) /\
    match x with
    | RArray xs => exists ps, o = array_obj (zlen xs) ps /\ rep_list (rh_objs h) (S l) hi ps xs
    | _ => leaf_obj x = Some o
    end.
Proof.
  destruct 1 as [lo hi l x o Hl Hm Hx|lo hi l ps xs Hl Hm Hr]; unfold load_reply; rewrite Hm.
  - exists l, o. split; [done|]. by destruct x.
  - eexists l, _. split; [done|]. by exists ps.
Qed.

Lemma rep_list_nth h lo hi ps xs i x : rep_list (rh_objs h) lo hi ps xs -> xs !! i = Some x ->
  exists p lo' hi', ps !! i = Some p /\ rep (rh_objs h) lo' hi' p x.
Proof.
  intros Hr. revert i. induction Hr as [|lo mid hi p y ps xs Hp Hr IH]; intros i Hi; [done|].
  destruct i as [|i]; [injection Hi as ->; by exists p, lo, mid|]. by apply IH.
Qed.

Lemma element_of_spec h l hi ps xs i x :
  rep_list (rh_objs h) (S l) hi ps xs -> xs !! i = Some x -> (forall ys, x <> RArray ys) ->
  exists o, element_of (array_obj (zlen xs) ps) (Z.of_nat i) h = Ok o /\ leaf_obj x = Some o.
Proof.
  intros Hr Hi Hx. destruct (rep_list_nth _ _ _ _ _ _ _ Hr Hi) as (p & lo' & hi' & Hp & Hrx).
  destruct (rep_load _ _ _ _ _ Hrx) as (l' & o & Hl & Ho). exists o. unfold element_of.
  cbn [array_obj rp_element of_option mbind result_bind]. rewrite (proj2 (Z.ltb_ge _ 0)) by lia.
  rewrite Nat2Z.id, Hp. cbn [of_option mbind result_bind]. rewrite Hl. cbn [mbind result_bind].
  split; [done|]. destruct x; try done. by edestruct Hx.
Qed.

(** ** Which message it is *)

Lemma tolower_nul a : tolower a = x00 -> a = x00.
Proof. by destruct a. Qed.

Lemma strncasecmp_text w : forall s n, (tolower <$> w) = w -> (x00 ∉ w) -> (length w < n)%nat ->
  exists rc, strncasecmp n (s ++ [x00]) (w ++ [x00]) = Ok rc /\
    (rc =? 0) = bool_decide (tolower <$> until_nul s = w).
Proof.
  induction w as [|b w IH]; intros s [|n] Hlow Hz Hn; try (cbn in Hn; lia); cbn [strncasecmp app].
  - destruct s as [|a s]; cbn [app until_nul]; [by exists 0|].
    destruct (decide (a = x00)) as [->|Ha]; [by exists 0|].
    rewrite (bool_decide_eq_false_2 (a = x00)) by done.
    assert (b2z (tolower a) <> 0) as Hne.
    { intros E. apply Ha, tolower_nul, b2z_inj. by rewrite E. }
    change (b2z (tolower x00)) with 0. rewrite Z.sub_0_r, (proj2 (Z.eqb_neq _ 0)) by done. cbn [negb].
    eexists. split; [done|]. rewrite (proj2 (Z.eqb_neq _ 0)) by done. symmetry. by apply bool_decide_eq_false.
  - cbn [fmap list_fmap] in Hlow. injection Hlow as Hb Hlow. apply not_elem_of_cons in Hz as [Hb0 Hz]. rewrite Hb.
    destruct s as [|a s]; cbn [app until_nul].
    + assert (b2z (tolower x00) - b2z b <> 0) as Hne.
      { change (b2z (tolower x00)) with 0. intros E. apply Hb0. apply b2z_inj. change (b2z x00) with 0. lia. }
      rewrite (proj2 (Z.eqb_neq _ 0)) by done. cbn [negb]. eexists. split; [done|].
      by rewrite (proj2 (Z.eqb_neq _ 0)).
    + destruct (Z.eqb_spec (b2z (tolower a) - b2z b) 0) as [E|E]; cbn [negb].
      * assert (tolower a = b) as Hab by (apply b2z_inj; lia).
        destruct (decide (a = x00)) as [->|Ha]; [by destruct Hb0|].
        rewrite !(bool_decide_eq_false_2 (a = x00)) by done.
        destruct (IH s n Hlow Hz) as (rc & -> & Hrc); [cbn in Hn; lia|]. exists rc. split; [done|]. rewrite Hrc.
        cbn [fmap list_fmap]. rewrite Hab. apply bool_decide_ext. split; [by intros ->|by intros [= ?]].
      * eexists. split; [done|]. rewrite (proj2 (Z.eqb_neq _ 0)) by done. symmetry. apply bool_decide_eq_false.
        case_bool_decide; [done|]. cbn. intros [= Hab _]. rewrite Hab in E. lia.
Qed.

Lemma unsubscribe_test t :
  exists c0 rc, deref (t ++ [x00]) 0 = Ok c0 /\ bool_decide (tolower c0 = x70) = pvariant_of t /\
    strcasecmp (at_ptr (t ++ [x00]) (if pvariant_of t then 1 else 0)) (cstr (bytes "unsubscribe")) = Ok rc /\
    (rc =? 0) = says_unsubscribe t.
Proof.
  assert (Hat : at_ptr (t ++ [x00]) (if pvariant_of t then 1 else 0) = body_of t ++ [x00]).
  { unfold body_of, at_ptr. destruct (pvariant_of t) eqn:E; [|done]. by destruct t. }
  rewrite Hat. unfold strcasecmp, says_unsubscribe.
  destruct (strncasecmp_text (bytes "unsubscribe") (body_of t)
    (length (body_of t ++ [x00]) + length (cstr (bytes "unsubscribe")))) as (rc & E & Hrc);
    [done|apply (bool_decide_unpack _); by vm_compute|cbn; lia|].
  exists (hd x00 (t ++ [x00])), rc. split; [by destruct t|]. split; [by destruct t|]. done.
Qed.

(** ** The callback of a reply *)

Lemma conn_parts A busy ac ac' e R k :
  conn_ok busy ac e R k -> ac_c ac' = ac_c ac ->
  queues_hold ac' (a_pending A) (a_strays A) -> sub_holds (ac_channels ac') (a_chan A) ->
  sub_holds (ac_patterns ac') (a_pat A) -> a_out A = a_out (k_model k) ->
  conn_ok busy ac' e R (with_model A k).
Proof.
  intros [[H1 _ _ _] H2 H3 H4 H5 H6 H7] Ec Hq Hch Hp Ho.
  assert (Hf : forall f, ac_has ac' f = ac_has ac f) by (intros f; unfold ac_has, ac_flags; by rewrite Ec).
  split; rewrite ?Hf; try done. split; cbn; try done. by rewrite Ec, Ho.
Qed.

Lemma parts_frame ac ac' e :
  ac_c ac' = ac_c ac -> ac_ev ac' = ac_ev ac -> ac_onDisconnect ac' = ac_onDisconnect ac ->
  ac_onConnect ac' = ac_onConnect ac -> ac_err ac' = ac_err ac -> conn_frame ac ac' e e.
Proof.
  intros Ec Ev E1 E2 E3. split; [|unfold ac_has, ac_flags; by rewrite Ec|apply env_frame_refl].
  split; by rewrite ?Ec.
Qed.

Lemma unsubscribe_flag ac e R k (n : Z) A :
  conn_ok false ac e R (with_model A k) -> k_sub k = true ->
  let ac' := if n =? 0 then ac_set_flags (del_flag (ac_flags ac) REDIS_SUBSCRIBED) ac else ac in
  conn_ok false ac' e R (Conn A (negb (n =? 0)) (k_disc k) (k_free k) (k_events k)) /\ conn_frame ac ac' e e.
Proof.
  intros Hk Hs ac'. unfold ac'. destruct (n =? 0); cbn [negb].
  - destruct Hk as [H1 H2 H3 H4 H5 H6 H7]. cbn [with_model k_model k_sub k_disc k_free k_events] in *.
    assert (Hother : forall f, one_flag f -> REDIS_SUBSCRIBED <> f ->
      ac_has (ac_set_flags (del_flag (ac_flags ac) REDIS_SUBSCRIBED) ac) f = ac_has ac f).
    { intros f Hf Hne. rewrite has_set_del by eauto with mms. rewrite bool_decide_eq_false_2 by done. apply andb_true_r. }
    split.
    + split; try (by rewrite Hother by (done || eauto with mms)); [by apply async_ok_flags| |done].
      rewrite has_set_del by eauto with mms. by rewrite bool_decide_eq_true_2, andb_false_r.
    + split; [by split|by apply Hother; [eauto with mms|]|apply env_frame_refl].
  - split; [|apply conn_frame_refl]. destruct Hk as [H1 H2 H3 H4 H5 H6 H7]. split; try done.
    cbn in *. by rewrite H3.
Qed.

Definition pop_stray (rest : list redisCallback) (k : conn) : conn :=
  with_model (AModel [] rest (a_chan (k_model k)) (a_pat (k_model k)) (a_out (k_model k))) k.

(** A reply that is no array goes to a command issued while subscribed. *)
Lemma getSubscribe_stray p lo hi x cb0 ac e R k cb rest :
  conn_ok false ac e R k -> rep (rh_objs (e_heap e)) lo hi p x -> (forall xs, x <> RArray xs) ->
  a_pending (k_model k) = [] -> a_strays (k_model k) = cb :: rest ->
  exists ac', __redisGetSubscribeCallback p cb0 ac e = Ok (Some cb, ac', e) /\
    conn_ok false ac' e R (pop_stray rest k) /\ conn_frame ac ac' e e.
Proof.
  intros Hk Hr Hx Ep Es. pose proof (co_ok _ _ _ _ _ Hk) as Hok. unfold __redisGetSubscribeCallback.
  destruct (rep_load _ _ _ _ _ Hr) as (l & o & -> & Ho). cbn [mbind result_bind].
  assert (Hty : (rp_type o =? REDIS_REPLY_ARRAY) = false).
  { destruct x; try (injection Ho as <-; done). by edestruct Hx. }
  rewrite Hty. pose proof (shift_invalid_spec _ _ _ (ao_queues _ _ _ _ Hok)) as Hs. rewrite Es in Hs.
  destruct Hs as (l2 & g2 & -> & Hq2). cbn [mbind result_bind]. exists (ac_set_invalid l2 g2 ac). split; [done|].
  split; [|by apply parts_frame]. rewrite Ep in Hq2. apply (conn_parts _ _ ac); try done; apply Hok.
Qed.

Definition sub_table (pv : bool) (A : amodel) : subscriptions := if pv then a_pat A else a_chan A.
Definition set_sub_table (pv : bool) (m : subscriptions) (A : amodel) : amodel :=
  if pv then AModel [] (a_strays A) (a_chan A) m (a_out A) else AModel [] (a_strays A) m (a_pat A) (a_out A).

Lemma table_holds pv ac e R A : async_ok ac e R A -> sub_holds (table_of pv ac) (sub_table pv A).
Proof. intros [_ _ H1 H2]. by destruct pv. Qed.

Lemma set_table_conn pv (d : Async.callbacks) m ac e R k :
  conn_ok false ac e R k -> a_pending (k_model k) = [] -> sub_holds d m ->
  conn_ok false (set_table pv d ac) e R (with_model (set_sub_table pv m (k_model k)) k) /\
  conn_frame ac (set_table pv d ac) e e.
Proof.
  intros Hk Ep Hd. pose proof (co_ok _ _ _ _ _ Hk) as [_ [H1 H1'] H2 H3]. rewrite Ep in H1.
  split; [|by destruct pv; apply parts_frame].
  apply (conn_parts _ _ ac); try (by destruct pv); destruct pv; cbn; try done; by split.
Qed.

(** A message of a channel goes to the callback of its subscription. *)
Lemma getSubscribe_message p lo hi t name more cb0 ac e R k cb k1 :
  conn_ok false ac e R k -> rep (rh_objs (e_heap e)) lo hi p (RArray (RString t :: RString name :: more)) ->
  dispatch k (RArray (RString t :: RString name :: more)) = Some (cb, k1) ->
  a_pending (k_model k) = [] -> load (k_model k) <= room ->
  exists ac', __redisGetSubscribeCallback p cb0 ac e = Ok (Some cb, ac', e) /\
    conn_ok false ac' e R k1 /\ conn_frame ac ac' e e.
Proof.
  intros Hk Hr Hd Ep Hl. pose proof (co_ok _ _ _ _ _ Hk) as Hok. unfold __redisGetSubscribeCallback.
  destruct (rep_load _ _ _ _ _ Hr) as (l & o & -> & ps & -> & Hps). cbn [mbind result_bind].
  set (xs := RString t :: RString name :: more) in *. change (rp_type (array_obj (zlen xs) ps) =? REDIS_REPLY_ARRAY) with true.
  cbn match. cbn [array_obj rp_elements of_option mbind result_bind]. fold (array_obj (zlen xs) ps).
  assert (2 <= zlen xs) by (unfold xs; rewrite !zlen_cons; pose proof (zlen_nonneg more); lia).
  rewrite c_assert_true by (by apply Z.leb_le). cbn [mbind result_bind].
  destruct (element_of_spec _ _ _ _ _ 0 _ Hps eq_refl) as (o0 & E0 & Ho0); [done|]. injection Ho0 as <-.
  destruct (element_of_spec _ _ _ _ _ 1 _ Hps eq_refl) as (o1 & E1 & Ho1); [done|]. injection Ho1 as <-.
  change (Z.of_nat 0) with 0 in E0. change (Z.of_nat 1) with 1 in E1. rewrite E0. cbn [mbind result_bind].
  rewrite c_assert_true by done. cbn [mbind result_bind string_obj rp_str of_option].
  replace (cell_bytes ((Some <$> t) ++ [Some x00])) with (t ++ [x00]) by (by rewrite cell_bytes_app).
  destruct (unsubscribe_test t) as (c0 & rc & -> & Hpv & Ecmp & Hrc). cbn [mbind result_bind]. rewrite Hpv, E1.
  cbn [mbind result_bind]. rewrite c_assert_true by done. cbn [mbind result_bind string_obj rp_str rp_len of_option].
  replace (cell_bytes ((Some <$> name) ++ [Some x00])) with (name ++ [x00]) by (by rewrite cell_bytes_app).
  unfold dispatch in Hd. rewrite Ep in Hd. destruct (k_sub k) eqn:Esub; [|done]. cbn [negb] in Hd.
  unfold xs in Hd. destruct (Z.leb_spec (zlen name) sds_max) as [Hn|]; [|done]. cbn [negb] in Hd.
  pose proof (zlen_nonneg name). rewrite u32_small by (unfold sds_max in Hn; lia).
  destruct (sdsnewlen_copy (name ++ [x00]) (zlen name)) as (sn & -> & _); [lia|len_lia|]. cbn [mbind result_bind].
  rewrite to_nat_zlen, take_app_length. set (pv := pvariant_of t) in *.
  change (if pv then a_pat (k_model k) else a_chan (k_model k)) with (sub_table pv (k_model k)) in Hd.
  fold (table_of pv ac). pose proof (table_holds pv _ _ _ _ Hok) as Ht.
  destruct (dictFind_found callbackDict (fun k => k) string_hash _ _ name Ht) as (r & -> & Hf). cbn [mbind result_bind].
  pose proof (found_map _ _ _ _ _ _ Ht Hf) as Hm. destruct (sub_table pv (k_model k) !! name) as [cb1|] eqn:Em; [|done].
  destruct r as [i|]; [|congruence]. destruct Hm as (en & Hen & Ecb). injection Ecb as ->.
  rewrite (load_entry_ok _ _ _ Hen). cbn [mbind result_bind].
  rewrite Ecmp. cbn [mbind result_bind]. rewrite Hrc. destruct (says_unsubscribe t).
  2: { injection Hd as -> <-. exists ac. split; [done|]. split; [done|apply conn_frame_refl]. }
  pose proof (dictDelete_spec callbackDict (fun k => k) string_hash _ _ name Ht) as Hdel.
  cbv beta in Hdel. rewrite Em in Hdel.
  destruct Hdel as (d' & nm & -> & Hd' & _).
  { rewrite (holds_used _ _ _ _ Ht). unfold load, room, sub_table in *. pose proof (zlen_nonneg (a_out (k_model k))).
    destruct pv; lia. }
  cbn [mbind result_bind]. fold (set_table pv d' ac).
  destruct more as [|y more]; [done|]. destruct y as [| | |n| |]; try done.
  destruct (element_of_spec _ _ _ _ _ 2 _ Hps eq_refl) as (o2 & E2 & Ho2); [done|]. injection Ho2 as <-.
  change (Z.of_nat 2) with 2 in E2. rewrite E2. cbn [mbind result_bind]. rewrite c_assert_true by done.
  cbn [mbind result_bind rp_integer of_option]. injection Hd as -> <-.
  destruct (set_table_conn pv d' (delete name (sub_table pv (k_model k))) ac e R k Hk Ep Hd') as [Hk2 Hf2].
  destruct (unsubscribe_flag _ e R k n _ Hk2 Esub) as [Hk3 Hf3].
  eexists. split; [done|]. split; [|exact (conn_frame_trans _ _ _ _ _ _ Hf2 Hf3)].
  unfold set_sub_table, sub_table in Hk3. by destruct pv.
Qed.

Lemma callback_for_spec p x cb0 ac e R k cb k1 h0 :
  conn_ok false ac e R k -> heap_building (e_heap e) ((p, x) :: h0) [] -> dispatch k x = Some (cb, k1) ->
  load (k_model k) <= room ->
  exists ac', callback_for p cb0 ac e = Ok (Some cb, ac', e) /\ conn_ok false ac' e R k1 /\ conn_frame ac ac' e e.
Proof.
  intros Hk Hb Hd Hl. pose proof (co_ok _ _ _ _ _ Hk) as Hok. pose proof (ao_queues _ _ _ _ Hok) as Hq.
  pose proof (shift_replies_spec _ _ _ Hq) as Hs. unfold callback_for.
  destruct (a_pending (k_model k)) as [|cb1 rest] eqn:Ep.
  2: { destruct Hs as (l & g & -> & Hq1). cbn [mbind result_bind]. change (REDIS_OK =? REDIS_OK) with true.
       unfold dispatch in Hd. rewrite Ep in Hd. injection Hd as -> <-. exists (ac_set_replies l g ac). split; [done|].
       split; [apply (conn_parts _ _ ac); try done; apply Hok|by apply parts_frame]. }
  rewrite Hs. cbn [mbind result_bind]. change (REDIS_ERR =? REDIS_OK) with false. cbn match.
  replace (ac_set_replies (ac_replies ac) (ac_cbs ac) ac) with ac by (by destruct ac).
  assert (Esub : k_sub k = true) by (unfold dispatch in Hd; rewrite Ep in Hd; by destruct (k_sub k)).
  rewrite (co_sub _ _ _ _ _ Hk), c_assert_true by done. cbn [mbind result_bind].
  destruct (closed_load _ _ _ _ _ Hb eq_refl) as (lo & hi & Hr).
  assert (Hst : (forall xs, x <> RArray xs) ->
    exists rest, a_strays (k_model k) = cb :: rest /\ k1 = pop_stray rest k).
  { intros Hx. unfold dispatch in Hd. rewrite Ep, Esub in Hd. cbn [negb] in Hd.
    assert (Hd' : match a_strays (k_model k) with
                  | cb :: rest => Some (cb, pop_stray rest k) | [] => None end = Some (cb, k1)).
    { destruct x; try exact Hd. by edestruct Hx. }
    destruct (a_strays (k_model k)) as [|c rest]; [done|]. injection Hd' as -> <-. by exists rest. }
  destruct x as [v|v|v|n| |xs]; try (destruct Hst as (rest & Es & ->); [done|]; by eapply getSubscribe_stray).
  destruct xs as [|[| |t| | |] [|[| |name| | |] more]];
    try (unfold dispatch in Hd; rewrite Ep, Esub in Hd; done). by eapply getSubscribe_message.
Qed.

(** ** The parser's messages *)

Lemma parse_message fs u msg : parse fs u = Failed msg -> (x00 ∉ msg) /\ zlen msg <= sds_max.
Proof.
  assert (Hlex : forall n u msg, lex n u = Bad msg -> (x00 ∉ msg) /\ zlen msg <= sds_max).
  { intros n [|c v] m; [done|]. cbn [lex]. unfold lex_line, lex_number, lex_bulk, lex_array.
    repeat case_bool_decide; repeat case_match; try done.
    - intros [= <-]. split; [apply (bool_decide_unpack _); by vm_compute|by vm_compute].
    - intros [= <-]. destruct (quote_one c) as [Hz Hl]. unfold type_error. rewrite !not_elem_of_app, !zlen_app.
      change (zlen (bytes "Protocol error, got ")) with 20. change (zlen (bytes " as reply type byte")) with 19.
      split; [split; [|split; [exact Hz|]]; apply (bool_decide_unpack _); by vm_compute|]. unfold sds_max. lia. }
  revert fs u. apply (parse_induction (fun fs u => parse fs u = Failed msg -> (x00 ∉ msg) /\ zlen msg <= sds_max)).
  intros fs u IH. rewrite parse_unfold. unfold parse_with.
  destruct (lex (length fs) u) as [|m| |t rest] eqn:E; try done.
  - intros [= ->]. by eapply Hlex.
  - apply lex_shrinks in E. destruct t as [x|n]; [|apply IH; lia]. destruct (plug x fs); [done|apply IH; lia].
Qed.

(** ** The loop *)

Section loop.
Context (sd : conversion -> Z -> Z -> list byte) (strerror : Z -> list byte) (Hstr : texts_ok strerror).
Context (behave : list event -> list api_call) (B : Z) (Hbehave : well_behaved behave B) (HB : B <= sds_max).
Abbreviation getReply := (redisGetReply defaultFunctions strerror).

(** The end of a connection: what waited is called with NULL, the event library
    and the client are told, the socket is closed, the entries of the tables are
    freed, and of the replies those the client holds are left. *)
Record farewell (ac : redisAsyncContext) (w : world) (k : conn) (held : list (voidptr * reply)) (status : Z) (e' : env)
    : Prop := {
  fw_events : exists h chans pats, e_events e' = k_events k ++
      null_calls h (a_pending (k_model k) ++ a_strays (k_model k) ++ chans ++ pats) ++ goodbye ac status /\
    chans ≡ₚ map_callbacks (a_chan (k_model k)) /\ pats ≡ₚ map_callbacks (a_pat (k_model k));
  fw_heap : heap_building (e_heap e') held [];
  fw_freed : exists old, e_destroyed e' ≡ₚ old ++ table_freed (a_chan (k_model k)) ++ table_freed (a_pat (k_model k));
  fw_world : e_world e' = closed_world ac w
}.

Record still (ac ac' : redisAsyncContext) (e e' : env) : Prop := {
  st_frame : ac_frame ac ac';
  st_connected : ac_has ac' REDIS_CONNECTED = ac_has ac REDIS_CONNECTED;
  st_world : e_world e' = e_world e
}.

Lemma still_trans ac1 ac2 ac3 e1 e2 e3 : still ac1 ac2 e1 e2 -> still ac2 ac3 e2 e3 -> still ac1 ac3 e1 e3.
Proof. intros [F1 C1 E1] [F2 C2 E2]. split; [by eapply ac_frame_trans|by rewrite C2|by rewrite E2]. Qed.

Lemma conn_still ac ac' e e' : conn_frame ac ac' e e' -> still ac ac' e e'.
Proof. intros [F C [_ E _]]. by split. Qed.

(** What [redisProcessCallbacks] returns. *)
Definition verdict_ok (ac : redisAsyncContext) (e : env) (held : list (voidptr * reply)) (v : verdict)
    (r : result ((redisAsyncContext + gmap nat cb_node) * env)) : Prop :=
  match v with
  | Open k fs u => exists ac' e', r = Ok (inl ac', e') /\ conn_ok false ac' e' (Reading held fs u) k /\ still ac ac' e e'
  | Closed k => exists e', r = Ok (inr ∅, e') /\ farewell ac (e_world e) k held REDIS_OK e'
  | Broken k _ => exists status e', r = Ok (inr ∅, e') /\ farewell ac (e_world e) k held status e' /\
      (~ client_frees behave -> status = REDIS_ERR)
  | Aborted => r = Err AssertFailed
  | Unclaimed => True
  end.

Lemma farewell_same ac ac' w k held status e2 :
  ac_ev ac' = ac_ev ac -> ac_onDisconnect ac' = ac_onDisconnect ac ->
  ac_has ac' REDIS_CONNECTED = ac_has ac REDIS_CONNECTED -> c_fd (ac_c ac') = c_fd (ac_c ac) ->
  farewell ac' w k held status e2 -> farewell ac w k held status e2.
Proof.
  intros E1 E2 E3 E4 [H1 H2 Hd H3]. split; [|done|done|].
  - destruct H1 as (h & chans & pats & H1 & Hp). exists h, chans, pats. rewrite H1. split; [|done].
    do 2 f_equal. unfold goodbye. by rewrite E1, E2, E3.
  - rewrite H3. unfold closed_world. by rewrite E4.
Qed.

Lemma farewell_still ac ac' e e' k held status e2 :
  still ac ac' e e' -> farewell ac' (e_world e') k held status e2 -> farewell ac (e_world e) k held status e2.
Proof.
  intros [F C E] H. rewrite E in H. apply (farewell_same ac ac'); [apply F|apply F|done|apply F|done].
Qed.

Lemma verdict_still ac ac' e e' held v r :
  still ac ac' e e' -> verdict_ok ac' e' held v r -> verdict_ok ac e held v r.
Proof.
  intros Hs. destruct v as [k fs u|k|k msg| |]; cbn [verdict_ok]; [..|done|done].
  - intros (ac2 & e2 & E & Hk & Hst). exists ac2, e2. split; [done|]. split; [done|]. by eapply still_trans.
  - intros (e2 & E & Hf). exists e2. split; [done|]. by eapply farewell_still.
  - intros (st & e2 & E & Hf & Hst). exists st, e2. split; [done|]. split; [by eapply farewell_still|done].
Qed.

Lemma conn_ending busy ac e R k :
  conn_ok busy ac e R k -> k_closing k = true -> load (k_model k) <= room -> ending ac e (k_model k) (rd_closed R).
Proof.
  intros [[H1 H2 H3 H4] _ _ H5 H6 _ _] Hcl Hl. split; try done.
  - unfold closing. by rewrite H5, H6.
  - by eapply holds_releases.
Qed.

Lemma ended_farewell ac e k held e' :
  ended behave ac e (k_model k) held e' -> e_events e = k_events k ->
  exists status, farewell ac (e_world e) k held status e' /\
    (ac_err ac = 0 \/ ac_has ac REDIS_FREEING = true -> status = REDIS_OK) /\
    (ac_err ac <> 0 -> ac_has ac REDIS_FREEING = false -> ~ client_frees behave -> status = REDIS_ERR).
Proof.
  intros [(chans & pats & status & Hev & Hc & Hp & Hst) Hh Hd Hw] Ee. exists status. split; [|done].
  split; [|done|done|done]. exists (e_heap e), chans, pats. by rewrite Hev, Ee.
Qed.

(** Freed by the client. *)
Lemma free_now busy ac e R k :
  conn_ok busy ac e R k -> k_free k = true -> load (k_model k) <= room ->
  exists e', __redisAsyncFree sd behave ac e = Ok (∅, e') /\ farewell ac (e_world e) k (rd_closed R) REDIS_OK e'.
Proof.
  intros Hk Hf Hl. assert (Hcl : k_closing k = true) by (unfold k_closing; rewrite Hf; apply orb_true_r).
  destruct (asyncFree_spec sd behave B Hbehave HB _ _ _ _ (conn_ending _ _ _ _ _ Hk Hcl Hl)) as (e' & E & He).
  exists e'. split; [done|].
  destruct (ended_farewell _ _ _ _ _ He (co_events _ _ _ _ _ Hk)) as (st & Hfw & Hst & _).
  rewrite <- Hst; [done|]. right. by rewrite (co_free _ _ _ _ _ Hk).
Qed.

(** A disconnection in order. *)
Lemma disconnect_clean busy ac e R k :
  conn_ok busy ac e R k -> k_disc k = true -> load (k_model k) <= room -> c_err (ac_c ac) = 0 ->
  match a_pending (k_model k) with
  | [] => exists e', __redisAsyncDisconnect sd behave ac e = Ok (∅, e') /\
      farewell ac (e_world e) k (rd_closed R) REDIS_OK e'
  | _ => __redisAsyncDisconnect sd behave ac e = Err AssertFailed
  end.
Proof.
  intros Hk Hd Hl Herr. unfold __redisAsyncDisconnect.
  set (ac1 := __redisAsyncCopyError ac). assert (E1 : ac_err ac1 = 0) by done. rewrite E1. change (0 =? 0) with true.
  cbn match. assert (Hk1 : conn_ok busy ac1 e R k).
  { destruct Hk as [[H1 [H2 H2'] H3 H4] H5 H6 H7 H8 H9 H10]. by split. }
  pose proof (shift_replies_spec _ _ _ (ao_queues _ _ _ _ (co_ok _ _ _ _ _ Hk1))) as Hs.
  destruct (a_pending (k_model k)) as [|cb rest]; [|by destruct Hs as (l & g & -> & _)].
  rewrite Hs. cbn [mbind result_bind]. rewrite c_assert_true by done. cbn [mbind result_bind].
  replace (ac_set_replies (ac_replies ac1) (ac_cbs ac1) ac1) with ac1 by (by destruct ac).
  assert (Hcl : k_closing k = true) by (unfold k_closing; by rewrite Hd).
  destruct (asyncFree_spec sd behave B Hbehave HB _ _ _ _ (conn_ending _ _ _ _ _ Hk1 Hcl Hl)) as (e' & -> & He).
  exists e'. split; [done|]. destruct (ended_farewell _ _ _ _ _ He (co_events _ _ _ _ _ Hk1)) as (st & Hfw & Hst & _).
  rewrite <- Hst by (by left). by apply (farewell_same ac ac1).
Qed.

(** A disconnection because of an error. *)
Lemma disconnect_error ac e k held :
  c_err (ac_c ac) <> 0 -> queues_hold ac (a_pending (k_model k)) (a_strays (k_model k)) ->
  sub_holds (ac_channels ac) (a_chan (k_model k)) -> sub_holds (ac_patterns ac) (a_pat (k_model k)) ->
  load (k_model k) <= room -> releases (ac_c ac) (e_heap e) held -> e_events e = k_events k ->
  ac_has ac REDIS_FREEING = false ->
  exists status e', __redisAsyncDisconnect sd behave ac e = Ok (∅, e') /\
    farewell ac (e_world e) k held status e' /\ (~ client_frees behave -> status = REDIS_ERR).
Proof.
  intros Herr [Hq Hq'] Hc Hp Hl Hrel Hev Hfr. unfold __redisAsyncDisconnect.
  set (ac1 := __redisAsyncCopyError ac). change (ac_err ac1) with (c_err (ac_c ac)).
  rewrite (proj2 (Z.eqb_neq _ 0)) by done. set (ac2 := ac_set_flags _ ac1).
  assert (Hflag : forall f, one_flag f -> REDIS_DISCONNECTING <> f -> ac_has ac2 f = ac_has ac f).
  { intros f Hf Hne. unfold ac2. rewrite has_set_add by eauto with mms.
    rewrite bool_decide_eq_false_2 by done. apply orb_false_r. }
  assert (He : ending ac2 e (k_model k) held).
  { split; [|by split|done|done|done|done]. unfold closing, ac2. rewrite has_set_add by eauto with mms.
    by rewrite bool_decide_eq_true_2, orb_true_r. }
  destruct (asyncFree_spec sd behave B Hbehave HB _ _ _ _ He) as (e' & -> & Hed).
  destruct (ended_farewell _ _ _ _ _ Hed Hev) as (st & Hfw & _ & Hst). exists st, e'. split; [done|]. split.
  - apply (farewell_same ac ac2); [done|done|by apply Hflag; [eauto with mms|]|done|done].
  - apply Hst; [done|]. rewrite <- Hfr. by apply Hflag; [eauto with mms|].
Qed.

(** ** One round *)

Definition with_reader (r : redisReader reply_heap) (ac : redisAsyncContext) : redisAsyncContext :=
  ac_set_c (set_reader (Some r) (ac_c ac)) ac.
Definition with_heap (h : reply_heap) (e : env) : env := e_set_world (e_world e) (e_set_heap h e).

Lemma reader_conn busy ac e R k r h' closed fs u :
  conn_ok busy ac e R k ->
  ctx_holds (Some defaultFunctions) (set_reader (Some r) (ac_c ac)) h' closed fs u (a_out (k_model k)) ->
  conn_ok busy (with_reader r ac) (with_heap h' e) (Reading closed fs u) k /\
  still ac (with_reader r ac) e (with_heap h' e).
Proof.
  intros [[H1 [H2 H2'] H3 H4] H5 H6 H7 H8 H9 H10] Hc. split; [|by split].
  by split.
Qed.

Lemma getReply_async ac e R k :
  conn_ok false ac e R k ->
  match parse (rd_frames R) (rd_in R) with
  | Waiting fs' u' => exists r h', getReply (ac_c ac) (e_heap e) (e_world e)
        = Ok (REDIS_OK, Null, set_reader (Some r) (ac_c ac), h', e_world e) /\
      conn_ok false (with_reader r ac) (with_heap h' e) (Reading (rd_closed R) fs' u') k
  | Finished x rest => exists r h' p, getReply (ac_c ac) (e_heap e) (e_world e)
        = Ok (REDIS_OK, p, set_reader (Some r) (ac_c ac), h', e_world e) /\ p <> Null /\
      conn_ok false (with_reader r ac) (with_heap h' e) (Reading ((p, x) :: rd_closed R) [] rest) k
  | Failed msg => exists c' h', getReply (ac_c ac) (e_heap e) (e_world e) = Ok (REDIS_ERR, Null, c', h', e_world e) /\
      c_err c' <> 0 /\ c_flags c' = ac_flags ac /\ c_fd c' = c_fd (ac_c ac) /\ releases c' h' (rd_closed R)
  | Dangerous => True
  end.
Proof.
  intros Hk. pose proof (ao_ctx _ _ _ _ (co_ok _ _ _ _ _ Hk)) as Hc. pose proof (co_block _ _ _ _ _ Hk) as Hblk.
  unfold ac_has, ac_flags in Hblk.
  pose proof (fromReader_spec defaultFunctions _ strerror _ _ _ _ _ _ (e_world e) Hc) as Hg. unfold redisGetReply.
  destruct (parse (rd_frames R) (rd_in R)) as [fs' u'|msg| |x rest] eqn:Ep; [..|done|].
  - destruct Hg as (r & h' & -> & Hc'). cbn [mbind result_bind]. change (REDIS_OK =? REDIS_ERR) with false. cbn match.
    cbn [c_flags set_reader]. rewrite Hblk, andb_false_r. exists r, h'. split; [done|]. by eapply reader_conn.
  - destruct (parse_message _ _ _ Ep) as [Hz Hm].
    destruct (Hg default_disposer Hz Hm) as (r & er & h' & -> & Her & Hb & Hnull). cbn [mbind result_bind].
    change (REDIS_ERR =? REDIS_ERR) with true. cbn match. eexists _, h'. split; [done|]. split; [done|]. split; [done|].
    split; [done|]. exists h'. cbn. unfold redisReplyReaderFree. by rewrite Hnull.
  - destruct Hg as (r & h' & p & -> & Hp & Hc'). cbn [mbind result_bind]. change (REDIS_OK =? REDIS_ERR) with false.
    cbn match. cbn [c_flags set_reader]. rewrite Hblk, andb_false_r. exists r, h', p. split; [done|]. split; [done|].
    by eapply reader_conn.
Qed.

Lemma conn_building busy ac e closed u k :
  conn_ok busy ac e (Reading closed [] u) k -> heap_building (e_heap e) closed [].
Proof.
  intros [[[_ _ Hr] _ _ _] _ _ _ _ _ _]. cbn in Hr. destruct (c_reader (ac_c ac)) as [r|]; [|apply Hr].
  exact (holding_building _ _ _ _ _ Hr).
Qed.

(** The reply is freed after its callback. *)
Lemma free_reply_spec busy ac e p x closed u k :
  conn_ok busy ac e (Reading ((p, x) :: closed) [] u) k ->
  exists e', free_reply p ac e = Ok e' /\ conn_ok busy ac e' (Reading closed [] u) k /\ e_world e' = e_world e.
Proof.
  intros Hk. pose proof (conn_building _ _ _ _ _ _ Hk) as Hb. pose proof (ch_fn _ _ _ _ _ _ _ (ao_ctx _ _ _ _ (co_ok _ _ _ _ _ Hk))) as Hfn.
  unfold free_reply. rewrite Hfn.
  destruct (@dispose_closed _ _ default_builder default_disposer (e_heap e) [] p x closed Hb) as (h' & -> & Hb').
  cbn [mbind result_bind]. eexists. split; [done|]. split; [|done].
  destruct Hk as [[[C1 C2 C3] Hq H3 H4] H5 H6 H7 H8 H9 H10]. split; try done. split; try done. split; try done.
  cbn [e_heap e_set_heap rd_closed rd_frames rd_in] in *. destruct (c_reader (ac_c ac)) as [r|].
  - destruct C3 as (D1 & D2 & D3 & [(D4 & _ & D5 & D6 & _)|(os & cur & Hos & D4 & D5 & _)]).
    + split; [done|]. split; [done|]. split; [done|]. by left.
    + split; [done|]. split; [done|]. split; [done|]. right. exists os, cur. by destruct os as [|[[? ?] ?] os].
  - destruct C3 as (_ & -> & _). done.
Qed.

Lemma dispatch_frame k x cb k1 :
  dispatch k x = Some (cb, k1) -> k_disc k1 = k_disc k /\ k_free k1 = k_free k /\ load (k_model k1) <= load (k_model k).
Proof.
  unfold dispatch. destruct (a_pending (k_model k)) as [|c rest]; [|by intros [= <- <-]].
  destruct (k_sub k); [|done]. cbn [negb].
  assert (Hst : match a_strays (k_model k) with
     | [] => None | c :: rest => Some (c, pop_stray rest k) end = Some (cb, k1) ->
     k_disc k1 = k_disc k /\ k_free k1 = k_free k /\ load (k_model k1) <= load (k_model k)).
  { destruct (a_strays (k_model k)) as [|c rest]; [done|]. by intros [= <- <-]. }
  destruct x as [| | | | |xs]; try exact Hst. destruct xs as [|[| |t| | |] [|[| |name| | |] more]]; try done.
  destruct (negb (zlen name <=? sds_max)); [done|]. destruct (_ !! name); [|done].
  destruct (says_unsubscribe t); [|by intros [= <- <-]].
  destruct more as [|[| | |n| |] more]; try done. intros [= <- <-]. cbn [k_disc k_free k_model].
  split; [done|]. split; [done|]. 
  assert (Hsz : forall m : subscriptions, (size (delete name m) <= size m)%nat).
  { intros m. rewrite map_size_delete. destruct (m !! name); cbn; lia. }
  pose proof (Hsz (a_chan (k_model k))). pose proof (Hsz (a_pat (k_model k))).
  unfold load. destruct (pvariant_of t); cbn [a_out a_chan a_pat]; lia.
Qed.

Lemma disconnects_code ac e R k :
  conn_ok false ac e R k ->
  ac_has ac REDIS_DISCONNECTING && (sdslen (c_obuf (ac_c ac)) =? 0) = disconnects k.
Proof.
  intros Hk. unfold disconnects. rewrite (co_disc _ _ _ _ _ Hk). f_equal.
  rewrite (sdslen_rep _ _ (ch_out _ _ _ _ _ _ _ (ao_ctx _ _ _ _ (co_ok _ _ _ _ _ Hk)))).
  destruct (a_out (k_model k)) as [|b l]; [done|]. rewrite zlen_cons, bool_decide_eq_false_2 by done.
  apply Z.eqb_neq. pose proof (zlen_nonneg l). lia.
Qed.

(** No whole reply: the loop returns, or a connection that only waits to disconnect ends. *)
Lemma process_waits fuel cb0 ac e R k fs' u' :
  conn_ok false ac e R k -> c_err (ac_c ac) = 0 -> load (k_model k) <= room ->
  parse (rd_frames R) (rd_in R) = Waiting fs' u' ->
  exists v, serving behave (ev_addWrite (ac_ev ac)) (rd_closed R) k (rd_frames R) (rd_in R) v /\
    verdict_ok ac e (rd_closed R) v (process_loop strerror sd behave (S fuel) cb0 ac e).
Proof.
  intros Hk Herr Hload Ep. cbn [process_loop]. pose proof (getReply_async ac e R k Hk) as Hg.
  rewrite Ep in Hg. destruct Hg as (r & h' & -> & Hk1). cbn [mbind result_bind]. fold (with_reader r ac) (with_heap h' e).
  change (negb (REDIS_OK =? REDIS_OK)) with false. cbn match. rewrite bool_decide_eq_true_2 by done.
  set (ac1 := with_reader r ac) in *. set (e1 := with_heap h' e) in *.
  assert (Hst : still ac ac1 e e1) by done.
  rewrite (disconnects_code _ _ _ _ Hk1). destruct (disconnects k) eqn:Hdisc.
  - assert (Hd' : k_disc k = true) by (unfold disconnects in Hdisc; by apply andb_true_iff in Hdisc as [? _]).
    pose proof (disconnect_clean _ _ _ _ _ Hk1 Hd' Hload Herr) as Hc.
    destruct (a_pending (k_model k)) as [|cb rest] eqn:Epend.
    + destruct Hc as (e' & E & Hfw). rewrite E. exists (Closed k). split; [by eapply serve_bye|].
      exists e'. split; [done|]. by apply (farewell_still ac ac1 e e1).
    + rewrite Hc. exists Aborted. split; [|done]. eapply serve_abort; [done|done|by rewrite Epend].
  - exists (Open k fs' u'). split; [by eapply serve_wait|]. by exists ac1, e1.
Qed.

(** A malformed reply disconnects with the error. *)
Lemma process_breaks fuel cb0 ac e R k msg :
  conn_ok false ac e R k -> k_free k = false -> load (k_model k) <= room ->
  parse (rd_frames R) (rd_in R) = Failed msg ->
  exists v, serving behave (ev_addWrite (ac_ev ac)) (rd_closed R) k (rd_frames R) (rd_in R) v /\
    verdict_ok ac e (rd_closed R) v (process_loop strerror sd behave (S fuel) cb0 ac e).
Proof.
  intros Hk Hfree Hload Ep. cbn [process_loop]. pose proof (getReply_async ac e R k Hk) as Hg.
  rewrite Ep in Hg. destruct Hg as (c' & h' & -> & Hce & Hcf & Hcfd & Hrel). cbn [mbind result_bind].
  change (negb (REDIS_ERR =? REDIS_OK)) with true. cbn match.
  assert (Hflag : forall f, ac_has (ac_set_c c' ac) f = ac_has ac f) by (intros f; unfold ac_has; by rewrite <- Hcf).
  destruct Hk as [[H1 [H2 H2'] H3 H4] H5 H6 H7 H8 H9 H10].
  destruct (disconnect_error (ac_set_c c' ac) (with_heap h' e) k (rd_closed R)) as (st & e' & E & Hfw & Hst);
    try done; [by rewrite Hflag, H8|].
  unfold with_heap in E. rewrite E. exists (Broken k msg). split; [by apply serve_bad|].
  exists st, e'. split; [done|]. split; [|done]. by apply (farewell_same ac (ac_set_c c' ac)).
Qed.

(** The loop's theorem for [fuel] rounds, the induction hypothesis of the next round. *)
Definition loop_serves (fuel : nat) : Prop := forall cb0 ac e R k,
  conn_ok false ac e R k -> k_free k = false -> c_err (ac_c ac) = 0 ->
  load (k_model k) + 2 * B * zlen (rd_in R) <= room -> (length (rd_in R) < fuel)%nat ->
  exists v, serving behave (ev_addWrite (ac_ev ac)) (rd_closed R) k (rd_frames R) (rd_in R) v /\
    verdict_ok ac e (rd_closed R) v (process_loop strerror sd behave fuel cb0 ac e).

(** After a reply's callback: the reply is freed, and the loop goes on, or frees the context it was told to free. *)
Lemma after_callback fuel ac ac1 e e1 R k p x rest cb k1 ac3 e3 k2 :
  loop_serves fuel -> c_err (ac_c ac) = 0 ->
  load (k_model k) + 2 * B * zlen (rd_in R) <= room -> (length (rd_in R) < S fuel)%nat ->
  parse (rd_frames R) (rd_in R) = Finished x rest -> dispatch k x = Some (cb, k1) ->
  still ac ac1 e e1 -> heap_building (e_heap e1) ((p, x) :: rd_closed R) [] ->
  conn_ok false ac3 e3 (Reading ((p, x) :: rd_closed R) [] rest) k2 ->
  still ac1 ac3 e1 e3 -> load (k_model k2) <= load (k_model k) + 2 * B ->
  calls_back behave (ev_addWrite (ac_ev ac)) (e_heap e1) cb p k1 k2 -> exists e4, free_reply p ac3 e3 = Ok e4 /\
  (k_free k2 = false -> exists v, serving behave (ev_addWrite (ac_ev ac)) (rd_closed R) k (rd_frames R) (rd_in R) v /\
     verdict_ok ac e (rd_closed R) v (process_loop strerror sd behave fuel (Some cb) ac3 e4)) /\
  (k_free k2 = true -> exists e5, __redisAsyncFree sd behave ac3 e4 = Ok (∅, e5) /\
     serving behave (ev_addWrite (ac_ev ac)) (rd_closed R) k (rd_frames R) (rd_in R) (Closed k2) /\
     farewell ac (e_world e) k2 (rd_closed R) REDIS_OK e5).
Proof.
  intros IH Herr Hl Hf Ep Edis Hst1 Hb1 Hk3 Hst3 Hl3 Hcb. pose proof (B_nonneg behave B Hbehave) as HB0.
  apply parse_shrinks in Ep as Hshort. assert (Hlen : zlen rest + 1 <= zlen (rd_in R)) by (unfold zlen; lia).
  pose proof (zlen_nonneg rest) as Hrest.
  assert (Hmul : 0 <= 2 * B * zlen rest /\ 2 * B * zlen rest + 2 * B <= 2 * B * zlen (rd_in R)) by nia.
  destruct (free_reply_spec _ _ _ _ _ _ _ _ Hk3) as (e4 & E4 & Hk4 & Hw4).
  exists e4. split; [done|]. pose proof (still_trans _ _ _ _ _ _ Hst1 Hst3) as Hst.
  assert (Hst4 : still ac ac3 e e4) by (destruct Hst; split; try done; by rewrite Hw4).
  split; intros Hfr2.
  - destruct (IH (Some cb) ac3 e4 _ k2 Hk4 Hfr2) as (v & Hv & Hok).
    + by rewrite (af_cerr _ _ (st_frame _ _ _ _ Hst4)).
    + cbn [rd_in]. lia.
    + cbn [rd_in]. lia.
    + exists v. rewrite (af_ev _ _ (st_frame _ _ _ _ Hst4)) in Hv. split; [by eapply serve_next|]. by eapply verdict_still.
  - destruct (free_now _ _ _ _ _ Hk4 Hfr2) as (e5 & E5 & Hfw); [lia|].
    exists e5. split; [done|]. split; [by eapply serve_freed|]. by eapply farewell_still.
Qed.

(** A whole reply goes to its callback. *)
Lemma process_next fuel cb0 ac e R k x rest :
  loop_serves fuel -> conn_ok false ac e R k -> k_free k = false -> c_err (ac_c ac) = 0 ->
  load (k_model k) + 2 * B * zlen (rd_in R) <= room -> (length (rd_in R) < S fuel)%nat ->
  load (k_model k) <= room -> parse (rd_frames R) (rd_in R) = Finished x rest ->
  exists v, serving behave (ev_addWrite (ac_ev ac)) (rd_closed R) k (rd_frames R) (rd_in R) v /\
    verdict_ok ac e (rd_closed R) v (process_loop strerror sd behave (S fuel) cb0 ac e).
Proof.
  intros IH Hk Hfree Herr Hl Hf Hload Ep. cbn [process_loop]. pose proof (B_nonneg behave B Hbehave) as HB0.
  pose proof (getReply_async ac e R k Hk) as Hg. rewrite Ep in Hg.
  destruct Hg as (r & h' & p & -> & Hp & Hk1). cbn [mbind result_bind]. fold (with_reader r ac) (with_heap h' e).
  change (negb (REDIS_OK =? REDIS_OK)) with false. cbn match. rewrite bool_decide_eq_false_2 by done.
  set (ac1 := with_reader r ac) in *. set (e1 := with_heap h' e) in *.
  assert (Hst1 : still ac ac1 e e1) by done.
  destruct (dispatch k x) as [[cb k1]|] eqn:Edis; [|by exists Unclaimed; split; [eapply serve_lost|]].
  pose proof (conn_building _ _ _ _ _ _ Hk1) as Hb1. destruct (dispatch_frame _ _ _ _ Edis) as (Ed1 & Ef1 & El1).
  destruct (callback_for_spec p x cb0 ac1 e1 _ k cb k1 _ Hk1 Hb1 Edis Hload) as (ac2 & -> & Hk2 & Hf2).
  cbn [mbind result_bind of_option].
  pose proof (after_callback fuel ac ac1 e e1 R k p x rest cb k1) as Hnext.
  destruct (cb_fn cb) as [fn|] eqn:Hfn.
  - destruct (run_callback_spec sd behave B Hbehave cb p ac2 e1 _ k1 Hk2) as (k2 & ac3 & e3 & Hcb & -> & Hk3 & Hf3 & Hl3 & _).
    { apply parse_shrinks in Ep. assert (1 <= zlen (rd_in R)) by (unfold zlen; lia). nia. }
    cbn [mbind result_bind]. pose proof (cf_frame _ _ _ _ Hf2) as Hff. rewrite (af_ev _ _ Hff) in Hcb.
    destruct (Hnext ac3 e3 k2) as (e4 & -> & Hgo & Hfreed); try done;
      [exact (still_trans _ _ _ _ _ _ (conn_still _ _ _ _ Hf2) (conn_still _ _ _ _ Hf3))|lia|].
    cbn [mbind result_bind]. rewrite (co_free _ _ _ _ _ Hk3). destruct (k_free k2); [|by apply Hgo].
    destruct Hfreed as (e5 & -> & Hsv & Hfw); [done|]. exists (Closed k2). split; [done|]. by exists e5.
  - destruct (Hnext ac2 e1 k1) as (e4 & -> & Hgo & _); try done; [by apply conn_still|lia|by apply calls_nothing|].
    cbn [mbind result_bind]. apply Hgo. by rewrite Ef1.
Qed.

Lemma process_loop_spec : forall fuel, loop_serves fuel.
Proof.
  induction fuel as [|fuel IH]; intros cb0 ac e R k Hk Hfree Herr Hl Hf; [lia|].
  pose proof (B_nonneg behave B Hbehave) as HB0. pose proof (zlen_nonneg (rd_in R)) as Hu.
  assert (Hload : load (k_model k) <= room) by nia.
  destruct (parse (rd_frames R) (rd_in R)) as [fs' u'|msg| |x rest] eqn:Ep.
  - by eapply process_waits.
  - by eapply process_breaks.
  - exists Unclaimed. split; [by apply serve_unsafe|done].
  - by eapply process_next.
Qed.

(** Enough fuel. *)
Lemma process_fuel_enough ac e R k : conn_ok false ac e R k -> (length (rd_in R) < process_fuel ac)%nat.
Proof.
  intros [[[_ _ Hr] _ _ _] _ _ _ _ _ _]. unfold process_fuel. destruct (c_reader (ac_c ac)) as [r|].
  - destruct (holding_unread _ _ _ _ _ _ Hr) as (u & (pre & _ & Hl & _ & _) & Hlen). rewrite Hl, zlen_app.
    unfold zlen. lia.
  - destruct Hr as (_ & -> & _). cbn. lia.
Qed.
End loop.
