(* ===== verification/AsyncRun.v ===== *)
(** * The asynchronous client end to end

    The properties of the asynchronous client: replies meet their callbacks in
    order, nothing that waits is lost, and what a connection does when the
    client, the server or the system ends it. *)

From S2P Require Import Prelude Digits Sds SdsText Resp Reply ReplyHeap Reader ReaderSpec ReaderRun Format.
From S2P Require Import FormatSpec Dict DictSpec DictRun Socket Net Context ContextSpec ContextRun Callbacks.
From S2P Require Import Async AsyncCommand AsyncSpec AsyncFree AsyncServe.

(** ** Replies in order *)

Definition is_call (ev : event) : bool := match ev with EvCallback _ _ _ _ => true | _ => false end.
Definition calls_of (evs : list event) : list event := List.filter is_call evs.

(** Each callback, where there is a function, is called with its own reply, which
    is complete and the client's to read. *)
Inductive answered (held : list (voidptr * reply)) : list redisCallback -> list reply -> list event -> Prop :=
| answered_nil : answered held [] [] []
| answered_none cb cbs x xs evs :
    cb_fn cb = None -> answered held cbs xs evs -> answered held (cb :: cbs) (x :: xs) evs
| answered_call cb cbs x xs evs fn p h :
    cb_fn cb = Some fn -> heap_building h ((p, x) :: held) [] -> answered held cbs xs evs ->
    answered held (cb :: cbs) (x :: xs) (EvCallback fn p (cb_privdata cb) h :: evs).

(** No function of the client ends the connection. *)
Definition calm (behave : list event -> list api_call) : Prop :=
  forall evs, (CallFree ∉ behave evs) /\ (CallDisconnect ∉ behave evs).

(** What happens to a connection while the client's function runs. *)
Record goes_on (k k' : conn) (calls : list event) : Prop := {
  go_disc : k_disc k' = k_disc k;
  go_free : k_free k' = k_free k;
  go_pending : exists new, a_pending (k_model k') = a_pending (k_model k) ++ new;
  go_events : exists evs, k_events k' = k_events k ++ evs /\ calls_of evs = calls
}.

Lemma calls_of_app l1 l2 : calls_of (l1 ++ l2) = calls_of l1 ++ calls_of l2.
Proof. apply List.filter_app. Qed.

Lemma goes_on_refl k : goes_on k k [].
Proof. split; try done; [exists []; by rewrite app_nil_r|exists []; by rewrite app_nil_r]. Qed.

Lemma goes_on_trans k1 k2 k3 c1 c2 : goes_on k1 k2 c1 -> goes_on k2 k3 c2 -> goes_on k1 k3 (c1 ++ c2).
Proof.
  intros [D1 F1 [n1 P1] (v1 & E1 & C1)] [D2 F2 [n2 P2] (v2 & E2 & C2)]. split.
  - by rewrite D2.
  - by rewrite F2.
  - exists (n1 ++ n2). by rewrite P2, P1, app_assoc.
  - exists (v1 ++ v2). by rewrite E2, E1, app_assoc, calls_of_app, C1, C2.
Qed.

Lemma command_goes_on w cb v vs k : goes_on k (k_command w cb v vs k) [].
Proof.
  unfold k_command. destruct (k_closing k); [apply goes_on_refl|]. split; try done.
  - unfold a_command; destruct (is_subscribe v vs), (pvariant_of (first_text v vs)), (is_unsubscribe v vs), (k_sub k);
      cbn; first [by exists [cb]|exists []; by rewrite app_nil_r].
  - eexists. split; [done|]. by destruct (_ && _), w.
Qed.

Lemma calls_go_on w calls k k' :
  does_all w calls k k' -> (CallFree ∉ calls) -> (CallDisconnect ∉ calls) -> goes_on k k' [].
Proof.
  induction 1 as [k|call calls k k1 k2 Hd Ha IH]; intros Hf Hdc; [apply goes_on_refl|].
  apply not_elem_of_cons in Hf as [Hf1 Hf], Hdc as [Hd1 Hdc].
  apply (goes_on_trans _ k1 _ [] []); [|by apply IH]. destruct Hd; [apply command_goes_on|by destruct Hd1|by destruct Hf1].
Qed.

Lemma calls_back_go_on behave w h cb p k k' :
  calm behave -> calls_back behave w h cb p k k' ->
  goes_on k k' (match cb_fn cb with Some fn => [EvCallback fn p (cb_privdata cb) h] | None => [] end).
Proof.
  intros Hc [k0 Hfn|k0 fn k1 Hfn Hd]; rewrite Hfn; [apply goes_on_refl|].
  set (ev := EvCallback _ _ _ _) in *. apply (goes_on_trans _ (k_emit ev k0) _ [ev] []).
  - split; try done; [exists []; by rewrite app_nil_r|]. by exists [ev].
  - destruct (Hc (k_events k0 ++ [ev])). by eapply calls_go_on.
Qed.

Lemma serving_in_order behave w held k fs u v :
  calm behave -> serving behave w held k fs u v -> k_disc k = false -> k_free k = false ->
  forall xs fs' u', stream fs u = Some (xs, fs', u') -> (length xs <= length (a_pending (k_model k)))%nat ->
  exists k' new evs, v = Open k' fs' u' /\ k_events k' = k_events k ++ evs /\
    answered held (take (length xs) (a_pending (k_model k))) xs (calls_of evs) /\
    a_pending (k_model k') = drop (length xs) (a_pending (k_model k)) ++ new.
Proof.
  intros Hc. induction 1 as [k fs u fs1 u1 Ep Hd|k fs u fs1 u1 Ep Hd _|k fs u fs1 u1 Ep Hd _|k fs u msg Ep|k fs u Ep
    |k fs u x rest Ep Hdis|k fs u x rest cb k1 p h k2 v Ep Hdis Hh Hcb Hfr Hs IH|k fs u x rest cb k1 p h k2 Ep Hdis Hh Hcb Hfr];
    intros Hdc Hfree xs fs' u' Hst Hlen; rewrite stream_unfold, Ep in Hst; try done.
  - injection Hst as <- <- <-. exists k, [], []. rewrite !app_nil_r. split; [done|]. split; [done|]. split; [constructor|done].
  - unfold disconnects in Hd. by rewrite Hdc in Hd.
  - unfold disconnects in Hd. by rewrite Hdc in Hd.
  - destruct (stream [] rest) as [[[ys fs2] u2]|]; [|done]. injection Hst as <- <- <-.
    unfold dispatch in Hdis. cbn in Hlen. by destruct (a_pending (k_model k)); [cbn in Hlen; lia|].
  - destruct (stream [] rest) as [[[ys fs2] u2]|] eqn:Es; [|done]. injection Hst as <- <- <-.
    unfold dispatch in Hdis. destruct (a_pending (k_model k)) as [|c pending] eqn:Epend; [cbn in Hlen; lia|].
    injection Hdis as -> <-. apply (calls_back_go_on behave) in Hcb as [G1 G2 [n1 G3] (ev1 & G4 & G5)]; [|done].
    cbn [with_model k_disc k_free k_model a_pending k_events] in *.
    destruct (IH ltac:(congruence) Hfr ys fs2 u2 eq_refl) as (k' & new & evs & -> & Eev & Hans & Epd).
    { rewrite G3, length_app. cbn in Hlen. lia. }
    exists k', (n1 ++ new), (ev1 ++ evs). split; [done|]. split; [by rewrite Eev, G4, app_assoc|].
    rewrite G3 in Hans, Epd. rewrite take_app_le in Hans by (cbn in Hlen; lia). rewrite drop_app_le in Epd by (cbn in Hlen; lia).
    split; [|cbn [length drop]; by rewrite Epd, app_assoc]. cbn [length take]. rewrite calls_of_app, G5.
    destruct (cb_fn cb) as [fn|] eqn:Hfn; [by apply answered_call|by apply answered_none].
  - destruct (stream [] rest) as [[[ys fs2] u2]|] eqn:Es; [|done]. unfold dispatch in Hdis.
    destruct (a_pending (k_model k)) as [|c pending] eqn:Epend; [injection Hst as <- <- <-; cbn in Hlen; lia|].
    injection Hdis as -> <-. apply (calls_back_go_on behave) in Hcb as [_ G2 _ _]; [|done]. cbn in G2. congruence.
Qed.

(** ** The read handler *)

Definition k_hook (present : bool) (ev : event) (k : conn) : conn := if present then k_emit ev k else k.

Lemma hook_conn busy ac e R k b ev : conn_ok busy ac e R k -> conn_ok busy ac (hook b ev e) R (k_hook b ev k).
Proof. destruct b; [apply emit_conn|done]. Qed.

Section handlers.
Context (sd : conversion -> Z -> Z -> list byte) (strerror : Z -> list byte).
Context (behave : list event -> list api_call) (B : Z) (Hbehave : well_behaved behave B) (HB : B <= sds_max).

Lemma handleRead_spec ac e R k a chunk script :
  conn_ok false ac e R k -> k_free k = false -> c_err (ac_c ac) = 0 ->
  delivers a chunk -> w_script (e_world e) = a :: script -> zlen (rd_in R) + zlen chunk + 1024 <= sds_max ->
  load (k_model k) + 2 * B * (zlen (rd_in R) + zlen chunk) <= room ->
  exists ac1 w1 v, went (e_world e) w1 script [SysRecv (c_fd (ac_c ac))] /\ still ac ac1 (e_set_world w1 e) (e_set_world w1 e) /\
    serving behave (ev_addWrite (ac_ev ac)) (rd_closed R) (k_hook (ev_addRead (ac_ev ac)) EvAddRead k) (rd_frames R)
      (rd_in R ++ chunk) v /\
    verdict_ok behave ac (e_set_world w1 e) (rd_closed R) v (redisAsyncHandleRead strerror sd behave ac e).
Proof.
  intros Hk Hfr Herr Hd Hs Hm Hl. unfold redisAsyncHandleRead.
  destruct (bufferRead_spec defaultFunctions _ strerror _ _ _ _ _ _ a chunk script (e_world e)
    (ao_ctx _ _ _ _ (co_ok _ _ _ _ _ Hk)) Hd Hs Hm) as (r & w1 & -> & Hc & Hw). cbn [mbind result_bind].
  change (REDIS_OK =? REDIS_ERR) with false. cbn match.
  set (ac1 := ac_set_c (set_reader (Some r) (ac_c ac)) ac). set (e1 := e_set_world w1 e).
  assert (Hk1 : conn_ok false ac1 e1 (Reading (rd_closed R) (rd_frames R) (rd_in R ++ chunk)) k).
  { destruct Hk as [[H1 [H2 H2'] H3 H4] H5 H6 H7 H8 H9 H10]. by split. }
  pose proof (hook_conn _ _ _ _ _ (ev_addRead (ac_ev ac1)) EvAddRead Hk1) as Hk2.
  unfold redisProcessCallbacks.
  destruct (process_loop_spec sd strerror behave B Hbehave HB (process_fuel ac1) None ac1 _ _ _ Hk2) as (v & Hv & Hok).
  - by destruct (ev_addRead (ac_ev ac1)).
  - exact Herr.
  - cbn [rd_in]. rewrite zlen_app. by destruct (ev_addRead (ac_ev ac1)).
  - by eapply process_fuel_enough.
  - exists ac1, w1, v. split; [done|]. assert (Hst : still ac ac1 e1 e1) by done. split; [done|]. split; [exact Hv|].
    assert (Hst2 : still ac ac1 e1 (hook (ev_addRead (ac_ev ac1)) EvAddRead e1)).
    { destruct Hst. split; try done. by destruct (ev_addRead (ac_ev ac1)). }
    by eapply verdict_still.
Qed.

(** The read that ends a connection: the error type and its text. *)
Inductive lost (a : answer) : Z -> list byte -> Prop :=
| lost_eof : a_ret a <> -1 -> a_data a = [] -> lost a REDIS_ERR_EOF (bytes "Server closed the connection")
| lost_io : a_ret a = -1 -> translated (i32 (a_err a)) <> EAGAIN ->
    lost a REDIS_ERR_IO (strerror (translated (i32 (a_err a)))).

Lemma bufferRead_lost (Hstr : texts_ok strerror) (c : redisContext reply_heap) a script w type text :
  w_script w = a :: script -> lost a type text ->
  exists e w1, redisBufferRead defaultFunctions strerror c w = Ok (REDIS_ERR, set_err type (Some e) c, w1) /\
    sds_rep e text /\ went w w1 script [SysRecv (c_fd c)].
Proof.
  intros Hs Hl. unfold redisBufferRead, recv, sys. rewrite Hs. cbn [mbind result_bind]. destruct Hl as [Hr Hd|Hr Hne].
  - rewrite (proj2 (Z.eqb_neq (a_ret a) (-1))), Hd by done. change (zlen [] <=? 2048) with true. cbn [mbind result_bind].
    change (zlen [] =? -1) with false. change (zlen [] =? 0) with true. cbn match. unfold set_eof.
    destruct (sdsnew_spec (bytes "Server closed the connection")) as (e & -> & He).
    + apply (bool_decide_unpack _). by vm_compute.
    + by vm_compute.
    + cbn [mbind result_bind __redisSetError]. eexists e, _. split; [done|]. by split.
  - rewrite Hr. change (-1 =? -1) with true. cbn match. cbn [mbind result_bind]. change (-1 =? -1) with true. cbn match.
    set (w0 := World _ _ _ _).
    assert (He : w_errno (socket_errno w0) = translated (i32 (a_err a)) /\ went w0 (socket_errno w0) script []).
    { unfold translated, socket_errno, w0. cbn [w_errno w_last set_errno].
      destruct (_ || _); (split; [done|]); split; try done; by rewrite app_nil_r. }
    destruct He as [He Hw]. unfold again. rewrite He, (proj2 (Z.eqb_neq _ _)) by done. cbn [andb].
    unfold __redisSetError. rewrite c_assert_true by done. cbn [mbind result_bind]. rewrite He.
    destruct (Hstr (translated (i32 (a_err a)))) as [H0 Hlen].
    destruct (sdsnew_spec (strerror (translated (i32 (a_err a)))) H0) as (e & -> & Hrep); [unfold sds_max; lia|].
    cbn [mbind result_bind]. eexists e, _. split; [done|]. split; [done|].
    destruct Hw as [Hw1 Hw2]. split; [done|]. by rewrite Hw2, app_nil_r.
Qed.

Lemma handleRead_lost (Hstr : texts_ok strerror) ac e R k a script type text :
  conn_ok false ac e R k -> k_free k = false -> load (k_model k) <= room ->
  w_script (e_world e) = a :: script -> lost a type text ->
  exists w1 status e', redisAsyncHandleRead strerror sd behave ac e = Ok (inr ∅, e') /\
    went (e_world e) w1 script [SysRecv (c_fd (ac_c ac))] /\ farewell ac w1 k (rd_closed R) status e' /\
    (~ client_frees behave -> status = REDIS_ERR).
Proof.
  intros Hk Hfr Hl Hs Hlost. unfold redisAsyncHandleRead.
  destruct (bufferRead_lost Hstr (ac_c ac) a script (e_world e) type text Hs Hlost) as (er & w1 & -> & _ & Hw).
  cbn [mbind result_bind]. change (REDIS_ERR =? REDIS_ERR) with true. cbn match.
  destruct Hk as [[H1 [H2 H2'] H3 H4] H5 H6 H7 H8 H9 H10].
  destruct (disconnect_error sd behave B Hbehave HB (ac_set_c (set_err type (Some er) (ac_c ac)) ac) (e_set_world w1 e) k
    (rd_closed R)) as (st & e' & -> & Hfw & Hst); try done.
  - by destruct Hlost.
  - by apply (holds_releases _ _ _ _ _ _ H1).
  - by rewrite <- Hfr.
  - exists w1, st, e'. split; [done|]. split; [done|]. split; [|done].
    by apply (farewell_same ac (ac_set_c (set_err type (Some er) (ac_c ac)) ac)).
Qed.

(** ** The write handler *)

(** [n] bytes of what waits are sent. *)
Definition k_sent (n : nat) (k : conn) : conn :=
  let A := k_model k in
  with_model (AModel (a_pending A) (a_strays A) (a_chan A) (a_pat A) (drop n (a_out A))) k.

(** The first write event is the end of connecting. *)
Definition k_connected (ac : redisAsyncContext) (k : conn) : conn :=
  if ac_has ac REDIS_CONNECTED then k
  else match ac_onConnect ac with Some fn => k_emit (EvConnect fn) k | None => k end.

Definition k_scheduled (ac : redisAsyncContext) (k : conn) : conn :=
  k_hook (ev_addRead (ac_ev ac)) EvAddRead
    (if bool_decide (a_out (k_model k) = []) then k_hook (ev_delWrite (ac_ev ac)) EvDelWrite k
     else k_hook (ev_addWrite (ac_ev ac)) EvAddWrite k).

Lemma connected_conn ac e R k :
  conn_ok false ac e R k -> ac_has ac REDIS_CONNECTED = false ->
  let ac' := ac_set_flags (add_flag (ac_flags ac) REDIS_CONNECTED) ac in
  let e' := match ac_onConnect ac with Some fn => e_emit (EvConnect fn) e | None => e end in
  conn_ok false ac' e' R (k_connected ac k) /\ ac_has ac' REDIS_CONNECTED = true.
Proof.
  intros Hk Hc ac' e'. unfold k_connected. rewrite Hc.
  assert (Hother : forall f, one_flag f -> REDIS_CONNECTED <> f -> ac_has ac' f = ac_has ac f).
  { intros f Hf Hne. unfold ac'. rewrite has_set_add by eauto with mms.
    rewrite bool_decide_eq_false_2 by done. apply orb_false_r. }
  split; [|unfold ac'; rewrite has_set_add by eauto with mms; by rewrite bool_decide_eq_true_2, orb_true_r].
  assert (Hk' : conn_ok false ac' e R k).
  { destruct Hk as [H1 H2 H3 H4 H5 H6 H7].
    split; try (by rewrite Hother by (done || eauto with mms)); [by apply async_ok_flags|done]. }
  unfold e'. destruct (ac_onConnect ac); [by apply emit_conn|done].
Qed.

(** Behind [redisBufferWrite], which has sent [n] bytes. *)
Lemma write_tail ac e R k n c w1 :
  redisBufferWrite strerror (ac_c ac) (e_world e) = Ok (REDIS_OK, bool_decide (drop n (a_out (k_model k)) = []), c, w1) ->
  c_flags c = c_flags (ac_c ac) -> conn_ok false (ac_set_c c ac) (e_set_world w1 e) R (k_sent n k) ->
  exists ac' e', redisAsyncHandleWrite strerror sd behave ac e = Ok (inl ac', e') /\
    conn_ok false ac' e' R (k_connected ac (k_scheduled ac (k_sent n k))) /\ ac_has ac' REDIS_CONNECTED = true /\
    e_world e' = w1 /\ ac_ev ac' = ac_ev ac.
Proof.
  intros Eb Hfl Hk1. unfold redisAsyncHandleWrite. rewrite Eb. cbn [mbind result_bind].
  change (REDIS_OK =? REDIS_ERR) with false. cbn match.
  set (ac1 := ac_set_c c ac) in *. set (e1 := e_set_world w1 e) in *.
  assert (Hk2 : conn_ok false ac1 (hook (ev_addRead (ac_ev ac1)) EvAddRead
    (if negb (bool_decide (drop n (a_out (k_model k)) = [])) then hook (ev_addWrite (ac_ev ac1)) EvAddWrite e1
     else hook (ev_delWrite (ac_ev ac1)) EvDelWrite e1)) R (k_scheduled ac (k_sent n k))).
  { unfold k_scheduled. apply hook_conn. cbn [k_sent with_model k_model a_out].
    destruct (bool_decide _); cbn [negb]; by apply hook_conn. }
  revert Hk2. set (e2 := hook _ _ _). intros Hk2.
  assert (Hw2 : e_world e2 = w1).
  { unfold e2. destruct (ev_addRead _), (bool_decide _), (ev_addWrite _), (ev_delWrite _); done. }
  clearbody e2.
  assert (Hh : ac_has ac1 REDIS_CONNECTED = ac_has ac REDIS_CONNECTED) by (unfold ac_has, ac_flags; by rewrite <- Hfl).
  rewrite Hh. destruct (ac_has ac REDIS_CONNECTED) eqn:Hc; cbn [negb].
  - exists ac1, e2. unfold k_connected. by rewrite Hc.
  - destruct (connected_conn ac1 e2 R _ Hk2 Hh) as [Hk3 Hc3].
    eexists _, _. split; [done|]. split; [revert Hk3; unfold k_connected; by rewrite Hc, Hh|]. split; [exact Hc3|]. split; [|done].
    subst w1. cbn. by destruct (ac_onConnect ac).
Qed.

(** What a write event sends: [n] bytes, as many as the system takes; none when
    nothing waits, or when the system takes none of them or has no room yet. *)
Inductive sends (ac : redisAsyncContext) (w : world) (out : list byte) : nat -> Prop :=
| sends_some a script :
    out <> [] -> 0 < a_ret a -> w_script w = a :: script -> sends ac w out (Z.to_nat (a_ret a))
| sends_nothing : out = [] -> sends ac w out 0
| sends_later a script :
    out <> [] -> a_ret a = -1 -> w_script w = a :: script -> translated (i32 (a_err a)) = EAGAIN -> sends ac w out 0
| sends_none a script :
    out <> [] -> a_ret a <> -1 -> a_ret a <= 0 -> w_script w = a :: script -> sends ac w out 0.

(** [errno] after a failed [send]. *)
Lemma socket_errno_translated w : w_errno (socket_errno w) = translated (w_last w).
Proof. unfold socket_errno, translated. cbn [w_last w_errno set_errno]. by destruct (_ || _). Qed.

Lemma again_conn busy ac e R k w : conn_ok busy ac e R k -> again (ac_c ac) w = (w_errno w =? EAGAIN).
Proof.
  intros Hk. unfold again. assert (Hblk : has_flag (c_flags (ac_c ac)) REDIS_BLOCK = false) by exact (co_block _ _ _ _ _ Hk).
  by rewrite Hblk, andb_true_r.
Qed.

Lemma conn_out busy ac e R k : conn_ok busy ac e R k -> sds_rep (c_obuf (ac_c ac)) (a_out (k_model k)).
Proof. intros Hk. exact (ch_out _ _ _ _ _ _ _ (ao_ctx _ _ _ _ (co_ok _ _ _ _ _ Hk))). Qed.

Lemma conn_obuf ac e R k n b w1 :
  conn_ok false ac e R k -> sds_rep b (drop n (a_out (k_model k))) ->
  conn_ok false (ac_set_c (set_obuf b (ac_c ac)) ac) (e_set_world w1 e) R (k_sent n k).
Proof. intros [[[C1 C2 C3] [H2 H2'] H3 H4] H5 H6 H7 H8 H9 H10] Hb. by split. Qed.

Lemma bufferWrite_sends ac e R k n :
  conn_ok false ac e R k -> sends ac (e_world e) (a_out (k_model k)) n ->
  exists c w1, redisBufferWrite strerror (ac_c ac) (e_world e) =
      Ok (REDIS_OK, bool_decide (drop n (a_out (k_model k)) = []), c, w1) /\ c_flags c = c_flags (ac_c ac) /\
    conn_ok false (ac_set_c c ac) (e_set_world w1 e) R (k_sent n k).
Proof.
  intros Hk Hs. pose proof (conn_out _ _ _ _ _ Hk) as Ho. destruct Hs as [a script Hne Ha Hs|Hnil|a script Hne Ha Hs Herr|a script Hne Hne1 Ha Hs].
  - destruct (bufferWrite_spec strerror _ _ a script (e_world e) Ho Hne Ha Hs) as (b & w1 & E & Hb & _).
    eexists _, w1. split; [exact E|]. split; [done|]. by apply conn_obuf.
  - rewrite Hnil in *. rewrite bufferWrite_empty by done. eexists _, _. split; [done|]. split; [done|].
    destruct Hk as [[[C1 C2 C3] [H2 H2'] H3 H4] H5 H6 H7 H8 H9 H10]. split; [|done..]. split; [|by split|done..].
    split; [done| |done]. cbn [k_sent with_model k_model a_out]. by rewrite drop_0.
  - unfold redisBufferWrite. rewrite (sdslen_rep _ _ Ho).
    assert (Hlen : 0 < zlen (a_out (k_model k))) by (destruct (a_out (k_model k)); [done|len_lia]).
    rewrite (proj2 (Z.ltb_lt _ _)) by done. unfold send. rewrite Hs, Ha. change (-1 =? -1) with true. cbv iota. cbn [mbind result_bind].
    change (-1 =? -1) with true. cbv iota.
    set (w1 := World _ _ _ _). rewrite (again_conn _ _ _ _ _ _ Hk), socket_errno_translated.
    change (w_last w1) with (i32 (a_err a)). rewrite Herr. change (EAGAIN =? EAGAIN) with true. cbn [mbind result_bind].
    eexists _, _. split.
    + rewrite drop_0, bool_decide_eq_false_2 by done. rewrite (sdslen_rep _ _ Ho). by rewrite (proj2 (Z.eqb_neq _ _)) by lia.
    + split; [done|]. destruct Hk as [[[C1 C2 C3] [H2 H2'] H3 H4] H5 H6 H7 H8 H9 H10]. split; [|done..]. split; [|by split|done..].
      split; [done| |done]. cbn [k_sent with_model k_model a_out]. by rewrite drop_0.
  - unfold redisBufferWrite. rewrite (sdslen_rep _ _ Ho).
    assert (Hlen : 0 < zlen (a_out (k_model k))) by (destruct (a_out (k_model k)); [done|len_lia]).
    rewrite (proj2 (Z.ltb_lt _ _)) by done. unfold send. rewrite Hs, (proj2 (Z.eqb_neq (a_ret a) (-1))) by done.
    set (buf := take _ _). assert (Hz : Z.max 0 (Z.min (a_ret a) (zlen buf)) = 0) by (pose proof (zlen_nonneg buf); lia).
    rewrite Hz. cbn [mbind result_bind]. change (0 =? -1) with false. change (0 <? 0) with false. cbv iota. cbn [mbind result_bind].
    eexists _, _. split.
    + rewrite drop_0, bool_decide_eq_false_2 by done. rewrite (sdslen_rep _ _ Ho). by rewrite (proj2 (Z.eqb_neq _ _)) by lia.
    + split; [done|]. destruct Hk as [[[C1 C2 C3] [H2 H2'] H3 H4] H5 H6 H7 H8 H9 H10]. split; [|done..]. split; [|by split|done..].
      split; [done| |done]. cbn [k_sent with_model k_model a_out]. by rewrite drop_0.
Qed.

(** A write that fails ends the connection. *)
Lemma bufferWrite_lost (Hstr : texts_ok strerror) ac e R k a script :
  conn_ok false ac e R k -> a_out (k_model k) <> [] -> w_script (e_world e) = a :: script ->
  a_ret a = -1 -> translated (i32 (a_err a)) <> EAGAIN ->
  exists er done_ w1, redisBufferWrite strerror (ac_c ac) (e_world e) =
    Ok (REDIS_ERR, done_, set_err REDIS_ERR_IO (Some er) (ac_c ac), w1).
Proof.
  intros Hk Hne Hs Ha Herr. unfold redisBufferWrite. rewrite (sdslen_rep _ _ (conn_out _ _ _ _ _ Hk)).
  assert (Hlen : 0 < zlen (a_out (k_model k))) by (destruct (a_out (k_model k)); [done|len_lia]).
  rewrite (proj2 (Z.ltb_lt _ _)) by done. unfold send. rewrite Hs, Ha. change (-1 =? -1) with true. cbv iota. cbn [mbind result_bind].
  change (-1 =? -1) with true. cbv iota. set (w1 := World _ _ _ _).
  rewrite (again_conn _ _ _ _ _ _ Hk), socket_errno_translated. change (w_last w1) with (i32 (a_err a)).
  rewrite (proj2 (Z.eqb_neq _ _)) by done. unfold __redisSetError. rewrite c_assert_true by done. cbn [mbind result_bind].
  destruct (Hstr (w_errno (socket_errno w1))) as [H0 Hl].
  destruct (sdsnew_spec (strerror (w_errno (socket_errno w1))) H0) as (er & -> & _); [unfold sds_max; lia|].
  cbn [mbind result_bind]. by eexists er, _, _.
Qed.

Lemma handleWrite_lost (Hstr : texts_ok strerror) ac e R k a script :
  conn_ok false ac e R k -> k_free k = false -> load (k_model k) <= room ->
  a_out (k_model k) <> [] -> w_script (e_world e) = a :: script ->
  a_ret a = -1 -> translated (i32 (a_err a)) <> EAGAIN ->
  exists w1 status e', redisAsyncHandleWrite strerror sd behave ac e = Ok (inr ∅, e') /\
    farewell ac w1 k (rd_closed R) status e'.
Proof.
  intros Hk Hfr Hl Hne Hs Ha Herr. unfold redisAsyncHandleWrite.
  destruct (bufferWrite_lost Hstr ac e R k a script Hk Hne Hs Ha Herr) as (er & dn & w1 & ->).
  cbn [mbind result_bind]. change (REDIS_ERR =? REDIS_ERR) with true. cbn match.
  destruct Hk as [[H1 [H2 H2'] H3 H4] H5 H6 H7 H8 H9 H10].
  destruct (disconnect_error sd behave B Hbehave HB (ac_set_c (set_err REDIS_ERR_IO (Some er) (ac_c ac)) ac) (e_set_world w1 e) k
    (rd_closed R)) as (st & e' & -> & Hfw & _); try done.
  - by apply (holds_releases _ _ _ _ _ _ H1).
  - by rewrite <- Hfr.
  - exists w1, st, e'. split; [done|]. by apply (farewell_same ac (ac_set_c (set_err REDIS_ERR_IO (Some er) (ac_c ac)) ac)).
Qed.

(** A write event, whatever there is to send. *)
Lemma handleWrite_sends ac e R k n :
  conn_ok false ac e R k -> sends ac (e_world e) (a_out (k_model k)) n ->
  exists ac' e', redisAsyncHandleWrite strerror sd behave ac e = Ok (inl ac', e') /\
    conn_ok false ac' e' R (k_connected ac (k_scheduled ac (k_sent n k))) /\ ac_has ac' REDIS_CONNECTED = true /\
    ac_ev ac' = ac_ev ac.
Proof.
  intros Hk Hs. destruct (bufferWrite_sends _ _ _ _ _ Hk Hs) as (c & w1 & Eb & Hfl & Hk1).
  destruct (write_tail _ _ _ _ _ _ _ Eb Hfl Hk1) as (ac' & e' & E & Hk' & Hc & _ & Hev). by exists ac', e'.
Qed.

Lemma handleWrite_spec ac e R k a script :
  conn_ok false ac e R k -> a_out (k_model k) <> [] -> 0 < a_ret a -> w_script (e_world e) = a :: script ->
  let n := Z.to_nat (a_ret a) in
  exists ac' e', redisAsyncHandleWrite strerror sd behave ac e = Ok (inl ac', e') /\
    conn_ok false ac' e' R (k_connected ac (k_scheduled ac (k_sent n k))) /\ ac_has ac' REDIS_CONNECTED = true /\
    went (e_world e) (e_world e') script [SysSend (c_fd (ac_c ac)) (take n (a_out (k_model k)))].
Proof.
  intros Hk Hne Ha Hs n.
  destruct (bufferWrite_spec strerror _ _ a script (e_world e) (conn_out _ _ _ _ _ Hk) Hne Ha Hs) as (b & w1 & Eb & Hb & Hw).
  destruct (write_tail _ _ _ _ _ _ _ Eb eq_refl (conn_obuf _ _ _ _ _ _ _ Hk Hb)) as (ac' & e' & E & Hk' & Hc & <- & _). by exists ac', e'.
Qed.
End handlers.

(** ** Issuing commands *)

Section commands.
Context (sd : conversion -> Z -> Z -> list byte).

(** The status of a command. *)
Definition command_status (k : conn) (v : list byte) (vs : list (list byte)) : Z :=
  if k_closing k || (is_unsubscribe v vs && negb (k_sub k)) then REDIS_ERR else REDIS_OK.

Lemma command_conn busy cb v vs ac e R k :
  conn_ok busy ac e R k -> fits v vs (k_model k) ->
  exists ac' e', __redisAsyncCommand (cb_fn cb) (cb_privdata cb) (Some <$> (command_bytes (v :: vs) ++ [x00]))
      (zlen (command_bytes (v :: vs))) ac e = Ok (command_status k v vs, ac', e') /\
    conn_ok busy ac' e' R (k_command (ev_addWrite (ac_ev ac)) cb v vs k) /\ conn_frame ac ac' e e'.
Proof.
  intros Hk Hfit. unfold command_status. destruct (k_closing k) eqn:Hcl; cbn [orb].
  - rewrite asyncCommand_closing by (by rewrite (co_disc _ _ _ _ _ Hk), (co_free _ _ _ _ _ Hk)).
    exists ac, e. unfold k_command. rewrite Hcl. split; [done|]. split; [done|apply conn_frame_refl].
  - pose proof Hcl as Hcl'. unfold k_closing in Hcl'. apply orb_false_iff in Hcl' as [Hd Hf].
    destruct (asyncCommand_spec (cb_fn cb) (cb_privdata cb) v vs ac e R (k_model k) (k_sub k))
      as (ac1 & e1 & -> & Hiss & Hev); [apply Hk|by rewrite (co_disc _ _ _ _ _ Hk)|
      by rewrite (co_free _ _ _ _ _ Hk)|apply Hk|done|].
    exists ac1, e1. split; [done|]. replace (RedisCallback _ _) with cb in Hiss by (by destruct cb). by eapply issued_conn.
Qed.

Lemma argv_conn busy fn priv argv argvlen v vs ac e R k :
  conn_ok busy ac e R k -> argument_values argvlen argv (v :: vs) -> fits v vs (k_model k) ->
  exists ac' e', redisAsyncCommandArgv fn priv argv argvlen ac e = Ok (command_status k v vs, ac', e') /\
    conn_ok busy ac' e' R (k_command (ev_addWrite (ac_ev ac)) (RedisCallback fn priv) v vs k) /\ conn_frame ac ac' e e'.
Proof.
  intros Hk Ha Hfit. unfold redisAsyncCommandArgv. destruct Hfit as [Hm Hfit]. pose proof (zlen_nonneg (a_out (k_model k))).
  rewrite (redisFormatCommandArgv_spec _ _ _ Ha) by (unfold sds_max in Hm; lia). cbn [mbind result_bind].
  by apply (command_conn busy (RedisCallback fn priv)).
Qed.

Lemma format_conn busy fn priv t v vs ac e R k :
  conn_ok busy ac e R k -> template_ok t -> template_values t = v :: vs -> fits v vs (k_model k) ->
  exists ac' e', redisAsyncCommand sd fn priv (template_format t) (template_args t) ac e = Ok (command_status k v vs, ac', e') /\
    conn_ok busy ac' e' R (k_command (ev_addWrite (ac_ev ac)) (RedisCallback fn priv) v vs k) /\ conn_frame ac ac' e e'.
Proof.
  intros Hk Ht Hv Hfit. unfold redisAsyncCommand, redisvAsyncCommand, template_format.
  pose proof Hfit as [Hm _]. pose proof (zlen_nonneg (a_out (k_model k))).
  pose proof (redisvFormatCommand_spec sd 0 t [] [] Ht) as Hf. cbn [replicate app] in Hf.
  rewrite app_nil_r, Hv in Hf. rewrite Hf by (unfold sds_max in Hm |- *; lia). cbn [mbind result_bind].
  by apply (command_conn busy (RedisCallback fn priv)).
Qed.
End commands.

(** ** A connection for the examples *)

Definition empty_model : amodel := AModel [] [] ∅ ∅ [].

Lemma initialize_conn c h w :
  ctx_holds (Some defaultFunctions) c h [] [] [] [] -> c_flags c = 0 ->
  conn_ok false (redisAsyncInitialize c) (Env h w [] [] []) (Reading [] [] []) (Conn empty_model false false false []).
Proof.
  intros [H1 H2 H3] Hf. split; try done; try (unfold ac_has, ac_flags; cbn; by rewrite Hf). split.
  - by split.
  - split; [|done]. exists [], []. split; [split; [done|done|apply NoDup_nil; done]|].
    split; [split; [done|done|apply NoDup_nil; done]|]. split; [by apply NoDup_nil|]. intros i. cbn. rewrite lookup_empty.
    split; [by intros [? ?]|by intros ?%not_elem_of_nil].
  - apply create_holds.
  - apply create_holds.
Qed.

Definition demo_env : env :=
  Env empty_heap (World [Answer 1 0 0 (encodes [RString (bytes "one"); RInteger 2] ++ bytes "$-")] [] 0 0) [] [] [].

Definition demo_async : redisAsyncContext :=
  ac_set_onDisconnect (Some 9%nat)
    (ac_set_ev (EventHooks true true true true true)
       (ac_set_onConnect (Some 8%nat) (redisAsyncInitialize (set_flags 0 demo_conn)))).

Definition demo_start : conn := Conn empty_model false false false [].

Lemma demo_async_ok : conn_ok false demo_async demo_env (Reading [] [] []) demo_start.
Proof.
  assert (Hc : ctx_holds (Some defaultFunctions) (set_flags 0 demo_conn) empty_heap [] [] [] []).
  { by eapply ctx_holds_eq; [..|exact demo_conn_holds]. }
  pose proof (initialize_conn (set_flags 0 demo_conn) empty_heap (e_world demo_env) Hc eq_refl) as H.
  destruct H as [[H1 [H2 H2'] H3 H4] H5 H6 H7 H8 H9 H10]. by split.
Qed.

(** The first function issues a command when it is called. *)
Definition demo_behave (evs : list event) : list api_call :=
  match last evs with
  | Some (EvCallback 1 _ _ _) => [CallArgv (Some 3%nat) Null [cstr (bytes "PING")] None]
  | _ => []
  end.

Lemma demo_argument t : (x00 ∉ t) -> argument_values None [cstr t] [t].
Proof. intros H0. apply List.Forall2_cons; [|apply List.Forall2_nil]. split; [done|by exists []]. Qed.

Lemma demo_well_behaved : well_behaved demo_behave 14.
Proof.
  intros evs. unfold demo_behave.
  assert (H0 : exists n, costs [] n /\ n <= 14) by (exists 0; split; [constructor|lia]).
  destruct (last evs) as [[| | | | | | |[|[|fn]] reply privdata seen]|]; try exact H0.
  exists (zlen (command_bytes [bytes "PING"]) + 0). split; [|by vm_compute].
  apply (costs_command _ (RedisCallback (Some 3%nat) Null)); [|constructor].
  apply issues_argv. apply demo_argument. apply (bool_decide_unpack _). by vm_compute.
Qed.

Lemma world_conn busy ac e R k w : conn_ok busy ac e R k -> conn_ok busy ac (e_set_world w e) R k.
Proof. intros [[H1 [H2 H2'] H3 H4] H5 H6 H7 H8 H9 H10]. by split. Qed.

Definition issue_word (fn : nat) (word key : string) (s : redisAsyncContext * env) : redisAsyncContext * env :=
  match redisAsyncCommandArgv (Some fn) Null [cstr (bytes word); cstr (bytes key)] None s.1 s.2 with
  | Ok (_, ac, e) => (ac, e)
  | Err _ => s
  end.

Lemma issue_word_ok fn word key s R k :
  conn_ok false s.1 s.2 R k -> (x00 ∉ bytes word) -> (x00 ∉ bytes key) -> fits (bytes word) [bytes key] (k_model k) ->
  ev_addWrite (ac_ev s.1) = true ->
  conn_ok false (issue_word fn word key s).1 (issue_word fn word key s).2 R
    (k_command true (RedisCallback (Some fn) Null) (bytes word) [bytes key] k) /\
  conn_frame s.1 (issue_word fn word key s).1 s.2 (issue_word fn word key s).2.
Proof.
  intros Hk Hw Hkey Hfit Hev. unfold issue_word.
  destruct (argv_conn false (Some fn) Null [cstr (bytes word); cstr (bytes key)] None (bytes word) [bytes key] s.1 s.2 R k Hk)
    as (ac' & e' & -> & Hk' & Hf); [|done|].
  - apply List.Forall2_cons; [split; [done|by exists []]|]. apply List.Forall2_cons; [split; [done|by exists []]|].
    apply List.Forall2_nil.
  - rewrite Hev in Hk'. done.
Qed.

Definition demo_two : redisAsyncContext * env := issue_word 2 "GET" "b" (issue_word 1 "GET" "a" (demo_async, demo_env)).
Definition demo_one_conn : conn := k_command true (RedisCallback (Some 1%nat) Null) (bytes "GET") [bytes "a"] demo_start.
Definition demo_two_conn : conn := k_command true (RedisCallback (Some 2%nat) Null) (bytes "GET") [bytes "b"] demo_one_conn.

Lemma demo_two_ok : conn_ok false demo_two.1 demo_two.2 (Reading [] [] []) demo_two_conn /\
  ev_addWrite (ac_ev demo_two.1) = true /\ c_err (ac_c demo_two.1) = 0 /\ w_script (e_world demo_two.2) = w_script (e_world demo_env).
Proof.
  destruct (issue_word_ok 1 "GET" "a" (demo_async, demo_env) _ _ demo_async_ok) as [H1 F1];
    [apply (bool_decide_unpack _); by vm_compute..|repeat split; by vm_compute|done|].
  destruct (issue_word_ok 2 "GET" "b" _ _ _ H1) as [H2 F2];
    [apply (bool_decide_unpack _); by vm_compute..|repeat split; by vm_compute|by rewrite (af_ev _ _ (cf_frame _ _ _ _ F1))|].
  pose proof (conn_frame_trans _ _ _ _ _ _ F1 F2) as [F _ E]. split; [exact H2|]. unfold demo_two.
  rewrite (af_ev _ _ F), (af_cerr _ _ F), (ef_world _ _ E). done.
Qed.

(** ** Properties *)

(** C11: when the socket is readable, the client reads once and serves what it has
    received as the relation [serving] says, whatever its functions do: each
    complete reply goes to the callback [dispatch] gives it, is visible to it and
    freed behind it; calls made from inside a callback take effect as issued, and
    an end asked for inside one comes after it; the connection waits, ends in
    order, breaks or aborts exactly as the relation tells. *)
Theorem async_serves sd strerror behave B ac e R k a chunk script :
  well_behaved behave B -> B <= sds_max ->
  conn_ok false ac e R k -> k_free k = false -> c_err (ac_c ac) = 0 ->
  delivers a chunk -> w_script (e_world e) = a :: script -> zlen (rd_in R) + zlen chunk + 1024 <= sds_max ->
  load (k_model k) + 2 * B * (zlen (rd_in R) + zlen chunk) <= room ->
  exists w1 v, went (e_world e) w1 script [SysRecv (c_fd (ac_c ac))] /\
    serving behave (ev_addWrite (ac_ev ac)) (rd_closed R) (k_hook (ev_addRead (ac_ev ac)) EvAddRead k) (rd_frames R)
      (rd_in R ++ chunk) v /\
    verdict_ok behave ac (e_set_world w1 e) (rd_closed R) v (redisAsyncHandleRead strerror sd behave ac e).
Proof.
  intros Hb HB Hk Hf Herr Hd Hs Hm Hl.
  destruct (handleRead_spec sd strerror behave B Hb HB ac e R k a chunk script Hk Hf Herr Hd Hs Hm Hl)
    as (ac1 & w1 & v & Hw & _ & Hv & Hok). by exists w1, v.
Qed.

Definition demo_chunk : list byte := encodes [RString (bytes "one"); RInteger 2] ++ bytes "$-".

Lemma demo_delivers : delivers (Answer 1 0 0 demo_chunk) demo_chunk.
Proof. split; [done|]. split; [done|]. vm_compute. split; congruence. Qed.

Lemma async_serves_witness :
  exists w1 v, went (e_world demo_two.2) w1 [] [SysRecv (c_fd (ac_c demo_two.1))] /\
    serving demo_behave (ev_addWrite (ac_ev demo_two.1)) [] (k_hook (ev_addRead (ac_ev demo_two.1)) EvAddRead demo_two_conn) []
      demo_chunk v /\
    verdict_ok demo_behave demo_two.1 (e_set_world w1 demo_two.2) [] v
      (redisAsyncHandleRead (fun _ => []) (fun _ _ _ => []) demo_behave demo_two.1 demo_two.2).
Proof.
  destruct demo_two_ok as (Hk & _ & Herr & Hs).
  refine (async_serves (fun _ _ _ => []) (fun _ => []) demo_behave 14 demo_two.1 demo_two.2 (Reading [] [] []) demo_two_conn
    (Answer 1 0 0 demo_chunk) demo_chunk [] demo_well_behaved _ Hk _ Herr demo_delivers Hs _ _).
  - unfold sds_max. lia.
  - reflexivity.
  - vm_compute. discriminate.
  - vm_compute. discriminate.
Defined.

(** C12: replies meet their callbacks in order: when no function of the client ends
    the connection, reading bytes that complete [xs] calls the callbacks of the
    first commands waiting, each once, each with the reply at its place; the
    others keep waiting, behind them what the callbacks issued, and a reply that
    is not complete waits for more. *)
Theorem async_replies_in_order sd strerror behave B ac e R k a chunk script xs fs' u' :
  well_behaved behave B -> B <= sds_max -> calm behave ->
  conn_ok false ac e R k -> k_disc k = false -> k_free k = false -> c_err (ac_c ac) = 0 ->
  delivers a chunk -> w_script (e_world e) = a :: script -> zlen (rd_in R) + zlen chunk + 1024 <= sds_max ->
  load (k_model k) + 2 * B * (zlen (rd_in R) + zlen chunk) <= room ->
  stream (rd_frames R) (rd_in R ++ chunk) = Some (xs, fs', u') ->
  (length xs <= length (a_pending (k_model k)))%nat ->
  exists ac' e' k' new evs, redisAsyncHandleRead strerror sd behave ac e = Ok (inl ac', e') /\
    conn_ok false ac' e' (Reading (rd_closed R) fs' u') k' /\
    a_pending (k_model k') = drop (length xs) (a_pending (k_model k)) ++ new /\
    e_events e' = e_events e ++ evs /\
    answered (rd_closed R) (take (length xs) (a_pending (k_model k))) xs (calls_of evs).
Proof.
  intros Hb HB Hc Hk Hd Hf Herr Hdel Hs Hm Hl Hst Hlen.
  destruct (handleRead_spec sd strerror behave B Hb HB ac e R k a chunk script Hk Hf Herr Hdel Hs Hm Hl)
    as (ac1 & w1 & v & _ & _ & Hv & Hok). set (k0 := k_hook _ _ k) in Hv.
  assert (E0 : k_disc k0 = k_disc k /\ k_free k0 = k_free k /\ k_model k0 = k_model k /\
    exists ev0, k_events k0 = k_events k ++ ev0 /\ calls_of ev0 = []).
  { unfold k0, k_hook. destruct (ev_addRead _); [by repeat split; exists [EvAddRead]|].
    repeat split. exists []. by rewrite app_nil_r. }
  destruct E0 as (E1 & E2 & E3 & ev0 & E4 & E5). rewrite <- E1 in Hd. rewrite <- E2 in Hf. rewrite <- E3 in Hlen |- *.
  destruct (serving_in_order _ _ _ _ _ _ _ Hc Hv Hd Hf _ _ _ Hst Hlen) as (k' & new & evs & -> & Hev & Hans & Hpd).
  destruct Hok as (ac' & e' & E & Hk' & _). exists ac', e', k', new, (ev0 ++ evs). split; [done|]. split; [done|].
  split; [done|]. split; [|by rewrite calls_of_app, E5].
  by rewrite (co_events _ _ _ _ _ Hk'), Hev, E4, (co_events _ _ _ _ _ Hk), app_assoc.
Qed.

Lemma demo_calm : calm demo_behave.
Proof.
  intros evs. unfold demo_behave.
  destruct (last evs) as [[| | | | | | |[|[|fn]] reply privdata seen]|]; split;
    (apply not_elem_of_nil || by intros [?|?%not_elem_of_nil]%elem_of_cons).
Qed.

Lemma async_replies_in_order_witness :
  exists ac' e' k' new evs, redisAsyncHandleRead (fun _ => []) (fun _ _ _ => []) demo_behave demo_two.1 demo_two.2 = Ok (inl ac', e') /\
    conn_ok false ac' e' (Reading [] [] (bytes "$-")) k' /\ a_pending (k_model k') = [] ++ new /\
    e_events e' = e_events demo_two.2 ++ evs /\
    answered [] [RedisCallback (Some 1%nat) Null; RedisCallback (Some 2%nat) Null] [RString (bytes "one"); RInteger 2]
      (calls_of evs).
Proof.
  destruct demo_two_ok as (Hk & _ & Herr & Hs).
  refine (async_replies_in_order (fun _ _ _ => []) (fun _ => []) demo_behave 14 demo_two.1 demo_two.2 (Reading [] [] [])
    demo_two_conn (Answer 1 0 0 demo_chunk) demo_chunk [] [RString (bytes "one"); RInteger 2] [] (bytes "$-")
    demo_well_behaved _ demo_calm Hk _ _ Herr demo_delivers
    Hs _ _ _ _).
  - unfold sds_max. lia.
  - reflexivity.
  - reflexivity.
  - vm_compute. discriminate.
  - vm_compute. discriminate.
  - vm_compute. reflexivity.
  - vm_compute. lia.
Defined.

(** C13: [redisAsyncFree] outside of a callback forgets no callback: every
    callback that still waits for a reply and every subscription is called exactly
    once, with NULL, the event library is told, then the client if it was connected
    (with [REDIS_OK]), and the socket is closed once.  No node of the callback
    queues is left, every entry of both tables of subscriptions is freed with its
    name and its callback, and of the replies only those the client holds are left.
    (It says nothing of names that are in no table: [subscribe_leaks].) *)
Theorem async_free_calls_all sd behave B ac e R k :
  well_behaved behave B -> B <= sds_max -> conn_ok false ac e R k -> load (k_model k) <= room ->
  exists e', redisAsyncFree sd behave ac e = Ok (inr ∅, e') /\
    farewell ac (e_world e) k (rd_closed R) REDIS_OK e'.
Proof.
  intros Hb HB Hk Hl. unfold redisAsyncFree.
  destruct (set_conn false ac e R k REDIS_FREEING (Conn (k_model k) (k_sub k) (k_disc k) true (k_events k)))
    as [Hk1 Hf1]; try done; [eauto with mms|by rewrite orb_false_r|by rewrite orb_true_r|].
  rewrite (co_busy _ _ _ _ _ Hk1). cbn [negb].
  destruct (free_now sd behave B Hb HB false _ _ _ _ Hk1) as (e' & -> & Hfw); [done|done|].
  exists e'. split; [done|]. destruct (farewell_still _ _ _ _ _ _ _ _ (conn_still _ _ _ _ Hf1) Hfw) as [H1 H2 H3 H4].
  by split.
Qed.

Lemma async_free_calls_all_witness :
  exists e', redisAsyncFree (fun _ _ _ => []) demo_behave demo_two.1 demo_two.2 = Ok (inr ∅, e') /\
    farewell demo_two.1 (e_world demo_two.2) demo_two_conn [] REDIS_OK e'.
Proof.
  destruct demo_two_ok as (Hk & _ & Herr & Hs).
  refine (async_free_calls_all (fun _ _ _ => []) demo_behave 14 demo_two.1 demo_two.2 (Reading [] [] []) demo_two_conn
    demo_well_behaved _ Hk _); vm_compute; discriminate.
Defined.

(** C14: issuing a command keeps the connection well-formed and does what its words
    say: the bytes of the command are queued for sending; its callback goes to the
    end of the queue, or in the table of channels or patterns for each name of a
    SUBSCRIBE; UNSUBSCRIBE on a connection that is not subscribed, and anything on
    a closing one, is refused and changes nothing. *)
Theorem async_command_queued sd busy fn priv t v vs ac e R k :
  conn_ok busy ac e R k -> template_ok t -> template_values t = v :: vs -> fits v vs (k_model k) ->
  exists ac' e', redisAsyncCommand sd fn priv (template_format t) (template_args t) ac e = Ok (command_status k v vs, ac', e') /\
    conn_ok busy ac' e' R (k_command (ev_addWrite (ac_ev ac)) (RedisCallback fn priv) v vs k) /\ conn_frame ac ac' e e'.
Proof. apply format_conn. Qed.

Definition demo_subscribe : template := [(map Lit (bytes "SUBSCRIBE"), 1%nat); ([Str (bytes "news")], 1%nat); ([Str (bytes "sport")], 0%nat)].

Lemma async_command_queued_witness :
  exists ac' e', redisAsyncCommand (fun _ _ _ => []) (Some 5%nat) Null (template_format demo_subscribe) (template_args demo_subscribe)
      demo_two.1 demo_two.2 = Ok (REDIS_OK, ac', e') /\
    conn_ok false ac' e' (Reading [] [] [])
      (k_command (ev_addWrite (ac_ev demo_two.1)) (RedisCallback (Some 5%nat) Null) (bytes "SUBSCRIBE")
         [bytes "news"; bytes "sport"] demo_two_conn) /\ conn_frame demo_two.1 ac' demo_two.2 e'.
Proof.
  destruct demo_two_ok as (Hk & _ & Herr & Hs).
  refine (async_command_queued (fun _ _ _ => []) false (Some 5%nat) Null demo_subscribe
    (bytes "SUBSCRIBE") [bytes "news"; bytes "sport"] _ _ _ _ Hk _ _ _).
  - apply (bool_decide_unpack _). by vm_compute.
  - reflexivity.
  - repeat split; vm_compute; congruence.
Defined.

(** When the socket is writable, the client sends from the front of what
    waits, keeps the rest, in order, and asks for another write event exactly when
    something is left; the first write event reports the connection, later ones
    do not. *)
Theorem async_writes sd strerror behave ac e R k a script :
  conn_ok false ac e R k -> a_out (k_model k) <> [] -> 0 < a_ret a -> w_script (e_world e) = a :: script ->
  let n := Z.to_nat (a_ret a) in
  exists ac' e', redisAsyncHandleWrite strerror sd behave ac e = Ok (inl ac', e') /\
    conn_ok false ac' e' R (k_connected ac (k_scheduled ac (k_sent n k))) /\ ac_has ac' REDIS_CONNECTED = true /\
    went (e_world e) (e_world e') script [SysSend (c_fd (ac_c ac)) (take n (a_out (k_model k)))].
Proof. apply handleWrite_spec. Qed.

Lemma async_writes_witness :
  exists ac' e', redisAsyncHandleWrite (fun _ => []) (fun _ _ _ => []) demo_behave demo_two.1
      (e_set_world (World [Answer 5 0 0 []] [] 0 0) demo_two.2) = Ok (inl ac', e') /\
    conn_ok false ac' e' (Reading [] [] []) (k_connected demo_two.1 (k_scheduled demo_two.1 (k_sent 5 demo_two_conn))) /\
    ac_has ac' REDIS_CONNECTED = true /\
    went (World [Answer 5 0 0 []] [] 0 0) (e_world e') [] [SysSend (c_fd (ac_c demo_two.1)) (take 5 (a_out (k_model demo_two_conn)))].
Proof.
  destruct demo_two_ok as (Hk & _ & Herr & Hs).
  assert (Hk' : conn_ok false demo_two.1 (e_set_world (World [Answer 5 0 0 []] [] 0 0) demo_two.2) (Reading [] [] []) demo_two_conn).
  { by apply world_conn. }
  refine (async_writes (fun _ _ _ => []) (fun _ => []) demo_behave _ _ _ _ (Answer 5 0 0 []) [] Hk' _ _ _).
  - vm_compute. discriminate.
  - reflexivity.
  - reflexivity.
Defined.

(** A connection that is lost, by the server closing it or an error of the
    system, ends at once: every callback waiting is called once with NULL and
    cannot issue commands any more, the socket is closed, nothing is left, and the
    client is told [REDIS_ERR] unless one of its functions freed the connection. *)
Theorem async_connection_lost sd strerror behave B ac e R k a script type text :
  well_behaved behave B -> B <= sds_max -> texts_ok strerror ->
  conn_ok false ac e R k -> k_free k = false -> load (k_model k) <= room ->
  w_script (e_world e) = a :: script -> lost strerror a type text ->
  exists w1 status e', redisAsyncHandleRead strerror sd behave ac e = Ok (inr ∅, e') /\
    went (e_world e) w1 script [SysRecv (c_fd (ac_c ac))] /\ farewell ac w1 k (rd_closed R) status e' /\
    (~ client_frees behave -> status = REDIS_ERR).
Proof. intros Hb HB Hstr. by apply (handleRead_lost sd strerror behave B). Qed.

Lemma async_connection_lost_witness :
  exists w1 status e', redisAsyncHandleRead (fun _ => bytes "error") (fun _ _ _ => []) demo_behave demo_two.1
      (e_set_world (World [Answer 0 0 0 []] [] 0 0) demo_two.2) = Ok (inr ∅, e') /\
    went (World [Answer 0 0 0 []] [] 0 0) w1 [] [SysRecv (c_fd (ac_c demo_two.1))] /\
    farewell demo_two.1 w1 demo_two_conn [] status e' /\ (~ client_frees demo_behave -> status = REDIS_ERR).
Proof.
  destruct demo_two_ok as (Hk & _ & Herr & Hs).
  assert (Hk' : conn_ok false demo_two.1 (e_set_world (World [Answer 0 0 0 []] [] 0 0) demo_two.2) (Reading [] [] []) demo_two_conn).
  { by apply world_conn. }
  refine (async_connection_lost (fun _ _ _ => []) (fun _ => bytes "error") demo_behave 14 _ _ _ _ (Answer 0 0 0 []) [] _ _
    demo_well_behaved _ _ Hk' _ _ _ _).
  - vm_compute. discriminate.
  - intros err. split; [apply (bool_decide_unpack _); by vm_compute|vm_compute; congruence].
  - reflexivity.
  - vm_compute. discriminate.
  - reflexivity.
  - by apply lost_eof.
Defined.

(** ** Faults of the code *)

Definition demo_world (a : answer) : world := World [a] [] 0 0.
Definition arrives (chunk : list byte) : world := demo_world (Answer 1 0 0 chunk).

Definition read_event (w : world) (s : redisAsyncContext * env) :=
  redisAsyncHandleRead (fun _ => []) (fun _ _ _ => []) demo_behave s.1 (e_set_world w s.2).

Definition demo_subscribed : redisAsyncContext * env := issue_word 5 "SUBSCRIBE" "news" (demo_async, demo_env).

Definition message (words : list string) : list byte := encode (RArray ((fun s => RString (bytes s)) <$> words)).

(** The first message on a channel without a callback uses a callback that was
    never written: [cb] in [redisProcessCallbacks] is not initialised. *)
Example unknown_channel : read_event (arrives (message ["message"; "sport"; "x"])) demo_subscribed = Err Undefined.
Proof. by vm_compute. Qed.

(** What a server answers to UNSUBSCRIBE without channels fails an assertion. *)
Example unsubscribe_nil :
  read_event (arrives (encode (RArray [RString (bytes "unsubscribe"); RNil; RInteger 0]))) demo_subscribed = Err AssertFailed.
Proof. by vm_compute. Qed.

(** A disconnection asked for while two commands wait, their bytes sent: the first
    reply alone fails the assertion of [__redisAsyncDisconnect]. *)
Definition demo_leaving : redisAsyncContext * env :=
  match redisAsyncHandleWrite (fun _ => []) (fun _ _ _ => []) demo_behave demo_two.1
          (e_set_world (demo_world (Answer 1000 0 0 [])) demo_two.2) with
  | Ok (inl ac, e) => match redisAsyncDisconnect (fun _ _ _ => []) demo_behave ac e with
                      | Ok (inl ac, e) => (ac, e)
                      | _ => demo_two
                      end
  | _ => demo_two
  end.

Example early_disconnect : read_event (arrives (encode (RString (bytes "one")))) demo_leaving = Err AssertFailed.
Proof. by vm_compute. Qed.

Definition keys_destroyed (l : list destroyed_callback) : list (list byte) :=
  omap (fun d => match d with KeyDestroyed k => Some k | _ => None end) l.

(** Subscribing twice to a channel: two names are allocated, the end of the
    connection frees one. *)
Example subscribe_leaks :
  let s := issue_word 6 "SUBSCRIBE" "news" demo_subscribed in
  e_names s.2 = [bytes "news"; bytes "news"] /\
  match redisAsyncFree (fun _ _ _ => []) demo_behave s.1 s.2 with
  | Ok (_, e) => keys_destroyed (e_destroyed e) = [bytes "news"]
  | Err _ => False
  end.
Proof. by vm_compute. Qed.
