(* ===== verification/Adapters.v ===== *)
(** * Between hiredis and an event loop (include/hiredis/adapters, src/redis/yyredis.cpp)

    A connection of the asynchronous client tells an adapter when it wants to
    read and write; the adapter starts and stops the watchers of an event
    library.  The adapter is the one of libevent, in its header and as the redis
    client has it; the library is a parameter, of which only starting, stopping
    and firing a watcher is used.  The headers for libev and ae are not modelled:
    they assign fields that [redisAsyncContext] does not have and do not compile. *)

From S2P Require Import Prelude Sds Resp Reply ReplyHeap Reader Format Socket Context ContextSpec Callbacks Async.
From S2P Require Import Net AsyncCommand.
From S2P Require Import FormatSpec ReaderSpec ContextRun AsyncSpec.
From S2P Require Import AsyncFree AsyncServe.
From S2P Require Import AsyncRun.

Inductive direction := Rd | Wr.

#[export] Instance direction_eq_dec : EqDecision direction.
Proof. solve_decision. Defined.

(** ** Event libraries *)

(** The watchers of one socket, one for each direction, with [event_add] and
    [event_del].  A watcher without [EV_PERSIST] is over when it has fired, one
    with it stays. *)
Class EventLib (L : Type) := {
  lib_start : direction -> L -> L;
  lib_stop : direction -> L -> L;
  lib_fire : direction -> L -> L;
  lib_pending : direction -> L -> bool;
  one_shot : bool;
  pending_start d d' l : lib_pending d' (lib_start d l) = bool_decide (d' = d) || lib_pending d' l;
  pending_stop d d' l : lib_pending d' (lib_stop d l) = negb (bool_decide (d' = d)) && lib_pending d' l;
  pending_fire d d' l : lib_pending d' (lib_fire d l) = negb (bool_decide (d' = d) && one_shot) && lib_pending d' l
}.

Section adapters.
Context {L : Type} `{!EventLib L}.

(** What the adapter allocates for a connection, [redisLibeventEvents]: its two
    watchers.  [at_freed]: it was freed. *)
Record attached := Attached { at_lib : L; at_freed : bool }.

Definition alive (a : attached) : result unit := if at_freed a then Err Undefined else Ok tt.

Definition with_lib (l : L) (a : attached) : attached := Attached l (at_freed a).

Definition redisLibeventAddRead (a : attached) : result attached := _ ← alive a; Ok (with_lib (lib_start Rd (at_lib a)) a).
Definition redisLibeventDelRead (a : attached) : result attached := _ ← alive a; Ok (with_lib (lib_stop Rd (at_lib a)) a).
Definition redisLibeventAddWrite (a : attached) : result attached := _ ← alive a; Ok (with_lib (lib_start Wr (at_lib a)) a).
Definition redisLibeventDelWrite (a : attached) : result attached := _ ← alive a; Ok (with_lib (lib_stop Wr (at_lib a)) a).
Definition redisLibeventCleanup (a : attached) : result attached :=
  _ ← alive a; Ok (Attached (lib_stop Wr (lib_stop Rd (at_lib a))) true).

(** The five functions an adapter registers. *)
Record hooks := Hooks {
  addRead : attached -> result attached;
  delRead : attached -> result attached;
  addWrite : attached -> result attached;
  delWrite : attached -> result attached;
  cleanup : attached -> result attached
}.

Definition libevent_hooks : hooks :=
  Hooks redisLibeventAddRead redisLibeventDelRead redisLibeventAddWrite redisLibeventDelWrite redisLibeventCleanup.

(** [redisLibeventAttach]; [l]: the library with the watchers of
    the socket made and not started.  Something attached is not replaced. *)
Definition attach (l : L) (data : option attached) : Z * option attached :=
  match data with
  | Some a => (REDIS_ERR, Some a)
  | None => (REDIS_OK, Some (Attached l false))
  end.

(** ** What the client is promised *)

Class Adapter (h : hooks) := {
  ad_ok : attached -> Prop;
  ad_attached l : (forall d, lib_pending d l = false) -> ad_ok (Attached l false);
  ad_addRead a : ad_ok a -> exists a', addRead h a = Ok a' /\ ad_ok a' /\
    forall d, lib_pending d (at_lib a') = bool_decide (d = Rd) || lib_pending d (at_lib a);
  ad_delRead a : ad_ok a -> exists a', delRead h a = Ok a' /\ ad_ok a' /\
    forall d, lib_pending d (at_lib a') = negb (bool_decide (d = Rd)) && lib_pending d (at_lib a);
  ad_addWrite a : ad_ok a -> exists a', addWrite h a = Ok a' /\ ad_ok a' /\
    forall d, lib_pending d (at_lib a') = bool_decide (d = Wr) || lib_pending d (at_lib a);
  ad_delWrite a : ad_ok a -> exists a', delWrite h a = Ok a' /\ ad_ok a' /\
    forall d, lib_pending d (at_lib a') = negb (bool_decide (d = Wr)) && lib_pending d (at_lib a);
  ad_cleanup a : ad_ok a -> exists a', cleanup h a = Ok a' /\ at_freed a' = true /\ forall d, lib_pending d (at_lib a') = false;
  ad_fire d a : ad_ok a -> ad_ok (with_lib (lib_fire d (at_lib a)) a)
}.

#[export] Instance libevent_adapter : Adapter libevent_hooks.
Proof.
  refine {| ad_ok a := at_freed a = false |}; [done|..]; intros.
  1-5: cbn; unfold redisLibeventAddRead, redisLibeventDelRead, redisLibeventAddWrite, redisLibeventDelWrite, redisLibeventCleanup, alive;
    rewrite H; cbn [mbind result_bind]; eexists; split; [done|]; split; [done|]; cbn.
  - intros d. by rewrite pending_start.
  - intros d. by rewrite pending_stop.
  - intros d. by rewrite pending_start.
  - intros d. by rewrite pending_stop.
  - intros []; by rewrite !pending_stop.
  - done.
Defined.

(** ** Playing what the client says *)

(** The functions a connection registered take the events it reports. *)
Definition on_hook (h : hooks) (ev : event) (a : attached) : result attached :=
  match ev with
  | EvAddRead => addRead h a | EvDelRead => delRead h a
  | EvAddWrite => addWrite h a | EvDelWrite => delWrite h a
  | EvCleanup => cleanup h a
  | _ => Ok a
  end.

Fixpoint on_hooks (h : hooks) (evs : list event) (a : attached) : result attached :=
  match evs with [] => Ok a | ev :: evs => a ← on_hook h ev a; on_hooks h evs a end.

(** The watchers the client wants after it has reported the events. *)
Definition wants (ev : event) (d : direction) (wanted : bool) : bool :=
  match ev, d with
  | EvAddRead, Rd | EvAddWrite, Wr => true
  | EvDelRead, Rd | EvDelWrite, Wr | EvCleanup, _ => false
  | _, _ => wanted
  end.
Definition wanted_after (evs : list event) (d : direction) (wanted : bool) : bool := foldl (fun b ev => wants ev d b) wanted evs.

Section client.
Context (h : hooks) `{!Adapter h}.

Lemma on_hook_spec ev a :
  ad_ok a -> ev <> EvCleanup -> exists a', on_hook h ev a = Ok a' /\ ad_ok a' /\
    forall d, lib_pending d (at_lib a') = wants ev d (lib_pending d (at_lib a)).
Proof.
  intros Ha Hev. destruct ev; cbn [on_hook]; try by exists a.
  - destruct (ad_addRead a Ha) as (a' & -> & H' & P). exists a'. split; [done|]. split; [done|]. intros []; by rewrite P.
  - destruct (ad_delRead a Ha) as (a' & -> & H' & P). exists a'. split; [done|]. split; [done|]. intros []; by rewrite P.
  - destruct (ad_addWrite a Ha) as (a' & -> & H' & P). exists a'. split; [done|]. split; [done|]. intros []; by rewrite P.
  - destruct (ad_delWrite a Ha) as (a' & -> & H' & P). exists a'. split; [done|]. split; [done|]. intros []; by rewrite P.
Qed.

Lemma on_hooks_spec evs : forall a,
  ad_ok a -> forallb (fun ev => match ev with EvCleanup => false | _ => true end) evs = true ->
  exists a', on_hooks h evs a = Ok a' /\ ad_ok a' /\
    forall d, lib_pending d (at_lib a') = wanted_after evs d (lib_pending d (at_lib a)).
Proof.
  induction evs as [|ev evs IH]; intros a Ha He; cbn [on_hooks]; [by exists a|]. cbn [forallb] in He. apply andb_true_iff in He as [He1 He].
  destruct (on_hook_spec ev a Ha) as (a1 & -> & H1 & P1); [by intros ->|]. cbn [mbind result_bind].
  destruct (IH a1 H1 He) as (a2 & -> & H2 & P2). exists a2. split; [done|]. split; [done|]. intros d. by rewrite P2, P1.
Qed.
End client.
End adapters.

Arguments attached L : clear implicits.
Arguments hooks L : clear implicits.

(** ** Libraries to try *)

(** Which watchers are started. *)
Definition watchers : Type := bool * bool.
Definition watch (d : direction) (b : bool) (l : watchers) : watchers := match d with Rd => (b, l.2) | Wr => (l.1, b) end.
Definition watched (d : direction) (l : watchers) : bool := match d with Rd => l.1 | Wr => l.2 end.

Definition simple_lib (once : bool) : EventLib watchers.
Proof.
  refine {| lib_start d := watch d true; lib_stop d := watch d false; lib_fire d l := if once then watch d false l else l;
    lib_pending := watched; one_shot := once |}; by intros [] [] []; destruct once.
Defined.

(** ** A connection with its adapter

    Whatever happens to the connection, the functions registered with it play the
    events that it reports. *)

Inductive happening :=
| Issue (fn : option nat) (privdata : voidptr) (fmt : list byte) (args : list va_word)
| Readable
| Writable.

Definition calm_event (ev : event) : bool :=
  match ev with EvDelRead | EvDelWrite | EvCleanup => false | _ => true end.

Definition add_event (d : direction) : event := match d with Rd => EvAddRead | Wr => EvAddWrite end.

Lemma calm_wanted evs d : forall b, forallb calm_event evs = true -> b = true \/ add_event d ∈ evs -> wanted_after evs d b = true.
Proof.
  induction evs as [|ev evs IH]; intros b Hc Hb; [by destruct Hb as [|?%elem_of_nil]|].
  cbn [forallb] in Hc. apply andb_true_iff in Hc as [Hev Hc]. cbn [wanted_after foldl]. fold (wanted_after evs d (wants ev d b)).
  apply IH; [done|]. destruct Hb as [->|[<-|Hin]%elem_of_cons]; [left; by destruct ev, d|left; by destruct d|by right].
Qed.

(** What serving does to the model of a connection: no watcher is stopped, and
    one is started for what is added to the output. *)
Definition adds (k k' : conn) : Prop :=
  exists evs, k_events k' = k_events k ++ evs /\ forallb calm_event evs = true /\
    (a_out (k_model k') = a_out (k_model k) \/ EvAddWrite ∈ evs).

Lemma adds_refl k : adds k k.
Proof. exists []. rewrite app_nil_r. auto. Qed.

Lemma adds_trans k1 k2 k3 : adds k1 k2 -> adds k2 k3 -> adds k1 k3.
Proof.
  intros (l1 & E1 & C1 & O1) (l2 & E2 & C2 & O2). exists (l1 ++ l2). rewrite E2, E1, forallb_app, C1, C2, app_assoc.
  split; [done|]. split; [done|]. rewrite elem_of_app. destruct O1, O2; auto. left. congruence.
Qed.

Lemma adds_same k k' : k_events k' = k_events k -> a_out (k_model k') = a_out (k_model k) -> adds k k'.
Proof. intros E O. exists []. rewrite app_nil_r. auto. Qed.

Lemma command_adds cb v vs k : adds k (k_command true cb v vs k).
Proof.
  unfold k_command. destruct (k_closing k); [apply adds_refl|]. eexists. cbn [k_events k_model]. split; [done|].
  destruct (is_unsubscribe v vs && negb (k_sub k)) eqn:E; (split; [done|]); [left|right; by left].
  apply andb_true_iff in E as [Eu Es]. apply negb_true_iff in Es. unfold a_command. rewrite Eu, Es.
  unfold is_unsubscribe in Eu. apply andb_true_iff in Eu as [Eu _]. apply negb_true_iff in Eu. by rewrite Eu.
Qed.

Lemma does_adds call k k' : does true call k k' -> adds k k'.
Proof. destruct 1; [apply command_adds|by apply adds_same..]. Qed.

Lemma does_all_adds calls k k' : does_all true calls k k' -> adds k k'.
Proof. induction 1 as [|call calls k k1 k2 H _ IH]; [apply adds_refl|]. eapply adds_trans; [by eapply does_adds|done]. Qed.

Lemma emit_adds ev k : calm_event ev = true -> adds k (k_emit ev k).
Proof. intros H. exists [ev]. cbn. rewrite H. auto. Qed.

Lemma calls_back_adds behave h cb p k k' : calls_back behave true h cb p k k' -> adds k k'.
Proof.
  destruct 1 as [|k fn k' _ H]; [apply adds_refl|]. eapply adds_trans; [|by eapply does_all_adds]. by apply emit_adds.
Qed.

Lemma dispatch_adds k x cb k1 : dispatch k x = Some (cb, k1) -> adds k k1.
Proof.
  unfold dispatch. destruct (a_pending (k_model k)) as [|c rest] eqn:Ep; [|intros [= _ <-]; by apply adds_same].
  destruct (negb (k_sub k)); [done|].
  assert (Hstray : match a_strays (k_model k) with
    | [] => None
    | cb :: rest => Some (cb, with_model (AModel [] rest (a_chan (k_model k)) (a_pat (k_model k)) (a_out (k_model k))) k)
    end = Some (cb, k1) -> adds k k1).
  { destruct (a_strays (k_model k)); [done|]. intros [= _ <-]. by apply adds_same. }
  destruct x as [| | | | |[|[] [|[] more]]]; try done.
  destruct (negb _); [done|]. destruct (_ !! _) as [cb'|]; [|done]. destruct (says_unsubscribe _); [|intros [= _ <-]; apply adds_refl].
  destruct more as [|[]]; try done. intros [= _ <-]. apply adds_same; cbn; [done|]. by destruct (pvariant_of _).
Qed.

Definition verdict_conn (v : verdict) : option conn :=
  match v with Open k _ _ | Closed k | Broken k _ => Some k | _ => None end.

Lemma serving_adds behave held k fs u v k' : serving behave true held k fs u v -> verdict_conn v = Some k' -> adds k k'.
Proof.
  induction 1 as [k fs u fs' u' Hp Hd|k fs u fs' u' Hp Hd Hn|k fs u fs' u' Hp Hd Hn|k fs u msg Hp|k fs u Hp|k fs u x rest Hp Hd|
    k fs u x rest cb k1 p h k2 v Hp Hd Hh Hc Hf _ IH|k fs u x rest cb k1 p h k2 Hp Hd Hh Hc Hf]; cbn [verdict_conn]; try done;
    try (intros [= <-]; apply adds_refl).
  - intros Hv. eapply adds_trans; [by eapply dispatch_adds|]. eapply adds_trans; [by eapply calls_back_adds|]. by apply IH.
  - intros [= <-]. eapply adds_trans; [by eapply dispatch_adds|by eapply calls_back_adds].
Qed.
Section watching.
Context {L : Type} `{!EventLib L} (h : hooks L) `{!Adapter h}.
Context (sd : conversion -> Z -> Z -> list byte) (strerror : Z -> list byte) (behave : list event -> list api_call).

(** A connection that is alive and its adapter; without the connection, what the
    adapter has left. *)
Definition attached_conn : Type := option (redisAsyncContext * env) * attached L.

(** The events reported since [e]. *)
Definition play (e e' : env) (a : attached L) : result (attached L) :=
  on_hooks h (drop (length (e_events e)) (e_events e')) a.

(** The library calls the handler of an event when its watcher has fired. *)
Definition fired (d : direction) (a : attached L) : attached L := with_lib (lib_fire d (at_lib a)) a.

Definition left_over (r : (redisAsyncContext + gmap nat cb_node) * env) : option (redisAsyncContext * env) :=
  match r with (inl ac, e) => Some (ac, e) | (inr _, _) => None end.

Definition happen (x : happening) (ac : redisAsyncContext) (e : env) (a : attached L) : result attached_conn :=
  match x with
  | Issue fn privdata fmt args =>
      '(_, ac, e') ← redisAsyncCommand sd fn privdata fmt args ac e; a ← play e e' a; Ok (Some (ac, e'), a)
  | Readable => r ← redisAsyncHandleRead strerror sd behave ac e; a ← play e (snd r) (fired Rd a); Ok (left_over r, a)
  | Writable => r ← redisAsyncHandleWrite strerror sd behave ac e; a ← play e (snd r) (fired Wr a); Ok (left_over r, a)
  end.

(** What waits to be sent has the writer started, and a connection that is
    connected the reader. *)
Record watched_conn (ac : redisAsyncContext) (k : conn) (a : attached L) : Prop := {
  wt_hooks : ac_ev ac = EventHooks true true true true true;
  wt_adapter : ad_ok a;
  wt_writer : a_out (k_model k) <> [] -> lib_pending Wr (at_lib a) = true;
  wt_reader : ac_has ac REDIS_CONNECTED = true -> lib_pending Rd (at_lib a) = true
}.

(** The adapter is freed, and no watcher can fire any more. *)
Definition released (a : attached L) : Prop := at_freed a = true /\ forall d, lib_pending d (at_lib a) = false.

Lemma play_eq e e' evs a : e_events e' = e_events e ++ evs -> play e e' a = on_hooks h evs a.
Proof. intros E. unfold play. by rewrite E, drop_app_length. Qed.

Lemma calm_spec evs a : forallb calm_event evs = true -> ad_ok a ->
  exists a', on_hooks h evs a = Ok a' /\ ad_ok a' /\
    forall d, lib_pending d (at_lib a) = true \/ add_event d ∈ evs -> lib_pending d (at_lib a') = true.
Proof.
  intros Hc Ha. destruct (on_hooks_spec h evs a Ha) as (a' & E & Ha' & P).
  { clear -Hc. induction evs as [|ev evs IH]; [done|]. cbn [forallb] in *. apply andb_true_iff in Hc as [H1 H2].
    rewrite (IH H2). by destruct ev. }
  exists a'. split; [done|]. split; [done|]. intros d Hd. rewrite P. by apply calm_wanted.
Qed.

Lemma on_hooks_app evs1 evs2 : forall a, on_hooks h (evs1 ++ evs2) a = (a ← on_hooks h evs1 a; on_hooks h evs2 a).
Proof.
  induction evs1 as [|ev evs1 IH]; intros a; cbn [app on_hooks mbind result_bind]; [done|].
  destruct (on_hook h ev a); cbn [mbind result_bind]; [apply IH|done].
Qed.

(** The events of an end. *)
Lemma goodbye_spec ac status evs a :
  ev_cleanup (ac_ev ac) = true -> forallb calm_event evs = true -> ad_ok a ->
  exists a', on_hooks h (evs ++ goodbye ac status) a = Ok a' /\ released a'.
Proof.
  intros Hc Hcalm Ha. destruct (calm_spec evs a Hcalm Ha) as (a1 & E1 & H1 & _). rewrite on_hooks_app, E1. cbn [mbind result_bind].
  unfold goodbye. rewrite Hc. cbn [app on_hooks on_hook]. destruct (ad_cleanup a1 H1) as (a2 & -> & Hf & P). cbn [mbind result_bind].
  exists a2. split; [|by split]. destruct (ac_onDisconnect ac); [|done]. by destruct (ac_has ac REDIS_CONNECTED).
Qed.

Lemma null_calls_calm heap cbs : forallb calm_event (null_calls heap cbs) = true.
Proof.
  induction cbs as [|cb cbs IH]; [done|]. unfold null_calls in *. cbn [omap list_omap]. destruct (cb_fn cb); cbn [fmap option_fmap option_map]; [|done].
  by cbn [forallb calm_event andb].
Qed.

Lemma farewell_released ac w k held status e' e0 evs a :
  ev_cleanup (ac_ev ac) = true -> farewell ac w k held status e' -> k_events k = e_events e0 ++ evs -> forallb calm_event evs = true ->
  ad_ok a -> exists a', play e0 e' a = Ok a' /\ released a'.
Proof.
  intros Hcl Hf Ek Hc Ha. destruct (fw_events _ _ _ _ _ _ Hf) as (hp & chans & pats & E & _ & _). rewrite Ek, <- app_assoc in E.
  rewrite (play_eq e0 e' _ a E). rewrite app_assoc. apply goodbye_spec; [done| |done]. by rewrite forallb_app, Hc, null_calls_calm.
Qed.

(** ** Each happening *)

Lemma issue_watched ac e R k a fn privdata t v vs :
  conn_ok false ac e R k -> watched_conn ac k a -> template_ok t -> template_values t = v :: vs -> fits v vs (k_model k) ->
  exists ac' e' k' a', happen (Issue fn privdata (template_format t) (template_args t)) ac e a = Ok (Some (ac', e'), a') /\
    conn_ok false ac' e' R k' /\ watched_conn ac' k' a'.
Proof.
  intros Hk [Hev Had Hw Hr] Ht Hv Hfit.
  destruct (format_conn sd false fn privdata t v vs ac e R k Hk Ht Hv Hfit) as (ac' & e' & E & Hk' & Fr).
  rewrite Hev in Hk'. cbn [ev_addWrite] in Hk'. set (k' := k_command _ _ _ _ _) in *.
  destruct (command_adds (RedisCallback fn privdata) v vs k) as (evs & Ee & Hc & Ho). fold k' in Ee, Ho.
  destruct (calm_spec evs a Hc Had) as (a' & Ea & Ha' & P). exists ac', e', k', a'. cbn [happen]. rewrite E. cbn [mbind result_bind].
  rewrite (play_eq e e' evs a); [|by rewrite (co_events _ _ _ _ _ Hk'), (co_events _ _ _ _ _ Hk)]. rewrite Ea. cbn [mbind result_bind].
  split; [done|]. split; [done|]. split; [by rewrite (af_ev _ _ (cf_frame _ _ _ _ Fr))|done| |].
  - intros Hne. apply P. destruct Ho as [Ho|Ho]; [left; apply Hw; by rewrite <- Ho|by right].
  - rewrite (cf_connected _ _ _ _ Fr). intros Hcon. apply P. left. by apply Hr.
Qed.

Lemma write_watched ac e R k a n :
  conn_ok false ac e R k -> watched_conn ac k a -> sends ac (e_world e) (a_out (k_model k)) n ->
  exists ac' e' k' a', happen Writable ac e a = Ok (Some (ac', e'), a') /\
    conn_ok false ac' e' R k' /\ watched_conn ac' k' a' /\ a_out (k_model k') = drop n (a_out (k_model k)).
Proof.
  intros Hk [Hev Had Hw Hr] Hs. destruct (handleWrite_sends sd strerror behave ac e R k n Hk Hs) as (ac' & e' & E & Hk' & Hcon & Hev').
  set (k' := k_connected _ _) in *. set (out := drop n (a_out (k_model k))) in *.
  set (evs := [if bool_decide (out = []) then EvDelWrite else EvAddWrite; EvAddRead] ++
    (if ac_has ac REDIS_CONNECTED then [] else match ac_onConnect ac with Some fn => [EvConnect fn] | None => [] end)).
  assert (Hevs : k_events k' = k_events k ++ evs /\ a_out (k_model k') = out).
  { unfold k', k_connected, k_scheduled, k_sent, evs. rewrite Hev. cbn [k_model with_model a_out ev_addRead ev_addWrite ev_delWrite k_hook].
    fold out. destruct (ac_has ac REDIS_CONNECTED), (ac_onConnect ac), (bool_decide _); cbn; by rewrite <- ?app_assoc. }
  destruct Hevs as [Ee Eo]. destruct (on_hooks_spec h evs (fired Wr a)) as (a' & Ea & Ha' & P).
  { by apply ad_fire. }
  { unfold evs. destruct (bool_decide _), (ac_has ac REDIS_CONNECTED), (ac_onConnect ac); done. }
  exists ac', e', k', a'. cbn [happen]. rewrite E. cbn [mbind result_bind snd left_over].
  rewrite (play_eq e e' evs); [|by rewrite (co_events _ _ _ _ _ Hk'), (co_events _ _ _ _ _ Hk)]. rewrite Ea. cbn [mbind result_bind].
  split; [done|]. split; [done|]. split; [|done]. split; [by rewrite Hev'|done| |]; rewrite P; unfold evs.
  - rewrite Eo. intros Hne. rewrite bool_decide_eq_false_2 by done. by destruct (ac_has ac REDIS_CONNECTED), (ac_onConnect ac).
  - intros _. by destruct (bool_decide _), (ac_has ac REDIS_CONNECTED), (ac_onConnect ac).
Qed.

(** What ends the connection by an error, and what it leaves. *)
Lemma lost_released ac e R k a w1 status e' a0 :
  conn_ok false ac e R k -> watched_conn ac k a -> farewell ac w1 k (rd_closed R) status e' ->
  ad_ok a0 -> exists a', play e e' a0 = Ok a' /\ released a'.
Proof.
  intros Hk [Hev _ _ _] Hf Ha. apply (farewell_released ac w1 k (rd_closed R) status e' e [] a0); [by rewrite Hev|done| |done|done].
  by rewrite app_nil_r, (co_events _ _ _ _ _ Hk).
Qed.

Lemma write_lost B ac e R k a ans script :
  well_behaved behave B -> B <= sds_max -> texts_ok strerror ->
  conn_ok false ac e R k -> watched_conn ac k a -> k_free k = false -> load (k_model k) <= room ->
  a_out (k_model k) <> [] -> w_script (e_world e) = ans :: script ->
  a_ret ans = -1 -> translated (i32 (a_err ans)) <> EAGAIN ->
  exists a', happen Writable ac e a = Ok (None, a') /\ released a'.
Proof.
  intros Hb HB Hstr Hk Hwc Hfr Hl Hne Hs Ha Herr.
  destruct (handleWrite_lost sd strerror behave B Hb HB Hstr ac e R k ans script Hk Hfr Hl Hne Hs Ha Herr)
    as (w1 & status & e' & E & Hf).
  destruct (lost_released ac e R k a w1 status e' (fired Wr a) Hk Hwc Hf) as (a' & Ea & Hr).
  { apply ad_fire, (wt_adapter _ _ _ Hwc). }
  exists a'. cbn [happen]. rewrite E. cbn [mbind result_bind snd left_over]. by rewrite Ea.
Qed.

Lemma read_lost B ac e R k a ans script type text :
  well_behaved behave B -> B <= sds_max -> texts_ok strerror ->
  conn_ok false ac e R k -> watched_conn ac k a -> k_free k = false -> load (k_model k) <= room ->
  w_script (e_world e) = ans :: script -> lost strerror ans type text ->
  exists a', happen Readable ac e a = Ok (None, a') /\ released a'.
Proof.
  intros Hb HB Hstr Hk Hwc Hfr Hl Hs Hlost.
  destruct (handleRead_lost sd strerror behave B Hb HB Hstr ac e R k ans script type text Hk Hfr Hl Hs Hlost)
    as (w1 & status & e' & E & _ & Hf & _).
  destruct (lost_released ac e R k a w1 status e' (fired Rd a) Hk Hwc Hf) as (a' & Ea & Hr).
  { apply ad_fire, (wt_adapter _ _ _ Hwc). }
  exists a'. cbn [happen]. rewrite E. cbn [mbind result_bind snd left_over]. by rewrite Ea.
Qed.

(** What a read event may come to. *)
Definition read_outcome (R : reading) (v : verdict) (r : result attached_conn) : Prop :=
  match v with
  | Open k' fs u => exists ac' e' a', r = Ok (Some (ac', e'), a') /\ conn_ok false ac' e' (Reading (rd_closed R) fs u) k' /\ watched_conn ac' k' a'
  | Closed _ | Broken _ _ => exists a', r = Ok (None, a') /\ released a'
  | Aborted => r = Err AssertFailed
  | Unclaimed => True
  end.

Lemma read_watched B ac e R k a ans chunk script :
  well_behaved behave B -> B <= sds_max ->
  conn_ok false ac e R k -> watched_conn ac k a -> k_free k = false -> c_err (ac_c ac) = 0 ->
  delivers ans chunk -> w_script (e_world e) = ans :: script -> zlen (rd_in R) + zlen chunk + 1024 <= sds_max ->
  load (k_model k) + 2 * B * (zlen (rd_in R) + zlen chunk) <= room ->
  exists v, serving behave true (rd_closed R) (k_emit EvAddRead k) (rd_frames R) (rd_in R ++ chunk) v /\
    read_outcome R v (happen Readable ac e a).
Proof.
  intros Hb HB Hk [Hev Had Hw Hr] Hf Herr Hd Hs Hm Hl.
  destruct (handleRead_spec sd strerror behave B Hb HB ac e R k ans chunk script Hk Hf Herr Hd Hs Hm Hl) as (ac1 & w1 & v & _ & _ & Hv & Hok).
  rewrite Hev in Hv. cbn [ev_addRead ev_addWrite k_hook] in Hv. exists v. split; [exact Hv|].
  assert (Hadds : forall k', verdict_conn v = Some k' -> exists evs, k_events k' = e_events e ++ evs /\ forallb calm_event evs = true /\
    EvAddRead ∈ evs /\ (a_out (k_model k') = a_out (k_model k) \/ EvAddWrite ∈ evs)).
  { intros k' Ek. destruct (serving_adds _ _ _ _ _ _ k' Hv Ek) as (evs & E1 & E2 & E3). exists (EvAddRead :: evs).
    rewrite E1. cbn [k_emit k_events k_model] in *. rewrite <- (co_events _ _ _ _ _ Hk), <- app_assoc. split; [done|]. split; [done|].
    split; [by left|]. destruct E3; [by left|right; by right]. }
  assert (Hfired : ad_ok (fired Rd a)) by by apply ad_fire.
  destruct v as [k' fs u|k'|k' msg| |]; cbn [verdict_conn verdict_ok read_outcome happen] in *; [| | | |done].
  - destruct (Hadds k' eq_refl) as (evs & Ee & Hc & Hrd & Ho). destruct Hok as (ac' & e' & E & Hk' & Hst).
    destruct (calm_spec evs (fired Rd a) Hc Hfired) as (a' & Ea & Ha' & P). exists ac', e', a'. rewrite E. cbn [mbind result_bind snd left_over].
    rewrite (play_eq e e' evs); [|by rewrite (co_events _ _ _ _ _ Hk')]. rewrite Ea. cbn [mbind result_bind]. split; [done|]. split; [done|].
    split; [by rewrite (af_ev _ _ (st_frame _ _ _ _ Hst))|done| |].
    + intros Hne. apply P. destruct Ho as [Ho|Ho]; [left|by right]. cbn [fired with_lib at_lib]. rewrite pending_fire, Hw by (by rewrite <- Ho). done.
    + intros _. apply P. by right.
  - destruct (Hadds k' eq_refl) as (evs & Ee & Hc & _). destruct Hok as (e' & E & Hfw).
    destruct (farewell_released ac _ k' _ _ e' e evs (fired Rd a) ltac:(by rewrite Hev) Hfw Ee Hc Hfired) as (a' & Ea & Hrel).
    exists a'. rewrite E. cbn [mbind result_bind snd left_over]. by rewrite Ea.
  - destruct (Hadds k' eq_refl) as (evs & Ee & Hc & _). destruct Hok as (status & e' & E & Hfw & _).
    destruct (farewell_released ac _ k' _ _ e' e evs (fired Rd a) ltac:(by rewrite Hev) Hfw Ee Hc Hfired) as (a' & Ea & Hrel).
    exists a'. rewrite E. cbn [mbind result_bind snd left_over]. by rewrite Ea.
  - by rewrite Hok.
Qed.
End watching.

(** C19: The watchers follow what the connection needs, with the adapter of
    libevent, whether the library keeps a watcher that has fired or not.  It is so
    when something is attached to a fresh connection: what waits to be sent has the
    writer started, and a connection that is connected the reader.  Whatever
    happens next - the client issues a command, the socket becomes writable and
    takes some of the bytes, or none yet, or becomes readable and brings bytes, with
    callbacks that do what they like - it is so afterwards, as long as the
    connection lives; when it ends, by the callbacks, by the server or by a read or
    a write that fails, the adapter is freed once, after no use, and no watcher is
    left that could fire.  Of a read event nothing is said when the bytes drive the
    reader out of the protocol or when a reply has no callback ([Unclaimed]), and a
    connection that is to disconnect while a callback still waits ends in the
    failing assertion of the client ([Aborted]). *)
Theorem watchers_follow {L} `{!EventLib L} sd strerror behave B :
  let h := libevent_hooks in
  well_behaved behave B -> B <= sds_max -> texts_ok strerror ->
  (forall ac k l, ac_ev ac = EventHooks true true true true true -> a_out (k_model k) = [] -> ac_has ac REDIS_CONNECTED = false ->
     (forall d, lib_pending d l = false) -> exists a, attach l None = (REDIS_OK, Some a) /\ watched_conn h ac k a) /\
  (forall ac e R k a, conn_ok false ac e R k -> watched_conn h ac k a ->
     (forall fn privdata t v vs, template_ok t -> template_values t = v :: vs -> fits v vs (k_model k) ->
        exists ac' e' k' a', happen h sd strerror behave (Issue fn privdata (template_format t) (template_args t)) ac e a =
            Ok (Some (ac', e'), a') /\ conn_ok false ac' e' R k' /\ watched_conn h ac' k' a') /\
     (forall n, sends ac (e_world e) (a_out (k_model k)) n ->
        exists ac' e' k' a', happen h sd strerror behave Writable ac e a = Ok (Some (ac', e'), a') /\
          conn_ok false ac' e' R k' /\ watched_conn h ac' k' a' /\ a_out (k_model k') = drop n (a_out (k_model k))) /\
     (forall ans script, k_free k = false -> load (k_model k) <= room ->
        a_out (k_model k) <> [] -> w_script (e_world e) = ans :: script ->
        a_ret ans = -1 -> translated (i32 (a_err ans)) <> EAGAIN ->
        exists a', happen h sd strerror behave Writable ac e a = Ok (None, a') /\ released a') /\
     (forall ans chunk script, k_free k = false -> c_err (ac_c ac) = 0 ->
        delivers ans chunk -> w_script (e_world e) = ans :: script -> zlen (rd_in R) + zlen chunk + 1024 <= sds_max ->
        load (k_model k) + 2 * B * (zlen (rd_in R) + zlen chunk) <= room ->
        exists v, serving behave true (rd_closed R) (k_emit EvAddRead k) (rd_frames R) (rd_in R ++ chunk) v /\
          read_outcome h R v (happen h sd strerror behave Readable ac e a)) /\
     (forall ans script type text, k_free k = false -> load (k_model k) <= room ->
        w_script (e_world e) = ans :: script -> lost strerror ans type text ->
        exists a', happen h sd strerror behave Readable ac e a = Ok (None, a') /\ released a')).
Proof.
  intros h Hb HB Hstr. split.
  - intros ac k l Hev Ho Hc Hl. eexists. split; [done|]. split; [done|by apply ad_attached|by rewrite Ho|by rewrite Hc].
  - intros ac e R k a Hk Hw. split; [|split; [|split; [|split]]].
    + intros fn privdata t v vs Ht Hv Hf. by eapply issue_watched.
    + intros n Hs. by apply write_watched.
    + intros ans script Hf Hl Hne Hs Ha Herr. by apply (write_lost h sd strerror behave B ac e R k a ans script).
    + intros ans chunk script Hf Herr Hd Hs Hm Hl. by eapply read_watched.
    + intros ans script type text Hf Hl Hs Hlost. by apply (read_lost h sd strerror behave B ac e R k a ans script type text).
Qed.

Definition demo_attached : attached watchers := Attached (false, true) false.
Definition demo_world (a : answer) : env := e_set_world (World [a] [] 0 0) demo_two.2.

(** A command on its way: five bytes are sent, the writer is started again; or
    the connection is reset. *)
Lemma watchers_follow_witness :
  let happens w := happen (EventLib0 := simple_lib true) (libevent_hooks (EventLib0 := simple_lib true)) (fun _ _ _ => [])
      (fun _ => bytes "error") demo_behave Writable demo_two.1 w demo_attached in
  (exists ac' e' k' a', happens (demo_world (Answer 5 0 0 [])) = Ok (Some (ac', e'), a') /\
    conn_ok false ac' e' (Reading [] [] []) k' /\ snd (at_lib a') = true) /\
  (exists a', happens (demo_world (Answer (-1) 10054 0 [])) = Ok (None, a') /\ at_lib a' = (false, false)).
Proof.
  intros happens. destruct demo_two_ok as (Hk & _ & _ & _).
  assert (Hk' : forall a, conn_ok false demo_two.1 (demo_world a) (Reading [] [] []) demo_two_conn) by (intros a; by apply world_conn).
  assert (Hw : watched_conn (EventLib0 := simple_lib true) (libevent_hooks (EventLib0 := simple_lib true)) demo_two.1 demo_two_conn demo_attached).
  { split; [reflexivity|reflexivity|done|by vm_compute]. }
  assert (Hs : sends demo_two.1 (e_world (demo_world (Answer 5 0 0 []))) (a_out (k_model demo_two_conn)) 5).
  { apply (sends_some _ _ _ (Answer 5 0 0 []) []); [vm_compute; discriminate|done|done]. }
  assert (Hstr : texts_ok (fun _ => bytes "error")).
  { intros err. split; [apply (bool_decide_unpack _); by vm_compute|vm_compute; congruence]. }
  destruct (@watchers_follow watchers (simple_lib true) (fun _ _ _ => []) (fun _ => bytes "error")
    demo_behave 14 demo_well_behaved ltac:(by vm_compute) Hstr) as (_ & Hall). split.
  - destruct (Hall _ _ _ _ _ (Hk' (Answer 5 0 0 [])) Hw) as (_ & Hsend & _).
    destruct (Hsend 5%nat Hs) as (ac' & e' & k' & a' & E & Hc & [_ _ Hwr Hrd] & Eo).
    exists ac', e', k', a'. split; [exact E|]. split; [exact Hc|]. apply Hwr. rewrite Eo. vm_compute. discriminate.
  - destruct (Hall _ _ _ _ _ (Hk' (Answer (-1) 10054 0 [])) Hw) as (_ & _ & Hlost & _). cbn [e_world demo_world e_set_world] in Hlost.
    destruct (Hlost (Answer (-1) 10054 0 []) []) as (a' & E & _ & P); [reflexivity|by vm_compute|vm_compute; discriminate|done|done|
      vm_compute; discriminate|].
    exists a'. split; [exact E|]. pose proof (P Rd) as P1. pose proof (P Wr) as P2. cbn in P1, P2. destruct (at_lib a'). by cbn in *; subst.
Defined.
