(* ===== verification/FastBuffer.v ===== *)
(** * The growing byte buffer (include/fastbuffer.h)

    A [fastbuffer] owns one heap block of [_bufsize] bytes, of which the first
    [_size] hold data; it is filled at the end and emptied at the front.  The
    representation predicate [holds] says which bytes a buffer holds, and the
    specifications say that the operations are those of a queue of bytes, as
    long as it holds less than 2^30 bytes ([size_t] has 32 bits). *)

From S2P Require Import Prelude.

(** ** The class *)

Record fastbuffer := Fb {
  fb_fd : Z;
  fb_size : Z;
  fb_bufsize : Z;
  fb_buf : option cells;
}.

#[global] Instance fastbuffer_eq_dec : EqDecision fastbuffer.
Proof. solve_decision. Defined.

Definition new_fastbuffer : fastbuffer := Fb 0 0 0 None.

(** The block, empty for [NULL]: only an access of zero bytes is in bounds. *)
Definition block (fb : fastbuffer) : cells := default [] (fb_buf fb).

(** [append (buf, bz)]; [realloc_ok] says which requests the C library can
    meet. *)
Definition append (realloc_ok : Z -> bool) (fb : fastbuffer) (buf : list byte) (bz : Z) :
    result (Z * fastbuffer) :=
  let grow := u32 (fb_bufsize fb - fb_size fb) <? bz in
  let sz := u32 (u32 (fb_bufsize fb + bz) * 2) in
  if grow && negb (realloc_ok sz) then
    Ok (0, Fb (fb_fd fb) (fb_size fb) (fb_bufsize fb) None)
  else
    let m := if grow then Some (realloc_cells (block fb) sz) else fb_buf fb in
    let bufsize := if grow then sz else fb_bufsize fb in
    m' ← memcpy (default [] m) (fb_size fb) buf bz;
    Ok (bz, Fb (fb_fd fb) (u32 (fb_size fb + bz)) bufsize ((fun _ => m') <$> m)).

Definition push_back (realloc_ok : Z -> bool) (fb : fastbuffer) (s : byte) :
    result (Z * fastbuffer) :=
  append realloc_ok fb [s] 1.

(** [read (buf, bz)]: the cells copied to [buf], none when it is [NULL]. *)
Definition read (buf : bool) (fb : fastbuffer) (bz : Z) : result (Z * cells * fastbuffer) :=
  let dz := if fb_size fb <? bz then fb_size fb else bz in
  let out := if buf then take (Z.to_nat dz) (block fb) else [] in
  m ← memmove (block fb) 0 dz (fb_size fb - dz);
  Ok (dz, out, Fb (fb_fd fb) (fb_size fb - dz) (fb_bufsize fb) ((fun _ => m) <$> fb_buf fb)).

Definition clear (fb : fastbuffer) : fastbuffer :=
  Fb (fb_fd fb) 0 (fb_bufsize fb) (fb_buf fb).

(** The first [n] bytes behind a pointer, as a callee that is given the pointer
    and the length reads them. *)
Fixpoint load (n : nat) (m : cells) : result (list byte) :=
  match n, m with
  | O, _ => Ok []
  | S n, Some b :: m => bs ← load n m; Ok (b :: bs)
  | S _, _ => Err Undefined
  end.

Definition contents (fb : fastbuffer) : result (list byte) :=
  load (Z.to_nat (fb_size fb)) (block fb).

(** The constructor from another buffer. *)
Definition copy_fastbuffer (realloc_ok : Z -> bool) (ot : fastbuffer) : result fastbuffer :=
  bs ← contents ot;
  '(_, fb) ← append realloc_ok new_fastbuffer bs (fb_size ot);
  Ok (Fb (fb_fd ot) (fb_size fb) (fb_bufsize fb) (fb_buf fb)).

(** The users of the buffer ignore the result of [append]; they are modelled
    with a C library that does not run out of memory. *)
Definition plenty (_ : Z) : bool := true.

Definition put (fb : fastbuffer) (bs : list byte) : result fastbuffer :=
  '(_, fb) ← append plenty fb bs (zlen bs); Ok fb.

Definition drop_front (fb : fastbuffer) (n : Z) : result fastbuffer :=
  '(_, _, fb) ← read false fb n; Ok fb.

(** ** What a buffer holds *)

Definition holds (fb : fastbuffer) (v : list byte) : Prop :=
  fb_size fb = zlen v /\ zlen v <= fb_bufsize fb < 2 ^ 32 /\
  zlen (block fb) = fb_bufsize fb /\ exists rest, block fb = (Some <$> v) ++ rest.

Lemma new_holds : holds new_fastbuffer [].
Proof. repeat split; try done. by exists []. Qed.

Lemma clear_holds fb v : holds fb v -> holds (clear fb) [].
Proof.
  intros (E & H & L & rest & Eb). repeat split; [cbn; len_lia|cbn; lia|done|].
  by exists (block fb).
Qed.

Lemma load_app v rest : load (length v) ((Some <$> v) ++ rest) = Ok v.
Proof.
  induction v as [|b v IH]; [by destruct rest|].
  change (load (length (b :: v)) ((Some <$> b :: v) ++ rest)) with
    (bs ← load (length v) ((Some <$> v) ++ rest); Ok (b :: bs)).
  by rewrite IH.
Qed.

Lemma contents_holds fb v : holds fb v -> contents fb = Ok v.
Proof.
  intros (E & _ & _ & rest & Eb). unfold contents.
  rewrite E, Eb, to_nat_zlen. apply load_app.
Qed.

Lemma holds_inj fb v w : holds fb v -> holds fb w -> v = w.
Proof.
  intros H1%contents_holds H2%contents_holds. congruence.
Qed.

(** ** The operations *)

Lemma take_memcpy (v bs : list byte) (m : cells) rest :
  m = (Some <$> v) ++ rest -> zlen bs <= zlen rest ->
  memcpy m (zlen v) bs (zlen bs) =
    Ok ((Some <$> v ++ bs) ++ drop (length bs) rest).
Proof.
  intros -> H. pose proof (zlen_nonneg bs). pose proof (zlen_nonneg v).
  rewrite memcpy_ok; [|lia|done|len_lia].
  rewrite !to_nat_zlen, fmap_app, <- app_assoc.
  rewrite take_app_le, take_ge by (rewrite ?length_fmap; lia).
  do 3 f_equal.
  - by rewrite firstn_all.
  - rewrite <- drop_drop. f_equal.
    rewrite drop_app_ge by (rewrite length_fmap; lia). by rewrite length_fmap, Nat.sub_diag.
Qed.

Lemma realloc_holds (m : cells) v rest sz :
  m = (Some <$> v) ++ rest -> zlen m <= sz ->
  exists rest', realloc_cells m sz = (Some <$> v) ++ rest' /\ zlen rest' = sz - zlen v.
Proof.
  intros -> H. exists (rest ++ fresh_cells (sz - zlen ((Some <$> v) ++ rest))). split.
  - unfold realloc_cells. rewrite take_ge by len_lia. by rewrite app_assoc.
  - len_lia.
Qed.

(** A buffer whose contents stay below 2^30 bytes takes every [append] the C
    library can meet. *)
Lemma fb_append_spec ok fb v bs :
  holds fb v -> (forall sz, ok sz = true) -> zlen v + zlen bs < 2 ^ 30 ->
  exists fb', append ok fb bs (zlen bs) = Ok (zlen bs, fb') /\
    holds fb' (v ++ bs) /\ fb_fd fb' = fb_fd fb.
Proof.
  intros (E & H & L & rest & Eb) Hok Hb.
  pose proof (zlen_nonneg bs). pose proof (zlen_nonneg v).
  assert (Ld : zlen (block fb) = zlen v + zlen rest) by (rewrite Eb; len_lia).
  unfold append. rewrite Hok, andb_false_r, E.
  rewrite (u32_small (fb_bufsize fb - zlen v)), (u32_small (zlen v + zlen bs)) by lia.
  destruct (Z.ltb_spec (fb_bufsize fb - zlen v) (zlen bs)) as [Hg|Hg].
  - rewrite (u32_small (fb_bufsize fb + zlen bs)) by lia.
    set (sz := (fb_bufsize fb + zlen bs) * 2).
    rewrite (u32_small sz) by (subst sz; lia). unfold default, from_option, id.
    destruct (realloc_holds (block fb) v rest sz) as (rest' & -> & Hr); [done|subst sz; lia|].
    rewrite (take_memcpy v bs _ rest' eq_refl) by (subst sz; lia). cbn.
    eexists; split; [reflexivity|]. split; [|done].
    repeat split; unfold block; cbn; [len_lia|subst sz; len_lia..| ].
    by exists (drop (length bs) rest').
  - fold (block fb). rewrite (take_memcpy v bs _ rest Eb) by lia. cbn.
    eexists; split; [reflexivity|]. split; [|done].
    destruct (fb_buf fb) eqn:Ef; unfold block in *; rewrite ?Ef in *; cbn in *.
    + repeat split; unfold block; cbn; [len_lia..| ].
      by exists (drop (length bs) rest).
    + destruct v; [|discriminate]. assert (Eb' : zlen bs = 0) by len_lia.
      destruct bs; [|len_lia]. repeat split; unfold block; cbn; [len_lia..| ]. by exists [].
Qed.

Lemma put_spec fb v bs :
  holds fb v -> zlen v + zlen bs < 2 ^ 30 ->
  exists fb', put fb bs = Ok fb' /\ holds fb' (v ++ bs) /\ fb_fd fb' = fb_fd fb.
Proof.
  intros H Hb. destruct (fb_append_spec plenty fb v bs H) as (fb' & E & H'); [done|done|].
  unfold put. rewrite E. cbn. by exists fb'.
Qed.

Lemma read_spec buf fb v n :
  holds fb v -> 0 <= n ->
  exists fb', read buf fb n =
      Ok (Z.min n (zlen v), if buf then Some <$> take (Z.to_nat n) v else [], fb') /\
    holds fb' (drop (Z.to_nat n) v) /\ fb_fd fb' = fb_fd fb.
Proof.
  intros (E & H & L & rest & Eb) Hn. unfold read. rewrite E.
  replace (if zlen v <? n then zlen v else n) with (Z.min n (zlen v)) by (destruct (Z.ltb_spec (zlen v) n); lia).
  set (dz := Z.min n (zlen v)). assert (Hd : 0 <= dz <= zlen v) by (subst dz; len_lia).
  assert (Et : take (Z.to_nat dz) v = take (Z.to_nat n) v).
  { subst dz. destruct (Z.min_spec n (zlen v)) as [[_ ->]|[? ->]]; [done|].
    rewrite !take_ge by len_lia. done. }
  assert (Ed : drop (Z.to_nat dz) v = drop (Z.to_nat n) v).
  { subst dz. destruct (Z.min_spec n (zlen v)) as [[_ ->]|[? ->]]; [done|].
    rewrite !drop_ge by len_lia. done. }
  assert (Hs : take (Z.to_nat (zlen v - dz)) (drop (Z.to_nat dz) (block fb)) =
    Some <$> drop (Z.to_nat n) v).
  { rewrite Eb, drop_app_le by len_lia. rewrite take_app_le by len_lia.
    rewrite take_ge by len_lia. by rewrite <- fmap_drop, Ed. }
  unfold memmove.
  rewrite (proj2 (Z.leb_le 0 dz)), (proj2 (Z.leb_le 0 (zlen v - dz))),
    (proj2 (Z.leb_le (dz + (zlen v - dz)) (zlen (block fb)))) by lia. cbn [andb].
  rewrite Hs, blit_ok by (rewrite ?zlen_fmap; len_lia). cbn [mbind result_bind].
  eexists; split; [|split].
  - repeat f_equal. destruct buf; [|done]. rewrite Eb, take_app_le by len_lia.
    by rewrite <- fmap_take, Et.
  - cbn [Z.to_nat take app Nat.add]. assert (L' := L).
    repeat split; cbn; [rewrite <- Ed; len_lia|len_lia|lia| |].
    + unfold block in *. cbn. destruct (fb_buf fb); cbn in *; [|lia]. len_lia.
    + unfold block in *. cbn. destruct (fb_buf fb); cbn in *.
      * rewrite length_fmap. eexists. reflexivity.
      * destruct v; [|done]. rewrite drop_nil. by exists [].
  - done.
Qed.

Lemma drop_front_spec fb v n :
  holds fb v -> 0 <= n ->
  exists fb', drop_front fb n = Ok fb' /\ holds fb' (drop (Z.to_nat n) v) /\
    fb_fd fb' = fb_fd fb.
Proof.
  intros H Hn. destruct (read_spec false fb v n H Hn) as (fb' & E & H').
  unfold drop_front. rewrite E. by exists fb'.
Qed.

Lemma copy_spec ok fb v :
  holds fb v -> (forall sz, ok sz = true) -> zlen v < 2 ^ 30 ->
  exists fb', copy_fastbuffer ok fb = Ok fb' /\ holds fb' v /\ fb_fd fb' = fb_fd fb.
Proof.
  intros H Hok Hb. unfold copy_fastbuffer. rewrite (contents_holds _ _ H). cbn [mbind result_bind].
  replace (fb_size fb) with (zlen v) by (by destruct H as [-> _]).
  destruct (fb_append_spec ok new_fastbuffer [] v new_holds Hok) as (fb' & -> & H' & _); [by rewrite zlen_nil|].
  cbn. eexists; split; [reflexivity|]. done.
Qed.

Lemma holds_fd fb v fd :
  holds fb v -> holds (Fb fd (fb_size fb) (fb_bufsize fb) (fb_buf fb)) v.
Proof. done. Qed.

(** When the library has no memory the buffer forgets its block and keeps its
    sizes: the next write goes through a null pointer. *)
Lemma append_no_memory fb v bs :
  holds fb v -> fb_bufsize fb - zlen v < zlen bs < 2 ^ 32 -> v <> [] ->
  exists fb', append (fun _ => false) fb bs (zlen bs) = Ok (0, fb') /\
    fb_size fb' = zlen v /\ contents fb' = Err Undefined.
Proof.
  intros (E & H & L & rest & Eb) Hb Hv. pose proof (zlen_nonneg v). unfold append.
  rewrite E, (u32_small (fb_bufsize fb - zlen v)) by lia.
  rewrite (proj2 (Z.ltb_lt _ _)) by lia. cbn.
  eexists; split; [done|]. split; [done|].
  unfold contents. cbn. rewrite to_nat_zlen. by destruct v.
Qed.

(** At 2^31 bytes the new size of the block overflows and the copy leaves it. *)
Lemma append_overflow ok fb v bs :
  holds fb v -> (forall sz, ok sz = true) -> fb_bufsize fb = 2 ^ 31 -> zlen v = 2 ^ 31 ->
  0 < zlen bs < 2 ^ 30 -> append ok fb bs (zlen bs) = Err Undefined.
Proof.
  intros (E & H & L & rest & Eb) Hok Eb2 Ev Hb. unfold append.
  rewrite Hok, andb_false_r, E, Eb2, Ev.
  rewrite (u32_small (2 ^ 31 - 2 ^ 31)) by lia. rewrite (proj2 (Z.ltb_lt _ _)) by lia.
  rewrite (u32_small (2 ^ 31 + zlen bs)) by lia.
  assert (Es : u32 ((2 ^ 31 + zlen bs) * 2) = 2 * zlen bs).
  { unfold wrapU. replace ((2 ^ 31 + zlen bs) * 2) with (2 * zlen bs + 1 * 2 ^ 32) by lia.
    rewrite Z.mod_add by lia. apply Z.mod_small. lia. }
  rewrite Es. unfold memcpy, default, from_option, id.
  assert (Hl : zlen (realloc_cells (block fb) (2 * zlen bs)) = 2 * zlen bs).
  { unfold realloc_cells. len_lia. }
  destruct (_ && _); [|done]. unfold blit. rewrite Hl.
  rewrite zlen_fmap, to_nat_zlen, firstn_all.
  destruct (Z.leb_spec (2 ^ 31 + zlen bs) (2 * zlen bs)); [lia|]. by rewrite andb_false_r.
Qed.

(** ** Sequences of operations *)

Inductive fb_op :=
| Append (bs : list byte)
| PushBack (b : byte)
| ReadOut (n : Z)
| Clear.

Definition fb_step (op : fb_op) (fb : fastbuffer) : result (cells * fastbuffer) :=
  match op with
  | Append bs => '(_, fb) ← append plenty fb bs (zlen bs); Ok ([], fb)
  | PushBack b => '(_, fb) ← push_back plenty fb b; Ok ([], fb)
  | ReadOut n => '(_, out, fb) ← read true fb n; Ok (out, fb)
  | Clear => Ok ([], clear fb)
  end.

Fixpoint fb_run (ops : list fb_op) (fb : fastbuffer) : result (cells * fastbuffer) :=
  match ops with
  | [] => Ok ([], fb)
  | op :: ops =>
      '(out, fb) ← fb_step op fb;
      '(outs, fb) ← fb_run ops fb;
      Ok (out ++ outs, fb)
  end.

(** The queue of bytes the buffer implements, its output and the greatest
    length it reaches. *)
Definition queue_step (op : fb_op) (q : list byte) : list byte * list byte :=
  match op with
  | Append bs => ([], q ++ bs)
  | PushBack b => ([], q ++ [b])
  | ReadOut n => (take (Z.to_nat n) q, drop (Z.to_nat n) q)
  | Clear => ([], [])
  end.

Fixpoint queue_run (ops : list fb_op) (q : list byte) : list byte * list byte :=
  match ops with
  | [] => ([], q)
  | op :: ops =>
      let '(out, q) := queue_step op q in
      let '(outs, q) := queue_run ops q in
      (out ++ outs, q)
  end.

Fixpoint queue_fits (ops : list fb_op) (q : list byte) : Prop :=
  zlen q < 2 ^ 30 /\
  match ops with
  | [] => True
  | op :: ops =>
      match op with ReadOut n => 0 <= n | _ => True end /\
      queue_fits ops (snd (queue_step op q))
  end.

Lemma fb_step_spec op fb v :
  holds fb v -> queue_fits [op] v ->
  exists fb', fb_step op fb = Ok (Some <$> fst (queue_step op v), fb') /\
    holds fb' (snd (queue_step op v)).
Proof.
  intros H (_ & Hop & Hs & _). destruct op as [bs|b|n|]; cbn in *.
  - destruct (fb_append_spec plenty fb v bs H) as (fb' & -> & H' & _); [done|len_lia|].
    cbn. by exists fb'.
  - destruct (fb_append_spec plenty fb v [b] H) as (fb' & E & H' & _); [done|len_lia|].
    unfold push_back. change 1 with (zlen [b]). rewrite E. cbn. by exists fb'.
  - destruct (read_spec true fb v n H Hop) as (fb' & -> & H' & _). cbn. by exists fb'.
  - eexists; split; [done|]. by eapply clear_holds.
Qed.

Lemma queue_fits_here ops q : queue_fits ops q -> zlen q < 2 ^ 30.
Proof. by destruct ops; intros [? _]. Qed.

Lemma fb_run_spec ops fb v :
  holds fb v -> queue_fits ops v ->
  exists fb', fb_run ops fb = Ok (Some <$> fst (queue_run ops v), fb') /\
    holds fb' (snd (queue_run ops v)).
Proof.
  revert fb v. induction ops as [|op ops IH]; intros fb v H Hf; cbn; [by exists fb|].
  destruct Hf as (H0 & Hop & Hf). pose proof (queue_fits_here _ _ Hf) as Hh.
  destruct (fb_step_spec op fb v H) as (fb' & -> & H'); [by repeat split|].
  cbn [mbind result_bind]. destruct (queue_step op v) as [out q]; cbn in *.
  destruct (IH fb' q H' Hf) as (fb'' & -> & H'').
  cbn [mbind result_bind]. destruct (queue_run ops q) as [outs q']; cbn in *.
  exists fb''. by rewrite fmap_app.
Qed.

(** C15: Any sequence of [append], [push_back], [read] and [clear] on a new
    buffer that never holds 2^30 bytes runs without fault; the bytes read are
    those a queue of bytes gives, and the buffer holds what the queue holds. *)
Theorem fastbuffer_is_queue (ops : list fb_op) :
  queue_fits ops [] ->
  exists fb, fb_run ops new_fastbuffer = Ok (Some <$> fst (queue_run ops []), fb) /\
    contents fb = Ok (snd (queue_run ops [])).
Proof.
  intros Hf. destruct (fb_run_spec ops new_fastbuffer [] new_holds Hf) as (fb & E & H).
  exists fb. split; [done|]. by apply contents_holds.
Qed.

Definition fb_demo : list fb_op :=
  [Append (bytes "hello "); PushBack x77; ReadOut 3; Append (bytes "orld"); ReadOut 100; Append (bytes "x")].

Lemma fastbuffer_is_queue_witness :
  queue_fits fb_demo [] /\
  exists fb, fb_run fb_demo new_fastbuffer = Ok (Some <$> bytes "hello world", fb) /\
    contents fb = Ok (bytes "x").
Proof.
  assert (H : queue_fits fb_demo []) by (vm_compute; repeat split; congruence).
  split; [exact H|]. exact (fastbuffer_is_queue fb_demo H).
Defined.
