(* ===== verification/Queues.v ===== *)
(** * Maps and queues shared by threads (include/event_hash.h,
    src/event/lockqueue.h, src/event/lockqueuemap.h, include/util.h)

    Each method of these classes takes the mutex, does its work and releases
    the mutex: it is one atomic step, and an interleaving of threads is a list
    of such steps.  The methods of [Bossmultiworker] that set and read the
    datum of a worker take no mutex, but touch one pointer only. *)

From S2P Require Import Prelude.

(** ** [hash_map_lock] and [hash_map_unlock] *)

Record hash_map (K V : Type) `{Countable K} := HashMap {
  hm_map : gmap K V;
  hm_default : V;
}.
Arguments HashMap {K V _ _} _ _.
Arguments hm_map {K V _ _} _.
Arguments hm_default {K V _ _} _.

Section hash_map.
  Context {K V : Type} `{Countable K}.
  Implicit Types (h : hash_map K V) (fd : K) (state : V).

Definition new_hash_map (defValue : V) : hash_map K V := HashMap ∅ defValue.

Definition add_state h fd state : hash_map K V :=
  match hm_map h !! fd with
  | Some _ => HashMap (alter (fun _ => state) fd (hm_map h)) (hm_default h)
  | None => HashMap (<[fd := state]> (hm_map h)) (hm_default h)
  end.

Definition del_state h fd : hash_map K V :=
  match hm_map h !! fd with
  | Some _ => HashMap (delete fd (hm_map h)) (hm_default h)
  | None => h
  end.

Definition get_state h fd : V :=
  match hm_map h !! fd with
  | Some state => state
  | None => hm_default h
  end.

Lemma add_state_map h fd state :
  add_state h fd state = HashMap (<[fd := state]> (hm_map h)) (hm_default h).
Proof.
  unfold add_state. destruct (hm_map h !! fd) eqn:E; [|done]. f_equal.
  apply map_eq. intros k. destruct (decide (k = fd)) as [->|Hn].
  - by rewrite lookup_alter_eq, E, lookup_insert_eq.
  - by rewrite lookup_alter_ne, lookup_insert_ne.
Qed.

Lemma del_state_map h fd :
  del_state h fd = HashMap (delete fd (hm_map h)) (hm_default h).
Proof.
  unfold del_state. destruct (hm_map h !! fd) eqn:E; [done|].
  rewrite delete_id by done. by destruct h.
Qed.

Lemma get_add_same h fd state : get_state (add_state h fd state) fd = state.
Proof. rewrite add_state_map. unfold get_state. cbn. by rewrite lookup_insert_eq. Qed.

Lemma get_add_other h fd fd' state :
  fd <> fd' -> get_state (add_state h fd state) fd' = get_state h fd'.
Proof. intros. rewrite add_state_map. unfold get_state. cbn. by rewrite lookup_insert_ne. Qed.

Lemma get_del_same h fd : get_state (del_state h fd) fd = hm_default h.
Proof. rewrite del_state_map. unfold get_state. cbn. by rewrite lookup_delete_eq. Qed.

Lemma get_del_other h fd fd' :
  fd <> fd' -> get_state (del_state h fd) fd' = get_state h fd'.
Proof. intros. rewrite del_state_map. unfold get_state. cbn. by rewrite lookup_delete_ne. Qed.

Lemma get_new (d : V) fd : get_state (new_hash_map d) fd = d.
Proof. unfold get_state, new_hash_map. cbn. by rewrite lookup_empty. Qed.

End hash_map.

(** ** [LockQueue] *)

Record LockQueue (T : Type) := Lq {
  lq_queue : list T;
  lq_default : T;
  lq_dt : Z;
}.
Arguments Lq {T} _ _ _.
Arguments lq_queue {T} _.
Arguments lq_default {T} _.
Arguments lq_dt {T} _.

Section LockQueue.
  Context {T : Type}.

Definition new_LockQueue (TdefValue : T) (dt : Z) : LockQueue T := Lq [] TdefValue dt.

Definition lq_pop (q : LockQueue T) : T * LockQueue T :=
  match lq_queue q with
  | t :: ts => (t, Lq ts (lq_default q) (lq_dt q))
  | [] => (lq_default q, q)
  end.

Definition lq_push (q : LockQueue T) (t : T) : LockQueue T :=
  Lq (lq_queue q ++ [t]) (lq_default q) (lq_dt q).

End LockQueue.

(** ** [LockQueueMap] *)

Record LockQueueMap (K T : Type) `{Countable K} := Lqm {
  lqm_map : gmap K (list T);
  lqm_default : T;
}.
Arguments Lqm {K T _ _} _ _.
Arguments lqm_map {K T _ _} _.
Arguments lqm_default {K T _ _} _.

Section LockQueueMap.
  Context {K T : Type} `{Countable K}.
  Implicit Types (q : LockQueueMap K T) (s : K) (t : T).

Definition new_LockQueueMap (TdefValue : T) : LockQueueMap K T := Lqm ∅ TdefValue.

Definition lqm_pop q s : T * LockQueueMap K T :=
  match lqm_map q !! s with
  | Some (t :: ts) => (t, Lqm (<[s := ts]> (lqm_map q)) (lqm_default q))
  | _ => (lqm_default q, q)
  end.

Definition lqm_push q s t : LockQueueMap K T :=
  let m := match lqm_map q !! s with
           | Some _ => lqm_map q
           | None => <[s := []]> (lqm_map q)
           end in
  match m !! s with
  | Some ts => Lqm (<[s := ts ++ [t]]> m) (lqm_default q)
  | None => Lqm m (lqm_default q)
  end.

(** The queue of a key. *)
Definition lqm_queue q s : list T := default [] (lqm_map q !! s).

Lemma lqm_push_queue q s t s' :
  lqm_queue (lqm_push q s t) s' =
    if bool_decide (s = s') then lqm_queue q s ++ [t] else lqm_queue q s'.
Proof.
  unfold lqm_queue, lqm_push.
  destruct (lqm_map q !! s) as [ts|] eqn:E; rewrite ?E, ?lookup_insert_eq; cbn.
  - case_bool_decide as Hs; [subst|]; by rewrite ?lookup_insert_eq, ?lookup_insert_ne, ?E.
  - case_bool_decide as Hs; [subst|]; by rewrite ?lookup_insert_eq, ?lookup_insert_ne, ?E.
Qed.

Lemma lqm_push_default q s t : lqm_default (lqm_push q s t) = lqm_default q.
Proof. unfold lqm_push. by destruct (_ !! s). Qed.

Lemma lqm_pop_queue q s :
  lqm_pop q s = (hd (lqm_default q) (lqm_queue q s), snd (lqm_pop q s)) /\
  lqm_default (snd (lqm_pop q s)) = lqm_default q /\
  forall s', lqm_queue (snd (lqm_pop q s)) s' =
    if bool_decide (s = s') then tail (lqm_queue q s) else lqm_queue q s'.
Proof.
  unfold lqm_queue, lqm_pop. destruct (lqm_map q !! s) as [[|t ts]|] eqn:E; cbn;
    (split; [done|split; [done|intros s']]);
    case_bool_decide as Hs; subst; by rewrite ?lookup_insert_eq, ?lookup_insert_ne, ?E.
Qed.

End LockQueueMap.

(** ** [Bossworker]: jobs and a datum for every registered worker *)

Record Bossworker (K T D : Type) `{Countable K} := Bw {
  bw_workers : hash_map K (option (list T * D));
  bw_default : T;
  bw_touch : D;
}.
Arguments Bw {K T D _ _} _ _ _.
Arguments bw_workers {K T D _ _} _.
Arguments bw_default {K T D _ _} _.
Arguments bw_touch {K T D _ _} _.

Section Bossworker.
  Context {K T D : Type} `{Countable K}.
  Implicit Types (b : Bossworker K T D) (id : K).

Definition new_Bossworker (defValue : T) (defTVal : D) : Bossworker K T D :=
  Bw (new_hash_map None) defValue defTVal.

Definition set_worker b id (q : list T * D) : Bossworker K T D :=
  Bw (add_state (bw_workers b) id (Some q)) (bw_default b) (bw_touch b).

Definition bw_SetWorker b id (data : D) : Bossworker K T D :=
  match get_state (bw_workers b) id with
  | Some (q, _) => set_worker b id (q, data)
  | None => set_worker b id ([], data)
  end.

Definition bw_GetWorkerTouch b id : D :=
  match get_state (bw_workers b) id with
  | Some (_, data) => data
  | None => bw_touch b
  end.

Definition bw_PushJob b id (t : T) : bool * Bossworker K T D :=
  match get_state (bw_workers b) id with
  | Some (q, data) => (true, set_worker b id (q ++ [t], data))
  | None => (false, b)
  end.

Definition bw_PopJob b id : T * Bossworker K T D :=
  match get_state (bw_workers b) id with
  | Some (t :: q, data) => (t, set_worker b id (q, data))
  | _ => (bw_default b, b)
  end.

(** Jobs pushed for a worker come out in order; a worker that was never set
    gets none. *)
Lemma bw_push_pop b id t q d :
  get_state (bw_workers b) id = Some (q, d) ->
  bw_PushJob b id t = (true, set_worker b id (q ++ [t], d)) /\
  bw_PopJob (set_worker b id (q ++ [t], d)) id =
    (hd t q, set_worker (set_worker b id (q ++ [t], d)) id (tail (q ++ [t]), d)).
Proof.
  intros E. unfold bw_PushJob, bw_PopJob. rewrite E. split; [done|].
  change (bw_workers (set_worker b id (q ++ [t], d))) with
    (add_state (bw_workers b) id (Some (q ++ [t], d))).
  rewrite get_add_same. by destruct q.
Qed.

Lemma bw_push_unknown b id t :
  get_state (bw_workers b) id = None -> bw_PushJob b id t = (false, b).
Proof. intros E. unfold bw_PushJob. by rewrite E. Qed.

Lemma bw_set_get b id d : bw_GetWorkerTouch (bw_SetWorker b id d) id = d.
Proof.
  unfold bw_GetWorkerTouch, bw_SetWorker, set_worker.
  destruct (get_state (bw_workers b) id) as [[q ?]|]; cbn; by rewrite get_add_same.
Qed.

End Bossworker.

(** ** [Bossmultiworker]: a fixed number of workers

    The members [_works] and [_mutexs] have no value before [Init]. *)

Record Bossmultiworker (T D : Type) := Bm {
  bm_works : option Z;
  bm_mutexs : option Z;
  bm_workers : list (list T * D);
  bm_default : T;
  bm_touch : D;
}.
Arguments Bm {T D} _ _ _ _ _.
Arguments bm_works {T D} _.
Arguments bm_mutexs {T D} _.
Arguments bm_workers {T D} _.
Arguments bm_default {T D} _.
Arguments bm_touch {T D} _.

Section Bossmultiworker.
  Context {T D : Type}.
  Implicit Types (b : Bossmultiworker T D) (id : Z).

Definition new_Bossmultiworker (defValue : T) (defTVal : D) : Bossmultiworker T D :=
  Bm None None [] defValue defTVal.

(** [new] with a negative number of elements has no defined result. *)
Definition bm_Init b (numWorkers : Z) : result (bool * Bossmultiworker T D) :=
  if numWorkers <? 0 then Err Undefined else
  Ok (true, Bm (Some numWorkers) (Some numWorkers)
              (replicate (Z.to_nat numWorkers) ([], bm_touch b)) (bm_default b) (bm_touch b)).

(** The destructor; it reads [_mutexs] first. *)
Definition bm_destroy b : result unit :=
  _ ← of_option Undefined (bm_mutexs b); _ ← of_option Undefined (bm_works b); Ok tt.

Definition bm_known b id : result bool :=
  works ← of_option Undefined (bm_works b);
  _ ← c_assert ((0 <=? id) && (id <? works));
  Ok (negb ((id <? 0) || (works <=? id))).

Definition bm_worker b id : result (list T * D) :=
  of_option Undefined (bm_workers b !! Z.to_nat id).

Definition bm_set b id (w : list T * D) : Bossmultiworker T D :=
  Bm (bm_works b) (bm_mutexs b) (<[Z.to_nat id := w]> (bm_workers b)) (bm_default b) (bm_touch b).

Definition SetWorker b id (data : D) : result (Bossmultiworker T D) :=
  known ← bm_known b id;
  if negb known then Ok b else
  w ← bm_worker b id; Ok (bm_set b id (fst w, data)).

Definition GetWorkerTouch b id : result D :=
  known ← bm_known b id;
  if negb known then Ok (bm_touch b) else
  w ← bm_worker b id; Ok (snd w).

Definition PushJob b id (t : T) : result (bool * Bossmultiworker T D) :=
  known ← bm_known b id;
  if negb known then Ok (false, b) else
  w ← bm_worker b id; Ok (true, bm_set b id (fst w ++ [t], snd w)).

Definition PopJob b id : result (T * Bossmultiworker T D) :=
  known ← bm_known b id;
  if negb known then Ok (bm_default b, b) else
  w ← bm_worker b id;
  match fst w with
  | t :: ts => Ok (t, bm_set b id (ts, snd w))
  | [] => Ok (bm_default b, b)
  end.

(** *** Workers that are set up *)

Definition boss_ok b : Prop := bm_works b = Some (zlen (bm_workers b)).

Definition jobs b id : list T :=
  match bm_workers b !! Z.to_nat id with Some w => fst w | None => [] end.

Definition touch b id : D :=
  match bm_workers b !! Z.to_nat id with Some w => snd w | None => bm_touch b end.

Definition worker_id b id : Prop := 0 <= id < zlen (bm_workers b).

Lemma known_ok b id : boss_ok b -> worker_id b id -> bm_known b id = Ok true.
Proof.
  intros Hb [H1 H2]. unfold bm_known. rewrite Hb. cbn [of_option mbind result_bind].
  rewrite (proj2 (Z.leb_le _ _) H1), (proj2 (Z.ltb_lt _ _) H2). cbn.
  by rewrite (proj2 (Z.ltb_ge _ _)), (proj2 (Z.leb_gt _ _)) by lia.
Qed.

Lemma worker_ok b id : worker_id b id -> bm_worker b id = Ok (jobs b id, touch b id).
Proof.
  intros [H1 H2]. unfold bm_worker, jobs, touch.
  destruct (lookup_lt_is_Some_2 (bm_workers b) (Z.to_nat id)) as [[q d] E]; [len_lia|].
  by rewrite E.
Qed.

Lemma bm_set_ok b id w : boss_ok b -> boss_ok (bm_set b id w).
Proof. unfold boss_ok, bm_set. cbn. intros ->. f_equal. len_lia. Qed.

Lemma bm_set_id b id w id' : worker_id (bm_set b id w) id' <-> worker_id b id'.
Proof. unfold worker_id, bm_set. cbn. len_lia. Qed.

Lemma bm_set_jobs b id w id' :
  worker_id b id -> 0 <= id' ->
  jobs (bm_set b id w) id' = if bool_decide (id = id') then fst w else jobs b id'.
Proof.
  intros [H1 H2] H'. unfold jobs, bm_set. cbn. case_bool_decide as E.
  - subst. by rewrite list_lookup_insert_eq by len_lia.
  - rewrite list_lookup_insert_ne; [done|lia].
Qed.

Lemma bm_set_touch b id w id' :
  worker_id b id -> 0 <= id' ->
  touch (bm_set b id w) id' = if bool_decide (id = id') then snd w else touch b id'.
Proof.
  intros [H1 H2] H'. unfold touch, bm_set. cbn. case_bool_decide as E.
  - subst. by rewrite list_lookup_insert_eq by len_lia.
  - rewrite list_lookup_insert_ne; [done|lia].
Qed.

Lemma push_job_spec b id t :
  boss_ok b -> worker_id b id ->
  PushJob b id t = Ok (true, bm_set b id (jobs b id ++ [t], touch b id)).
Proof. intros Hb Hi. unfold PushJob. rewrite known_ok by done. cbn. by rewrite worker_ok. Qed.

Lemma pop_job_spec b id :
  boss_ok b -> worker_id b id ->
  PopJob b id = match jobs b id with
                | [] => Ok (bm_default b, b)
                | t :: ts => Ok (t, bm_set b id (ts, touch b id))
                end.
Proof. intros Hb Hi. unfold PopJob. rewrite known_ok by done. cbn. by rewrite worker_ok. Qed.

Lemma touch_spec b id :
  boss_ok b -> worker_id b id -> GetWorkerTouch b id = Ok (touch b id).
Proof. intros Hb Hi. unfold GetWorkerTouch. rewrite known_ok by done. cbn. by rewrite worker_ok. Qed.

Lemma set_spec b id d :
  boss_ok b -> worker_id b id -> SetWorker b id d = Ok (bm_set b id (jobs b id, d)).
Proof. intros Hb Hi. unfold SetWorker. rewrite known_ok by done. cbn. by rewrite worker_ok. Qed.

Lemma init_spec b n :
  0 <= n ->
  exists b', bm_Init b n = Ok (true, b') /\ boss_ok b' /\ zlen (bm_workers b') = n /\
    bm_default b' = bm_default b /\ forall id, jobs b' id = [].
Proof.
  intros H. unfold bm_Init. rewrite (proj2 (Z.ltb_ge _ _)) by lia.
  eexists; split; [done|]. cbn. repeat split.
  - unfold boss_ok. cbn. f_equal. len_lia.
  - len_lia.
  - intros id. unfold jobs. cbn. destruct (_ !! _) as [w|] eqn:E; [|done].
    by apply lookup_replicate in E as [-> _].
Qed.

(** *** Any interleaving of the workers' operations *)

Inductive boss_op :=
| Push (id : Z) (t : T)
| Pop (id : Z)
| Set_ (id : Z) (d : D)
| Touch (id : Z).

Definition op_worker (op : boss_op) : Z :=
  match op with Push id _ | Pop id | Set_ id _ | Touch id => id end.

(** The jobs handed out, each with the worker that asked. *)
Definition boss_step (op : boss_op) b : result (list (Z * T) * Bossmultiworker T D) :=
  match op with
  | Push id t => '(_, b) ← PushJob b id t; Ok ([], b)
  | Pop id => '(t, b) ← PopJob b id; Ok ([(id, t)], b)
  | Set_ id d => b ← SetWorker b id d; Ok ([], b)
  | Touch id => _ ← GetWorkerTouch b id; Ok ([], b)
  end.

Fixpoint boss_run (ops : list boss_op) b : result (list (Z * T) * Bossmultiworker T D) :=
  match ops with
  | [] => Ok ([], b)
  | op :: ops =>
      '(out, b) ← boss_step op b;
      '(outs, b) ← boss_run ops b;
      Ok (out ++ outs, b)
  end.

Definition given (id : Z) (ops : list boss_op) : list T :=
  omap (fun op => match op with
                  | Push id' t => if bool_decide (id' = id) then Some t else None
                  | _ => None
                  end) ops.

Context `{EqDecision T}.

(** What a worker got, the answers to an empty queue left out. *)
Definition taken (d : T) (id : Z) (outs : list (Z * T)) : list T :=
  omap (fun '(id', t) => if bool_decide (id' = id /\ t <> d) then Some t else None) outs.

Lemma taken_one d id i t :
  taken d id [(i, t)] = if bool_decide (i = id /\ t <> d) then [t] else [].
Proof. unfold taken. cbn. by case_bool_decide. Qed.

Lemma given_push id i t :
  given id [Push i t] = if bool_decide (i = id) then [t] else [].
Proof. unfold given. cbn. by case_bool_decide. Qed.

Lemma boss_step_spec op b id :
  boss_ok b -> worker_id b (op_worker op) -> 0 <= id ->
  bm_default b ∉ given id [op] -> bm_default b ∉ jobs b id ->
  exists out b', boss_step op b = Ok (out, b') /\ boss_ok b' /\
    (forall i, worker_id b' i <-> worker_id b i) /\ bm_default b' = bm_default b /\
    taken (bm_default b) id out ++ jobs b' id = jobs b id ++ given id [op].
Proof.
  intros Hb Hi Hid Hg Hj. destruct op as [i t|i|i d|i]; cbn [boss_step op_worker] in *.
  - rewrite push_job_spec by done. cbn [mbind result_bind]. eexists _, _; split; [done|].
    split; [by apply bm_set_ok|]. split; [intros; apply bm_set_id|]. split; [done|].
    rewrite bm_set_jobs, given_push by done. case_bool_decide; [by subst|]. by rewrite app_nil_r.
  - rewrite pop_job_spec by done. destruct (jobs b i) as [|t ts] eqn:Ej; cbn [mbind result_bind fst snd].
    + eexists _, _; split; [done|]. do 3 (split; [done|]).
      rewrite taken_one, bool_decide_eq_false_2 by (intros [? []]; done). by rewrite app_nil_r.
    + eexists _, _; split; [done|].
      split; [by apply bm_set_ok|]. split; [intros; apply bm_set_id|]. split; [done|].
      rewrite bm_set_jobs, taken_one by done. rewrite app_nil_r.
      destruct (decide (i = id)) as [->|Hn].
      * rewrite Ej in *. apply not_elem_of_cons in Hj as [Hj _].
        rewrite bool_decide_eq_true_2 by (split; congruence).
        by rewrite bool_decide_eq_true_2.
      * rewrite bool_decide_eq_false_2 by (intros [? ?]; done).
        by rewrite bool_decide_eq_false_2.
  - rewrite set_spec by done. cbn [mbind result_bind]. eexists _, _; split; [done|].
    split; [by apply bm_set_ok|]. split; [intros; apply bm_set_id|]. split; [done|].
    rewrite bm_set_jobs, app_nil_r by done. case_bool_decide; [by subst|done].
  - rewrite touch_spec by done. cbn [mbind result_bind]. eexists _, _; split; [done|]. by rewrite app_nil_r.
Qed.

Lemma taken_app d id o1 o2 : taken d id (o1 ++ o2) = taken d id o1 ++ taken d id o2.
Proof. apply omap_app. Qed.

Lemma given_cons id op ops : given id (op :: ops) = given id [op] ++ given id ops.
Proof. apply (omap_app _ [op] ops). Qed.

Lemma boss_run_spec ops b id :
  boss_ok b -> Forall (fun op => worker_id b (op_worker op)) ops -> 0 <= id ->
  bm_default b ∉ jobs b id ++ given id ops ->
  exists outs b', boss_run ops b = Ok (outs, b') /\
    taken (bm_default b) id outs ++ jobs b' id = jobs b id ++ given id ops.
Proof.
  revert b. induction ops as [|op ops IH]; intros b Hb Ho Hid Hd; cbn [boss_run].
  { eexists _, _; split; [done|]. by rewrite app_nil_r. }
  apply List.Forall_cons_iff in Ho as [Ho Hos]. rewrite given_cons in *.
  rewrite !not_elem_of_app in Hd. destruct Hd as (Hd1 & Hd2 & Hd3).
  destruct (boss_step_spec op b id) as (out & b1 & -> & Hb1 & Hw & Hdef & Hout); [done..|].
  cbn [mbind result_bind].
  destruct (IH b1) as (outs & b' & -> & Hq); [done| |done| |].
  - eapply Forall_impl; [exact Hos|]. intros ?. cbn. apply Hw.
  - rewrite Hdef, not_elem_of_app. split; [|done]. intros Hin.
    assert (Hin' : bm_default b ∈ jobs b id ++ given id [op]).
    { rewrite <- Hout, elem_of_app. by right. }
    apply elem_of_app in Hin'. tauto.
  - cbn. eexists _, _; split; [done|].
    rewrite Hdef in Hq. by rewrite taken_app, <- app_assoc, Hq, !app_assoc, Hout.
Qed.

End Bossmultiworker.

(** In any interleaving of pushes, pops and accesses to the workers' data,
    no assertion fails, and every worker gets exactly the jobs pushed for it,
    each once and in the order of the pushes; those it did not get are still
    queued. *)
Theorem workers_get_their_jobs {T D} `{EqDecision T} (b : Bossmultiworker T D)
    (n id : Z) (ops : list boss_op) :
  0 <= id < n -> Forall (fun op => 0 <= op_worker op < n) ops -> bm_default b ∉ given id ops ->
  exists b0 outs b', bm_Init b n = Ok (true, b0) /\ boss_run ops b0 = Ok (outs, b') /\
    taken (bm_default b) id outs ++ jobs b' id = given id ops.
Proof.
  intros Hid Ho Hd. destruct (init_spec b n) as (b0 & E & Hb & Hl & Hdef & Hj); [lia|].
  destruct (boss_run_spec ops b0 id) as (outs & b' & E' & Hq); [done| |lia| |].
  - eapply Forall_impl; [exact Ho|]. intros op. unfold worker_id. by rewrite Hl.
  - by rewrite Hj, Hdef.
  - exists b0, outs, b'. rewrite Hdef, Hj in Hq. done.
Qed.

Definition boss_demo : list (@boss_op Z Z) :=
  [Push 0 11; Pop 1; Push 1 21; Set_ 1 5; Push 0 12; Pop 0; Pop 1; Pop 1; Pop 0; Push 0 13; Touch 1].

Lemma workers_get_their_jobs_witness :
  exists b0 outs b', bm_Init (new_Bossmultiworker 0 0) 2 = Ok (true, b0) /\
    boss_run boss_demo b0 = Ok (outs, b') /\ taken 0 0 outs ++ jobs b' 0 = [11; 12; 13].
Proof.
  refine (workers_get_their_jobs (new_Bossmultiworker 0 0) 2 0 boss_demo _ _ _).
  - lia.
  - repeat constructor; vm_compute; congruence.
  - apply (bool_decide_unpack _). by vm_compute.
Defined.
