(* ===== verification/MemStuff.v ===== *)
(** * The allocation arena of the database bindings (include/memstuff.h)

    A [memstuff<SZ>] hands out memory from a chain of blocks and releases all
    of it at once.  A pointer is the position of the block in the chain and the
    offset in it: blocks are never moved nor unlinked before the destructor. *)

From S2P Require Import Prelude.
From Stdlib Require Import Sorting.Sorted.

(** [sizeof (data)] of the 32-bit build. *)
Definition sizeof_data : Z := 16.

(** A link of the chain; [d_buf] says whether the block exists, since the result
    of its [malloc] is not looked at. *)
Record data := Data {
  d_size : Z;
  d_bufsize : Z;
  d_buf : bool;
}.

Inductive pointer :=
| Null
| NullPlus (off : Z)
| At (index off : Z).

Definition pointer_to (d : data) (index off : Z) : pointer :=
  if d_buf d then At index off else NullPlus off.

Section memstuff.
  Context (SZ : Z) (malloc_ok : Z -> bool).

Definition new_memstuff : list data := [].

Definition arena_clear (l : list data) : list data :=
  (fun d => Data 0 (d_bufsize d) (d_buf d)) <$> l.

(** [appendbuf]: the new link, or nothing when there is no memory for it. *)
Definition appendbuf (bz : Z) : option data :=
  if malloc_ok sizeof_data then
    let sz := if bz <? u32 SZ then u32 SZ else u32 (bz * 2) in
    Some (Data 0 sz (malloc_ok sz))
  else None.

(** Both ends of [alloc]: the bytes are taken from the link found or added. *)
Definition take_from (d : data) (index bz : Z) : pointer * data :=
  let size := u32 (d_size d + bz) in
  (pointer_to d index (size - bz), Data size (d_bufsize d) (d_buf d)).

Fixpoint alloc_from (index : Z) (l : list data) (bz : Z) : pointer * list data :=
  match l with
  | d :: l =>
      if bz <=? u32 (d_bufsize d - d_size d) then
        let '(p, d) := take_from d index bz in (p, d :: l)
      else
        let '(p, l) := alloc_from (index + 1) l bz in (p, d :: l)
  | [] =>
      match appendbuf bz with
      | Some d => let '(p, d) := take_from d index bz in (p, [d])
      | None => (Null, [])
      end
  end.

Definition alloc (l : list data) (bz : Z) : pointer * list data := alloc_from 0 l bz.

(** ** Regions of memory *)

Record region := Region { r_index : Z; r_off : Z; r_len : Z }.

Definition disjoint_regions (r s : region) : Prop :=
  r_index r <> r_index s \/ r_off r + r_len r <= r_off s \/ r_off s + r_len s <= r_off r.

Definition link_ok (d : data) : Prop :=
  0 <= d_size d <= d_bufsize d /\ d_bufsize d < 2 ^ 32 /\ d_buf d = true.

(** The region lies in the part of its block that is in use. *)
Definition in_use (l : list data) (r : region) : Prop :=
  0 <= r_index r /\ 0 <= r_off r /\
  exists d, l !! Z.to_nat (r_index r) = Some d /\ r_off r + r_len r <= d_size d.

(** The region lies in its block. *)
Definition in_block (l : list data) (r : region) : Prop :=
  0 <= r_index r /\ 0 <= r_off r /\
  exists d, l !! Z.to_nat (r_index r) = Some d /\ d_buf d = true /\
    r_off r + r_len r <= d_bufsize d.

Definition arena (l : list data) (rs : list region) : Prop :=
  Forall link_ok l /\ Forall (in_use l) rs /\ ForallOrdPairs disjoint_regions rs.

(** The links of [l] are kept in [l'], with at least as much in use. *)
Definition extends (l l' : list data) : Prop :=
  forall i d, l !! i = Some d -> exists d', l' !! i = Some d' /\ d_size d <= d_size d'.

Lemma extends_refl l : extends l l.
Proof. intros i d E. exists d. split; [done|lia]. Qed.

Lemma in_use_extends l l' r : extends l l' -> in_use l r -> in_use l' r.
Proof.
  intros He (H1 & H2 & d & E & H). destruct (He _ _ E) as (d' & E' & Hd).
  repeat split; try done. exists d'. split; [done|lia].
Qed.

Lemma in_use_block l r : Forall link_ok l -> in_use l r -> in_block l r.
Proof.
  intros Hl (H1 & H2 & d & E & H). repeat split; try done. exists d.
  rewrite Forall_lookup in Hl. destruct (Hl _ _ E) as (? & ? & ->).
  repeat split; [done|lia].
Qed.

Hypothesis malloc_works : forall n, malloc_ok n = true.
Hypothesis SZ_range : 0 < SZ < 2 ^ 31.

Lemma appendbuf_spec bz :
  0 <= bz < 2 ^ 31 ->
  exists sz, appendbuf bz = Some (Data 0 sz true) /\ bz <= sz < 2 ^ 32.
Proof.
  intros H. unfold appendbuf. rewrite !malloc_works, (u32_small SZ), (u32_small (bz * 2)) by lia.
  eexists; split; [done|]. destruct (Z.ltb_spec bz SZ); lia.
Qed.

Lemma take_from_spec d index bz :
  link_ok d -> 0 <= bz <= d_bufsize d - d_size d ->
  take_from d index bz = (At index (d_size d), Data (d_size d + bz) (d_bufsize d) true).
Proof.
  intros (H1 & H2 & H3) H. unfold take_from, pointer_to. rewrite H3.
  rewrite u32_small by lia. do 2 f_equal. lia.
Qed.

(** An allocation takes the end of the used part of one link. *)
Lemma alloc_from_spec index l bz :
  Forall link_ok l -> 0 <= bz < 2 ^ 31 ->
  exists i off l', alloc_from index l bz = (At (index + i) off, l') /\ 0 <= i /\
    Forall link_ok l' /\ extends l l' /\ in_use l' (Region i off bz) /\
    (forall d, l !! Z.to_nat i = Some d -> off = d_size d).
Proof.
  intros Hl Hbz. revert index. induction Hl as [|d l Hd Hl IH]; intros index; cbn [alloc_from].
  - destruct (appendbuf_spec bz Hbz) as (sz & -> & Hs).
    rewrite take_from_spec by (unfold link_ok; cbn; repeat split; lia). cbn.
    exists 0, 0, [Data bz sz true]. rewrite Z.add_0_r.
    split; [done|]. split; [done|]. split; [|split; [|split]].
    + repeat constructor; cbn; lia.
    + intros i d E. by destruct i.
    + repeat split; [done|done|]. eexists; split; [done|]. cbn. lia.
    + done.
  - destruct Hd as (H1 & H2 & H3).
    rewrite (u32_small (d_bufsize d - d_size d)) by lia.
    destruct (Z.leb_spec bz (d_bufsize d - d_size d)) as [Hf|Hf].
    + rewrite take_from_spec by (unfold link_ok; repeat split; lia || done).
      exists 0, (d_size d), (Data (d_size d + bz) (d_bufsize d) true :: l). rewrite Z.add_0_r.
      split; [done|]. split; [done|]. split; [|split; [|split]].
      * constructor; [|done]. repeat split; cbn; lia.
      * intros [|i] d' E; cbn in *; [|exists d'; split; [done|lia]].
        injection E as <-. eexists; split; [done|]. cbn. lia.
      * repeat split; cbn; [lia..|]. eexists; split; [done|]. cbn. lia.
      * intros d' [= <-]. done.
    + destruct (IH (index + 1)) as (i & off & l' & -> & Hi & Hl' & He & Hu & Ho).
      exists (1 + i), off, (d :: l'). split; [do 2 f_equal; lia|]. split; [lia|].
      assert (Ei : Z.to_nat (1 + i) = S (Z.to_nat i)) by lia.
      split; [|split; [|split]].
      * constructor; [|done]. repeat split; (done || lia).
      * intros [|j] d' E; cbn in *; [exists d'; split; [done|lia]|]. by apply He.
      * destruct Hu as (_ & Hu2 & d' & Hu3). repeat split; cbn in *; [lia|lia|].
        rewrite Ei. by exists d'.
      * rewrite Ei. cbn. done.
Qed.

Lemma alloc_spec l rs bz :
  arena l rs -> 0 <= bz < 2 ^ 31 ->
  exists i off l', alloc l bz = (At i off, l') /\ arena l' (Region i off bz :: rs).
Proof.
  intros (Hl & Hr & Hd) Hbz.
  destruct (alloc_from_spec 0 l bz Hl Hbz) as (i & off & l' & E & Hi & Hl' & He & Hu & Ho).
  exists i, off, l'. split; [done|]. split; [done|]. split.
  - constructor; [done|]. eapply Forall_impl; [exact Hr|]. intros r. by apply in_use_extends.
  - constructor; [|done]. eapply Forall_impl; [exact Hr|].
    intros r (H1 & H2 & d & E' & H3). unfold disjoint_regions. cbn.
    destruct (decide (i = r_index r)) as [->|]; [|by left].
    right. right. rewrite (Ho _ E'). lia.
Qed.

Lemma clear_spec l rs : arena l rs -> arena (arena_clear l) [].
Proof.
  intros (Hl & _). split; [|split; [constructor|constructor]].
  unfold arena_clear. rewrite Forall_fmap. eapply Forall_impl; [exact Hl|].
  intros d (H1 & H2 & H3). repeat split; cbn; [lia|lia|lia|done].
Qed.

(** ** Sequences of operations *)

Inductive arena_op :=
| Alloc (bz : Z)
| ClearAll.

(** The chain and the regions handed out since it was last cleared. *)
Definition arena_step (op : arena_op) (s : list data * list region) :
    option (list data * list region) :=
  match op with
  | Alloc bz =>
      match alloc (fst s) bz with
      | (At i off, l) => Some (l, Region i off bz :: snd s)
      | _ => None
      end
  | ClearAll => Some (arena_clear (fst s), [])
  end.

Fixpoint arena_run (ops : list arena_op) (s : list data * list region) :
    option (list data * list region) :=
  match ops with
  | [] => Some s
  | op :: ops => s ← arena_step op s; arena_run ops s
  end.

Definition op_fits (op : arena_op) : Prop :=
  match op with Alloc bz => 0 <= bz < 2 ^ 31 | ClearAll => True end.

Lemma arena_run_spec ops l rs :
  arena l rs -> Forall op_fits ops ->
  exists l' rs', arena_run ops (l, rs) = Some (l', rs') /\ arena l' rs'.
Proof.
  intros Ha Ho. revert l rs Ha. induction Ho as [|op ops Hop Ho IH]; intros l rs Ha; cbn [arena_run].
  - by exists l, rs.
  - destruct op as [bz|]; cbn [arena_step op_fits fst snd] in *.
    + destruct (alloc_spec l rs bz Ha Hop) as (i & off & l' & -> & Ha'). cbn. by apply IH.
    + eapply IH, clear_spec, Ha.
Qed.

End memstuff.

(** As long as the C library has memory, the arena answers any sequence of
    allocations below 2^31 bytes and clearings with pointers to memory of the
    size asked for: the regions handed out since the last clearing lie in their
    blocks and are pairwise disjoint. *)
Theorem arena_regions_disjoint (SZ : Z) (malloc_ok : Z -> bool) (ops : list arena_op) :
  0 < SZ < 2 ^ 31 -> (forall n, malloc_ok n = true) -> Forall op_fits ops ->
  exists l rs, arena_run SZ malloc_ok ops (new_memstuff, []) = Some (l, rs) /\
    Forall (in_block l) rs /\ ForallOrdPairs disjoint_regions rs.
Proof.
  intros Hs Hm Ho.
  destruct (arena_run_spec SZ malloc_ok Hm Hs ops [] []) as (l & rs & E & Hl & Hu & Hd).
  - repeat constructor.
  - done.
  - exists l, rs. split; [done|]. split; [|done].
    eapply Forall_impl; [exact Hu|]. intros r. by apply in_use_block.
Qed.

Definition arena_demo : list arena_op :=
  [Alloc 200; Alloc 100; ClearAll; Alloc 56; Alloc 1000; Alloc 4; Alloc 0; Alloc 200].

Example arena_demo_run :
  fst <$> arena_run 256 (fun _ => true) arena_demo ([], []) =
    Some [Data 60 256 true; Data 200 256 true; Data 1000 2000 true].
Proof. vm_compute. reflexivity. Qed.

Lemma arena_regions_disjoint_witness :
  exists l rs, arena_run 256 (fun _ => true) arena_demo (new_memstuff, []) = Some (l, rs) /\
    Forall (in_block l) rs /\ ForallOrdPairs disjoint_regions rs.
Proof.
  refine (arena_regions_disjoint 256 (fun _ => true) arena_demo _ _ _).
  - lia.
  - done.
  - repeat constructor; cbn; lia.
Defined.

(** A request of 2^31 bytes or more gets a block of the size modulo 2^32. *)
Example arena_overflow :
  alloc 256 (fun _ => true) [] (2 ^ 31 + 1) = (At 0 0, [Data (2 ^ 31 + 1) 2 true]).
Proof. vm_compute. reflexivity. Qed.

(** Without memory for the block itself the pointer is an offset from [NULL]. *)
Example arena_no_block :
  alloc 256 (fun n => n =? sizeof_data) [] 8 = (NullPlus 0, [Data 8 256 false]).
Proof. vm_compute. reflexivity. Qed.
