(* ===== verification/Mysql.v ===== *)
(** * Prepared statements (src/mysql/yylibmysql.h, yylibmysql.cpp)

    A [StmtItem] collects the parameters of a prepared statement in an array of
    [MYSQL_BIND]s whose buffers lie in an arena, and hands the array to the
    client library of MySQL when it is executed.  The library is not part of the
    repository: its answers are arguments, and what it is given at an execution,
    the array and the memory it points into, the links of the arena and their
    bytes, is recorded in [st_executed]. *)

From S2P Require Import Prelude MemStuff.

(** ** The memory of the arena *)

Abbreviation mem := (gmap (Z * Z) byte).

Fixpoint store_at (m : mem) (i off : Z) (bs : list byte) : mem :=
  match bs with
  | [] => m
  | b :: bs => <[(i, off) := b]> (store_at m i (off + 1) bs)
  end.

Fixpoint load_at (m : mem) (i off : Z) (n : nat) : option (list byte) :=
  match n with
  | O => Some []
  | S n => b ← m !! (i, off); bs ← load_at m i (off + 1) n; Some (b :: bs)
  end.

(** [n] bytes from [off] on lie in the block of a link. *)
Definition in_bounds (l : list data) (i off n : Z) : bool :=
  match l !! Z.to_nat i with
  | Some d => (0 <=? i) && (0 <=? off) && (off + n <=? d_bufsize d) && d_buf d
  | None => false
  end.

(** A write through a pointer of the arena [l]. *)
Definition poke (l : list data) (m : mem) (p : pointer) (bs : list byte) : result mem :=
  match p with
  | At i off => if in_bounds l i off (zlen bs) then Ok (store_at m i off bs) else Err Undefined
  | _ => Err Undefined
  end.

(** The [n] low bytes of an integer, the least significant first. *)
Fixpoint le_bytes (n : nat) (z : Z) : list byte :=
  match n with
  | O => []
  | S n => z2b (z mod 256) :: le_bytes n (z / 256)
  end.

(** ** Parameters *)

Definition MYSQL_TYPE_TINY : Z := 1.
Definition MYSQL_TYPE_SHORT : Z := 2.
Definition MYSQL_TYPE_LONG : Z := 3.
Definition MYSQL_TYPE_FLOAT : Z := 4.
Definition MYSQL_TYPE_DOUBLE : Z := 5.
Definition MYSQL_TYPE_LONGLONG : Z := 8.
Definition MYSQL_TYPE_STRING : Z := 254.

(** What [operator<<] takes: a C string, integers, floating point numbers as
    their bytes, and two kinds of values it does nothing with. *)
Inductive value :=
| VString (s : list byte)
| VChar (z : Z)
| VShort (z : Z)
| VInt (z : Z)
| VLongLong (z : Z)
| VFloat (bs : list byte)
| VDouble (bs : list byte)
| VStream
| VTime.

(** A [MYSQL_BIND]; the pointers are NULL where nothing was set. *)
Record MYSQL_BIND := Bind {
  buffer_type : Z;
  buffer : pointer;
  buffer_length : Z;
  length_ptr : pointer;
  is_null : pointer;
  error_ptr : pointer;
}.

Definition zero_bind : MYSQL_BIND := Bind 0 Null 0 Null Null Null.

(** The type and the bytes of a value that is bound by its size. *)
Definition scalar (v : value) : option (Z * list byte) :=
  match v with
  | VChar z => Some (MYSQL_TYPE_TINY, le_bytes 1 z)
  | VShort z => Some (MYSQL_TYPE_SHORT, le_bytes 2 z)
  | VInt z => Some (MYSQL_TYPE_LONG, le_bytes 4 z)
  | VLongLong z => Some (MYSQL_TYPE_LONGLONG, le_bytes 8 z)
  | VFloat bs => Some (MYSQL_TYPE_FLOAT, bs)
  | VDouble bs => Some (MYSQL_TYPE_DOUBLE, bs)
  | _ => None
  end.

Record StmtItem := Stmt {
  st_stmt : bool;
  st_bind : option (list MYSQL_BIND);
  affected_rows : Z;
  valIndex : Z;
  valTotal : Z;
  st_stuff : list data;
  st_mem : mem;
  st_cmd : list byte;
  st_executed : list (list byte * list MYSQL_BIND * list data * mem);
}.

Section stmt.
  Context (malloc_ok : Z -> bool).

(** [memstuff<256>] *)
Definition stuff_alloc (l : list data) (bz : Z) : pointer * list data := alloc 256 malloc_ok l bz.

Definition Clear (st : StmtItem) : StmtItem :=
  Stmt (st_stmt st) None (affected_rows st) 0 0 (arena_clear (st_stuff st)) (st_mem st) (st_cmd st) (st_executed st).

(** The constructor; [stmt] says whether [mysql_stmt_init] gives a statement. *)
Definition new_StmtItem (stmt : bool) : StmtItem :=
  Clear (Stmt stmt None 0 0 0 new_memstuff ∅ [] []).

(** [Prepare]: the count of the parameters, or nothing when the statement cannot
    be prepared. *)
Definition Prepare (st : StmtItem) (cmd : list byte) (count : option Z) : StmtItem :=
  let st := Clear st in
  match count with
  | None => st
  | Some n =>
      Stmt (st_stmt st) (if 0 <? n then Some (replicate (Z.to_nat n) zero_bind) else None) (affected_rows st)
        (valIndex st) n (st_stuff st) (st_mem st) cmd (st_executed st)
  end.

(** [_bind[valIndex] = b; valIndex++] *)
Definition set_bind (st : StmtItem) (b : MYSQL_BIND) (stuff : list data) (m : mem) : result StmtItem :=
  bs ← of_option Undefined (st_bind st);
  _ ← of_option Undefined (bs !! Z.to_nat (valIndex st));
  Ok (Stmt (st_stmt st) (Some (<[Z.to_nat (valIndex st) := b]> bs)) (affected_rows st) (u32 (valIndex st + 1))
        (valTotal st) stuff m (st_cmd st) (st_executed st)).

(** [operator<<] of a string. *)
Definition insert_string (st : StmtItem) (s : list byte) : result StmtItem :=
  if valIndex st <? valTotal st then
    let n := u32 (zlen s + 1) in
    let '(p, stuff) := stuff_alloc (st_stuff st) n in
    m ← poke stuff (st_mem st) p (s ++ [x00]);
    let '(q, stuff) := stuff_alloc stuff 4 in
    m ← poke stuff m q (le_bytes 4 (zlen s));
    set_bind st (Bind MYSQL_TYPE_STRING p n q Null Null) stuff m
  else Ok st.

(** [operator<<] of a value of a fixed size. *)
Definition insert_scalar (st : StmtItem) (type : Z) (bs : list byte) : result StmtItem :=
  if valIndex st <? valTotal st then
    let '(p, stuff) := stuff_alloc (st_stuff st) (zlen bs) in
    m ← poke stuff (st_mem st) p bs;
    set_bind st (Bind type p 0 Null Null Null) stuff m
  else Ok st.

Definition insert_value (st : StmtItem) (v : value) : result StmtItem :=
  match v with
  | VString s => insert_string st s
  | VStream | VTime => Ok st
  | _ =>
      match scalar v with
      | Some (type, bs) => insert_scalar st type bs
      | None => Ok st
      end
  end.

(** [operator<<] of [Execute ()]; [rows] is the answer of
    [mysql_stmt_affected_rows]. *)
Definition Execute (st : StmtItem) (rows : Z) : StmtItem :=
  if negb (st_stmt st) then st
  else if valIndex st =? valTotal st then
    Stmt (st_stmt st) (st_bind st) rows 0 (valTotal st) (arena_clear (st_stuff st)) (st_mem st) (st_cmd st)
      (st_executed st ++ [(st_cmd st, default [] (st_bind st), st_stuff st, st_mem st)])
  else st.

(** ** Results *)

Record StmtRes := Res {
  res_res : bool;
  res_stmt : bool;
  res_bind : option (list MYSQL_BIND);
  res_stuff : list data;
}.

(** The columns of a result: type and length. *)
Fixpoint bind_columns (l : list data) (cols : list (Z * Z)) : list MYSQL_BIND * list data :=
  match cols with
  | [] => ([], l)
  | (type, len) :: cols =>
      let '(p, l) := stuff_alloc l (u32 (len + 1)) in
      let '(q, l) := stuff_alloc l 1 in
      let '(r, l) := stuff_alloc l 1 in
      let '(bs, l) := bind_columns l cols in
      (Bind type p len Null q r :: bs, l)
  end.

(** [GetRes]: the metadata of the result, if there is one. *)
Definition GetRes (st : StmtItem) (columns : option (list (Z * Z))) : StmtRes :=
  match columns with
  | None => Res false (st_stmt st) None new_memstuff
  | Some cols => let '(bs, l) := bind_columns new_memstuff cols in Res true (st_stmt st) (Some bs) l
  end.

(** [BindResult]: the answers of [mysql_stmt_bind_result] and
    [mysql_stmt_store_result]. *)
Definition BindResult (r : StmtRes) (bound stored : bool) : bool :=
  if negb (res_res r) || negb (match res_bind r with Some _ => true | None => false end) || negb (res_stmt r)
  then false
  else if negb bound then false else stored.

(** *** Rows

    What the library says of one statement: whether there is a statement, the
    count of its parameters unless it cannot be prepared, the rows it changed, the
    columns of its result, whether they are bound and stored, and the memory of
    the result after each [mysql_stmt_fetch] that succeeds. *)
Record stmt_answers := Answers {
  an_stmt : bool;
  an_count : option Z;
  an_rows : Z;
  an_columns : option (list (Z * Z));
  an_bound : bool;
  an_stored : bool;
  an_fetches : list mem;
}.

(** The column of a row as the server looks at it: an integer is read, of a
    string the address is taken, and the rest is skipped. *)
Definition read_column (m : mem) (b : MYSQL_BIND) : result unit :=
  if buffer_type b =? MYSQL_TYPE_LONG then
    match buffer b with
    | At i off => _ ← of_option Undefined (load_at m i off 4); Ok tt
    | _ => Err Undefined
    end
  else Ok tt.

Fixpoint read_columns (m : mem) (bs : list MYSQL_BIND) : result unit :=
  match bs with
  | [] => Ok tt
  | b :: bs => _ ← read_column m b; read_columns m bs
  end.

Fixpoint read_rows (bs : list MYSQL_BIND) (fetches : list mem) : result unit :=
  match fetches with
  | [] => Ok tt
  | m :: fetches => _ ← read_columns m bs; read_rows bs fetches
  end.

(** A statement without parameters is prepared and executed, and the rows of its
    result are read. *)
Definition read_result (cmd : list byte) (an : stmt_answers) : result unit :=
  let st := Execute (Prepare (new_StmtItem (an_stmt an)) cmd (an_count an)) (an_rows an) in
  let res := GetRes st (an_columns an) in
  if BindResult res (an_bound an) (an_stored an) then
    read_rows (default [] (res_bind res)) (an_fetches an)
  else Ok tt.

End stmt.

(** ** The connection *)

(** [Connect], [Use] and [Execute] of [YYLibMysql]: [sql] says whether
    [mysql_init] gave a connection; the answers of the library come second. *)
Definition mysql_Connect (sql connected : bool) : bool := if negb sql then false else connected.
Definition mysql_Execute (sql queried : bool) : bool := if negb sql then false else queried.
