(* ===== verification/MysqlRun.v ===== *)
(** * Statements get the values that were inserted

    The buffers of the parameters lie in disjoint regions of the arena, so that
    storing one leaves the others as they are. *)

From S2P Require Import Prelude MemStuff Mysql.

(** ** Memory *)

Lemma load_insert_other (m : mem) i off b j o n :
  (forall k, o <= k < o + Z.of_nat n -> (j, k) <> (i, off)) ->
  load_at (<[(i, off) := b]> m) j o n = load_at m j o n.
Proof.
  revert o. induction n as [|n IH]; intros o Hn; cbn [load_at]; [done|].
  rewrite lookup_insert_ne by (apply not_eq_sym, Hn; lia). rewrite IH; [done|].
  intros k Hk. apply Hn. lia.
Qed.

Lemma load_store_same m i off bs : load_at (store_at m i off bs) i off (length bs) = Some bs.
Proof.
  revert off. induction bs as [|b bs IH]; intros off; cbn [store_at length load_at]; [done|].
  rewrite lookup_insert_eq. cbn [mbind option_bind]. rewrite load_insert_other by (intros k Hk [= Hk']; lia).
  by rewrite IH.
Qed.

Lemma load_store_disjoint m i off bs j o n :
  disjoint_regions (Region i off (zlen bs)) (Region j o (Z.of_nat n)) ->
  load_at (store_at m i off bs) j o n = load_at m j o n.
Proof.
  revert off. induction bs as [|b bs IH]; intros off Hd; cbn [store_at]; [done|].
  unfold disjoint_regions in *. cbn [r_index r_off r_len] in *. rewrite zlen_cons in Hd. pose proof (zlen_nonneg bs).
  rewrite load_insert_other; [apply IH; lia|]. intros k Hk [= -> ->]. lia.
Qed.

(** ** Parameters *)

Definition value_ok (v : value) : Prop :=
  match v with
  | VString s => zlen s < 2 ^ 30
  | VFloat bs => zlen bs = 4
  | VDouble bs => zlen bs = 8
  | _ => True
  end.

(** Streams and times are not bound. *)
Definition is_bound (v : value) : bool := match v with VStream | VTime => false | _ => true end.

(** The memory a parameter is given: of a string, its characters with the
    terminator and its length. *)
Definition at_region (p : pointer) (n : Z) : list region :=
  match p with At i off => [Region i off n] | _ => [] end.
Definition bind_regions (v : value) (b : MYSQL_BIND) : list region :=
  match scalar v, v with
  | Some (_, bs), _ => at_region (buffer b) (zlen bs)
  | None, VString s => at_region (buffer b) (zlen s + 1) ++ at_region (length_ptr b) 4
  | None, _ => []
  end.

(** The memory of an array of parameters, the last first. *)
Definition array_regions (vals : list value) (bs : list MYSQL_BIND) : list region :=
  rev (concat (zip_with bind_regions vals bs)).

Lemma array_regions_snoc vals bs v b :
  length vals = length bs ->
  array_regions (vals ++ [v]) (bs ++ [b]) = rev (bind_regions v b) ++ array_regions vals bs.
Proof.
  intros E. unfold array_regions. rewrite zip_with_app by done. cbn [zip_with].
  by rewrite concat_app, rev_app_distr, concat_cons, app_nil_r.
Qed.

(** [n] bytes at [p], in one of the regions [rs]. *)
Definition holds_at (rs : list region) (m : mem) (p : pointer) (bs : list byte) : Prop :=
  exists i off, p = At i off /\ Region i off (zlen bs) ∈ rs /\ load_at m i off (length bs) = Some bs.

Definition describes (rs : list region) (m : mem) (v : value) (b : MYSQL_BIND) : Prop :=
  match scalar v with
  | Some (type, bs) => buffer_type b = type /\ holds_at rs m (buffer b) bs
  | None =>
      match v with
      | VString s =>
          buffer_type b = MYSQL_TYPE_STRING /\ buffer_length b = zlen s + 1 /\
          holds_at rs m (buffer b) (s ++ [x00]) /\ holds_at rs m (length_ptr b) (le_bytes 4 (zlen s))
      | _ => False
      end
  end.

Definition apart (i off : Z) (bs : list byte) (rs : list region) : Prop :=
  Forall (disjoint_regions (Region i off (zlen bs))) rs.

Lemma holds_at_store rs m p bs i off new r :
  holds_at rs m p bs -> apart i off new rs -> holds_at (r :: rs) (store_at m i off new) p bs.
Proof.
  intros (j & o & -> & Hin & Hl) Ha. exists j, o. split; [done|]. split; [by apply list_elem_of_further|].
  rewrite load_store_disjoint; [done|]. exact (proj1 (Forall_forall _ _) Ha _ Hin).
Qed.

Lemma holds_at_new rs m i off bs : holds_at (Region i off (zlen bs) :: rs) (store_at m i off bs) (At i off) bs.
Proof. exists i, off. split; [done|]. split; [apply list_elem_of_here|apply load_store_same]. Qed.

Lemma describes_store rs m v b i off new r :
  describes rs m v b -> apart i off new rs -> describes (r :: rs) (store_at m i off new) v b.
Proof.
  unfold describes. intros Hd Ha. destruct (scalar v) as [[type bs]|].
  - destruct Hd as [E Hb]. split; [done|by apply holds_at_store].
  - destruct v as [s| | | | | | | |]; try done. destruct Hd as (E1 & E2 & H1 & H2).
    split; [done|]. split; [done|]. by split; apply holds_at_store.
Qed.

Section item.
  Context (malloc_ok : Z -> bool).
  Hypothesis malloc_works : forall n, malloc_ok n = true.

(** ** An item that collects parameters *)

Definition binds (st : StmtItem) : list MYSQL_BIND := default [] (st_bind st).

(** [vals] have been inserted in an item for [n] parameters. *)
Record item_ok (n : Z) (vals : list value) (st : StmtItem) (rs : list region) : Prop := {
  it_stmt : st_stmt st = true;
  it_total : valTotal st = n;
  it_index : valIndex st = zlen vals;
  it_fits : zlen vals <= n < 2 ^ 31;
  it_binds : zlen (binds st) = n;
  it_arena : arena (st_stuff st) rs;
  it_regions : rs = array_regions vals (take (length vals) (binds st));
  it_vals : Forall2 (describes rs (st_mem st)) vals (take (length vals) (binds st));
}.

(** A new buffer for [bs], which can be written; the others keep what they hold. *)
Lemma new_buffer l rs (bs : list byte) :
  arena l rs -> zlen bs < 2 ^ 31 ->
  exists i off l', stuff_alloc malloc_ok l (zlen bs) = (At i off, l') /\
    arena l' (Region i off (zlen bs) :: rs) /\ apart i off bs rs /\
    forall m, poke l' m (At i off) bs = Ok (store_at m i off bs).
Proof.
  intros Ha Hb. pose proof (zlen_nonneg bs).
  destruct (alloc_spec 256 malloc_ok malloc_works ltac:(lia) l rs (zlen bs) Ha) as (i & off & l' & E & Ha'); [lia|].
  exists i, off, l'. split; [done|]. split; [done|]. destruct Ha' as (Hl & Hu & Hd).
  apply Forall_cons_1 in Hu as [Hu _]. destruct (in_use_block l' _ Hl Hu) as (Hi & Ho & d & Ed & Hbuf & Hle).
  cbn [r_index r_off r_len] in *. split; [by inversion Hd|].
  intros m. cbn [poke]. unfold in_bounds. rewrite Ed, Hbuf, (proj2 (Z.leb_le 0 i)), (proj2 (Z.leb_le 0 off)), (proj2 (Z.leb_le _ _)) by done.
  done.
Qed.

(** The parameters up to the one that is set. *)
Lemma take_set (bs : list MYSQL_BIND) (vals : list value) v b :
  (length vals < length bs)%nat ->
  take (length (vals ++ [v])) (<[length vals := b]> bs) = take (length vals) bs ++ [b].
Proof.
  intros Hl. rewrite length_app. cbn [length].
  rewrite Nat.add_1_r, (take_S_r _ _ b) by (apply list_lookup_insert_eq; lia).
  by rewrite take_insert_ge by lia.
Qed.

(** The next parameter is set. *)
Lemma set_bind_ok n vals st rs v b stuff m rs' :
  item_ok n vals st rs -> zlen vals < n -> arena stuff rs' -> rs' = rev (bind_regions v b) ++ rs ->
  Forall2 (describes rs' m) vals (take (length vals) (binds st)) -> describes rs' m v b ->
  exists st', set_bind st b stuff m = Ok st' /\ item_ok n (vals ++ [v]) st' rs' /\
    st_cmd st' = st_cmd st /\ st_executed st' = st_executed st.
Proof.
  intros [E1 E2 E3 E4 E5 E6 Er E7] Hn Ha Hr Hv Hb. unfold set_bind. pose proof (zlen_nonneg vals).
  destruct (st_bind st) as [bs|] eqn:Es; unfold binds in *; rewrite Es in *; cbn [from_option id of_option mbind result_bind] in *.
  2:{ change (zlen []) with 0 in E5. lia. }
  rewrite E3, to_nat_zlen. destruct (lookup_lt_is_Some_2 bs (length vals)) as [b0 Eb0]; [unfold zlen in *; lia|].
  rewrite Eb0. cbn [of_option mbind result_bind]. eexists. split; [reflexivity|]. split; [|done].
  split; cbn; try done.
  - rewrite u32_small by lia. by rewrite zlen_app.
  - rewrite zlen_app. change (zlen [v]) with 1. lia.
  - unfold binds. cbn. unfold zlen in *. by rewrite length_insert.
  - unfold binds. cbn. rewrite take_set by (unfold zlen in *; lia).
    rewrite array_regions_snoc by (rewrite length_take; unfold zlen in *; lia). by rewrite Hr, Er.
  - unfold binds. cbn. rewrite take_set by (unfold zlen in *; lia). apply Forall2_app; [done|]. by constructor.
Qed.

Lemma inserted_store n vals st rs i off bs r :
  item_ok n vals st rs -> apart i off bs rs ->
  Forall2 (describes (r :: rs) (store_at (st_mem st) i off bs)) vals (take (length vals) (binds st)).
Proof.
  intros Hi Ha. eapply Forall2_impl; [apply (it_vals _ _ _ _ Hi)|]. intros v b Hd. by apply describes_store.
Qed.

Lemma insert_scalar_ok n vals st rs v type bs :
  item_ok n vals st rs -> zlen vals < n -> scalar v = Some (type, bs) -> zlen bs < 2 ^ 31 ->
  exists st' rs', insert_scalar malloc_ok st type bs = Ok st' /\ item_ok n (vals ++ [v]) st' rs' /\
    st_cmd st' = st_cmd st /\ st_executed st' = st_executed st.
Proof.
  intros Hi Hn Hv Hb. unfold insert_scalar. rewrite (it_index _ _ _ _ Hi), (it_total _ _ _ _ Hi).
  rewrite (proj2 (Z.ltb_lt _ _)) by done.
  destruct (new_buffer (st_stuff st) rs bs (it_arena _ _ _ _ Hi) Hb) as (i & off & l' & -> & Ha & Hap & Hw).
  rewrite Hw. cbn [mbind result_bind].
  destruct (set_bind_ok n vals st rs v (Bind type (At i off) 0 Null Null Null) l' (store_at (st_mem st) i off bs)
    (Region i off (zlen bs) :: rs) Hi Hn Ha) as (st' & E & H'); [unfold bind_regions; by rewrite Hv|by apply (inserted_store n)| |].
  - unfold describes. rewrite Hv. split; [done|apply holds_at_new].
  - by exists st', (Region i off (zlen bs) :: rs).
Qed.

Lemma insert_string_ok n vals st rs s :
  item_ok n vals st rs -> zlen vals < n -> zlen s < 2 ^ 30 ->
  exists st' rs', insert_string malloc_ok st s = Ok st' /\ item_ok n (vals ++ [VString s]) st' rs' /\
    st_cmd st' = st_cmd st /\ st_executed st' = st_executed st.
Proof.
  intros Hi Hn Hs. unfold insert_string. rewrite (it_index _ _ _ _ Hi), (it_total _ _ _ _ Hi).
  rewrite (proj2 (Z.ltb_lt _ _)) by done. pose proof (zlen_nonneg s).
  assert (El : zlen (s ++ [x00]) = zlen s + 1) by (rewrite zlen_app; done).
  rewrite (u32_small (zlen s + 1)), <- El by lia. cbv zeta.
  destruct (new_buffer (st_stuff st) rs (s ++ [x00]) (it_arena _ _ _ _ Hi)) as (i & off & l1 & -> & Ha1 & Hap1 & Hw1); [lia|].
  rewrite Hw1. cbn [mbind result_bind]. set (r1 := Region i off (zlen (s ++ [x00]))). set (m1 := store_at _ _ _ _).
  destruct (new_buffer l1 (r1 :: rs) (le_bytes 4 (zlen s)) Ha1) as (j & o & l2 & E2 & Ha2 & Hap2 & Hw2); [done|].
  change (zlen (le_bytes 4 (zlen s))) with 4 in *. rewrite E2, Hw2. cbn [mbind result_bind].
  set (r2 := Region j o 4) in *.
  destruct (set_bind_ok n vals st rs (VString s) (Bind MYSQL_TYPE_STRING (At i off) (zlen (s ++ [x00])) (At j o) Null Null)
    l2 (store_at m1 j o (le_bytes 4 (zlen s))) (r2 :: r1 :: rs) Hi Hn Ha2) as (st' & E & H').
  - unfold bind_regions, r1. cbn. by rewrite El.
  - eapply Forall2_impl; [by apply (inserted_store n vals st rs i off (s ++ [x00]) r1)|].
    intros v b Hd. by apply describes_store.
  - split; [done|]. split; [done|]. split.
    + apply holds_at_store; [apply holds_at_new|done].
    + exact (holds_at_new (r1 :: rs) m1 j o (le_bytes 4 (zlen s))).
  - by exists st', (r2 :: r1 :: rs).
Qed.

(** What an insertion does to the values: values without a parameter are
    ignored. *)
Definition inserted (n : Z) (vals : list value) (v : value) : list value :=
  if is_bound v && (zlen vals <? n) then vals ++ [v] else vals.

Lemma insert_ok n vals st rs v :
  item_ok n vals st rs -> value_ok v ->
  exists st' rs', insert_value malloc_ok st v = Ok st' /\ item_ok n (inserted n vals v) st' rs' /\
    st_cmd st' = st_cmd st /\ st_executed st' = st_executed st.
Proof.
  intros Hi Hv. unfold inserted. destruct (Z.ltb_spec (zlen vals) n) as [Hn|Hn].
  - destruct v as [s|z|z|z|z|bs|bs| |]; cbn [insert_value scalar is_bound andb value_ok] in *;
      try (eapply insert_scalar_ok; [done|done|reflexivity|]); try done; try (rewrite Hv; lia).
    + by apply (insert_string_ok n vals st rs).
    + by exists st, rs.
    + by exists st, rs.
  - exists st, rs. rewrite andb_false_r. split; [|done].
    assert (E : (valIndex st <? valTotal st) = false).
    { rewrite (it_index _ _ _ _ Hi), (it_total _ _ _ _ Hi). by apply Z.ltb_ge. }
    destruct v; cbn [insert_value scalar]; unfold insert_string, insert_scalar; by rewrite ?E.
Qed.

Lemma execute_ok n vals st rs rows :
  item_ok n vals st rs -> zlen vals = n ->
  exists st', Execute st rows = st' /\ item_ok n [] st' [] /\ st_cmd st' = st_cmd st /\
    exists b m, st_executed st' = st_executed st ++ [(st_cmd st, b, st_stuff st, m)] /\
      rs = array_regions vals b /\ arena (st_stuff st) rs /\ Forall2 (describes rs m) vals b.
Proof.
  intros [E1 E2 E3 E4 E5 E6 Er E7] Hn. unfold Execute. rewrite E1, E2, E3, Hn, Z.eqb_refl. cbn [negb].
  eexists. split; [reflexivity|]. split; [|split; [done|]].
  - split; cbn; try done; [pose proof (zlen_nonneg vals); change (zlen []) with 0; lia|by eapply clear_spec].
  - exists (binds st), (st_mem st). split; [done|].
    by rewrite firstn_all2 in Er, E7 by (unfold zlen in *; lia).
Qed.

(** ** Rounds of insertions and executions *)

Fixpoint insert_all (vals : list value) (st : StmtItem) : result StmtItem :=
  match vals with
  | [] => Ok st
  | v :: vals => st ← insert_value malloc_ok st v; insert_all vals st
  end.

Fixpoint run_rounds (rounds : list (list value)) (st : StmtItem) : result StmtItem :=
  match rounds with
  | [] => Ok st
  | vals :: rounds => st ← insert_all vals st; run_rounds rounds (Execute st 0)
  end.

Lemma insert_all_ok n vals done st rs :
  item_ok n done st rs -> Forall value_ok vals ->
  exists st' rs', insert_all vals st = Ok st' /\ item_ok n (foldl (inserted n) done vals) st' rs' /\
    st_cmd st' = st_cmd st /\ st_executed st' = st_executed st.
Proof.
  intros Hi Hv. revert done st rs Hi. induction Hv as [|v vals Hv Hvs IH]; intros done st rs Hi; cbn [insert_all foldl].
  - by exists st, rs.
  - destruct (insert_ok n done st rs v Hi Hv) as (st1 & rs1 & -> & Hi1 & <- & <-). cbn [mbind result_bind].
    by apply (IH _ st1 rs1).
Qed.

(** The first [n] values that can be bound. *)
Lemma inserted_all n vals done :
  zlen done <= n ->
  foldl (inserted n) done vals = done ++ take (Z.to_nat (n - zlen done)) (List.filter is_bound vals).
Proof.
  revert done. induction vals as [|v vals IH]; intros done Hn; cbn [foldl List.filter].
  - by rewrite take_nil, app_nil_r.
  - unfold inserted at 2. destruct (is_bound v); cbn [andb]; [|by apply IH].
    destruct (Z.ltb_spec (zlen done) n).
    + rewrite IH by (rewrite zlen_app; change (zlen [v]) with 1; lia). rewrite zlen_app, <- app_assoc.
      change (zlen [v]) with 1. replace (Z.to_nat (n - zlen done)) with (S (Z.to_nat (n - (zlen done + 1)))) by lia.
      done.
    + rewrite IH by done. by replace (Z.to_nat (n - zlen done)) with O by lia.
Qed.

(** The parameters of one execution. *)
Definition parameters (n : Z) (vals : list value) : list value := take (Z.to_nat n) (List.filter is_bound vals).

(** What the library is given: the command, and an array that describes the
    parameters, whose memory lies in the blocks of the arena, no two parts of it
    overlapping. *)
Definition executed_with (cmd : list byte) (n : Z) (vals : list value)
    (x : list byte * list MYSQL_BIND * list data * mem) : Prop :=
  let '(c, b, l, m) := x in
  let rs := array_regions (parameters n vals) b in
  c = cmd /\ Forall (in_block l) rs /\ ForallOrdPairs disjoint_regions rs /\
  Forall2 (describes rs m) (parameters n vals) b.

Lemma run_rounds_ok n rounds st :
  item_ok n [] st [] -> Forall (Forall value_ok) rounds ->
  Forall (fun vals => n <= zlen (List.filter is_bound vals)) rounds ->
  exists st' xs, run_rounds rounds st = Ok st' /\ st_executed st' = st_executed st ++ xs /\
    Forall2 (executed_with (st_cmd st) n) rounds xs.
Proof.
  intros Hi Hv Hn. revert st Hi. induction rounds as [|vals rounds IH]; intros st Hi; cbn [run_rounds].
  - exists st, []. by rewrite app_nil_r.
  - apply Forall_cons_1 in Hv as [Hv Hvs]. apply Forall_cons_1 in Hn as [Hn Hns].
    destruct (insert_all_ok n vals [] st [] Hi Hv) as (st1 & rs1 & -> & Hi1 & Ec & Ee). cbn [mbind result_bind].
    pose proof (it_fits _ _ _ _ Hi) as [H0 _]. change (zlen []) with 0 in H0.
    rewrite inserted_all in Hi1 by done. cbn [app] in Hi1. change (zlen []) with 0 in Hi1. rewrite Z.sub_0_r in Hi1.
    fold (parameters n vals) in Hi1.
    destruct (execute_ok n _ st1 rs1 0 Hi1) as (st2 & -> & Hi2 & Ec2 & b & m & Ee2 & -> & Ha & Hd).
    { unfold parameters, zlen in *. rewrite length_take. lia. }
    destruct (IH Hvs Hns st2 Hi2) as (st3 & xs & -> & Ee3 & Hx). exists st3, ((st_cmd st1, b, st_stuff st1, m) :: xs).
    split; [done|]. split; [by rewrite Ee3, Ee2, Ee, <- app_assoc|].
    rewrite Ec2, Ec in Hx. rewrite Ec. apply Forall2_cons_2; [|done]. split; [done|].
    destruct Ha as (Hlk & Hu & Hdis). split; [|by split].
    eapply Forall_impl; [exact Hu|]. intros r. by apply in_use_block.
Qed.

End item.

(** C22: A statement with [n] parameters that is prepared once can be executed any
    number of times: as long as each time at least [n] values that can be bound
    are inserted before it is executed, every execution gives the library an array
    that describes the first [n] of them, in order: the type and the bytes of each,
    and for a string its length; the memory these are in lies in the blocks of the
    arena, every write stayed in its block, and no two parts of it overlap. *)
Theorem statements_get_their_values (malloc_ok : Z -> bool) (cmd : list byte) (n : Z) (rounds : list (list value)) :
  (forall k, malloc_ok k = true) -> 0 <= n < 2 ^ 31 -> Forall (Forall value_ok) rounds ->
  Forall (fun vals => n <= zlen (List.filter is_bound vals)) rounds ->
  exists st', run_rounds malloc_ok rounds (Prepare (new_StmtItem true) cmd (Some n)) = Ok st' /\
    Forall2 (executed_with cmd n) rounds (st_executed st').
Proof.
  intros Hm Hn Hv Hr.
  destruct (run_rounds_ok malloc_ok Hm n rounds (Prepare (new_StmtItem true) cmd (Some n))) as (st' & xs & E & Ex & Hx);
    [|done|done|].
  - split; cbn; try done.
    + unfold binds. cbn. destruct (Z.ltb_spec 0 n); cbn [from_option id]; [rewrite zlen_replicate; lia|].
      change (zlen []) with 0. lia.
    + split; [apply List.Forall_nil|]. split; [apply List.Forall_nil|constructor].
  - exists st'. split; [done|]. by rewrite Ex.
Qed.

Definition demo_rounds : list (list value) :=
  [[VInt 10; VStream; VString (bytes "label"); VChar 3]; [VInt (-1); VString []; VString (bytes "ignored")]].

Lemma statements_get_their_values_witness :
  exists st', run_rounds (fun _ => true) demo_rounds
      (Prepare (new_StmtItem true) (bytes "INSERT INTO test1(id, label) VALUES (?,?)") (Some 2)) = Ok st' /\
    Forall2 (executed_with (bytes "INSERT INTO test1(id, label) VALUES (?,?)") 2) demo_rounds (st_executed st').
Proof.
  refine (statements_get_their_values (fun _ => true) (bytes "INSERT INTO test1(id, label) VALUES (?,?)") 2 demo_rounds
    _ _ _ _).
  - done.
  - lia.
  - repeat constructor.
  - repeat constructor; by vm_compute.
Defined.

(** With too few values nothing is executed, and nobody is told. *)
Example too_few_values :
  match insert_value (fun _ => true) (Prepare (new_StmtItem true) [] (Some 2)) (VInt 1) with
  | Ok st => st_executed (Execute st 0) = []
  | Err _ => False
  end.
Proof. by vm_compute. Qed.

(** A column of the greatest length gets no memory for its value: the sum of
    its length and one is zero. *)
Example long_column_overflows :
  match bind_columns (fun _ => true) [] [(252, 2 ^ 32 - 1)] with
  | ([b], [d]) => buffer b = At 0 0 /\ buffer_length b = 2 ^ 32 - 1 /\ is_null b = At 0 0 /\ d_bufsize d = 256
  | _ => False
  end.
Proof. by vm_compute. Qed.
