(* ===== verification/XmlText.v ===== *)
(** * Strings of an XML document (src/tinyxml2/tinyxml2.cpp)

    tinyxml2 keeps the document in one buffer, and a [StrPair] marks a piece of
    it.  When the string is first asked for, a NUL is written at its end, and
    line ends and entities are replaced in place.  A piece is modelled as the
    bytes between its ends; what [GetStr] does to them is done on a buffer of
    these bytes and the NUL, with every access checked. *)

From S2P Require Import Prelude.

Definition LF : byte := x0a.
Definition CR : byte := x0d.
Definition ampersand : byte := x26.
Definition hash_mark : byte := x23.
Definition semicolon : byte := x3b.

(** ** [XMLUtil] *)

Definition IsUTF8Continuation (c : byte) : bool := 128 <=? b2z c.
Definition IsWhiteSpace (c : byte) : bool := negb (IsUTF8Continuation c) && isspace c.
Definition isalpha (c : byte) : bool := let c := tolower c in (97 <=? b2z c) && (b2z c <=? 122).
Definition IsAlpha (c : byte) : bool := if b2z c <? 128 then isalpha c else true.
Definition IsAlphaNum (c : byte) : bool := if b2z c <? 128 then isalpha c || isdigit c else true.

Fixpoint SkipWhiteSpace (p : list byte) : list byte :=
  match p with
  | c :: t => if IsWhiteSpace c then SkipWhiteSpace t else p
  | [] => []
  end.

(** [strncmp (p, t, strlen (t)) == 0] *)
Fixpoint has_prefix (t p : list byte) : bool :=
  match t, p with
  | [], _ => true
  | b :: t, c :: p => bool_decide (b = c) && has_prefix t p
  | _ :: _, [] => false
  end.

(** The position of the first [c]. *)
Fixpoint strchr (p : list byte) (c : byte) : option nat :=
  match p with
  | [] => None
  | b :: p => if bool_decide (b = c) then Some O else S <$> strchr p c
  end.

Definition ReadBOM (p : list byte) : bool * list byte :=
  if has_prefix [xef; xbb; xbf] p then (true, drop 3 p) else (false, p).

Definition FIRST_BYTE_MARK (length : nat) : Z :=
  nth length [0x00; 0x00; 0xC0; 0xE0; 0xF0; 0xF8; 0xFC] 0.

(** The last bytes, from the end; what is left of the number comes first. *)
Fixpoint utf8_tail (n : nat) (input : Z) (output : list byte) : Z * list byte :=
  match n with
  | O => (input, output)
  | S n => utf8_tail n (Z.shiftr input 6) (z2b (Z.land (Z.lor input 0x80) 0xBF) :: output)
  end.

Definition ConvertUTF32ToUTF8 (input : Z) : list byte :=
  let length := if input <? 0x80 then 1%nat else if input <? 0x800 then 2%nat
                else if input <? 0x10000 then 3%nat else if input <? 0x200000 then 4%nat else O in
  match length with
  | O => []
  | S n => let '(first, output) := utf8_tail n input [] in z2b (Z.lor first (FIRST_BYTE_MARK length)) :: output
  end.

Definition digit_of (base : Z) (c : byte) : option Z :=
  if isdigit c then Some (b2z c - 48)
  else if (base =? 16) && (97 <=? b2z c) && (b2z c <=? 102) then Some (b2z c - 97 + 10)
  else if (base =? 16) && (65 <=? b2z c) && (b2z c <=? 70) then Some (b2z c - 65 + 10)
  else None.

(** The loops over the digits run backwards to the first [stop]. *)
Fixpoint ref_value (base : Z) (stop : byte) (r : list byte) (mult ucs : Z) : option Z :=
  match r with
  | [] => None
  | c :: r =>
      if bool_decide (c = stop) then Some ucs else
      v ← digit_of base c; ref_value base stop r (u32 (mult * base)) (u32 (ucs + u32 (mult * v)))
  end.

(** [GetCharacterRef] at the C string [p]: how far it goes and what it stands
    for, or the null pointer. *)
Definition GetCharacterRef (p : list byte) : option (nat * list byte) :=
  match p with
  | _ :: b :: c :: t =>
      if bool_decide (b = hash_mark) then
        let hex := bool_decide (c = x78) in
        let start := if hex then 3%nat else 2%nat in
        if (length p <=? start)%nat then None else
        q ← strchr (drop start p) semicolon;
        let delta := (start + q)%nat in
        ucs ← (if hex then ref_value 16 x78 (rev (take delta p)) 1 0
               else ref_value 10 hash_mark (rev (take delta p)) 1 0);
        Some (S delta, ConvertUTF32ToUTF8 ucs)
      else Some (1%nat, [])
  | _ => Some (1%nat, [])
  end.

(** [sscanf] with [%d] or [%u]: blanks, a sign, digits. *)
Definition digits_at (p : list byte) : option Z :=
  let ds := match list_find (fun b => isdigit b = false) p with Some (n, _) => take n p | None => p end in
  match ds with [] => None | _ => Some (fold_left (fun a d => 10 * a + (b2z d - 48)) ds 0) end.

Definition scan_number (str : list byte) : option (bool * Z) :=
  let p := SkipWhiteSpace str in
  let '(neg, p) := match p with
                   | x2d :: p => (true, p)
                   | x2b :: p => (false, p)
                   | _ => (false, p)
                   end in
  v ← digits_at p; Some (neg, v).

(** A number that the type cannot hold is undefined. *)
Definition ToInt (str : list byte) : result (option Z) :=
  match scan_number str with
  | None => Ok None
  | Some (neg, v) => v ← chk32 (if neg then - v else v); Ok (Some v)
  end.

Definition ToUnsigned (str : list byte) : result (option Z) :=
  match scan_number str with
  | None => Ok None
  | Some (neg, v) => if v <? 2 ^ 32 then Ok (Some (u32 (if neg then - v else v))) else Err Undefined
  end.

Definition ToBool (str : list byte) : result (option bool) :=
  ival ← ToInt str;
  match ival with
  | Some ival => Ok (Some (negb (ival =? 0)))
  | None =>
      if bool_decide (str = bytes "true") then Ok (Some true)
      else if bool_decide (str = bytes "false") then Ok (Some false)
      else Ok None
  end.

(** ** [StrPair] *)

Definition NEEDS_ENTITY_PROCESSING : Z := 0x01.
Definition NEEDS_NEWLINE_NORMALIZATION : Z := 0x02.
Definition COLLAPSE_WHITESPACE : Z := 0x04.
Definition NEEDS_FLUSH : Z := 0x100.
Definition TEXT_ELEMENT : Z := Z.lor NEEDS_ENTITY_PROCESSING NEEDS_NEWLINE_NORMALIZATION.
Definition TEXT_ELEMENT_LEAVE_ENTITIES : Z := NEEDS_NEWLINE_NORMALIZATION.
Definition ATTRIBUTE_VALUE : Z := Z.lor NEEDS_ENTITY_PROCESSING NEEDS_NEWLINE_NORMALIZATION.
Definition ATTRIBUTE_VALUE_LEAVE_ENTITIES : Z := NEEDS_NEWLINE_NORMALIZATION.
Definition COMMENT : Z := NEEDS_NEWLINE_NORMALIZATION.

(** The flags, and the bytes from [_start] to [_end]. *)
Record StrPair := Str {
  sp_flags : Z;
  sp_text : list byte;
}.

Definition new_StrPair : StrPair := Str 0 [].
Definition Set_ (text : list byte) (flags : Z) : StrPair := Str (Z.lor flags NEEDS_FLUSH) text.
Definition Empty (s : StrPair) : bool := match sp_text s with [] => true | _ => false end.
Definition flag_set (flags flag : Z) : bool := negb (Z.land flags flag =? 0).

(** [ParseText]: up to [endTag], and behind it. *)
Fixpoint ParseText (p endTag : list byte) (strFlags : Z) : option (StrPair * list byte) :=
  if has_prefix endTag p then Some (Set_ [] strFlags, drop (length endTag) p) else
  match p with
  | [] => None
  | c :: t => '(s, rest) ← ParseText t endTag strFlags; Some (Str (sp_flags s) (c :: sp_text s), rest)
  end.

Definition name_char (first : bool) (c : byte) : bool :=
  IsAlphaNum c || bool_decide (c = x5f) || bool_decide (c = x3a)
  || (negb first && (bool_decide (c = x2d) || bool_decide (c = x2e))).

Fixpoint name_end (p : list byte) (first : bool) : list byte * list byte :=
  match p with
  | c :: t => if name_char first c then let '(n, rest) := name_end t false in (c :: n, rest) else ([], p)
  | [] => ([], [])
  end.

Definition ParseName (p : list byte) : option (StrPair * list byte) :=
  match name_end p true with
  | ([], _) => None
  | (n, rest) => Some (Set_ n 0, rest)
  end.

(** The C string at the beginning of some bytes that a NUL follows. *)
Fixpoint text_of (file : list byte) : list byte :=
  match file with
  | [] => []
  | c :: file => if bool_decide (c = x00) then [] else c :: text_of file
  end.

(** *** [GetStr] *)

Definition entities : list (list byte * byte) :=
  [(bytes "quot", x22); (bytes "amp", ampersand); (bytes "apos", x27); (bytes "lt", x3c); (bytes "gt", x3e)].

(** The entity at the C string [p], behind the ampersand. *)
Fixpoint find_entity (table : list (list byte * byte)) (p : list byte) : option (nat * byte) :=
  match table with
  | [] => None
  | (pattern, value) :: table =>
      if has_prefix pattern p && bool_decide (p !! length pattern = Some semicolon) then Some (length pattern, value)
      else find_entity table p
  end.

Definition rd (buf : list byte) (p : nat) : result byte := of_option Undefined (buf !! p).
Definition wr (buf : list byte) (q : nat) (c : byte) : result (list byte) :=
  if (q <? length buf)%nat then Ok (<[q := c]> buf) else Err Undefined.

Fixpoint wr_all (buf : list byte) (q : nat) (cs : list byte) : result (list byte) :=
  match cs with
  | [] => Ok buf
  | c :: cs => buf ← wr buf q c; wr_all buf (S q) cs
  end.

(** The C string at [p]; there has to be a NUL. *)
Definition c_string (buf : list byte) (p : nat) : result (list byte) :=
  n ← strlen (drop p buf); Ok (take (Z.to_nat n) (drop p buf)).

(** The loop, with the read pointer [p] and the write pointer [q]; an ampersand
    that starts no entity is passed over, and nothing is written. *)
Fixpoint text_loop (fuel : nat) (flags : Z) (buf : list byte) (p q e : nat) : result (list byte) :=
  match fuel with
  | O => Err NoFuel
  | S fuel =>
      if (e <=? p)%nat then wr buf q x00 else
      c ← rd buf p;
      if flag_set flags NEEDS_NEWLINE_NORMALIZATION && bool_decide (c = CR) then
        c1 ← rd buf (S p); buf ← wr buf q LF;
        text_loop fuel flags buf (if bool_decide (c1 = LF) then S (S p) else S p) (S q) e
      else if flag_set flags NEEDS_NEWLINE_NORMALIZATION && bool_decide (c = LF) then
        c1 ← rd buf (S p); buf ← wr buf q LF;
        text_loop fuel flags buf (if bool_decide (c1 = CR) then S (S p) else S p) (S q) e
      else if flag_set flags NEEDS_ENTITY_PROCESSING && bool_decide (c = ampersand) then
        c1 ← rd buf (S p);
        if bool_decide (c1 = hash_mark) then
          s ← c_string buf p;
          match GetCharacterRef s with
          | None => Err AssertFailed
          | Some (n, value) =>
              buf ← wr_all buf q value;
              _ ← c_assert (bool_decide (q + length value <= p + n)%nat);
              text_loop fuel flags buf (p + n) (q + length value) e
          end
        else
          s ← c_string buf (S p);
          match find_entity entities s with
          | Some (n, value) => buf ← wr buf q value; text_loop fuel flags buf (p + n + 2) (S q) e
          | None => text_loop fuel flags buf (S p) (S q) e
          end
      else buf ← wr buf q c; text_loop fuel flags buf (S p) (S q) e
  end.

(** [CollapseWhitespace] *)
Fixpoint collapse_loop (fuel : nat) (p : list byte) : list byte :=
  match fuel, p with
  | S fuel, c :: t =>
      if IsWhiteSpace c then
        match SkipWhiteSpace t with
        | [] => []
        | d :: t => x20 :: d :: collapse_loop fuel t
        end
      else c :: collapse_loop fuel t
  | _, _ => []
  end.

Definition CollapseWhitespace (s : list byte) : list byte := collapse_loop (length s) (SkipWhiteSpace s).

(** [GetStr]: the C string that is returned; a second call finds it flushed. *)
Definition GetStr (s : StrPair) : result (list byte) :=
  if flag_set (sp_flags s) NEEDS_FLUSH then
    let flags := Z.lxor (sp_flags s) NEEDS_FLUSH in
    buf ← (if flags =? 0 then Ok (sp_text s ++ [x00])
           else text_loop (S (length (sp_text s))) flags (sp_text s ++ [x00]) 0 0 (length (sp_text s)));
    str ← c_string buf 0;
    Ok (if flag_set flags COLLAPSE_WHITESPACE then CollapseWhitespace str else str)
  else c_string (sp_text s ++ [x00]) 0.
