(* ===== verification/XmlTextSpec.v ===== *)
(** * Reading the strings of a document

    [GetStr] works in place; here is what its loop computes, as a function on
    lists, with the proof that the loop follows it and stays within the string; and
    the value that XML gives a text, which is what is computed. *)

From S2P Require Import Prelude Digits XmlText.

(** ** What the loop computes *)

Definition skip_byte (c : byte) (t : list byte) : list byte :=
  match t with d :: t' => if bool_decide (d = c) then t' else t | [] => [] end.

(** The text read with the functions of the code, without the buffer: [None] where a
    numeric reference has no value or an ampersand starts no entity. *)
Fixpoint decode (fuel : nat) (flags : Z) (s : list byte) : option (list byte) :=
  match fuel, s with
  | _, [] => Some []
  | O, _ => None
  | S fuel, c :: t =>
      if flag_set flags NEEDS_NEWLINE_NORMALIZATION && bool_decide (c = CR) then
        (LF ::.) <$> decode fuel flags (skip_byte LF t)
      else if flag_set flags NEEDS_NEWLINE_NORMALIZATION && bool_decide (c = LF) then
        (LF ::.) <$> decode fuel flags (skip_byte CR t)
      else if flag_set flags NEEDS_ENTITY_PROCESSING && bool_decide (c = ampersand) then
        if bool_decide (head t = Some hash_mark) then
          '(n, value) ← GetCharacterRef s; (value ++.) <$> decode fuel flags (drop n s)
        else
          '(n, value) ← find_entity entities t; (value ::.) <$> decode fuel flags (drop (S n) t)
      else (c ::.) <$> decode fuel flags t
  end.

(** ** Facts on the pieces *)

Lemma has_prefix_spec t p : has_prefix t p = true <-> exists k, p = t ++ k.
Proof.
  revert p. induction t as [|b t IH]; intros p; cbn; [split; [by exists p|done]|].
  destruct p as [|c p]; [split; [done|by intros [k [=]]]|].
  rewrite andb_true_iff, bool_decide_eq_true, IH. split.
  - intros [-> [k ->]]. by exists k.
  - intros [k [= -> ->]]. split; [done|by exists k].
Qed.

Lemma strchr_spec p c n : strchr p c = Some n -> p !! n = Some c /\ (n < length p)%nat.
Proof.
  revert n. induction p as [|b p IH]; intros n; cbn; [done|]. case_bool_decide as E.
  - intros [= <-]. subst. split; [done|lia].
  - destruct (strchr p c) as [m|]; [|done]. intros [= <-]. destruct (IH m eq_refl). split; [done|lia].
Qed.

Lemma utf8_length input : (length (ConvertUTF32ToUTF8 input) <= 4)%nat.
Proof.
  unfold ConvertUTF32ToUTF8. destruct (input <? 0x80), (input <? 0x800), (input <? 0x10000), (input <? 0x200000); cbn; lia.
Qed.

(** A reference is at least as long as what it stands for, and ends within the
    string. *)
Lemma character_ref_bounds p n value :
  GetCharacterRef p = Some (n, value) ->
  (length value <= n)%nat /\ (p <> [] -> (0 < n <= length p)%nat).
Proof.
  unfold GetCharacterRef. destruct p as [|a [|b [|c t]]];
    try (intros [= <- <-]; split; [cbn; lia|intros; cbn; (lia || congruence)]).
  case_bool_decide as Eb; [|intros [= <- <-]; cbn; lia]. cbv zeta.
  destruct (Nat.leb_spec (length (a :: b :: c :: t)) (if bool_decide (c = x78) then 3 else 2)) as [|Hs]; [done|].
  set (p := a :: b :: c :: t) in *. set (start := if bool_decide (c = x78) then 3%nat else 2%nat) in *.
  destruct (strchr (drop start p) semicolon) as [q|] eqn:Eq; cbn [mbind option_bind]; [|done].
  apply strchr_spec in Eq as [_ Eq]. rewrite length_drop in Eq.
  destruct (if bool_decide (c = x78) then ref_value _ _ _ _ _ else _) as [ucs|] eqn:Eu; cbn [mbind option_bind]; [|done].
  intros [= <- <-]. assert (Hs2 : (2 <= start)%nat) by (subst start; destruct (bool_decide _); lia).
  split; [|intros _; lia]. pose proof (utf8_length ucs). destruct q as [|q]; [|lia].
  assert (start = 2%nat \/ start = 3%nat) as [E2|E3] by (subst start; destruct (bool_decide _); auto); [|lia].
  subst start. case_bool_decide as Ec; [done|]. subst p. cbn in Eu. subst b. injection Eu as <-. cbn. lia.
Qed.

Lemma find_entity_bounds table p n value :
  find_entity table p = Some (n, value) -> (n < length p)%nat.
Proof.
  induction table as [|[pattern v] table IH]; cbn; [done|].
  destruct (_ && _) eqn:E; [|done]. intros [= <- <-]. apply andb_true_iff in E as [_ E].
  apply bool_decide_eq_true in E. by apply lookup_lt_Some in E.
Qed.

(** ** The loop

    Its buffer is what has been written, the rest of what has been read, what is
    still to be read, and the NUL. *)

Definition no_nul (s : list byte) : Prop := Forall (fun c => c <> x00) s.

Lemma c_string_at pre s t : no_nul s -> c_string (pre ++ s ++ x00 :: t) (length pre) = Ok s.
Proof.
  intros Hs. unfold c_string. rewrite drop_app_length, strlen_cstr.
  - cbn [mbind result_bind]. by rewrite to_nat_zlen, take_app_length.
  - intros Hin. unfold no_nul in Hs. rewrite Forall_forall in Hs. by apply (Hs _ Hin).
Qed.

Lemma rd_at pre c t : rd (pre ++ c :: t) (length pre) = Ok c.
Proof. unfold rd. by rewrite list_lookup_middle. Qed.

Lemma rd_next pre c d t : rd (pre ++ c :: d :: t) (S (length pre)) = Ok d.
Proof. unfold rd. rewrite lookup_app_r by lia. by replace (S (length pre) - length pre)%nat with 1%nat by lia. Qed.

Lemma wr_at out c d t : wr (out ++ d :: t) (length out) c = Ok (out ++ c :: t).
Proof.
  unfold wr. rewrite (proj2 (Nat.ltb_lt _ _)) by (rewrite length_app; cbn; lia).
  by rewrite insert_app_r_alt, Nat.sub_diag by lia.
Qed.

Lemma wr_all_at out cs ds t :
  length ds = length cs -> wr_all (out ++ ds ++ t) (length out) cs = Ok (out ++ cs ++ t).
Proof.
  revert out ds. induction cs as [|c cs IH]; intros out [|d ds]; cbn [length wr_all app]; try done.
  intros [= El]. rewrite wr_at. cbn [mbind result_bind].
  specialize (IH (out ++ [c]) ds El). rewrite length_app, Nat.add_1_r, <- !app_assoc in IH. exact IH.
Qed.

(** The state of the loop. *)
Definition at_state (out junk s : list byte) : list byte := out ++ junk ++ s ++ [x00].

(** [k] bytes are read and [cs] written. *)
Lemma write_state out junk s cs k :
  (length cs <= length junk + k)%nat -> (k <= length s)%nat ->
  exists junk', wr_all (at_state out junk s) (length out) cs = Ok (at_state (out ++ cs) junk' (drop k s)) /\
    length (out ++ cs) = (length out + length cs)%nat /\
    (length (out ++ cs) + length junk' = length out + length junk + k)%nat.
Proof.
  intros Hl Hk. exists (drop (length cs) (junk ++ take k s)).
  assert (Elen : (length (drop (length cs) (junk ++ take k s)) = length junk + k - length cs)%nat)
    by (rewrite length_drop, length_app, length_take; lia).
  split; [|rewrite length_app; split; [done|lia]]. unfold at_state.
  rewrite <- (take_drop k s) at 1. rewrite <- (app_assoc (take k s)), (app_assoc junk).
  set (w := junk ++ take k s). rewrite <- (take_drop (length cs) w) at 1. rewrite <- !app_assoc.
  rewrite wr_all_at; [done|]. rewrite length_take. subst w. rewrite length_app, length_take. lia.
Qed.

Lemma wr_one buf q c : wr buf q c = wr_all buf q [c].
Proof. cbn. by destruct (wr buf q c). Qed.

Section loop.
  Context (flags : Z).

(** What the loop gives for the rest [s] of a text. *)
Definition loops_to (s out : list byte) (r : result (list byte)) : Prop :=
  match decode (length s) flags s with
  | Some v => exists junk, r = Ok (out ++ v ++ x00 :: junk)
  | None => (exists buf, r = Ok buf /\ x00 ∈ buf) \/ r = Err AssertFailed
  end.

Lemma skip_length c t : (length (skip_byte c t) <= length t)%nat.
Proof. destruct t as [|d t]; cbn; [lia|]. case_bool_decide; cbn; lia. Qed.

Lemma decode_fuel n m s : (length s <= n)%nat -> (length s <= m)%nat -> decode n flags s = decode m flags s.
Proof.
  revert m s. induction n as [|n IH]; intros [|m] [|c t] Hn Hm; cbn in Hn, Hm; try done; try lia.
  assert (Ht : forall k, (length k <= length t)%nat -> decode n flags k = decode m flags k) by (intros; apply IH; lia).
  cbn [decode]. destruct (_ && bool_decide (c = CR)).
  { by rewrite Ht by apply skip_length. }
  destruct (_ && bool_decide (c = LF)).
  { by rewrite Ht by apply skip_length. }
  destruct (_ && bool_decide (c = ampersand)); [|by rewrite Ht].
  assert (He : ('(n0, value) ← find_entity entities t; (value ::.) <$> decode n flags (drop (S n0) t)) =
    ('(n0, value) ← find_entity entities t; (value ::.) <$> decode m flags (drop (S n0) t))).
  { destruct (find_entity entities t) as [[k v]|] eqn:E; [|done]. cbn [mbind option_bind].
    rewrite Ht; [done|rewrite length_drop; lia]. }
  assert (Hr : ('(n0, value) ← GetCharacterRef (c :: t); (value ++.) <$> decode n flags (drop n0 (c :: t))) =
    ('(n0, value) ← GetCharacterRef (c :: t); (value ++.) <$> decode m flags (drop n0 (c :: t)))).
  { destruct (GetCharacterRef (c :: t)) as [[k v]|] eqn:E; [|done]. cbn [mbind option_bind].
    destruct (character_ref_bounds _ _ _ E) as [_ Hk]. specialize (Hk ltac:(done)).
    rewrite Ht; [done|rewrite length_drop; cbn in *; lia]. }
  by destruct (bool_decide (head t = _)).
Qed.

Definition decoded (s : list byte) : option (list byte) := decode (length s) flags s.

Lemma loops_weak s out r :
  loops_to s out r -> (exists buf, r = Ok buf /\ x00 ∈ buf) \/ r = Err AssertFailed.
Proof.
  unfold loops_to. destruct (decode _ _ _) as [v|]; [|done]. intros [junk ->]. left. eexists. split; [done|].
  rewrite !elem_of_app. right. right. by left.
Qed.

(** A piece [cs] of what [s] stands for comes from its first bytes. *)
Lemma loops_cons s s' out cs r :
  decoded s = (cs ++.) <$> decoded s' -> loops_to s' (out ++ cs) r -> loops_to s out r.
Proof.
  unfold loops_to. fold (decoded s) (decoded s'). intros ->. destruct (decoded s') as [v|]; cbn; [|done].
  intros [junk ->]. exists junk. by rewrite <- !app_assoc.
Qed.

Definition loop_ok (fuel : nat) : Prop :=
  forall s out junk, no_nul s -> (length s < fuel)%nat ->
    loops_to s out (text_loop fuel flags (at_state out junk s) (length out + length junk) (length out)
      (length out + length junk + length s)).

Lemma step_write fuel s out junk cs k p q e :
  loop_ok fuel -> no_nul s -> (0 < k <= length s)%nat -> (length s < S fuel)%nat ->
  (length cs <= length junk + k)%nat -> p = (length out + length junk + k)%nat ->
  q = (length out + length cs)%nat -> e = (length out + length junk + length s)%nat ->
  loops_to (drop k s) (out ++ cs)
    (buf ← wr_all (at_state out junk s) (length out) cs; text_loop fuel flags buf p q e).
Proof.
  intros Hok Hs Hk Hf Hc -> -> ->. destruct (write_state out junk s cs k Hc ltac:(lia)) as (junk' & -> & El & Ej).
  cbn [mbind result_bind]. specialize (Hok (drop k s) (out ++ cs) junk').
  rewrite length_drop, El in *. replace (length out + length junk + length s)%nat with
    (length out + length cs + length junk' + (length s - k))%nat by lia.
  rewrite <- Ej. apply Hok; [by apply Forall_drop|lia].
Qed.

Lemma skip_spec t c :
  no_nul t -> c <> x00 -> exists k, skip_byte c t = drop k t /\ (k <= 1)%nat /\ (k <= length t)%nat /\
    k = (if bool_decide (nth 0 (t ++ [x00]) x00 = c) then 1%nat else O).
Proof.
  intros Ht Hc. destruct t as [|d t]; cbn.
  - exists O. rewrite bool_decide_eq_false_2 by congruence. split_and!; (done || lia).
  - case_bool_decide as E; [exists 1%nat|exists O]; split_and!; (done || cbn; lia).
Qed.

Lemma hash_eq t : no_nul t -> bool_decide (nth 0 (t ++ [x00]) x00 = hash_mark) = bool_decide (head t = Some hash_mark).
Proof. intros _. destruct t as [|d t]; [done|]. cbn. apply bool_decide_ext. naive_solver. Qed.

Lemma rd_state out junk c t :
  rd (at_state out junk (c :: t)) (length out + length junk) = Ok c /\
  rd (at_state out junk (c :: t)) (S (length out + length junk)) = Ok (nth 0 (t ++ [x00]) x00).
Proof.
  unfold at_state. rewrite app_assoc, <- length_app. cbn [app]. split; [apply rd_at|].
  destruct t as [|d t]; apply rd_next.
Qed.

Lemma string_state out junk c t :
  no_nul (c :: t) ->
  c_string (at_state out junk (c :: t)) (length out + length junk) = Ok (c :: t) /\
  c_string (at_state out junk (c :: t)) (S (length out + length junk)) = Ok t.
Proof.
  intros Hs. unfold at_state. rewrite app_assoc, <- length_app. split; [by apply c_string_at|].
  apply Forall_cons in Hs as [_ Ht]. cbn [app]. rewrite (cons_middle c (out ++ junk)), app_assoc.
  replace (S (length (out ++ junk))) with (length ((out ++ junk) ++ [c])) by (rewrite length_app; cbn; lia).
  by apply c_string_at.
Qed.

(** An ampersand that starts no entity: a byte is left as it was. *)
Lemma pass_state out junk c t :
  exists d junk', at_state out junk (c :: t) = at_state (out ++ [d]) junk' t /\ length junk' = length junk.
Proof.
  unfold at_state. destruct junk as [|d junk].
  - exists c, []. by rewrite <- app_assoc.
  - exists d, (junk ++ [c]). rewrite <- !app_assoc. split; [done|]. rewrite length_app. cbn. lia.
Qed.

Lemma text_loop_spec fuel : loop_ok fuel.
Proof.
  induction fuel as [|fuel IH]; intros s out junk Hs Hf; [lia|]. cbn [text_loop]. destruct s as [|c t].
  { rewrite (proj2 (Nat.leb_le _ _)) by (cbn; lia). unfold at_state. cbn [app].
    exists (tail (junk ++ [x00])). destruct junk as [|d junk]; cbn [app]; rewrite wr_at; done. }
  rewrite (proj2 (Nat.leb_gt _ _)) by (cbn; lia). destruct (rd_state out junk c t) as [-> ->].
  destruct (string_state out junk c t Hs) as [-> ->]. cbn [mbind result_bind].
  pose proof Hs as Hs'. apply Forall_cons in Hs' as [Hc0 Ht0]. change (no_nul t) in Ht0.
  assert (Hd : forall k, (k <= length t)%nat -> decode (length t) flags (drop k t) = decoded (drop k t)).
  { intros k Hk. apply decode_fuel; rewrite length_drop; lia. }
  destruct (flag_set flags NEEDS_NEWLINE_NORMALIZATION && bool_decide (c = CR)) eqn:Ecase1.
  { destruct (skip_spec t LF Ht0 ltac:(done)) as (k & Ek & Hk & Hk' & Ek'). rewrite wr_one.
    apply (loops_cons _ (drop (S k) (c :: t)) _ [LF]).
    - unfold decoded at 1. cbn [decode length]. by rewrite Ecase1, Ek, Hd.
    - apply step_write; try done; cbn [length]; try lia.
      rewrite Ek'. destruct (bool_decide (nth 0 (t ++ [x00]) x00 = LF)); cbn; lia. }
  destruct (flag_set flags NEEDS_NEWLINE_NORMALIZATION && bool_decide (c = LF)) eqn:Ecase2.
  { destruct (skip_spec t CR Ht0 ltac:(done)) as (k & Ek & Hk & Hk' & Ek'). rewrite wr_one.
    apply (loops_cons _ (drop (S k) (c :: t)) _ [LF]).
    - unfold decoded at 1. cbn [decode length]. by rewrite Ecase1, Ecase2, Ek, Hd.
    - apply step_write; try done; cbn [length]; try lia.
      rewrite Ek'. destruct (bool_decide (nth 0 (t ++ [x00]) x00 = CR)); cbn; lia. }
  destruct (flag_set flags NEEDS_ENTITY_PROCESSING && bool_decide (c = ampersand)) eqn:Ecase3.
  2:{ rewrite wr_one. apply (loops_cons _ (drop 1 (c :: t)) _ [c]).
      - unfold decoded at 1. cbn [decode length]. by rewrite Ecase1, Ecase2, Ecase3.
      - apply step_write; try done; cbn [length]; lia. }
  rewrite (hash_eq t Ht0). destruct (bool_decide (head t = Some hash_mark)) eqn:Eh.
  - destruct (GetCharacterRef (c :: t)) as [[n value]|] eqn:Er.
    2:{ unfold loops_to. cbn [decode length]. rewrite Ecase1, Ecase2, Ecase3, Eh, Er. by right. }
    destruct (character_ref_bounds _ _ _ Er) as [Hv Hn]. specialize (Hn ltac:(done)).
    apply (loops_cons _ (drop n (c :: t)) _ value).
    + unfold decoded at 1. cbn [decode length].
      rewrite Ecase1, Ecase2, Ecase3, Eh, Er. cbn [mbind option_bind].
      destruct n as [|n]; [lia|]. cbn [drop]. cbn [length] in Hn. by rewrite Hd by lia.
    + destruct (write_state out junk (c :: t) value n ltac:(lia) ltac:(lia)) as (junk' & E & El & Ej).
      pose proof (step_write fuel (c :: t) out junk value n _ _ _ IH Hs Hn Hf ltac:(lia) eq_refl eq_refl eq_refl) as Hw.
      rewrite E in *. cbn [mbind result_bind] in *.
      rewrite bool_decide_eq_true_2 by lia. exact Hw.
  - destruct (find_entity entities t) as [[n value]|] eqn:Ee.
    + pose proof (find_entity_bounds _ _ _ _ Ee) as Hn. rewrite wr_one.
      apply (loops_cons _ (drop (S (S n)) (c :: t)) _ [value]).
      * unfold decoded at 1. cbn [decode length].
        rewrite Ecase1, Ecase2, Ecase3, Eh, Ee. cbn [mbind option_bind].
        cbn [drop]. by rewrite <- Hd by lia.
      * apply step_write; try done; cbn [length]; lia.
    + destruct (pass_state out junk c t) as (d & junk' & -> & Ej).
      unfold loops_to. cbn [decode length].
      rewrite Ecase1, Ecase2, Ecase3, Eh, Ee. cbn [mbind option_bind].
      apply (loops_weak t (out ++ [d])). specialize (IH t (out ++ [d]) junk' Ht0 ltac:(cbn in Hf; lia)).
      rewrite length_app, Ej in IH. cbn [length] in *.
      replace (S (length out + length junk)) with (length out + 1 + length junk)%nat by lia.
      replace (S (length out)) with (length out + 1)%nat by lia.
      by replace (length out + length junk + S (length t))%nat with (length out + 1 + length junk + length t)%nat by lia.
Qed.

End loop.

(** ** [GetStr] *)

Lemma text_of_app s t : no_nul s -> text_of (s ++ x00 :: t) = s.
Proof.
  induction s as [|c s IH]; intros Hs; [done|]. apply Forall_cons in Hs as [Hc Hs].
  cbn. rewrite bool_decide_eq_false_2 by done. by rewrite IH.
Qed.

Lemma text_of_nul s : no_nul (text_of s).
Proof.
  induction s as [|c s IH]; cbn; [by apply Forall_nil|]. case_bool_decide; [by apply Forall_nil|by apply Forall_cons].
Qed.

Lemma text_of_split s : x00 ∈ s -> exists t, s = text_of s ++ x00 :: t.
Proof.
  induction s as [|c s IH]; [by intros ?%elem_of_nil|]. intros [<-|Hin]%elem_of_cons; cbn; [by exists s|].
  case_bool_decide as E; [subst; by exists s|]. destruct (IH Hin) as [t Et]. exists t. cbn. by rewrite <- Et.
Qed.

Lemma text_of_idle s : no_nul s -> text_of s = s.
Proof.
  induction s as [|c s IH]; intros Hs; [done|]. apply Forall_cons in Hs as [Hc Hs].
  cbn. rewrite bool_decide_eq_false_2 by done. by rewrite IH.
Qed.

Lemma text_of_prefix v t : text_of (v ++ x00 :: t) = text_of v.
Proof. induction v as [|c v IH]; cbn; [done|]. by rewrite IH. Qed.

Lemma c_string_text buf : x00 ∈ buf -> c_string buf 0 = Ok (text_of buf).
Proof.
  intros Hin. destruct (text_of_split buf Hin) as [t Et]. rewrite Et at 1.
  exact (c_string_at [] (text_of buf) t (text_of_nul buf)).
Qed.

(** The words of a text. *)
Fixpoint words (s : list byte) : list (list byte) :=
  match s with
  | [] => []
  | c :: t =>
      if IsWhiteSpace c then words t else
      match t with
      | d :: _ => if IsWhiteSpace d then [c] :: words t
                  else match words t with w :: ws => (c :: w) :: ws | [] => [[c]] end
      | [] => [[c]]
      end
  end.

Fixpoint spaced (ws : list (list byte)) : list byte :=
  match ws with [] => [] | [w] => w | w :: ws => w ++ x20 :: spaced ws end.

Lemma words_skip s : words (SkipWhiteSpace s) = words s.
Proof. induction s as [|c s IH]; cbn; [done|]. destruct (IsWhiteSpace c) eqn:E; [done|]. cbn. by rewrite E. Qed.

Lemma skip_white s : match SkipWhiteSpace s with c :: _ => IsWhiteSpace c = false | [] => True end.
Proof. induction s as [|c s IH]; cbn; [done|]. by destruct (IsWhiteSpace c) eqn:E. Qed.

Lemma skip_shorter s : (length (SkipWhiteSpace s) <= length s)%nat.
Proof. induction s as [|c s IH]; cbn; [lia|]. destruct (IsWhiteSpace c); cbn; lia. Qed.

Lemma words_some c t : IsWhiteSpace c = false -> words (c :: t) <> [].
Proof. intros Hc. destruct t as [|d t]; cbn; rewrite Hc; [done|]. destruct (IsWhiteSpace d); [done|]. by case_match. Qed.

(** What comes behind a byte of a word. *)
Lemma spaced_words c t :
  IsWhiteSpace c = false ->
  spaced (words (c :: t)) =
  c :: match t with
       | [] => []
       | d :: _ => if IsWhiteSpace d then match words t with [] => [] | ws => x20 :: spaced ws end else spaced (words t)
       end.
Proof.
  intros Hc. cbn [words]. rewrite Hc. destruct t as [|d t]; [done|]. destruct (IsWhiteSpace d) eqn:Hd.
  - by destruct (words (d :: t)).
  - pose proof (words_some d t Hd) as Hw.
    by destruct (words (d :: t)) as [|w [|w' ws]].
Qed.

Lemma collapse_loop_spec fuel c t :
  (length t <= fuel)%nat -> IsWhiteSpace c = false -> c :: collapse_loop fuel t = spaced (words (c :: t)).
Proof.
  revert c t. induction fuel as [fuel IH] using lt_wf_ind. intros c t Hf Hc. rewrite spaced_words by done. f_equal.
  destruct fuel as [|fuel]; [by destruct t; [|cbn in Hf; lia]|]. destruct t as [|d t]; [done|]. cbn in Hf. cbn [collapse_loop].
  destruct (IsWhiteSpace d) eqn:Hd; [|apply IH; (done || lia)]. cbn [words]. rewrite Hd.
  pose proof (skip_white t) as Hs. pose proof (skip_shorter t) as Hl. rewrite <- (words_skip t).
  destruct (SkipWhiteSpace t) as [|x s]; [done|]. cbn in Hl. rewrite (IH fuel ltac:(lia) x s ltac:(lia) Hs).
  pose proof (words_some x s Hs) as Hw. by destruct (words (x :: s)).
Qed.

Lemma collapse_spec s : CollapseWhitespace s = spaced (words s).
Proof.
  unfold CollapseWhitespace. rewrite <- words_skip. pose proof (skip_white s) as Hs. pose proof (skip_shorter s) as Hl.
  destruct (SkipWhiteSpace s) as [|c t]; [by destruct (length s)|].
  destruct (length s) as [|n] eqn:E; [cbn in Hl; lia|]. cbn [collapse_loop]. rewrite Hs.
  apply collapse_loop_spec; [cbn in Hl; lia|done].
Qed.

Lemma flush_flags f : 0 <= f < 256 ->
  flag_set (Z.lor f NEEDS_FLUSH) NEEDS_FLUSH = true /\ Z.lxor (Z.lor f NEEDS_FLUSH) NEEDS_FLUSH = f.
Proof.
  intros Hf. assert (Hd : Z.land f NEEDS_FLUSH = 0).
  { change NEEDS_FLUSH with (Z.shiftl 1 8). apply Z.bits_inj'. intros n Hn. rewrite Z.land_spec, Z.bits_0.
    destruct (Z.ltb_spec n 8).
    - rewrite Z.shiftl_spec_low by done. apply andb_false_r.
    - rewrite (Z.bits_above_log2 f n); [done|lia|]. destruct (Z.eq_dec f 0) as [->|]; [cbn; lia|].
      apply Z.log2_lt_pow2; [lia|]. apply (Z.lt_le_trans _ (2 ^ 8)); [cbn; lia|]. apply Z.pow_le_mono_r; lia. }
  split.
  - unfold flag_set. rewrite Z.land_lor_distr_l, Hd. done.
  - rewrite <- Z.lxor_lor by done. rewrite Z.lxor_assoc, Z.lxor_nilpotent. apply Z.lxor_0_r.
Qed.

Lemma get_str_loop text f buf :
  0 < f < 256 -> text_loop (S (length text)) f (text ++ [x00]) 0 0 (length text) = Ok buf -> x00 ∈ buf ->
  GetStr (Set_ text f) = Ok (if flag_set f COLLAPSE_WHITESPACE then spaced (words (text_of buf)) else text_of buf).
Proof.
  intros Hf E Hin. unfold GetStr. cbn [Set_ sp_flags sp_text]. destruct (flush_flags f ltac:(lia)) as [-> ->].
  rewrite (proj2 (Z.eqb_neq _ _)) by lia. rewrite E. cbn [mbind result_bind]. rewrite (c_string_text buf Hin).
  cbn [mbind result_bind]. by rewrite collapse_spec.
Qed.

Lemma get_str_fails text f e :
  0 < f < 256 -> text_loop (S (length text)) f (text ++ [x00]) 0 0 (length text) = Err e -> GetStr (Set_ text f) = Err e.
Proof.
  intros Hf E. unfold GetStr. cbn [Set_ sp_flags sp_text]. destruct (flush_flags f ltac:(lia)) as [-> ->].
  rewrite (proj2 (Z.eqb_neq _ _)) by lia. by rewrite E.
Qed.

Lemma get_str_name n : no_nul n -> GetStr (Set_ n 0) = Ok n.
Proof.
  intros Hn. unfold GetStr. cbn [Set_ sp_flags sp_text]. destruct (flush_flags 0 ltac:(lia)) as [-> ->].
  cbn [Z.eqb mbind result_bind]. rewrite (c_string_text (n ++ [x00])) by (rewrite elem_of_app; right; by left).
  cbn [mbind result_bind]. by rewrite text_of_app.
Qed.

(** ** Numbers *)

Lemma skip_solid c t : IsWhiteSpace c = false -> SkipWhiteSpace (c :: t) = c :: t.
Proof. cbn. by intros ->. Qed.

Definition is_unsigned (v : Z) : Prop := 0 <= v < 2 ^ 32.

Lemma digit_facts c : isdigit c = true -> IsWhiteSpace c = false /\ c <> x00 /\ c <> CR.
Proof. by destruct c. Qed.

Lemma digits_at_print v : 0 <= v -> digits_at (print_u v) = Some v.
Proof.
  intros Hv. unfold digits_at. assert (list_find (fun b => isdigit b = false) (print_u v) = None) as ->.
  { apply list_find_None. eapply Forall_impl; [by apply print_u_isdigit|]. cbn. intros x ->. done. }
  pose proof (digits_value_print v Hv) as E. unfold digits_value in E.
  destruct (print_u v) eqn:Ep; [by apply print_u_nonempty in Ep|]. by rewrite E.
Qed.

Lemma print_u_start v : 0 <= v -> exists c t, print_u v = c :: t /\ isdigit c = true.
Proof.
  intros Hv. pose proof (print_u_isdigit v Hv) as Hd. destruct (print_u v) as [|c t] eqn:E; [by apply print_u_nonempty in E|].
  apply Forall_cons in Hd as [Hc _]. by exists c, t.
Qed.

Lemma scan_unsigned v : 0 <= v -> scan_number (print_u v) = Some (false, v).
Proof.
  intros Hv. pose proof (digits_at_print v Hv) as E. destruct (print_u_start v Hv) as (c & t & Ep & Hc). rewrite Ep in *.
  unfold scan_number. rewrite (skip_solid c t) by (by apply digit_facts).
  assert (H : match c :: t with x2d :: p => (true, p) | x2b :: p => (false, p) | _ => (false, c :: t) end = (false, c :: t))
    by (by destruct c).
  rewrite H. cbn zeta beta iota. by rewrite E.
Qed.

Lemma scan_negative v : 0 <= v -> scan_number (x2d :: print_u v) = Some (true, v).
Proof.
  intros Hv. unfold scan_number. rewrite (skip_solid x2d) by done. cbn zeta beta iota. by rewrite digits_at_print.
Qed.

Lemma to_unsigned_print v : is_unsigned v -> ToUnsigned (print_u v) = Ok (Some v).
Proof.
  intros [H0 H1]. unfold ToUnsigned. rewrite (scan_unsigned v H0), (proj2 (Z.ltb_lt _ _)) by done.
  unfold u32. by rewrite Z.mod_small.
Qed.

Lemma to_int_print v : - 2 ^ 31 <= v < 2 ^ 31 -> ToInt (print_d v) = Ok (Some v).
Proof.
  intros Hv. unfold ToInt, print_d. destruct (Z.ltb_spec v 0) as [Hn|Hn].
  - rewrite (scan_negative (- v)), Z.opp_involutive, (chk32_ok v Hv) by lia. done.
  - by rewrite (scan_unsigned v Hn), (chk32_ok v Hv).
Qed.

(** ** The reference

    How XML and the documentation of the flags define the value of a text,
    without reference to the code: line ends are one LF; a named reference is one
    of the five of XML, a character reference the UTF-8 encoding of its number; and
    collapsed white space is one blank between two words. *)

(** The five entities of XML. *)
Definition entity_value (name : list byte) : option byte :=
  if bool_decide (name = bytes "lt") then Some x3c
  else if bool_decide (name = bytes "gt") then Some x3e
  else if bool_decide (name = bytes "amp") then Some x26
  else if bool_decide (name = bytes "quot") then Some x22
  else if bool_decide (name = bytes "apos") then Some x27
  else None.

(** The value of a digit: its place among the digits. *)
Definition place (digits : list byte) (c : byte) : option Z := (fun p => Z.of_nat p.1) <$> list_find (c =.) digits.
Definition decimal_digit (c : byte) : option Z := place (bytes "0123456789") c.
Definition hex_digit (c : byte) : option Z :=
  match place (bytes "0123456789abcdef") c with
  | Some v => Some v
  | None => place (bytes "0123456789ABCDEF") c
  end.

(** The number some digits stand for, the first of which counts most. *)
Fixpoint number_of (base : Z) (digit : byte -> option Z) (acc : Z) (ds : list byte) : option Z :=
  match ds with
  | [] => Some acc
  | d :: ds => v ← digit d; number_of base digit (base * acc + v) ds
  end.

(** UTF-8: the bits of a code point, six to a byte behind the first. *)
Definition utf8 (c : Z) : list byte :=
  if c <? 0x80 then [z2b c]
  else if c <? 0x800 then [z2b (192 + c / 64); z2b (128 + c mod 64)]
  else if c <? 0x10000 then [z2b (224 + c / 4096); z2b (128 + c / 64 mod 64); z2b (128 + c mod 64)]
  else [z2b (240 + c / 262144); z2b (128 + c / 4096 mod 64); z2b (128 + c / 64 mod 64); z2b (128 + c mod 64)].

(** A character reference has a digit and stands for a code point of Unicode. *)
Definition character (base : Z) (digit : byte -> option Z) (ds : list byte) : option (list byte) :=
  match ds with
  | [] => None
  | _ => c ← number_of base digit 0 ds; if c <? 0x110000 then Some (utf8 c) else None
  end.

(** What stands between an ampersand and its semicolon. *)
Definition reference_value (body : list byte) : option (list byte) :=
  match body with
  | x23 :: x78 :: ds => character 16 hex_digit ds
  | x23 :: ds => character 10 decimal_digit ds
  | name => (fun c => [c]) <$> entity_value name
  end.

Fixpoint to_semicolon (t : list byte) : option (list byte * list byte) :=
  match t with
  | [] => None
  | c :: t => if bool_decide (c = x3b) then Some ([], t) else '(body, rest) ← to_semicolon t; Some (c :: body, rest)
  end.

(** The value of a text; [lines]: line ends are normalized, [refs]: references are
    replaced.  [None]: an ampersand starts no reference that XML knows. *)
Fixpoint text_value (fuel : nat) (lines refs : bool) (s : list byte) : option (list byte) :=
  match fuel, s with
  | _, [] => Some []
  | O, _ => None
  | S fuel, c :: t =>
      if lines && bool_decide (c ∈ [x0d; x0a]) then
        let other := if bool_decide (c = x0d) then x0a else x0d in
        (x0a ::.) <$> text_value fuel lines refs
          (match t with d :: t' => if bool_decide (d = other) then t' else t | [] => [] end)
      else if refs && bool_decide (c = x26) then
        '(body, rest) ← to_semicolon t;
        value ← reference_value body; (value ++.) <$> text_value fuel lines refs rest
      else (c ::.) <$> text_value fuel lines refs t
  end.

Definition is_blank (c : byte) : bool := bool_decide (c ∈ [x20; x09; x0a; x0b; x0c; x0d]).

(** The words of a text, one blank between two. *)
Fixpoint blank_words (s : list byte) : list (list byte) :=
  match s with
  | [] => []
  | c :: t =>
      if is_blank c then blank_words t else
      match t with
      | d :: _ => if is_blank d then [c] :: blank_words t
                  else match blank_words t with w :: ws => (c :: w) :: ws | [] => [[c]] end
      | [] => [[c]]
      end
  end.

(** *** The reference and the loop *)

Lemma is_blank_white c : is_blank c = IsWhiteSpace c.
Proof. by destruct c. Qed.

Lemma blank_words_eq s : blank_words s = words s.
Proof.
  induction s as [|c t IH]; [done|]. cbn [blank_words words]. rewrite is_blank_white, IH.
  destruct (IsWhiteSpace c); [done|]. destruct t as [|d t]; [done|]. by rewrite (is_blank_white d).
Qed.

Lemma decimal_digit_eq c : decimal_digit c = digit_of 10 c.
Proof. by destruct c. Qed.
Lemma hex_digit_eq c : hex_digit c = digit_of 16 c.
Proof. by destruct c. Qed.

(** Reading the digits backwards gives the same number, modulo 2^32. *)
Lemma number_app base digit ds : forall acc d,
  number_of base digit acc (ds ++ [d]) = (a ← number_of base digit acc ds; v ← digit d; Some (base * a + v)).
Proof.
  induction ds as [|c ds IH]; intros acc d; cbn [app number_of mbind option_bind]; [done|].
  destruct (digit c); cbn [mbind option_bind]; [apply IH|done].
Qed.

Lemma ref_value_digits base digit stop ds v tl : forall mult ucs,
  (forall c, digit c = digit_of base c) -> digit_of base stop = None ->
  number_of base digit 0 ds = Some v ->
  ref_value base stop (rev ds ++ stop :: tl) mult ucs = Some (if bool_decide (ds = []) then ucs else u32 (ucs + mult * v)).
Proof.
  intros mult ucs Hd Hs. revert v mult ucs. induction ds as [|d ds IH] using rev_ind; intros v mult ucs Hv.
  { cbn. by rewrite bool_decide_eq_true_2. }
  rewrite rev_app_distr. cbn [rev app ref_value]. rewrite number_app in Hv.
  destruct (number_of base digit 0 ds) as [a|] eqn:Ea; [|done]. cbn [mbind option_bind] in Hv. rewrite <- Hd.
  destruct (digit d) as [w|] eqn:Ew; [|done]. cbn [mbind option_bind] in *. injection Hv as <-.
  rewrite bool_decide_eq_false_2 by (intros ->; by rewrite Hd, Hs in Ew).
  rewrite (IH a) by done. rewrite (bool_decide_eq_false_2 (ds ++ [d] = [])) by (by destruct ds).
  f_equal. case_bool_decide as E.
  - subst ds. injection Ea as <-. rewrite u32_add_r. f_equal. lia.
  - rewrite u32_add_l. unfold wrapU. rewrite (Z.mod_eq (mult * w)), (Z.mod_eq (mult * base)) by done.
    rewrite <- (Z.mod_add (ucs + mult * (base * a + w)) (- (mult * w / 2 ^ 32) - mult * base / 2 ^ 32 * a)) by done.
    f_equal. ring.
Qed.

(** The bits of UTF-8. *)
Lemma b2z_mod x : b2z (z2b x) = x mod 256.
Proof.
  rewrite <- (b2z_z2b (x mod 256)) by (apply Z.mod_pos_bound; lia). unfold z2b. by rewrite Z.mod_mod.
Qed.

Lemma continuation_bits x : Z.land (Z.lor x 0x80) 0xBF = 128 + x mod 64.
Proof.
  assert (Hbyte : forall b, Z.land (Z.lor (b2z b) 0x80) 0xBF = 128 + b2z b mod 64) by (intros b; destruct b; vm_compute; reflexivity).
  specialize (Hbyte (z2b x)). rewrite b2z_mod in Hbyte.
  rewrite <- (Z.mod_mod_divide x 256 64), <- Hbyte by (by exists 4).
  rewrite !Z.land_lor_distr_l. f_equal. change 256 with (2 ^ 8).
  rewrite <- (Z.land_ones x 8), <- Z.land_assoc by done. done.
Qed.

Lemma first_bits x : 0 <= x ->
  (x < 32 -> Z.lor x 0xC0 = 192 + x) /\ (x < 16 -> Z.lor x 0xE0 = 224 + x) /\ (x < 8 -> Z.lor x 0xF0 = 240 + x).
Proof.
  intros Hx.
  assert (Hbyte : forall b, (b2z b < 32 -> Z.lor (b2z b) 0xC0 = 192 + b2z b) /\
    (b2z b < 16 -> Z.lor (b2z b) 0xE0 = 224 + b2z b) /\ (b2z b < 8 -> Z.lor (b2z b) 0xF0 = 240 + b2z b)).
  { intros b; destruct b; vm_compute; repeat split; intros; (reflexivity || discriminate). }
  specialize (Hbyte (z2b x)). rewrite b2z_mod in Hbyte. destruct Hbyte as (H1 & H2 & H3).
  repeat split; intros H; rewrite (Z.mod_small x) in * by lia; auto.
Qed.

Lemma utf8_eq c : 0 <= c < 0x110000 -> ConvertUTF32ToUTF8 c = utf8 c.
Proof.
  intros Hc. unfold ConvertUTF32ToUTF8, utf8.
  destruct (Z.ltb_spec c 0x80) as [|H1]; [cbn; by rewrite Z.lor_0_r|].
  destruct (Z.ltb_spec c 0x800) as [|H2]; [|destruct (Z.ltb_spec c 0x10000) as [|H3]; [|rewrite (proj2 (Z.ltb_lt c 0x200000)) by lia]];
    cbn [utf8_tail FIRST_BYTE_MARK nth]; rewrite !continuation_bits, !Z.shiftr_div_pow2 by done;
    rewrite ?Z.div_div by done; change (2 ^ 6 * (2 ^ 6 * 2 ^ 6)) with 262144; change (2 ^ 6 * 2 ^ 6 * 2 ^ 6) with 262144;
    change (2 ^ 6 * 2 ^ 6) with 4096; change (2 ^ 6) with 64.
  - destruct (first_bits (c / 64)) as [E _]; [apply Z.div_pos; lia|]. rewrite E; [done|]. apply Z.div_lt_upper_bound; lia.
  - destruct (first_bits (c / 4096)) as (_ & E & _); [apply Z.div_pos; lia|]. rewrite E; [done|]. apply Z.div_lt_upper_bound; lia.
  - destruct (first_bits (c / 262144)) as (_ & _ & E); [apply Z.div_pos; lia|]. rewrite E; [done|]. apply Z.div_lt_upper_bound; lia.
Qed.

(** A reference ends at its semicolon. *)
Lemma to_semicolon_spec t body rest :
  to_semicolon t = Some (body, rest) -> t = body ++ x3b :: rest /\ (x3b ∉ body).
Proof.
  revert body. induction t as [|c t IH]; intros body; cbn [to_semicolon]; [done|]. case_bool_decide as E.
  - intros [= <- <-]. subst. split; [done|apply not_elem_of_nil].
  - destruct (to_semicolon t) as [[b r]|]; [|done]. cbn. intros [= <- <-]. destruct (IH b eq_refl) as [-> Hb].
    split; [done|]. rewrite not_elem_of_cons. by split; [apply not_eq_sym|].
Qed.

Lemma strchr_semicolon ds rest : x3b ∉ ds -> strchr (ds ++ x3b :: rest) semicolon = Some (length ds).
Proof.
  induction ds as [|d ds IH]; cbn; [done|]. intros [Hd Hds]%not_elem_of_cons.
  rewrite bool_decide_eq_false_2 by (by apply not_eq_sym). by rewrite IH.
Qed.

Lemma character_ref base digit stop ds value tl :
  (forall c, digit c = digit_of base c) -> digit_of base stop = None -> 0 < base <= 16 ->
  character base digit ds = Some value ->
  exists v, ref_value base stop (rev ds ++ stop :: tl) 1 0 = Some v /\ ConvertUTF32ToUTF8 v = value.
Proof.
  intros Hd Hs Hb. unfold character. destruct ds as [|d ds]; [done|]. set (w := d :: ds).
  destruct (number_of base digit 0 w) as [c|] eqn:E; [|done]. cbn [mbind option_bind].
  destruct (Z.ltb_spec c 0x110000) as [Hc|]; [|done]. intros [= <-].
  assert (H0 : forall l acc a, 0 <= acc -> number_of base digit acc l = Some a -> 0 <= a).
  { induction l as [|x l IH]; intros acc a Ha; cbn [number_of]; [by intros [= <-]|].
    destruct (digit x) as [z|] eqn:Ez; [|done]. cbn [mbind option_bind]. apply IH.
    assert (0 <= z); [|nia]. rewrite Hd in Ez. unfold digit_of in Ez. unfold isdigit in Ez.
    destruct ((48 <=? b2z x) && (b2z x <=? 57)) eqn:E1; [injection Ez as <-; bool_lia|].
    destruct ((base =? 16) && (97 <=? b2z x) && (b2z x <=? 102)) eqn:E2; [injection Ez as <-; bool_lia|].
    destruct ((base =? 16) && (65 <=? b2z x) && (b2z x <=? 70)) eqn:E3; [injection Ez as <-; bool_lia|done]. }
  pose proof (H0 _ 0 c ltac:(lia) E) as Hc0.
  exists c. split; [|by apply utf8_eq]. rewrite (ref_value_digits base digit stop w c tl 1 0 Hd Hs E).
  rewrite bool_decide_eq_false_2 by done. f_equal. rewrite u32_small; lia.
Qed.

Lemma reference_decimal ds rest value :
  x3b ∉ ds -> head ds <> Some x78 -> character 10 decimal_digit ds = Some value ->
  GetCharacterRef (x26 :: x23 :: ds ++ x3b :: rest) = Some (S (S (S (length ds))), value).
Proof.
  intros Hds Hx Hv. destruct (character_ref 10 decimal_digit x23 ds value [x26] decimal_digit_eq eq_refl ltac:(lia) Hv)
    as (v & Ev & <-).
  destruct ds as [|d ds]; [done|]. cbn [GetCharacterRef app]. rewrite (bool_decide_eq_true_2 (x23 = hash_mark)) by done.
  rewrite (bool_decide_eq_false_2 (d = x78)) by (intros ->; by apply Hx). cbv zeta.
  rewrite (proj2 (Nat.leb_gt _ _)) by (cbn; lia). cbn [drop].
  change (d :: ds ++ x3b :: rest) with ((d :: ds) ++ x3b :: rest). rewrite strchr_semicolon by done.
  cbn [mbind option_bind Nat.add take]. rewrite take_app_length.
  cbn [rev] in *. rewrite <- !app_assoc in *. cbn [app] in *. change hash_mark with x23. by rewrite Ev.
Qed.

Lemma reference_hex ds rest value :
  x3b ∉ ds -> character 16 hex_digit ds = Some value ->
  GetCharacterRef (x26 :: x23 :: x78 :: ds ++ x3b :: rest) = Some (S (S (S (S (length ds)))), value).
Proof.
  intros Hds Hv. destruct (character_ref 16 hex_digit x78 ds value [x23; x26] hex_digit_eq eq_refl ltac:(lia) Hv)
    as (v & Ev & <-).
  cbn [GetCharacterRef]. rewrite (bool_decide_eq_true_2 (x23 = hash_mark)), (bool_decide_eq_true_2 (x78 = x78)) by done. cbv zeta.
  rewrite (proj2 (Nat.leb_gt _ _)) by (rewrite ?length_app; cbn; rewrite length_app; cbn; lia). cbn [drop].
  rewrite drop_0, strchr_semicolon by done. cbn [mbind option_bind Nat.add take]. rewrite take_app_length.
  cbn [rev] in *. rewrite <- !app_assoc in *. cbn [app] in *. by rewrite Ev.
Qed.

Lemma reference_named name c rest :
  entity_value name = Some c -> find_entity entities (name ++ x3b :: rest) = Some (length name, c).
Proof.
  unfold entity_value. intros H.
  repeat (case_bool_decide; [subst name; injection H as <-; reflexivity|]). done.
Qed.

(** A reference of XML, as the loop reads it. *)
Lemma reference_read body value rest :
  x3b ∉ body -> reference_value body = Some value ->
  if bool_decide (head (body ++ x3b :: rest) = Some hash_mark) then
    exists n, GetCharacterRef (x26 :: body ++ x3b :: rest) = Some (n, value) /\ drop n (x26 :: body ++ x3b :: rest) = rest
  else
    exists n c, find_entity entities (body ++ x3b :: rest) = Some (n, c) /\ value = [c] /\
      drop (S n) (body ++ x3b :: rest) = rest.
Proof.
  intros Hsemi Hv.
  assert (Hdrop : forall (pre : list byte), drop (S (length pre)) (pre ++ x3b :: rest) = rest).
  { intros pre. rewrite <- Nat.add_1_r, <- drop_drop, drop_app_length. done. }
  assert (Hnamed : (fun c => [c]) <$> entity_value body = Some value ->
    exists n c, find_entity entities (body ++ x3b :: rest) = Some (n, c) /\ value = [c] /\
      drop (S n) (body ++ x3b :: rest) = rest).
  { intros H. apply fmap_Some in H as (c & Hc & ->). exists (length body), c. by rewrite (reference_named body c rest Hc). }
  destruct body as [|a body]; [discriminate Hv|]. cbn [app head].
  destruct (decide (a = x23)) as [->|Ha].
  2: { rewrite bool_decide_eq_false_2 by (intros [= E]; done). apply Hnamed. rewrite <- Hv. by destruct a. }
  rewrite bool_decide_eq_true_2 by done. apply not_elem_of_cons in Hsemi as [_ Hsemi].
  destruct body as [|d ds]; [discriminate Hv|]. destruct (decide (d = x78)) as [->|Hd].
  - apply not_elem_of_cons in Hsemi as [_ Hsemi]. exists (S (S (S (S (length ds))))).
    cbn [app]. rewrite (reference_hex ds rest value Hsemi Hv). split; [done|]. exact (Hdrop (x26 :: x23 :: x78 :: ds)).
  - exists (S (S (S (length (d :: ds))))). rewrite (reference_decimal (d :: ds) rest value Hsemi).
    + split; [done|]. exact (Hdrop (x26 :: x23 :: d :: ds)).
    + by intros [= ->].
    + rewrite <- Hv. by destruct d.
Qed.

(** What the reference says of a text is what the loop computes. *)
Lemma text_value_decode flags fuel s v :
  text_value fuel (flag_set flags NEEDS_NEWLINE_NORMALIZATION) (flag_set flags NEEDS_ENTITY_PROCESSING) s = Some v ->
  decode fuel flags s = Some v.
Proof.
  revert s v. induction fuel as [|fuel IH]; intros [|c t] v; cbn [text_value decode]; try done.
  set (lines := flag_set flags NEEDS_NEWLINE_NORMALIZATION) in *. set (refs := flag_set flags NEEDS_ENTITY_PROCESSING) in *.
  destruct (decide (c = CR \/ c = LF)) as [Hc|Hc].
  - assert (Hin : bool_decide (c ∈ [x0d; x0a]) = true) by (destruct Hc as [->| ->]; reflexivity).
    rewrite Hin. destruct lines; cbn [andb].
    + destruct Hc as [->| ->]; intros H; apply fmap_Some in H as (w & Hw & ->).
      * change (text_value fuel true refs (skip_byte LF t) = Some w) in Hw. by rewrite (IH _ _ Hw).
      * change (text_value fuel true refs (skip_byte CR t) = Some w) in Hw. by rewrite (IH _ _ Hw).
    + assert (Hamp : bool_decide (c = x26) = false) by (destruct Hc as [->| ->]; reflexivity).
      change ampersand with x26. rewrite Hamp, andb_false_r. intros H; apply fmap_Some in H as (w & Hw & ->). by rewrite (IH _ _ Hw).
  - assert (Hin : bool_decide (c ∈ [x0d; x0a]) = false).
    { apply bool_decide_eq_false_2. rewrite !elem_of_cons. intros [?|[?|[]%elem_of_nil]]; apply Hc; auto. }
    rewrite Hin, andb_false_r. rewrite (bool_decide_eq_false_2 (c = CR)), (bool_decide_eq_false_2 (c = LF)) by tauto.
    rewrite !andb_false_r. change ampersand with x26. destruct (refs && bool_decide (c = x26)) eqn:Eamp.
    2: { intros H; apply fmap_Some in H as (w & Hw & ->). by rewrite (IH _ _ Hw). }
    apply andb_true_iff in Eamp as [_ ->%bool_decide_eq_true].
    destruct (to_semicolon t) as [[body rest]|] eqn:Et; [|done]. cbn [mbind option_bind].
    destruct (reference_value body) as [value|] eqn:Ev; [|done]. cbn [mbind option_bind].
    intros H; apply fmap_Some in H as (w & Hw & ->). apply IH in Hw.
    apply to_semicolon_spec in Et as [-> Hsemi].
    pose proof (reference_read body value rest Hsemi Ev) as Hr. destruct (bool_decide (head _ = _)).
    + destruct Hr as (n & -> & Ed). cbn [mbind option_bind]. by rewrite Ed, Hw.
    + destruct Hr as (n & c & -> & -> & Ed). cbn [mbind option_bind]. by rewrite Ed, Hw.
Qed.

(** ** The theorem *)

(** C25: A text is read as XML and its flags define its value: each line end as one
    LF, each of the five entities as its character, each character reference as the
    UTF-8 encoding of its code point; up to the first NUL that a reference stands
    for, and with its words one blank apart where white space is collapsed.  Where an
    ampersand starts no reference of XML, the text is read as something, or the
    assertion on references fails: in no case is anything read or written outside
    of the string. *)
Theorem get_str_decodes text f :
  no_nul text -> 0 < f < 256 ->
  match text_value (length text) (flag_set f NEEDS_NEWLINE_NORMALIZATION) (flag_set f NEEDS_ENTITY_PROCESSING) text with
  | Some v =>
      GetStr (Set_ text f) = Ok (if flag_set f COLLAPSE_WHITESPACE then spaced (blank_words (text_of v)) else text_of v)
  | None => (exists s, GetStr (Set_ text f) = Ok s) \/ GetStr (Set_ text f) = Err AssertFailed
  end.
Proof.
  intros Hn Hf. pose proof (text_loop_spec f (S (length text)) text [] [] Hn ltac:(lia)) as Hl. unfold loops_to in Hl.
  change (at_state [] [] text) with (text ++ [x00]) in Hl. cbn [length Nat.add app] in Hl.
  destruct (text_value _ _ _ _) as [v|] eqn:Ev.
  - rewrite (text_value_decode f _ _ v Ev) in Hl.
    destruct Hl as [junk E]. rewrite (get_str_loop text f _ Hf E) by (rewrite elem_of_app; right; by left).
    by rewrite text_of_prefix, blank_words_eq.
  - assert (Hw : (exists buf, text_loop (S (length text)) f (text ++ [x00]) 0 0 (length text) = Ok buf /\ x00 ∈ buf) \/
      text_loop (S (length text)) f (text ++ [x00]) 0 0 (length text) = Err AssertFailed) by exact (loops_weak f text [] _ Hl).
    destruct Hw as [(buf & E & Hin)|E]; [left; eexists; by apply (get_str_loop text f buf)|right; by apply get_str_fails].
Qed.

Lemma get_str_decodes_witness :
  GetStr (Set_ (bytes " a&lt;b  &#x41;&#66;" ++ [x0d; x0a] ++ bytes "&#x4e2d; ") (Z.lor TEXT_ELEMENT COLLAPSE_WHITESPACE))
    = Ok (bytes "a<b AB " ++ [xe4; xb8; xad]).
Proof.
  refine (get_str_decodes (bytes " a&lt;b  &#x41;&#66;" ++ [x0d; x0a] ++ bytes "&#x4e2d; ")
    (Z.lor TEXT_ELEMENT COLLAPSE_WHITESPACE) _ _).
  - by repeat constructor.
  - done.
Defined.

(** An ampersand that starts no entity is passed over without being written: what
    is read is a byte of before. *)
Example stale_byte : GetStr (Set_ (bytes "&lt;b&x") TEXT_ELEMENT) = Ok (bytes "<btx").
Proof. vm_compute. reflexivity. Qed.

(** A numeric reference without value: the pointer is null. *)
Example reference_without_value : GetStr (Set_ (bytes "&#xzz;") TEXT_ELEMENT) = Err AssertFailed.
Proof. vm_compute. reflexivity. Qed.

(** Digits are read back to the last number sign. *)
Example reference_twice : GetStr (Set_ (bytes "&#12#65;") TEXT_ELEMENT) = Ok (bytes "A").
Proof. vm_compute. reflexivity. Qed.
