(* ===== verification/Xml.v ===== *)
(** * XML documents (src/tinyxml2/tinyxml2.h, tinyxml2.cpp)

    The parser of tinyxml2 and the ways its documents are read.  A pointer into
    the document is the C string from there on, [None] the null pointer: the
    bytes that reading a name or a value overwrites have all been passed by
    then.  Nodes are a tree; the memory pools they come from, and their links to
    parent and siblings, are not part of it. *)

From S2P Require Import Prelude XmlText.

Inductive XMLError :=
| XML_NO_ERROR
| XML_NO_ATTRIBUTE
| XML_WRONG_ATTRIBUTE_TYPE
| XML_ERROR_FILE_NOT_FOUND
| XML_ERROR_FILE_COULD_NOT_BE_OPENED
| XML_ERROR_FILE_READ_ERROR
| XML_ERROR_ELEMENT_MISMATCH
| XML_ERROR_PARSING_ELEMENT
| XML_ERROR_PARSING_ATTRIBUTE
| XML_ERROR_IDENTIFYING_TAG
| XML_ERROR_PARSING_TEXT
| XML_ERROR_PARSING_CDATA
| XML_ERROR_PARSING_COMMENT
| XML_ERROR_PARSING_DECLARATION
| XML_ERROR_PARSING_UNKNOWN
| XML_ERROR_EMPTY_DOCUMENT
| XML_ERROR_MISMATCHED_ELEMENT
| XML_ERROR_PARSING
| XML_CAN_NOT_CONVERT_TEXT
| XML_NO_TEXT_NODE.

#[export] Instance XMLError_eq_dec : EqDecision XMLError.
Proof. solve_decision. Defined.

Definition XML_SUCCESS : XMLError := XML_NO_ERROR.

(** [PRESERVE_WHITESPACE], or to collapse it. *)
Record XMLOptions := Options {
  processEntities : bool;
  collapse_whitespace : bool;
}.

Definition default_options : XMLOptions := Options true false.

Record XMLAttribute := Attr {
  a_name : StrPair;
  a_value : StrPair;
}.

Inductive ClosingType := OPEN | CLOSED | CLOSING.

#[export] Instance ClosingType_eq_dec : EqDecision ClosingType.
Proof. solve_decision. Defined.

Inductive XMLNode :=
| XMLElement (value : StrPair) (closingType : ClosingType) (attributes : list XMLAttribute) (children : list XMLNode)
| XMLText (value : StrPair) (isCData : bool)
| XMLComment (value : StrPair)
| XMLDeclaration (value : StrPair)
| XMLUnknown (value : StrPair).

Record XMLDocument := Document {
  d_options : XMLOptions;
  d_writeBOM : bool;
  d_errorID : XMLError;
  d_children : list XMLNode;
}.

Definition node_value (node : XMLNode) : StrPair :=
  match node with
  | XMLElement v _ _ _ | XMLText v _ | XMLComment v | XMLDeclaration v | XMLUnknown v => v
  end.

Definition Value (node : XMLNode) : result (list byte) := GetStr (node_value node).

(** ** Parsing *)

Inductive node_kind := ADeclaration | AComment | ACData | AnUnknown | AnElement | AText.

(** [Identify]: nothing at the end of the document. *)
Definition Identify (start : list byte) : list byte * option node_kind :=
  let p := SkipWhiteSpace start in
  match p with
  | [] => (p, None)
  | _ =>
      if has_prefix (bytes "<?") p then (drop 2 p, Some ADeclaration)
      else if has_prefix (bytes "<!--") p then (drop 4 p, Some AComment)
      else if has_prefix (bytes "<![CDATA[") p then (drop 9 p, Some ACData)
      else if has_prefix (bytes "<!") p then (drop 2 p, Some AnUnknown)
      else if has_prefix (bytes "<") p then (drop 1 p, Some AnElement)
      else (start, Some AText)
  end.

(** [XMLAttribute::ParseDeep] *)
Definition ParseAttribute (p : list byte) (entities : bool) : option (XMLAttribute * list byte) :=
  '(name, p) ← ParseName p;
  match p with
  | [] => None
  | _ =>
      match SkipWhiteSpace p with
      | x3d :: p =>
          match SkipWhiteSpace p with
          | q :: p =>
              if bool_decide (q = x22) || bool_decide (q = x27) then
                '(value, p) ← ParseText p [q] (if entities then ATTRIBUTE_VALUE else ATTRIBUTE_VALUE_LEAVE_ENTITIES);
                Some (Attr name value, p)
              else None
          | [] => None
          end
      | _ => None
      end
  end.

Definition FindAttribute (attributes : list XMLAttribute) (name : list byte) : result (option XMLAttribute) :=
  foldr (fun a next => n ← GetStr (a_name a); if bool_decide (n = name) then Ok (Some a) else next) (Ok None) attributes.

(** [Attribute (name)]: the value is read. *)
Definition Attribute (attributes : list XMLAttribute) (name : list byte) : result (option (list byte)) :=
  a ← FindAttribute attributes name;
  match a with
  | None => Ok None
  | Some a => v ← GetStr (a_value a); Ok (Some v)
  end.

(** [ParseAttributes]: the attributes, whether the tag closes its element, and
    the end of the tag; or an error. *)
Fixpoint ParseAttributes (fuel : nat) (opts : XMLOptions) (p : list byte) (closing : ClosingType)
    (attributes : list XMLAttribute) : result (list XMLAttribute * ClosingType * (list byte + XMLError)) :=
  match fuel with
  | O => Err NoFuel
  | S fuel =>
      match SkipWhiteSpace p with
      | [] => Ok (attributes, closing, inr XML_ERROR_PARSING_ELEMENT)
      | c :: t =>
          if IsAlpha c then
            match ParseAttribute (c :: t) (processEntities opts) with
            | None => Ok (attributes, closing, inr XML_ERROR_PARSING_ATTRIBUTE)
            | Some (attrib, p) =>
                name ← GetStr (a_name attrib);
                found ← Attribute attributes name;
                match found with
                | Some _ => Ok (attributes, closing, inr XML_ERROR_PARSING_ATTRIBUTE)
                | None => ParseAttributes fuel opts p closing (attributes ++ [attrib])
                end
            end
          else if has_prefix (bytes "/>") (c :: t) then Ok (attributes, CLOSED, inl (drop 1 t))
          else if bool_decide (c = x3e) then Ok (attributes, closing, inl t)
          else Ok (attributes, closing, inr XML_ERROR_PARSING_ELEMENT)
      end
  end.

(** What a [ParseDeep] gives back: the pointer it returns, the end tag it has
    found for its caller, and the error of the document. *)
Record parsed := Parsed {
  p_rest : option (list byte);
  p_end : StrPair;
  p_error : XMLError;
}.

(** A node that is text up to [endTag]. *)
Definition parse_leaf (p endTag : list byte) (flags : Z) (mk : StrPair -> XMLNode) (error err : XMLError) :
    XMLNode * parsed :=
  match ParseText p endTag flags with
  | Some (value, rest) => (mk value, Parsed (Some rest) new_StrPair err)
  | None => (mk new_StrPair, Parsed None new_StrPair error)
  end.

(** [XMLText::ParseDeep] of text that is no CDATA: it ends in front of a tag. *)
Definition parse_text (opts : XMLOptions) (p : list byte) (err : XMLError) : XMLNode * parsed :=
  let flags := if processEntities opts then TEXT_ELEMENT else TEXT_ELEMENT_LEAVE_ENTITIES in
  let flags := if collapse_whitespace opts then Z.lor flags COLLAPSE_WHITESPACE else flags in
  match ParseText p (bytes "<") flags with
  | Some (value, []) => (XMLText value false, Parsed None new_StrPair err)
  | Some (value, rest) => (XMLText value false, Parsed (Some (x3c :: rest)) new_StrPair err)
  | None => (XMLText new_StrPair false, Parsed None new_StrPair XML_ERROR_PARSING_TEXT)
  end.

(** The tests on a node and the end tag that was found inside of it. *)
Definition mismatched (node : XMLNode) (endTag : StrPair) : result bool :=
  match node with
  | XMLElement value closing _ _ =>
      if Empty endTag && bool_decide (closing = OPEN) then Ok true
      else if negb (Empty endTag) && negb (bool_decide (closing = OPEN)) then Ok true
      else if negb (Empty endTag) then
        e ← GetStr endTag; v ← GetStr value; Ok (negb (bool_decide (e = v)))
      else Ok false
  | _ => Ok false
  end.

Definition is_closing (node : XMLNode) : bool :=
  match node with XMLElement _ CLOSING _ _ => true | _ => false end.

(** [XMLNode::ParseDeep] and what it calls: [parse_nodes] is its loop,
    [parse_node] the [ParseDeep] of a node that was identified. *)
Fixpoint parse_nodes (fuel : nat) (opts : XMLOptions) (nested : bool) (p : list byte) (err : XMLError) :
    result (list XMLNode * parsed) :=
  match fuel with
  | O => Err NoFuel
  | S fuel =>
      match p with
      | [] => Ok ([], Parsed None new_StrPair err)
      | _ =>
          match Identify p with
          | (_, None) => Ok ([], Parsed None new_StrPair err)
          | (p, Some kind) =>
              '(node, r) ← parse_node fuel opts kind p err;
              match p_rest r with
              | None =>
                  Ok ([], Parsed None new_StrPair
                            (if bool_decide (p_error r = XML_NO_ERROR) then XML_ERROR_PARSING else p_error r))
              | Some rest =>
                  if is_closing node then
                    Ok ([], Parsed (Some rest) (if nested then node_value node else new_StrPair) (p_error r))
                  else
                    bad ← mismatched node (p_end r);
                    if bad : bool then Ok ([], Parsed None new_StrPair XML_ERROR_MISMATCHED_ELEMENT)
                    else
                      '(nodes, r) ← parse_nodes fuel opts nested rest (p_error r);
                      Ok (node :: nodes, r)
              end
          end
      end
  end
with parse_node (fuel : nat) (opts : XMLOptions) (kind : node_kind) (p : list byte) (err : XMLError) :
    result (XMLNode * parsed) :=
  match fuel with
  | O => Err NoFuel
  | S fuel =>
      match kind with
      | ADeclaration =>
          Ok (parse_leaf p (bytes "?>") NEEDS_NEWLINE_NORMALIZATION XMLDeclaration XML_ERROR_PARSING_DECLARATION err)
      | AComment => Ok (parse_leaf p (bytes "-->") COMMENT XMLComment XML_ERROR_PARSING_COMMENT err)
      | ACData =>
          Ok (parse_leaf p (bytes "]]>") NEEDS_NEWLINE_NORMALIZATION (fun v => XMLText v true)
                XML_ERROR_PARSING_CDATA err)
      | AnUnknown =>
          Ok (parse_leaf p (bytes ">") NEEDS_NEWLINE_NORMALIZATION XMLUnknown XML_ERROR_PARSING_UNKNOWN err)
      | AText => Ok (parse_text opts p err)
      | AnElement =>
          let p := SkipWhiteSpace p in
          let '(closing, p) := match p with x2f :: p => (CLOSING, p) | _ => (OPEN, p) end in
          match ParseName p with
          | None => Ok (XMLElement new_StrPair closing [] [], Parsed None new_StrPair err)
          | Some (value, p) =>
              '(attributes, closing, rest) ← ParseAttributes (S (length p)) opts p closing [];
              match rest with
              | inr error => Ok (XMLElement value closing attributes [], Parsed None new_StrPair error)
              | inl rest =>
                  if bool_decide (rest = []) || negb (bool_decide (closing = OPEN)) then
                    Ok (XMLElement value closing attributes [], Parsed (Some rest) new_StrPair err)
                  else
                    '(children, r) ← parse_nodes fuel opts true rest err;
                    Ok (XMLElement value closing attributes children, r)
              end
          end
      end
  end.

(** Two steps a byte are more than the recursion takes. *)
Definition parse_fuel (p : list byte) : nat := 2 * length p + 2.

Definition ParseDocument (doc : XMLDocument) (bom : bool) (p : list byte) : result (XMLError * XMLDocument) :=
  '(children, r) ← parse_nodes (parse_fuel p) (d_options doc) false p XML_NO_ERROR;
  Ok (p_error r, Document (d_options doc) bom (p_error r) children).

Definition failed_document (doc : XMLDocument) (bom : bool) (err : XMLError) : XMLError * XMLDocument :=
  (err, Document (d_options doc) bom err []).

(** [LoadFile]: the bytes of the file, if there is one; [read] says whether all
    of them are read. *)
Definition LoadFile (doc : XMLDocument) (file : option (list byte)) (read : bool) : result (XMLError * XMLDocument) :=
  match file with
  | None => Ok (failed_document doc (d_writeBOM doc) XML_ERROR_FILE_NOT_FOUND)
  | Some [] => Ok (failed_document doc (d_writeBOM doc) XML_NO_ERROR)
  | Some file =>
      if negb read then Ok (failed_document doc (d_writeBOM doc) XML_ERROR_FILE_READ_ERROR) else
      let '(bom, p) := ReadBOM (SkipWhiteSpace (text_of file)) in
      match p with
      | [] => Ok (failed_document doc bom XML_ERROR_EMPTY_DOCUMENT)
      | _ => ParseDocument doc bom p
      end
  end.

(** [Parse] starts over at the beginning of its copy of the text. *)
Definition Parse (doc : XMLDocument) (text : list byte) : result (XMLError * XMLDocument) :=
  match text with
  | [] => Ok (failed_document doc (d_writeBOM doc) XML_ERROR_EMPTY_DOCUMENT)
  | _ =>
      let '(bom, p) := ReadBOM (SkipWhiteSpace text) in
      match p with
      | [] => Ok (failed_document doc bom XML_ERROR_EMPTY_DOCUMENT)
      | _ => ParseDocument doc bom text
      end
  end.

Definition new_XMLDocument (opts : XMLOptions) : XMLDocument := Document opts false XML_NO_ERROR [].

(** ** Reading a document *)

Definition ToElement (node : XMLNode) : bool := match node with XMLElement _ _ _ _ => true | _ => false end.

Definition children (node : XMLNode) : list XMLNode := match node with XMLElement _ _ _ c => c | _ => [] end.

(** [FirstChildElement] with a name. *)
Fixpoint FirstChildElement (nodes : list XMLNode) (value : list byte) : result (option XMLNode) :=
  match nodes with
  | [] => Ok None
  | node :: nodes =>
      if ToElement node then
        name ← Value node;
        if bool_decide (name = value) then Ok (Some node) else FirstChildElement nodes value
      else FirstChildElement nodes value
  end.

(** [GetText] *)
Definition GetText (node : XMLNode) : result (option (list byte)) :=
  match children node with
  | XMLText v c :: _ => t ← Value (XMLText v c); Ok (Some t)
  | _ => Ok None
  end.

Definition query_text {A} (convert : list byte -> result (option A)) (node : XMLNode) : result (XMLError * option A) :=
  t ← GetText node;
  match t with
  | None => Ok (XML_NO_TEXT_NODE, None)
  | Some t =>
      v ← convert t;
      match v with
      | Some v => Ok (XML_SUCCESS, Some v)
      | None => Ok (XML_CAN_NOT_CONVERT_TEXT, None)
      end
  end.

Definition QueryIntText : XMLNode -> result (XMLError * option Z) := query_text ToInt.
Definition QueryUnsignedText : XMLNode -> result (XMLError * option Z) := query_text ToUnsigned.
Definition QueryBoolText : XMLNode -> result (XMLError * option bool) := query_text ToBool.

(** [Query...Value] of an attribute. *)
Definition query_attribute {A} (convert : list byte -> result (option A)) (a : XMLAttribute) :
    result (XMLError * option A) :=
  t ← GetStr (a_value a);
  v ← convert t;
  match v with
  | Some v => Ok (XML_NO_ERROR, Some v)
  | None => Ok (XML_WRONG_ATTRIBUTE_TYPE, None)
  end.

Definition QueryIntValue : XMLAttribute -> result (XMLError * option Z) := query_attribute ToInt.
Definition QueryUnsignedValue : XMLAttribute -> result (XMLError * option Z) := query_attribute ToUnsigned.
Definition QueryBoolValue : XMLAttribute -> result (XMLError * option bool) := query_attribute ToBool.
