(* ===== verification/XmlSpec.v ===== *)
(** * The parser ends, and stays in its text

    Every pointer that the parser goes on from is behind the one it came from, so
    the fuel is enough; and no string of a document can be read outside of it. *)

From S2P Require Import Prelude XmlText.
From S2P Require Import XmlTextSpec Xml.

(** What a run may end in: a fault is the assertion on references. *)
Definition sound {A} (post : A -> Prop) (r : result A) : Prop :=
  match r with Ok a => post a | Err e => e = AssertFailed end.

Lemma sound_bind {A B} (P : A -> Prop) (Q : B -> Prop) (r : result A) (f : A -> result B) :
  sound P r -> (forall a, P a -> sound Q (f a)) -> sound Q (r ≫= f).
Proof. destruct r as [a|e]; cbn; [by intros HP H; apply H|by intros ->]. Qed.

Lemma sound_weak {A} (P Q : A -> Prop) r : sound P r -> (forall a, P a -> Q a) -> sound Q r.
Proof. destruct r; cbn; naive_solver. Qed.

(** ** Pieces of a text *)

Lemma skip_suffix p : SkipWhiteSpace p `suffix_of` p.
Proof.
  induction p as [|c p IH]; cbn; [done|]. destruct (IsWhiteSpace c); [by apply suffix_cons_r|done].
Qed.

Lemma parse_text_parts p endTag f v rest :
  ParseText p endTag f = Some (v, rest) -> p = sp_text v ++ endTag ++ rest /\ sp_flags v = Z.lor f NEEDS_FLUSH.
Proof.
  revert v rest. induction p as [|c p IH]; intros v rest; cbn [ParseText].
  - destruct (has_prefix endTag []) eqn:E; [|done]. apply has_prefix_spec in E as [k E]. symmetry in E. apply app_eq_nil in E as [-> ->].
    by intros [= <- <-].
  - destruct (has_prefix endTag (c :: p)) eqn:E.
    + apply has_prefix_spec in E as [k E]. rewrite E, drop_app_length. by intros [= <- <-].
    + destruct (ParseText p endTag f) as [[s r]|]; cbn [mbind option_bind]; [|done]. intros [= <- <-].
      destruct (IH s r eq_refl) as [E1 E2]. cbn. by rewrite <- E1.
Qed.

Lemma name_end_parts p first n rest : name_end p first = (n, rest) -> p = n ++ rest.
Proof.
  revert first n rest. induction p as [|c p IH]; intros first n rest; cbn; [by intros [= <- <-]|].
  destruct (name_char first c); [|by intros [= <- <-]]. destruct (name_end p false) as [m r] eqn:E.
  intros [= <- <-]. cbn. by rewrite <- (IH _ _ _ E).
Qed.

Lemma parse_name_parts p v rest : ParseName p = Some (v, rest) -> exists n, v = Set_ n 0 /\ n <> [] /\ p = n ++ rest.
Proof.
  unfold ParseName. destruct (name_end p true) as [[|c n] r] eqn:E; [done|]. apply name_end_parts in E.
  intros [= <- <-]. by exists (c :: n).
Qed.

Lemma suffix_nul p q : p `suffix_of` q -> no_nul q -> no_nul p.
Proof. intros [k ->] H. by apply Forall_app in H as [_ H]. Qed.

(** ** Strings that can be read *)

Definition name_like (s : StrPair) : Prop := s = new_StrPair \/ exists n, s = Set_ n 0.

Definition readable (s : StrPair) : Prop := sound (fun _ => True) (GetStr s).

Lemma name_like_reads s : name_like s -> exists v, GetStr s = Ok v.
Proof.
  intros [->|[n ->]]; [by eexists|]. unfold GetStr. cbn [Set_ sp_flags sp_text]. destruct (flush_flags 0 ltac:(lia)) as [-> ->].
  cbn [Z.eqb mbind result_bind]. rewrite (c_string_text (n ++ [x00])) by (rewrite elem_of_app; right; by left). by eexists.
Qed.

Lemma readable_text text f : no_nul text -> 0 < f < 256 -> readable (Str (Z.lor f NEEDS_FLUSH) text).
Proof.
  intros Hn Hf. unfold readable. change (Str (Z.lor f NEEDS_FLUSH) text) with (Set_ text f).
  pose proof (text_loop_spec f (S (length text)) text [] [] Hn ltac:(lia)) as Hl. apply loops_weak in Hl.
  change (at_state [] [] text) with (text ++ [x00]) in Hl. cbn [length Nat.add app] in Hl.
  destruct Hl as [(buf & E & Hin)|E]; [rewrite (get_str_loop text f buf Hf E Hin)|rewrite (get_str_fails text f _ Hf E)]; done.
Qed.

Lemma readable_parsed p endTag f v rest :
  no_nul p -> 0 < f < 256 -> ParseText p endTag f = Some (v, rest) -> readable v.
Proof.
  intros Hn Hf [E Ef]%parse_text_parts. destruct v as [fl t]. cbn in *. subst fl p. apply readable_text; [|done].
  by apply Forall_app in Hn as [Hn _].
Qed.

(** ** Attributes *)

Definition good_attr (a : XMLAttribute) : Prop := name_like (a_name a) /\ readable (a_value a).

Lemma parse_attribute_sound p entities a rest :
  no_nul p -> ParseAttribute p entities = Some (a, rest) ->
  good_attr a /\ rest `suffix_of` p /\ (length rest < length p)%nat.
Proof.
  intros Hn. unfold ParseAttribute. destruct (ParseName p) as [[v r]|] eqn:E; cbn [mbind option_bind]; [|done].
  apply parse_name_parts in E as (n & -> & Hne & ->). destruct r as [|c r]; [done|].
  assert (Hs : SkipWhiteSpace (c :: r) `suffix_of` n ++ c :: r) by (etransitivity; [apply skip_suffix|by exists n]).
  destruct (SkipWhiteSpace (c :: r)) as [|d p1]; [done|]. destruct (decide (d = x3d)) as [->|Hd]; [|by destruct d].
  apply suffix_cons_l in Hs. assert (Hs2 : SkipWhiteSpace p1 `suffix_of` n ++ c :: r) by (etransitivity; [apply skip_suffix|done]).
  destruct (SkipWhiteSpace p1) as [|q p2]; [done|]. apply suffix_cons_l in Hs2. destruct (_ || _); [|done].
  destruct (ParseText p2 [q] _) as [[v r2]|] eqn:Et; cbn [mbind option_bind]; [|done]. intros [= <- <-].
  pose proof (parse_text_parts _ _ _ _ _ Et) as [Ep _]. split; [split|split].
  - right. by eexists.
  - cbn. refine (readable_parsed p2 [q] _ v r2 (suffix_nul _ _ Hs2 Hn) _ Et). by destruct entities.
  - etransitivity; [|exact Hs2]. rewrite Ep. exists (sp_text v ++ [q]). by rewrite <- app_assoc.
  - apply suffix_length in Hs2. rewrite Ep in Hs2. rewrite !length_app in *. cbn in *. lia.
Qed.

Lemma attribute_sound attributes name :
  Forall good_attr attributes -> sound (fun _ => True) (Attribute attributes name).
Proof.
  intros H. unfold Attribute. apply (sound_bind (fun a => match a with Some a => good_attr a | None => True end)).
  - induction H as [|a attributes [Ha Hv] _ IH]; [done|]. unfold FindAttribute in *. cbn [foldr].
    destruct (name_like_reads _ Ha) as [n ->]. cbn [mbind result_bind]. by case_bool_decide.
  - intros [a|] Ha; [|done]. destruct Ha as [_ Ha]. unfold readable in Ha. by destruct (GetStr (a_value a)).
Qed.

(** What [ParseAttributes] gives: the rest behind the tag is shorter. *)
Definition tag_post (p : list byte) (x : list XMLAttribute * ClosingType * (list byte + XMLError)) : Prop :=
  match snd x with
  | inl rest => rest `suffix_of` p /\ (length rest < length p)%nat
  | inr e => e <> XML_NO_ERROR
  end.

Lemma parse_attributes_sound fuel opts p closing attributes :
  no_nul p -> Forall good_attr attributes -> (length p < fuel)%nat ->
  sound (tag_post p) (ParseAttributes fuel opts p closing attributes).
Proof.
  revert p attributes. induction fuel as [|fuel IH]; intros p attributes Hn Ha Hf; [lia|]. cbn [ParseAttributes].
  pose proof (skip_suffix p) as Hs. destruct (SkipWhiteSpace p) as [|c t]; [done|].
  pose proof (suffix_length _ _ Hs) as Hl. cbn in Hl. destruct (IsAlpha c).
  - destruct (ParseAttribute (c :: t) (processEntities opts)) as [[att rest]|] eqn:E; [|done].
    destruct (parse_attribute_sound _ _ _ _ (suffix_nul _ _ Hs Hn) E) as (Hg & Hr & Hlen). cbn in Hlen.
    destruct (name_like_reads _ (proj1 Hg)) as [n ->]. cbn [mbind result_bind].
    apply (sound_bind _ _ _ _ (attribute_sound attributes n Ha)). intros [|] _; [done|].
    assert (Hr' : rest `suffix_of` p) by (by etransitivity).
    apply (sound_weak (tag_post rest)).
    + apply IH; [by apply (suffix_nul _ p)|apply Forall_app; by split; [|constructor]|lia].
    + intros [[atts cl] [r|e]]; unfold tag_post; cbn; [|done]. intros [H1 H2]. split; [by etransitivity|lia].
  - destruct (has_prefix (bytes "/>") (c :: t)) eqn:Ep.
    + unfold tag_post. cbn [sound snd]. rewrite length_drop. split; [|lia].
      etransitivity; [apply suffix_drop|]. by apply suffix_cons_l in Hs.
    + case_bool_decide; [|done]. unfold tag_post. cbn. split; [by apply suffix_cons_l in Hs|lia].
Qed.

(** ** Nodes *)

Definition within (p : list byte) (r : parsed) : Prop :=
  match p_rest r with Some rest => rest `suffix_of` p | None => True end /\ name_like (p_end r).

Definition shorter (p : list byte) (r : parsed) : Prop :=
  match p_rest r with Some rest => (length rest < length p)%nat | None => True end.

Definition named (node : XMLNode) : Prop :=
  match node with XMLElement v _ _ _ => name_like v | _ => True end.

Lemma name_like_new : name_like new_StrPair.
Proof. by left. Qed.

#[local] Hint Resolve name_like_new : core.

Lemma identify_cases p q kind :
  Identify p = (q, Some kind) ->
  kind = AText /\ q = p /\ (exists c t, SkipWhiteSpace p = c :: t /\ c <> x3c) \/
  kind <> AText /\ q `suffix_of` p /\ (length q < length p)%nat.
Proof.
  unfold Identify. pose proof (skip_suffix p) as Hs. destruct (SkipWhiteSpace p) as [|c t]; [done|].
  assert (Hd : forall n, (0 < n)%nat -> drop n (c :: t) `suffix_of` p /\ (length (drop n (c :: t)) < length p)%nat).
  { intros n Hn. split; [by etransitivity; [apply suffix_drop|]|]. apply suffix_length in Hs. rewrite length_drop. cbn in *. lia. }
  repeat (match goal with |- (if ?b then _ else _) = _ -> _ => destruct b eqn:? end;
    [intros E; apply pair_equal_spec in E as [<- E2]; injection E2 as <-; right; split; [done|apply (Hd _); lia]|]).
  intros E. apply pair_equal_spec in E as [<- E2]. injection E2 as <-. left. split_and!; [done..|]. exists c, t. split; [done|]. by intros ->.
Qed.

Lemma leaf_sound p endTag f mk error err :
  within p (snd (parse_leaf p endTag f mk error err)).
Proof.
  unfold parse_leaf. destruct (ParseText p endTag f) as [[v rest]|] eqn:E; [|by split].
  apply parse_text_parts in E as [-> _]. split; [|done]. exists (sp_text v ++ endTag). by rewrite <- app_assoc.
Qed.

Lemma text_sound opts p err c t :
  SkipWhiteSpace p = c :: t -> c <> x3c -> within p (snd (parse_text opts p err)) /\ shorter p (snd (parse_text opts p err)).
Proof.
  intros Ec Hc. unfold parse_text. destruct (ParseText _ _ _) as [[v rest]|] eqn:E; [|by repeat split].
  apply parse_text_parts in E as [E _]. destruct rest as [|d rest]; [by repeat split|]. split; [split|]; [|done|].
  - exists (sp_text v). exact E.
  - unfold shorter. cbn [snd p_rest]. destruct (sp_text v) as [|x s]; [|rewrite E, length_app; cbn; lia].
    subst p. injection Ec as <- _. done.
Qed.

Lemma mismatched_sound node e : named node -> name_like e -> sound (fun _ => True) (mismatched node e).
Proof.
  intros Hn He. destruct node as [v cl a ch| | | |]; try done. cbn in Hn. unfold mismatched.
  destruct (name_like_reads e He) as [n ->], (name_like_reads v Hn) as [m ->].
  by destruct (Empty e), (bool_decide (cl = OPEN)).
Qed.

Definition nodes_sound (fuel : nat) : Prop :=
  forall opts nested p err, no_nul p -> (2 * length p < fuel)%nat ->
  sound (fun x => within p (snd x)) (parse_nodes fuel opts nested p err).

Definition node_sound (fuel : nat) : Prop :=
  forall opts kind p err, no_nul p -> (2 * length p < fuel)%nat ->
  sound (fun x => within p (snd x) /\ named (fst x)) (parse_node fuel opts kind p err).

Lemma within_suffix p q r : within p r -> p `suffix_of` q -> within q r.
Proof.
  intros [H1 H2] Hs. split; [|done]. destruct (p_rest r); [by etransitivity|done].
Qed.

Lemma element_sound fuel : nodes_sound fuel -> node_sound (S fuel).
Proof.
  intros IH opts kind p err Hn Hf. destruct kind; cbn [parse_node sound snd].
  1-4: split; [apply leaf_sound|unfold parse_leaf; by destruct (ParseText _ _ _) as [[]|]].
  2:{ unfold parse_text. destruct (ParseText _ _ _) as [[v rest]|] eqn:E; [|by repeat split].
      apply parse_text_parts in E as [E _]. destruct rest as [|d rest]; [by repeat split|]. split; [split|]; [|done..].
      exists (sp_text v). exact E. }
  pose proof (skip_suffix p) as Hs. set (q := SkipWhiteSpace p) in *.
  assert (Hq : exists closing p1, match q with x2f :: p => (CLOSING, p) | _ => (OPEN, q) end = (closing, p1) /\ p1 `suffix_of` p).
  { destruct q as [|c q]; [by eexists _, _|]. destruct (decide (c = x2f)) as [->|Hc].
    - eexists _, _. split; [done|]. by apply suffix_cons_l in Hs.
    - exists OPEN, (c :: q). split; [by destruct c|done]. }
  destruct Hq as (closing & p1 & -> & Hs1). destruct (ParseName p1) as [[v p2]|] eqn:En; [|by split; [|left]].
  apply parse_name_parts in En as (n & -> & Hne & ->). assert (Hs2 : p2 `suffix_of` p) by (etransitivity; [by exists n|done]).
  assert (Hv : name_like (Set_ n 0)) by (right; by exists n).
  assert (Hl2 : (length p2 < length p)%nat).
  { apply suffix_length in Hs1. rewrite length_app in Hs1. destruct n; [done|]. cbn in Hs1. lia. }
  refine (sound_bind (tag_post p2) _ _ _ (parse_attributes_sound _ opts p2 closing [] (suffix_nul _ _ Hs2 Hn) _ _) _); [by constructor|lia|].
  intros [[atts cl] [rest|e]] Hr; unfold tag_post in Hr; cbn in Hr; [|by split]. destruct Hr as [Hs3 Hl3].
  assert (Hs4 : rest `suffix_of` p) by by etransitivity. destruct (_ || _); [by split; [split|]|].
  refine (sound_bind _ _ _ _ (IH opts true rest err (suffix_nul _ _ Hs4 Hn) _) _); [lia|].
  intros [ch r] Hr. cbn in *. split; [by apply (within_suffix rest)|done].
Qed.

Lemma loop_sound fuel : node_sound fuel -> nodes_sound fuel -> nodes_sound (S fuel).
Proof.
  intros IHn IHl opts nested p err Hn Hf. cbn [parse_nodes]. destruct p as [|c0 p0]; [by split|]. set (p := c0 :: p0) in *.
  destruct (Identify p) as [q [kind|]] eqn:Ei; [|by split].
  refine (sound_bind (fun x => within p (snd x) /\ shorter p (snd x) /\ named (fst x)) _ _ _ _ _).
  - destruct (identify_cases p q kind Ei) as [(-> & -> & c & t & Ec & Hc)|(Hk & Hs & Hl)].
    + destruct fuel as [|fuel]; [cbn in Hf; lia|]. cbn [parse_node sound].
      destruct (text_sound opts p err c t Ec Hc) as [H1 H2]. split_and!; [done..|].
      unfold parse_text. by destruct (ParseText _ _ _) as [[? []]|].
    + refine (sound_weak _ _ _ (IHn opts kind q err (suffix_nul _ _ Hs Hn) _) _); [lia|].
      intros [node r] [Hw Hnm]. split_and!; [by apply (within_suffix q)| |done]. destruct Hw as [Hw _]. unfold shorter. cbn in *.
      destruct (p_rest r); [apply suffix_length in Hw; lia|done].
  - intros [node r] ([Hw He] & Hsh & Hnm). unfold shorter in Hsh. cbn [fst snd] in *.
    destruct (p_rest r) as [rest|]; [|by split]. destruct (is_closing node) eqn:Ecl.
    { split; [done|]. cbn. destruct nested; [|done]. by destruct node. }
    refine (sound_bind _ _ _ _ (mismatched_sound node (p_end r) Hnm He) _). intros [] _; [by split|].
    refine (sound_bind _ _ _ _ (IHl opts nested rest (p_error r) (suffix_nul _ _ Hw Hn) _) _); [lia|].
    intros [nodes r'] Hr. cbn in *. by apply (within_suffix rest).
Qed.

Lemma parser_sound fuel : nodes_sound fuel /\ node_sound fuel.
Proof.
  induction fuel as [|fuel [IH1 IH2]].
  - split; intros ? ? ? ? ? H; lia.
  - split; [by apply loop_sound|by apply element_sound].
Qed.

Lemma parse_document_sound doc bom p : no_nul p -> sound (fun _ => True) (ParseDocument doc bom p).
Proof.
  intros Hn. unfold ParseDocument. refine (sound_bind _ _ _ _ (proj1 (parser_sound (parse_fuel p)) _ _ _ _ Hn _) _); [unfold parse_fuel; lia|].
  by intros [nodes r] _.
Qed.

(** C24: Loading a file ends, whatever the file holds: the parser's recursion
    takes no more steps than twice the length of the text, it reads no byte
    outside of it, and the only thing that can stop it is the assertion on a
    numeric reference without value in an attribute that is there twice. *)
Theorem load_file_ends doc file read :
  (exists r, LoadFile doc file read = Ok r) \/ LoadFile doc file read = Err AssertFailed.
Proof.
  enough (H : sound (fun _ => True) (LoadFile doc file read)) by (destruct (LoadFile doc file read); naive_solver).
  unfold LoadFile. destruct file as [[|c file]|]; try done. destruct read; [|done].
  assert (Hn : no_nul (SkipWhiteSpace (text_of (c :: file)))).
  { apply (suffix_nul _ _ (skip_suffix _)), text_of_nul. }
  unfold ReadBOM. cbn [negb]. destruct (has_prefix _ _); cbn zeta beta iota.
  - destruct (drop 3 _) eqn:E; [done|]. apply parse_document_sound. rewrite <- E. by apply Forall_drop.
  - destruct (SkipWhiteSpace _) eqn:E; [done|]. by apply parse_document_sound.
Qed.
