(* ===== verification/XmlPrinter.v ===== *)
(** * Writing a document (src/tinyxml2/tinyxml2.cpp, class XMLPrinter)

    The printer writes what it is told to, to a file or to its own memory; only
    the bytes are kept here.  Line breaks and indentation come in front of a tag
    unless text has been written in the element that is open. *)

From S2P Require Import Prelude XmlText.
From S2P Require Import Xml.

Record XMLPrinter := Printer {
  elementJustOpened : bool;
  firstElement : bool;
  depth : Z;
  textDepth : Z;
  print_entities : bool;
  compactMode : bool;
  stack : list (list byte);
  out : list byte;
}.

Definition new_XMLPrinter (compact : bool) : XMLPrinter := Printer false true 0 (-1) true compact [] [].

Definition Print (s : list byte) (pr : XMLPrinter) : XMLPrinter :=
  Printer (elementJustOpened pr) (firstElement pr) (depth pr) (textDepth pr) (print_entities pr) (compactMode pr)
    (stack pr) (out pr ++ s).

Definition set_opened (opened : bool) (pr : XMLPrinter) : XMLPrinter :=
  Printer opened (firstElement pr) (depth pr) (textDepth pr) (print_entities pr) (compactMode pr) (stack pr) (out pr).
Definition set_first (first : bool) (pr : XMLPrinter) : XMLPrinter :=
  Printer (elementJustOpened pr) first (depth pr) (textDepth pr) (print_entities pr) (compactMode pr) (stack pr) (out pr).
Definition set_depth (d : Z) (pr : XMLPrinter) : XMLPrinter :=
  Printer (elementJustOpened pr) (firstElement pr) d (textDepth pr) (print_entities pr) (compactMode pr) (stack pr) (out pr).
Definition set_textDepth (d : Z) (pr : XMLPrinter) : XMLPrinter :=
  Printer (elementJustOpened pr) (firstElement pr) (depth pr) d (print_entities pr) (compactMode pr) (stack pr) (out pr).
Definition set_stack (st : list (list byte)) (pr : XMLPrinter) : XMLPrinter :=
  Printer (elementJustOpened pr) (firstElement pr) (depth pr) (textDepth pr) (print_entities pr) (compactMode pr) st (out pr).
Definition set_entities (e : bool) (pr : XMLPrinter) : XMLPrinter :=
  Printer (elementJustOpened pr) (firstElement pr) (depth pr) (textDepth pr) e (compactMode pr) (stack pr) (out pr).

Definition spaces (depth : Z) : list byte := concat (repeat (bytes "    ") (Z.to_nat depth)).
Definition PrintSpace (depth : Z) : XMLPrinter -> XMLPrinter := Print (spaces depth).

(** [_entityFlag] and [_restrictedEntityFlag]: in a text quotes can stay. *)
Definition entity_flag (restricted : bool) (c : byte) : bool :=
  if restricted then bool_decide (c = ampersand) || bool_decide (c = x3c) || bool_decide (c = x3e)
  else existsb (fun '(_, value) => bool_decide (c = value)) entities.

Definition ENTITY_RANGE : Z := 64.

Definition entity_text (c : byte) : list byte :=
  match list_find (fun '(_, value) => value = c) entities with
  | Some (_, (pattern, _)) => ampersand :: pattern ++ [semicolon]
  | None => []
  end.

(** The bytes below [ENTITY_RANGE] that are flagged become entities. *)
Fixpoint escape (restricted : bool) (s : list byte) : list byte :=
  match s with
  | [] => []
  | q :: s =>
      (if (0 <? b2z q) && (b2z q <? ENTITY_RANGE) && entity_flag restricted q then entity_text q else [q])
      ++ escape restricted s
  end.

Definition PrintString (p : list byte) (restricted : bool) (pr : XMLPrinter) : XMLPrinter :=
  Print (if print_entities pr then escape restricted p else p) pr.

Definition SealElement (pr : XMLPrinter) : XMLPrinter := Print (bytes ">") (set_opened false pr).
Definition seal_open (pr : XMLPrinter) : XMLPrinter := if elementJustOpened pr then SealElement pr else pr.

(** The line break and the indentation in front of a tag. *)
Definition break_line (pr : XMLPrinter) : XMLPrinter :=
  if (textDepth pr <? 0) && negb (firstElement pr) && negb (compactMode pr)
  then PrintSpace (depth pr) (Print [LF] pr) else pr.

Definition OpenElement (name : list byte) (pr : XMLPrinter) : XMLPrinter :=
  let pr := seal_open pr in
  let pr := set_stack (name :: stack pr) pr in
  let pr := break_line pr in
  let pr := Print (bytes "<" ++ name) pr in
  set_depth (depth pr + 1) (set_first false (set_opened true pr)).

Definition PushAttribute (name value : list byte) (pr : XMLPrinter) : result XMLPrinter :=
  _ ← c_assert (elementJustOpened pr);
  let pr := Print (bytes " " ++ name ++ [x3d; x22]) pr in
  Ok (Print [x22] (PrintString value false pr)).

Definition CloseElement (pr : XMLPrinter) : result XMLPrinter :=
  let pr := set_depth (depth pr - 1) pr in
  match stack pr with
  | [] => Err Undefined
  | name :: st =>
      let pr := set_stack st pr in
      let pr :=
        if elementJustOpened pr then Print (bytes "/>") pr else
        let pr := if (textDepth pr <? 0) && negb (compactMode pr) then PrintSpace (depth pr) (Print [LF] pr) else pr in
        Print (bytes "</" ++ name ++ bytes ">") pr in
      let pr := if textDepth pr =? depth pr then set_textDepth (-1) pr else pr in
      let pr := if (depth pr =? 0) && negb (compactMode pr) then Print [LF] pr else pr in
      Ok (set_opened false pr)
  end.

Definition PushText (text : list byte) (cdata : bool) (pr : XMLPrinter) : XMLPrinter :=
  let pr := seal_open (set_textDepth (depth pr - 1) pr) in
  if cdata then Print (bytes "]]>") (Print text (Print (bytes "<![CDATA[") pr)) else PrintString text true pr.

Definition push_tag (s : list byte) (pr : XMLPrinter) : XMLPrinter := Print s (set_first false (break_line (seal_open pr))).

Definition PushComment (comment : list byte) : XMLPrinter -> XMLPrinter :=
  push_tag (bytes "<!--" ++ comment ++ bytes "-->").
Definition PushDeclaration (value : list byte) : XMLPrinter -> XMLPrinter :=
  push_tag (bytes "<?" ++ value ++ bytes "?>").
Definition PushUnknown (value : list byte) : XMLPrinter -> XMLPrinter :=
  push_tag (bytes "<!" ++ value ++ bytes ">").

Definition xml_declaration : list byte := bytes "xml version=" ++ [x22] ++ bytes "1.0" ++ [x22].

Definition PushHeader (writeBOM writeDec : bool) (pr : XMLPrinter) : XMLPrinter :=
  let pr := if writeBOM then Print [xef; xbb; xbf] pr else pr in
  if writeDec then PushDeclaration xml_declaration pr else pr.

(** ** Visiting a document *)

Definition visit_enter_document (doc : XMLDocument) (pr : XMLPrinter) : XMLPrinter :=
  let pr := set_entities (processEntities (d_options doc)) pr in
  if d_writeBOM doc then PushHeader true false pr else pr.

Fixpoint push_attributes (attributes : list XMLAttribute) (pr : XMLPrinter) : result XMLPrinter :=
  match attributes with
  | [] => Ok pr
  | a :: attributes =>
      name ← GetStr (a_name a); value ← GetStr (a_value a);
      pr ← PushAttribute name value pr; push_attributes attributes pr
  end.

Definition visit_enter_element (value : StrPair) (attributes : list XMLAttribute) (pr : XMLPrinter) :
    result XMLPrinter :=
  name ← GetStr value; push_attributes attributes (OpenElement name pr).

(** [Accept], for a printer: its [Visit...] always go on. *)
Fixpoint Accept (node : XMLNode) (pr : XMLPrinter) : result XMLPrinter :=
  match node with
  | XMLElement value _ attributes children =>
      pr ← visit_enter_element value attributes pr;
      pr ← (fix visit nodes pr :=
              match nodes with [] => Ok pr | node :: nodes => pr ← Accept node pr; visit nodes pr end) children pr;
      CloseElement pr
  | XMLText v cdata => text ← GetStr v; Ok (PushText text cdata pr)
  | XMLComment v => text ← GetStr v; Ok (PushComment text pr)
  | XMLDeclaration v => text ← GetStr v; Ok (PushDeclaration text pr)
  | XMLUnknown v => text ← GetStr v; Ok (PushUnknown text pr)
  end.

Fixpoint accept_all (nodes : list XMLNode) (pr : XMLPrinter) : result XMLPrinter :=
  match nodes with [] => Ok pr | node :: nodes => pr ← Accept node pr; accept_all nodes pr end.

Definition accept_document (doc : XMLDocument) (pr : XMLPrinter) : result XMLPrinter :=
  accept_all (d_children doc) (visit_enter_document doc pr).

(** [SaveFile]: the bytes that are printed to the file, if it could be opened; the
    document's error is given back as it was.  The file is opened as text, which on
    Windows writes every line feed as two bytes: that is not modelled, and reading
    such a file normalizes the line ends again. *)
Definition SaveFile (doc : XMLDocument) (opened compact : bool) :
    result (XMLError * XMLDocument * option (list byte)) :=
  if opened then pr ← accept_document doc (new_XMLPrinter compact); Ok (d_errorID doc, doc, Some (out pr))
  else
    let err := XML_ERROR_FILE_COULD_NOT_BE_OPENED in
    Ok (err, Document (d_options doc) (d_writeBOM doc) err (d_children doc), None).
