(* ===== verification/DynArray.v ===== *)
(** * Growing arrays (src/tinyxml2/tinyxml2.h, class DynArray)

    An array with a first block of its own and a larger one on the heap when that
    is full.  A cell nobody has written is [None].  Growing copies the elements
    in use, not the cells behind them. *)

From S2P Require Import Prelude.

Section dynarray.
Context {T : Type} (INIT : Z).

Record DynArray := Array {
  _mem : list (option T);
  on_heap : bool;      (** [_mem != _pool] *)
  _allocated : Z;
  _size : Z;
}.

Definition new_DynArray : DynArray := Array (replicate (Z.to_nat INIT) None) false INIT 0.

(** [new T[n]] with a negative [n] throws. *)
Definition EnsureCapacity (cap : Z) (a : DynArray) : result DynArray :=
  if _allocated a <? cap then
    newAllocated ← chk32 (cap * 2);
    if newAllocated <? 0 then Err Thrown
    else if (_size a <? 0) || (newAllocated <? _size a) || (zlen (_mem a) <? _size a) then Err Undefined
    else
      let newMem := take (Z.to_nat (_size a)) (_mem a) ++ replicate (Z.to_nat (newAllocated - _size a)) None in
      Ok (Array newMem true newAllocated (_size a))
  else Ok a.

(** [_mem[i] = t] *)
Definition put_at (i : Z) (t : T) (a : DynArray) : result DynArray :=
  if (0 <=? i) && (i <? zlen (_mem a))
  then Ok (Array (<[Z.to_nat i := Some t]> (_mem a)) (on_heap a) (_allocated a) (_size a))
  else Err Undefined.

(** [_mem[i]], which has to be written before. *)
Definition get_at (i : Z) (a : DynArray) : result T :=
  if i <? 0 then Err Undefined else of_option Undefined (_mem a !! Z.to_nat i ≫= id).

Definition set_size (n : Z) (a : DynArray) : DynArray := Array (_mem a) (on_heap a) (_allocated a) n.

Definition Push (t : T) (a : DynArray) : result DynArray :=
  cap ← chk32 (_size a + 1);
  a ← EnsureCapacity cap a;
  a ← put_at (_size a) t a;
  Ok (set_size (_size a + 1) a).

(** The index of the first of [count] new elements, which are not written. *)
Definition PushArr (count : Z) (a : DynArray) : result (Z * DynArray) :=
  cap ← chk32 (_size a + count);
  a ← EnsureCapacity cap a;
  Ok (_size a, set_size (_size a + count) a).

Definition Pop (a : DynArray) : result (T * DynArray) :=
  t ← get_at (_size a - 1) a; Ok (t, set_size (_size a - 1) a).

Definition PopArr (count : Z) (a : DynArray) : result DynArray :=
  _ ← c_assert (count <=? _size a); Ok (set_size (_size a - count) a).

Definition Empty (a : DynArray) : bool := _size a =? 0.

(** [operator[]] *)
Definition element (i : Z) (a : DynArray) : result T :=
  _ ← c_assert ((0 <=? i) && (i <? _size a)); get_at i a.

(** ** What an array holds *)

(** The elements in use, some of which [PushArr] has left to be written. *)
Record holds (a : DynArray) (l : list (option T)) : Prop := {
  dy_mem : exists rest, _mem a = l ++ rest;
  dy_size : _size a = zlen l;
  dy_alloc : _allocated a = zlen (_mem a);
  dy_pool : 0 < INIT <= _allocated a;
  dy_heap : on_heap a = false -> _allocated a = INIT;
}.

Lemma array_new_holds : 0 < INIT -> holds new_DynArray [].
Proof. intros H. split; cbn; [by eexists|done|len_lia|lia|done]. Qed.

Lemma holds_size a l : holds a l -> _size a = zlen l.
Proof. by intros []. Qed.

Lemma ensure_spec cap a l :
  holds a l -> zlen l <= cap -> cap < 2 ^ 30 ->
  exists a', EnsureCapacity cap a = Ok a' /\ holds a' l /\ cap <= _allocated a' /\
    (_allocated a' = _allocated a \/ _allocated a' = cap * 2).
Proof.
  intros [[rest Hm] Hs Ha Hp Hh] Hcap Hmax. unfold EnsureCapacity. pose proof (zlen_nonneg l).
  destruct (Z.ltb_spec (_allocated a) cap) as [Hlt|Hge]; [|exists a; split; [done|]; split; [by split; [eexists|..]|]; lia].
  rewrite chk32_ok by lia. cbn [mbind result_bind]. rewrite Hm in *.
  rewrite (proj2 (Z.ltb_ge _ _)) by lia. rewrite (proj2 (Z.ltb_ge (_size a) 0)), (proj2 (Z.ltb_ge (cap * 2) _)),
    (proj2 (Z.ltb_ge (zlen (l ++ rest)) _)) by len_lia. cbn [orb].
  eexists. split; [done|]. rewrite Hs, to_nat_zlen, take_app_length. split; [|cbn; lia].
  split; cbn; [by eexists|done|len_lia|lia|done].
Qed.

Lemma insert_app_middle (l1 l2 : list (option T)) o p : <[length l1 := o]> (l1 ++ p :: l2) = l1 ++ o :: l2.
Proof. by rewrite <- (Nat.add_0_r (length l1)), insert_app_r. Qed.

Lemma array_put_spec a l1 o l2 t :
  holds a (l1 ++ o :: l2) ->
  exists a', put_at (zlen l1) t a = Ok a' /\ holds a' (l1 ++ Some t :: l2) /\ _allocated a' = _allocated a.
Proof.
  intros [[rest Hm] Hs Ha Hp Hh]. unfold put_at. pose proof (zlen_nonneg l1).
  rewrite (proj2 (Z.leb_le _ _)), (proj2 (Z.ltb_lt _ _)) by (rewrite ?Hm; len_lia). cbn [andb].
  eexists. split; [done|]. split; [|done]. rewrite Hm, to_nat_zlen in *. rewrite <- app_assoc. cbn [app].
  rewrite insert_app_middle.
  split; cbn; [exists rest; by rewrite <- app_assoc|len_lia|len_lia|lia|done].
Qed.

Lemma get_spec a l1 t l2 : holds a (l1 ++ Some t :: l2) -> get_at (zlen l1) a = Ok t.
Proof.
  intros [[rest Hm] Hs Ha Hp Hh]. unfold get_at. rewrite (proj2 (Z.ltb_ge _ _)) by apply zlen_nonneg.
  rewrite Hm, to_nat_zlen, <- app_assoc. cbn [app]. by rewrite list_lookup_middle.
Qed.

Lemma pushArr_spec a l count :
  holds a l -> 0 <= count -> zlen l + count < 2 ^ 30 ->
  exists a', PushArr count a = Ok (zlen l, a') /\
    (exists new, zlen new = count /\ holds a' (l ++ new)) /\
    (_allocated a' = _allocated a \/ _allocated a' = (zlen l + count) * 2).
Proof.
  intros Hh Hc Hmax. unfold PushArr. pose proof (holds_size _ _ Hh) as Hs. pose proof (zlen_nonneg l). rewrite Hs.
  rewrite chk32_ok by lia. cbn [mbind result_bind].
  destruct (ensure_spec (zlen l + count) a l Hh) as (a' & -> & Hh' & Hal & Hgrow); [lia..|]. cbn [mbind result_bind].
  rewrite (holds_size _ _ Hh'). eexists. split; [done|]. split; [|done]. destruct Hh' as [[rest Hm] Hs' Ha' Hp' Hh''].
  exists (take (Z.to_nat count) rest). rewrite Hm in Ha'. split; [len_lia|].
  split; cbn; [|len_lia|by rewrite Hm|done|done].
  exists (drop (Z.to_nat count) rest). by rewrite <- app_assoc, take_drop.
Qed.

Lemma array_push_spec a l t :
  holds a l -> zlen l + 1 < 2 ^ 30 -> exists a', Push t a = Ok a' /\ holds a' (l ++ [Some t]).
Proof.
  intros Hh Hmax. destruct (pushArr_spec a l 1 Hh ltac:(lia) Hmax) as (a1 & E & (new & Hn & H1) & _).
  unfold PushArr in E. unfold Push. rewrite chk32_ok in * by (rewrite (holds_size _ _ Hh); pose proof (zlen_nonneg l); lia).
  cbn [mbind result_bind] in *. destruct (EnsureCapacity _ a) as [a2|]; [|done]. cbn [mbind result_bind] in *.
  injection E as Es <-. destruct new as [|o [|o2 new]]; [len_lia| |pose proof (zlen_nonneg new); len_lia].
  destruct (array_put_spec _ l o [] t H1) as (a3 & E3 & H3 & _). unfold put_at in *. cbn [set_size _mem on_heap _allocated _size] in *.
  rewrite Es. destruct (_ && _); [|done]. cbn [mbind result_bind] in *. injection E3 as <-.
  eexists. split; [done|]. cbn [set_size _size]. unfold set_size in *. cbn [_mem on_heap _allocated _size] in *. by rewrite Es in *.
Qed.

Lemma pop_spec a l t :
  holds a (l ++ [Some t]) -> exists a', Pop a = Ok (t, a') /\ holds a' l.
Proof.
  intros Hh. unfold Pop. rewrite (holds_size _ _ Hh). replace (zlen (l ++ [Some t]) - 1) with (zlen l) by len_lia.
  rewrite (get_spec a l t [] Hh). cbn [mbind result_bind]. eexists. split; [done|].
  destruct Hh as [[rest Hm] Hs Ha Hp Hh]. split; cbn; [|done..]. exists ([Some t] ++ rest). by rewrite Hm, <- app_assoc.
Qed.

Lemma popArr_spec a l new :
  holds a (l ++ new) -> exists a', PopArr (zlen new) a = Ok a' /\ holds a' l.
Proof.
  intros Hh. unfold PopArr. pose proof (holds_size _ _ Hh) as Hs. pose proof (zlen_nonneg l).
  rewrite c_assert_true by (apply Z.leb_le; len_lia). cbn [mbind result_bind]. eexists. split; [done|].
  destruct Hh as [[rest Hm] _ Ha Hp Hh]. split; cbn; [|len_lia|done..]. exists (new ++ rest). by rewrite Hm, app_assoc.
Qed.

Lemma element_spec a l1 t l2 : holds a (l1 ++ Some t :: l2) -> element (zlen l1) a = Ok t.
Proof.
  intros Hh. unfold element. pose proof (zlen_nonneg l1). pose proof (zlen_nonneg l2).
  rewrite c_assert_true; [by apply get_spec in Hh|].
  rewrite (holds_size _ _ Hh), andb_true_iff, Z.leb_le, Z.ltb_lt. len_lia.
Qed.
End dynarray.

Arguments DynArray T : clear implicits.
