(* ===== verification/XmlBuffer.v ===== *)
(** * Printing to memory (src/tinyxml2/tinyxml2.cpp, XMLPrinter::Print)

    Without a file the printer appends to a growing array of characters whose
    last element is the NUL of the string.  The two compilers go different ways:
    one measures the text first, the other tries it in a second array that it
    lets grow until the text fits.  What [printf] makes of its arguments is the
    text, as in [XmlPrinter]. *)

From S2P Require Import Prelude DynArray.
From S2P Require Import XmlPrinter.

Abbreviation chars := (DynArray byte).

(** [_buffer] and [_accumulator] start with 20 characters of their own. *)
Definition BUFFER_INIT : Z := 20.

(** [_buffer.Push( 0 )] of the constructor *)
Definition new_buffer : result chars := Push x00 (new_DynArray BUFFER_INIT).

(** Characters written from index [i] on. *)
Fixpoint put_all (i : Z) (s : list byte) (a : chars) : result chars :=
  match s with [] => Ok a | c :: s => a ← put_at i c a; put_all (i + 1) s a end.

(** ** gcc: [vsnprintf] measures, then writes over the NUL *)

Definition Print_measured (text : list byte) (buffer : chars) : result chars :=
  len ← chk32 (zlen text);
  '(at_, buffer) ← PushArr len buffer;
  put_all (at_ - 1) (text ++ [x00]) buffer.

(** ** Visual C++: [vsnprintf_s] with [_TRUNCATE] *)

(** The length of the text, or -1 when it does not fit and was cut. *)
Definition vsnprintf_s (text : list byte) (a : chars) : result (Z * chars) :=
  if zlen text <? _allocated a then a ← put_all 0 (text ++ [x00]) a; Ok (zlen text, a)
  else a ← put_all 0 (take (Z.to_nat (_allocated a - 1)) text ++ [x00]) a; Ok (-1, a).

Fixpoint accumulate (fuel : nat) (text : list byte) (expand : Z) (acc : chars) : result (Z * chars) :=
  match fuel with
  | O => Err NoFuel
  | S fuel =>
      '(len, acc) ← vsnprintf_s text acc;
      if len <? 0 then
        let expand := expand * (3 / 2) in
        '(_, acc) ← PushArr expand acc;
        accumulate fuel text expand acc
      else Ok (len, acc)
  end.

(** [memcpy( p, _accumulator.Mem(), n )], character by character. *)
Fixpoint copy_chars (n : nat) (from to_ : Z) (src dst : chars) : result chars :=
  match n with
  | O => Ok dst
  | S n => c ← get_at from src; dst ← put_at to_ c dst; copy_chars n (from + 1) (to_ + 1) src dst
  end.

(** Enough rounds: each makes room for 1000 characters more. *)
Definition accumulate_fuel (text : list byte) : nat := S (S (Z.to_nat (zlen text / 1000))).

Definition Print_accumulated (text : list byte) (buffer acc : chars) : result (chars * chars) :=
  '(len, acc) ← accumulate (accumulate_fuel text) text 1000 acc;
  '(at_, buffer) ← PushArr len buffer;
  buffer ← copy_chars (Z.to_nat (len + 1)) 0 (at_ - 1) acc buffer;
  Ok (buffer, acc).

(** [CStr]: the characters from the start of the array to the first NUL. *)
Fixpoint c_text (l : list (option byte)) : result (list byte) :=
  match l with
  | Some c :: l => if bool_decide (c = x00) then Ok [] else s ← c_text l; Ok (c :: s)
  | _ => Err Undefined
  end.
Definition CStr (buffer : chars) : result (list byte) := c_text (_mem buffer).
Definition CStrSize (buffer : chars) : Z := _size buffer.

(** ** What the buffer holds *)

Definition prints (buffer : chars) (text : list byte) : Prop := holds BUFFER_INIT buffer (Some <$> (text ++ [x00])).

Lemma new_buffer_prints : exists buffer, new_buffer = Ok buffer /\ prints buffer [].
Proof. apply (array_push_spec BUFFER_INIT _ [] x00); [by apply array_new_holds|by vm_compute]. Qed.

Lemma put_all_spec s : forall a l1 old l2,
  holds BUFFER_INIT a (l1 ++ old ++ l2) -> length old = length s ->
  exists a', put_all (zlen l1) s a = Ok a' /\ holds BUFFER_INIT a' (l1 ++ (Some <$> s) ++ l2) /\ _allocated a' = _allocated a.
Proof.
  induction s as [|c s IH]; intros a l1 [|o old] l2 Hh Hl; try done; cbn [put_all]; [by exists a|].
  destruct (array_put_spec _ a l1 o (old ++ l2) c Hh) as (a1 & -> & H1 & Hal). cbn [mbind result_bind].
  destruct (IH a1 (l1 ++ [Some c]) old l2) as (a2 & E & H2 & Hal2); [by rewrite <- app_assoc|by injection Hl|].
  replace (zlen l1 + 1) with (zlen (l1 ++ [Some c])) by len_lia. exists a2. rewrite E. split; [done|].
  rewrite <- app_assoc in H2. split; [done|by rewrite Hal2].
Qed.

(** The new elements and the NUL before them take the text. *)
Lemma append_spec_chars buffer old (text : list byte) :
  prints buffer old -> zlen old + zlen text < 2 ^ 29 ->
  exists b1 new, PushArr (zlen text) buffer = Ok (zlen old + 1, b1) /\ zlen new = zlen text /\
    holds BUFFER_INIT b1 ((Some <$> old) ++ (Some x00 :: new) ++ []).
Proof.
  intros Hp Hmax. pose proof (zlen_nonneg old). pose proof (zlen_nonneg text).
  destruct (pushArr_spec BUFFER_INIT buffer _ (zlen text) Hp) as (b1 & E & (new & Hn & H1) & _); [lia|len_lia|].
  exists b1, new. split; [rewrite E; do 2 f_equal; len_lia|]. split; [done|].
  by rewrite fmap_app, <- app_assoc, ?app_nil_r in *.
Qed.

Lemma print_measured_spec buffer old text :
  prints buffer old -> zlen old + zlen text < 2 ^ 29 ->
  exists buffer', Print_measured text buffer = Ok buffer' /\ prints buffer' (old ++ text).
Proof.
  intros Hp Hmax. unfold Print_measured. pose proof (zlen_nonneg old). pose proof (zlen_nonneg text).
  rewrite chk32_ok by lia. cbn [mbind result_bind].
  destruct (append_spec_chars buffer old text Hp Hmax) as (b1 & new & -> & Hn & H1). cbn [mbind result_bind].
  destruct (put_all_spec (text ++ [x00]) b1 (Some <$> old) (Some x00 :: new) [] H1) as (b2 & E & H2 & _); [len_lia|].
  replace (zlen old + 1 - 1) with (zlen (Some <$> old)) by len_lia. exists b2. split; [done|].
  unfold prints. by rewrite app_nil_r, <- fmap_app, app_assoc in H2.
Qed.

(** ** The accumulator *)

(** All its cells count: the text goes behind those in use. *)
Record room_for (acc : chars) : Prop := {
  rf_size : 0 <= _size acc <= _allocated acc;
  rf_alloc : _allocated acc = zlen (_mem acc);
  rf_pool : BUFFER_INIT <= _allocated acc;
  rf_heap : on_heap acc = false -> _allocated acc = BUFFER_INIT;
}.

Lemma room_holds acc : room_for acc -> holds BUFFER_INIT (set_size (_allocated acc) acc) (_mem acc).
Proof. intros [H1 H2 H3 H4]. split; cbn; [exists []; by rewrite app_nil_r|done|done|unfold BUFFER_INIT in *; lia|done]. Qed.

Lemma put_all_size s : forall i a n, put_all i s (set_size n a) = (set_size n <$> put_all i s a).
Proof.
  induction s as [|c s IH]; intros i a n; cbn [put_all]; [done|]. unfold put_at. cbn [set_size _mem on_heap _allocated _size].
  destruct (_ && _); [|done]. cbn [mbind result_bind]. by rewrite <- IH.
Qed.

Lemma put_all_keeps s : forall i a a',
  put_all i s a = Ok a' -> _size a' = _size a /\ _allocated a' = _allocated a /\ on_heap a' = on_heap a /\ zlen (_mem a') = zlen (_mem a).
Proof.
  induction s as [|c s IH]; intros i a a'; cbn [put_all]; [by intros [= <-]|]. unfold put_at.
  destruct (_ && _); [|done]. cbn [mbind result_bind]. intros E. destruct (IH _ _ _ E) as (-> & -> & -> & ->). cbn.
  repeat split. len_lia.
Qed.

Lemma room_put s acc :
  room_for acc -> zlen s <= _allocated acc ->
  exists acc', put_all 0 s acc = Ok acc' /\ room_for acc' /\ _size acc' = _size acc /\ _allocated acc' = _allocated acc /\
    exists rest, _mem acc' = (Some <$> s) ++ rest.
Proof.
  intros Hr Hs. pose proof (room_holds acc Hr) as Hh. pose proof (rf_alloc _ Hr) as Ha.
  rewrite <- (take_drop (length s) (_mem acc)) in Hh.
  destruct (put_all_spec s _ [] _ _ Hh) as (a' & E & [[rest Hm] _ _ _ _] & _); [len_lia|]. change (zlen []) with 0 in E.
  rewrite put_all_size in E. destruct (put_all 0 s acc) as [acc'|] eqn:E'; [|done]. injection E as <-.
  destruct (put_all_keeps _ _ _ _ E') as (H1 & H2 & H3 & H4). exists acc'. split; [done|].
  split; [|split; [done|split; [done|]]].
  - destruct Hr. split; [lia|lia|lia|by rewrite H3, H2].
  - cbn in Hm. eexists. by rewrite Hm, <- app_assoc.
Qed.

Lemma room_grow n acc :
  room_for acc -> 0 <= n -> _size acc + n < 2 ^ 30 ->
  exists acc', PushArr n acc = Ok (_size acc, acc') /\ room_for acc' /\ _size acc' = _size acc + n.
Proof.
  intros [[H0 H1] H2 H3 H4] Hn Hmax. unfold PushArr, EnsureCapacity, BUFFER_INIT in *. rewrite chk32_ok by lia. cbn [mbind result_bind].
  destruct (Z.ltb_spec (_allocated acc) (_size acc + n)) as [Hlt|Hge].
  - rewrite chk32_ok by lia. cbn [mbind result_bind]. rewrite (proj2 (Z.ltb_ge ((_size acc + n) * 2) 0)) by lia.
    rewrite (proj2 (Z.ltb_ge (_size acc) 0)), (proj2 (Z.ltb_ge ((_size acc + n) * 2) _)), (proj2 (Z.ltb_ge (zlen (_mem acc)) _)) by lia.
    cbn [orb mbind result_bind _size]. eexists. split; [done|]. split; [|done].
    split; cbn; [lia|len_lia|unfold BUFFER_INIT; lia|done].
  - cbn [mbind result_bind]. eexists. split; [done|]. split; [|done]. split; cbn; [lia|lia|unfold BUFFER_INIT; lia|done].
Qed.

Lemma accumulate_spec text M : forall fuel acc,
  (0 < fuel)%nat -> room_for acc -> zlen text <= M < 2 ^ 29 -> _size acc <= M + 1000 -> zlen text < _size acc + 1000 * (Z.of_nat fuel - 1) ->
  exists acc', accumulate fuel text 1000 acc = Ok (zlen text, acc') /\ room_for acc' /\ _size acc' <= M + 1000 /\
    exists rest, _mem acc' = (Some <$> (text ++ [x00])) ++ rest.
Proof.
  induction fuel as [|fuel IH]; intros acc H0f Hr Hmax Hs Hf; [lia|]. cbn [accumulate]. unfold vsnprintf_s.
  pose proof (zlen_nonneg text). pose proof Hr as [[H0 H1] _ Hp _]. unfold BUFFER_INIT in Hp.
  destruct (Z.ltb_spec (zlen text) (_allocated acc)) as [Hlt|Hge].
  - destruct (room_put (text ++ [x00]) acc Hr) as (acc1 & -> & Hr1 & Hs1 & _ & Hm); [len_lia|]. cbn [mbind result_bind].
    rewrite (proj2 (Z.ltb_ge _ _)) by done. exists acc1. split; [done|]. split; [done|]. split; [lia|done].
  - destruct (room_put (take (Z.to_nat (_allocated acc - 1)) text ++ [x00]) acc Hr) as (acc1 & -> & Hr1 & Hs1 & Ha1 & _); [len_lia|].
    cbn [mbind result_bind]. change (-1 <? 0) with true. cbn match. change (1000 * (3 / 2)) with 1000.
    destruct (room_grow 1000 acc1 Hr1) as (acc2 & -> & Hr2 & Hs2); [lia..|]. cbn [mbind result_bind].
    destruct (IH acc2) as (acc3 & -> & Hr3 & Hs3 & Hm); [lia|done|lia..|]. by exists acc3.
Qed.

(** ** Copying to the buffer *)

Lemma copy_chars_put src s : forall n i j rest pre dst,
  _mem src = pre ++ (Some <$> s) ++ rest -> i = zlen pre -> n = length s -> copy_chars n i j src dst = put_all j s dst.
Proof.
  induction s as [|c s IH]; intros n i j rest pre dst Hm -> ->; [done|]. cbn [length copy_chars put_all].
  unfold get_at. rewrite (proj2 (Z.ltb_ge _ _)) by apply zlen_nonneg. rewrite Hm, to_nat_zlen. cbn [fmap list_fmap app] in *.
  rewrite list_lookup_middle by done. cbn [mbind option_bind id of_option result_bind].
  destruct (put_at j c dst) as [dst'|]; [|done]. cbn [mbind result_bind].
  apply (IH _ _ _ rest (pre ++ [Some c])); [by rewrite <- app_assoc|len_lia|done].
Qed.

Lemma print_accumulated_spec M buffer acc old text :
  prints buffer old -> room_for acc -> zlen old + zlen text <= M < 2 ^ 29 -> _size acc <= M + 1000 ->
  exists buffer' acc', Print_accumulated text buffer acc = Ok (buffer', acc') /\ prints buffer' (old ++ text) /\
    room_for acc' /\ _size acc' <= M + 1000.
Proof.
  intros Hp Hr Hmax Hs. unfold Print_accumulated. pose proof (zlen_nonneg old). pose proof (zlen_nonneg text).
  pose proof (rf_size _ Hr) as [Hs0 _].
  destruct (accumulate_spec text M (accumulate_fuel text) acc) as (acc' & -> & Hr' & Hs' & rest & Hm); [unfold accumulate_fuel; lia|done|lia|lia| |].
  { unfold accumulate_fuel. pose proof (Z.div_mod (zlen text) 1000 ltac:(lia)). pose proof (Z.mod_pos_bound (zlen text) 1000 ltac:(lia)).
    pose proof (Z.div_pos (zlen text) 1000 ltac:(lia) ltac:(lia)). lia. }
  cbn [mbind result_bind]. destruct (append_spec_chars buffer old text Hp ltac:(lia)) as (b1 & new & -> & Hn & H1). cbn [mbind result_bind].
  rewrite (copy_chars_put acc' (text ++ [x00]) _ _ _ rest [] b1 Hm) by (done || len_lia).
  destruct (put_all_spec (text ++ [x00]) b1 (Some <$> old) (Some x00 :: new) [] H1) as (b2 & E & H2 & _); [len_lia|].
  replace (zlen old + 1 - 1) with (zlen (Some <$> old)) by len_lia. rewrite E. cbn [mbind result_bind].
  exists b2, acc'. split; [done|]. split; [|done]. unfold prints. by rewrite app_nil_r, <- fmap_app, app_assoc in H2.
Qed.

(** ** Whole documents *)

Inductive compiler := Gcc | VisualC.

(** [_buffer] and [_accumulator] *)
Definition print_text (cc : compiler) (text : list byte) (bufs : chars * chars) : result (chars * chars) :=
  match cc with
  | Gcc => buffer ← Print_measured text (fst bufs); Ok (buffer, snd bufs)
  | VisualC => Print_accumulated text (fst bufs) (snd bufs)
  end.

Fixpoint print_texts (cc : compiler) (texts : list (list byte)) (bufs : chars * chars) : result (chars * chars) :=
  match texts with [] => Ok bufs | t :: texts => bufs ← print_text cc t bufs; print_texts cc texts bufs end.

(** [CStr] of a printer without a file that was told to print the texts. *)
Definition printed_string (cc : compiler) (texts : list (list byte)) : result (list byte * Z) :=
  buffer ← new_buffer;
  '(buffer, _) ← print_texts cc texts (buffer, new_DynArray BUFFER_INIT);
  s ← CStr buffer; Ok (s, CStrSize buffer).

Lemma print_texts_spec cc M texts : forall buffer acc old,
  prints buffer old -> room_for acc -> zlen old + zlen (concat texts) <= M < 2 ^ 29 -> _size acc <= M + 1000 ->
  exists buffer' acc', print_texts cc texts (buffer, acc) = Ok (buffer', acc') /\ prints buffer' (old ++ concat texts).
Proof.
  induction texts as [|t texts IH]; intros buffer acc old Hp Hr Hmax Hs; cbn [print_texts concat] in *.
  { exists buffer, acc. by rewrite app_nil_r. }
  rewrite zlen_app in Hmax. pose proof (zlen_nonneg (concat texts)). rewrite app_assoc.
  destruct cc; cbn [print_text fst snd].
  - destruct (print_measured_spec buffer old t Hp ltac:(lia)) as (b & -> & Hb). cbn [mbind result_bind].
    apply (IH b acc (old ++ t)); [done|done|len_lia|done].
  - destruct (print_accumulated_spec M buffer acc old t Hp Hr) as (b & acc' & -> & Hb & Hr' & Hs'); [lia|done|].
    cbn [mbind result_bind]. apply (IH b acc' (old ++ t)); [done|done|len_lia|done].
Qed.

Lemma c_text_prints (s : list byte) rest : (x00 ∉ s) -> c_text ((Some <$> (s ++ [x00])) ++ rest) = Ok s.
Proof.
  induction s as [|c s IH]; intros H0; cbn [app fmap list_fmap c_text]; [by rewrite bool_decide_eq_true_2|].
  apply not_elem_of_cons in H0 as [Hc H0]. rewrite bool_decide_eq_false_2 by done. fold (fmap (M := list) (@Some byte)).
  by rewrite IH.
Qed.

Lemma new_room : room_for (new_DynArray BUFFER_INIT).
Proof. split; cbn; [unfold BUFFER_INIT; lia|done|done|done]. Qed.

Lemma printer_out texts : forall pr, out (foldl (fun pr s => Print s pr) pr texts) = out pr ++ concat texts.
Proof. induction texts as [|t texts IH]; intros pr; cbn [foldl concat]; [by rewrite app_nil_r|]. by rewrite IH, app_assoc. Qed.

(** C30: Printing to memory gives what printing to a file gives: whatever texts
    [Print] is told to write - half a gigabyte in all at most, and no NUL among
    them - the string [CStr] answers is all of them in order, as [out] of the
    printer has it, and [CStrSize] counts it with its NUL.  So it is with both
    compilers; the loop that lets the second array grow ends, and neither array is
    read or written outside of its cells. *)
Theorem memory_printing cc compact texts :
  zlen (concat texts) < 2 ^ 29 -> (x00 ∉ concat texts) ->
  let pr := foldl (fun pr s => Print s pr) (new_XMLPrinter compact) texts in
  printed_string cc texts = Ok (out pr, zlen (out pr) + 1).
Proof.
  intros Hmax H0 pr. unfold printed_string. destruct new_buffer_prints as (b & -> & Hb). cbn [mbind result_bind].
  destruct (print_texts_spec cc (zlen (concat texts)) texts b (new_DynArray BUFFER_INIT) [] Hb new_room) as (b' & acc' & -> & [[rest Hm] Hs _ _ _]).
  { rewrite zlen_nil. lia. }
  { cbn. pose proof (zlen_nonneg (concat texts)). lia. }
  cbn [mbind result_bind]. unfold CStr, CStrSize. subst pr. rewrite printer_out, Hm, Hs. cbn [out new_XMLPrinter app].
  rewrite c_text_prints by done. cbn [mbind result_bind]. do 2 f_equal. len_lia.
Qed.

Lemma memory_printing_witness :
  let texts := [bytes "<a x='1'"; bytes ">"; repeat x61 1200; bytes "</a>"] in
  let pr := foldl (fun pr s => Print s pr) (new_XMLPrinter false) texts in
  printed_string VisualC texts = Ok (out pr, zlen (out pr) + 1).
Proof.
  refine (memory_printing VisualC false _ _ _); [reflexivity|].
  apply (bool_decide_unpack _). vm_compute. exact I.
Defined.

(** [expand *= 3/2] multiplies by one: three rounds of 1000 for 2500 characters. *)
Example expand_stays :
  (fun r => (_size (snd r), _allocated (snd r))) <$>
    accumulate 5 (repeat x61 2500) 1000 (new_DynArray BUFFER_INIT) = Ok (3000, 6000).
Proof. vm_compute. reflexivity. Qed.
