(* ===== verification/XmlTree.v ===== *)
(** * What an XML document says

    A document as its reader sees it: names, attribute values and texts are the
    strings that [Name], [Value] and [GetText] give, with line ends and entities
    replaced.  A layout of such a tree is a text that says it: the tree's tags and
    texts in order, with white space in front of tags. *)

From S2P Require Import Prelude XmlText.
From S2P Require Import Xml XmlPrinter.

Inductive xml :=
| Elem (name : list byte) (attrs : list (list byte * list byte)) (body : list xml)
| Plain (text : list byte)
| Cdata (text : list byte)
| Remark_ (text : list byte)
| Decl (text : list byte)
| Unk (text : list byte).

(** ** The tree of a document *)

Definition denote_attr (a : XMLAttribute) : result (list byte * list byte) :=
  n ← GetStr (a_name a); v ← GetStr (a_value a); Ok (n, v).

Section collect.
  Context {A B : Type} (f : A -> result B).

Fixpoint collect (l : list A) : result (list B) :=
  match l with [] => Ok [] | a :: l => b ← f a; bs ← collect l; Ok (b :: bs) end.

End collect.

Fixpoint denote (node : XMLNode) : result xml :=
  match node with
  | XMLElement value _ attributes children =>
      name ← GetStr value; attrs ← collect denote_attr attributes;
      body ← collect denote children;
      Ok (Elem name attrs body)
  | XMLText v cdata => t ← GetStr v; Ok (if cdata then Cdata t else Plain t)
  | XMLComment v => t ← GetStr v; Ok (Remark_ t)
  | XMLDeclaration v => t ← GetStr v; Ok (Decl t)
  | XMLUnknown v => t ← GetStr v; Ok (Unk t)
  end.

Definition denote_all : list XMLNode -> result (list xml) := collect denote.

(** ** Trees that can be written

    Names are names, attributes start with a letter and are distinct; texts hold
    neither NUL nor CR, plain ones are not blank and not side by side, and the
    others do not hold what ends them. *)

Definition name_ok (n : list byte) : bool :=
  match n with c :: n => name_char true c && forallb (name_char false) n | [] => false end.

Definition plain (s : list byte) : bool :=
  forallb (fun c => negb (bool_decide (c = x00)) && negb (bool_decide (c = CR))) s.

Fixpoint clean (tag s : list byte) : bool :=
  match s with
  | [] => true
  | _ :: t => negb (has_prefix tag (s ++ tag)) && clean tag t
  end.

Definition attr_ok (a : list byte * list byte) : bool :=
  name_ok (fst a) && match fst a with c :: _ => IsAlpha c | [] => false end && plain (snd a).

Definition attrs_ok (ats : list (list byte * list byte)) : bool :=
  forallb attr_ok ats && bool_decide (NoDup (fst <$> ats)).

Definition is_plain (x : xml) : bool := match x with Plain _ => true | _ => false end.

Fixpoint apart (xs : list xml) : bool :=
  match xs with
  | x :: xs => negb (is_plain x && match xs with y :: _ => is_plain y | [] => false end) && apart xs
  | [] => true
  end.

Definition unk_ok (s : list byte) : bool :=
  negb (has_prefix (bytes "--") s) && negb (has_prefix (bytes "[CDATA[") s).

Fixpoint tree_ok (x : xml) : bool :=
  match x with
  | Elem n ats body => name_ok n && attrs_ok ats && apart body && forallb tree_ok body
  | Plain s => plain s && existsb (fun c => negb (IsWhiteSpace c)) s
  | Cdata s => plain s && clean (bytes "]]>") s
  | Remark_ s => plain s && clean (bytes "-->") s
  | Decl s => plain s && clean (bytes "?>") s
  | Unk s => plain s && clean (bytes ">") s && unk_ok s
  end.

(** A whole document has no text outside of its elements, and something in it. *)
Definition document_ok (xs : list xml) : bool :=
  forallb (fun x => negb (is_plain x) && tree_ok x) xs && negb (bool_decide (length xs = O)).

(** ** Layouts *)

Definition blank (ws : list byte) : Prop := forallb IsWhiteSpace ws = true.

Definition attrs_text (ats : list (list byte * list byte)) : list byte :=
  concat ((fun a => bytes " " ++ fst a ++ [x3d; x22] ++ escape false (snd a) ++ [x22]) <$> ats).

(** In front of a tag, or at the end. *)
Definition at_tag (t : list byte) : Prop := t = [] \/ exists c t', t = x3c :: c :: t'.

Inductive layout : list xml -> list byte -> Prop :=
| layout_nil ws : blank ws -> layout [] ws
| layout_text s xs t :
    tree_ok (Plain s) = true -> at_tag t -> layout xs t -> layout (Plain s :: xs) (escape true s ++ t)
| layout_tag ws x xs t t' : blank ws -> tag x t -> layout xs t' -> layout (x :: xs) (ws ++ t ++ t')
with tag : xml -> list byte -> Prop :=
| tag_empty n ats :
    name_ok n = true -> attrs_ok ats = true ->
    tag (Elem n ats []) (bytes "<" ++ n ++ attrs_text ats ++ bytes "/>")
| tag_elem n ats body t :
    name_ok n = true -> attrs_ok ats = true -> layout body t ->
    tag (Elem n ats body) (bytes "<" ++ n ++ attrs_text ats ++ bytes ">" ++ t ++ bytes "</" ++ n ++ bytes ">")
| tag_cdata s : tree_ok (Cdata s) = true -> tag (Cdata s) (bytes "<![CDATA[" ++ s ++ bytes "]]>")
| tag_comment s : tree_ok (Remark_ s) = true -> tag (Remark_ s) (bytes "<!--" ++ s ++ bytes "-->")
| tag_decl s : tree_ok (Decl s) = true -> tag (Decl s) (bytes "<?" ++ s ++ bytes "?>")
| tag_unk s : tree_ok (Unk s) = true -> tag (Unk s) (bytes "<!" ++ s ++ bytes ">").

Scheme layout_mut := Minimality for layout Sort Prop
with tag_mut := Minimality for tag Sort Prop.
Combined Scheme layout_tag_ind from layout_mut, tag_mut.

(** ** Facts on these *)

Lemma collect_Forall2 {A B} (f : A -> result B) l bs :
  collect f l = Ok bs <-> Forall2 (fun a b => f a = Ok b) l bs.
Proof.
  revert bs. induction l as [|a l IH]; intros bs; cbn.
  - split; [by intros [= <-]|intros H; by inversion H].
  - destruct (f a) as [b|e] eqn:E; cbn [mbind result_bind].
    2:{ split; [done|]. intros H. inversion H; subst. congruence. }
    destruct (collect f l) as [bs'|e] eqn:El; cbn [mbind result_bind].
    + split; [intros [= <-]; constructor; [done|by apply IH]|]. intros H. inversion H; subst.
      apply IH in H4 as [= ->]. by replace b with y by congruence.
    + split; [done|]. intros H. inversion H; subst. by apply IH in H4.
Qed.

Lemma denote_element value closing attributes children :
  denote (XMLElement value closing attributes children) =
  (name ← GetStr value; attrs ← collect denote_attr attributes; body ← denote_all children; Ok (Elem name attrs body)).
Proof. reflexivity. Qed.

Lemma attrs_text_cons a ats :
  attrs_text (a :: ats) = bytes " " ++ fst a ++ [x3d; x22] ++ escape false (snd a) ++ [x22] ++ attrs_text ats.
Proof. unfold attrs_text. rewrite fmap_cons. cbn [concat]. by rewrite <- !app_assoc. Qed.

Section xml_ind.
  Context (P : xml -> Prop)
    (Helem : forall n ats body, Forall P body -> P (Elem n ats body))
    (Hplain : forall s, P (Plain s)) (Hcdata : forall s, P (Cdata s)) (Hremark : forall s, P (Remark_ s))
    (Hdecl : forall s, P (Decl s)) (Hunk : forall s, P (Unk s)).

Fixpoint xml_nested_ind (x : xml) : P x :=
  match x with
  | Elem n ats body =>
      Helem n ats body ((fix go (l : list xml) : Forall P l :=
        match l with [] => List.Forall_nil P | y :: l => List.Forall_cons _ _ _ (xml_nested_ind y) (go l) end) body)
  | Plain s => Hplain s
  | Cdata s => Hcdata s
  | Remark_ s => Hremark s
  | Decl s => Hdecl s
  | Unk s => Hunk s
  end.

End xml_ind.

Lemma at_tag_app t k : at_tag t -> at_tag k -> at_tag (t ++ k).
Proof. intros [->|(c & t' & ->)] Hk; [done|]. right. by exists c, (t' ++ k). Qed.
