(* ===== verification/XmlLoad.v ===== *)
(** * Layouts are parsed back

    The parser, given a layout of a tree, builds a document that says this tree:
    first the strings of the tree, then names and attributes, then the nodes, by
    induction on the layout. *)

From S2P Require Import Prelude XmlText.
From S2P Require Import XmlTextSpec Xml XmlPrinter XmlTree.

(** ** Strings *)

Lemma plain_cons c s : plain (c :: s) = true -> c <> x00 /\ c <> CR /\ plain s = true.
Proof.
  unfold plain. cbn [forallb]. rewrite !andb_true_iff, !negb_true_iff, !bool_decide_eq_false. tauto.
Qed.

Lemma plain_nul s : plain s = true -> no_nul s.
Proof.
  induction s as [|c s IH]; [by constructor|]. intros (H & _ & Hs)%plain_cons. constructor; [done|by apply IH].
Qed.

Lemma skip_plain s : plain s = true -> skip_byte CR s = s.
Proof. destruct s as [|c s]; [done|]. intros (_ & H & _)%plain_cons. cbn. by rewrite bool_decide_eq_false_2. Qed.

Lemma decode_newlines s : plain s = true -> decode (length s) NEEDS_NEWLINE_NORMALIZATION s = Some s.
Proof.
  induction s as [|c s IH]; [done|]. intros (_ & Hc & Hs)%plain_cons. cbn [decode length].
  rewrite (bool_decide_eq_false_2 (c = CR)) by done. rewrite andb_false_r.
  change (flag_set NEEDS_NEWLINE_NORMALIZATION NEEDS_NEWLINE_NORMALIZATION) with true.
  change (flag_set NEEDS_NEWLINE_NORMALIZATION NEEDS_ENTITY_PROCESSING) with false. cbn [andb].
  case_bool_decide as E; [rewrite (skip_plain s Hs)|]; rewrite (IH Hs); by subst.
Qed.

Lemma get_str_plain s : plain s = true -> GetStr (Set_ s NEEDS_NEWLINE_NORMALIZATION) = Ok s.
Proof.
  intros Hs. pose proof (text_loop_spec NEEDS_NEWLINE_NORMALIZATION (S (length s)) s [] [] (plain_nul s Hs) ltac:(lia)) as Hl.
  unfold loops_to in Hl. rewrite decode_newlines in Hl by done. destruct Hl as [junk E].
  rewrite (get_str_loop s NEEDS_NEWLINE_NORMALIZATION _ ltac:(done) E) by (rewrite !elem_of_app; right; right; by left).
  change (flag_set NEEDS_NEWLINE_NORMALIZATION COLLAPSE_WHITESPACE) with false. cbn [app].
  by rewrite (text_of_app s junk (plain_nul s Hs)).
Qed.

(** *** Escaped strings *)

(** A byte is written as it is, or as its entity. *)
Lemma escape_cases r c :
  (0 <? b2z c) && (b2z c <? ENTITY_RANGE) && entity_flag r c = false /\ c <> ampersand /\ (r = false -> c <> x22) /\ (r = true -> c <> x3c) \/
  (0 <? b2z c) && (b2z c <? ENTITY_RANGE) && entity_flag r c = true /\ exists p, (p, c) ∈ entities /\ entity_text c = ampersand :: p ++ [semicolon].
Proof.
  destruct (_ && entity_flag r c) eqn:E; [right; split; [done|]|left; split; [done|]].
  - apply andb_true_iff in E as [_ E].
    assert (Hin : c ∈ [x22; ampersand; x27; x3c; x3e]).
    { destruct r; cbn in E; repeat (apply orb_prop in E as [E|E]); try done; apply bool_decide_eq_true in E; subst; set_solver. }
    repeat (apply elem_of_cons in Hin as [->|Hin]); [..|by apply elem_of_nil in Hin].
    1: exists (bytes "quot"). 2: exists (bytes "amp"). 3: exists (bytes "apos"). 4: exists (bytes "lt"). 5: exists (bytes "gt").
    all: split; [unfold entities; set_solver|reflexivity].
  - split_and!; intros; intros ->; destruct r; done.
Qed.

Lemma find_entity_at p c t : (p, c) ∈ entities -> find_entity entities (p ++ semicolon :: t) = Some (length p, c).
Proof.
  unfold entities. intros Hin. repeat (apply elem_of_cons in Hin as [[= -> ->]|Hin]); [..|by apply elem_of_nil in Hin]; done.
Qed.

Lemma entity_head p c t : (p, c) ∈ entities -> bool_decide (head (p ++ t) = Some hash_mark) = false.
Proof.
  unfold entities. intros Hin. repeat (apply elem_of_cons in Hin as [[= -> ->]|Hin]); [..|by apply elem_of_nil in Hin]; done.
Qed.

Lemma decode_escape r f s :
  flag_set f NEEDS_ENTITY_PROCESSING = true -> plain s = true -> decoded f (escape r s) = Some s.
Proof.
  intros Hf. induction s as [|c s IH]; [done|]. intros (_ & Hc & Hs)%plain_cons. specialize (IH Hs). cbn [escape].
  assert (Hcr : skip_byte CR (escape r s) = escape r s).
  { destruct s as [|d s]; [done|]. apply plain_cons in Hs as (_ & Hd & _). cbn [escape].
    destruct (escape_cases r d) as [(-> & _)|(-> & p & _ & ->)]; cbn; by rewrite bool_decide_eq_false_2. }
  destruct (escape_cases r c) as [(-> & Ha & _)|(-> & p & Hp & ->)]; unfold decoded in *.
  - cbn [app length decode]. rewrite (bool_decide_eq_false_2 (c = CR)), (bool_decide_eq_false_2 (c = ampersand)) by done.
    rewrite !andb_false_r, Hcr, IH. destruct (_ && bool_decide (c = LF)) eqn:E; [|done].
    apply andb_true_iff in E as [_ E]. apply bool_decide_eq_true in E as ->. done.
  - cbn [app length decode]. rewrite !andb_false_r, Hf. cbn [andb]. rewrite <- !app_assoc.
    rewrite bool_decide_eq_true_2 by done. rewrite (entity_head p c _ Hp). cbn [app].
    rewrite (find_entity_at p c _ Hp). cbn [mbind option_bind].
    replace (S (length p)) with (length (p ++ [semicolon])) by (rewrite length_app; cbn; lia).
    rewrite (cons_middle semicolon), app_assoc, drop_app_length.
    rewrite (decode_fuel f _ (length (escape r s))), IH by (rewrite ?length_app; lia). done.
Qed.

Lemma escape_nul r s : plain s = true -> no_nul (escape r s).
Proof.
  induction s as [|c s IH]; [by constructor|]. intros (H0 & _ & Hs)%plain_cons. cbn [escape].
  apply Forall_app. split; [|by apply IH]. destruct (escape_cases r c) as [(-> & _)|(-> & p & Hp & ->)]; [by repeat constructor|].
  unfold entities in Hp. repeat (apply elem_of_cons in Hp as [[= -> ->]|Hp]); [..|by apply elem_of_nil in Hp].
  all: by repeat constructor.
Qed.

Lemma get_str_escaped r f s :
  0 < f < 256 -> flag_set f NEEDS_ENTITY_PROCESSING = true -> flag_set f COLLAPSE_WHITESPACE = false ->
  plain s = true -> GetStr (Set_ (escape r s) f) = Ok s.
Proof.
  intros Hf He Hc Hs. set (t := escape r s).
  pose proof (text_loop_spec f (S (length t)) t [] [] (escape_nul r s Hs) ltac:(lia)) as Hl.
  unfold loops_to in Hl. fold (decoded f t) in Hl. subst t. rewrite (decode_escape r f s He Hs) in Hl. destruct Hl as [junk E].
  rewrite (get_str_loop _ f _ Hf E) by (rewrite !elem_of_app; right; right; by left).
  rewrite Hc. cbn [app]. by rewrite (text_of_app s junk (plain_nul s Hs)).
Qed.

(** ** Texts up to a tag, and names *)

Lemma has_prefix_app t p k : (length t <= length p)%nat -> has_prefix t (p ++ k) = has_prefix t p.
Proof.
  revert p. induction t as [|b t IH]; intros [|c p] Hl; cbn in *; try done; try lia. rewrite IH by lia. done.
Qed.

Lemma has_prefix_refl t k : has_prefix t (t ++ k) = true.
Proof. apply has_prefix_spec. by exists k. Qed.

Lemma parse_text_eq p endTag f :
  ParseText p endTag f =
  if has_prefix endTag p then Some (Set_ [] f, drop (length endTag) p) else
  match p with
  | [] => None
  | c :: t => '(s, rest) ← ParseText t endTag f; Some (Str (sp_flags s) (c :: sp_text s), rest)
  end.
Proof. by destruct p. Qed.

Lemma parse_text_at s endTag f k :
  clean endTag s = true -> ParseText (s ++ endTag ++ k) endTag f = Some (Set_ s f, k).
Proof.
  induction s as [|c s IH]; cbn [clean]; intros Hs; rewrite parse_text_eq.
  - cbn [app]. by rewrite has_prefix_refl, drop_app_length.
  - apply andb_true_iff in Hs as [Hp Hs]. apply negb_true_iff in Hp.
    rewrite (app_assoc (c :: s)), has_prefix_app by (rewrite length_app; lia). rewrite Hp, <- app_assoc. cbn [app].
    by rewrite (IH Hs).
Qed.

Lemma clean_byte c s : c ∉ s -> clean [c] s = true.
Proof.
  induction s as [|d s IH]; [done|]. intros Hn. apply not_elem_of_cons in Hn as [Hd Hs]. cbn.
  rewrite bool_decide_eq_false_2 by done. by apply IH.
Qed.

Lemma escape_without (r : bool) (q : byte) s :
  q = (if r then x3c else x22) -> q ∉ escape r s.
Proof.
  intros Hq. induction s as [|c s IH]; [by apply not_elem_of_nil|]. cbn [escape]. rewrite not_elem_of_app. split; [|done].
  destruct (escape_cases r c) as [(-> & _ & H1 & H2)|(-> & p & Hp & ->)].
  - rewrite list_elem_of_singleton. intros <-. destruct r; [by apply H2|by apply H1].
  - unfold entities in Hp. repeat (apply elem_of_cons in Hp as [[= -> ->]|Hp]); [..|by apply elem_of_nil in Hp].
    all: subst q; destruct r; match goal with |- ?P => by apply (bool_decide_eq_true_1 P) end.
Qed.

Lemma name_char_weak c : name_char true c = true -> name_char false c = true.
Proof. unfold name_char. cbn [negb andb]. rewrite !orb_true_iff. intros [H|H]; [by left|done]. Qed.

Lemma name_char_nul c : name_char false c = true -> c <> x00.
Proof. by intros H ->. Qed.

Lemma name_char_blank c : name_char false c = true -> IsWhiteSpace c = false.
Proof. by destruct c. Qed.

Lemma name_ok_cons n : name_ok n = true -> exists c t, n = c :: t /\ name_char true c = true /\ forallb (name_char false) t = true.
Proof. destruct n as [|c t]; [done|]. intros [H1 H2]%andb_true_iff. by exists c, t. Qed.

Lemma name_nul n : name_ok n = true -> no_nul n.
Proof.
  intros (c & t & -> & Hc & Ht)%name_ok_cons. constructor; [by apply name_char_nul, name_char_weak|].
  rewrite forallb_forall in Ht. apply Forall_forall. intros d Hd. apply name_char_nul, Ht. by apply list_elem_of_In.
Qed.

Lemma name_end_at n c k :
  forallb (name_char false) n = true -> name_char false c = false -> name_end (n ++ c :: k) false = (n, c :: k).
Proof.
  intros Hn Hc. induction n as [|d n IH]; cbn; [by rewrite Hc|]. apply andb_true_iff in Hn as [Hd Hn].
  by rewrite Hd, (IH Hn).
Qed.

Lemma parse_name_at n c k :
  name_ok n = true -> name_char false c = false -> ParseName (n ++ c :: k) = Some (Set_ n 0, c :: k).
Proof.
  intros (d & t & -> & Hd & Ht)%name_ok_cons Hc. unfold ParseName. cbn [app name_end].
  by rewrite Hd, (name_end_at t c k Ht Hc).
Qed.

Lemma skip_name n k : name_ok n = true -> SkipWhiteSpace (n ++ k) = n ++ k.
Proof.
  intros (d & t & -> & Hd & Ht)%name_ok_cons. cbn. by rewrite (name_char_blank d (name_char_weak d Hd)).
Qed.

(** ** Attributes *)

Section load.
  Context (opts : XMLOptions) (Hent : processEntities opts = true) (Hcol : collapse_whitespace opts = false).

Lemma attr_ok_parts a : attr_ok a = true -> name_ok (fst a) = true /\ plain (snd a) = true /\
  exists c t, fst a = c :: t /\ IsAlpha c = true.
Proof.
  unfold attr_ok. rewrite !andb_true_iff. intros [[Hn Ha] Hp]. split_and!; [done..|].
  destruct (fst a) as [|c t]; [done|]. by exists c, t.
Qed.

Lemma parse_attribute_at a k :
  attr_ok a = true ->
  exists att, ParseAttribute (fst a ++ [x3d; x22] ++ escape false (snd a) ++ [x22] ++ k) (processEntities opts) = Some (att, k) /\
    denote_attr att = Ok a /\ a_name att = Set_ (fst a) 0.
Proof.
  intros (Hn & Hp & _)%attr_ok_parts. unfold ParseAttribute. cbn [app].
  rewrite (parse_name_at (fst a) x3d _ Hn) by done. cbn [mbind option_bind].
  rewrite (skip_solid x3d) by done. cbn iota. rewrite (skip_solid x22) by done.
  change (bool_decide (x22 = x22) || bool_decide (x22 = x27)) with true. cbn iota.
  rewrite Hent. cbn iota.
  pose proof (parse_text_at _ [x22] ATTRIBUTE_VALUE k (clean_byte x22 _ (escape_without false x22 (snd a) eq_refl))) as E.
  cbn [app] in E. rewrite E. cbn [mbind option_bind]. eexists. split; [done|]. split; [|done].
  unfold denote_attr. cbn [a_name a_value]. rewrite (get_str_name _ (name_nul _ Hn)). cbn [mbind result_bind].
  rewrite (get_str_escaped false ATTRIBUTE_VALUE) by done. by destruct a.
Qed.

Lemma attribute_absent acc accs name :
  collect denote_attr acc = Ok accs -> name ∉ (fst <$> accs) -> Attribute acc name = Ok None.
Proof.
  rewrite collect_Forall2. intros H Hn. unfold Attribute. enough (FindAttribute acc name = Ok None) as -> by done.
  induction H as [|a x acc accs Ha H IH]; [done|]. unfold FindAttribute in *. cbn [foldr].
  rewrite fmap_cons, not_elem_of_cons in Hn. destruct Hn as [Hx Hn]. unfold denote_attr in Ha.
  destruct (GetStr (a_name a)) as [n|]; cbn [mbind result_bind] in *; [|done].
  destruct (GetStr (a_value a)) as [v|]; cbn [mbind result_bind] in *; [|done]. injection Ha as <-.
  rewrite bool_decide_eq_false_2 by done. by apply IH.
Qed.

Definition tag_end (empty : bool) : list byte := if empty then bytes "/>" else bytes ">".
Definition tag_closing (empty : bool) : ClosingType := if empty then CLOSED else OPEN.

Lemma collect_snoc {A B} (f : A -> result B) l bs a b :
  collect f l = Ok bs -> f a = Ok b -> collect f (l ++ [a]) = Ok (bs ++ [b]).
Proof. rewrite !collect_Forall2. intros H Ha. apply Forall2_app; [done|]. by constructor. Qed.

Lemma skip_space t : SkipWhiteSpace (bytes " " ++ t) = SkipWhiteSpace t.
Proof. done. Qed.

Lemma parse_attributes_at ats fuel acc accs empty k :
  forallb attr_ok ats = true -> NoDup (fst <$> accs ++ ats) -> collect denote_attr acc = Ok accs ->
  (length ats < fuel)%nat ->
  exists atts, ParseAttributes fuel opts (attrs_text ats ++ tag_end empty ++ k) OPEN acc = Ok (atts, tag_closing empty, inl k) /\
    collect denote_attr atts = Ok (accs ++ ats).
Proof.
  revert fuel acc accs. induction ats as [|a ats IH]; intros [|fuel] acc accs Hok Hnd Hacc Hf; cbn [length] in Hf; try lia.
  { exists acc. rewrite app_nil_r. by destruct empty. }
  cbn [forallb] in Hok. apply andb_true_iff in Hok as [Ha Hok]. pose proof (attr_ok_parts a Ha) as (Hn & _ & c & t & En & Hc).
  rewrite attrs_text_cons, <- !app_assoc. cbn [ParseAttributes]. rewrite skip_space, (skip_name (fst a) _ Hn). destruct (parse_attribute_at a (attrs_text ats ++ tag_end empty ++ k) Ha) as (att & Ep & Ed & Ea).
  cbn [app] in Ep. rewrite En in *. cbn [app]. rewrite Hc. cbn [app] in Ep. rewrite Ep, Ea.
  rewrite (get_str_name _ (name_nul _ Hn)). cbn [mbind result_bind].
  assert (Hnew : c :: t ∉ (fst <$> accs)).
  { rewrite fmap_app, fmap_cons, En in Hnd. apply NoDup_app in Hnd as (_ & Hnd & _). intros Hin. apply (Hnd _ Hin). by left. }
  rewrite (attribute_absent acc accs (c :: t) Hacc Hnew). cbn [mbind result_bind].
  rewrite (cons_middle a accs ats), (app_assoc accs [a] ats) in Hnd |- *.
  destruct (IH fuel (acc ++ [att]) (accs ++ [a]) Hok Hnd (collect_snoc _ _ _ _ _ Hacc Ed) ltac:(lia)) as (atts & E & Ec).
  by exists atts.
Qed.

(** ** Nodes *)

Lemma skip_blank ws t : blank ws -> SkipWhiteSpace (ws ++ t) = SkipWhiteSpace t.
Proof.
  unfold blank. induction ws as [|c ws IH]; [done|]. cbn. intros [Hc Hw]%andb_true_iff. rewrite Hc. by apply IH.
Qed.

Lemma identify_blank ws t : blank ws -> Identify (ws ++ x3c :: t) = Identify (x3c :: t).
Proof. intros Hw. unfold Identify. by rewrite (skip_blank ws _ Hw). Qed.

Lemma parse_nodes_step fuel nested p q kind node rest e nodes r :
  Identify p = (q, Some kind) -> parse_node fuel opts kind q XML_NO_ERROR = Ok (node, Parsed (Some rest) e XML_NO_ERROR) ->
  is_closing node = false -> mismatched node e = Ok false ->
  parse_nodes fuel opts nested rest XML_NO_ERROR = Ok (nodes, r) ->
  parse_nodes (S fuel) opts nested p XML_NO_ERROR = Ok (node :: nodes, r).
Proof.
  intros Ei En Ec Em Er. cbn [parse_nodes]. destruct p as [|c p]; [done|]. rewrite Ei, En. cbn [mbind result_bind p_rest].
  rewrite Ec. cbn [p_end]. rewrite Em. cbn [mbind result_bind p_error]. by rewrite Er.
Qed.

(** A tag that [parse_node] reads up to [k]. *)
Definition reads (x : xml) (t k : list byte) : Prop :=
  forall fuel, (2 * length (t ++ k) <= fuel)%nat ->
  exists kind q node e, Identify (t ++ k) = (q, Some kind) /\
    parse_node fuel opts kind q XML_NO_ERROR = Ok (node, Parsed (Some k) e XML_NO_ERROR) /\
    is_closing node = false /\ mismatched node e = Ok false /\ denote node = Ok x.

(** The nodes up to [k], from where the parser goes on as it does at [k]. *)
Definition loads (nested : bool) (xs : list xml) (t k : list byte) : Prop :=
  forall fuel nodes' r, (2 * length (t ++ k) < fuel)%nat ->
  (forall fuel', (2 * length k < fuel')%nat -> parse_nodes fuel' opts nested k XML_NO_ERROR = Ok (nodes', r)) ->
  exists nodes, parse_nodes fuel opts nested (t ++ k) XML_NO_ERROR = Ok (nodes ++ nodes', r) /\ denote_all nodes = Ok xs.

Lemma loads_tag nested ws x xs t k t' :
  blank ws -> (exists t0, t = x3c :: t0) -> reads x t (t' ++ k) -> loads nested xs t' k -> loads nested (x :: xs) (ws ++ t ++ t') k.
Proof.
  intros Hws [t0 Et] Hr Hl [|fuel] nodes' r Hf Hk; [lia|]. rewrite <- !app_assoc in Hf |- *. rewrite length_app in Hf.
  destruct (Hr fuel ltac:(lia)) as (kind & q & node & e & Ei & En & Ec & Em & Ed).
  assert (Hlen : (0 < length t)%nat) by (subst; cbn; lia). rewrite length_app in Hf.
  destruct (Hl fuel nodes' r ltac:(lia) Hk) as (nodes & E & Ens). exists (node :: nodes).
  split; [|unfold denote_all in *; cbn [collect]; by rewrite Ed, Ens].
  apply (parse_nodes_step fuel nested _ q kind node (t' ++ k) e); try done.
  subst t. cbn [app] in *. by rewrite (identify_blank ws _ Hws).
Qed.

Lemma loads_nil nested ws k : blank ws -> at_tag k -> loads nested [] ws k.
Proof.
  intros Hws Hk [|fuel] nodes' r Hf Hc; [lia|]. exists []. split; [|done]. cbn [app]. rewrite length_app in Hf.
  rewrite <- (Hc (S fuel) ltac:(lia)). cbn [parse_nodes]. destruct Hk as [->|(c & k' & ->)].
  - rewrite app_nil_r. destruct ws as [|c ws]; [done|]. unfold Identify.
    rewrite <- (app_nil_r (c :: ws)), (skip_blank (c :: ws) [] Hws). done.
  - rewrite (identify_blank ws _ Hws). by destruct ws.
Qed.

(** *** Texts *)

Lemma skip_escaped s r :
  existsb (fun c => negb (IsWhiteSpace c)) s = true -> exists c p, SkipWhiteSpace (escape true s ++ r) = c :: p /\ c <> x3c.
Proof.
  induction s as [|c s IH]; cbn [existsb]; [done|]. intros Hs. cbn [escape].
  destruct (escape_cases true c) as [(-> & _ & _ & Hc)|(-> & p & Hp & ->)]; [|by eexists _, _].
  cbn [app SkipWhiteSpace]. destruct (IsWhiteSpace c); [by apply IH|]. eexists _, _. split; [done|by apply Hc].
Qed.

Lemma identify_text t c p : SkipWhiteSpace t = c :: p -> c <> x3c -> Identify t = (t, Some AText).
Proof.
  intros E Hc. unfold Identify. rewrite E. cbn. rewrite (bool_decide_eq_false_2 (x3c = c)) by congruence. done.
Qed.

Lemma loads_text nested s xs t k :
  tree_ok (Plain s) = true -> (exists c r, t ++ k = x3c :: c :: r) -> loads nested xs t k ->
  loads nested (Plain s :: xs) (escape true s ++ t) k.
Proof.
  intros Hs (c & r & Er) Hl [|[|fuel]] nodes' r' Hf Hk.
  1: lia. 1: { rewrite <- app_assoc, Er, length_app in Hf. cbn in Hf. lia. }
  rewrite <- app_assoc in Hf |- *. cbn [tree_ok] in Hs. apply andb_true_iff in Hs as [Hp Hb].
  destruct (skip_escaped s (t ++ k) Hb) as (d & p & Ed & Hd). rewrite length_app in Hf.
  assert (He : (0 < length (escape true s))%nat).
  { destruct s as [|x s]; [done|]. cbn [escape]. rewrite length_app. destruct (escape_cases true x) as [(-> & _)|(-> & q & _ & ->)]; cbn; lia. }
  destruct (Hl (S fuel) nodes' r' ltac:(lia) Hk) as (nodes & E & Ens). exists (XMLText (Set_ (escape true s) TEXT_ELEMENT) false :: nodes). split.
  - cbn [app]. refine (parse_nodes_step (S fuel) nested _ _ AText _ (t ++ k) new_StrPair _ _ (identify_text _ d p Ed Hd) _ _ _ E); [|done..].
    cbn [parse_node]. unfold parse_text. rewrite Hent, Hcol, Er. cbn iota.
    pose proof (parse_text_at (escape true s) [x3c] TEXT_ELEMENT (c :: r) (clean_byte x3c _ (escape_without true x3c s eq_refl))) as Et.
    change (bytes "<") with [x3c]. cbn [app] in Et |- *. by rewrite Et.
  - unfold denote_all in *. cbn [collect denote]. rewrite (get_str_escaped true TEXT_ELEMENT) by done.
    cbn [mbind result_bind]. by rewrite Ens.
Qed.

(** *** Tags *)

Lemma reads_leaf x s endTag flags t k kind mk error :
  (forall r, Identify (t ++ r) = (r, Some kind)) ->
  (forall fuel p, parse_node (S fuel) opts kind p XML_NO_ERROR = Ok (parse_leaf p endTag flags mk error XML_NO_ERROR)) ->
  clean endTag s = true -> t <> [] ->
  (forall v, is_closing (mk v) = false /\ mismatched (mk v) new_StrPair = Ok false) -> denote (mk (Set_ s flags)) = Ok x ->
  reads x (t ++ s ++ endTag) k.
Proof.
  intros Hi Hp Hc Ht Hm Hd [|fuel] Hf; [rewrite !length_app in Hf; destruct t; [done|cbn in Hf; lia]|].
  rewrite <- !app_assoc. exists kind, (s ++ endTag ++ k), (mk (Set_ s flags)), new_StrPair. split; [apply Hi|].
  split; [|destruct (Hm (Set_ s flags)); split_and!; done]. rewrite Hp. unfold parse_leaf. by rewrite (parse_text_at s endTag flags k Hc).
Qed.

Lemma has_prefix_open t s k :
  has_prefix t s = false -> x3e ∉ t -> has_prefix t (s ++ x3e :: k) = false.
Proof.
  revert s. induction t as [|b t IH]; intros s; cbn [has_prefix]; [done|]. rewrite not_elem_of_cons. intros Hp [Hb Ht].
  destruct s as [|c s]; cbn [app has_prefix]; [by rewrite bool_decide_eq_false_2 by congruence|].
  cbn [has_prefix] in Hp. destruct (bool_decide (b = c)); cbn [andb] in *; [by apply IH|done].
Qed.

Lemma identify_unknown s k :
  unk_ok s = true -> Identify (bytes "<!" ++ s ++ bytes ">" ++ k) = (s ++ bytes ">" ++ k, Some AnUnknown).
Proof.
  unfold unk_ok. rewrite andb_true_iff, !negb_true_iff. intros [H1 H2].
  apply (has_prefix_open _ _ k) in H1; [|match goal with |- ?P => by apply (bool_decide_eq_true_1 P) end].
  apply (has_prefix_open _ _ k) in H2; [|match goal with |- ?P => by apply (bool_decide_eq_true_1 P) end].
  change (bytes "<!" ++ s ++ bytes ">" ++ k) with (x3c :: x21 :: (s ++ x3e :: k)).
  unfold Identify. rewrite (skip_solid x3c) by done. change (s ++ bytes ">" ++ k) with (s ++ x3e :: k).
  set (u := s ++ x3e :: k) in *.
  change (has_prefix (bytes "<!--") (x3c :: x21 :: u)) with (has_prefix (bytes "--") u).
  change (has_prefix (bytes "<![CDATA[") (x3c :: x21 :: u)) with (has_prefix (bytes "[CDATA[") u).
  rewrite H1, H2. reflexivity.
Qed.

Lemma identify_element d t :
  name_char true d = true -> Identify (x3c :: d :: t) = (d :: t, Some AnElement).
Proof.
  intros Hd. unfold Identify. rewrite (skip_solid x3c) by done.
  assert (d <> x3f /\ d <> x21) as [H1 H2] by (split; by intros ->).
  cbn. rewrite !(bool_decide_eq_false_2 (x3f = d)), !(bool_decide_eq_false_2 (x21 = d)) by congruence. reflexivity.
Qed.

(** An opening tag, up to its end. *)
Lemma attrs_start ats empty k : exists c r, attrs_text ats ++ tag_end empty ++ k = c :: r /\ name_char false c = false.
Proof.
  destruct ats as [|a ats]; [by destruct empty; eexists _, _|]. rewrite attrs_text_cons. by eexists _, _.
Qed.

Lemma open_tag fuel n ats empty k nodes r :
  name_ok n = true -> attrs_ok ats = true ->
  (empty = false -> k <> [] /\ parse_nodes fuel opts true k XML_NO_ERROR = Ok (nodes, r)) ->
  exists atts, parse_node (S fuel) opts AnElement (n ++ attrs_text ats ++ tag_end empty ++ k) XML_NO_ERROR =
    Ok (if empty then (XMLElement (Set_ n 0) CLOSED atts [], Parsed (Some k) new_StrPair XML_NO_ERROR)
        else (XMLElement (Set_ n 0) OPEN atts nodes, r)) /\
    collect denote_attr atts = Ok ats.
Proof.
  intros Hn Ha Hk. unfold attrs_ok in Ha. apply andb_true_iff in Ha as [Ha Hnd]. apply bool_decide_eq_true in Hnd.
  destruct (attrs_start ats empty k) as (c & rest & Ec & Hc).
  destruct (parse_attributes_at ats (S (length (attrs_text ats ++ tag_end empty ++ k))) [] [] empty k Ha Hnd eq_refl)
    as (atts & E & Eats).
  { rewrite !length_app. assert (length ats <= length (attrs_text ats))%nat; [|lia].
    clear. induction ats as [|a ats IH]; [done|]. rewrite attrs_text_cons, !length_app. cbn [length]. change (length (bytes " ")) with 1%nat. lia. }
  exists atts. split; [|done]. rewrite Ec in *. cbn [parse_node]. rewrite (skip_name n _ Hn).
  destruct (name_ok_cons n Hn) as (d & t & En & Hd & _).
  assert (Hp : match n ++ c :: rest with x2f :: p => (CLOSING, p) | _ => (OPEN, n ++ c :: rest) end = (OPEN, n ++ c :: rest)).
  { rewrite En. by destruct d. }
  rewrite Hp, (parse_name_at n c rest Hn Hc), E. cbn [mbind result_bind].
  destruct empty; cbn [tag_closing].
  - by rewrite orb_true_r.
  - destruct (Hk eq_refl) as [Hne Ek]. rewrite (bool_decide_eq_false_2 (k = [])) by done. cbn [orb negb].
    rewrite bool_decide_eq_true_2 by done. cbn [negb]. by rewrite Ek.
Qed.

(** The closing tag ends the nodes of an element. *)
Lemma close_tag fuel n k :
  name_ok n = true -> (1 < fuel)%nat ->
  parse_nodes fuel opts true (bytes "</" ++ n ++ bytes ">" ++ k) XML_NO_ERROR =
  Ok ([], Parsed (Some k) (Set_ n 0) XML_NO_ERROR).
Proof.
  intros Hn Hf. destruct fuel as [|[|fuel]]; try lia.
  change (bytes "</" ++ n ++ bytes ">" ++ k) with (x3c :: x2f :: (n ++ x3e :: k)). cbn [parse_nodes].
  change (Identify (x3c :: x2f :: (n ++ x3e :: k))) with (x2f :: (n ++ x3e :: k), Some AnElement). cbn iota beta.
  cbn [parse_node]. rewrite (skip_solid x2f) by done. cbn iota beta. rewrite (parse_name_at n x3e k Hn) by done.
  cbn [ParseAttributes]. rewrite (skip_solid x3e) by done. change (IsAlpha x3e) with false. cbn iota.
  change (has_prefix (bytes "/>") (x3e :: k)) with false. cbn iota. change (bool_decide (x3e = x3e)) with true.
  cbn [mbind result_bind]. change (negb (bool_decide (CLOSING = OPEN))) with true. rewrite orb_true_r. done.
Qed.

(** ** Elements *)

Lemma matching_tags n atts nodes :
  name_ok n = true -> mismatched (XMLElement (Set_ n 0) OPEN atts nodes) (Set_ n 0) = Ok false.
Proof.
  intros Hn. unfold mismatched. rewrite (get_str_name n (name_nul n Hn)).
  assert (Empty (Set_ n 0) = false) as -> by (by destruct (name_ok_cons n Hn) as (d & t & -> & _)).
  change (bool_decide (OPEN = OPEN)) with true. cbn [andb negb mbind result_bind]. by rewrite bool_decide_eq_true_2.
Qed.

Lemma denote_named n closing atts ats nodes xs :
  name_ok n = true -> collect denote_attr atts = Ok ats -> denote_all nodes = Ok xs ->
  denote (XMLElement (Set_ n 0) closing atts nodes) = Ok (Elem n ats xs).
Proof.
  intros Hn Ha Hx. rewrite denote_element, (get_str_name n (name_nul n Hn)), Ha, Hx. done.
Qed.

Lemma identify_name n t :
  name_ok n = true -> Identify (bytes "<" ++ n ++ t) = (n ++ t, Some AnElement).
Proof.
  intros (d & u & -> & Hd & _)%name_ok_cons. apply identify_element, Hd.
Qed.

Lemma reads_empty n ats k :
  name_ok n = true -> attrs_ok ats = true -> reads (Elem n ats []) (bytes "<" ++ n ++ attrs_text ats ++ bytes "/>") k.
Proof.
  intros Hn Ha fuel Hf. rewrite <- !app_assoc in Hf |- *. destruct fuel as [|fuel]; [cbn in Hf; lia|].
  destruct (open_tag fuel n ats true k [] (Parsed None new_StrPair XML_NO_ERROR) Hn Ha ltac:(done)) as (atts & E & Ec).
  exists AnElement, (n ++ attrs_text ats ++ bytes "/>" ++ k), (XMLElement (Set_ n 0) CLOSED atts []), new_StrPair.
  split; [by apply identify_name|]. split; [exact E|]. split_and!; [done..|]. by apply denote_named.
Qed.

Lemma reads_elem n ats body t k :
  name_ok n = true -> attrs_ok ats = true ->
  loads true body t (bytes "</" ++ n ++ bytes ">" ++ k) ->
  reads (Elem n ats body) (bytes "<" ++ n ++ attrs_text ats ++ bytes ">" ++ t ++ bytes "</" ++ n ++ bytes ">") k.
Proof.
  intros Hn Ha Hl fuel Hf. rewrite <- !app_assoc in Hf |- *. set (k' := bytes "</" ++ n ++ bytes ">" ++ k) in *.
  destruct fuel as [|fuel]; [cbn in Hf; lia|].
  assert (Hlen : (2 * length (t ++ k') < fuel)%nat).
  { destruct (name_ok_cons n Hn) as (d & u & En & _). rewrite En in Hf.
    rewrite !length_app in Hf. rewrite !length_app. cbn [length] in Hf.
    change (length (bytes "<")) with 1%nat in Hf. change (length (bytes ">")) with 1%nat in Hf. lia. }
  destruct (Hl fuel [] (Parsed (Some k) (Set_ n 0) XML_NO_ERROR) Hlen) as (nodes & E & Ex).
  { intros fuel' Hf'. apply close_tag; [done|]. subst k'. cbn in Hf'. lia. }
  rewrite app_nil_r in E.
  destruct (open_tag fuel n ats false (t ++ k') nodes (Parsed (Some k) (Set_ n 0) XML_NO_ERROR) Hn Ha) as (atts & Ep & Ec).
  { intros _. split; [by destruct t|exact E]. }
  exists AnElement, (n ++ attrs_text ats ++ bytes ">" ++ t ++ k'), (XMLElement (Set_ n 0) OPEN atts nodes), (Set_ n 0).
  split; [by apply identify_name|]. split; [exact Ep|].
  split_and!; [done|by apply matching_tags|by apply denote_named].
Qed.

(** ** Layouts *)

Lemma layout_loads :
  (forall xs t, layout xs t ->
     forall nested k, at_tag k -> (k = [] -> forallb (fun x => negb (is_plain x)) xs = true) -> loads nested xs t k) /\
  (forall x t, tag x t -> (exists c t0, t = x3c :: c :: t0) /\ forall k, reads x t k).
Proof.
  apply layout_tag_ind.
  - intros ws Hw nested k Hk _. by apply loads_nil.
  - intros s xs t Hs Ht _ IH nested k Hk Hp. apply loads_text; [done| |apply IH; [done|]].
    + destruct (at_tag_app t k Ht Hk) as [E|E]; [|done]. apply app_eq_nil in E as [_ E]. by apply Hp in E.
    + intros E. by apply Hp in E.
  - intros ws x xs t t' Hw _ [(c & t0 & Et) Hr] _ IH nested k Hk Hp. apply loads_tag; [done|by eexists|apply Hr|].
    apply IH; [done|]. intros E. apply Hp in E. by apply andb_true_iff in E as [_ E].
  - intros n ats Hn Ha. split; [|intros k; by apply reads_empty].
    destruct (name_ok_cons n Hn) as (d & u & -> & _). by eexists _, _.
  - intros n ats body t Hn Ha _ IH. split; [|intros k; apply reads_elem; try done; apply IH].
    + destruct (name_ok_cons n Hn) as (d & u & -> & _). by eexists _, _.
    + right. by eexists _, _.
    + done.
  - intros s [Hp Hc]%andb_true_iff. split; [by eexists _, _|]. intros k.
    refine (reads_leaf _ s (bytes "]]>") NEEDS_NEWLINE_NORMALIZATION (bytes "<![CDATA[") k ACData
      (fun v => XMLText v true) XML_ERROR_PARSING_CDATA _ _ Hc _ _ _); try done.
    cbn [denote]. by rewrite get_str_plain.
  - intros s [Hp Hc]%andb_true_iff. split; [by eexists _, _|]. intros k.
    refine (reads_leaf _ s (bytes "-->") COMMENT (bytes "<!--") k AComment
      XMLComment XML_ERROR_PARSING_COMMENT _ _ Hc _ _ _); try done.
    cbn [denote]. by rewrite get_str_plain.
  - intros s [Hp Hc]%andb_true_iff. split; [by eexists _, _|]. intros k.
    refine (reads_leaf _ s (bytes "?>") NEEDS_NEWLINE_NORMALIZATION (bytes "<?") k ADeclaration
      XMLDeclaration XML_ERROR_PARSING_DECLARATION _ _ Hc _ _ _); try done.
    cbn [denote]. by rewrite get_str_plain.
  - intros s Hs. cbn [tree_ok] in Hs. apply andb_true_iff in Hs as [[Hp Hc]%andb_true_iff Hu]. split; [by eexists _, _|].
    intros k [|fuel] Hf; [cbn in Hf; lia|]. rewrite <- !app_assoc.
    eexists AnUnknown, _, (XMLUnknown (Set_ s NEEDS_NEWLINE_NORMALIZATION)), new_StrPair.
    split; [by apply identify_unknown|]. split.
    { cbn [parse_node]. unfold parse_leaf. by rewrite (parse_text_at s (bytes ">") _ k Hc). }
    split_and!; [done..|]. cbn [denote]. by rewrite get_str_plain.
Qed.

End load.
