(* ===== verification/XmlSave.v ===== *)
(** * The printer writes layouts

    What [Accept] makes the printer write for a document is a layout of the tree
    that the document says: line breaks only come in front of tags, and never
    behind a text. *)

From S2P Require Import Prelude XmlText.
From S2P Require Import XmlTextSpec Xml XmlPrinter XmlTree.

Lemma tag_start x t : tag x t -> exists c t0, t = x3c :: c :: t0.
Proof.
  intros H. inversion H as [n ats Hn|n ats body t' Hn| | | |]; subst; try by eexists _, _.
  all: destruct n; [done|by eexists _, _].
Qed.

Lemma blank_app ws ws' : blank ws -> blank ws' -> blank (ws ++ ws').
Proof. unfold blank. intros H1 H2. by rewrite forallb_app, H1, H2. Qed.

Lemma blank_break d : blank (LF :: spaces d).
Proof.
  unfold blank, spaces. cbn. induction (Z.to_nat d) as [|n IH]; [done|]. cbn [repeat concat]. by rewrite forallb_app, IH.
Qed.

Lemma layout_blank ws xs t :
  blank ws -> forallb (fun x => negb (is_plain x)) xs = true -> layout xs t -> layout xs (ws ++ t).
Proof.
  intros Hw Hp Hl. destruct Hl as [ws'| |ws' x xs t t' Hw' Ht Hl]; [|done|].
  - by apply layout_nil, blank_app.
  - rewrite app_assoc. apply layout_tag; [by apply blank_app|done..].
Qed.

(** ** The printer's state *)

Definition keeps (pr pr' : XMLPrinter) : Prop :=
  depth pr' = depth pr /\ stack pr' = stack pr /\ compactMode pr' = compactMode pr /\ print_entities pr' = print_entities pr.

Definition seal (pr : XMLPrinter) : list byte := if elementJustOpened pr then bytes ">" else [].

(** What [break_line] writes. *)
Definition break_text (pr : XMLPrinter) : list byte :=
  if (textDepth pr <? 0) && negb (firstElement pr) && negb (compactMode pr) then LF :: spaces (depth pr) else [].

Lemma seal_open_eq pr : seal_open pr = Print (seal pr) (set_opened false pr).
Proof. destruct pr as [[] ? ? ? ? ? ? o]; unfold seal_open, seal, Print, set_opened; cbn; by rewrite ?app_nil_r. Qed.

Lemma break_line_eq pr : break_line pr = Print (break_text pr) pr.
Proof.
  destruct pr as [? ? ? ? ? ? ? o]. unfold break_line, break_text, PrintSpace, Print. cbn.
  destruct (_ && _); cbn; rewrite <- ?app_assoc, ?app_nil_r; done.
Qed.

Lemma break_text_blank pr : blank (break_text pr).
Proof. unfold break_text. destruct (_ && _); [apply blank_break|done]. Qed.

Lemma break_text_none pr : 0 <= textDepth pr -> break_text pr = [].
Proof. intros H. unfold break_text. by rewrite (proj2 (Z.ltb_ge _ _)). Qed.

Lemma push_tag_eq s pr :
  push_tag s pr = Printer false false (depth pr) (textDepth pr) (print_entities pr) (compactMode pr) (stack pr)
    (out pr ++ seal pr ++ break_text pr ++ s).
Proof.
  unfold push_tag. rewrite break_line_eq, seal_open_eq. unfold Print, set_opened, set_first, break_text. cbn.
  by rewrite <- !app_assoc.
Qed.

Lemma denote_attr_parts a n v : denote_attr a = Ok (n, v) -> GetStr (a_name a) = Ok n /\ GetStr (a_value a) = Ok v.
Proof.
  unfold denote_attr. destruct (GetStr (a_name a)) as [n'|]; cbn [mbind result_bind]; [|done].
  destruct (GetStr (a_value a)) as [v'|]; cbn [mbind result_bind]; [|done]. by intros [= -> ->].
Qed.

Lemma push_attributes_eq atts ats pr :
  collect denote_attr atts = Ok ats -> elementJustOpened pr = true -> print_entities pr = true ->
  push_attributes atts pr = Ok (Print (attrs_text ats) pr).
Proof.
  revert ats pr. induction atts as [|a atts IH]; intros ats pr; cbn [collect push_attributes].
  { intros [= <-] _ _. unfold attrs_text, Print. cbn. rewrite app_nil_r. by destruct pr. }
  destruct (denote_attr a) as [[n v]|] eqn:Ea; [|done]. apply denote_attr_parts in Ea as [-> ->]. cbn [mbind result_bind].
  destruct (collect denote_attr atts) as [ats'|]; cbn [mbind result_bind]; [|done]. intros [= <-] Ho He.
  unfold PushAttribute. rewrite Ho. cbn [c_assert mbind result_bind]. unfold PrintString. cbn [print_entities Print]. rewrite He.
  erewrite IH; [|reflexivity|exact Ho|exact He]. rewrite attrs_text_cons. unfold Print.
  cbn [elementJustOpened firstElement depth textDepth print_entities compactMode stack out fst snd]. by rewrite <- !app_assoc.
Qed.

(** ** Nodes

    A node that is no plain text is written as a tag, with blanks around it; there
    are none in front if text has just been written, and none behind it inside of
    an element. *)
Definition writes_tag (x : xml) : Prop :=
  forall node pr, denote node = Ok x -> tree_ok x = true -> is_plain x = false -> print_entities pr = true -> 0 <= depth pr ->
  exists pr' ws t tail, Accept node pr = Ok pr' /\ out pr' = out pr ++ seal pr ++ ws ++ t ++ tail /\
    tag x t /\ blank ws /\ blank tail /\ (0 <= textDepth pr -> ws = []) /\ (0 < depth pr -> tail = []) /\
    elementJustOpened pr' = false /\ keeps pr pr'.

(** The nodes of an element or of a document; [ws] stands for what is in front of
    the closing tag. *)
Definition writes_list (xs : list xml) (pr pr' : XMLPrinter) : Prop :=
  exists t, out pr' = out pr ++ (if xs is [] then [] else seal pr) ++ t /\ (xs = [] -> t = []) /\
    elementJustOpened pr' = (if xs is [] then elementJustOpened pr else false) /\ keeps pr pr' /\
    forall ws, blank ws -> (0 <= textDepth pr' -> ws = []) ->
      layout xs (t ++ ws) /\ (0 <= textDepth pr -> forallb is_plain (take 1 xs) = false \/ xs = [] -> at_tag (t ++ ws)).

Lemma denote_inv node x :
  denote node = Ok x ->
  match x with
  | Elem n ats body => exists v c atts nodes, node = XMLElement v c atts nodes /\ GetStr v = Ok n /\
      collect denote_attr atts = Ok ats /\ denote_all nodes = Ok body
  | Plain s => exists v, node = XMLText v false /\ GetStr v = Ok s
  | Cdata s => exists v, node = XMLText v true /\ GetStr v = Ok s
  | Remark_ s => exists v, node = XMLComment v /\ GetStr v = Ok s
  | Decl s => exists v, node = XMLDeclaration v /\ GetStr v = Ok s
  | Unk s => exists v, node = XMLUnknown v /\ GetStr v = Ok s
  end.
Proof.
  destruct node as [v c atts nodes|v cdata|v|v|v]; [rewrite denote_element|cbn [denote]..].
  all: destruct (GetStr v) as [s|] eqn:Es; cbn [mbind result_bind]; [|done].
  2-5: intros [= <-]. 2: destruct cdata. 2-6: by exists v.
  destruct (collect denote_attr atts) as [ats|] eqn:Ea; cbn [mbind result_bind]; [|done].
  destruct (denote_all nodes) as [xs|] eqn:Ex; cbn [mbind result_bind]; [|done].
  intros [= <-]. by exists v, c, atts, nodes.
Qed.

Lemma list_writes xs :
  Forall writes_tag xs -> forall nodes pr, denote_all nodes = Ok xs -> forallb tree_ok xs = true -> apart xs = true ->
  (depth pr = 0 -> forallb (fun x => negb (is_plain x)) xs = true) -> print_entities pr = true -> 0 <= depth pr ->
  exists pr', accept_all nodes pr = Ok pr' /\ writes_list xs pr pr'.
Proof.
  induction 1 as [|x xs Hx _ IH]; intros nodes pr Hd Hok Hap Hplain He Hdep; apply collect_Forall2 in Hd.
  { inversion Hd; subst. exists pr. split; [done|]. exists []. rewrite !app_nil_r. split_and!; [done..|].
    intros ws Hw Htd. cbn [app]. split; [by apply layout_nil|]. intros H _. left. by apply Htd. }
  inversion Hd as [|node ? nodes' ? Ex Exs]; subst. apply collect_Forall2 in Exs. cbn [forallb] in Hok.
  apply andb_true_iff in Hok as [Hxok Hok]. cbn [apart] in Hap. apply andb_true_iff in Hap as [Hsep Hap]. cbn [accept_all].
  assert (Hplain' : depth pr = 0 -> forallb (fun x => negb (is_plain x)) xs = true /\ is_plain x = false).
  { intros H. apply Hplain in H. cbn [forallb] in H. apply andb_true_iff in H as [H1 H2]. by apply negb_true_iff in H1. }
  destruct (is_plain x) eqn:Ep.
  - destruct x as [|s| | | |]; try done. apply denote_inv in Ex as (v & -> & Ev). cbn [Accept]. rewrite Ev. cbn [mbind result_bind].
    assert (Hpos : 0 < depth pr) by (destruct (Z.eq_dec (depth pr) 0) as [E|]; [by apply Hplain' in E as [_ ?]|lia]).
    set (pr1 := PushText s false pr).
    assert (E1 : pr1 = Printer false (firstElement pr) (depth pr) (depth pr - 1) true (compactMode pr) (stack pr)
      (out pr ++ seal pr ++ escape true s)).
    { subst pr1. unfold PushText. rewrite seal_open_eq. unfold PrintString, Print, set_opened, set_textDepth, seal. cbn.
      by rewrite He, <- app_assoc. }
    destruct (IH nodes' pr1 Exs Hok Hap) as (pr' & E & t & Eo & _ & Ej & (K1 & K2 & K3 & K4) & Hlay); rewrite E1 in *; cbn in *; [|done|done|].
    { intros H. lia. }
    exists pr'. split; [exact E|]. exists (escape true s ++ t). split.
    { rewrite Eo. destruct xs; cbn; by rewrite <- !app_assoc. }
    split; [done|]. split; [destruct xs; done|]. split; [by rewrite <- He in K4|]. intros ws Hw Htd. destruct (Hlay ws Hw Htd) as [Hl Ha].
    rewrite <- app_assoc. split; [|by intros _ [?|?]]. apply layout_text; [done| |done]. apply Ha; [lia|].
    destruct xs as [|y xs]; [by right|left]. cbn in Hsep |- *. by destruct (is_plain y).
  - destruct (Hx node pr Ex Hxok Ep He Hdep) as (pr1 & ws0 & t0 & tail & E1 & Eo1 & Ht & Hw0 & Hwt & Hws0 & Htail & Ej1 & (K1 & K2 & K3 & K4)).
    rewrite E1. cbn [mbind result_bind].
    destruct (IH nodes' pr1 Exs Hok Hap) as (pr' & E & t & Eo & _ & Ej & (L1 & L2 & L3 & L4) & Hlay); [|congruence|lia|].
    { rewrite K1. intros H. by apply Hplain'. }
    exists pr'. split; [exact E|]. exists (ws0 ++ t0 ++ tail ++ t). split.
    { rewrite Eo, Eo1. unfold seal. rewrite Ej1. destruct xs; cbn; by rewrite <- !app_assoc. }
    split; [done|]. split; [rewrite Ej; by destruct xs|]. split; [unfold keeps; split_and!; congruence|].
    intros ws Hw Htd. destruct (Hlay ws Hw Htd) as [Hl _]. rewrite <- !app_assoc. split.
    + apply layout_tag; [done..|]. destruct (Z.eq_dec (depth pr) 0) as [E0|E0]; [|by rewrite Htail by lia].
      apply layout_blank; [done|by apply Hplain'|done].
    + intros H _. rewrite (Hws0 H). destruct (tag_start x t0 Ht) as (c & r & ->). right. by eexists _, _.
Qed.

(** A tag that is written as one piece. *)
Lemma writes_piece x s node pr :
  Accept node pr = Ok (push_tag s pr) -> tag x s ->
  exists pr' ws t tail, Accept node pr = Ok pr' /\ out pr' = out pr ++ seal pr ++ ws ++ t ++ tail /\
    tag x t /\ blank ws /\ blank tail /\ (0 <= textDepth pr -> ws = []) /\ (0 < depth pr -> tail = []) /\
    elementJustOpened pr' = false /\ keeps pr pr'.
Proof.
  intros Ea Ht. rewrite push_tag_eq in Ea. eexists _, (break_text pr), s, []. split; [exact Ea|]. cbn. rewrite app_nil_r.
  split_and!; try done; [apply break_text_blank|apply break_text_none].
Qed.

(** What [CloseElement] writes in front of a closing tag, and behind it. *)
Definition close_text (pr : XMLPrinter) : list byte :=
  if (textDepth pr <? 0) && negb (compactMode pr) then LF :: spaces (depth pr - 1) else [].
Definition end_text (pr : XMLPrinter) : list byte :=
  if (depth pr - 1 =? 0) && negb (compactMode pr) then [LF] else [].

Lemma print_if (b : bool) s pr : (if b then Print s pr else pr) = Print (if b then s else []) pr.
Proof. destruct b; [done|]. unfold Print. rewrite app_nil_r. by destruct pr. Qed.

Lemma set_textDepth_if (b : bool) d pr :
  (if b then set_textDepth d pr else pr) = set_textDepth (if b then d else textDepth pr) pr.
Proof. destruct b; [done|]. by destruct pr. Qed.

Lemma break_print (b : bool) d pr :
  (if b then PrintSpace d (Print [LF] pr) else pr) = Print (if b then LF :: spaces d else []) pr.
Proof.
  rewrite <- print_if. destruct b; [|done]. unfold PrintSpace, Print. cbn. by rewrite <- app_assoc.
Qed.

Lemma close_element_eq pr name st :
  stack pr = name :: st ->
  exists td, CloseElement pr = Ok (Printer false (firstElement pr) (depth pr - 1) td (print_entities pr) (compactMode pr) st
    (out pr ++ (if elementJustOpened pr then bytes "/>" else close_text pr ++ bytes "</" ++ name ++ bytes ">") ++ end_text pr)).
Proof.
  intros Hs. exists (if textDepth pr =? depth pr - 1 then -1 else textDepth pr). destruct pr as [o f d td e c st' ou].
  cbn [stack] in Hs. subst st'. unfold CloseElement. cbn [stack set_depth]. cbv zeta.
  rewrite break_print, print_if, set_textDepth_if.
  destruct o; cbn [elementJustOpened set_stack set_depth]; unfold Print, set_textDepth, set_opened;
    cbn [elementJustOpened firstElement depth textDepth print_entities compactMode stack out]; by rewrite <- !app_assoc.
Qed.

Lemma open_element_eq name pr :
  OpenElement name pr = Printer true false (depth pr + 1) (textDepth pr) (print_entities pr) (compactMode pr) (name :: stack pr)
    (out pr ++ seal pr ++ break_text pr ++ bytes "<" ++ name).
Proof.
  destruct pr as [o f d td e c st ou]. unfold OpenElement. rewrite break_line_eq, seal_open_eq.
  cbv [Print set_opened set_first set_depth set_stack break_text seal elementJustOpened firstElement depth textDepth
    print_entities compactMode stack out]. by rewrite <- !app_assoc.
Qed.

Lemma accept_element_eq v c atts nodes pr :
  Accept (XMLElement v c atts nodes) pr =
  (pr ← visit_enter_element v atts pr; pr ← accept_all nodes pr; CloseElement pr).
Proof. reflexivity. Qed.

Lemma element_writes n ats body : Forall writes_tag body -> writes_tag (Elem n ats body).
Proof.
  intros Hb node pr (v & c & atts & nodes & -> & Ev & Ea & Ex)%denote_inv Hok _ He Hdep. cbn [tree_ok] in Hok.
  rewrite !andb_true_iff in Hok. destruct Hok as [[[Hn Hats] Hap] Hbody].
  rewrite accept_element_eq. unfold visit_enter_element. rewrite Ev. cbn [mbind result_bind]. rewrite open_element_eq.
  rewrite (push_attributes_eq atts ats _ Ea) by done. cbn [mbind result_bind]. unfold Print.
  cbn [elementJustOpened firstElement depth textDepth print_entities compactMode stack out].
  set (pr1 := Printer _ _ _ _ _ _ _ _).
  destruct (list_writes body Hb nodes pr1 Ex Hbody Hap) as (pr2 & E2 & t & Eo & Et & Ej & (K1 & K2 & K3 & K4) & Hlay);
    [subst pr1; cbn; lia|done|subst pr1; cbn; lia|].
  rewrite E2. cbn [mbind result_bind]. destruct (close_element_eq pr2 n (stack pr) K2) as [td Ec].
  cbn in K1, K3, K4. cbn in Eo, Ej.
  exists (Printer false (firstElement pr2) (depth pr2 - 1) td (print_entities pr2) (compactMode pr2) (stack pr)
    (out pr2 ++ (if elementJustOpened pr2 then bytes "/>" else close_text pr2 ++ bytes "</" ++ n ++ bytes ">") ++ end_text pr2)).
  exists (break_text pr), (bytes "<" ++ n ++ attrs_text ats ++
    (if body is [] then bytes "/>" else bytes ">" ++ (t ++ close_text pr2) ++ bytes "</" ++ n ++ bytes ">")), (end_text pr2).
  split; [exact Ec|]. cbn [out elementJustOpened depth]. split.
  { rewrite Eo, Ej. destruct body; [rewrite (Et eq_refl)|]; cbn [app]; by rewrite <- !app_assoc. }
  split.
  { destruct body as [|y body]; [by apply tag_empty|]. apply tag_elem; [done..|]. apply Hlay.
    - unfold close_text. destruct (_ && _); [apply blank_break|done].
    - intros H. unfold close_text. by rewrite (proj2 (Z.ltb_ge _ _)). }
  split_and!; try done.
  - apply break_text_blank.
  - unfold end_text. by destruct (_ && _).
  - apply break_text_none.
  - intros H. unfold end_text. rewrite (proj2 (Z.eqb_neq _ _)) by lia. done.
  - unfold keeps. cbn. split_and!; try done. lia.
Qed.

Lemma node_writes x : writes_tag x.
Proof.
  induction x as [n ats body Hb|s|s|s|s|s] using xml_nested_ind; [by apply element_writes|done|..].
  all: intros node pr (v & -> & Ev)%denote_inv Hok _ He Hdep.
  1: { cbn [Accept]. rewrite Ev. cbn [mbind result_bind].
    eexists _, [], (bytes "<![CDATA[" ++ s ++ bytes "]]>"), []. split; [done|]. unfold PushText. rewrite seal_open_eq.
    split; [cbn; by rewrite <- !app_assoc|]. split; [by apply tag_cdata|]. by split_and!. }
  all: cbn [tree_ok] in Hok.
  - apply (writes_piece _ (bytes "<!--" ++ s ++ bytes "-->")); [cbn [Accept]; by rewrite Ev|by apply tag_comment].
  - apply (writes_piece _ (bytes "<?" ++ s ++ bytes "?>")); [cbn [Accept]; by rewrite Ev|by apply tag_decl].
  - apply (writes_piece _ (bytes "<!" ++ s ++ bytes ">")); [cbn [Accept]; by rewrite Ev|by apply tag_unk].
Qed.
