(* ===== verification/XmlRun.v ===== *)
(** * Documents, written and read

    The theorems on whole documents: what is saved can be loaded and says the
    same, any layout of a tree is loaded as this tree, and a closing tag that does
    not match is an error. *)

From S2P Require Import Prelude XmlText.
From S2P Require Import XmlTextSpec Xml XmlPrinter XmlTree.
From S2P Require Import XmlLoad XmlSave.

(** ** From the file to the parser *)

Lemma attrs_text_nul ats : attrs_ok ats = true -> no_nul (attrs_text ats).
Proof.
  unfold attrs_ok. intros [H _]%andb_true_iff. induction ats as [|a ats IH]; [by constructor|].
  cbn [forallb] in H. apply andb_true_iff in H as [Ha H]. rewrite attrs_text_cons. apply attr_ok_parts in Ha as (Hn & Hp & _).
  repeat (apply Forall_app; split); [by repeat constructor|by apply name_nul|by repeat constructor|by apply escape_nul|
    by repeat constructor|by apply IH].
Qed.

Lemma blank_nul ws : blank ws -> no_nul ws.
Proof.
  unfold blank. induction ws as [|c ws IH]; [by constructor|]. cbn. intros [Hc Hw]%andb_true_iff.
  constructor; [by intros ->|by apply IH].
Qed.

Lemma no_nul_app s t : no_nul (s ++ t) <-> no_nul s /\ no_nul t.
Proof. apply Forall_app. Qed.

Lemma layout_nul : (forall xs t, layout xs t -> no_nul t) /\ (forall x t, tag x t -> no_nul t).
Proof.
  apply layout_tag_ind; intros; cbn [tree_ok] in *; rewrite ?andb_true_iff in *; destruct_and?;
    rewrite ?no_nul_app; split_and?; auto using blank_nul, escape_nul, attrs_text_nul, name_nul, plain_nul.
  all: by repeat constructor.
Qed.

Lemma layout_skip xs t :
  layout xs t -> xs <> [] -> forallb (fun x => negb (is_plain x)) xs = true ->
  exists c r, SkipWhiteSpace t = x3c :: c :: r /\ layout xs (x3c :: c :: r).
Proof.
  intros Hl Hne Hp. destruct Hl as [| |ws x xs t t' Hw Ht Hl]; [done..|]. destruct (tag_start x t Ht) as (c & r & ->).
  exists c, (r ++ t'). rewrite (skip_blank ws _ Hw). split; [done|].
  change (layout (x :: xs) ([] ++ (x3c :: c :: r) ++ t')). by apply layout_tag.
Qed.

Lemma document_ok_parts xs :
  document_ok xs = true -> xs <> [] /\ forallb (fun x => negb (is_plain x)) xs = true /\ forallb tree_ok xs = true.
Proof.
  unfold document_ok. rewrite andb_true_iff, negb_true_iff, bool_decide_eq_false. intros [H Hne].
  split; [by intros ->|]. clear Hne. induction xs as [|x xs IH]; [done|]. cbn [forallb] in *.
  rewrite !andb_true_iff in H |- *. destruct H as [[H1 H2] H]. destruct (IH H). done.
Qed.

Section options.
  Context (opts : XMLOptions) (Hent : processEntities opts = true) (Hcol : collapse_whitespace opts = false).

Lemma parse_layout bom xs t :
  layout xs t -> forallb (fun x => negb (is_plain x)) xs = true ->
  exists nodes, ParseDocument (new_XMLDocument opts) bom t = Ok (XML_NO_ERROR, Document opts bom XML_NO_ERROR nodes) /\
    denote_all nodes = Ok xs.
Proof.
  intros Hl Hp. pose proof (proj1 (layout_loads opts Hent Hcol) xs t Hl false [] ltac:(by left) (fun _ => Hp)) as H.
  destruct (H (parse_fuel t) [] (Parsed None new_StrPair XML_NO_ERROR)) as (nodes & E & Ex).
  - rewrite app_nil_r. unfold parse_fuel. lia.
  - intros [|fuel'] Hf; [cbn in Hf; lia|done].
  - rewrite !app_nil_r in E. exists nodes. unfold ParseDocument. cbn [d_options new_XMLDocument]. by rewrite E.
Qed.

Definition BOM : list byte := [xef; xbb; xbf].

Lemma load_layout (bom : bool) xs t :
  layout xs t -> document_ok xs = true ->
  exists nodes, LoadFile (new_XMLDocument opts) (Some ((if bom then BOM else []) ++ t)) true =
    Ok (XML_NO_ERROR, Document opts bom XML_NO_ERROR nodes) /\ denote_all nodes = Ok xs.
Proof.
  intros Hl (Hne & Hp & _)%document_ok_parts. pose proof (proj1 layout_nul xs t Hl) as Hn.
  destruct (layout_skip xs t Hl Hne Hp) as (c & r & Es & Hl').
  destruct bom; cbn [app].
  - unfold LoadFile. cbn [BOM app negb].
    rewrite (text_of_idle (xef :: xbb :: xbf :: t)) by (by repeat constructor).
    rewrite (skip_solid xef) by done. unfold ReadBOM. change (has_prefix _ (xef :: xbb :: xbf :: t)) with true. cbn zeta beta iota.
    change (drop 3 (xef :: xbb :: xbf :: t)) with t. destruct t as [|d t]; [done|]. by apply parse_layout.
  - unfold LoadFile. rewrite (text_of_idle t Hn), Es. cbn [negb].
    unfold ReadBOM. change (has_prefix _ (x3c :: c :: r)) with false. cbn zeta beta iota.
    destruct t as [|d t]; [done|]. by apply parse_layout.
Qed.

End options.

(** The printer with the BOM written, if there is one. *)
Definition document_printer (compact bom : bool) : XMLPrinter := Printer false true 0 (-1) true compact [] (if bom then BOM else []).

Lemma printed_loads compact (bom : bool) nodes xs :
  denote_all nodes = Ok xs -> document_ok xs = true ->
  exists pr' nodes', accept_all nodes (document_printer compact bom) = Ok pr' /\ stack pr' = [] /\
    LoadFile (new_XMLDocument default_options) (Some (out pr')) true =
      Ok (XML_NO_ERROR, Document default_options bom XML_NO_ERROR nodes') /\
    denote_all nodes' = Ok xs.
Proof.
  intros Hd Hok. destruct (document_ok_parts xs Hok) as (_ & Hp & Ht). set (pr := document_printer compact bom).
  destruct (list_writes xs ltac:(apply Forall_forall; intros; apply node_writes) nodes pr Hd Ht) as (pr' & E & t & Eo & _ & _ & (_ & Es & _) & Hl).
  { clear -Hp. induction xs as [|x xs IH]; [done|]. cbn in *. apply andb_true_iff in Hp as [H1 H2]. apply negb_true_iff in H1.
    rewrite H1. by apply IH. }
  1-3: done.
  destruct (Hl [] ltac:(done) ltac:(done)) as [Hlay _]. rewrite app_nil_r in Hlay.
  destruct (load_layout default_options eq_refl eq_refl bom xs t Hlay Hok) as (nodes' & El & Ex).
  exists pr', nodes'. split; [done|]. split; [done|]. split; [|done].
  rewrite Eo. cbn [out pr document_printer]. unfold seal. cbn [elementJustOpened]. destruct xs; exact El.
Qed.

(** ** The theorems *)

(** C23: What [SaveFile] writes for a document, be it indented or compact, is loaded
    as a document that says the same: the same elements with the same attributes,
    texts, comments, declarations and unknown tags, in order, with the same
    strings, and with a BOM if there was one. *)
Theorem saved_document_loads doc compact xs :
  denote_all (d_children doc) = Ok xs -> document_ok xs = true -> processEntities (d_options doc) = true ->
  exists text nodes, SaveFile doc true compact = Ok (d_errorID doc, doc, Some text) /\
    LoadFile (new_XMLDocument default_options) (Some text) true =
      Ok (XML_NO_ERROR, Document default_options (d_writeBOM doc) XML_NO_ERROR nodes) /\
    denote_all nodes = Ok xs.
Proof.
  intros Hd Hok He. set (pr := visit_enter_document doc (new_XMLPrinter compact)).
  assert (Epr : pr = document_printer compact (d_writeBOM doc)).
  { subst pr. unfold visit_enter_document. rewrite He. by destruct (d_writeBOM doc). }
  destruct (printed_loads compact (d_writeBOM doc) (d_children doc) xs Hd Hok) as (pr' & nodes & E & _ & El & Ex).
  exists (out pr'), nodes. split; [|done]. unfold SaveFile, accept_document. fold pr. by rewrite Epr, E.
Qed.

Definition sample_text : list byte :=
  bytes "<?xml v?><a k='&lt;1' q='x y'><b> x<c/>&lt;y&amp;</b><!-- c --><d><![CDATA[]]]]><e/></d></a><!DOCTYPE a>".

Lemma saved_document_loads_witness :
  match LoadFile (new_XMLDocument default_options) (Some sample_text) true with
  | Ok (_, doc) =>
      match denote_all (d_children doc) with
      | Ok xs =>
          exists text nodes, SaveFile doc true false = Ok (d_errorID doc, doc, Some text) /\
            LoadFile (new_XMLDocument default_options) (Some text) true =
              Ok (XML_NO_ERROR, Document default_options (d_writeBOM doc) XML_NO_ERROR nodes) /\
            denote_all nodes = Ok xs
      | Err _ => False
      end
  | Err _ => False
  end.
Proof.
  destruct (LoadFile _ (Some sample_text) true) as [[e doc]|e] eqn:El; vm_compute in El; [|discriminate El].
  injection El as <- <-.
  destruct (denote_all _) as [xs|e] eqn:Ed; [|vm_compute in Ed; discriminate Ed]. pose proof Ed as Ed'.
  vm_compute in Ed'. injection Ed' as Ex.
  refine (saved_document_loads _ false xs Ed _ eq_refl). rewrite <- Ex. vm_compute. reflexivity.
Defined.

(** ** Tags that do not match *)

Lemma mismatch n m ats nodes :
  name_ok n = true -> name_ok m = true -> n <> m -> mismatched (XMLElement (Set_ n 0) OPEN ats nodes) (Set_ m 0) = Ok true.
Proof.
  intros Hn Hm Hne. unfold mismatched. rewrite (get_str_name n (name_nul n Hn)), (get_str_name m (name_nul m Hm)).
  assert (Empty (Set_ m 0) = false) as -> by (by destruct (name_ok_cons m Hm) as (d & t & -> & _)).
  change (bool_decide (OPEN = OPEN)) with true. cbn [andb negb mbind result_bind]. by rewrite bool_decide_eq_false_2.
Qed.

(** An element that another name closes, up to its end. *)
Definition crossed (n m : list byte) (ats : list (list byte * list byte)) (t k : list byte) : list byte :=
  bytes "<" ++ n ++ attrs_text ats ++ bytes ">" ++ t ++ bytes "</" ++ m ++ bytes ">" ++ k.

Lemma crossed_fails opts fuel nested n m ats body t k :
  processEntities opts = true -> collapse_whitespace opts = false ->
  name_ok n = true -> name_ok m = true -> n <> m -> attrs_ok ats = true -> layout body t ->
  (2 * length (crossed n m ats t k) < fuel)%nat ->
  parse_nodes fuel opts nested (crossed n m ats t k) XML_NO_ERROR =
  Ok ([], Parsed None new_StrPair XML_ERROR_MISMATCHED_ELEMENT).
Proof.
  intros Hent Hcol Hn Hm Hne Ha Hl Hf. unfold crossed in *. set (k' := bytes "</" ++ m ++ bytes ">" ++ k) in *.
  destruct (name_ok_cons n Hn) as (d & u & En & _). rewrite !length_app in Hf.
  change (length (bytes "<")) with 1%nat in Hf. change (length (bytes ">")) with 1%nat in Hf.
  assert (Hlen : (0 < length n)%nat) by (rewrite En; cbn; lia). destruct fuel as [|[|fuel]]; [lia..|].
  destruct (proj1 (layout_loads opts Hent Hcol) body t Hl true k' ltac:(right; by eexists _, _) ltac:(done) fuel []
    (Parsed (Some k) (Set_ m 0) XML_NO_ERROR)) as (nodes & E & _).
  { rewrite length_app. lia. }
  { intros fuel' Hf'. apply close_tag; [done|]. subst k'. cbn in Hf'. lia. }
  rewrite app_nil_r in E. destruct (open_tag opts Hent fuel n ats false (t ++ k') nodes (Parsed (Some k) (Set_ m 0) XML_NO_ERROR) Hn Ha)
    as (atts & Ep & _).
  { intros _. split; [by destruct t|exact E]. }
  cbn [parse_nodes app bytes]. change (bytes "<") with [x3c]. cbn [app].
  pose proof (identify_name n (attrs_text ats ++ bytes ">" ++ t ++ k') Hn) as Ei. change (bytes "<") with [x3c] in Ei. cbn [app] in Ei.
  rewrite Ei. change (bytes ">") with (tag_end false). rewrite Ep. cbn [mbind result_bind p_rest is_closing p_end].
  by rewrite (mismatch n m atts nodes Hn Hm Hne).
Qed.

Lemma layout_skip_app xs t k c r :
  layout xs t -> forallb (fun x => negb (is_plain x)) xs = true -> k = x3c :: c :: r ->
  exists t1 c' r', SkipWhiteSpace (t ++ k) = t1 ++ k /\ layout xs t1 /\ t1 ++ k = x3c :: c' :: r'.
Proof.
  intros Hl Hp ->. destruct Hl as [ws Hw| |ws x xs t t' Hw Ht Hl]; [|done|].
  - exists [], c, r. rewrite (skip_blank ws _ Hw). split_and!; [done| |done]. by apply layout_nil.
  - destruct (tag_start x t Ht) as (d & u & ->). exists ((x3c :: d :: u) ++ t'), d, (u ++ t' ++ x3c :: c :: r).
    rewrite <- !app_assoc, (skip_blank ws _ Hw). split_and!; [done| |done].
    change (layout (x :: xs) ([] ++ (x3c :: d :: u) ++ t')). by apply layout_tag.
Qed.

(** An element that is closed by another name makes the whole document fail
    with [XML_ERROR_MISMATCHED_ELEMENT], whatever well-formed nodes come before it
    or are in it, and whatever comes behind it; only the nodes before it are
    kept. *)
Theorem crossed_tags_rejected xs t0 n m ats body t k :
  layout xs t0 -> forallb (fun x => negb (is_plain x)) xs = true ->
  name_ok n = true -> name_ok m = true -> n <> m -> attrs_ok ats = true -> layout body t -> no_nul k ->
  exists nodes, LoadFile (new_XMLDocument default_options) (Some (t0 ++ crossed n m ats t k)) true =
    Ok (XML_ERROR_MISMATCHED_ELEMENT, Document default_options false XML_ERROR_MISMATCHED_ELEMENT nodes) /\
    denote_all nodes = Ok xs.
Proof.
  intros Hl0 Hp Hn Hm Hne Ha Hl Hk.
  assert (Hc : exists c r, crossed n m ats t k = x3c :: c :: r).
  { destruct (name_ok_cons n Hn) as (d & u & -> & _). by eexists _, _. }
  destruct Hc as (c & r & Ec). destruct (layout_skip_app xs t0 _ c r Hl0 Hp Ec) as (t1 & c' & r' & Es & Hl1 & E1).
  assert (Hnul : no_nul (t0 ++ crossed n m ats t k)).
  { pose proof (proj1 layout_nul xs t0 Hl0). pose proof (proj1 layout_nul body t Hl).
    unfold crossed. rewrite !no_nul_app. split_and!; auto using name_nul, attrs_text_nul; by repeat constructor. }
  destruct (proj1 (layout_loads default_options eq_refl eq_refl) xs t1 Hl1 false (crossed n m ats t k)
    ltac:(right; by eexists _, _) (fun _ => Hp) (parse_fuel (t1 ++ crossed n m ats t k)) []
    (Parsed None new_StrPair XML_ERROR_MISMATCHED_ELEMENT)) as (nodes & E & Ed).
  { unfold parse_fuel. lia. }
  { intros fuel' Hf. by apply (crossed_fails default_options fuel' false n m ats body). }
  rewrite app_nil_r in E. exists nodes. split; [|done].
  unfold LoadFile. rewrite (text_of_idle _ Hnul), Es, E1. rewrite E1 in E. cbn [negb].
  unfold ReadBOM. change (has_prefix _ (x3c :: c' :: r')) with false. cbn zeta beta iota.
  destruct (t0 ++ crossed n m ats t k) eqn:E0; [by rewrite Ec in E0; destruct t0|].
  unfold ParseDocument. cbn [d_options new_XMLDocument]. by rewrite E.
Qed.

Lemma crossed_tags_rejected_witness :
  exists nodes, LoadFile (new_XMLDocument default_options) (Some (bytes "<?v?><a><b/></c> and more")) true =
    Ok (XML_ERROR_MISMATCHED_ELEMENT, Document default_options false XML_ERROR_MISMATCHED_ELEMENT nodes) /\
    denote_all nodes = Ok [Decl (bytes "v")].
Proof.
  refine (crossed_tags_rejected [Decl (bytes "v")] (bytes "<?v?>") (bytes "a") (bytes "c") []
    [Elem (bytes "b") [] []] (bytes "<b/>") (bytes " and more") _ eq_refl eq_refl eq_refl _ eq_refl _ _).
  - apply (layout_tag [] _ [] (bytes "<?v?>") []); [done|by apply (tag_decl (bytes "v"))|by apply layout_nil].
  - done.
  - apply (layout_tag [] _ [] (bytes "<b/>") []); [done|by apply (tag_empty (bytes "b") [])|by apply layout_nil].
  - by repeat constructor.
Defined.

(** ** What the parser does not notice *)

(** A closing tag at the level of the document ends it without an error. *)
Example stray_closing_tag :
  match LoadFile (new_XMLDocument default_options) (Some (bytes "<a/></b><c/>")) true with
  | Ok (err, doc) => xs ← denote_all (d_children doc); Ok (err, xs)
  | Err e => Err e
  end = Ok (XML_NO_ERROR, [Elem (bytes "a") [] []]).
Proof. vm_compute. reflexivity. Qed.

(** A file that is empty is loaded without an error. *)
Example empty_file :
  LoadFile (new_XMLDocument default_options) (Some []) true = Ok (XML_NO_ERROR, new_XMLDocument default_options).
Proof. reflexivity. Qed.

(** An attribute that begins with an underscore, and one that is there twice. *)
Example attribute_names :
  (fun r => fst r) <$> LoadFile (new_XMLDocument default_options) (Some (bytes "<a _b='1'/>")) true = Ok XML_ERROR_PARSING_ELEMENT /\
  (fun r => fst r) <$> LoadFile (new_XMLDocument default_options) (Some (bytes "<a b='1' b='2'/>")) true = Ok XML_ERROR_PARSING_ATTRIBUTE.
Proof. vm_compute. done. Qed.

(** [Parse] takes a BOM for text. *)
Example parse_bom :
  match Parse (new_XMLDocument default_options) (BOM ++ bytes "<a/>") with
  | Ok (err, doc) => xs ← denote_all (d_children doc); Ok (err, xs)
  | Err e => Err e
  end = Ok (XML_NO_ERROR, [Plain BOM; Elem (bytes "a") [] []]).
Proof. vm_compute. reflexivity. Qed.
