(* ===== verification/XmlEdit.v ===== *)
(** * Changing attributes, and making nodes (src/tinyxml2/tinyxml2.cpp)

    The strings that are set are copied: a [StrPair] then owns its bytes, and
    nothing is decoded when they are read. *)

From S2P Require Import Prelude Digits XmlText.
From S2P Require Import XmlTextSpec Xml XmlPrinter XmlTree XmlSave.

#[local] Set Warnings "-clear-no-such-hyp".

Definition NEEDS_DELETE : Z := 0x200.

(** [StrPair::SetStr] *)
Definition SetStr (str : list byte) : StrPair := Str NEEDS_DELETE str.

(** [XMLUtil::ToStr] *)
Definition ToStr_int (v : Z) : list byte := print_d v.
Definition ToStr_unsigned (v : Z) : list byte := print_u v.
Definition ToStr_bool (v : bool) : list byte := print_d (if v then 1 else 0).

(** ** Attributes *)

(** The attribute that has the name, or a new one at the end; its place. *)
Fixpoint FindOrCreateAttribute (attributes : list XMLAttribute) (name : list byte) : result (list XMLAttribute * nat) :=
  match attributes with
  | [] => Ok ([Attr (SetStr name) new_StrPair], O)
  | a :: rest =>
      n ← GetStr (a_name a);
      if bool_decide (n = name) then Ok (a :: rest, O)
      else '(rest, i) ← FindOrCreateAttribute rest name; Ok (a :: rest, S i)
  end.

Definition SetAttribute (attributes : list XMLAttribute) (name value : list byte) : result (list XMLAttribute) :=
  '(attributes, i) ← FindOrCreateAttribute attributes name;
  Ok (alter (fun a => Attr (a_name a) (SetStr value)) i attributes).

Definition SetAttribute_int (attributes : list XMLAttribute) (name : list byte) (v : Z) := SetAttribute attributes name (ToStr_int v).
Definition SetAttribute_unsigned (attributes : list XMLAttribute) (name : list byte) (v : Z) :=
  SetAttribute attributes name (ToStr_unsigned v).
Definition SetAttribute_bool (attributes : list XMLAttribute) (name : list byte) (v : bool) :=
  SetAttribute attributes name (ToStr_bool v).

Fixpoint DeleteAttribute (attributes : list XMLAttribute) (name : list byte) : result (list XMLAttribute) :=
  match attributes with
  | [] => Ok []
  | a :: rest =>
      n ← GetStr (a_name a);
      if bool_decide (name = n) then Ok rest else rest ← DeleteAttribute rest name; Ok (a :: rest)
  end.

(** [Query...Attribute] *)
Definition query_named {A} (query : XMLAttribute -> result (XMLError * option A)) (attributes : list XMLAttribute)
    (name : list byte) : result (XMLError * option A) :=
  a ← FindAttribute attributes name;
  match a with Some a => query a | None => Ok (XML_NO_ATTRIBUTE, None) end.

Definition QueryIntAttribute := query_named QueryIntValue.
Definition QueryUnsignedAttribute := query_named QueryUnsignedValue.
Definition QueryBoolAttribute := query_named QueryBoolValue.

(** ** Nodes *)

Definition NewElement (name : list byte) : XMLNode := XMLElement (SetStr name) OPEN [] [].
Definition NewComment (str : list byte) : XMLNode := XMLComment (SetStr str).
Definition NewText (str : list byte) : XMLNode := XMLText (SetStr str) false.
Definition NewUnknown (str : list byte) : XMLNode := XMLUnknown (SetStr str).

Definition default_declaration : list byte :=
  xml_declaration ++ bytes " encoding=" ++ [x22] ++ bytes "UTF-8" ++ [x22].

Definition NewDeclaration (str : option (list byte)) : XMLNode := XMLDeclaration (SetStr (default default_declaration str)).

(** The loop of [ShallowClone] over the attributes. *)
Fixpoint clone_attributes (attributes : list XMLAttribute) (clone : list XMLAttribute) : result (list XMLAttribute) :=
  match attributes with
  | [] => Ok clone
  | a :: rest =>
      n ← GetStr (a_name a); v ← GetStr (a_value a);
      clone ← SetAttribute clone n v; clone_attributes rest clone
  end.

Definition ShallowClone (node : XMLNode) : result XMLNode :=
  v ← Value node;
  match node with
  | XMLElement _ _ attributes _ => clone ← clone_attributes attributes []; Ok (XMLElement (SetStr v) OPEN clone [])
  | XMLText _ cdata => Ok (XMLText (SetStr v) cdata)
  | XMLComment _ => Ok (NewComment v)
  | XMLDeclaration _ => Ok (NewDeclaration (Some v))
  | XMLUnknown _ => Ok (NewUnknown v)
  end.

(** The values of the attributes, one after the other. *)
Fixpoint equal_attributes (a b : list XMLAttribute) : result bool :=
  match a, b with
  | a :: a', b :: b' =>
      v ← GetStr (a_value a); w ← GetStr (a_value b);
      if bool_decide (v = w) then equal_attributes a' b' else Ok false
  | [], [] => Ok true
  | _, _ => Ok false
  end.

Definition equal_values (node compare : XMLNode) : result bool :=
  v ← Value compare; w ← Value node; Ok (bool_decide (v = w)).

Definition ShallowEqual (node compare : XMLNode) : result bool :=
  match node, compare with
  | XMLElement _ _ a _, XMLElement _ _ b _ =>
      same ← equal_values node compare; if same : bool then equal_attributes a b else Ok false
  | XMLText _ _, XMLText _ _ | XMLComment _, XMLComment _ | XMLDeclaration _, XMLDeclaration _
  | XMLUnknown _, XMLUnknown _ => equal_values node compare
  | _, _ => Ok false
  end.

(** ** What they do *)

Lemma set_str_reads s : no_nul s -> GetStr (SetStr s) = Ok s.
Proof.
  intros Hs. unfold GetStr. cbn [SetStr sp_flags sp_text]. change (flag_set NEEDS_DELETE NEEDS_FLUSH) with false. cbn iota.
  rewrite (c_string_text (s ++ [x00])) by (rewrite elem_of_app; right; by left). by rewrite (text_of_app s []).
Qed.

(** The attributes as names with values. *)
Fixpoint assoc_set (ats : list (list byte * list byte)) (name value : list byte) : list (list byte * list byte) :=
  match ats with
  | [] => [(name, value)]
  | (n, v) :: ats => if bool_decide (n = name) then (n, value) :: ats else (n, v) :: assoc_set ats name value
  end.

Fixpoint assoc (ats : list (list byte * list byte)) (name : list byte) : option (list byte) :=
  match ats with
  | [] => None
  | (n, v) :: ats => if bool_decide (n = name) then Some v else assoc ats name
  end.

Lemma attribute_assoc attributes ats name :
  collect denote_attr attributes = Ok ats -> Attribute attributes name = Ok (assoc ats name).
Proof.
  rewrite collect_Forall2. induction 1 as [|a [n v] attributes ats Ha _ IH]; [done|].
  apply denote_attr_parts in Ha as [En Ev]. unfold Attribute, FindAttribute in *. cbn [foldr assoc]. rewrite En. cbn [mbind result_bind].
  case_bool_decide; [|done]. cbn [mbind result_bind]. by rewrite Ev.
Qed.

Lemma set_attribute_assoc attributes ats name value :
  collect denote_attr attributes = Ok ats -> no_nul name -> no_nul value ->
  exists attributes', SetAttribute attributes name value = Ok attributes' /\
    collect denote_attr attributes' = Ok (assoc_set ats name value).
Proof.
  rewrite collect_Forall2. intros H Hn Hv. unfold SetAttribute.
  induction H as [|a [n v] attributes ats Ha H (attributes' & E & IH)]; cbn [FindOrCreateAttribute assoc_set].
  { eexists. split; [done|]. cbn. unfold denote_attr. cbn [a_name a_value]. by rewrite (set_str_reads name Hn), (set_str_reads value Hv). }
  pose proof (denote_attr_parts _ _ _ Ha) as [En Ev]. rewrite En. cbn [mbind result_bind]. case_bool_decide as Eq.
  - eexists. split; [done|]. apply collect_Forall2. cbn. constructor; [|done].
    unfold denote_attr. cbn [a_name a_value]. by rewrite En, (set_str_reads value Hv).
  - destruct (FindOrCreateAttribute attributes name) as [[rest i]|]; cbn [mbind result_bind] in *; [|done].
    injection E as <-. eexists. split; [done|]. cbn [alter]. apply collect_Forall2. constructor; [done|]. by apply collect_Forall2.
Qed.

Lemma assoc_set_lookup ats name value m :
  assoc (assoc_set ats name value) m = if bool_decide (name = m) then Some value else assoc ats m.
Proof.
  induction ats as [|[n v] ats IH]; cbn [assoc_set assoc]; [by case_bool_decide|].
  destruct (decide (n = name)) as [->|Hn].
  - rewrite (bool_decide_eq_true_2 (name = name)) by done. cbn [assoc]. by destruct (bool_decide (name = m)).
  - rewrite (bool_decide_eq_false_2 (n = name)) by done. cbn [assoc]. rewrite IH. repeat case_bool_decide; congruence.
Qed.

(** The names stay as they are, or get one more at the end. *)
Lemma assoc_set_names ats name value :
  (assoc_set ats name value).*1 = if bool_decide (name ∈ ats.*1) then ats.*1 else ats.*1 ++ [name].
Proof.
  induction ats as [|[n v] ats IH]; [done|]. cbn [assoc_set]. destruct (decide (n = name)) as [->|Hn].
  - rewrite (bool_decide_eq_true_2 (name = name)), bool_decide_eq_true_2 by (done || apply elem_of_cons; by left). done.
  - rewrite (bool_decide_eq_false_2 (n = name)) by done. rewrite !fmap_cons, IH.
    repeat case_bool_decide; rewrite ?elem_of_cons in *; naive_solver.
Qed.

Lemma assoc_set_ok ats name value : NoDup ats.*1 -> NoDup (assoc_set ats name value).*1.
Proof.
  intros H. rewrite assoc_set_names. case_bool_decide as E; [done|]. apply NoDup_app. split_and!; [done| |apply NoDup_singleton].
  by intros x Hx ->%list_elem_of_singleton.
Qed.

Fixpoint assoc_delete (ats : list (list byte * list byte)) (name : list byte) : list (list byte * list byte) :=
  match ats with
  | [] => []
  | (n, v) :: ats => if bool_decide (name = n) then ats else (n, v) :: assoc_delete ats name
  end.

Lemma delete_attribute_assoc attributes ats name :
  collect denote_attr attributes = Ok ats ->
  exists attributes', DeleteAttribute attributes name = Ok attributes' /\
    collect denote_attr attributes' = Ok (assoc_delete ats name).
Proof.
  rewrite collect_Forall2. induction 1 as [|a [n v] attributes ats Ha H (attributes' & E & IH)]; cbn [DeleteAttribute assoc_delete].
  { by exists []. }
  pose proof (denote_attr_parts _ _ _ Ha) as [En _]. rewrite En. cbn [mbind result_bind]. case_bool_decide as Eq.
  - exists attributes. split; [done|]. by apply collect_Forall2.
  - rewrite E. cbn [mbind result_bind]. eexists. split; [done|]. apply collect_Forall2. constructor; [done|]. by apply collect_Forall2.
Qed.

Lemma assoc_none ats name : name ∉ ats.*1 -> assoc ats name = None.
Proof.
  induction ats as [|[n v] ats IH]; [done|]. cbn [fmap list_fmap fst assoc]. rewrite not_elem_of_cons. intros [Hn Hin].
  rewrite bool_decide_eq_false_2 by done. by apply IH.
Qed.

Lemma assoc_delete_lookup ats name m :
  NoDup ats.*1 -> assoc (assoc_delete ats name) m = if bool_decide (name = m) then None else assoc ats m.
Proof.
  induction ats as [|[n v] ats IH]; cbn [fmap list_fmap fst]; [intros _; by case_bool_decide|]. intros [Hn Hnd]%NoDup_cons.
  cbn [assoc_delete]. destruct (decide (name = n)) as [->|Hne].
  - rewrite (bool_decide_eq_true_2 (n = n)) by done. cbn [assoc].
    destruct (decide (n = m)) as [->|Hm]; [rewrite bool_decide_eq_true_2 by done; by apply assoc_none|].
    by rewrite bool_decide_eq_false_2.
  - rewrite (bool_decide_eq_false_2 (name = n)) by done. cbn [assoc]. rewrite (IH Hnd). repeat case_bool_decide; congruence.
Qed.

(** ** The theorem *)

Inductive attribute_edit := SetTo (name value : list byte) | DeleteNamed (name : list byte).

Definition run_attribute_edit (attributes : list XMLAttribute) (e : attribute_edit) : result (list XMLAttribute) :=
  match e with SetTo name value => SetAttribute attributes name value | DeleteNamed name => DeleteAttribute attributes name end.

Fixpoint run_attribute_edits (attributes : list XMLAttribute) (es : list attribute_edit) : result (list XMLAttribute) :=
  match es with [] => Ok attributes | e :: es => a ← run_attribute_edit attributes e; run_attribute_edits a es end.

(** What the edits make of a function from names to values. *)
Definition edited (values : list byte -> option (list byte)) (e : attribute_edit) (m : list byte) : option (list byte) :=
  match e with
  | SetTo name value => if bool_decide (name = m) then Some value else values m
  | DeleteNamed name => if bool_decide (name = m) then None else values m
  end.

Definition edit_texts (e : attribute_edit) : Prop :=
  match e with SetTo name value => no_nul name /\ no_nul value | DeleteNamed _ => True end.

Lemma attribute_edit_spec attributes ats e :
  collect denote_attr attributes = Ok ats -> NoDup ats.*1 -> edit_texts e ->
  exists attributes' ats', run_attribute_edit attributes e = Ok attributes' /\ collect denote_attr attributes' = Ok ats' /\
    NoDup ats'.*1 /\ forall m, assoc ats' m = edited (assoc ats) e m.
Proof.
  intros H Hnd He. destruct e as [name value|name]; cbn [run_attribute_edit edited].
  - destruct He as [Hn Hv]. destruct (set_attribute_assoc _ _ _ _ H Hn Hv) as (a & E & Ea). exists a, (assoc_set ats name value).
    split_and!; [done..|by apply assoc_set_ok|intros m; apply assoc_set_lookup].
  - destruct (delete_attribute_assoc _ _ name H) as (a & E & Ea). exists a, (assoc_delete ats name).
    split_and!; [done..| |intros m; by apply assoc_delete_lookup].
    clear -Hnd. induction ats as [|[n v] ats IH]; [done|]. cbn [fmap list_fmap fst] in Hnd. apply NoDup_cons in Hnd as [Hn Hnd].
    cbn [assoc_delete]. case_bool_decide; [done|]. cbn [fmap list_fmap fst]. apply NoDup_cons. split; [|by apply IH].
    intros Hin. apply Hn. clear -Hin. induction ats as [|[k w] ats IH]; [done|]. cbn [assoc_delete] in Hin.
    case_bool_decide; cbn [fmap list_fmap fst] in *; [by right|]. apply elem_of_cons in Hin as [->|Hin]; [by left|right; by apply IH].
Qed.

(** The attributes of an element are a map: after any sequence of
    [SetAttribute] and [DeleteAttribute], [Attribute] answers for every name the
    value that was set last, or nothing, and the names stay distinct. *)
Theorem attributes_are_map attributes ats es :
  collect denote_attr attributes = Ok ats -> NoDup ats.*1 -> Forall edit_texts es ->
  exists attributes' ats', run_attribute_edits attributes es = Ok attributes' /\
    collect denote_attr attributes' = Ok ats' /\ NoDup ats'.*1 /\
    forall m, Attribute attributes' m = Ok (fold_left edited es (assoc ats) m).
Proof.
  intros H Hnd Hes. revert attributes ats H Hnd. induction Hes as [|e es He _ IH]; intros attributes ats H Hnd; cbn [run_attribute_edits].
  { exists attributes, ats. split_and!; [done..|]. intros m. by apply attribute_assoc. }
  destruct (attribute_edit_spec _ _ _ H Hnd He) as (a1 & ats1 & E & Ea & Hnd1 & Hm). rewrite E. cbn [mbind result_bind fold_left].
  destruct (IH a1 ats1 Ea Hnd1) as (a2 & ats2 & E2 & Ea2 & Hnd2 & Hm2). exists a2, ats2. split_and!; [done..|].
  intros m. rewrite Hm2. f_equal. clear -Hm. revert Hm. generalize (assoc ats1) as g. generalize (edited (assoc ats) e) as g'.
  induction es as [|x es IH]; intros g' g Hg; cbn [fold_left]; [apply Hg|]. apply IH. intros k. destruct x; cbn; by rewrite Hg.
Qed.

Lemma attributes_are_map_witness :
  exists attributes' ats',
    run_attribute_edits [Attr (SetStr (bytes "a")) (SetStr (bytes "1"))]
      [SetTo (bytes "b") (bytes "2"); SetTo (bytes "a") (bytes "3"); DeleteNamed (bytes "b")] = Ok attributes' /\
    collect denote_attr attributes' = Ok ats' /\ NoDup ats'.*1 /\
    forall m, Attribute attributes' m = Ok (fold_left edited
      [SetTo (bytes "b") (bytes "2"); SetTo (bytes "a") (bytes "3"); DeleteNamed (bytes "b")]
      (assoc [(bytes "a", bytes "1")]) m).
Proof.
  refine (attributes_are_map [Attr (SetStr (bytes "a")) (SetStr (bytes "1"))] [(bytes "a", bytes "1")]
    [SetTo (bytes "b") (bytes "2"); SetTo (bytes "a") (bytes "3"); DeleteNamed (bytes "b")] eq_refl _ _).
  - apply NoDup_singleton.
  - by repeat constructor.
Defined.

(** ** Numbers *)

Lemma query_set {A} (convert : list byte -> result (option A)) attributes ats name value v attributes' :
  collect denote_attr attributes = Ok ats -> no_nul name -> no_nul value -> convert value = Ok (Some v) ->
  SetAttribute attributes name value = Ok attributes' ->
  query_named (query_attribute convert) attributes' name = Ok (XML_NO_ERROR, Some v).
Proof.
  intros H Hn Hv Hc E. destruct (set_attribute_assoc _ _ _ _ H Hn Hv) as (a & E' & Ea). rewrite E in E'. injection E' as <-.
  pose proof (attribute_assoc _ _ name Ea) as Hat. rewrite assoc_set_lookup, bool_decide_eq_true_2 in Hat by done.
  unfold query_named, Attribute, query_attribute in *. destruct (FindAttribute attributes' name) as [[x|]|]; cbn [mbind result_bind] in *; [|done..].
  destruct (GetStr (a_value x)) as [w|]; cbn [mbind result_bind] in *; [|done]. injection Hat as ->. by rewrite Hc.
Qed.

Lemma digits_nul v : no_nul (print_d v).
Proof.
  apply Forall_forall. intros c Hc ->. by apply (print_d_no x00 v).
Qed.

(** A number that is set is the number that is queried. *)
Theorem numbers_kept attributes ats name v attributes' :
  collect denote_attr attributes = Ok ats -> no_nul name -> - 2 ^ 31 <= v < 2 ^ 31 ->
  SetAttribute_int attributes name v = Ok attributes' ->
  QueryIntAttribute attributes' name = Ok (XML_NO_ERROR, Some v).
Proof. intros H Hn Hv E. eapply query_set; [done..|apply digits_nul|by apply to_int_print|done]. Qed.

(** ** What [ShallowEqual] does not see *)

(** The names of the attributes are not compared. *)
Example equal_with_other_names :
  ShallowEqual (XMLElement (SetStr (bytes "e")) OPEN [Attr (SetStr (bytes "a")) (SetStr (bytes "1"))] [])
    (XMLElement (SetStr (bytes "e")) OPEN [Attr (SetStr (bytes "b")) (SetStr (bytes "1"))] []) = Ok true.
Proof. vm_compute. reflexivity. Qed.

(** A clone says the same, but for the children. *)
Example clone_says :
  match ShallowClone (XMLElement (SetStr (bytes "e")) OPEN [Attr (SetStr (bytes "a")) (SetStr (bytes "1"))] [NewText (bytes "t")]) with
  | Ok node => denote node
  | Err e => Err e
  end = Ok (Elem (bytes "e") [(bytes "a", bytes "1")] []).
Proof. vm_compute. reflexivity. Qed.
