(* ===== verification/XmlStream.v ===== *)
(** * Writing a document without its tree (src/tinyxml2/tinyxml2.cpp, class XMLPrinter)

    A program can call the printer itself: open an element, push its attributes,
    texts and numbers, close it.  Which tree such calls say is found by a machine
    with a stack of open elements; what the printer writes is then what it writes
    for a document with that tree. *)

From S2P Require Import Prelude Digits XmlText.
From S2P Require Import XmlTextSpec Xml XmlPrinter XmlTree.
From S2P Require Import XmlLoad XmlSave.
From S2P Require Import XmlRun.
From S2P Require Import XmlEdit.

(** ** The printer's functions for numbers *)

Definition PushAttribute_int (name : list byte) (v : Z) : XMLPrinter -> result XMLPrinter := PushAttribute name (ToStr_int v).
Definition PushAttribute_unsigned (name : list byte) (v : Z) : XMLPrinter -> result XMLPrinter := PushAttribute name (ToStr_unsigned v).
Definition PushAttribute_bool (name : list byte) (v : bool) : XMLPrinter -> result XMLPrinter := PushAttribute name (ToStr_bool v).

Definition PushText_int (v : Z) : XMLPrinter -> XMLPrinter := PushText (ToStr_int v) false.
Definition PushText_unsigned (v : Z) : XMLPrinter -> XMLPrinter := PushText (ToStr_unsigned v) false.
Definition PushText_bool (v : bool) : XMLPrinter -> XMLPrinter := PushText (ToStr_bool v) false.

Inductive value := VString (s : list byte) | VInt (z : Z) | VUnsigned (z : Z) | VBool (b : bool).

Definition value_text (v : value) : list byte :=
  match v with VString s => s | VInt z => ToStr_int z | VUnsigned z => ToStr_unsigned z | VBool b => ToStr_bool b end.

(** The calls a program makes. *)
Inductive call :=
| CallOpen (name : list byte)
| CallAttribute (name : list byte) (v : value)
| CallText (v : value)
| CallCData (text : list byte)
| CallComment (comment : list byte)
| CallDeclaration (v : list byte)
| CallUnknown (v : list byte)
| CallClose.

Definition run_call (c : call) (pr : XMLPrinter) : result XMLPrinter :=
  match c with
  | CallOpen name => Ok (OpenElement name pr)
  | CallAttribute name (VString s) => PushAttribute name s pr
  | CallAttribute name (VInt z) => PushAttribute_int name z pr
  | CallAttribute name (VUnsigned z) => PushAttribute_unsigned name z pr
  | CallAttribute name (VBool b) => PushAttribute_bool name b pr
  | CallText (VString s) => Ok (PushText s false pr)
  | CallText (VInt z) => Ok (PushText_int z pr)
  | CallText (VUnsigned z) => Ok (PushText_unsigned z pr)
  | CallText (VBool b) => Ok (PushText_bool b pr)
  | CallCData s => Ok (PushText s true pr)
  | CallComment s => Ok (PushComment s pr)
  | CallDeclaration s => Ok (PushDeclaration s pr)
  | CallUnknown s => Ok (PushUnknown s pr)
  | CallClose => CloseElement pr
  end.

Fixpoint run_calls (cs : list call) (pr : XMLPrinter) : result XMLPrinter :=
  match cs with [] => Ok pr | c :: cs => pr ← run_call c pr; run_calls cs pr end.

(** A document: the header, then the calls. *)
Definition stream (compact bom dec : bool) (cs : list call) : result XMLPrinter :=
  run_calls cs (PushHeader bom dec (new_XMLPrinter compact)).

(** ** Which tree the calls say *)

(** An open element: its name, its attributes, and its siblings in front. *)
Record frame := Frame { fr_name : list byte; fr_attrs : list (list byte * list byte); fr_before : list xml }.

(** The open elements, the innermost first, and what it holds so far. *)
Definition building : Type := list frame * list xml.

Definition build_call (c : call) (b : building) : option building :=
  let '(fs, body) := b in
  match c, fs with
  | CallOpen name, _ => Some (Frame name [] body :: fs, [])
  | CallAttribute name v, f :: fs =>
      if bool_decide (length body = O) then Some (Frame (fr_name f) (fr_attrs f ++ [(name, value_text v)]) (fr_before f) :: fs, []) else None
  | CallAttribute _ _, [] => None
  | CallText v, _ => Some (fs, body ++ [Plain (value_text v)])
  | CallCData s, _ => Some (fs, body ++ [Cdata s])
  | CallComment s, _ => Some (fs, body ++ [Remark_ s])
  | CallDeclaration s, _ => Some (fs, body ++ [Decl s])
  | CallUnknown s, _ => Some (fs, body ++ [Unk s])
  | CallClose, f :: fs => Some (fs, fr_before f ++ [Elem (fr_name f) (fr_attrs f) body])
  | CallClose, [] => None
  end.

Fixpoint build_calls (cs : list call) (b : building) : option building :=
  match cs with [] => Some b | c :: cs => b ← build_call c b; build_calls cs b end.

Definition build (cs : list call) : option (list xml) :=
  match build_calls cs ([], []) with Some ([], xs) => Some xs | _ => None end.

(** ** The calls for a tree *)

Definition attr_calls (ats : list (list byte * list byte)) : list call :=
  (fun a => CallAttribute a.1 (VString a.2)) <$> ats.

Fixpoint calls_of (x : xml) : list call :=
  match x with
  | Elem n ats body => CallOpen n :: attr_calls ats ++ concat (map calls_of body) ++ [CallClose]
  | Plain s => [CallText (VString s)]
  | Cdata s => [CallCData s]
  | Remark_ s => [CallComment s]
  | Decl s => [CallDeclaration s]
  | Unk s => [CallUnknown s]
  end.

Definition calls_all (xs : list xml) : list call := concat (map calls_of xs).

Lemma calls_all_app xs ys : calls_all (xs ++ ys) = calls_all xs ++ calls_all ys.
Proof. unfold calls_all. by rewrite map_app, concat_app. Qed.

(** A call with its value as a string. *)
Definition norm (c : call) : call :=
  match c with
  | CallAttribute name v => CallAttribute name (VString (value_text v))
  | CallText v => CallText (VString (value_text v))
  | c => c
  end.

Fixpoint frame_calls (fs : list frame) : list call :=
  match fs with
  | [] => []
  | f :: fs => frame_calls fs ++ calls_all (fr_before f) ++ CallOpen (fr_name f) :: attr_calls (fr_attrs f)
  end.

Definition building_calls (b : building) : list call := frame_calls b.1 ++ calls_all b.2.

Lemma build_call_spec c b b' : build_call c b = Some b' -> building_calls b' = building_calls b ++ [norm c].
Proof.
  destruct b as [fs body]. unfold building_calls.
  destruct c as [name|name v|v|s|s|s|s|]; cbn [build_call fst snd norm]; try (intros [= <-]; cbn [fst snd]; by rewrite calls_all_app, app_assoc).
  - intros [= <-]. cbn [fst snd frame_calls fr_name fr_attrs fr_before attr_calls fmap list_fmap calls_all map concat]. by rewrite !app_nil_r, <- app_assoc.
  - destruct fs as [|f fs]; [done|]. case_bool_decide as Hb; [|done]. destruct body; [|done]. intros [= <-].
    cbn [fst snd frame_calls fr_name fr_attrs fr_before calls_all map concat]. unfold attr_calls. rewrite fmap_app. cbn [fmap list_fmap fst snd].
    rewrite !app_nil_r, <- !app_assoc. cbn [app]. by rewrite <- ?app_assoc.
  - destruct fs as [|f fs]; [done|]. intros [= <-]. cbn [fst snd frame_calls]. rewrite calls_all_app. unfold calls_all at 2. cbn [map concat calls_of].
    rewrite ?app_nil_r, <- ?app_assoc. cbn [app]. by rewrite <- ?app_assoc.
Qed.

Lemma build_calls_spec cs : forall b b', build_calls cs b = Some b' -> building_calls b' = building_calls b ++ (norm <$> cs).
Proof.
  induction cs as [|c cs IH]; intros b b'; cbn [build_calls fmap list_fmap].
  - intros [= <-]. by rewrite app_nil_r.
  - destruct (build_call c b) as [b1|] eqn:E; cbn [mbind option_bind]; [|done]. intros H.
    rewrite (IH _ _ H), (build_call_spec _ _ _ E), <- app_assoc. done.
Qed.

Lemma build_spec cs xs : build cs = Some xs -> norm <$> cs = calls_all xs.
Proof.
  unfold build. destruct (build_calls cs ([], [])) as [[[|] ys]|] eqn:E; [|done..]. intros [= <-].
  pose proof (build_calls_spec _ _ _ E) as H. unfold building_calls in H. cbn in H. done.
Qed.

(** ** Running them *)

Lemma run_norm c pr : run_call (norm c) pr = run_call c pr.
Proof. by destruct c as [?|? []|[]|?|?|?|?|]. Qed.

Lemma run_calls_norm cs : forall pr, run_calls (norm <$> cs) pr = run_calls cs pr.
Proof.
  induction cs as [|c cs IH]; intros pr; cbn [fmap list_fmap run_calls]; [done|]. rewrite run_norm.
  destruct (run_call c pr); cbn [mbind result_bind]; [apply IH|done].
Qed.

Lemma run_calls_app cs ds : forall pr, run_calls (cs ++ ds) pr = (pr ← run_calls cs pr; run_calls ds pr).
Proof.
  induction cs as [|c cs IH]; intros pr; cbn [app run_calls mbind result_bind]; [done|].
  destruct (run_call c pr); cbn [mbind result_bind]; [apply IH|done].
Qed.

Lemma attributes_run atts : forall ats pr, collect denote_attr atts = Ok ats -> push_attributes atts pr = run_calls (attr_calls ats) pr.
Proof.
  induction atts as [|a atts IH]; intros ats pr; cbn [collect push_attributes]; [by intros [= <-]|].
  destruct (denote_attr a) as [[n v]|] eqn:Ea; [|done]. apply denote_attr_parts in Ea as [-> ->]. cbn [mbind result_bind].
  destruct (collect denote_attr atts) as [ats'|]; cbn [mbind result_bind]; [|done]. intros [= <-].
  cbn [attr_calls fmap list_fmap run_calls run_call fst snd]. destruct (PushAttribute n v pr); cbn [mbind result_bind]; [by apply IH|done].
Qed.

Lemma all_run (xs : list xml) :
  Forall (fun x => forall node pr, denote node = Ok x -> Accept node pr = run_calls (calls_of x) pr) xs ->
  forall nodes pr, denote_all nodes = Ok xs -> accept_all nodes pr = run_calls (calls_all xs) pr.
Proof.
  induction 1 as [|x xs Hx _ IH]; intros nodes pr Hd; apply collect_Forall2 in Hd; inversion Hd as [|node ? nodes' ? Ex Exs]; subst; [done|].
  cbn [accept_all calls_all map concat]. rewrite run_calls_app, (Hx node pr Ex).
  destruct (run_calls (calls_of x) pr); cbn [mbind result_bind]; [|done]. apply IH. by apply collect_Forall2.
Qed.

Lemma node_run x : forall node pr, denote node = Ok x -> Accept node pr = run_calls (calls_of x) pr.
Proof.
  induction x as [n ats body Hb|s|s|s|s|s] using xml_nested_ind; intros node pr Hd; apply denote_inv in Hd.
  2-6: destruct Hd as (v & -> & Ev); cbn [Accept calls_of run_calls run_call]; by rewrite Ev.
  destruct Hd as (v & c & atts & nodes & -> & Ev & Ea & Ex). rewrite accept_element_eq. unfold visit_enter_element. rewrite Ev.
  cbn [mbind result_bind calls_of run_calls run_call]. fold (calls_all body). rewrite run_calls_app, (attributes_run _ _ _ Ea).
  destruct (run_calls (attr_calls ats) _) as [pr1|]; cbn [mbind result_bind]; [|done].
  rewrite run_calls_app, (all_run body Hb nodes pr1 Ex). destruct (run_calls (calls_all body) pr1) as [pr2|]; cbn [mbind result_bind]; [|done].
  cbn [run_calls run_call]. by destruct (CloseElement pr2).
Qed.

(** Calls of a tree are what visiting a document that says it does. *)
Lemma nodes_run xs nodes pr : denote_all nodes = Ok xs -> accept_all nodes pr = run_calls (calls_all xs) pr.
Proof. apply all_run, Forall_forall. intros x _. apply node_run. Qed.

(** ** Whole documents *)

Lemma stream_run compact bom dec cs xs nodes :
  build cs = Some xs -> denote_all nodes = Ok (if (dec : bool) then Decl xml_declaration :: xs else xs) ->
  stream compact bom dec cs = accept_all nodes (document_printer compact bom).
Proof.
  intros Hb Hd. rewrite (nodes_run _ _ _ Hd). unfold stream. rewrite <- run_calls_norm, (build_spec _ _ Hb).
  by destruct bom, dec.
Qed.

(** A string that a node can hold. *)
Lemma attributes_exist ats : attrs_ok ats = true -> exists atts, collect denote_attr atts = Ok ats.
Proof.
  unfold attrs_ok. intros [H _]%andb_true_iff. induction ats as [|[n v] ats IH]; [by exists nil|]. cbn [forallb] in H.
  apply andb_true_iff in H as [Ha H]. destruct (IH H) as [atts E]. apply attr_ok_parts in Ha as (Hn & Hp & _). cbn [fst snd] in *.
  exists (Attr (SetStr n) (SetStr v) :: atts). apply collect_Forall2. constructor; [|by apply collect_Forall2].
  unfold denote_attr. cbn [a_name a_value]. by rewrite (set_str_reads n (name_nul n Hn)), (set_str_reads v (plain_nul v Hp)).
Qed.

Lemma node_exists x : tree_ok x = true -> exists node, denote node = Ok x.
Proof.
  induction x as [n ats body Hb|s|s|s|s|s] using xml_nested_ind; cbn [tree_ok]; intros Hok; rewrite ?andb_true_iff in Hok; destruct_and?.
  - assert (Hnodes : exists nodes, denote_all nodes = Ok body).
    { clear -Hb H0. induction Hb as [|x xs Hx _ IH]; [by exists nil|]. cbn [forallb] in H0. apply andb_true_iff in H0 as [H1 H2].
      destruct (Hx H1) as [node E], (IH H2) as [nodes Es]. exists (node :: nodes). apply collect_Forall2.
      constructor; [done|by apply collect_Forall2]. }
    destruct Hnodes as [nodes En]. destruct (attributes_exist ats) as [atts Ea]; [done|].
    exists (XMLElement (SetStr n) OPEN atts nodes). rewrite denote_element, set_str_reads by (by apply name_nul).
    cbn [mbind result_bind]. by rewrite Ea, En.
  - exists (XMLText (SetStr s) false). cbn [denote]. by rewrite set_str_reads by (by apply plain_nul).
  - exists (XMLText (SetStr s) true). cbn [denote]. by rewrite set_str_reads by (by apply plain_nul).
  - exists (XMLComment (SetStr s)). cbn [denote]. by rewrite set_str_reads by (by apply plain_nul).
  - exists (XMLDeclaration (SetStr s)). cbn [denote]. by rewrite set_str_reads by (by apply plain_nul).
  - exists (XMLUnknown (SetStr s)). cbn [denote]. by rewrite set_str_reads by (by apply plain_nul).
Qed.

Lemma nodes_exist xs : forallb tree_ok xs = true -> exists nodes, denote_all nodes = Ok xs.
Proof.
  induction xs as [|x xs IH]; [by exists nil|]. cbn [forallb]. intros [Hx Hxs]%andb_true_iff.
  destruct (node_exists x Hx) as [node E], (IH Hxs) as [nodes Es]. exists (node :: nodes). apply collect_Forall2.
  constructor; [done|by apply collect_Forall2].
Qed.

(** C31: A document can be written without its tree.  Calls of the printer -
    strings, numbers and truth values, with or without the header - that open and
    close elements in turn and push attributes behind an opening say a tree; they run
    without a fault, leave no element open, and what they print is loaded as this
    tree, and is byte for byte what [SaveFile] writes for any document that says
    it. *)
Theorem streamed_document compact bom dec cs xs :
  build cs = Some xs -> let ys := if (dec : bool) then Decl xml_declaration :: xs else xs in document_ok ys = true ->
  exists pr nodes, stream compact bom dec cs = Ok pr /\ stack pr = [] /\
    LoadFile (new_XMLDocument default_options) (Some (out pr)) true =
      Ok (XML_NO_ERROR, Document default_options bom XML_NO_ERROR nodes) /\
    denote_all nodes = Ok ys /\
    forall doc, denote_all (d_children doc) = Ok ys -> d_writeBOM doc = bom -> processEntities (d_options doc) = true ->
      SaveFile doc true compact = Ok (d_errorID doc, doc, Some (out pr)).
Proof.
  intros Hb ys Hok. destruct (document_ok_parts ys Hok) as (_ & _ & Ht). destruct (nodes_exist ys Ht) as [nodes0 E0].
  destruct (printed_loads compact bom nodes0 ys E0 Hok) as (pr & nodes & Ea & Es & El & Ed). exists pr, nodes.
  rewrite (stream_run compact bom dec cs xs nodes0 Hb E0). do 4 (split; [done|]). intros doc Hd Hbom He.
  unfold SaveFile, accept_document.
  assert (visit_enter_document doc (new_XMLPrinter compact) = document_printer compact bom) as ->.
  { unfold visit_enter_document. rewrite He, Hbom. by destruct bom. }
  by rewrite (nodes_run _ _ _ Hd), <- (nodes_run _ _ _ E0), Ea.
Qed.

Definition demo_calls : list call :=
  [CallOpen (bytes "cfg"); CallAttribute (bytes "version") (VInt (-2)); CallOpen (bytes "port"); CallText (VUnsigned 6379); CallClose;
   CallComment (bytes " to do "); CallOpen (bytes "on"); CallAttribute (bytes "v") (VBool true); CallClose; CallClose].

Lemma streamed_document_witness :
  exists pr nodes, stream true false true demo_calls = Ok pr /\
    LoadFile (new_XMLDocument default_options) (Some (out pr)) true =
      Ok (XML_NO_ERROR, Document default_options false XML_NO_ERROR nodes) /\
    denote_all nodes = Ok [Decl xml_declaration; Elem (bytes "cfg") [(bytes "version", bytes "-2")]
      [Elem (bytes "port") [] [Plain (bytes "6379")]; Remark_ (bytes " to do "); Elem (bytes "on") [(bytes "v", bytes "1")] []]].
Proof.
  refine (match streamed_document true false true demo_calls
    [Elem (bytes "cfg") [(bytes "version", bytes "-2")]
      [Elem (bytes "port") [] [Plain (bytes "6379")]; Remark_ (bytes " to do "); Elem (bytes "on") [(bytes "v", bytes "1")] []]] _ _ with
    | ex_intro _ pr (ex_intro _ nodes (conj H1 (conj _ (conj H2 (conj H3 _))))) => ex_intro _ pr (ex_intro _ nodes (conj H1 (conj H2 H3))) end);
    vm_compute; reflexivity.
Defined.

(** Closing what is not open, and an attribute behind a text. *)
Example close_too_much : stream true false false [CallClose] = Err Undefined.
Proof. by vm_compute. Qed.
Example late_attribute :
  stream true false false [CallOpen (bytes "a"); CallText (VInt 1); CallAttribute (bytes "b") (VInt 2)] = Err AssertFailed.
Proof. by vm_compute. Qed.
