(* ===== verification/XmlDom.v ===== *)
(** * The tree of nodes as it is linked (src/tinyxml2/tinyxml2.cpp)

    A node knows its parent, its first and last child and its siblings.  The
    nodes are a heap, the links are fields that are loaded and stored; a link
    into the void is [Undefined].  The abstract view of such a heap is the list of
    children of every node. *)

From S2P Require Import Prelude.

Inductive field := Parent | First | Last | Prev | Next.

#[export] Instance field_eq_dec : EqDecision field.
Proof. solve_decision. Defined.

(** The links of an [XMLNode]. *)
Record links := Links {
  _parent : option nat;
  _firstChild : option nat;
  _lastChild : option nat;
  _prev : option nat;
  _next : option nat;
}.

Abbreviation heap := (gmap nat links).

(** [XMLNode::XMLNode] *)
Definition new_links : links := Links None None None None None.

Definition get (f : field) (n : links) : option nat :=
  match f with
  | Parent => _parent n | First => _firstChild n | Last => _lastChild n | Prev => _prev n | Next => _next n
  end.

Definition set (f : field) (v : option nat) (n : links) : links :=
  Links (if f is Parent then v else _parent n) (if f is First then v else _firstChild n)
    (if f is Last then v else _lastChild n) (if f is Prev then v else _prev n) (if f is Next then v else _next n).

Definition load (h : heap) (a : nat) (f : field) : result (option nat) :=
  n ← of_option Undefined (h !! a); Ok (get f n).

Definition store (h : heap) (a : nat) (f : field) (v : option nat) : result heap :=
  n ← of_option Undefined (h !! a); Ok (<[a := set f v n]> h).

(** ** Editing *)

Definition Unlink (h : heap) (this child : nat) : result heap :=
  p ← load h child Parent; _ ← c_assert (bool_decide (p = Some this));
  first ← load h this First;
  h ← (if bool_decide (first = Some child) then n ← load h child Next; store h this First n else Ok h);
  last ← load h this Last;
  h ← (if bool_decide (last = Some child) then p ← load h child Prev; store h this Last p else Ok h);
  prev ← load h child Prev;
  h ← (match prev with Some p => n ← load h child Next; store h p Next n | None => Ok h end);
  next ← load h child Next;
  h ← (match next with Some n => p ← load h child Prev; store h n Prev p | None => Ok h end);
  store h child Parent None.

Definition InsertEndChild (h : heap) (this addThis : nat) : result heap :=
  last ← load h this Last; first ← load h this First;
  h ← (match last with
       | Some l =>
           _ ← c_assert (bool_decide (is_Some first));
           n ← load h l Next; _ ← c_assert (bool_decide (n = None));
           h ← store h l Next (Some addThis); h ← store h addThis Prev (Some l); h ← store h this Last (Some addThis);
           store h addThis Next None
       | None =>
           _ ← c_assert (bool_decide (first = None));
           h ← store h this Last (Some addThis); h ← store h this First (Some addThis);
           h ← store h addThis Prev None; store h addThis Next None
       end);
  store h addThis Parent (Some this).

Definition InsertFirstChild (h : heap) (this addThis : nat) : result heap :=
  first ← load h this First; last ← load h this Last;
  h ← (match first with
       | Some f =>
           _ ← c_assert (bool_decide (is_Some last));
           p ← load h f Prev; _ ← c_assert (bool_decide (p = None));
           h ← store h f Prev (Some addThis); h ← store h addThis Next (Some f); h ← store h this First (Some addThis);
           store h addThis Prev None
       | None =>
           _ ← c_assert (bool_decide (last = None));
           h ← store h this Last (Some addThis); h ← store h this First (Some addThis);
           h ← store h addThis Prev None; store h addThis Next None
       end);
  store h addThis Parent (Some this).

Definition InsertAfterChild (h : heap) (this afterThis addThis : nat) : result heap :=
  p ← load h afterThis Parent; _ ← c_assert (bool_decide (p = Some this));
  next ← load h afterThis Next;
  match next with
  | None => InsertEndChild h this addThis
  | Some n =>
      h ← store h addThis Prev (Some afterThis); h ← store h addThis Next (Some n);
      h ← store h n Prev (Some addThis); h ← store h afterThis Next (Some addThis);
      store h addThis Parent (Some this)
  end.

(** [DELETE_NODE], with the destructor, and [DeleteChildren]: children first,
    then the node leaves its parent and is freed. *)
Fixpoint delete_node (fuel : nat) (h : heap) (node : nat) : result heap :=
  match fuel with
  | O => Err NoFuel
  | S fuel =>
      h ← delete_children fuel h node;
      parent ← load h node Parent;
      h ← (match parent with Some p => Unlink h p node | None => Ok h end);
      Ok (delete node h)
  end
with delete_children (fuel : nat) (h : heap) (this : nat) : result heap :=
  match fuel with
  | O => Err NoFuel
  | S fuel =>
      first ← load h this First;
      match first with
      | None => h ← store h this Last None; store h this First None
      | Some node => h ← Unlink h this node; h ← delete_node fuel h node; delete_children fuel h this
      end
  end.

(** [DeleteChild] *)
Definition DeleteChild (fuel : nat) (h : heap) (this node : nat) : result heap :=
  p ← load h node Parent; _ ← c_assert (bool_decide (p = Some this));
  delete_node fuel h node.
