(* ===== verification/XmlDomSpec.v ===== *)
(** * Editing refines lists of children

    A heap of nodes stands for the list of children of every node: inserting and
    unlinking do to it what their names say, and deleting a node frees the nodes
    below it, each once. *)

From S2P Require Import Prelude XmlDom.

#[local] Set Warnings "-clear-no-such-hyp".

(** ** Loads and stores *)

Definition fld (h : heap) (a : nat) (f : field) : option (option nat) := get f <$> h !! a.

Definition put (h : heap) (a : nat) (f : field) (v : option nat) : heap := alter (set f v) a h.

Lemma load_fld h a f v : fld h a f = Some v -> load h a f = Ok v.
Proof. unfold fld, load. destruct (h !! a); cbn; [by intros [= ->]|done]. Qed.

Lemma store_put h a f v : is_Some (h !! a) -> store h a f v = Ok (put h a f v).
Proof.
  intros [n E]. unfold store, put. rewrite E. cbn [of_option mbind result_bind]. f_equal. apply map_eq. intros b.
  destruct (decide (a = b)) as [->|]; [by rewrite lookup_insert_eq, lookup_alter_eq, E|].
  by rewrite lookup_insert_ne, lookup_alter_ne.
Qed.

Lemma get_set f g v n : get g (set f v n) = if decide (g = f) then v else get g n.
Proof. by destruct f, g. Qed.

Lemma fld_put h a f v b g :
  fld (put h a f v) b g = if decide (b = a) then if decide (g = f) then (fun _ => v) <$> fld h b g else fld h b g else fld h b g.
Proof.
  unfold fld, put. destruct (decide (b = a)) as [->|Hb]; [|by rewrite lookup_alter_ne].
  rewrite lookup_alter_eq. destruct (h !! a) as [n|]; cbn; [|by destruct (decide _)].
  rewrite get_set. by destruct (decide (g = f)).
Qed.

Lemma alive_put h a f v b : is_Some (put h a f v !! b) <-> is_Some (h !! b).
Proof.
  unfold put. destruct (decide (b = a)) as [->|Hb]; [|by rewrite lookup_alter_ne].
  rewrite lookup_alter_eq. by rewrite fmap_is_Some.
Qed.

Lemma fld_alive h a f v : fld h a f = Some v -> is_Some (h !! a).
Proof. unfold fld. destruct (h !! a); [by eexists|done]. Qed.

(** ** Lists of siblings *)

Definition hd_or (nxt : option nat) (l : list nat) : option nat := match l with [] => nxt | x :: _ => Some x end.
Definition last_or (prv : option nat) (l : list nat) : option nat := match last l with None => prv | Some x => Some x end.

Fixpoint dll (h : heap) (p : nat) (prv : option nat) (l : list nat) (nxt : option nat) : Prop :=
  match l with
  | [] => True
  | x :: l => fld h x Parent = Some (Some p) /\ fld h x Prev = Some prv /\ fld h x Next = Some (hd_or nxt l) /\
      dll h p (Some x) l nxt
  end.

Lemma last_or_cons prv x l : last_or (Some x) l = last_or prv (x :: l).
Proof. unfold last_or. rewrite last_cons. by destruct (last l). Qed.

Lemma hd_or_app nxt l l' : hd_or nxt (l ++ l') = hd_or (hd_or nxt l') l.
Proof. by destruct l. Qed.

Lemma dll_app h p prv l l' nxt :
  dll h p prv (l ++ l') nxt <-> dll h p prv l (hd_or nxt l') /\ dll h p (last_or prv l) l' nxt.
Proof.
  revert prv. induction l as [|x l IH]; intros prv; cbn [app dll]; [by unfold last_or; cbn; tauto|].
  rewrite IH, hd_or_app, (last_or_cons prv). tauto.
Qed.

Lemma dll_parent h p prv l nxt x : dll h p prv l nxt -> x ∈ l -> fld h x Parent = Some (Some p).
Proof.
  revert prv. induction l as [|y l IH]; intros prv; [by intros _ ?%elem_of_nil|]. intros (H & _ & _ & Hl).
  intros [->|Hx]%elem_of_cons; [done|by eapply IH].
Qed.

Definition sibling_field (f : field) : Prop := f = Parent \/ f = Prev \/ f = Next.

Lemma dll_ext h h' p prv l nxt :
  (forall x f, x ∈ l -> sibling_field f -> fld h' x f = fld h x f) -> dll h p prv l nxt -> dll h' p prv l nxt.
Proof.
  revert prv. induction l as [|x l IH]; intros prv Hext; [done|]. cbn [dll]. unfold sibling_field in Hext.
  rewrite !Hext by (set_solver + || auto). intros (H1 & H2 & H3 & H4). split_and!; [done..|].
  apply IH; [|done]. intros y f Hy. apply Hext. by right.
Qed.

(** ** The abstract view *)

Record represents (h : heap) (K : gmap nat (list nat)) : Prop := {
  r_dom : forall a, is_Some (h !! a) <-> is_Some (K !! a);
  r_kids : forall a l, K !! a = Some l ->
    fld h a First = Some (head l) /\ fld h a Last = Some (last l) /\ NoDup l /\ dll h a None l None;
  r_parent : forall x p, fld h x Parent = Some (Some p) -> exists l, K !! p = Some l /\ x ∈ l;
}.

Lemma child_of h K p l x : represents h K -> K !! p = Some l -> x ∈ l -> fld h x Parent = Some (Some p).
Proof. intros H Hl Hx. destruct (r_kids _ _ H p l Hl) as (_ & _ & _ & Hd). by eapply dll_parent. Qed.

(** One list of children changes, from [l] to [l']. *)
Lemma represents_change h K h' this l l' :
  represents h K -> K !! this = Some l ->
  (forall a, is_Some (h' !! a) <-> is_Some (h !! a)) ->
  (forall a, a <> this -> fld h' a First = fld h a First /\ fld h' a Last = fld h a Last) ->
  (forall x f, x ∉ l -> x ∉ l' -> sibling_field f -> fld h' x f = fld h x f) ->
  fld h' this First = Some (head l') -> fld h' this Last = Some (last l') -> NoDup l' -> dll h' this None l' None ->
  (forall x, x ∈ l -> x ∉ l' -> fld h' x Parent = Some None) ->
  (forall x, x ∈ l' -> x ∉ l -> fld h x Parent = Some None) ->
  represents h' (<[this := l']> K).
Proof.
  intros H Hl Hdom Hfl Hsib Hf Hla Hnd Hdll Hrem Hadd. split.
  - intros a. rewrite Hdom, (r_dom _ _ H). destruct (decide (a = this)) as [->|Ha]; [|by rewrite lookup_insert_ne].
    rewrite lookup_insert_eq, Hl. split; by eexists.
  - intros a la. destruct (decide (a = this)) as [->|Ha]; [rewrite lookup_insert_eq; by intros [= <-]|].
    rewrite lookup_insert_ne by done. intros E. destruct (r_kids _ _ H a la E) as (H1 & H2 & H3 & H4).
    destruct (Hfl a Ha) as [-> ->]. split_and!; [done..|]. apply (dll_ext h); [|done]. intros x f Hx Hf'.
    pose proof (child_of _ _ _ _ _ H E Hx) as Hp. apply Hsib; [|intros Hx'|done].
    + intros Hx'. pose proof (child_of _ _ _ _ _ H Hl Hx') as Hp'. congruence.
    + destruct (decide (x ∈ l)) as [Hx2|Hx2]; [pose proof (child_of _ _ _ _ _ H Hl Hx2); congruence|].
      pose proof (Hadd x Hx' Hx2). congruence.
  - intros x p Hp. destruct (decide (x ∈ l')) as [Hx'|Hx'].
    { rewrite (dll_parent _ _ _ _ _ _ Hdll Hx') in Hp. injection Hp as <-. exists l'. by rewrite lookup_insert_eq. }
    destruct (decide (x ∈ l)) as [Hx|Hx]; [rewrite (Hrem x Hx Hx') in Hp; done|].
    rewrite (Hsib x Parent Hx Hx') in Hp by by left. destruct (r_parent _ _ H x p Hp) as (lp & Elp & Hin).
    exists lp. rewrite lookup_insert_ne; [done|]. intros ->. congruence.
Qed.

(** ** The operations *)

Ltac stores := repeat (rewrite store_put by (rewrite ?alive_put; done); cbn [mbind result_bind]).
Ltac flds := rewrite ?fld_put; repeat case_decide; try congruence.

Lemma alive_kid h K p l x : represents h K -> K !! p = Some l -> x ∈ l -> is_Some (h !! x).
Proof. intros H Hl Hx. by eapply fld_alive, child_of. Qed.

Lemma root_not_kid h K p l x : represents h K -> K !! p = Some l -> fld h x Parent = Some None -> x ∉ l.
Proof. intros H Hl Hx Hin. pose proof (child_of _ _ _ _ _ H Hl Hin). congruence. Qed.

Lemma alive_key h K a l : represents h K -> K !! a = Some l -> is_Some (h !! a).
Proof. intros H Hl. apply (r_dom _ _ H). by eexists. Qed.

(** The ends of a list of siblings get other neighbours. *)
Lemma dll_next h h' p prv l nxt v :
  NoDup l -> dll h p prv l nxt ->
  (forall x, x ∈ l -> fld h' x Parent = fld h x Parent /\ fld h' x Prev = fld h x Prev) ->
  (forall x, x ∈ l -> last l <> Some x -> fld h' x Next = fld h x Next) ->
  (forall x, last l = Some x -> fld h' x Next = Some v) ->
  dll h' p prv l v.
Proof.
  revert prv. induction l as [|x l IH]; intros prv Hnd Hd Hsame Hn Hv; [done|]. apply NoDup_cons in Hnd as [Hx Hnd].
  destruct Hd as (H1 & H2 & H3 & Hd). destruct (Hsame x ltac:(by left)) as [E1 E2]. cbn [dll].
  rewrite E1, E2. split_and!; [done..| |].
  - destruct l as [|y l]; [by apply Hv|]. rewrite Hn; [done|by left|].
    rewrite last_cons_cons. intros E%last_Some_elem_of. done.
  - apply IH; [done..|intros y Hy; apply Hsame; by right| |].
    + intros y Hy Hly. apply Hn; [by right|]. rewrite last_cons. destruct (last l) eqn:El; [done|].
      apply last_None in El as ->. by apply elem_of_nil in Hy.
    + intros y Hly. apply Hv. rewrite last_cons. by rewrite Hly.
Qed.

Lemma dll_prev h h' p prv l nxt v :
  NoDup l -> dll h p prv l nxt ->
  (forall x, x ∈ l -> fld h' x Parent = fld h x Parent /\ fld h' x Next = fld h x Next) ->
  (forall x, x ∈ l -> head l <> Some x -> fld h' x Prev = fld h x Prev) ->
  (forall x, head l = Some x -> fld h' x Prev = Some v) ->
  dll h' p v l nxt.
Proof.
  destruct l as [|x l]; [done|]. intros [Hx Hnd]%NoDup_cons (H1 & H2 & H3 & Hd) Hsame Hp Hv.
  destruct (Hsame x ltac:(by left)) as [E1 E2]. cbn [dll]. rewrite E1, E2. split_and!; [done|by apply Hv|done|].
  apply (dll_ext h); [|done]. intros y f Hy [-> | [-> | ->]]; try (apply Hsame; by right).
  apply Hp; [by right|]. intros [= ->]. done.
Qed.

Lemma elem_middle (x add : nat) l1 l2 : x ∈ l1 ++ add :: l2 <-> x = add \/ x ∈ l1 ++ l2.
Proof. rewrite !elem_of_app, elem_of_cons. tauto. Qed.

Lemma NoDup_middle (add : nat) l1 l2 : NoDup (l1 ++ add :: l2) <-> (add ∉ l1 ++ l2) /\ NoDup (l1 ++ l2).
Proof. rewrite <- Permutation_middle, NoDup_cons. done. Qed.

(** A root becomes a child, between [l1] and [l2]. *)
Lemma represents_insert h K h' this l1 l2 add :
  represents h K -> K !! this = Some (l1 ++ l2) -> fld h add Parent = Some None ->
  (forall a, is_Some (h' !! a) <-> is_Some (h !! a)) ->
  fld h' add Parent = Some (Some this) -> fld h' add Prev = Some (last l1) -> fld h' add Next = Some (head l2) ->
  (forall x, last l1 = Some x -> fld h' x Next = Some (Some add)) ->
  (forall x, head l2 = Some x -> fld h' x Prev = Some (Some add)) ->
  fld h' this First = Some (head (l1 ++ add :: l2)) -> fld h' this Last = Some (last (l1 ++ add :: l2)) ->
  (forall a, a <> this -> fld h' a First = fld h a First /\ fld h' a Last = fld h a Last) ->
  (forall x f, x <> add -> sibling_field f -> (f = Next -> last l1 <> Some x) -> (f = Prev -> head l2 <> Some x) ->
     fld h' x f = fld h x f) ->
  represents h' (<[this := l1 ++ add :: l2]> K).
Proof.
  intros H Hl Hadd Hdom Hp Hpr Hnx Hlast Hhead Hf Hla Hfl Hsame. pose proof (root_not_kid _ _ _ _ _ H Hl Hadd) as Hnl.
  destruct (r_kids _ _ H this _ Hl) as (_ & _ & Hnd & Hd).
  assert (Hnd' : NoDup (l1 ++ add :: l2)) by (by apply NoDup_middle).
  assert (Hne : forall x, x ∈ l1 ++ l2 -> x <> add) by (by intros x Hx ->).
  apply NoDup_app in Hnd as (N1 & N12 & N2). apply dll_app in Hd as [D1 D2].
  refine (represents_change _ _ _ _ _ _ H Hl Hdom Hfl _ Hf Hla Hnd' _ _ _).
  - intros x f Hx Hx' Hsf. rewrite elem_middle in Hx'. apply Hsame; [tauto|done| |]; intros _ E; apply Hx, elem_of_app.
    + left. by apply last_Some_elem_of.
    + right. by apply head_Some_elem_of.
  - assert (Hs1 : forall x f, x ∈ l1 -> sibling_field f -> (f = Next -> last l1 <> Some x) -> fld h' x f = fld h x f).
    { intros x f Hx Hsf Hfn. apply Hsame; [apply Hne, elem_of_app; by left|done..|].
      intros _ E%head_Some_elem_of. by apply (N12 x). }
    assert (Hs2 : forall x f, x ∈ l2 -> sibling_field f -> (f = Prev -> head l2 <> Some x) -> fld h' x f = fld h x f).
    { intros x f Hx Hsf Hfn. apply Hsame; [apply Hne, elem_of_app; by right|done| |done].
      intros _ E%last_Some_elem_of. by apply (N12 x). }
    unfold sibling_field in Hs1, Hs2. apply dll_app. cbn [hd_or dll]. split; [|split_and!].
    + apply (dll_next h _ _ _ _ _ _ N1 D1); [|intros x Hx Hlx; by apply Hs1; auto|done].
      intros x Hx. split; apply Hs1; auto; done.
    + done.
    + rewrite Hpr. unfold last_or. by destruct (last l1).
    + rewrite Hnx. by destruct l2.
    + apply (dll_prev h _ _ _ _ _ _ N2 D2); [|intros x Hx Hlx; by apply Hs2; auto|done].
      intros x Hx. split; apply Hs2; auto; done.
  - intros x Hx Hx'. rewrite elem_middle in Hx'. tauto.
  - intros x Hx Hx'. rewrite elem_middle in Hx. destruct Hx as [->|Hx]; [done|tauto].
Qed.

(** Where a store of another field or node is not seen. *)
Ltac unseen :=
  repeat match goal with
  | |- forall _, _ => intros ?
  | H : sibling_field ?f |- _ => destruct H as [-> | [-> | ->]]
  | |- _ /\ _ => split
  end; rewrite ?fld_put; repeat case_decide; subst; try congruence; naive_solver.

Lemma fld_fmap h a f (v : option nat) : is_Some (h !! a) -> (fun _ => v) <$> fld h a f = Some v.
Proof. unfold fld. by intros [n ->]. Qed.

Lemma insert_end_spec h K this l add :
  represents h K -> K !! this = Some l -> fld h add Parent = Some None -> add <> this ->
  exists h', InsertEndChild h this add = Ok h' /\ represents h' (<[this := l ++ [add]]> K).
Proof.
  intros H Hl Hadd Hne. pose proof (root_not_kid _ _ _ _ _ H Hl Hadd) as Hnl. pose proof (fld_alive _ _ _ _ Hadd) as Ha.
  pose proof (alive_key _ _ _ _ H Hl) as Ht. destruct (r_kids _ _ H this l Hl) as (Hf & Hla & Hnd & Hd).
  unfold InsertEndChild. rewrite (load_fld _ _ _ _ Hf), (load_fld _ _ _ _ Hla). cbn [mbind result_bind].
  destruct (last l) as [z|] eqn:Ez.
  - apply last_Some_elem_of in Ez as Hz. pose proof (alive_kid _ _ _ _ _ H Hl Hz) as Haz.
    assert (Hza : z <> add) by (intros ->; done).
    assert (Hzn : fld h z Next = Some None).
    { apply last_Some in Ez as [l0 ->]. by apply dll_app in Hd as [_ (_ & _ & ? & _)]. }
    assert (is_Some (head l)) as [y Ey] by (destruct l; [done|by eexists]). rewrite Ey.
    rewrite bool_decide_eq_true_2 by by eexists. cbn [c_assert mbind result_bind].
    rewrite (load_fld _ _ _ _ Hzn). cbn. stores. eexists. split; [done|].
    assert (Hk : K !! this = Some (l ++ [])) by by rewrite app_nil_r.
    refine (represents_insert _ _ _ _ _ _ _ H Hk Hadd _ _ _ _ _ _ _ _ _ _).
    + intros a. by rewrite !alive_put.
    + flds. by rewrite fld_fmap.
    + rewrite Ez. flds. by rewrite fld_fmap.
    + flds. by rewrite fld_fmap.
    + rewrite Ez. intros x [= <-]. flds; by rewrite fld_fmap.
    + done.
    + flds; rewrite Hf; by destruct l.
    + flds; rewrite Hla; by rewrite last_snoc.
    + unseen.
    + rewrite Ez. unseen.
  - apply last_None in Ez as ->. cbn. stores. eexists. split; [done|].
    refine (represents_insert _ _ _ _ [] [] _ H Hl Hadd _ _ _ _ _ _ _ _ _ _); try (flds; by rewrite fld_fmap); try done.
    + intros a. by rewrite !alive_put.
    + unseen.
    + unseen.
Qed.

Lemma insert_first_spec h K this l add :
  represents h K -> K !! this = Some l -> fld h add Parent = Some None -> add <> this ->
  exists h', InsertFirstChild h this add = Ok h' /\ represents h' (<[this := add :: l]> K).
Proof.
  intros H Hl Hadd Hne. pose proof (root_not_kid _ _ _ _ _ H Hl Hadd) as Hnl. pose proof (fld_alive _ _ _ _ Hadd) as Ha.
  pose proof (alive_key _ _ _ _ H Hl) as Ht. destruct (r_kids _ _ H this l Hl) as (Hf & Hla & Hnd & Hd).
  unfold InsertFirstChild. rewrite (load_fld _ _ _ _ Hf), (load_fld _ _ _ _ Hla). cbn [mbind result_bind].
  destruct l as [|z l].
  - cbn. stores. eexists. split; [done|].
    refine (represents_insert _ _ _ _ [] [] _ H Hl Hadd _ _ _ _ _ _ _ _ _ _); try (flds; by rewrite fld_fmap); try done.
    + intros a. by rewrite !alive_put.
    + unseen.
    + unseen.
  - assert (Hz : z ∈ z :: l) by by left. pose proof (alive_kid _ _ _ _ _ H Hl Hz) as Haz.
    assert (Hza : z <> add) by (intros ->; done). cbn [head]. destruct Hd as (_ & Hzp & _).
    assert (is_Some (last (z :: l))) as [y Ey] by (rewrite last_cons; by destruct (last l); eexists). rewrite Ey.
    rewrite bool_decide_eq_true_2 by by eexists. cbn [c_assert mbind result_bind].
    rewrite (load_fld _ _ _ _ Hzp). cbn. stores. eexists. split; [done|].
    refine (represents_insert _ _ _ _ [] (z :: l) _ H Hl Hadd _ _ _ _ _ _ _ _ _ _); try (flds; by rewrite fld_fmap).
    + intros a. by rewrite !alive_put.
    + done.
    + intros x [= <-]. flds; by rewrite fld_fmap.
    + cbn [app]. rewrite last_cons, Ey. flds; by rewrite Hla, Ey.
    + unseen.
    + cbn [head]. unseen.
Qed.

Lemma insert_after_spec h K this l1 l2 after add :
  represents h K -> K !! this = Some (l1 ++ after :: l2) -> fld h add Parent = Some None -> add <> this ->
  exists h', InsertAfterChild h this after add = Ok h' /\ represents h' (<[this := l1 ++ after :: add :: l2]> K).
Proof.
  intros H Hl Hadd Hne. assert (Hk : after ∈ l1 ++ after :: l2) by (apply elem_middle; by left).
  pose proof (child_of _ _ _ _ _ H Hl Hk) as Hp. pose proof (alive_kid _ _ _ _ _ H Hl Hk) as Haf.
  pose proof (root_not_kid _ _ _ _ _ H Hl Hadd) as Hnl. pose proof (fld_alive _ _ _ _ Hadd) as Ha.
  destruct (r_kids _ _ H this _ Hl) as (Hf & Hla & Hnd & Hd). apply dll_app in Hd as [_ (_ & _ & Hn & Hd2)].
  assert (Hl' : K !! this = Some ((l1 ++ [after]) ++ l2)) by by rewrite <- app_assoc.
  replace (l1 ++ after :: add :: l2) with ((l1 ++ [after]) ++ add :: l2) by by rewrite <- app_assoc.
  unfold InsertAfterChild. rewrite (load_fld _ _ _ _ Hp). cbn [mbind result_bind].
  rewrite bool_decide_eq_true_2 by done. cbn [c_assert mbind result_bind]. rewrite (load_fld _ _ _ _ Hn). cbn [mbind result_bind].
  destruct l2 as [|n l2]; cbn [hd_or].
  { rewrite app_nil_r in Hl'. by apply insert_end_spec. }
  assert (Hn' : n ∈ l1 ++ after :: n :: l2) by (rewrite !elem_of_app, !elem_of_cons; tauto).
  pose proof (alive_kid _ _ _ _ _ H Hl Hn') as Han. apply NoDup_app in Hnd as (_ & _ & [Hna _]%NoDup_cons).
  assert (Hne2 : after <> n) by (intros ->; apply Hna; by left).
  assert (Hne3 : after <> add) by (intros ->; done). assert (Hne4 : n <> add) by (intros ->; done).
  stores. eexists. split; [done|].
  refine (represents_insert _ _ _ _ _ _ _ H Hl' Hadd _ _ _ _ _ _ _ _ _ _); rewrite ?last_snoc.
  - intros a. by rewrite !alive_put.
  - flds. by rewrite fld_fmap.
  - flds. by rewrite fld_fmap.
  - flds. by rewrite fld_fmap.
  - intros x [= <-]. flds. by rewrite fld_fmap.
  - intros x [= <-]. flds. by rewrite fld_fmap.
  - flds; rewrite Hf; by destruct l1.
  - flds; rewrite Hla, !last_app, !last_cons_cons; by destruct (last (n :: l2)) eqn:El; [|apply last_None in El].
  - unseen.
  - cbn [head]. unseen.
Qed.

(** A store to a node that need not be there. *)
Definition put_opt (h : heap) (o : option nat) (f : field) (v : option nat) : heap :=
  match o with Some a => put h a f v | None => h end.

Lemma fld_put_opt h o f v b g :
  fld (put_opt h o f v) b g = if decide (o = Some b /\ g = f) then (fun _ => v) <$> fld h b g else fld h b g.
Proof. destruct o as [a|]; cbn [put_opt]; [rewrite fld_put|]; repeat case_decide; naive_solver. Qed.

Lemma alive_put_opt h o f v b : is_Some (put_opt h o f v !! b) <-> is_Some (h !! b).
Proof. destruct o; [apply alive_put|done]. Qed.

Lemma store_opt h o f (r : result (option nat)) v :
  (forall a, o = Some a -> is_Some (h !! a) /\ r = Ok v) ->
  (match o with Some a => v ← r; store h a f v | None => Ok h end) = Ok (put_opt h o f v).
Proof. intros Ha. destruct o as [a|]; [|done]. destruct (Ha a eq_refl) as [H1 ->]. by apply store_put. Qed.

Lemma store_if (b : bool) h a f (r : result (option nat)) v :
  (b = true -> is_Some (h !! a) /\ r = Ok v) ->
  (if b then v ← r; store h a f v else Ok h) = Ok (put_opt h (if b then Some a else None) f v).
Proof. intros Ha. destruct b; [|done]. destruct (Ha eq_refl) as [H1 ->]. by apply store_put. Qed.

(** The two neighbours of a child are linked to each other, and it to nobody. *)
Definition unlinked (h : heap) (this child : nat) (l1 l2 : list nat) : heap :=
  let h := put_opt h (if bool_decide (l1 = []) then Some this else None) First (head l2) in
  let h := put_opt h (if bool_decide (l2 = []) then Some this else None) Last (last l1) in
  let h := put_opt h (last l1) Next (head l2) in
  let h := put_opt h (head l2) Prev (last l1) in
  put h child Parent None.

Lemma unlink_runs h K this l1 l2 child :
  represents h K -> K !! this = Some (l1 ++ child :: l2) -> Unlink h this child = Ok (unlinked h this child l1 l2).
Proof.
  intros H Hl. assert (Hk : child ∈ l1 ++ child :: l2) by (apply elem_middle; by left).
  pose proof (child_of _ _ _ _ _ H Hl Hk) as Hp. pose proof (alive_kid _ _ _ _ _ H Hl Hk) as Hc.
  pose proof (alive_key _ _ _ _ H Hl) as Ht.
  destruct (r_kids _ _ H this _ Hl) as (Hf & Hla & Hnd & Hd). apply dll_app in Hd as [_ (_ & Hpr & Hn & _)].
  assert (Hpr' : fld h child Prev = Some (last l1)) by (rewrite Hpr; unfold last_or; by destruct (last l1)).
  assert (Hn' : fld h child Next = Some (head l2)) by (rewrite Hn; by destruct l2).
  apply NoDup_middle in Hnd as [Hnc Hnd]. apply not_elem_of_app in Hnc as [Hn1 Hn2].
  assert (E1 : bool_decide (head (l1 ++ child :: l2) = Some child) = bool_decide (l1 = [])).
  { apply bool_decide_ext. destruct l1 as [|x l1]; [done|]. split; [|done]. intros [= ->]. by destruct Hn1; left. }
  assert (E2 : bool_decide (last (l1 ++ child :: l2) = Some child) = bool_decide (l2 = [])).
  { apply bool_decide_ext. rewrite last_app, last_cons. destruct (last l2) as [y|] eqn:Ey; [|by apply last_None in Ey as ->].
    apply last_Some_elem_of in Ey. split; [by intros [= ->]|]. by intros ->; apply elem_of_nil in Ey. }
  assert (P1 : forall a, last l1 = Some a -> is_Some (h !! a) /\ a <> child).
  { intros a Ea%last_Some_elem_of. split; [|by intros ->]. apply (alive_kid _ _ _ _ _ H Hl), elem_of_app. by left. }
  assert (P2 : forall a, head l2 = Some a -> is_Some (h !! a) /\ a <> child).
  { intros a Ea%head_Some_elem_of. split; [|by intros ->]. apply (alive_kid _ _ _ _ _ H Hl), elem_of_app. right. by right. }
  unfold Unlink. rewrite (load_fld _ _ _ _ Hp). cbn [mbind result_bind].
  rewrite bool_decide_eq_true_2 by done. cbn [c_assert mbind result_bind].
  rewrite (load_fld _ _ _ _ Hf). cbn [mbind result_bind]. rewrite E1.
  rewrite (store_if _ h this First _ (head l2)) by (intros _; split; [done|by apply load_fld]). cbn [mbind result_bind].
  rewrite (load_fld _ this Last (last (l1 ++ child :: l2))) by (rewrite fld_put_opt, decide_False by naive_solver; done).
  cbn [mbind result_bind]. rewrite E2.
  rewrite (store_if _ _ this Last _ (last l1)) by (intros _; rewrite alive_put_opt; split; [done|apply load_fld;
    rewrite fld_put_opt, decide_False by naive_solver; done]). cbn [mbind result_bind].
  rewrite (load_fld _ child Prev (last l1)) by (rewrite !fld_put_opt, !decide_False by naive_solver; done). cbn [mbind result_bind].
  rewrite (store_opt _ (last l1) Next _ (head l2)) by (intros a Ea; rewrite !alive_put_opt; split; [by apply P1|apply load_fld;
    rewrite !fld_put_opt, !decide_False by naive_solver; done]). cbn [mbind result_bind].
  rewrite (load_fld _ child Next (head l2)) by (rewrite !fld_put_opt, !decide_False by naive_solver; done). cbn [mbind result_bind].
  rewrite (store_opt _ (head l2) Prev _ (last l1)) by (intros a Ea; rewrite !alive_put_opt; split; [by apply P2|apply load_fld;
    rewrite !fld_put_opt, !decide_False by naive_solver; done]). cbn [mbind result_bind].
  by rewrite store_put by by rewrite !alive_put_opt.
Qed.

Lemma fld_unlinked h this child l1 l2 x f :
  x <> child \/ f <> Parent ->
  fld (unlinked h this child l1 l2) x f =
  if decide (head l2 = Some x /\ f = Prev) then (fun _ => last l1) <$> fld h x f else
  if decide (last l1 = Some x /\ f = Next) then (fun _ => head l2) <$> fld h x f else
  if decide (x = this /\ f = Last /\ l2 = []) then (fun _ => last l1) <$> fld h x f else
  if decide (x = this /\ f = First /\ l1 = []) then (fun _ => head l2) <$> fld h x f else fld h x f.
Proof.
  intros Hx. unfold unlinked. rewrite fld_put, !fld_put_opt.
  assert (Eb : forall (l : list nat), (if bool_decide (l = []) then Some this else None) = Some x <-> x = this /\ l = []).
  { intros l. case_bool_decide; naive_solver. }
  repeat case_decide; rewrite ?Eb in *; naive_solver.
Qed.

Lemma unlink_represents h K this l1 l2 child :
  represents h K -> K !! this = Some (l1 ++ child :: l2) ->
  represents (unlinked h this child l1 l2) (<[this := l1 ++ l2]> K) /\
  fld (unlinked h this child l1 l2) child Parent = Some None.
Proof.
  intros H Hl. assert (Hk : child ∈ l1 ++ child :: l2) by (apply elem_middle; by left).
  pose proof (child_of _ _ _ _ _ H Hl Hk) as Hp. pose proof (alive_kid _ _ _ _ _ H Hl Hk) as Hc.
  destruct (r_kids _ _ H this _ Hl) as (Hf & Hla & Hnd & Hd). apply dll_app in Hd as [D1 (_ & _ & _ & D2)].
  apply NoDup_middle in Hnd as [Hnc Hnd]. pose proof Hnc as Hnc'. apply not_elem_of_app in Hnc' as [Hn1 Hn2].
  pose proof Hnd as Hnd'. apply NoDup_app in Hnd' as (N1 & N12 & N2).
  assert (Hroot : fld (unlinked h this child l1 l2) child Parent = Some None).
  { unfold unlinked. rewrite fld_put, !decide_True by done. rewrite fld_fmap; [done|by rewrite !alive_put_opt]. }
  split; [|done]. pose proof (fld_unlinked h this child l1 l2) as F.
  assert (Hl1 : forall x, last l1 = Some x -> x ∈ l1) by (intros; by apply last_Some_elem_of).
  assert (Hh2 : forall x, head l2 = Some x -> x ∈ l2) by (intros; by apply head_Some_elem_of).
  refine (represents_change _ _ _ _ _ _ H Hl _ _ _ _ _ Hnd _ _ _).
  - intros a. unfold unlinked. by rewrite alive_put, !alive_put_opt.
  - intros a Ha. rewrite !F by auto. split; repeat case_decide; naive_solver.
  - intros x f Hx Hx' Hsf. assert (Hxc : x <> child) by (intros ->; done).
    assert (Ha : last l1 <> Some x) by (intros E; apply Hx', elem_of_app; left; auto).
    assert (Hb : head l2 <> Some x) by (intros E; apply Hx', elem_of_app; right; auto).
    rewrite F by auto. clear -Ha Hb Hsf. destruct Hsf as [-> | [-> | ->]]; repeat case_decide; naive_solver.
  - rewrite F, Hf by auto. clear. destruct l1; repeat case_decide; naive_solver.
  - rewrite F, Hla, last_app, last_app, last_cons by auto. clear. destruct l2 as [|y l2]; repeat case_decide; try naive_solver.
    rewrite last_cons. by destruct (last l2).
  - apply dll_app. split.
    + apply (dll_next h _ _ _ _ _ _ N1 D1).
      * intros x Hx. assert (Hxc : x <> child) by (by intros ->). rewrite !F by auto. split; repeat case_decide; naive_solver.
      * intros x Hx Hlx. assert (Hxc : x <> child) by (by intros ->). rewrite F by auto. repeat case_decide; naive_solver.
      * intros x Hlx. assert (Hxc : x <> child) by (intros ->; auto). rewrite F, decide_False, decide_True by naive_solver.
        rewrite fld_fmap; [by destruct l2|]. apply (alive_kid _ _ _ _ _ H Hl), elem_of_app. left. auto.
    + apply (dll_prev h _ _ _ _ _ _ N2 D2).
      * intros x Hx. assert (Hxc : x <> child) by (by intros ->). rewrite !F by auto. split; repeat case_decide; naive_solver.
      * intros x Hx Hlx. assert (Hxc : x <> child) by (by intros ->). rewrite F by auto. repeat case_decide; naive_solver.
      * intros x Hlx. assert (Hxc : x <> child) by (intros ->; auto). rewrite F, decide_True by naive_solver.
        rewrite fld_fmap; [unfold last_or; by destruct (last l1)|]. apply (alive_kid _ _ _ _ _ H Hl), elem_of_app. right. right. auto.
  - intros x Hx Hx'. rewrite elem_middle in Hx. destruct Hx as [->|Hx]; [done|tauto].
  - intros x Hx Hx'. rewrite elem_middle in Hx'. tauto.
Qed.

(** ** Deletion *)

(** The nodes from [a] on down, in the order in which they are reached. *)
Inductive below (K : gmap nat (list nat)) : nat -> list nat -> Prop :=
| below_node a l ss : K !! a = Some l -> Forall2 (below K) l ss -> below K a (a :: concat ss).

(** The lists of all other nodes. *)
Definition without (K : gmap nat (list nat)) (s : list nat) : gmap nat (list nat) := filter (fun kv => kv.1 ∉ s) K.

Lemma lookup_without K s a : without K s !! a = if decide (a ∈ s) then None else K !! a.
Proof.
  unfold without. rewrite map_lookup_filter. destruct (K !! a) as [l|]; cbn; [|by destruct (decide _)].
  repeat case_guard; cbn; repeat case_decide; done.
Qed.

(** A tree is the same where the lists of its nodes are. *)
Lemma elem_concat (ss : list (list nat)) s :
  s ∈ ss -> (length s <= length (concat ss))%nat /\ forall x, x ∈ s -> x ∈ concat ss.
Proof.
  induction ss as [|s1 ss IH]; [by intros ?%elem_of_nil|]. cbn. rewrite length_app. intros [->|Hs]%elem_of_cons.
  - split; [lia|]. intros x Hx. apply elem_of_app. by left.
  - destruct (IH Hs) as [H1 H2]. split; [lia|]. intros x Hx. apply elem_of_app. right. by apply H2.
Qed.

Lemma below_frame fuel K K' a s :
  (length s < fuel)%nat -> below K a s -> (forall x, x ∈ s -> K' !! x = K !! x) -> below K' a s.
Proof.
  revert a s. induction fuel as [|fuel IH]; intros a s; [lia|]. intros Hf Hb Heq. destruct Hb as [a l ss Hl Hss]. cbn [length] in Hf. apply (below_node _ _ l).
  { rewrite Heq; [done|by left]. }
  assert (Hall : forall s, s ∈ ss -> (length s < fuel)%nat /\ forall x, x ∈ s -> K' !! x = K !! x).
  { intros s' Hs. destruct (elem_concat ss s' Hs) as [H1 H2]. split; [lia|]. intros x Hx. apply Heq. right. by apply H2. }
  clear -Hss Hall IH. induction Hss as [|x s l ss Hx _ IHl]; constructor.
  - destruct (Hall s ltac:(by left)) as [H1 H2]. by apply IH.
  - apply IHl. intros s' Hs. apply Hall. by right.
Qed.

Lemma below_same K K' a s : below K a s -> (forall x, x ∈ s -> K' !! x = K !! x) -> below K' a s.
Proof. apply (below_frame (S (length s))). lia. Qed.

Lemma below_all_same K K' l ss :
  Forall2 (below K) l ss -> (forall x, x ∈ concat ss -> K' !! x = K !! x) -> Forall2 (below K') l ss.
Proof.
  induction 1 as [|a s l ss Ha _ IH]; intros Heq; constructor.
  - apply (below_same K); [done|]. intros x Hx. apply Heq, elem_of_app. by left.
  - apply IH. intros x Hx. apply Heq, elem_of_app. by right.
Qed.

Lemma put_same h a f v : fld h a f = Some v -> put h a f v = h.
Proof.
  unfold fld, put. intros E. apply map_eq. intros b. destruct (decide (b = a)) as [->|Hb]; [|by rewrite lookup_alter_ne].
  rewrite lookup_alter_eq. destruct (h !! a) as [n|]; [|done]. cbn in *. injection E as <-. by destruct n, f.
Qed.

(** A node without children and parent is freed. *)
Lemma free_represents h K a :
  represents h K -> K !! a = Some [] -> fld h a Parent = Some None -> represents (delete a h) (delete a K).
Proof.
  intros H Ha Hroot.
  assert (Hfld : forall x f, x <> a -> fld (delete a h) x f = fld h x f).
  { intros x f Hx. unfold fld. by rewrite lookup_delete_ne. }
  split.
  - intros x. destruct (decide (x = a)) as [->|Hx]; [rewrite !lookup_delete_eq; done|].
    rewrite !lookup_delete_ne by done. apply H.
  - intros x l. destruct (decide (x = a)) as [->|Hx]; [by rewrite lookup_delete_eq|]. rewrite lookup_delete_ne by done.
    intros Hl. destruct (r_kids _ _ H x l Hl) as (H1 & H2 & H3 & H4). rewrite !Hfld by done. split_and!; [done..|].
    apply (dll_ext h); [|done]. intros y f Hy _. apply Hfld. intros ->. by apply (root_not_kid h K x l a H Hl Hroot).
  - intros x p Hp. destruct (decide (x = a)) as [->|Hx]; [unfold fld in Hp; by rewrite lookup_delete_eq in Hp|].
    rewrite Hfld in Hp by done. destruct (r_parent _ _ H x p Hp) as (l & Hl & Hin). exists l. split; [|done].
    rewrite lookup_delete_ne; [done|]. intros ->. rewrite Ha in Hl. injection Hl as <-. by apply elem_of_nil in Hin.
Qed.

Definition deletes_nodes (fuel : nat) : Prop :=
  forall h K a s, represents h K -> below K a s -> NoDup s -> fld h a Parent = Some None -> (2 * length s <= fuel)%nat ->
  exists h', delete_node fuel h a = Ok h' /\ represents h' (without K s) /\
    forall x, x ∉ s -> fld h' x Parent = fld h x Parent.

Definition deletes_children (fuel : nat) : Prop :=
  forall h K this l ss, represents h K -> K !! this = Some l -> Forall2 (below K) l ss -> NoDup (this :: concat ss) ->
  (2 * length (concat ss) < fuel)%nat ->
  exists h', delete_children fuel h this = Ok h' /\ represents h' (<[this := []]> (without K (concat ss))) /\
    forall x, x ∉ concat ss -> fld h' x Parent = fld h x Parent.

Lemma without_cons K a ss : delete a (<[a := []]> (without K ss)) = without K (a :: ss).
Proof.
  apply map_eq. intros b. rewrite lookup_without. destruct (decide (b = a)) as [->|Hb].
  - rewrite lookup_delete_eq, decide_True by by left. done.
  - rewrite lookup_delete_ne, lookup_insert_ne, lookup_without by done. apply decide_ext. rewrite elem_of_cons. naive_solver.
Qed.

Lemma node_deletes fuel : deletes_children fuel -> deletes_nodes (S fuel).
Proof.
  intros IH h K a s H Hb Hnd Hroot Hf. destruct Hb as [a l ss Hl Hss]. cbn [delete_node].
  destruct (IH h K a l ss H Hl Hss Hnd) as (h1 & E & H1 & Hp); [cbn in Hf; lia|]. rewrite E. cbn [mbind result_bind].
  apply NoDup_cons in Hnd as [Ha Hnd]. assert (Hroot1 : fld h1 a Parent = Some None) by by rewrite Hp.
  rewrite (load_fld _ _ _ _ Hroot1). cbn [mbind result_bind]. eexists. split; [done|]. split.
  - rewrite <- without_cons. apply free_represents; [done|by rewrite lookup_insert_eq|done].
  - intros x Hx. rewrite not_elem_of_cons in Hx. destruct Hx as [Hxa Hx]. rewrite <- (Hp x Hx). unfold fld. by rewrite lookup_delete_ne.
Qed.

Lemma below_length K a s : below K a s -> (0 < length s)%nat.
Proof. intros []. cbn. lia. Qed.

Lemma children_delete fuel : deletes_nodes fuel -> deletes_children fuel -> deletes_children (S fuel).
Proof.
  intros IHn IHc h K this l ss H Hl Hss Hnd Hf. cbn [delete_children].
  destruct (r_kids _ _ H this l Hl) as (Hfst & Hlst & _ & _). rewrite (load_fld _ _ _ _ Hfst). cbn [mbind result_bind].
  destruct Hss as [|c s l ss Hc Hss]; cbn [head concat] in *.
  { pose proof (alive_key _ _ _ _ H Hl) as Ha. rewrite store_put by done. cbn [mbind result_bind].
    rewrite (put_same h this Last None Hlst), store_put, (put_same h this First None Hfst) by done. exists h. split; [done|].
    assert (without K [] = K) as -> by (apply map_eq; intros b; rewrite lookup_without; by rewrite decide_False by apply not_elem_of_nil).
    rewrite insert_id by done. done. }
  rewrite (unlink_runs h K this [] l c H Hl). cbn [mbind result_bind].
  destruct (unlink_represents h K this [] l c H Hl) as [H1 Hroot]. cbn [app] in H1. set (h1 := unlinked h this c [] l) in *.
  apply NoDup_cons in Hnd as [Ht Hnd]. apply NoDup_app in Hnd as (Ns & Nd & Nss). apply not_elem_of_app in Ht as [Hts Htss].
  rewrite length_app in Hf. pose proof (below_length _ _ _ Hc) as Hlen.
  destruct (IHn h1 _ c s H1) as (h2 & E2 & H2 & P2); [|done..|lia|].
  { apply (below_same K); [done|]. intros x Hx. rewrite lookup_insert_ne; [done|by intros ->]. }
  rewrite E2. cbn [mbind result_bind].
  destruct (IHc h2 _ this l ss H2) as (h3 & E3 & H3 & P3); [| | |lia|].
  { rewrite lookup_without, decide_False, lookup_insert_eq by done. done. }
  { apply (below_all_same K); [done|]. intros x Hx. rewrite lookup_without, decide_False by (intros Hxs; by apply (Nd x)).
    rewrite lookup_insert_ne; [done|by intros ->]. }
  { by apply NoDup_cons. }
  exists h3. split; [done|]. split.
  - replace (<[this := []]> (without K (s ++ concat ss))) with
      (<[this := []]> (without (without (<[this := l]> K) s) (concat ss))); [done|].
    apply map_eq. intros b. destruct (decide (b = this)) as [->|Hb]; [by rewrite !lookup_insert_eq|].
    rewrite !lookup_insert_ne, !lookup_without, lookup_insert_ne by done. repeat case_decide; set_solver.
  - intros x [Hx1 Hx2]%not_elem_of_app. rewrite P3, P2 by done. subst h1.
    assert (Hxc : x <> c) by (intros ->; apply Hx1; destruct Hc; by left). rewrite fld_unlinked by by left.
    repeat case_decide; naive_solver.
Qed.

Lemma deletion fuel : deletes_nodes fuel /\ deletes_children fuel.
Proof.
  induction fuel as [|fuel [IH1 IH2]].
  - split; [|intros ? ? ? ? ? ? ? ? ? ?; lia]. intros h K a s _ Hb _ _ Hf. pose proof (below_length _ _ _ Hb). lia.
  - split; [by apply node_deletes|by apply children_delete].
Qed.
