(* ===== verification/XmlDomRun.v ===== *)
(** * Editing a document

    Any sequence of edits, from no nodes at all: the links stand for the lists of
    children that the edits make, and no edit goes wrong. *)

From S2P Require Import Prelude XmlDom.
From S2P Require Import XmlDomSpec.

#[local] Set Warnings "-clear-no-such-hyp".

Inductive edit :=
| New (node : nat)
| InsertEnd (this addThis : nat)
| InsertFirst (this addThis : nat)
| InsertAfter (this afterThis addThis : nat)
| Detach (this child : nat)
| Delete (this node : nat).

(** Two calls a node are more than deleting takes. *)
Definition run_edit (h : heap) (e : edit) : result heap :=
  match e with
  | New node => Ok (<[node := new_links]> h)
  | InsertEnd this addThis => InsertEndChild h this addThis
  | InsertFirst this addThis => InsertFirstChild h this addThis
  | InsertAfter this afterThis addThis => InsertAfterChild h this afterThis addThis
  | Detach this child => Unlink h this child
  | Delete this node => DeleteChild (2 * size h) h this node
  end.

Fixpoint run_edits (h : heap) (es : list edit) : result heap :=
  match es with [] => Ok h | e :: es => h ← run_edit h e; run_edits h es end.

(** ** The same on lists of children *)

(** A node that is in no list. *)
Definition free (K : gmap nat (list nat)) (a : nat) : Prop :=
  is_Some (K !! a) /\ forall p l, K !! p = Some l -> a ∉ l.

Inductive edits (K : gmap nat (list nat)) : edit -> gmap nat (list nat) -> Prop :=
| edit_new node : K !! node = None -> free (<[node := []]> K) node -> edits K (New node) (<[node := []]> K)
| edit_end this addThis l :
    K !! this = Some l -> free K addThis -> addThis <> this ->
    edits K (InsertEnd this addThis) (<[this := l ++ [addThis]]> K)
| edit_first this addThis l :
    K !! this = Some l -> free K addThis -> addThis <> this ->
    edits K (InsertFirst this addThis) (<[this := addThis :: l]> K)
| edit_after this afterThis addThis l1 l2 :
    K !! this = Some (l1 ++ afterThis :: l2) -> free K addThis -> addThis <> this ->
    edits K (InsertAfter this afterThis addThis) (<[this := l1 ++ afterThis :: addThis :: l2]> K)
| edit_detach this child l1 l2 :
    K !! this = Some (l1 ++ child :: l2) -> edits K (Detach this child) (<[this := l1 ++ l2]> K)
| edit_delete this node l1 l2 s :
    K !! this = Some (l1 ++ node :: l2) -> below K node s -> NoDup (this :: s) ->
    edits K (Delete this node) (without (<[this := l1 ++ l2]> K) s).

Inductive edits_all (K : gmap nat (list nat)) : list edit -> gmap nat (list nat) -> Prop :=
| edits_none : edits_all K [] K
| edits_some e K1 es K2 : edits K e K1 -> edits_all K1 es K2 -> edits_all K (e :: es) K2.

(** ** Each edit *)

Lemma free_root h K a : represents h K -> free K a -> fld h a Parent = Some None.
Proof.
  intros H [Ha Hn]. apply (r_dom _ _ H) in Ha as [n E]. unfold fld. rewrite E. cbn. destruct (_parent n) as [p|] eqn:Ep; [|done].
  assert (Hp : fld h a Parent = Some (Some p)) by (unfold fld; rewrite E; cbn; by rewrite Ep).
  destruct (r_parent _ _ H a p Hp) as (l & Hl & Hin). by destruct (Hn p l Hl).
Qed.

Lemma new_represents h K a :
  represents h K -> K !! a = None -> free (<[a := []]> K) a -> represents (<[a := new_links]> h) (<[a := []]> K).
Proof.
  intros H Hn Hfree.
  assert (Hfld : forall x f, x <> a -> fld (<[a := new_links]> h) x f = fld h x f).
  { intros x f Hx. unfold fld. by rewrite lookup_insert_ne. }
  assert (Hnew : forall f, fld (<[a := new_links]> h) a f = Some None).
  { intros f. unfold fld. rewrite lookup_insert_eq. by destruct f. }
  split.
  - intros x. destruct (decide (x = a)) as [->|Hx]; [rewrite !lookup_insert_eq; split; by eexists|].
    rewrite !lookup_insert_ne by done. apply H.
  - intros x l. destruct (decide (x = a)) as [->|Hx].
    + rewrite lookup_insert_eq. intros [= <-]. rewrite !Hnew. split_and!; [done..|by constructor|done].
    + intros Hl. pose proof (proj2 Hfree x l Hl) as Hal. rewrite lookup_insert_ne in Hl by done.
      destruct (r_kids _ _ H x l Hl) as (H1 & H2 & H3 & H4). rewrite !Hfld by done. split_and!; [done..|].
      apply (dll_ext h); [|done]. intros y f Hy _. apply Hfld. by intros ->.
  - intros x p. destruct (decide (x = a)) as [->|Hx]; [by rewrite Hnew|]. rewrite Hfld by done. intros Hp.
    destruct (r_parent _ _ H x p Hp) as (l & Hl & Hin). exists l. split; [|done]. rewrite lookup_insert_ne; [done|].
    intros ->. congruence.
Qed.

Lemma below_alive K a s : below K a s -> forall x, x ∈ s -> is_Some (K !! x).
Proof.
  remember (length s) as n eqn:En. revert a s En. induction n as [n IH] using lt_wf_ind. intros a s -> Hb.
  destruct Hb as [a l ss Hl Hss]. intros x [->|Hx]%elem_of_cons; [by eexists|]. cbn [length] in IH.
  assert (Hall : forall s, s ∈ ss -> (length s < S (length (concat ss)))%nat).
  { intros s Hs. destruct (elem_concat ss s Hs). lia. }
  clear Hl. induction Hss as [|y s l ss Hy _ IHs]; [by apply elem_of_nil in Hx|].
  cbn in Hx. apply elem_of_app in Hx as [Hx|Hx].
  - by apply (IH (length s) (Hall s ltac:(by left)) y s).
  - assert (Hlen : (length (concat ss) <= length (concat (s :: ss)))%nat) by (cbn; rewrite length_app; lia).
    apply IHs; [|done|].
    + intros m Hm. apply IH. lia.
    + intros s' Hs'. destruct (elem_concat ss s' Hs'). lia.
Qed.

Lemma below_size h K a s : represents h K -> below K a s -> NoDup s -> (length s <= size h)%nat.
Proof.
  intros H Hb Hnd. rewrite <- (size_dom (D := gset nat)), <- (size_list_to_set (C := gset nat)) by done.
  apply subseteq_size. intros x Hx. apply elem_of_list_to_set in Hx. apply elem_of_dom, (r_dom _ _ H). by eapply below_alive.
Qed.

Lemma delete_child_spec h K this node l1 l2 s :
  represents h K -> K !! this = Some (l1 ++ node :: l2) -> below K node s -> NoDup (this :: s) ->
  exists h', DeleteChild (2 * size h) h this node = Ok h' /\ represents h' (without (<[this := l1 ++ l2]> K) s).
Proof.
  intros H Hl Hb [Ht Hnd]%NoDup_cons. pose proof (below_size _ _ _ _ H Hb Hnd) as Hsz.
  assert (Hk : node ∈ l1 ++ node :: l2) by (apply elem_middle; by left). pose proof (child_of _ _ _ _ _ H Hl Hk) as Hp.
  unfold DeleteChild. rewrite (load_fld _ _ _ _ Hp). cbn [mbind result_bind]. rewrite bool_decide_eq_true_2 by done.
  cbn [c_assert mbind result_bind]. destruct Hb as [node ln ss Hln Hss]. cbn [length] in Hsz.
  destruct (2 * size h)%nat as [|fuel] eqn:Ef; [lia|]. cbn [delete_node].
  destruct (proj2 (deletion fuel) h K node ln ss H Hln Hss Hnd ltac:(lia)) as (h1 & E1 & H1 & P1).
  rewrite E1. cbn [mbind result_bind]. apply not_elem_of_cons in Ht as [Htn Hts]. apply NoDup_cons in Hnd as [Hns Hnd].
  rewrite <- (P1 node Hns) in Hp. rewrite (load_fld _ _ _ _ Hp). cbn [mbind result_bind].
  set (K1 := <[node := []]> (without K (concat ss))) in *.
  assert (Hl1 : K1 !! this = Some (l1 ++ node :: l2)) by (subst K1; by rewrite lookup_insert_ne, lookup_without, decide_False).
  rewrite (unlink_runs h1 K1 this l1 l2 node H1 Hl1). cbn [mbind result_bind].
  destruct (unlink_represents h1 K1 this l1 l2 node H1 Hl1) as [H2 Hroot]. eexists. split; [done|].
  replace (without (<[this := l1 ++ l2]> K) (node :: concat ss)) with (delete node (<[this := l1 ++ l2]> K1)).
  { apply free_represents; [done| |done]. subst K1. by rewrite lookup_insert_ne, lookup_insert_eq. }
  apply map_eq. intros b. rewrite lookup_without. destruct (decide (b = node)) as [->|Hb].
  - rewrite lookup_delete_eq, decide_True by by left. done.
  - rewrite lookup_delete_ne by done. subst K1. destruct (decide (b = this)) as [->|Hbt].
    + rewrite !lookup_insert_eq, decide_False; [done|]. by rewrite not_elem_of_cons.
    + rewrite !lookup_insert_ne, lookup_without by done. apply decide_ext. rewrite elem_of_cons. naive_solver.
Qed.

Lemma edit_spec h K e K' : represents h K -> edits K e K' -> exists h', run_edit h e = Ok h' /\ represents h' K'.
Proof.
  intros H [node Hn Hf|this add l Hl Hf Hne|this add l Hl Hf Hne|this aft add l1 l2 Hl Hf Hne|this child l1 l2 Hl|this node l1 l2 s Hl Hb Hnd];
    cbn [run_edit].
  - eexists. split; [done|]. by apply new_represents.
  - apply insert_end_spec; [done..|by apply (free_root _ K)|done].
  - apply insert_first_spec; [done..|by apply (free_root _ K)|done].
  - apply insert_after_spec; [done..|by apply (free_root _ K)|done].
  - eexists. split; [by eapply unlink_runs|]. by apply unlink_represents.
  - by apply delete_child_spec.
Qed.

Lemma nothing_represents : represents ∅ ∅.
Proof. split; [intros a; by rewrite !lookup_empty|intros a l; by rewrite lookup_empty|intros x p; unfold fld; by rewrite lookup_empty]. Qed.

Lemma edits_spec h K es K' :
  represents h K -> edits_all K es K' -> exists h', run_edits h es = Ok h' /\ represents h' K'.
Proof.
  intros H Hes. revert h H. induction Hes as [K|K e K1 es K2 He _ IH]; intros h H; [by exists h|].
  destruct (edit_spec h K e K1 H He) as (h1 & E & H1). cbn [run_edits]. rewrite E. cbn [mbind result_bind]. by apply IH.
Qed.

(** C28: Editing refines lists: any sequence of edits that starts with no nodes,
    inserts only nodes that have no parent yet and deletes only trees, runs
    without a fault and an assertion that fails, ends, and leaves links that stand
    for the lists of children the edits make: first and last child, siblings in
    both directions and parents agree; and deleting a child frees exactly the
    nodes below it, each once. *)
Theorem dom_editing es K :
  edits_all ∅ es K -> exists h, run_edits ∅ es = Ok h /\ represents h K.
Proof. apply edits_spec, nothing_represents. Qed.

(** *** Edits to try *)

Definition demo_edits : list edit :=
  [New 0; New 1; New 2; New 3; New 4; InsertEnd 0 1; InsertFirst 0 2; InsertAfter 0 2 3; InsertEnd 3 4; Detach 0 1; Delete 0 3].

Definition free_in (K : gmap nat (list nat)) (a : nat) : bool :=
  bool_decide (is_Some (K !! a)) && forallb (fun kv : nat * list nat => bool_decide (a ∉ kv.2)) (map_to_list K).

Lemma free_check K a : free_in K a = true -> free K a.
Proof.
  unfold free_in. rewrite andb_true_iff, bool_decide_eq_true, forallb_forall. intros [Ha Hl]. split; [done|].
  intros p l Hp. apply elem_of_map_to_list, list_elem_of_In, Hl, bool_decide_eq_true in Hp. done.
Qed.

Ltac edit_step := eapply edits_some; [econstructor; try (by apply free_check); try done|].

Lemma demo_edits_all : edits_all ∅ demo_edits (<[0 := [2]]> (<[1 := []]> (<[2 := []]> ∅)))%nat.
Proof.
  unfold demo_edits. do 5 edit_step. do 2 edit_step.
  eapply edits_some; [apply (edit_after _ 0 2 3 [] [1%nat]); [done|by apply free_check|done]|]. edit_step.
  eapply edits_some; [by apply (edit_detach _ 0 1 [2%nat; 3%nat] [])|].
  eapply edits_some; [apply (edit_delete _ 0 3 [2%nat] [] [3%nat; 4%nat])|].
  - done.
  - apply (below_node _ 3 [4%nat] [[4%nat]]); [done|]. constructor; [|constructor]. by apply (below_node _ 4 [] []).
  - by apply (bool_decide_eq_true_1 (NoDup _)).
  - match goal with |- edits_all ?K [] ?K' => replace K' with K by (by vm_compute) end. constructor.
Qed.

Lemma dom_editing_witness :
  exists h, run_edits ∅ demo_edits = Ok h /\ represents h (<[0 := [2]]> (<[1 := []]> (<[2 := []]> ∅)))%nat.
Proof. exact (dom_editing demo_edits _ demo_edits_all). Defined.

(** A node that is inserted while it still has a parent is in two lists: its old
    parent's children are not a list any more. *)
Example inserted_twice :
  match run_edits ∅ [New 0; New 1; New 2; New 3; InsertEnd 0 1; InsertEnd 0 2; InsertEnd 3 1; InsertEnd 3 0] with
  | Ok h => Ok (fld h 0 First, fld h 1 Parent, fld h 1 Next)
  | Err e => Err e
  end = Ok (Some (Some 1), Some (Some 3), Some (Some 0))%nat.
Proof. vm_compute. reflexivity. Qed.
