(* ===== verification/XmlNavigate.v ===== *)
(** * Walking over the elements of a document (src/tinyxml2/tinyxml2.cpp)

    The queries for the children and siblings that are elements, over the links of
    [XmlDom], and the loops that programs write with them. *)

From S2P Require Import Prelude XmlDom.
From S2P Require Import XmlDomSpec.
From S2P Require Import XmlDomRun.

Section navigate.

(** [ToElement] and [Name]: the name of a node that is an element. *)
Context (element_name : nat -> option (list byte)).

(** The test in the loops; [value]: the name asked for, or null for any. *)
Definition is_element (value : option (list byte)) (node : nat) : bool :=
  match element_name node, value with
  | None, _ => false
  | Some _, None => true
  | Some name, Some value => bool_decide (name = value)
  end.

Fixpoint find_element (fuel : nat) (h : heap) (f : field) (value : option (list byte)) (node : option nat) : result (option nat) :=
  match fuel with
  | O => Err NoFuel
  | S fuel =>
      match node with
      | None => Ok None
      | Some n => if is_element value n then Ok (Some n) else next ← load h n f; find_element fuel h f value next
      end
  end.

(** As many turns as there are nodes are enough. *)
Definition element_fuel (h : heap) : nat := S (size h).

Definition FirstChildElement (h : heap) (this : nat) (value : option (list byte)) : result (option nat) :=
  node ← load h this First; find_element (element_fuel h) h Next value node.
Definition LastChildElement (h : heap) (this : nat) (value : option (list byte)) : result (option nat) :=
  node ← load h this Last; find_element (element_fuel h) h Prev value node.
Definition NextSiblingElement (h : heap) (this : nat) (value : option (list byte)) : result (option nat) :=
  node ← load h this Next; find_element (element_fuel h) h Next value node.
Definition PreviousSiblingElement (h : heap) (this : nat) (value : option (list byte)) : result (option nat) :=
  node ← load h this Prev; find_element (element_fuel h) h Prev value node.

(** [for( ; e; e = step( e ) )], with the elements seen. *)
Fixpoint visit_elements (fuel : nat) (step : nat -> result (option nat)) (e : option nat) : result (list nat) :=
  match e with
  | None => Ok []
  | Some n =>
      match fuel with
      | O => Err NoFuel
      | S fuel => e ← step n; seen ← visit_elements fuel step e; Ok (n :: seen)
      end
  end.

Definition elements_forward (h : heap) (this : nat) (value : option (list byte)) : result (list nat) :=
  e ← FirstChildElement h this value; visit_elements (size h) (fun n => NextSiblingElement h n value) e.
Definition elements_backward (h : heap) (this : nat) (value : option (list byte)) : result (list nat) :=
  e ← LastChildElement h this value; visit_elements (size h) (fun n => PreviousSiblingElement h n value) e.

(** ** What the loops see *)

Definition elements (value : option (list byte)) (l : list nat) : list nat := filter (fun n => is_element value n = true) l.

Lemma kids_size h K p l : represents h K -> K !! p = Some l -> (length l <= size h)%nat.
Proof.
  intros H Hl. destruct (r_kids _ _ H p l Hl) as (_ & _ & Hnd & _).
  rewrite <- (size_dom (D := gset nat)), <- (size_list_to_set (C := gset nat)) by done.
  apply subseteq_size. intros x Hx. apply elem_of_list_to_set in Hx. apply elem_of_dom. by eapply alive_kid.
Qed.

Lemma forward_from h p value l : (length l <= size h)%nat -> forall prv fuel1 fuel2,
  dll h p prv l None -> (length l < fuel1)%nat -> (length l <= fuel2)%nat ->
  (e ← find_element fuel1 h Next value (hd_or None l); visit_elements fuel2 (fun n => NextSiblingElement h n value) e) =
    Ok (elements value l).
Proof.
  induction l as [|x l IH]; cbn [length]; intros Hs prv fuel1 fuel2 Hd Hf1 Hf2.
  { destruct fuel1; [lia|]. by destruct fuel2. }
  destruct Hd as (_ & _ & Hn & Hd). destruct fuel1 as [|fuel1]; [lia|]. cbn [hd_or find_element]. unfold elements. rewrite filter_cons.
  destruct (is_element value x) eqn:Ex.
  - rewrite decide_True by done. destruct fuel2 as [|fuel2]; [lia|]. cbn [mbind result_bind visit_elements].
    assert (E : (e ← NextSiblingElement h x value; visit_elements fuel2 (fun n => NextSiblingElement h n value) e) = Ok (elements value l)).
    { assert (NextSiblingElement h x value = find_element (element_fuel h) h Next value (hd_or None l)) as ->
        by (unfold NextSiblingElement; by rewrite (load_fld _ _ _ _ Hn)). apply (IH ltac:(lia) (Some x)); [done| |lia].
      unfold element_fuel. lia. }
    destruct (NextSiblingElement h x value) as [e|]; cbn [mbind result_bind] in *; [|done]. by rewrite E.
  - rewrite decide_False by done. rewrite (load_fld _ _ _ _ Hn). cbn [mbind result_bind]. apply (IH ltac:(lia) (Some x)); [done|lia|lia].
Qed.

Lemma backward_from h p value l : (length l <= size h)%nat -> forall nxt fuel1 fuel2,
  dll h p None l nxt -> (length l < fuel1)%nat -> (length l <= fuel2)%nat ->
  (e ← find_element fuel1 h Prev value (last l); visit_elements fuel2 (fun n => PreviousSiblingElement h n value) e) =
    Ok (reverse (elements value l)).
Proof.
  induction l as [|x l IH] using rev_ind; rewrite ?length_app; cbn [length]; intros Hs nxt fuel1 fuel2 Hd Hf1 Hf2.
  { destruct fuel1; [lia|]. by destruct fuel2. }
  apply dll_app in Hd as [Hd (_ & Hp & _)].
  assert (Hl : last_or None l = last l) by (unfold last_or; by destruct (last l)). rewrite Hl in Hp.
  rewrite last_snoc. unfold elements. rewrite filter_app, filter_cons, filter_nil. destruct fuel1 as [|fuel1]; [lia|]. cbn [find_element].
  destruct (is_element value x) eqn:Ex.
  - rewrite decide_True by done. destruct fuel2 as [|fuel2]; [lia|]. cbn [mbind result_bind visit_elements].
    assert (E : (e ← PreviousSiblingElement h x value; visit_elements fuel2 (fun n => PreviousSiblingElement h n value) e) =
      Ok (reverse (elements value l))).
    { assert (PreviousSiblingElement h x value = find_element (element_fuel h) h Prev value (last l)) as ->
        by (unfold PreviousSiblingElement; by rewrite (load_fld _ _ _ _ Hp)).
      apply (IH ltac:(lia) (hd_or nxt [x])); [done| |lia]. unfold element_fuel. lia. }
    destruct (PreviousSiblingElement h x value) as [e|]; cbn [mbind result_bind] in *; [|done]. rewrite E. by rewrite reverse_app.
  - rewrite decide_False by done. rewrite app_nil_r, (load_fld _ _ _ _ Hp). cbn [mbind result_bind].
    apply (IH ltac:(lia) (hd_or nxt [x])); [done|lia|lia].
Qed.

Lemma forward_elements h K this l value : represents h K -> K !! this = Some l -> elements_forward h this value = Ok (elements value l).
Proof.
  intros H Hl. pose proof (kids_size _ _ _ _ H Hl) as Hs. destruct (r_kids _ _ H this l Hl) as (Hf & _ & _ & Hd).
  unfold elements_forward, FirstChildElement. rewrite (load_fld _ _ _ _ Hf). cbn [mbind result_bind].
  replace (head l) with (hd_or None l) by by destruct l. apply (forward_from h this value l Hs None); [done| |done]. unfold element_fuel. lia.
Qed.

Lemma backward_elements h K this l value :
  represents h K -> K !! this = Some l -> elements_backward h this value = Ok (reverse (elements value l)).
Proof.
  intros H Hl. pose proof (kids_size _ _ _ _ H Hl) as Hs. destruct (r_kids _ _ H this l Hl) as (_ & Hla & _ & Hd).
  unfold elements_backward, LastChildElement. rewrite (load_fld _ _ _ _ Hla). cbn [mbind result_bind].
  apply (backward_from h this value l Hs None); [done| |done]. unfold element_fuel. lia.
Qed.
End navigate.

(** C32: The loops over elements see each of them once.  After any edits that make
    a tree, the loop from [FirstChildElement] over [NextSiblingElement] visits
    exactly the children that are elements of the name asked for, or all elements
    without a name, in their order, and the loop from [LastChildElement] over
    [PreviousSiblingElement] visits the same in the opposite order; both end. *)
Theorem elements_visited (element_name : nat -> option (list byte)) es K this l value :
  edits_all ∅ es K -> K !! this = Some l ->
  exists h, run_edits ∅ es = Ok h /\
    elements_forward element_name h this value = Ok (elements element_name value l) /\
    elements_backward element_name h this value = Ok (reverse (elements element_name value l)).
Proof.
  intros Hes Hl. destruct (edits_spec ∅ ∅ es K nothing_represents Hes) as (h & E & H). exists h. split; [done|].
  split; [by eapply forward_elements|by eapply backward_elements].
Qed.

Definition demo_names (node : nat) : option (list byte) :=
  match node with 1%nat | 3%nat => Some (bytes "row") | 2%nat => Some (bytes "head") | _ => None end.

Definition demo_rows : list edit := [New 0; New 1; New 2; New 3; New 4; InsertEnd 0 2; InsertEnd 0 1; InsertEnd 0 4; InsertEnd 0 3].

Lemma elements_visited_witness :
  exists h, run_edits ∅ demo_rows = Ok h /\
    elements_forward demo_names h 0 (Some (bytes "row")) = Ok [1; 3]%nat /\
    elements_backward demo_names h 0 (Some (bytes "row")) = Ok [3; 1]%nat.
Proof.
  assert (Hes : edits_all ∅ demo_rows (<[0 := [2; 1; 4; 3]]> (<[1 := []]> (<[2 := []]> (<[3 := []]> (<[4 := []]> ∅)))))%nat).
  { unfold demo_rows. do 9 edit_step. match goal with |- edits_all ?K [] ?K' => replace K' with K by (by vm_compute) end. constructor. }
  exact (elements_visited demo_names demo_rows _ 0 [2; 1; 4; 3]%nat (Some (bytes "row")) Hes eq_refl).
Defined.
