(* ===== verification/XmlPool.v ===== *)
(** * Where the nodes live (src/tinyxml2/tinyxml2.h, class MemPoolT)

    Nodes and attributes are made in pools.  A pool cuts blocks of memory into
    items of one size and links the items that are not used: an item that is free
    holds the link to the next one in the memory the object had.  The memory is
    one store of items for all pools, since an object is given back to the pool it
    points to. *)

From S2P Require Import Prelude DynArray.

(** ** Kinds of objects *)

Inductive kind := KElement | KAttribute | KText | KComment | KDeclaration | KUnknown.

Inductive which := ElementPool | AttributePool | TextPool | CommentPool.

#[export] Instance which_eq_dec : EqDecision which.
Proof. solve_decision. Defined.

(** The pool the document takes an object of a kind from. *)
Definition pool_of (k : kind) : which :=
  match k with
  | KElement => ElementPool | KAttribute => AttributePool | KText => TextPool
  | KComment | KDeclaration | KUnknown => CommentPool
  end.

(** [MemPoolT< sizeof(XMLElement) > _elementPool], ... *)
Definition made_for (w : which) : kind :=
  match w with ElementPool => KElement | AttributePool => KAttribute | TextPool => KText | CommentPool => KComment end.

(** What a document keeps of an object: its class, and its [_memPool]. *)
Record object := Object { ob_kind : kind; ob_memPool : which }.

(** ** Memory *)

(** Block and item in the block. *)
Abbreviation addr := (nat * nat)%type.

(** [Raw]: allocated, nothing constructed in it yet. *)
Inductive chunk := FreeItem (next : option addr) | Raw | Mem (x : object).

Record memory := Memory {
  items : gmap addr chunk;
  item_size : gmap nat Z;      (** of each block *)
  next_block : nat;
}.

Record MemPool := Pool {
  _blockPtrs : DynArray nat;
  _root : option addr;
  _currentAllocs : Z;
  _nAllocs : Z;
  _maxAllocs : Z;
  _nUntracked : Z;
}.

Definition BLOCKS_INIT : Z := 10.
Definition new_MemPool : MemPool := Pool (new_DynArray BLOCKS_INIT) None 0 0 0 0.

Section pool.
Context (SIZE : Z).

Definition COUNT : Z := 1024 / SIZE.

(** The loop over the items of a block: the link of the last one is null. *)
Fixpoint link_items (b i n : nat) : gmap addr chunk :=
  match n with
  | O => ∅
  | S n => <[(b, i) := FreeItem (if n is O then None else Some (b, S i))]> (link_items b (S i) n)
  end.

(** [new Block()] *)
Definition new_block (m : memory) : nat * memory :=
  let b := next_block m in
  (b, Memory (link_items b 0 (Z.to_nat COUNT) ∪ items m) (<[b := SIZE]> (item_size m)) (S b)).

(** The branch of [Alloc] without a free item. *)
Definition refill (p : MemPool) (m : memory) : result (MemPool * memory) :=
  match _root p with
  | Some _ => Ok (p, m)
  | None =>
      let '(b, m) := new_block m in
      blocks ← Push b (_blockPtrs p);
      Ok (Pool blocks (Some (b, 0%nat)) (_currentAllocs p) (_nAllocs p) (_maxAllocs p) (_nUntracked p), m)
  end.

Definition Alloc (p : MemPool) (m : memory) : result (addr * MemPool * memory) :=
  '(p, m) ← refill p m;
  match _root p with
  | None => Err Undefined
  | Some a =>
      match items m !! a with
      | Some (FreeItem next) =>
          cur ← chk32 (_currentAllocs p + 1);
          let max := if _maxAllocs p <? cur then cur else _maxAllocs p in
          n ← chk32 (_nAllocs p + 1);
          u ← chk32 (_nUntracked p + 1);
          Ok (a, Pool (_blockPtrs p) next cur n max u, Memory (<[a := Raw]> (items m)) (item_size m) (next_block m))
      | _ => Err Undefined
      end
  end.
End pool.

(** The item becomes the first of the free ones, whatever it holds. *)
Definition Free (mem : option addr) (p : MemPool) (m : memory) : result (MemPool * memory) :=
  match mem with
  | None => Ok (p, m)
  | Some a =>
      cur ← chk32 (_currentAllocs p - 1);
      _ ← of_option Undefined (items m !! a);
      Ok (Pool (_blockPtrs p) (Some a) cur (_nAllocs p) (_maxAllocs p) (_nUntracked p),
          Memory (<[a := FreeItem (_root p)]> (items m)) (item_size m) (next_block m))
  end.

Definition SetTracked (p : MemPool) : result MemPool :=
  u ← chk32 (_nUntracked p - 1);
  Ok (Pool (_blockPtrs p) (_root p) (_currentAllocs p) (_nAllocs p) (_maxAllocs p) u).

(** ** The pools of a document *)

Section document.
Context (sizeof : kind -> Z).

Record pools := Pools { elementPool : MemPool; attributePool : MemPool; textPool : MemPool; commentPool : MemPool }.

Definition pool_at (w : which) (ps : pools) : MemPool :=
  match w with
  | ElementPool => elementPool ps | AttributePool => attributePool ps
  | TextPool => textPool ps | CommentPool => commentPool ps
  end.

Definition set_pool (w : which) (p : MemPool) (ps : pools) : pools :=
  Pools (if w is ElementPool then p else elementPool ps) (if w is AttributePool then p else attributePool ps)
    (if w is TextPool then p else textPool ps) (if w is CommentPool then p else commentPool ps).

Definition new_pools : pools := Pools new_MemPool new_MemPool new_MemPool new_MemPool.
Definition new_memory : memory := Memory ∅ ∅ 0.

(** [new (pool.Alloc()) T( this )] and the assignment of [_memPool] behind it.  The
    code has this pair of lines once for every kind of object; the kind decides
    which pool both lines name, [pool_of].  The object has to fit. *)
Definition new_object (k : kind) (ps : pools) (m : memory) : result (addr * pools * memory) :=
  let w := pool_of k in
  '(a, p, m) ← Alloc (sizeof (made_for w)) (pool_at w ps) m;
  size ← of_option Undefined (item_size m !! fst a);
  if size <? sizeof k then Err Undefined
  else Ok (a, set_pool w p ps, Memory (<[a := Mem (Object k w)]> (items m)) (item_size m) (next_block m)).

(** The object at an address. *)
Definition object_at (a : addr) (m : memory) : result object :=
  match items m !! a with Some (Mem x) => Ok x | _ => Err Undefined end.

(** [DELETE_NODE], [DELETE_ATTRIBUTE]: the pool is read before the destructor runs. *)
Definition delete_object (a : addr) (ps : pools) (m : memory) : result (pools * memory) :=
  x ← object_at a m;
  let w := ob_memPool x in
  '(p, m) ← Free (Some a) (pool_at w ps) (Memory (<[a := Raw]> (items m)) (item_size m) (next_block m));
  Ok (set_pool w p ps, m).

(** [addThis->_memPool->SetTracked()] *)
Definition set_tracked (a : addr) (ps : pools) (m : memory) : result pools :=
  x ← object_at a m;
  p ← SetTracked (pool_at (ob_memPool x) ps);
  Ok (set_pool (ob_memPool x) p ps).

(** The assertions of [~XMLDocument], with all nodes deleted. *)
Definition balanced (p : MemPool) : bool := _currentAllocs p =? _nUntracked p.
Definition document_balanced (ps : pools) : bool :=
  balanced (elementPool ps) && balanced (attributePool ps) && balanced (textPool ps) && balanced (commentPool ps).
End document.
