(* ===== verification/XmlPoolRun.v ===== *)
(** * The pools keep objects apart

    The invariant of a document's pools, that every operation keeps it, and what
    it means for the objects: their memory is theirs, and big enough. *)

From S2P Require Import Prelude DynArray XmlPool.

#[local] Set Warnings "-clear-no-such-hyp".

Section spec.
Context (sizeof : kind -> Z).

Abbreviation size_of w := (sizeof (made_for w)).
Definition per_block (w : which) : Z := COUNT (size_of w).

(** The free items from [root] on. *)
Fixpoint chain (its : gmap addr chunk) (root : option addr) (l : list addr) : Prop :=
  match l with
  | [] => root = None
  | a :: l => root = Some a /\ exists next, its !! a = Some (FreeItem next) /\ chain its next l
  end.

Definition count (w : which) (live : gmap addr object) : Z := Z.of_nat (size (filter (fun ax => ob_memPool ax.2 = w) live)).

(** [N] bounds the counters. *)
Record pool_ok (N : Z) (w : which) (p : MemPool) (m : memory) (live : gmap addr object) (fr : list addr) (bl : list nat) : Prop := {
  po_chain : chain (items m) (_root p) fr;
  po_nodup : NoDup fr;
  po_sizes : forall a, a ∈ fr -> item_size m !! fst a = Some (size_of w);
  po_blocks : holds BLOCKS_INIT (_blockPtrs p) (Some <$> bl);
  po_current : _currentAllocs p = count w live;
  po_items : count w live + zlen fr = per_block w * zlen bl;
  po_max : _currentAllocs p <= _maxAllocs p <= N /\ per_block w * zlen bl < _maxAllocs p + per_block w;
  po_bounds : 0 <= _nAllocs p <= N /\ - N <= _nUntracked p <= N
}.

Record memory_ok (m : memory) (live : gmap addr object) (fr : which -> list addr) : Prop := {
  mo_live : forall a x, items m !! a = Some (Mem x) <-> live !! a = Some x;
  mo_items : forall a, is_Some (items m !! a) -> (fst a < next_block m)%nat;
  mo_sizes : forall b, is_Some (item_size m !! b) -> (b < next_block m)%nat;
  mo_apart : forall w w' a, a ∈ fr w -> a ∈ fr w' -> w = w';
  mo_typed : forall a x, live !! a = Some x ->
    ob_memPool x = pool_of (ob_kind x) /\ item_size m !! fst a = Some (size_of (ob_memPool x))
}.

Definition doc_ok (N : Z) (ps : pools) (m : memory) (live : gmap addr object) : Prop :=
  exists fr bl, memory_ok m live fr /\ forall w, pool_ok N w (pool_at w ps) m live (fr w) (bl w).

Definition upd {A} (f : which -> A) (w : which) (a : A) : which -> A := fun w' => if decide (w' = w) then a else f w'.

Lemma upd_eq {A} (f : which -> A) w a : upd f w a w = a.
Proof. unfold upd. by rewrite decide_True. Qed.
Lemma upd_ne {A} (f : which -> A) w w' a : w' <> w -> upd f w a w' = f w'.
Proof. intros. unfold upd. by rewrite decide_False. Qed.

Lemma pool_at_set w w' p ps : pool_at w (set_pool w' p ps) = if decide (w = w') then p else pool_at w ps.
Proof. by destruct w, w'. Qed.

(** ** Chains *)

Lemma free_chain_frame its its' l : forall root,
  (forall a, a ∈ l -> its' !! a = its !! a) -> chain its root l -> chain its' root l.
Proof.
  induction l as [|a l IH]; intros root Hag; [done|]. intros (-> & next & Ha & Hc). split; [done|]. exists next.
  split; [by rewrite Hag by (by left)|]. apply IH; [|done]. intros b Hb. apply Hag. by right.
Qed.

Lemma chain_free its root l a : chain its root l -> a ∈ l -> exists next, its !! a = Some (FreeItem next).
Proof.
  revert root. induction l as [|b l IH]; intros root; [by intros _ ?%elem_of_nil|].
  intros (-> & next & Hb & Hc) [->|Ha]%elem_of_cons; [by exists next|by eapply IH].
Qed.

Lemma link_items_lookup b n : forall i b' j,
  link_items b i n !! (b', j) =
    if decide (b' = b /\ (i <= j < i + n)%nat)
    then Some (FreeItem (if decide (S j = (i + n)%nat) then None else Some (b, S j))) else None.
Proof.
  induction n as [|n IH]; intros i b' j; cbn [link_items].
  { rewrite lookup_empty, decide_False; [done|lia]. }
  destruct (decide ((b', j) = (b, i))) as [[= -> ->]|Hne].
  - rewrite lookup_insert_eq. destruct (decide (b = b /\ (i <= i < i + S n)%nat)) as [_|Hn]; [|destruct Hn; split; [done|lia]].
    destruct n; [by rewrite decide_True by lia|by rewrite decide_False by lia].
  - rewrite lookup_insert_ne by congruence. rewrite IH.
    destruct (decide (b' = b /\ _)) as [[-> Hj]|Hj].
    + destruct (decide (b = b /\ (i <= j < i + S n)%nat)) as [_|Hn]; [|destruct Hn; split; [done|lia]].
      by replace (S i + n)%nat with (i + S n)%nat by lia.
    + rewrite decide_False; [done|]. intros [-> Hj']. apply Hj. split; [done|]. destruct (decide (j = i)) as [->|]; [done|lia].
Qed.

Lemma link_items_chain its b n : forall i,
  (forall j, (i <= j < i + n)%nat -> its !! (b, j) = link_items b i n !! (b, j)) ->
  chain its (if n is O then None else Some (b, i)) (pair b <$> seq i n).
Proof.
  induction n as [|n IH]; intros i Hag; cbn [seq fmap list_fmap chain]; [done|]. split; [done|].
  exists (if n is O then None else Some (b, S i)). split.
  - rewrite Hag by lia. cbn [link_items]. by rewrite lookup_insert_eq.
  - apply IH. intros j Hj. rewrite Hag by lia. cbn [link_items]. rewrite lookup_insert_ne; [done|]. intros [= ->]. lia.
Qed.

(** ** A new block *)

Definition sizes_fit : Prop :=
  (forall w, 0 < size_of w <= 1024) /\ (forall k, sizeof k <= size_of (pool_of k)).

Lemma per_block_pos w : sizes_fit -> 1 <= per_block w.
Proof. intros [Hs _]. unfold per_block, COUNT. apply Z.div_le_lower_bound; specialize (Hs w); lia. Qed.

Lemma refill_root N w p m live fr bl a l :
  pool_ok N w p m live fr bl -> fr = a :: l -> refill (size_of w) p m = Ok (p, m).
Proof. intros Hp ->. destruct (po_chain _ _ _ _ _ _ _ Hp) as [Hr _]. unfold refill. by rewrite Hr. Qed.

Lemma refill_spec N w ps m live fr bl :
  sizes_fit -> N < 2 ^ 29 -> memory_ok m live fr -> (forall w, pool_ok N w (pool_at w ps) m live (fr w) (bl w)) ->
  fr w = [] ->
  exists p' m' l, refill (size_of w) (pool_at w ps) m = Ok (p', m') /\ l <> [] /\
    memory_ok m' live (upd fr w l) /\
    _currentAllocs p' = _currentAllocs (pool_at w ps) /\ _nAllocs p' = _nAllocs (pool_at w ps) /\
    _maxAllocs p' = _maxAllocs (pool_at w ps) /\ _nUntracked p' = _nUntracked (pool_at w ps) /\
    chain (items m') (_root p') l /\ NoDup l /\ (forall a, a ∈ l -> item_size m' !! fst a = Some (size_of w)) /\
    holds BLOCKS_INIT (_blockPtrs p') (Some <$> (bl w ++ [next_block m])) /\ zlen l = per_block w /\
    (forall w', w' <> w -> pool_ok N w' (pool_at w' ps) m' live (fr w') (bl w')).
Proof.
  intros Hsz HN Hm Hp Hnil. pose proof (Hp w) as Hw. pose proof (po_chain _ _ _ _ _ _ _ Hw) as Hroot. rewrite Hnil in Hroot.
  pose proof (per_block_pos w Hsz) as Hpos. unfold refill. rewrite Hroot. cbn [new_block].
  set (b := next_block m). set (n := Z.to_nat (COUNT (size_of w))).
  assert (Hn : (0 < n)%nat) by (unfold n; unfold per_block in Hpos; lia).
  destruct (array_push_spec _ _ _ b (po_blocks _ _ _ _ _ _ _ Hw)) as (blocks & -> & Hbl).
  { pose proof (po_items _ _ _ _ _ _ _ Hw). pose proof (po_max _ _ _ _ _ _ _ Hw). rewrite zlen_fmap.
    pose proof (zlen_nonneg (bl w)). nia. }
  cbn [mbind result_bind].
  assert (Hold : forall a, is_Some (items m !! a) -> link_items b 0 n !! a = None).
  { intros [b' j] Ha. apply (mo_items _ _ _ Hm) in Ha. rewrite link_items_lookup, decide_False; [done|]. intros [-> _]. cbn in Ha. unfold b in *. lia. }
  assert (Hkeep : forall a c, items m !! a = Some c -> (link_items b 0 n ∪ items m) !! a = Some c).
  { intros a c Ha. rewrite lookup_union_r; [done|]. apply Hold. by exists c. }
  eexists _, _, (pair b <$> seq 0 n). split; [done|]. cbn [_root _currentAllocs _nAllocs _maxAllocs _nUntracked _blockPtrs items item_size next_block].
  split; [by destruct n; [lia|]|]. split; [|split_and!; try done].
  - split; cbn [items item_size next_block].
    + intros a x. rewrite <- (mo_live _ _ _ Hm). split; [|apply Hkeep]. rewrite lookup_union_Some_raw.
      intros [Hl|[_ Hl]]; [|done]. destruct a as [b' j]. rewrite link_items_lookup in Hl. by destruct (decide _).
    + intros a [c Ha]. rewrite lookup_union_Some_raw in Ha. destruct Ha as [Ha|[_ Ha]].
      * destruct a as [b' j]. rewrite link_items_lookup in Ha. destruct (decide _) as [[-> _]|]; [cbn; lia|done].
      * pose proof (mo_items _ _ _ Hm a (ex_intro _ c Ha)). unfold b. lia.
    + intros b' [c Hb]. destruct (decide (b' = b)) as [->|Hne]; [lia|]. rewrite lookup_insert_ne in Hb by done.
      pose proof (mo_sizes _ _ _ Hm b' (ex_intro _ c Hb)). unfold b. lia.
    + assert (Hnew : forall w' a, a ∈ pair b <$> seq 0 n -> a ∈ fr w' -> False).
      { intros w' a (j & -> & _)%list_elem_of_fmap Ha. destruct (chain_free _ _ _ _ (po_chain _ _ _ _ _ _ _ (Hp w')) Ha) as [nx E].
        pose proof (mo_items _ _ _ Hm _ (ex_intro _ _ E)) as Hb. cbn in Hb. unfold b in Hb. lia. }
      intros w1 w2 a. unfold upd. destruct (decide (w1 = w)) as [->|H1], (decide (w2 = w)) as [->|H2]; try done; intros Ha1 Ha2.
      * by destruct (Hnew w2 a).
      * by destruct (Hnew w1 a).
      * by apply (mo_apart _ _ _ Hm w1 w2 a).
    + intros a x Ha. destruct (mo_typed _ _ _ Hm a x Ha) as [Ht Hs]. split; [done|]. rewrite lookup_insert_ne; [done|].
      intros Heq. pose proof (mo_sizes _ _ _ Hm _ (ex_intro _ _ Hs)). unfold b in *. lia.
  - pose proof (link_items_chain (link_items b 0 n ∪ items m) b n 0) as Hc. destruct n as [|n']; [lia|]. apply Hc.
    intros j Hj. destruct (link_items b 0 (S n') !! (b, j)) eqn:E; [by apply lookup_union_Some_l|].
    rewrite link_items_lookup, decide_True in E by (split; [done|lia]). done.
  - apply NoDup_fmap_2; [congruence|]. apply NoDup_seq.
  - intros a (j & -> & _)%list_elem_of_fmap. cbn [fst]. by rewrite lookup_insert_eq.
  - by rewrite fmap_app.
  - unfold per_block. rewrite zlen_fmap. unfold zlen. rewrite length_seq. unfold n. unfold per_block in Hpos. lia.
  - intros w' Hw'. destruct (Hp w') as [H1 H2 H3 H4 H5 H6 H7 H8]. split; cbn [items item_size]; try done.
    + eapply free_chain_frame; [|done]. intros a Ha. destruct (chain_free _ _ _ _ H1 Ha) as [nx E]. rewrite E. by apply Hkeep.
    + intros a Ha. rewrite lookup_insert_ne; [by apply H3|]. intros Heq.
      pose proof (mo_sizes _ _ _ Hm _ (ex_intro _ _ (H3 a Ha))). unfold b in *. lia.
Qed.

(** ** Taking an item *)

(** The pool [p] with the free items [a :: l], the other pools untouched. *)
Record ready (N : Z) (w : which) (ps : pools) (p : MemPool) (m : memory) live fr (bl : which -> list nat) a l (blocks : list nat) : Prop := {
  rd_memory : memory_ok m live (upd fr w (a :: l));
  rd_counters : _currentAllocs p = _currentAllocs (pool_at w ps) /\ _nAllocs p = _nAllocs (pool_at w ps) /\
    _maxAllocs p = _maxAllocs (pool_at w ps) /\ _nUntracked p = _nUntracked (pool_at w ps);
  rd_chain : chain (items m) (_root p) (a :: l);
  rd_nodup : NoDup (a :: l);
  rd_sizes : forall b, b ∈ a :: l -> item_size m !! fst b = Some (size_of w);
  rd_blocks : holds BLOCKS_INIT (_blockPtrs p) (Some <$> blocks);
  rd_items : count w live + zlen (a :: l) = per_block w * zlen blocks;
  rd_max : per_block w * zlen blocks < Z.max (_maxAllocs p) (_currentAllocs p + 1) + per_block w;
  rd_others : forall w', w' <> w -> pool_ok N w' (pool_at w' ps) m live (fr w') (bl w')
}.

Lemma upd_same {A} (f : which -> A) w x : f w = x -> forall w', upd f w x w' = f w'.
Proof. intros E w'. unfold upd. by destruct (decide (w' = w)) as [->|]. Qed.

Lemma memory_ok_ext m live fr fr' : (forall w, fr' w = fr w) -> memory_ok m live fr -> memory_ok m live fr'.
Proof. intros Hf [H1 H2 H3 H4 H5]. split; try done. intros w w' a. rewrite !Hf. apply H4. Qed.

Lemma ready_spec N w ps m live fr bl :
  sizes_fit -> N < 2 ^ 29 -> memory_ok m live fr -> (forall w, pool_ok N w (pool_at w ps) m live (fr w) (bl w)) ->
  exists p m' a l blocks, refill (size_of w) (pool_at w ps) m = Ok (p, m') /\ ready N w ps p m' live fr bl a l blocks.
Proof.
  intros Hsz HN Hm Hp. pose proof (Hp w) as [H1 H2 H3 H4 H5 H6 H7 H8]. destruct (fr w) as [|a l] eqn:Efr.
  - destruct (refill_spec N w ps m live fr bl Hsz HN Hm Hp Efr)
      as (p & m' & l & E & Hl & Hm' & C1 & C2 & C3 & C4 & Hc & Hnd & Hs & Hb & Hlen & Ho).
    destruct l as [|a l]; [done|]. exists p, m', a, l, (bl w ++ [next_block m]). split; [done|].
    rewrite zlen_nil in H6. pose proof (per_block_pos w Hsz). split; try done; rewrite zlen_app, Z.mul_add_distr_l; change (zlen [next_block m]) with 1; lia.
  - exists (pool_at w ps), m, a, l, (bl w). split; [by eapply refill_root|]. split; try done.
    + eapply memory_ok_ext; [|done]. by apply upd_same.
    + lia.
Qed.

Lemma count_insert w live a x :
  live !! a = None -> count w (<[a := x]> live) = count w live + (if decide (ob_memPool x = w) then 1 else 0).
Proof.
  intros Ha. unfold count. destruct (decide (ob_memPool x = w)) as [Hx|Hx].
  - rewrite map_filter_insert_True by done. rewrite map_size_insert_None; [lia|]. apply map_lookup_filter_None. by left.
  - rewrite map_filter_insert_False by done. rewrite delete_id by done. lia.
Qed.

Lemma count_delete w live a x :
  live !! a = Some x -> count w (delete a live) = count w live - (if decide (ob_memPool x = w) then 1 else 0).
Proof.
  intros Ha. rewrite <- (insert_delete_id live a x Ha) at 2. rewrite count_insert by apply lookup_delete_eq. lia.
Qed.

Lemma count_nonneg w live : 0 <= count w live.
Proof. unfold count. lia. Qed.

Lemma free_item m live fr a : memory_ok m live fr -> (exists next, items m !! a = Some (FreeItem next)) -> live !! a = None.
Proof.
  intros Hm [next E]. destruct (live !! a) as [x|] eqn:Ea; [|done]. apply (mo_live _ _ _ Hm) in Ea. congruence.
Qed.

(** An item that is written leaves the other free items as they are. *)
Lemma others_keep N w' p m m' live live' fr bl a :
  pool_ok N w' p m live fr bl -> (forall b, b <> a -> items m' !! b = items m !! b) -> item_size m' = item_size m ->
  a ∉ fr -> count w' live' = count w' live -> pool_ok N w' p m' live' fr bl.
Proof.
  intros [H1 H2 H3 H4 H5 H6 H7 H8] Hag Hsz Ha Hc. split; rewrite ?Hsz, ?Hc; try done.
  eapply free_chain_frame; [|done]. intros b Hb. apply Hag. by intros ->.
Qed.

Lemma pool_ok_mono N N' w p m live fr bl : N <= N' -> pool_ok N w p m live fr bl -> pool_ok N' w p m live fr bl.
Proof. intros HN [H1 H2 H3 H4 H5 H6 H7 H8]. split; try done; lia. Qed.

(** The memory when the object [x] has taken the item [a]. *)
Lemma memory_taken m live fr w a l x its :
  memory_ok m live (upd fr w (a :: l)) -> a ∉ l -> live !! a = None -> is_Some (items m !! a) ->
  its = <[a := Mem x]> (items m) ->
  ob_memPool x = pool_of (ob_kind x) -> item_size m !! fst a = Some (size_of (ob_memPool x)) ->
  memory_ok (Memory its (item_size m) (next_block m)) (<[a := x]> live) (upd fr w l).
Proof.
  intros [H1 H2 H3 H4 H5] Hal Ha Hi -> Ht Hs. split; cbn [items item_size next_block]; [| |done| |].
  - intros b y. destruct (decide (b = a)) as [->|Hb]; [rewrite !lookup_insert_eq; split; by intros [= <-]|].
    by rewrite !lookup_insert_ne.
  - intros b Hb. destruct (decide (b = a)) as [->|Hne]; [by apply H2|]. rewrite lookup_insert_ne in Hb by done. by apply H2.
  - intros w1 w2 b Hb1 Hb2. apply (H4 w1 w2 b); unfold upd in *.
    + destruct (decide (w1 = w)); [by right|done].
    + destruct (decide (w2 = w)); [by right|done].
  - intros b y. destruct (decide (b = a)) as [->|Hb]; [rewrite lookup_insert_eq; by intros [= <-]|].
    rewrite lookup_insert_ne by done. apply H5.
Qed.

Lemma not_free_other m live fr w a l w' : memory_ok m live (upd fr w (a :: l)) -> w' <> w -> a ∉ fr w'.
Proof.
  intros Hm Hne Ha. apply Hne. eapply (mo_apart _ _ _ Hm w' w a); [by rewrite upd_ne|]. rewrite upd_eq. by left.
Qed.

Lemma new_object_spec N ps m live k :
  sizes_fit -> N + 1 < 2 ^ 29 -> doc_ok N ps m live ->
  exists a ps' m', new_object sizeof k ps m = Ok (a, ps', m') /\ live !! a = None /\
    doc_ok (N + 1) ps' m' (<[a := Object k (pool_of k)]> live) /\
    forall w, _nUntracked (pool_at w ps') = _nUntracked (pool_at w ps) + (if decide (w = pool_of k) then 1 else 0).
Proof.
  intros Hsz HN (fr & bl & Hm & Hp). set (w := pool_of k). unfold new_object. fold w.
  destruct (ready_spec N w ps m live fr bl Hsz ltac:(lia) Hm Hp) as (p & m1 & a & l & blocks & E & Hr).
  pose proof (Hp w) as Hw. unfold Alloc. rewrite E. cbn [mbind result_bind].
  destruct Hr as [R1 (C1 & C2 & C3 & C4) [Eroot (next & Ea & Hc)] R4 R5 R6 R7 R8 R9]. rewrite Eroot, Ea.
  pose proof (po_max _ _ _ _ _ _ _ Hw) as [Hmax _]. pose proof (po_bounds _ _ _ _ _ _ _ Hw). pose proof (po_current _ _ _ _ _ _ _ Hw).
  pose proof (count_nonneg w live). rewrite !chk32_ok by lia. cbn [mbind result_bind item_size items next_block].
  rewrite (R5 a ltac:(by left)). cbn [of_option mbind result_bind].
  rewrite (proj2 (Z.ltb_ge _ _)) by apply (proj2 Hsz k). apply NoDup_cons in R4 as [Hal Hnd].
  assert (Hfree : live !! a = None) by (eapply (free_item m1); [done|by exists next]).
  eexists _, _, _. split; [done|]. split; [done|]. split.
  - exists (upd fr w l), (upd bl w blocks). split.
    + eapply memory_taken; [done..|by rewrite Ea|by rewrite insert_insert_eq|done|by apply R5; left].
    + intros w'. rewrite pool_at_set. destruct (decide (w' = w)) as [->|Hne].
      * rewrite !upd_eq. assert (Hcnt : count w (<[a := Object k w]> live) = count w live + 1).
        { rewrite count_insert by done. by rewrite decide_True. }
        rewrite zlen_cons in R7. split; cbn [_root _blockPtrs _currentAllocs _nAllocs _maxAllocs _nUntracked items item_size]; try done.
        -- eapply free_chain_frame; [|done]. intros b Hb. rewrite insert_insert_eq, lookup_insert_ne; [done|]. by intros ->.
        -- intros b Hb. apply R5. by right.
        -- lia.
        -- lia.
        -- destruct (Z.ltb_spec (_maxAllocs p) (_currentAllocs p + 1)); lia.
        -- lia.
      * rewrite !upd_ne by done. apply (pool_ok_mono N); [lia|]. eapply (others_keep N w' _ m1 _ live _ _ _ a); [by apply R9| |done| |].
        -- intros b Hb. cbn [items]. by rewrite insert_insert_eq, lookup_insert_ne.
        -- by eapply not_free_other.
        -- rewrite count_insert by done. cbn [ob_memPool]. rewrite decide_False; [lia|done].
  - intros w'. rewrite pool_at_set. destruct (decide (w' = w)) as [->|Hne]; [|lia]. cbn [_nUntracked]. lia.
Qed.

(** ** Giving an item back *)

Lemma memory_freed m live fr w a x next :
  memory_ok m live fr -> live !! a = Some x -> (forall w', a ∉ fr w') ->
  memory_ok (Memory (<[a := FreeItem next]> (items m)) (item_size m) (next_block m)) (delete a live) (upd fr w (a :: fr w)).
Proof.
  intros [H1 H2 H3 H4 H5] Ha Hnot. split; cbn [items item_size next_block]; [| |done| |].
  - intros b y. destruct (decide (b = a)) as [->|Hb]; [rewrite lookup_insert_eq, lookup_delete_eq; split; by intros [=]|].
    by rewrite lookup_insert_ne, lookup_delete_ne.
  - intros b Hb. destruct (decide (b = a)) as [->|Hne]; [|rewrite lookup_insert_ne in Hb by done; by apply H2].
    apply H2. exists (Mem x). by apply H1.
  - intros w1 w2 b. unfold upd. destruct (decide (w1 = w)) as [->|N1], (decide (w2 = w)) as [->|N2]; try done.
    + intros [->|Hb1]%elem_of_cons Hb2; [by destruct (Hnot w2)|]. by apply (H4 w w2 b).
    + intros Hb1 [->|Hb2]%elem_of_cons; [by destruct (Hnot w1)|]. by apply (H4 w1 w b).
    + apply H4.
  - intros b y Hb. apply lookup_delete_Some in Hb as [_ Hb]. by apply H5.
Qed.

Lemma live_not_free N ps m live fr bl a x :
  memory_ok m live fr -> (forall w, pool_ok N w (pool_at w ps) m live (fr w) (bl w)) -> live !! a = Some x ->
  forall w, a ∉ fr w.
Proof.
  intros Hm Hp Ha w Hin. destruct (chain_free _ _ _ _ (po_chain _ _ _ _ _ _ _ (Hp w)) Hin) as [next E].
  apply (mo_live _ _ _ Hm) in Ha. congruence.
Qed.

Lemma delete_object_spec N ps m live a x :
  N < 2 ^ 29 -> doc_ok N ps m live -> live !! a = Some x ->
  exists ps' m', delete_object a ps m = Ok (ps', m') /\ doc_ok N ps' m' (delete a live) /\
    forall w, _nUntracked (pool_at w ps') = _nUntracked (pool_at w ps).
Proof.
  intros HN (fr & bl & Hm & Hp) Ha. unfold delete_object, object_at.
  rewrite (proj2 (mo_live _ _ _ Hm a x) Ha). cbn [mbind result_bind]. set (w := ob_memPool x).
  pose proof (Hp w) as Hw. pose proof (live_not_free _ _ _ _ _ _ _ _ Hm Hp Ha) as Hnot. unfold Free. cbn [items item_size next_block].
  assert (Hcnt : count w (delete a live) = count w live - 1) by (rewrite (count_delete _ _ _ _ Ha); by rewrite decide_True).
  pose proof (count_nonneg w (delete a live)). pose proof (po_current _ _ _ _ _ _ _ Hw). pose proof (po_max _ _ _ _ _ _ _ Hw).
  rewrite chk32_ok by lia. cbn [mbind result_bind]. rewrite lookup_insert_eq. cbn [of_option mbind result_bind].
  eexists _, _. split; [done|]. split.
  - exists (upd fr w (a :: fr w)), bl. split.
    + rewrite insert_insert_eq. by eapply memory_freed.
    + intros w'. rewrite pool_at_set. destruct (decide (w' = w)) as [->|Hne].
      * rewrite !upd_eq. destruct Hw as [F1 F2 F3 F4 F5 F6 F7 F8].
        split; cbn [_root _blockPtrs _currentAllocs _nAllocs _maxAllocs _nUntracked items item_size]; try done.
        -- cbn [chain]. split; [done|]. exists (_root (pool_at w ps)). rewrite lookup_insert_eq. split; [done|].
           eapply free_chain_frame; [|done]. intros b Hb. rewrite insert_insert_eq, lookup_insert_ne; [done|]. intros ->. by destruct (Hnot w).
        -- apply NoDup_cons. split; [apply Hnot|done].
        -- intros b [->|Hb]%elem_of_cons; [by apply (mo_typed _ _ _ Hm a x Ha)|by apply F3].
        -- lia.
        -- rewrite zlen_cons. lia.
        -- lia.
      * rewrite !upd_ne by done. eapply (others_keep N w' _ m _ live _ _ _ a); [done| |done|apply Hnot|].
        -- intros b Hb. cbn [items]. by rewrite insert_insert_eq, lookup_insert_ne.
        -- rewrite (count_delete _ _ _ _ Ha), decide_False; [lia|]. by intros <-.
  - intros w'. rewrite pool_at_set. by destruct (decide (w' = w)) as [->|].
Qed.

Lemma set_tracked_spec N ps m live a x :
  N + 1 < 2 ^ 29 -> doc_ok N ps m live -> live !! a = Some x ->
  exists ps', set_tracked a ps m = Ok ps' /\ doc_ok (N + 1) ps' m live /\
    forall w, _nUntracked (pool_at w ps') = _nUntracked (pool_at w ps) - (if decide (w = ob_memPool x) then 1 else 0).
Proof.
  intros HN (fr & bl & Hm & Hp) Ha. unfold set_tracked, object_at.
  rewrite (proj2 (mo_live _ _ _ Hm a x) Ha). cbn [mbind result_bind]. set (w := ob_memPool x).
  pose proof (Hp w) as Hw. pose proof (po_bounds _ _ _ _ _ _ _ Hw). unfold SetTracked. rewrite chk32_ok by lia. cbn [mbind result_bind].
  eexists. split; [done|]. split.
  - exists fr, bl. split; [done|]. intros w'. rewrite pool_at_set.
    destruct (decide (w' = w)) as [->|Hne]; [|apply (pool_ok_mono N); [lia|done]].
    destruct Hw as [F1 F2 F3 F4 F5 F6 F7 F8]. split; cbn [_root _blockPtrs _currentAllocs _nAllocs _maxAllocs _nUntracked]; try done; lia.
  - intros w'. rewrite pool_at_set. destruct (decide (w' = w)) as [->|Hne]; [|lia]. cbn [_nUntracked]. lia.
Qed.

Lemma new_doc_ok : sizes_fit -> doc_ok 0 new_pools new_memory ∅.
Proof.
  intros Hsz. exists (fun _ => []), (fun _ => []). split.
  - split; cbn; [intros a x; by rewrite !lookup_empty|intros a [? Ha]; by rewrite lookup_empty in Ha|
      intros b [? Hb]; by rewrite lookup_empty in Hb|by intros ? ? ? ?%elem_of_nil|intros a x; by rewrite lookup_empty].
  - intros w. assert (pool_at w new_pools = new_MemPool) as -> by (by destruct w). pose proof (per_block_pos w Hsz).
    assert (count w ∅ = 0) as E by (unfold count; by rewrite map_filter_empty).
    split; cbn [new_MemPool _root _blockPtrs _currentAllocs _nAllocs _maxAllocs _nUntracked chain]; rewrite ?E; change (zlen []) with 0; try lia; try done.
    + constructor.
    + by intros a ?%elem_of_nil.
    + by apply array_new_holds.
Qed.

(** ** Sequences of operations *)

(** Objects are named in the order they are made. *)
Inductive op := Create (k : kind) | Track (n : nat) | Destroy (n : nat).

Record state := State { st_pools : pools; st_memory : memory; st_objects : list addr }.
Definition new_state : state := State new_pools new_memory [].

Definition step (o : op) (s : state) : result state :=
  match o with
  | Create k => '(a, ps, m) ← new_object sizeof k (st_pools s) (st_memory s); Ok (State ps m (st_objects s ++ [a]))
  | Track n =>
      a ← of_option Undefined (st_objects s !! n);
      ps ← set_tracked a (st_pools s) (st_memory s); Ok (State ps (st_memory s) (st_objects s))
  | Destroy n =>
      a ← of_option Undefined (st_objects s !! n);
      '(ps, m) ← delete_object a (st_pools s) (st_memory s); Ok (State ps m (st_objects s))
  end.

Fixpoint steps (os : list op) (s : state) : result state :=
  match os with [] => Ok s | o :: os => s ← step o s; steps os s end.

(** What was made: its kind, how often it was tracked, and whether it is alive. *)
Record item := Item { it_kind : kind; it_tracks : Z; it_alive : bool }.

(** Only objects that are alive are used. *)
Definition item_step (o : op) (A : list item) : option (list item) :=
  match o with
  | Create k => Some (A ++ [Item k 0 true])
  | Track n => it ← A !! n; if it_alive it then Some (<[n := Item (it_kind it) (it_tracks it + 1) true]> A) else None
  | Destroy n => it ← A !! n; if it_alive it then Some (<[n := Item (it_kind it) (it_tracks it) false]> A) else None
  end.

Fixpoint item_steps (os : list op) (A : list item) : option (list item) :=
  match os with [] => Some A | o :: os => A ← item_step o A; item_steps os A end.

Definition total (f : item -> Z) (A : list item) : Z := foldr (fun it s => f it + s) 0 A.
Definition in_pool (w : which) (it : item) : bool := bool_decide (pool_of (it_kind it) = w).
Definition alive_in (w : which) (it : item) : Z := if in_pool w it && it_alive it then 1 else 0.
Definition untracked_in (w : which) (it : item) : Z := if in_pool w it then 1 - it_tracks it else 0.

Lemma total_app f A B : total f (A ++ B) = total f A + total f B.
Proof. induction A as [|it A IH]; cbn; [done|]. fold (total f (A ++ B)) (total f A). lia. Qed.

Lemma total_insert f A n it it' : A !! n = Some it -> total f (<[n := it']> A) = total f A - f it + f it'.
Proof.
  intros E. rewrite insert_take_drop by (by eapply lookup_lt_Some). rewrite <- (take_drop_middle A n it E) at 3.
  rewrite !total_app. cbn. fold (total f (drop (S n) A)). lia.
Qed.

Record sim (N : Z) (s : state) (A : list item) (live : gmap addr object) : Prop := {
  sm_ok : doc_ok N (st_pools s) (st_memory s) live;
  sm_length : length (st_objects s) = length A;
  sm_live : forall n a it, st_objects s !! n = Some a -> A !! n = Some it -> it_alive it = true ->
    live !! a = Some (Object (it_kind it) (pool_of (it_kind it)));
  sm_apart : forall n n' a it it', st_objects s !! n = Some a -> st_objects s !! n' = Some a -> A !! n = Some it -> A !! n' = Some it' ->
    it_alive it = true -> it_alive it' = true -> n = n';
  sm_count : forall w, count w live = total (alive_in w) A;
  sm_untracked : forall w, _nUntracked (pool_at w (st_pools s)) = total (untracked_in w) A
}.

Lemma sim_new N s A live k :
  sizes_fit -> N + 1 < 2 ^ 29 -> sim N s A live ->
  exists s' live', step (Create k) s = Ok s' /\ sim (N + 1) s' (A ++ [Item k 0 true]) live'.
Proof.
  intros Hsz HN [H1 H2 H3 H4 H5 H6]. cbn [step].
  destruct (new_object_spec N _ _ live k Hsz HN H1) as (a & ps & m & -> & Ha & Hok & Hu). cbn [mbind result_bind].
  eexists _, _. split; [done|].
  assert (Hold : forall n it, (st_objects s ++ [a]) !! n = Some it -> n = length A /\ it = a \/ st_objects s !! n = Some it).
  { intros n it [E|[Hge E]]%lookup_app_Some; [by right|]. left. apply list_lookup_singleton_Some in E as [E <-]. split; [lia|done]. }
  assert (HoldA : forall n it, (A ++ [Item k 0 true]) !! n = Some it -> n = length A /\ it = Item k 0 true \/ A !! n = Some it).
  { intros n it [E|[Hge E]]%lookup_app_Some; [by right|]. left. apply list_lookup_singleton_Some in E as [E <-]. split; [lia|done]. }
  assert (Hlt : forall n b, st_objects s !! n = Some b -> n <> length A).
  { intros n b E ->. apply lookup_lt_Some in E. lia. }
  assert (HltA : forall n it, A !! n = Some it -> n <> length A).
  { intros n it E ->. apply lookup_lt_Some in E. lia. }
  split; cbn [st_pools st_memory st_objects]; [done|rewrite !length_app, H2; done| | | |].
  - intros n b it Hn Hit Hal. destruct (Hold _ _ Hn) as [[-> ->]|Hn'], (HoldA _ _ Hit) as [[E ->]|Hit'].
    + by rewrite lookup_insert_eq.
    + by destruct (HltA _ _ Hit').
    + by destruct (Hlt _ _ Hn').
    + rewrite lookup_insert_ne; [by eapply H3|]. intros <-. rewrite (H3 _ _ _ Hn' Hit' Hal) in Ha. done.
  - intros n n' b it it' Hn Hn' Hit Hit' Hal Hal'.
    destruct (Hold _ _ Hn) as [[-> ->]|Hn1], (Hold _ _ Hn') as [[-> Eb]|Hn1']; [done| | |].
    + destruct (HoldA _ _ Hit') as [[-> _]|Hit1']; [done|]. rewrite (H3 _ _ _ Hn1' Hit1' Hal') in Ha. done.
    + subst b. destruct (HoldA _ _ Hit) as [[-> _]|Hit1]; [done|]. rewrite (H3 _ _ _ Hn1 Hit1 Hal) in Ha. done.
    + destruct (HoldA _ _ Hit) as [[-> _]|Hit1]; [by destruct (Hlt _ _ Hn1)|].
      destruct (HoldA _ _ Hit') as [[-> _]|Hit1']; [by destruct (Hlt _ _ Hn1')|]. by eapply H4.
  - intros w. rewrite count_insert, total_app, H5 by done. cbn. unfold alive_in, in_pool. cbn [it_kind it_alive ob_memPool].
    rewrite andb_true_r. case_decide; [rewrite bool_decide_eq_true_2 by done|rewrite bool_decide_eq_false_2 by done]; lia.
  - intros w. rewrite Hu, total_app, H6. cbn. unfold untracked_in, in_pool. cbn [it_kind it_tracks].
    case_decide; [rewrite bool_decide_eq_true_2 by done|rewrite bool_decide_eq_false_2 by congruence]; lia.
Qed.

Lemma same_kind (A : list item) n it it' n' x :
  A !! n = Some it -> <[n := it']> A !! n' = Some x -> it_kind it' = it_kind it ->
  exists x0, A !! n' = Some x0 /\ it_kind x = it_kind x0 /\ (n' <> n -> x = x0) /\ (n' = n -> x = it').
Proof.
  intros Hit Hx Hk. destruct (decide (n' = n)) as [->|Hne].
  - rewrite list_lookup_insert_eq in Hx by (by eapply lookup_lt_Some). injection Hx as <-. by exists it.
  - rewrite list_lookup_insert_ne in Hx by done. by exists x.
Qed.

Lemma sim_track N s A live n it :
  N + 1 < 2 ^ 29 -> sim N s A live -> A !! n = Some it -> it_alive it = true ->
  exists s', step (Track n) s = Ok s' /\ sim (N + 1) s' (<[n := Item (it_kind it) (it_tracks it + 1) true]> A) live.
Proof.
  intros HN [H1 H2 H3 H4 H5 H6] Hit Hal. cbn [step].
  destruct (lookup_lt_is_Some_2 (st_objects s) n) as [a Ha]; [rewrite H2; by eapply lookup_lt_Some|].
  rewrite Ha. cbn [of_option mbind result_bind]. pose proof (H3 _ _ _ Ha Hit Hal) as Hlive.
  destruct (set_tracked_spec N _ _ _ _ _ HN H1 Hlive) as (ps & -> & Hok & Hu). cbn [mbind result_bind].
  eexists. split; [done|]. cbn [ob_memPool] in Hu.
  assert (Hsame : forall n' x, <[n := Item (it_kind it) (it_tracks it + 1) true]> A !! n' = Some x ->
    exists x0, A !! n' = Some x0 /\ it_kind x = it_kind x0 /\ it_alive x0 = it_alive x).
  { intros n' x Hx. destruct (same_kind _ _ _ _ _ _ Hit Hx eq_refl) as (x0 & E & Hk & Hne & Heq). exists x0. split; [done|].
    split; [done|]. destruct (decide (n' = n)) as [->|Hn]; [|by rewrite Hne]. rewrite Heq by done. rewrite Hit in E. by injection E as <-. }
  split; cbn [st_pools st_memory st_objects]; [done|by rewrite length_insert| | | |].
  - intros n' b x Hb Hx Hx'. destruct (Hsame _ _ Hx) as (x0 & E & -> & Ha0). rewrite <- Ha0 in Hx'. by eapply H3.
  - intros n1 n2 b x1 x2 Hn1 Hn2 Hx1 Hx2 Ha1 Ha2. destruct (Hsame _ _ Hx1) as (y1 & E1 & _ & Q1), (Hsame _ _ Hx2) as (y2 & E2 & _ & Q2).
    rewrite <- Q1 in Ha1. rewrite <- Q2 in Ha2. by eapply H4.
  - intros w. rewrite H5, (total_insert _ A n it) by done. unfold alive_in. cbn [it_kind it_alive in_pool].
    unfold in_pool. cbn [it_kind]. rewrite Hal. lia.
  - intros w. rewrite Hu, H6, (total_insert _ A n it) by done. unfold untracked_in, in_pool. cbn [it_kind it_tracks].
    case_decide; [rewrite bool_decide_eq_true_2 by done|rewrite bool_decide_eq_false_2 by congruence]; lia.
Qed.

Lemma sim_destroy N s A live n it :
  N < 2 ^ 29 -> sim N s A live -> A !! n = Some it -> it_alive it = true ->
  exists s' live', step (Destroy n) s = Ok s' /\ sim N s' (<[n := Item (it_kind it) (it_tracks it) false]> A) live'.
Proof.
  intros HN [H1 H2 H3 H4 H5 H6] Hit Hal. cbn [step].
  destruct (lookup_lt_is_Some_2 (st_objects s) n) as [a Ha]; [rewrite H2; by eapply lookup_lt_Some|].
  rewrite Ha. cbn [of_option mbind result_bind]. pose proof (H3 _ _ _ Ha Hit Hal) as Hlive.
  destruct (delete_object_spec N _ _ _ _ _ HN H1 Hlive) as (ps & m & -> & Hok & Hu). cbn [mbind result_bind].
  eexists _, _. split; [done|].
  assert (Hsame : forall n' x, <[n := Item (it_kind it) (it_tracks it) false]> A !! n' = Some x -> it_alive x = true ->
    n' <> n /\ A !! n' = Some x).
  { intros n' x Hx Hx'. destruct (same_kind _ _ _ _ _ _ Hit Hx eq_refl) as (x0 & E & Hk & Hne & Heq).
    destruct (decide (n' = n)) as [->|Hn]; [by rewrite Heq in Hx'|]. by rewrite Hne. }
  split; cbn [st_pools st_memory st_objects]; [done|by rewrite length_insert| | | |].
  - intros n' b x Hb Hx Hx'. destruct (Hsame _ _ Hx Hx') as [Hn E]. rewrite lookup_delete_ne; [by eapply H3|].
    intros <-. apply Hn. by eapply H4.
  - intros n1 n2 b x1 x2 Hn1 Hn2 Hx1 Hx2 Ha1 Ha2. destruct (Hsame _ _ Hx1 Ha1), (Hsame _ _ Hx2 Ha2). by eapply H4.
  - intros w. rewrite (count_delete _ _ _ _ Hlive), H5, (total_insert _ A n it) by done. unfold alive_in, in_pool.
    cbn [it_kind it_alive ob_memPool]. rewrite Hal, andb_false_r, andb_true_r.
    case_decide; [rewrite bool_decide_eq_true_2 by done|rewrite bool_decide_eq_false_2 by done]; lia.
  - intros w. rewrite Hu, H6, (total_insert _ A n it) by done. unfold untracked_in, in_pool. cbn [it_kind it_tracks]. lia.
Qed.

Lemma sim_mono N N' s A live : N <= N' -> sim N s A live -> sim N' s A live.
Proof.
  intros HN [(fr & bl & Hm & Hp) H2 H3 H4 H5 H6]. split; try done. exists fr, bl. split; [done|].
  intros w. by eapply pool_ok_mono.
Qed.

Lemma steps_sim os : forall N s A A' live,
  sizes_fit -> N + zlen os < 2 ^ 29 -> sim N s A live -> item_steps os A = Some A' ->
  exists s' live', steps os s = Ok s' /\ sim (N + zlen os) s' A' live'.
Proof.
  induction os as [|o os IH]; intros N s A A' live Hsz HN Hs E; cbn [item_steps steps] in *.
  { injection E as <-. exists s, live. split; [done|]. by rewrite zlen_nil, Z.add_0_r. }
  rewrite zlen_cons in *. pose proof (zlen_nonneg os). destruct (item_step o A) as [A1|] eqn:E1; [|done]. cbn in E.
  assert (Hone : exists s1 live1, step o s = Ok s1 /\ sim (N + 1) s1 A1 live1).
  { destruct o as [k|n|n]; cbn in E1.
    - injection E1 as <-. apply (sim_new N _ _ live); [done|lia|done].
    - destruct (A !! n) as [it|] eqn:Hit; [|done]. cbn in E1. destruct (it_alive it) eqn:Hal; [|done]. injection E1 as <-.
      destruct (sim_track N s A live n it ltac:(lia) Hs Hit Hal) as (s1 & ? & ?). by exists s1, live.
    - destruct (A !! n) as [it|] eqn:Hit; [|done]. cbn in E1. destruct (it_alive it) eqn:Hal; [|done]. injection E1 as <-.
      destruct (sim_destroy N s A live n it ltac:(lia) Hs Hit Hal) as (s1 & l1 & ? & ?). exists s1, l1. split; [done|].
      apply (sim_mono N); [lia|done]. }
  destruct Hone as (s1 & live1 & -> & Hs1). cbn [mbind result_bind].
  destruct (IH (N + 1) s1 A1 A' live1 Hsz ltac:(lia) Hs1 E) as (s' & live' & -> & Hs'). exists s', live'. split; [done|].
  by replace (N + (1 + zlen os)) with (N + 1 + zlen os) by lia.
Qed.

Lemma new_sim : sizes_fit -> sim 0 new_state [] ∅.
Proof.
  intros Hsz. split; try done; [by apply new_doc_ok|]. intros w. by destruct w.
Qed.
End spec.

(** C29: Every object has memory of its own that is big enough for it.  Whatever
    sequence of objects a document makes, tracks and deletes - each only while it
    is alive - no operation touches memory that is not its own, and an object that
    is alive is what it was made as, in an item of the pool its [_memPool] points
    to, which is of the size its class needs; no two of them share an item.  The
    counters tell the objects that are alive, and a pool never has a whole block
    more than the most it needed at one time. *)
Theorem objects_keep_their_memory (sizeof : kind -> Z) (os : list op) (A : list item) :
  sizes_fit sizeof -> zlen os < 2 ^ 29 -> item_steps os [] = Some A ->
  exists s, steps sizeof os new_state = Ok s /\ length (st_objects s) = length A /\
    (forall n a it, st_objects s !! n = Some a -> A !! n = Some it -> it_alive it = true ->
       object_at a (st_memory s) = Ok (Object (it_kind it) (pool_of (it_kind it))) /\
       exists size, item_size (st_memory s) !! fst a = Some size /\ sizeof (it_kind it) <= size) /\
    (forall n n' a it it', st_objects s !! n = Some a -> st_objects s !! n' = Some a -> A !! n = Some it -> A !! n' = Some it' ->
       it_alive it = true -> it_alive it' = true -> n = n') /\
    (forall w, let p := pool_at w (st_pools s) in
       _currentAllocs p = total (alive_in w) A /\ _currentAllocs p <= _maxAllocs p <= zlen os /\
       per_block sizeof w * _size (_blockPtrs p) < _maxAllocs p + per_block sizeof w).
Proof.
  intros Hsz Hos E.
  destruct (steps_sim sizeof os 0 new_state [] A ∅ Hsz ltac:(lia) (new_sim sizeof Hsz) E)
    as (s & live & -> & [(fr & bl & Hm & Hp) H2 H3 H4 H5 H6]).
  exists s. split; [done|]. split; [done|]. split; [|split; [done|]].
  - intros n a it Ha Hit Hal. specialize (H3 n a it Ha Hit Hal). unfold object_at. rewrite (proj2 (mo_live _ _ _ _ Hm _ _) H3).
    split; [done|]. destruct (mo_typed _ _ _ _ Hm _ _ H3) as [_ Hs]. eexists. split; [exact Hs|]. apply Hsz.
  - intros w p. destruct (Hp w) as [_ _ _ P4 P5 _ P7 _]. subst p. rewrite P5, H5, (holds_size _ _ _ P4), zlen_fmap in *. lia.
Qed.

(** The sizes of the classes in the 32-bit build. *)
Definition demo_sizeof (k : kind) : Z := match k with KElement => 60 | KAttribute => 36 | KText => 56 | _ => 52 end.
Definition demo_ops : list op :=
  Create KElement :: Create KDeclaration :: Track 0 :: repeat (Create KAttribute) 30 ++
    [Track 1; Destroy 3; Create KComment; Create KAttribute; Destroy 0; Create KElement].

Lemma demo_sizes : sizes_fit demo_sizeof.
Proof. split; [intros []; cbn; lia|intros []; cbn; lia]. Qed.

Lemma objects_keep_their_memory_witness :
  exists A s, item_steps demo_ops [] = Some A /\ steps demo_sizeof demo_ops new_state = Ok s /\ length (st_objects s) = length A.
Proof.
  destruct (item_steps demo_ops []) as [A|] eqn:E; [|discriminate E].
  destruct (objects_keep_their_memory demo_sizeof demo_ops A demo_sizes ltac:(reflexivity) E) as (s & Hs & Hl & _).
  exists A, s. split; [reflexivity|]. split; [exact Hs|exact Hl].
Defined.

(** ** The leak check of the destructor *)

(** Every object is put into the document once at most, and deleted only from there. *)
Fixpoint tidy (os : list op) (A : list item) : bool :=
  match os with
  | [] => true
  | o :: os =>
      (match o with
       | Create _ => true
       | Track n => from_option (fun it => it_tracks it =? 0) false (A !! n)
       | Destroy n => from_option (fun it => it_tracks it =? 1) false (A !! n)
       end) && from_option (tidy os) false (item_step o A)
  end.

Definition tidy_item (it : item) : Prop := it_tracks it = 1 \/ it_tracks it = 0 /\ it_alive it = true.

Lemma tidy_items os : forall A A',
  tidy os A = true -> item_steps os A = Some A' -> Forall tidy_item A -> Forall tidy_item A'.
Proof.
  induction os as [|o os IH]; intros A A' Ht E HA; cbn [tidy item_steps] in *; [by injection E as <-|].
  apply andb_true_iff in Ht as [Ho Ht]. destruct (item_step o A) as [A1|] eqn:E1; [|done]. cbn in E, Ht.
  apply (IH A1 A' Ht E). destruct o as [k|n|n]; cbn in E1, Ho.
  - injection E1 as <-. apply Forall_app. split; [done|]. apply Forall_singleton. by right.
  - destruct (A !! n) as [it|]; [|done]. cbn in E1, Ho. destruct (it_alive it); [|done]. injection E1 as <-.
    apply Forall_insert; [done|]. left. cbn. apply Z.eqb_eq in Ho. lia.
  - destruct (A !! n) as [it|]; [|done]. cbn in E1, Ho. destruct (it_alive it); [|done]. injection E1 as <-.
    apply Forall_insert; [done|]. left. cbn. by apply Z.eqb_eq in Ho.
Qed.

(** An object in the document. *)
Definition leaked (it : item) : bool := it_alive it && (it_tracks it =? 1).
Definition leaked_in (w : which) (it : item) : Z := if in_pool w it && leaked it then 1 else 0.

Lemma leaked_difference w A :
  Forall tidy_item A -> total (alive_in w) A - total (untracked_in w) A = total (leaked_in w) A.
Proof.
  induction 1 as [|it A Hit _ IH]; [done|]. cbn. fold (total (alive_in w) A) (total (untracked_in w) A) (total (leaked_in w) A).
  enough (alive_in w it - untracked_in w it = leaked_in w it) by lia. unfold alive_in, untracked_in, leaked_in, leaked.
  destruct (in_pool w it); [|done]. cbn [andb].
  destruct Hit as [Ht|[Ht Ha]]; rewrite Ht, ?Ha; cbn; [|lia]. rewrite andb_true_r. destruct (it_alive it); lia.
Qed.

Lemma leaked_nonneg w A : 0 <= total (leaked_in w) A.
Proof.
  induction A as [|it A IH]; cbn; [done|]. fold (total (leaked_in w) A). unfold leaked_in at 1. destruct (_ && _); lia.
Qed.

Lemma no_leak A :
  ((total (leaked_in ElementPool) A =? 0) && (total (leaked_in AttributePool) A =? 0) &&
   (total (leaked_in TextPool) A =? 0) && (total (leaked_in CommentPool) A =? 0))
  = forallb (fun it => negb (leaked it)) A.
Proof.
  induction A as [|it A IH]; [done|]. cbn [total foldr forallb].
  fold (total (leaked_in ElementPool) A) (total (leaked_in AttributePool) A) (total (leaked_in TextPool) A) (total (leaked_in CommentPool) A).
  pose proof (leaked_nonneg ElementPool A). pose proof (leaked_nonneg AttributePool A).
  pose proof (leaked_nonneg TextPool A). pose proof (leaked_nonneg CommentPool A). rewrite <- IH.
  destruct (leaked it) eqn:El; cbn [negb andb].
  - assert (Hw : exists w, leaked_in w it = 1).
    { exists (pool_of (it_kind it)). unfold leaked_in, in_pool. by rewrite bool_decide_eq_true_2, El. }
    assert (Hnn : forall w, 0 <= leaked_in w it) by (intros w; unfold leaked_in; by destruct (in_pool w it), (leaked it)).
    pose proof (Hnn ElementPool). pose proof (Hnn AttributePool). pose proof (Hnn TextPool). pose proof (Hnn CommentPool).
    apply not_true_iff_false. rewrite !andb_true_iff, !Z.eqb_eq. destruct Hw as [[] Hw]; lia.
  - assert (Hz : forall w, leaked_in w it = 0) by (intros w; unfold leaked_in; by rewrite El, andb_false_r).
    by rewrite !Hz.
Qed.

(** The leak check of the document's destructor is exact for documents that put
    an object into the tree once and delete it from there: the assertions hold
    when the objects still alive are those that were never put into the tree,
    and fail when any object that was is left. *)
Theorem leak_check (sizeof : kind -> Z) (os : list op) (A : list item) :
  sizes_fit sizeof -> zlen os < 2 ^ 29 -> item_steps os [] = Some A -> tidy os [] = true ->
  exists s, steps sizeof os new_state = Ok s /\
    document_balanced (st_pools s) = forallb (fun it => negb (leaked it)) A.
Proof.
  intros Hsz Hos E Ht.
  destruct (steps_sim sizeof os 0 new_state [] A ∅ Hsz ltac:(lia) (new_sim sizeof Hsz) E)
    as (s & live & -> & [(fr & bl & Hm & Hp) H2 H3 H4 H5 H6]).
  exists s. split; [done|]. pose proof (tidy_items os [] A Ht E ltac:(constructor)) as HA. rewrite <- no_leak.
  assert (Hb : forall w, balanced (pool_at w (st_pools s)) = (total (leaked_in w) A =? 0)).
  { intros w. unfold balanced. rewrite (po_current _ _ _ _ _ _ _ _ (Hp w)), H5, H6, <- leaked_difference by done.
    apply eq_true_iff_eq. rewrite !Z.eqb_eq. lia. }
  unfold document_balanced. by rewrite <- !Hb.
Qed.

Definition tidy_ops : list op :=
  [Create KElement; Track 0; Create KText; Track 1; Create KComment; Destroy 1; Destroy 0].

Lemma leak_check_witness :
  exists A s, item_steps tidy_ops [] = Some A /\ steps demo_sizeof tidy_ops new_state = Ok s /\
    document_balanced (st_pools s) = forallb (fun it => negb (leaked it)) A.
Proof.
  destruct (item_steps tidy_ops []) as [A|] eqn:E; [|discriminate E].
  destruct (leak_check demo_sizeof tidy_ops A demo_sizes ltac:(reflexivity) E ltac:(reflexivity)) as (s & Hs & Hb).
  exists A, s. split; [reflexivity|]. split; [exact Hs|exact Hb].
Defined.

(** A node that is inserted twice, as when it is moved, is counted as tracked
    twice: with nothing left the assertion fails. *)
Example moved_node :
  (fun s => document_balanced (st_pools s)) <$> steps demo_sizeof [Create KElement; Track 0; Track 0; Destroy 0] new_state = Ok false.
Proof. vm_compute. reflexivity. Qed.

(** An item that is freed twice is in the list twice: the second time it is taken,
    its link is what the object made in it has written. *)
Example freed_twice :
  ('(p, m) ← Free (Some (0, 0)%nat) new_MemPool (Memory {[ (0, 0)%nat := Raw ]} ∅ 1);
   '(p, m) ← Free (Some (0, 0)%nat) p m;
   '(a, p, m) ← Alloc 56 p m; '(b, p, m) ← Alloc 56 p m; Ok (a, b)) = Err Undefined.
Proof. vm_compute. reflexivity. Qed.
