(* ===== verification/Json.v ===== *)
(** * JSON text and the json-c library (include/yyjson.h)

    The server prints JSON itself ([toCmd], [tos]) and parses it with json-c,
    which is not part of the repository: its parser is a field of the class
    [JsonC], and the class [JsonLaw] states what is relied on, that the parser
    inverts the printing of a plain value.  The accessors of json-c are modelled
    as its header documents them. *)

From S2P Require Import Prelude Digits.

(** ** Values: [struct json_object *], whose null pointer is JSON's [null] *)

Inductive json :=
| JNull
| JBool (b : bool)
| JDouble (text : list byte)
| JInt (z : Z)
| JObject (members : list (list byte * json))
| JArray (elements : list json)
| JString (s : list byte).

Inductive json_type :=
| json_type_null | json_type_boolean | json_type_double | json_type_int
| json_type_object | json_type_array | json_type_string.

#[global] Instance json_type_eq_dec : EqDecision json_type.
Proof. solve_decision. Defined.

(** A C string made of the bytes of a string. *)
Fixpoint until_nul (s : list byte) : list byte :=
  match s with
  | [] => []
  | b :: s => if bool_decide (b = x00) then [] else b :: until_nul s
  end.

Definition json_object_get_type (v : json) : json_type :=
  match v with
  | JNull => json_type_null
  | JBool _ => json_type_boolean
  | JDouble _ => json_type_double
  | JInt _ => json_type_int
  | JObject _ => json_type_object
  | JArray _ => json_type_array
  | JString _ => json_type_string
  end.

(** The accessors are called for values of their type only.  Integers are
    stored with 64 bits and clipped to 32 (json_object.h:386-388). *)
Definition json_object_get_int (v : json) : Z :=
  match v with
  | JInt z => if z <? - 2 ^ 31 then - 2 ^ 31 else if 2 ^ 31 - 1 <? z then 2 ^ 31 - 1 else z
  | _ => 0
  end.

Definition json_object_get_boolean (v : json) : bool :=
  match v with JBool b => b | _ => false end.

Definition json_object_get_string (v : json) : list byte :=
  match v with JString s => until_nul s | _ => [] end.

(** [json_object_get_object (obj)->head] of anything but an object follows a
    pointer that is not there. *)
Definition json_object_get_object (v : json) : result (list (list byte * json)) :=
  match v with JObject ms => Ok ms | _ => Err Undefined end.

Fixpoint find_member (key : list byte) (ms : list (list byte * json)) : json :=
  match ms with
  | [] => JNull
  | (k, v) :: ms => if bool_decide (until_nul k = key) then v else find_member key ms
  end.

(** ** The library *)

Inductive json_tokener_error := json_tokener_success | json_tokener_failure (code : Z).

#[global] Instance json_tokener_error_eq_dec : EqDecision json_tokener_error.
Proof. solve_decision. Defined.

(** [json_tokener_parse_ex] takes a C string (without its terminator);
    [object_get_other] is what the deprecated [json_object_object_get] gives for
    a value that is not an object, which its documentation leaves open. *)
Class JsonC := {
  json_tokener_parse_ex : list byte -> json_tokener_error * json;
  object_get_other : json -> list byte -> json;
}.

Definition json_object_object_get `{JsonC} (v : json) (key : list byte) : json :=
  match v with
  | JObject ms => find_member key ms
  | _ => object_get_other v key
  end.

(** [YYJson::Parse] on a fresh tokener: the error, and [_jobj]. *)
Definition Parse `{JsonC} (js : list byte) : json_tokener_error * json :=
  let '(err, jobj) := json_tokener_parse_ex (until_nul js) in
  if bool_decide (err = json_tokener_success) then (err, jobj) else (err, JNull).

(** ** Printing *)

Definition quote : byte := x22.
Definition colon : byte := x3a.
Definition comma : byte := x2c.
Definition brace_open : byte := x7b.
Definition brace_close : byte := x7d.
Definition backslash : byte := x5c.
Definition text_true := bytes "true".
Definition text_false := bytes "false".
Definition text_null := bytes "null".

Definition tos (i : Z) : list byte := print_d i.
Definition tos_u (i : Z) : list byte := print_u i.
Definition tos_b (b : bool) : list byte := if b then text_true else text_false.

(** The overloads of [toCmd] for strings, [int], [unsigned int] and [bool]:
    nothing is escaped. *)
Definition toCmd_s (cmd val : list byte) : list byte :=
  [quote] ++ cmd ++ [quote; colon; quote] ++ val ++ [quote].
Definition toCmd (cmd : list byte) (i : Z) : list byte :=
  [quote] ++ cmd ++ [quote; colon] ++ tos i.
Definition toCmd_u (cmd : list byte) (i : Z) : list byte :=
  [quote] ++ cmd ++ [quote; colon] ++ tos_u i.
Definition toCmd_b (cmd : list byte) (b : bool) : list byte :=
  [quote] ++ cmd ++ [quote; colon] ++ tos_b b.

(** ** The text of a plain value

    [json_text] is the text without blanks; it is defined for the values the
    server sends, which have no arrays and no floating point numbers.  A plain
    string needs no escapes; a line feed is allowed in it, since the base64 text
    of OpenSSL has line feeds and the server sends it as it is. *)

Fixpoint commas (l : list (list byte)) : list byte :=
  match l with
  | [] => []
  | [x] => x
  | x :: l => x ++ [comma] ++ commas l
  end.

Fixpoint json_text (v : json) : list byte :=
  match v with
  | JNull => text_null
  | JBool b => tos_b b
  | JInt z => tos z
  | JString s => [quote] ++ s ++ [quote]
  | JObject ms =>
      [brace_open] ++
      commas (map (fun kv => [quote] ++ fst kv ++ [quote; colon] ++ json_text (snd kv)) ms) ++
      [brace_close]
  | JArray _ | JDouble _ => []
  end.

Definition member_text (kv : list byte * json) : list byte :=
  [quote] ++ fst kv ++ [quote; colon] ++ json_text (snd kv).

Definition plain_byte (b : byte) : bool :=
  ((32 <=? b2z b) || (b2z b =? 10)) &&
  negb (bool_decide (b = quote)) && negb (bool_decide (b = backslash)).

Definition plain_text (s : list byte) : bool := forallb plain_byte s.

(** Plain values of at most [d] levels; json-c takes 32. *)
Fixpoint plain (d : nat) (v : json) : bool :=
  match v with
  | JNull | JBool _ => true
  | JInt z => in_i64 z
  | JString s => plain_text s
  | JObject ms =>
      match d with
      | O => false
      | S d => forallb (fun kv => plain_text (fst kv) && plain d (snd kv)) ms &&
               bool_decide (NoDup (fst <$> ms))
      end
  | JArray _ | JDouble _ => false
  end.

Definition max_depth : nat := 30.

Class JsonLaw `{JsonC} : Prop :=
  parse_text : forall v, plain max_depth v = true ->
    json_tokener_parse_ex (json_text v) = (json_tokener_success, v).

(** No string of a value is longer than [n]. *)
Fixpoint within (n : Z) (v : json) : Prop :=
  match v with
  | JString s => zlen s <= n
  | JObject ms => foldr and True (map (fun kv => within n (snd kv)) ms)
  | _ => True
  end.

(** The strings of a value are not longer than its text. *)
Class JsonSize `{JsonC} : Prop := {
  parse_within : forall s err v, json_tokener_parse_ex s = (err, v) -> within (zlen s) v;
  other_within : forall n v key, within n v -> within n (object_get_other v key);
}.

(** ** Lemmas *)

Lemma plain_byte_not (b : byte) :
  plain_byte b = true -> b <> x00 /\ b <> quote /\ b <> backslash.
Proof.
  intros H. repeat split; intros ->; vm_compute in H; discriminate.
Qed.

Lemma plain_text_nul s : plain_text s = true -> x00 ∉ s.
Proof.
  unfold plain_text. rewrite forallb_forall. intros H Hin.
  apply list_elem_of_In, H, plain_byte_not in Hin as [? _]. done.
Qed.

Lemma plain_text_app s t : plain_text (s ++ t) = plain_text s && plain_text t.
Proof. apply forallb_app. Qed.

Lemma until_nul_id s : x00 ∉ s -> until_nul s = s.
Proof.
  induction s as [|b s IH]; intros H; cbn; [done|].
  apply not_elem_of_cons in H as [Hb Hs]. rewrite bool_decide_eq_false_2 by congruence.
  by rewrite IH.
Qed.

Lemma until_nul_plain s : plain_text s = true -> until_nul s = s.
Proof. intros H. by apply until_nul_id, plain_text_nul. Qed.

Lemma get_string_plain s :
  plain_text s = true -> json_object_get_string (JString s) = s.
Proof. apply until_nul_plain. Qed.

Lemma get_int_clip z :
  json_object_get_int (JInt z) = Z.max (- 2 ^ 31) (Z.min z (2 ^ 31 - 1)).
Proof.
  cbn -[Z.pow]. destruct (Z.ltb_spec z (- 2 ^ 31)); [lia|].
  destruct (Z.ltb_spec (2 ^ 31 - 1) z); lia.
Qed.

Lemma tos_plain z : plain_text (tos z) = true.
Proof.
  unfold plain_text. rewrite forallb_forall. intros b Hb. apply list_elem_of_In in Hb.
  assert (H : b = x2d \/ isdigit b = true).
  { unfold tos, print_d in Hb. destruct (Z.ltb_spec z 0).
    - apply elem_of_cons in Hb as [->|Hb]; [by left|right].
      by apply (proj1 (Forall_forall _ _) (print_u_isdigit (- z) ltac:(lia))).
    - right. by apply (proj1 (Forall_forall _ _) (print_u_isdigit z ltac:(lia))). }
  destruct H as [->|H]; [done|]. unfold isdigit in H.
  unfold plain_byte. apply andb_true_iff in H as [H1%Z.leb_le H2%Z.leb_le].
  rewrite (proj2 (Z.leb_le 32 (b2z b))) by lia. cbn.
  rewrite !bool_decide_eq_false_2; [done|..]; intros ->; vm_compute in H1, H2; congruence.
Qed.

Lemma commas_nul l : Forall (fun s => x00 ∉ s) l -> x00 ∉ commas l.
Proof.
  induction 1 as [|x l Hx Hl IH]; [apply not_elem_of_nil|].
  destruct l as [|y l]; [done|].
  change (x00 ∉ x ++ [comma] ++ commas (y :: l)).
  rewrite !not_elem_of_app. repeat split; [done| |done].
  rewrite list_elem_of_singleton. done.
Qed.

Lemma quoted_nul s t : x00 ∉ s -> x00 ∉ t -> x00 ∉ [quote] ++ s ++ [quote] ++ t.
Proof.
  intros Hs Ht. rewrite !not_elem_of_app, !list_elem_of_singleton. by repeat split.
Qed.

Lemma leaf_nul d v :
  (forall ms, v <> JObject ms) -> plain d v = true -> x00 ∉ json_text v.
Proof.
  destruct v as [|[]| |z|ms| |s]; intros Hn H; cbn [json_text tos_b].
  - by apply (bool_decide_unpack _).
  - by apply (bool_decide_unpack _).
  - by apply (bool_decide_unpack _).
  - apply not_elem_of_nil.
  - apply plain_text_nul, tos_plain.
  - by destruct (Hn ms).
  - apply not_elem_of_nil.
  - apply (quoted_nul s []); [|apply not_elem_of_nil]. apply plain_text_nul. by destruct d.
Qed.

(** The text of a plain value is a C string. *)
Lemma json_text_nul d v : plain d v = true -> x00 ∉ json_text v.
Proof.
  revert v. induction d as [|d IH]; intros v H.
  { apply (leaf_nul O); [|done]. by intros ms ->. }
  destruct v as [|b| |z|ms| |s]; try by apply (leaf_nul (S d)).
  apply andb_true_iff in H as [H _]. rewrite forallb_forall in H.
  change (x00 ∉ [brace_open] ++ commas (map member_text ms) ++ [brace_close]).
  rewrite !not_elem_of_app, !list_elem_of_singleton. repeat split; try done.
  apply commas_nul, Forall_forall. intros x (kv & <- & Hin)%list_elem_of_In%in_map_iff.
  specialize (H kv Hin). apply andb_true_iff in H as [Hk Hv].
  apply (quoted_nul (fst kv) (colon :: json_text (snd kv))); [by apply plain_text_nul|].
  rewrite not_elem_of_cons. split; [done|by apply IH].
Qed.

Lemma Parse_text `{JsonLaw} v :
  plain max_depth v = true -> Parse (json_text v) = (json_tokener_success, v).
Proof.
  intros Hv. unfold Parse. rewrite until_nul_id by (by eapply json_text_nul).
  rewrite parse_text by done. by rewrite bool_decide_eq_true_2.
Qed.

Lemma within_members n ms k v : within n (JObject ms) -> (k, v) ∈ ms -> within n v.
Proof.
  cbn [within]. induction ms as [|kv ms IH]; cbn; intros Hw Hin; [by apply elem_of_nil in Hin|].
  apply elem_of_cons in Hin as [<-|Hin]; [apply Hw|by apply IH; [apply Hw|]].
Qed.

Lemma within_Forall n ms :
  Forall (fun kv => within n (snd kv)) ms -> within n (JObject ms).
Proof. cbn [within]. induction 1; cbn; auto. Qed.

Lemma find_member_within n key ms : within n (JObject ms) -> within n (find_member key ms).
Proof.
  cbn [within]. induction ms as [|[k v] ms IH]; cbn; [done|]. intros [Hv Hms].
  case_bool_decide; [done|by apply IH].
Qed.

Lemma object_get_within `{JsonSize} n v key : within n v -> within n (json_object_object_get v key).
Proof.
  intros Hw. unfold json_object_object_get. destruct v; try by apply other_within.
  by apply find_member_within.
Qed.

Lemma until_nul_len s : zlen (until_nul s) <= zlen s.
Proof.
  induction s as [|b s IH]; cbn [until_nul]; [done|]. case_bool_decide; rewrite !zlen_cons.
  - rewrite zlen_nil. pose proof (zlen_nonneg s). lia.
  - lia.
Qed.

Lemma get_string_within n v : 0 <= n -> within n v -> zlen (json_object_get_string v) <= n.
Proof.
  intros Hn Hw. destruct v; cbn; try done. cbn in Hw. pose proof (until_nul_len s). lia.
Qed.

Lemma within_mono n m : n <= m -> forall v, within n v -> within m v.
Proof.
  intros Hn. fix IH 1. intros [| | | |ms| |s]; cbn [within]; try done; [|lia].
  induction ms as [|[k v] ms IHms]; cbn; [done|]. intros [Hv Hms]. split; [by apply IH|by apply IHms].
Qed.

Lemma Parse_within `{JsonSize} js err v : Parse js = (err, v) -> within (zlen js) v.
Proof.
  unfold Parse. destruct (json_tokener_parse_ex (until_nul js)) as [err' v'] eqn:E.
  apply parse_within in E. case_bool_decide; intros [= <- <-]; [|done].
  revert E. generalize (zlen (until_nul js)) (until_nul_len js). intros n Hn.
  apply within_mono. lia.
Qed.
