(* ===== verification/JsonParser.v ===== *)
(** * A JSON parser that satisfies the interface

    The concrete [JsonC] at which the theorems about the protocol are tried: it
    reads the values without blanks, arrays, escapes and fractions.  It is not
    a model of json-c. *)

From S2P Require Import Prelude Digits Json.

Fixpoint lex_string (s : list byte) : option (list byte * list byte) :=
  match s with
  | [] => None
  | b :: s =>
      if bool_decide (b = quote) then Some ([], s)
      else if bool_decide (b = backslash) then None
      else '(t, r) ← lex_string s; Some (b :: t, r)
  end.

Fixpoint lex_digits (s : list byte) : list byte * list byte :=
  match s with
  | [] => ([], [])
  | b :: s' => if isdigit b then let '(ds, r) := lex_digits s' in (b :: ds, r) else ([], s)
  end.

(** The rest of [s] behind a fixed word. *)
Fixpoint lex_word (w s : list byte) : option (list byte) :=
  match w, s with
  | [], _ => Some s
  | b :: w, c :: s => if bool_decide (b = c) then lex_word w s else None
  | _, [] => None
  end.

Definition parse_leaf (s : list byte) : option (json * list byte) :=
  match s with
  | [] => None
  | b :: s' =>
      if bool_decide (b = quote) then '(t, r) ← lex_string s'; Some (JString t, r)
      else if bool_decide (b = x2d) then
        match lex_digits s' with
        | ([], _) => None
        | (ds, r) => Some (JInt (- digits_value 0 ds), r)
        end
      else if isdigit b then
        let '(ds, r) := lex_digits s in Some (JInt (digits_value 0 ds), r)
      else match lex_word text_true s with
      | Some r => Some (JBool true, r)
      | None =>
          match lex_word text_false s with
          | Some r => Some (JBool false, r)
          | None => r ← lex_word text_null s; Some (JNull, r)
          end
      end
  end.

Fixpoint parse_value (fuel : nat) (s : list byte) : option (json * list byte) :=
  match fuel with
  | O => None
  | S fuel =>
      match lex_word [brace_open] s with
      | Some s =>
          match lex_word [brace_close] s with
          | Some r => Some (JObject [], r)
          | None => '(ms, r) ← parse_members fuel s; Some (JObject ms, r)
          end
      | None => parse_leaf s
      end
  end
with parse_members (fuel : nat) (s : list byte) : option (list (list byte * json) * list byte) :=
  match fuel with
  | O => None
  | S fuel =>
      s ← lex_word [quote] s;
      '(k, s) ← lex_string s;
      s ← lex_word [colon] s;
      '(v, s) ← parse_value fuel s;
      match lex_word [comma] s with
      | Some s => '(ms, s) ← parse_members fuel s; Some ((k, v) :: ms, s)
      | None => s ← lex_word [brace_close] s; Some ([(k, v)], s)
      end
  end.

Definition parse_json (s : list byte) : json_tokener_error * json :=
  match parse_value (S (length s)) s with
  | Some (v, _) => (json_tokener_success, v)
  | None => (json_tokener_failure 1, JNull)
  end.

#[export] Instance reference_json : JsonC := {|
  json_tokener_parse_ex := parse_json;
  object_get_other := fun _ _ => JNull;
|}.

(** ** It inverts the printing *)

(** What may follow a value: nothing that continues a numeral. *)
Definition value_end (s : list byte) : bool :=
  match s with b :: _ => negb (isdigit b) | [] => true end.

Lemma lex_word_app w s : lex_word w (w ++ s) = Some s.
Proof.
  induction w as [|b w IH]; cbn; [by destruct s|]. by rewrite bool_decide_eq_true_2.
Qed.

Lemma lex_char b s : lex_word [b] (b :: s) = Some s.
Proof. apply (lex_word_app [b]). Qed.

Lemma lex_string_app s r :
  plain_text s = true -> lex_string (s ++ quote :: r) = Some (s, r).
Proof.
  induction s as [|b s IH]; cbn [app lex_string plain_text forallb]; intros H.
  - by rewrite bool_decide_eq_true_2.
  - apply andb_true_iff in H as [Hb Hs]. apply plain_byte_not in Hb as (_ & H1 & H2).
    rewrite !bool_decide_eq_false_2 by done. by rewrite IH.
Qed.

Lemma lex_digits_app ds r :
  Forall (fun b => isdigit b = true) ds -> value_end r = true ->
  lex_digits (ds ++ r) = (ds, r).
Proof.
  intros Hds Hr. induction Hds as [|b ds Hb Hds IH]; cbn.
  - destruct r as [|b r]; [done|]. cbn in *. by destruct (isdigit b).
  - by rewrite Hb, IH.
Qed.

Lemma print_u_head v : 0 <= v ->
  exists b ds, print_u v = b :: ds /\ isdigit b = true.
Proof.
  intros Hv. pose proof (print_u_isdigit v Hv) as H. pose proof (print_u_nonempty v Hv) as Hn.
  destruct (print_u v) as [|b ds]; [done|]. inversion H. by exists b, ds.
Qed.

Lemma isdigit_false b : isdigit b = true ->
  b <> quote /\ b <> x2d /\ b <> brace_open /\ b <> brace_close.
Proof. intros H. repeat split; intros ->; by vm_compute in H. Qed.

Lemma parse_int z r :
  value_end r = true ->
  parse_leaf (tos z ++ r) = Some (JInt z, r) /\ lex_word [brace_open] (tos z ++ r) = None.
Proof.
  intros Hr. unfold tos, print_d. destruct (Z.ltb_spec z 0).
  - pose proof (lex_digits_app _ r (print_u_isdigit (- z) ltac:(lia)) Hr) as Hl.
    pose proof (digits_value_print (- z) ltac:(lia)) as Hv.
    destruct (print_u_head (- z)) as (b & ds & E & Hb); [lia|]. rewrite E in *.
    split; [|done].
    change (match lex_digits ((b :: ds) ++ r) with
            | ([], _) => None
            | (ds, r) => Some (JInt (- digits_value 0 ds), r)
            end = Some (JInt z, r)).
    rewrite Hl, Hv. do 3 f_equal. lia.
  - pose proof (lex_digits_app _ r (print_u_isdigit z ltac:(lia)) Hr) as Hl.
    pose proof (digits_value_print z ltac:(lia)) as Hv.
    destruct (print_u_head z) as (b & ds & E & Hb); [lia|]. rewrite E in *.
    destruct (isdigit_false b Hb) as (H1 & H2 & H3 & _). split.
    + unfold parse_leaf. cbn [app]. rewrite !bool_decide_eq_false_2, Hb by done.
      change (b :: ds ++ r) with ((b :: ds) ++ r). by rewrite Hl, Hv.
    + cbn. by rewrite bool_decide_eq_false_2 by congruence.
Qed.

Lemma parse_leaf_text d v r :
  plain d v = true -> (forall ms, v <> JObject ms) -> value_end r = true ->
  parse_leaf (json_text v ++ r) = Some (v, r) /\
  lex_word [brace_open] (json_text v ++ r) = None.
Proof.
  destruct v as [|[]| |z|ms| |s]; intros Hp Hn Hr; try (by destruct d); try (by split).
  - by apply parse_int.
  - by destruct (Hn ms).
  - assert (Hs : plain_text s = true) by by destruct d. split; [|done].
    cbn [json_text]. rewrite <- !app_assoc.
    change (('(t, r0) ← lex_string (s ++ quote :: r); Some (JString t, r0)) = Some (JString s, r)).
    by rewrite lex_string_app.
Qed.

Lemma commas_cons x l :
  commas (x :: l) = x ++ match l with [] => [] | _ => comma :: commas l end.
Proof. destruct l; [by rewrite app_nil_r|done]. Qed.

(** The members of an object and the brace that ends them. *)
Lemma parse_members_text d ms r :
  (forall v r fuel, plain d v = true -> value_end r = true ->
     (length (json_text v) < fuel)%nat -> parse_value fuel (json_text v ++ r) = Some (v, r)) ->
  forallb (fun kv => plain_text (fst kv) && plain d (snd kv)) ms = true -> ms <> [] ->
  forall fuel, (length (commas (map member_text ms)) < fuel)%nat ->
  parse_members fuel (commas (map member_text ms) ++ [brace_close] ++ r) = Some (ms, r).
Proof.
  intros Hv. induction ms as [|[k v] ms IH]; [done|]. intros Hp _ [|fuel] Hf; [lia|].
  cbn [map] in *. rewrite commas_cons in *. cbn [forallb fst snd] in Hp.
  apply andb_true_iff in Hp as [[Hk Hp]%andb_true_iff Hps].
  unfold member_text at 1 in Hf. unfold member_text at 1. cbn [fst snd] in *.
  rewrite !length_app in Hf. cbn [length] in Hf.
  cbn [parse_members]. rewrite <- !app_assoc, lex_word_app.
  cbn [mbind option_bind app]. rewrite lex_string_app by done.
  cbn [mbind option_bind].
  rewrite lex_char. cbn [mbind option_bind].
  destruct ms as [|kv ms].
  - cbn [map app]. rewrite Hv; [|done|done|lia]. done.
  - cbn [map] in *. cbn [app]. rewrite Hv; [|done|done|lia]. cbn [mbind option_bind].
    cbn [length] in Hf. rewrite lex_char.
    rewrite IH; [done|done|done|cbn [map]; lia].
Qed.

Lemma parse_value_text d v r fuel :
  plain d v = true -> value_end r = true -> (length (json_text v) < fuel)%nat ->
  parse_value fuel (json_text v ++ r) = Some (v, r).
Proof.
  revert v r fuel. induction d as [|d IH]; intros v r fuel Hp Hr Hf.
  - destruct fuel as [|fuel]; [lia|]. cbn [parse_value].
    destruct (parse_leaf_text O v r Hp) as [E1 E2]; [by intros ms ->|done|]. by rewrite E2.
  - destruct fuel as [|fuel]; [lia|]. cbn [parse_value].
    assert (Hd : (exists ms, v = JObject ms) \/ forall ms, v <> JObject ms).
    { destruct v; (by right) || (left; by eexists). }
    destruct Hd as [[ms ->]|Hn].
    + change (json_text (JObject ms)) with
        ([brace_open] ++ commas (map member_text ms) ++ [brace_close]) in *.
      rewrite <- !app_assoc, lex_word_app.
      apply andb_true_iff in Hp as [Hp _].
      destruct ms as [|kv ms]; [by cbn [map commas app]; rewrite lex_char|].
      assert (E : lex_word [brace_close]
        (commas (map member_text (kv :: ms)) ++ [brace_close] ++ r) = None).
      { cbn [map]. rewrite commas_cons. by destruct ms. }
      rewrite E, (parse_members_text d); [done|done|done|done|].
      rewrite !length_app in Hf. cbn in Hf |- *. lia.
    + destruct (parse_leaf_text (S d) v r Hp Hn Hr) as [E1 E2]. by rewrite E2.
Qed.

#[export] Instance reference_json_law : JsonLaw.
Proof.
  intros v Hv. cbn. unfold parse_json.
  rewrite <- (app_nil_r (json_text v)) at 2. erewrite parse_value_text; [done|done|done|lia].
Qed.

(** ** It makes up no text *)

Lemma lex_word_len w s r : lex_word w s = Some r -> zlen r <= zlen s.
Proof.
  revert s. induction w as [|b w IH]; intros s; [by destruct s; intros [= <-]|].
  destruct s as [|c s]; cbn; [done|]. case_bool_decide; [|done].
  intros E%IH. rewrite zlen_cons. lia.
Qed.

Lemma lex_string_len s t r : lex_string s = Some (t, r) -> zlen t + zlen r <= zlen s.
Proof.
  revert t. induction s as [|b s IH]; intros t; cbn; [done|].
  case_bool_decide; [intros [= <- <-]; rewrite zlen_cons, zlen_nil; lia|].
  case_bool_decide; [done|]. destruct (lex_string s) as [[t' r']|] eqn:E; cbn; [|done].
  intros [= <- <-]. pose proof (IH t' eq_refl). rewrite !zlen_cons. lia.
Qed.

Lemma lex_digits_len s ds r : lex_digits s = (ds, r) -> zlen r <= zlen s.
Proof.
  revert ds. induction s as [|b s IH]; intros ds; cbn; [by intros [= <- <-]|].
  destruct (isdigit b); [|by intros [= <- <-]].
  destruct (lex_digits s) as [ds' r'] eqn:E. intros [= <- <-]. pose proof (IH ds' eq_refl).
  rewrite zlen_cons. lia.
Qed.

Lemma parse_leaf_within N s v r :
  zlen s <= N -> parse_leaf s = Some (v, r) -> within N v /\ zlen r <= zlen s.
Proof.
  intros HN. unfold parse_leaf. destruct s as [|b s]; [done|]. rewrite zlen_cons in *.
  case_bool_decide.
  { destruct (lex_string s) as [[t r']|] eqn:E; cbn; [|done]. intros [= <- <-].
    apply lex_string_len in E. pose proof (zlen_nonneg t). pose proof (zlen_nonneg r').
    cbn [within]. lia. }
  case_bool_decide.
  { destruct (lex_digits s) as [[|d ds] r'] eqn:E; [done|]. intros [= <- <-].
    apply lex_digits_len in E. cbn. lia. }
  destruct (isdigit b).
  { destruct (lex_digits (b :: s)) as [ds r'] eqn:E. intros [= <- <-].
    apply lex_digits_len in E. rewrite zlen_cons in E. by cbn. }
  destruct (lex_word text_true (b :: s)) as [r'|] eqn:E1.
  { intros [= <- <-]. apply lex_word_len in E1. rewrite zlen_cons in E1. by cbn. }
  destruct (lex_word text_false (b :: s)) as [r'|] eqn:E2.
  { intros [= <- <-]. apply lex_word_len in E2. rewrite zlen_cons in E2. by cbn. }
  destruct (lex_word text_null (b :: s)) as [r'|] eqn:E3; cbn; [|done].
  intros [= <- <-]. apply lex_word_len in E3. by rewrite zlen_cons in E3.
Qed.

Lemma parse_within_both N fuel :
  (forall s v r, zlen s <= N -> parse_value fuel s = Some (v, r) -> within N v /\ zlen r <= zlen s) /\
  (forall s ms r, zlen s <= N -> parse_members fuel s = Some (ms, r) ->
     within N (JObject ms) /\ zlen r <= zlen s).
Proof.
  induction fuel as [|fuel [IHv IHm]]; [done|]. split; intros s x r HN; cbn [parse_value parse_members].
  - destruct (lex_word [brace_open] s) as [s1|] eqn:E; [|by apply parse_leaf_within].
    apply lex_word_len in E.
    destruct (lex_word [brace_close] s1) as [r1|] eqn:E1.
    { intros [= <- <-]. apply lex_word_len in E1. split; [done|lia]. }
    destruct (parse_members fuel s1) as [[ms r1]|] eqn:Em; cbn [mbind option_bind]; [|done]. intros [= <- <-].
    apply IHm in Em; [|lia]. split; [apply Em|lia].
  - destruct (lex_word [quote] s) as [s1|] eqn:E1; cbn [mbind option_bind]; [|done]. apply lex_word_len in E1.
    destruct (lex_string s1) as [[k s2]|] eqn:E2; cbn [mbind option_bind]; [|done]. apply lex_string_len in E2.
    destruct (lex_word [colon] s2) as [s3|] eqn:E3; cbn [mbind option_bind]; [|done]. apply lex_word_len in E3.
    pose proof (zlen_nonneg k).
    destruct (parse_value fuel s3) as [[v s4]|] eqn:E4; cbn [mbind option_bind]; [|done]. apply IHv in E4; [|lia].
    destruct (lex_word [comma] s4) as [s5|] eqn:E5.
    + apply lex_word_len in E5. destruct (parse_members fuel s5) as [[ms s6]|] eqn:E6; cbn [mbind option_bind]; [|done].
      intros [= <- <-]. apply IHm in E6; [|lia]. split; [split; [apply E4|apply E6]|lia].
    + destruct (lex_word [brace_close] s4) as [s6|] eqn:E6; cbn [mbind option_bind]; [|done]. apply lex_word_len in E6.
      intros [= <- <-]. split; [split; [apply E4|exact I]|lia].
Qed.

#[export] Instance reference_json_size : JsonSize.
Proof.
  split; [|done]. intros s err v. cbn. unfold parse_json.
  destruct (parse_value _ s) as [[v' r]|] eqn:E; intros [= <- <-]; [|done].
  apply (proj1 (parse_within_both (zlen s) _)) in E; [apply E|done].
Qed.

Example parse_demo :
  parse_json (bytes "{cmd:1}") = (json_tokener_failure 1, JNull) /\
  parse_json ([brace_open] ++ toCmd (bytes "cmd") (-12) ++ [comma] ++
    toCmd_s (bytes "s") (bytes "x y") ++ [brace_close]) =
    (json_tokener_success, JObject [(bytes "cmd", JInt (-12)); (bytes "s", JString (bytes "x y"))]).
Proof. by vm_compute. Qed.
