(* ===== verification/Ssl.v ===== *)
(** * Block encryption and base64 (include/yyssl.h)

    [YYRSA] and [YYAES] cut a string into blocks and hand each block to OpenSSL,
    behind a byte that says how much of the last block counts; [YYBase64] wraps
    OpenSSL's encoder.  OpenSSL is not part of the repository: its primitives
    are the fields of the class [OpenSSL], and [OpenSSLLaws] says what its
    documentation promises about them.  An array that is not initialised holds
    bytes nobody knows: they are the argument [stack]. *)

From S2P Require Import Prelude Json.

Definition kBytes : Z := 128.
Definition AES_BLOCK_SIZE : Z := 16.

Class OpenSSL := {
  RSA : Type;
  AES_KEY : Type;
  RSA_generate_key : Z -> option RSA;
  RSA_check_key : RSA -> Z;
  RSAPublicKey_dup : RSA -> RSA;
  RSAPrivateKey_dup : RSA -> RSA;
  d2i_RSAPublicKey : list byte -> option RSA;
  d2i_RSAPrivateKey : list byte -> option RSA;
  i2d_RSAPublicKey : RSA -> Z * list byte;
  i2d_RSAPrivateKey : RSA -> Z * list byte;
  RSA_public_encrypt : RSA -> list byte -> option (list byte);
  RSA_private_decrypt : RSA -> list byte -> option (list byte);
  AES_zero : AES_KEY;
  AES_set_encrypt_key : list byte -> AES_KEY;
  AES_set_decrypt_key : list byte -> AES_KEY;
  AES_encrypt : AES_KEY -> list byte -> list byte;
  AES_decrypt : AES_KEY -> list byte -> list byte;
  evp_encode : list byte -> list byte * list byte;
  evp_decode : list byte -> list byte * list byte;
}.

(** The text [EVP_EncodeUpdate] and [EVP_EncodeFinal] write at most: lines of 64
    characters and a line feed for 48 bytes. *)
Definition base64_max (n : Z) : Z :=
  65 * (n / 48) + (if n mod 48 =? 0 then 0 else 4 * ((n mod 48 + 2) / 3) + 1).

Definition ascii (s : list byte) : Prop := Forall (fun b => b2z b < 128) s.

Class OpenSSLLaws `{OpenSSL} : Prop := {
  aes_inverse : forall key b, zlen b = AES_BLOCK_SIZE ->
    zlen (AES_encrypt (AES_set_encrypt_key key) b) = AES_BLOCK_SIZE /\
    AES_decrypt (AES_set_decrypt_key key) (AES_encrypt (AES_set_encrypt_key key) b) = b;
  aes_block : forall k b, zlen b = AES_BLOCK_SIZE -> zlen (AES_decrypt k b) = AES_BLOCK_SIZE;
  base64_inverse : forall s u f, evp_encode s = (u, f) ->
    let '(u', f') := evp_decode (u ++ f) in u' ++ f' = s;
  base64_plain : forall s, let '(u, f) := evp_encode s in
    plain_text (u ++ f) = true /\ ascii (u ++ f);
  base64_encode_len : forall s, let '(u, f) := evp_encode s in zlen (u ++ f) <= base64_max (zlen s);
  base64_decode_len : forall s, let '(u, f) := evp_decode s in zlen (u ++ f) <= 3 * (zlen s / 4);
}.

(** A key pair: raw encryption of a block whose first bit is not set works, and
    is undone by the private key. *)
Definition key_pair `{OpenSSL} (pub priv : RSA) : Prop :=
  (forall b c, zlen (c :: b) = kBytes -> b2z c < 128 ->
     exists e, RSA_public_encrypt pub (c :: b) = Some e) /\
  (forall b e, zlen b = kBytes -> RSA_public_encrypt pub b = Some e ->
     zlen e = kBytes /\ RSA_private_decrypt priv e = Some b).

(** ** Strings and arrays *)

(** [s.copy (to, n, pos)] *)
Definition copy (s to : list byte) (n pos : Z) : Z * list byte :=
  let chunk := take (Z.to_nat n) (drop (Z.to_nat pos) s) in
  (zlen chunk, chunk ++ drop (length chunk) to).

(** [s.append (from, n)] for a [char] [n]: it becomes a [size_t], and more
    characters than a string can have are an exception. *)
Definition append_chars (s from : list byte) (n : Z) : result (list byte) :=
  if n <? 0 then Err Thrown
  else if zlen from <? n then Err Undefined
  else Ok (s ++ take (Z.to_nat n) from).

Section yyssl.
  Context `{OpenSSL}.

(** ** RSA keys *)

Record YYRSA := Rsa {
  _publicKey : option RSA;
  _privateKey : option RSA;
}.

Definition new_YYRSA : YYRSA := Rsa None None.

(** [GenRSAKey]: the pair of keys, when there is one. *)
Definition GenRSAKey (seed : Z) : option (RSA * RSA) :=
  rsa ← RSA_generate_key seed;
  if RSA_check_key rsa <=? 0 then None
  else Some (RSAPublicKey_dup rsa, RSAPrivateKey_dup rsa).

Definition RSAStringToPubKey (buf : list byte) : option RSA := d2i_RSAPublicKey buf.
Definition RSAStringToPrivKey (buf : list byte) : option RSA := d2i_RSAPrivateKey buf.

(** The key is written to an array of 1024 bytes. *)
Definition KeyToString (key : Z * list byte) (buf : list byte) : result (bool * list byte) :=
  let '(keylen, temp) := key in
  if keylen <=? 0 then Ok (false, buf)
  else if 1024 <? zlen temp then Err Undefined
  else if zlen temp <? keylen then Err Undefined
  else Ok (true, buf ++ take (Z.to_nat keylen) temp).

Definition RSAPubKeyToString (pubickey : option RSA) (buf : list byte) :
    result (bool * list byte) :=
  match pubickey with
  | None => Ok (false, buf)
  | Some k => KeyToString (i2d_RSAPublicKey k) buf
  end.

Definition RSAPrivKeyToString (privatekey : option RSA) (buf : list byte) :
    result (bool * list byte) :=
  match privatekey with
  | None => Ok (false, buf)
  | Some k => KeyToString (i2d_RSAPrivateKey k) buf
  end.

Definition SetRSAKey_keys (rsa : YYRSA) (publickey privatekey : option RSA) : YYRSA :=
  let rsa := match publickey with
             | Some k => Rsa (Some k) (_privateKey rsa)
             | None => rsa
             end in
  match privatekey with
  | Some k => Rsa (_publicKey rsa) (Some k)
  | None => rsa
  end.

Definition is_empty (s : list byte) : bool := match s with [] => true | _ => false end.

Definition SetRSAKey (rsa : YYRSA) (publickey privatekey : list byte) : YYRSA :=
  let pubkey := if is_empty publickey then None else RSAStringToPubKey publickey in
  let prikey := if is_empty privatekey then None else RSAStringToPrivKey privatekey in
  SetRSAKey_keys rsa pubkey prikey.

(** ** RSA *)

(** The loop of [RSAPublicEncrypt] from [offset]. *)
Fixpoint rsa_encrypt_loop (fuel : nat) (key : RSA) (inbuf : list byte) (offset : Z)
    (outbuf : list byte) : result (bool * list byte) :=
  match fuel with
  | O => Err NoFuel
  | S fuel =>
      if zlen inbuf <=? offset then Ok (true, outbuf) else
      let '(len, from) := copy inbuf (replicate (Z.to_nat kBytes) x00) kBytes offset in
      match RSA_public_encrypt key from with
      | None => Ok (false, outbuf)
      | Some to => rsa_encrypt_loop fuel key inbuf (offset + len) (outbuf ++ to)
      end
  end.

Definition RSAPublicEncrypt (rsa : YYRSA) (inbuf outbuf : list byte) :
    result (bool * list byte) :=
  match _publicKey rsa with
  | None => Ok (false, outbuf)
  | Some key =>
      let offsetLen := wrapS 8 (zlen inbuf mod kBytes) in
      rsa_encrypt_loop (S (length inbuf)) key inbuf 0 (outbuf ++ [z2b offsetLen])
  end.

(** The loop of [RSAPrivateDecrypt]; [to] is its array. *)
Fixpoint rsa_decrypt_loop (fuel : nat) (key : RSA) (inbuf : list byte) (offsetLen offset : Z)
    (from to outbuf : list byte) : result (bool * list byte) :=
  match fuel with
  | O => Err NoFuel
  | S fuel =>
      if zlen inbuf <=? offset then Ok (true, outbuf) else
      let '(len, from) := copy inbuf from kBytes offset in
      match RSA_private_decrypt key from with
      | None => Ok (false, outbuf)
      | Some out =>
          let to := out ++ drop (length out) to in
          let offset := offset + len in
          outbuf ← (if negb (offsetLen =? 0) && (zlen inbuf <=? offset)
                    then append_chars outbuf to offsetLen
                    else Ok (outbuf ++ out));
          rsa_decrypt_loop fuel key inbuf offsetLen offset from to outbuf
      end
  end.

Definition RSAPrivateDecrypt (stack : list byte) (rsa : YYRSA) (inbuf outbuf : list byte) :
    result (bool * list byte) :=
  match _privateKey rsa with
  | None => Ok (false, outbuf)
  | Some key =>
      if negb (zlen inbuf mod kBytes =? 1) then Ok (false, outbuf) else
      match inbuf with
      | [] => Ok (false, outbuf)
      | b :: _ => rsa_decrypt_loop (length inbuf) key inbuf (c2z b) 1 stack stack outbuf
      end
  end.

(** ** AES *)

Record YYAES := Aes {
  _encryptkey : AES_KEY;
  _decryptkey : AES_KEY;
}.

Definition new_YYAES : YYAES := Aes AES_zero AES_zero.

Definition AESSetKey (aes : YYAES) (aesKkey : option (list byte)) : YYAES :=
  match aesKkey with
  | None => aes
  | Some k => Aes (AES_set_encrypt_key k) (AES_set_decrypt_key k)
  end.

(** The loop of [AESEncrypt]: [from] keeps the end of the block before. *)
Fixpoint aes_encrypt_loop (fuel : nat) (key : AES_KEY) (inbuf : list byte) (offset : Z)
    (from outbuf : list byte) : result (list byte) :=
  match fuel with
  | O => Err NoFuel
  | S fuel =>
      if zlen inbuf <=? offset then Ok outbuf else
      let '(_, from) := copy inbuf from AES_BLOCK_SIZE offset in
      aes_encrypt_loop fuel key inbuf (offset + AES_BLOCK_SIZE) from
        (outbuf ++ AES_encrypt key from)
  end.

Definition AESEncrypt (stack : list byte) (aes : YYAES) (inbuf outbuf : list byte) :
    result (bool * list byte) :=
  let offsetLen := wrapS 8 (zlen inbuf mod AES_BLOCK_SIZE) in
  outbuf ← aes_encrypt_loop (S (length inbuf)) (_encryptkey aes) inbuf 0 stack
             (outbuf ++ [z2b offsetLen]);
  Ok (true, outbuf).

Fixpoint aes_decrypt_loop (fuel : nat) (key : AES_KEY) (inbuf : list byte) (offsetLen offset : Z)
    (from outbuf : list byte) : result (list byte) :=
  match fuel with
  | O => Err NoFuel
  | S fuel =>
      if zlen inbuf <=? offset then Ok outbuf else
      let '(_, from) := copy inbuf from AES_BLOCK_SIZE offset in
      let to := AES_decrypt key from in
      let offset := offset + AES_BLOCK_SIZE in
      outbuf ← (if negb (offsetLen =? 0) && (zlen inbuf <=? offset)
                then append_chars outbuf to offsetLen
                else Ok (outbuf ++ to));
      aes_decrypt_loop fuel key inbuf offsetLen offset from outbuf
  end.

Definition AESDecrypt (stack : list byte) (aes : YYAES) (inbuf outbuf : list byte) :
    result (bool * list byte) :=
  match inbuf with
  | [] => Ok (false, outbuf)
  | b :: _ =>
      if negb (zlen inbuf mod AES_BLOCK_SIZE =? 1) then Ok (false, outbuf) else
      outbuf ← aes_decrypt_loop (length inbuf) (_decryptkey aes) inbuf (c2z b) 1 stack outbuf;
      Ok (true, outbuf)
  end.

(** ** Base64

    The string is made long enough, OpenSSL writes into it, and what it did not
    write is erased; writing more than fits is the only way to fail. *)

Definition base64encode (inbuf : list byte) : result (bool * list byte) :=
  let base64Len := i32 (u32 (u32 (u32 (zlen inbuf + 2) / 3 * 4) + 1)) in
  let pemLen := i32 (base64Len + Z.quot base64Len 64) in
  let '(u, f) := evp_encode inbuf in
  if pemLen <? 0 then Err Thrown
  else if pemLen <? zlen (u ++ f) then Err Undefined
  else Ok (true, u ++ f).

Definition base64decode (inbuf : list byte) : result (bool * list byte) :=
  let orgLen := i32 (u32 (u32 (u32 (zlen inbuf + 2) / 4 * 3) + 1)) in
  let '(u, f) := evp_decode inbuf in
  if orgLen <? 0 then Err Thrown
  else if orgLen <? zlen (u ++ f) then Err Undefined
  else Ok (true, u ++ f).

End yyssl.
