(* ===== verification/SslSpec.v ===== *)
(** * What is encrypted is decrypted

    The block loops of [YYRSA] and [YYAES] are related to one description of an
    encrypted string, the relation [enciphered]; decryption inverts it. *)

From S2P Require Import Prelude Json Ssl.

(** ** Encrypted strings

    Every chunk of the text but the last fills its block; what fills the last
    block does not matter. *)
Inductive enciphered (B : Z) (enc : list byte -> option (list byte)) :
    list byte -> list byte -> Prop :=
| Enc_nil : enciphered B enc [] []
| Enc_step chunk tail s e c :
    chunk <> [] -> zlen (chunk ++ tail) = B -> (s <> [] -> tail = []) ->
    enc (chunk ++ tail) = Some e -> zlen e = B ->
    enciphered B enc s c -> enciphered B enc (chunk ++ s) (e ++ c).

Lemma enciphered_nil B enc s c :
  0 < B -> enciphered B enc s c -> (c = [] <-> s = []).
Proof.
  intros HB [|chunk tail s' e c' Hc Hl _ _ He]; [done|].
  split; intros [Hn _]%app_nil; [subst; rewrite zlen_nil in He; lia|done].
Qed.

(** ** Copying a chunk of the string behind a prefix *)

Lemma copy_at (pre s to : list byte) B :
  copy (pre ++ s) to B (zlen pre) =
    (zlen (take (Z.to_nat B) s), take (Z.to_nat B) s ++ drop (length (take (Z.to_nat B) s)) to).
Proof. unfold copy. rewrite to_nat_zlen, drop_app_length. done. Qed.

Lemma copy_block (pre e c to : list byte) B :
  zlen e = B -> zlen to = B -> copy (pre ++ e ++ c) to B (zlen pre) = (B, e).
Proof.
  intros He Ht. rewrite copy_at, take_app_le, take_ge by len_lia.
  rewrite He, (drop_ge to), app_nil_r by len_lia. done.
Qed.

Lemma take_drop_chunk (s : list byte) B :
  0 < B -> s <> [] ->
  take (Z.to_nat B) s <> [] /\ zlen (take (Z.to_nat B) s) <= B /\
  (drop (Z.to_nat B) s <> [] -> zlen (take (Z.to_nat B) s) = B).
Proof.
  intros HB Hs. split; [|split].
  - intros E. apply (f_equal length) in E. destruct s; [done|]. rewrite length_take in E. cbn in E. lia.
  - len_lia.
  - intros Hd. destruct (decide (length s <= Z.to_nat B)%nat); [|len_lia].
    by rewrite drop_ge in Hd.
Qed.

Section loops.
  Context `{OpenSSL}.

(** The loop of [AESEncrypt] gives an enciphering of the rest of the text. *)
Lemma aes_encrypt_loop_spec key fuel pre s from out :
  (forall b, zlen b = AES_BLOCK_SIZE -> zlen (AES_encrypt key b) = AES_BLOCK_SIZE) ->
  zlen from = AES_BLOCK_SIZE -> (length s < fuel)%nat ->
  exists c, aes_encrypt_loop fuel key (pre ++ s) (zlen pre) from out = Ok (out ++ c) /\
    enciphered AES_BLOCK_SIZE (fun b => Some (AES_encrypt key b)) s c.
Proof.
  intros Hk. revert pre s from out. induction fuel as [|fuel IH]; intros pre s from out Hf Hl; [lia|].
  cbn [aes_encrypt_loop]. destruct (decide (s = [])) as [->|Hs].
  { rewrite app_nil_r, (proj2 (Z.leb_le _ _)) by lia. exists []. rewrite app_nil_r. split; [done|constructor]. }
  rewrite (proj2 (Z.leb_gt _ _)) by (destruct s; [done|len_lia]).
  rewrite copy_at. destruct (take_drop_chunk s AES_BLOCK_SIZE eq_refl Hs) as (Hc & Hle & Hd).
  set (chunk := take (Z.to_nat AES_BLOCK_SIZE) s) in *. set (rest := drop (Z.to_nat AES_BLOCK_SIZE) s) in *.
  assert (Es : s = chunk ++ rest) by (subst chunk rest; by rewrite take_drop).
  set (tail := drop (length chunk) from).
  assert (Ht : zlen (chunk ++ tail) = AES_BLOCK_SIZE) by (subst tail; clear - Hf Hle; unfold AES_BLOCK_SIZE in *; len_lia).
  assert (Hlr : (length rest < fuel)%nat).
  { rewrite Es, length_app in Hl. destruct chunk; [done|]. cbn in Hl. lia. }
  assert (Htail : rest <> [] -> tail = []).
  { intros Hr%Hd. subst tail. apply drop_ge. clear - Hf Hr. unfold AES_BLOCK_SIZE in *. len_lia. }
  destruct (decide (rest = [])) as [Hr|Hr].
  - destruct fuel as [|fuel]; [lia|]. cbn [aes_encrypt_loop].
    rewrite (proj2 (Z.leb_le _ _)) by (rewrite Es, Hr, app_nil_r, zlen_app; lia).
    eexists; split; [done|]. rewrite Es, <- (app_nil_r (AES_encrypt key (chunk ++ tail))).
    rewrite Hr. econstructor; try done; [by apply Hk|constructor].
  - destruct (IH (pre ++ chunk) rest (chunk ++ tail) (out ++ AES_encrypt key (chunk ++ tail))) as (c & E & He);
      [done|done|].
    rewrite <- app_assoc, <- Es, zlen_app, (Hd Hr) in E. rewrite E.
    exists (AES_encrypt key (chunk ++ tail) ++ c). split; [by rewrite app_assoc|].
    rewrite Es at 1. econstructor; try done. by apply Hk.
Qed.

Lemma rsa_encrypt_loop_spec pub priv fuel pre s out :
  key_pair pub priv -> ascii s -> (length s < fuel)%nat ->
  exists c, rsa_encrypt_loop fuel pub (pre ++ s) (zlen pre) out = Ok (true, out ++ c) /\
    enciphered kBytes (RSA_public_encrypt pub) s c.
Proof.
  intros [Hk1 Hk2]. revert pre s out. induction fuel as [|fuel IH]; intros pre s out Ha Hl; [lia|].
  cbn [rsa_encrypt_loop]. destruct (decide (s = [])) as [->|Hs].
  { rewrite app_nil_r, (proj2 (Z.leb_le _ _)) by lia. exists []. rewrite app_nil_r. split; [done|constructor]. }
  rewrite (proj2 (Z.leb_gt _ _)) by (destruct s; [done|len_lia]).
  rewrite copy_at. destruct (take_drop_chunk s kBytes eq_refl Hs) as (Hc & Hle & Hd).
  set (chunk := take (Z.to_nat kBytes) s) in *. set (rest := drop (Z.to_nat kBytes) s) in *.
  assert (Es : s = chunk ++ rest) by (subst chunk rest; by rewrite take_drop).
  set (tail := drop (length chunk) (replicate (Z.to_nat kBytes) x00)).
  assert (Ht : zlen (chunk ++ tail) = kBytes) by (subst tail; clear - Hle; unfold kBytes in *; len_lia).
  assert (Htail : rest <> [] -> tail = []).
  { intros Hr%Hd. subst tail. apply drop_ge. clear - Hr. unfold kBytes in *. len_lia. }
  assert (Hlr : (length rest < fuel)%nat).
  { rewrite Es, length_app in Hl. destruct chunk; [done|]. cbn in Hl. lia. }
  assert (Hac : ascii (chunk ++ rest)) by (by rewrite <- Es). apply Forall_app in Hac as [Hac Har].
  assert (He : exists e, RSA_public_encrypt pub (chunk ++ tail) = Some e).
  { destruct chunk as [|b chunk]; [done|]. apply Hk1; [done|]. by inversion Hac. }
  destruct He as [e He]. destruct (Hk2 _ _ Ht He) as [Hel _]. rewrite He.
  destruct (IH (pre ++ chunk) rest (out ++ e) Har Hlr) as (c & E & Hc').
  rewrite <- app_assoc, <- Es, zlen_app in E. rewrite E.
  exists (e ++ c). split; [by rewrite app_assoc|]. rewrite Es. by econstructor.
Qed.

(** What both decryption loops append for a block. *)
Lemma append_block B (chunk tail s out : list byte) inlen offset offsetLen :
  0 < B -> chunk <> [] -> zlen (chunk ++ tail) = B -> (s <> [] -> tail = []) ->
  offsetLen = zlen (chunk ++ s) mod B -> (inlen <= offset <-> s = []) ->
  (if negb (offsetLen =? 0) && (inlen <=? offset)
   then append_chars out (chunk ++ tail) offsetLen
   else Ok (out ++ (chunk ++ tail))) = Ok (out ++ chunk).
Proof.
  intros HB Hc Hl Ht Ho Hs.
  assert (Hnc : 0 < zlen chunk <= B).
  { pose proof (zlen_nonneg tail). rewrite zlen_app in Hl. destruct chunk; [done|]. rewrite zlen_cons in *.
    pose proof (zlen_nonneg chunk). lia. }
  destruct (decide (s = [])) as [->|Hn].
  - rewrite (proj2 (Z.leb_le _ _)) by tauto. rewrite andb_true_r. rewrite app_nil_r in Ho.
    destruct (decide (zlen chunk = B)) as [E|E].
    + rewrite E, Z.mod_same in Ho by lia. rewrite Ho. cbn.
      assert (tail = []) as ->; [|by rewrite app_nil_r].
      rewrite zlen_app in Hl. destruct tail; [done|len_lia].
    + rewrite Z.mod_small in Ho by lia. rewrite Ho.
      rewrite (proj2 (Z.eqb_neq _ _)) by lia. cbn [negb].
      unfold append_chars. rewrite (proj2 (Z.ltb_ge _ _)), (proj2 (Z.ltb_ge _ _)) by lia.
      by rewrite to_nat_zlen, take_app_length.
  - rewrite (proj2 (Z.leb_gt _ _)) by (assert (~ inlen <= offset) by tauto; lia).
    rewrite andb_false_r, (Ht Hn), app_nil_r. done.
Qed.

Lemma mod_next B (chunk tail s : list byte) :
  0 < B -> zlen (chunk ++ tail) = B -> (s <> [] -> tail = []) -> s <> [] ->
  zlen s mod B = zlen (chunk ++ s) mod B.
Proof.
  intros HB Hl Ht Hs. rewrite (Ht Hs), app_nil_r in Hl. rewrite zlen_app, Hl.
  replace (B + zlen s) with (zlen s + 1 * B) by lia. by rewrite Z.mod_add by lia.
Qed.

Lemma aes_decrypt_loop_spec key enc fuel pre s c from out :
  (forall b e, zlen b = AES_BLOCK_SIZE -> enc b = Some e -> AES_decrypt key e = b) ->
  enciphered AES_BLOCK_SIZE enc s c ->
  zlen from = AES_BLOCK_SIZE -> (length c < fuel)%nat ->
  aes_decrypt_loop fuel key (pre ++ c) (zlen s mod AES_BLOCK_SIZE) (zlen pre) from out =
    Ok (out ++ s).
Proof.
  intros Hk He. revert fuel pre from out.
  induction He as [|chunk tail s e c Hc Hl Ht Henc Hel He IH]; intros [|fuel] pre from out Hf Hfu;
    try lia; cbn [aes_decrypt_loop].
  - rewrite app_nil_r, (proj2 (Z.leb_le _ _)) by lia. by rewrite app_nil_r.
  - rewrite (proj2 (Z.leb_gt _ _)) by (rewrite !zlen_app; pose proof (zlen_nonneg c); unfold AES_BLOCK_SIZE in *; lia).
    rewrite copy_block by done. rewrite (Hk _ _ Hl Henc).
    assert (Hs : zlen (pre ++ e ++ c) <= zlen pre + AES_BLOCK_SIZE <-> s = []).
    { rewrite !zlen_app, Hel. rewrite <- (enciphered_nil AES_BLOCK_SIZE enc _ _ eq_refl He).
      pose proof (zlen_nonneg c). destruct c; [rewrite zlen_nil; split; [done|lia]|].
      rewrite zlen_cons in *. split; [pose proof (zlen_nonneg c); lia|done]. }
    rewrite (append_block AES_BLOCK_SIZE chunk tail s) by (done || reflexivity).
    cbn [mbind result_bind].
    replace (zlen pre + AES_BLOCK_SIZE) with (zlen (pre ++ e)) by (rewrite zlen_app; lia).
    rewrite (app_assoc pre e c).
    rewrite length_app in Hfu. destruct (decide (s = [])) as [Hn|Hn].
    + pose proof (proj2 (enciphered_nil AES_BLOCK_SIZE enc _ _ eq_refl He) Hn). subst c s.
      destruct fuel as [|fuel]; [unfold AES_BLOCK_SIZE in *; len_lia|]. cbn [aes_decrypt_loop].
      by rewrite !app_nil_r, (proj2 (Z.leb_le _ _)) by lia.
    + rewrite <- (mod_next AES_BLOCK_SIZE chunk tail s) by (done || reflexivity).
      rewrite IH; [by rewrite app_assoc|done|unfold AES_BLOCK_SIZE in *; len_lia].
Qed.

Lemma rsa_decrypt_loop_spec key enc fuel pre s c from to out :
  (forall b e, zlen b = kBytes -> enc b = Some e -> RSA_private_decrypt key e = Some b) ->
  enciphered kBytes enc s c ->
  zlen from = kBytes -> zlen to = kBytes -> (length c < fuel)%nat ->
  rsa_decrypt_loop fuel key (pre ++ c) (zlen s mod kBytes) (zlen pre) from to out =
    Ok (true, out ++ s).
Proof.
  intros Hk He. revert fuel pre from to out.
  induction He as [|chunk tail s e c Hc Hl Ht Henc Hel He IH]; intros [|fuel] pre from to out Hf Hto Hfu;
    try lia; cbn [rsa_decrypt_loop].
  - rewrite app_nil_r, (proj2 (Z.leb_le _ _)) by lia. by rewrite app_nil_r.
  - rewrite (proj2 (Z.leb_gt _ _)) by (rewrite !zlen_app; pose proof (zlen_nonneg c); unfold kBytes in *; lia).
    rewrite copy_block by done. rewrite (Hk _ _ Hl Henc).
    assert (Hs : zlen (pre ++ e ++ c) <= zlen pre + kBytes <-> s = []).
    { rewrite !zlen_app, Hel. rewrite <- (enciphered_nil kBytes enc _ _ eq_refl He).
      pose proof (zlen_nonneg c). destruct c; [rewrite zlen_nil; split; [done|lia]|].
      rewrite zlen_cons in *. split; [pose proof (zlen_nonneg c); lia|done]. }
    assert (Eto : drop (length (chunk ++ tail)) to = []).
    { apply drop_ge. unfold kBytes in *. len_lia. }
    rewrite Eto, (app_nil_r (chunk ++ tail)).
    rewrite (append_block kBytes chunk tail s) by (done || reflexivity).
    cbn [mbind result_bind].
    replace (zlen pre + kBytes) with (zlen (pre ++ e)) by (rewrite zlen_app; lia).
    rewrite (app_assoc pre e c).
    rewrite length_app in Hfu. destruct (decide (s = [])) as [Hn|Hn].
    + pose proof (proj2 (enciphered_nil kBytes enc _ _ eq_refl He) Hn). subst c s.
      destruct fuel as [|fuel]; [unfold kBytes in *; len_lia|]. cbn [rsa_decrypt_loop].
      by rewrite !app_nil_r, (proj2 (Z.leb_le _ _)) by lia.
    + rewrite <- (mod_next kBytes chunk tail s) by (done || reflexivity).
      rewrite IH; [by rewrite app_assoc|done|done|unfold kBytes in *; len_lia].
Qed.

(** The length byte. *)
Lemma offset_byte n B : 0 < B <= 128 -> c2z (z2b (wrapS 8 (n mod B))) = n mod B.
Proof.
  intros HB. pose proof (Z.mod_pos_bound n B ltac:(lia)).
  rewrite wrapS_small by (cbn; lia). unfold c2z. rewrite b2z_z2b by lia.
  apply wrapS_small; cbn; lia.
Qed.

Lemma enciphered_len B enc s c :
  0 < B -> enciphered B enc s c -> exists k, zlen c = k * B.
Proof.
  intros HB. induction 1 as [|chunk tail s e c _ _ _ _ He _ [k E]]; [by exists 0|].
  exists (k + 1). rewrite zlen_app, He, E. lia.
Qed.

Lemma enciphered_bound B enc s c :
  0 < B -> enciphered B enc s c -> zlen c <= zlen s + B.
Proof.
  intros HB. induction 1 as [|chunk tail s e c Hc Hl Ht _ He Hs IH]; [rewrite !zlen_nil; lia|].
  rewrite !zlen_app in *. pose proof (zlen_nonneg chunk).
  destruct (decide (s = [])) as [->|Hn].
  - apply enciphered_nil in Hs; [|done]. rewrite (proj2 Hs eq_refl), zlen_nil. lia.
  - rewrite (Ht Hn), zlen_nil in Hl. lia.
Qed.

Lemma framed_len B enc s c :
  1 < B -> enciphered B enc s c -> zlen (z2b (wrapS 8 (zlen s mod B)) :: c) mod B = 1.
Proof.
  intros HB Hc. destruct (enciphered_len B enc s c ltac:(lia) Hc) as [k E].
  rewrite zlen_cons, E, Z.mod_add by lia. apply Z.mod_small. lia.
Qed.

(** AES: whatever the arrays hold, decrypting gives the text back. *)
Lemma aes_roundtrip `{!OpenSSLLaws} key aes stack stack' s :
  zlen stack = AES_BLOCK_SIZE -> zlen stack' = AES_BLOCK_SIZE ->
  exists c, AESEncrypt stack (AESSetKey aes (Some key)) s [] = Ok (true, c) /\
    c <> [] /\ zlen c <= zlen s + 17 /\
    AESDecrypt stack' (AESSetKey aes (Some key)) c [] = Ok (true, s).
Proof.
  intros Hst Hst'.
  destruct (aes_encrypt_loop_spec (AES_set_encrypt_key key) (S (length s)) [] s stack
    [z2b (wrapS 8 (zlen s mod AES_BLOCK_SIZE))]) as (c & E & Hc).
  - intros b Hb. by apply aes_inverse.
  - done.
  - lia.
  - exists ([z2b (wrapS 8 (zlen s mod AES_BLOCK_SIZE))] ++ c). split.
    { unfold AESEncrypt. cbn [AESSetKey _encryptkey app]. change (zlen []) with 0 in E.
      change ([] ++ s) with s in E. by rewrite E. }
    split; [done|]. split.
    { rewrite zlen_app. change (zlen [_]) with 1.
      pose proof (enciphered_bound AES_BLOCK_SIZE _ s c eq_refl Hc) as Hb.
      unfold AES_BLOCK_SIZE in Hb. lia. }
    unfold AESDecrypt. cbn [app]. rewrite (framed_len AES_BLOCK_SIZE _ _ _ eq_refl Hc). cbn [negb Z.eqb Pos.eqb].
    rewrite offset_byte by done. cbn [AESSetKey _decryptkey length].
    assert (Hk : forall b e, zlen b = AES_BLOCK_SIZE ->
      Some (AES_encrypt (AES_set_encrypt_key key) b) = Some e ->
      AES_decrypt (AES_set_decrypt_key key) e = b).
    { intros b e Hb [= <-]. by apply aes_inverse. }
    pose proof (aes_decrypt_loop_spec (AES_set_decrypt_key key) _ (S (length c))
      [z2b (wrapS 8 (zlen s mod AES_BLOCK_SIZE))] s c stack' [] Hk Hc Hst') as E'.
    cbn [app] in E'. change (zlen [z2b (wrapS 8 (zlen s mod AES_BLOCK_SIZE))]) with 1 in E'.
    rewrite E'; [done|lia].
Qed.

(** RSA: the text has to be ASCII, so that every block is below the modulus. *)
Lemma rsa_roundtrip pub priv rsa rsa' stack s :
  key_pair pub priv -> _publicKey rsa = Some pub -> _privateKey rsa' = Some priv ->
  ascii s -> zlen stack = kBytes ->
  exists c, RSAPublicEncrypt rsa s [] = Ok (true, c) /\
    c <> [] /\ zlen c <= zlen s + 129 /\
    RSAPrivateDecrypt stack rsa' c [] = Ok (true, s).
Proof.
  intros Hk Hpub Hpriv Ha Hst.
  destruct (rsa_encrypt_loop_spec pub priv (S (length s)) [] s
    [z2b (wrapS 8 (zlen s mod kBytes))] Hk Ha) as (c & E & Hc); [lia|].
  exists ([z2b (wrapS 8 (zlen s mod kBytes))] ++ c). split.
  { unfold RSAPublicEncrypt. rewrite Hpub. cbn [app] in *. change (zlen []) with 0 in E. by rewrite E. }
  split; [done|]. split.
  { rewrite zlen_app. change (zlen [_]) with 1.
    pose proof (enciphered_bound kBytes _ s c eq_refl Hc) as Hb. unfold kBytes in Hb. lia. }
  unfold RSAPrivateDecrypt. rewrite Hpriv. cbn [app].
  rewrite (framed_len kBytes _ _ _ eq_refl Hc). cbn [negb Z.eqb Pos.eqb].
  rewrite offset_byte by done. cbn [length].
  apply (rsa_decrypt_loop_spec priv (RSA_public_encrypt pub) _ [z2b (wrapS 8 (zlen s mod kBytes))] s c stack stack []);
    [|done|done|done|lia].
  intros b e Hb He. by apply Hk.
Qed.

(** ** Base64 *)

Lemma base64_capacity n :
  0 <= n < 2 ^ 28 ->
  let base64Len := i32 (u32 (u32 (u32 (n + 2) / 3 * 4) + 1)) in
  0 <= base64_max n <= i32 (base64Len + Z.quot base64Len 64).
Proof.
  intros Hn. cbv zeta. rewrite (u32_small (n + 2)) by lia.
  rewrite (u32_small ((n + 2) / 3 * 4)), (u32_small (_ + 1)) by (split; Z.to_euclidean_division_equations; lia).
  rewrite (i32_small ((n + 2) / 3 * 4 + 1)) by (split; Z.to_euclidean_division_equations; lia).
  assert (E : Z.quot ((n + 2) / 3 * 4 + 1) 64 = ((n + 2) / 3 * 4 + 1) / 64).
  { apply Z.quot_div_nonneg; [Z.to_euclidean_division_equations|]; lia. }
  rewrite E, i32_small by (split; Z.to_euclidean_division_equations; lia).
  unfold base64_max. destruct (Z.eqb_spec (n mod 48) 0); split; Z.to_euclidean_division_equations; lia.
Qed.

Lemma base64_max_mono n m : 0 <= n <= m -> base64_max n <= base64_max m.
Proof.
  intros H'. unfold base64_max.
  destruct (Z.eqb_spec (n mod 48) 0), (Z.eqb_spec (m mod 48) 0); Z.to_euclidean_division_equations; lia.
Qed.

Lemma base64_roundtrip `{!OpenSSLLaws} s :
  zlen s < 2 ^ 28 ->
  exists t, base64encode s = Ok (true, t) /\ (plain_text t = true /\ ascii t) /\ zlen t <= base64_max (zlen s) /\
    base64decode t = Ok (true, s).
Proof.
  intros Hs. pose proof (base64_capacity (zlen s)) as Hcap. cbv zeta in Hcap.
  unfold base64encode. destruct (evp_encode s) as [u f] eqn:E.
  pose proof (base64_plain s) as Hp. pose proof (base64_encode_len s) as Hl.
  pose proof (base64_inverse s u f E) as Hi. rewrite E in *.
  pose proof (zlen_nonneg s). pose proof (zlen_nonneg (u ++ f)) as Hnt.
  rewrite (proj2 (Z.ltb_ge _ _)), (proj2 (Z.ltb_ge _ _)) by lia.
  exists (u ++ f). split; [done|]. split; [done|]. split; [done|].
  unfold base64decode. destruct (evp_decode (u ++ f)) as [u' f'] eqn:E'.
  pose proof (base64_decode_len (u ++ f)) as Hd. rewrite E' in Hd. rewrite Hi in *.
  assert (Hb : zlen (u ++ f) < 2 ^ 29).
  { eapply Z.le_lt_trans; [exact Hl|]. unfold base64_max.
    destruct (Z.eqb_spec (zlen s mod 48) 0); Z.to_euclidean_division_equations; lia. }
  rewrite (u32_small (zlen (u ++ f) + 2)) by lia.
  rewrite (u32_small (_ * 3)), (u32_small (_ + 1)) by (split; Z.to_euclidean_division_equations; lia).
  rewrite (i32_small (_ + 1)) by (split; Z.to_euclidean_division_equations; lia).
  rewrite (proj2 (Z.ltb_ge _ _)), (proj2 (Z.ltb_ge _ _));
    [done|Z.to_euclidean_division_equations; lia|Z.to_euclidean_division_equations; lia].
Qed.

(** The text of something is not empty. *)
Lemma base64_nonempty `{!OpenSSLLaws} s t : base64decode t = Ok (true, s) -> s <> [] -> t <> [].
Proof.
  intros E Hs ->. unfold base64decode in E. destruct (evp_decode []) as [u f] eqn:Ed.
  pose proof (base64_decode_len []) as Hd. rewrite Ed in Hd.
  assert (E' : u ++ f = s).
  { destruct (_ <? 0); [discriminate|]. destruct (_ <? zlen (u ++ f)); congruence. }
  subst s.
  apply Hs. destruct (u ++ f); [done|]. rewrite zlen_cons in Hd. pose proof (zlen_nonneg l).
  change (3 * (zlen [] / 4)) with 0 in Hd. lia.
Qed.

(** Decoding never runs out of its buffer, whatever the text. *)
Lemma base64decode_safe `{!OpenSSLLaws} s :
  zlen s < 2 ^ 30 -> exists t, base64decode s = Ok (true, t) /\ zlen t <= 3 * (zlen s / 4).
Proof.
  intros Hs. pose proof (zlen_nonneg s).
  unfold base64decode. destruct (evp_decode s) as [u f] eqn:E.
  pose proof (base64_decode_len s) as Hd. rewrite E in Hd.
  rewrite (u32_small (zlen s + 2)) by lia.
  rewrite (u32_small (_ * 3)), (u32_small (_ + 1)) by (split; Z.to_euclidean_division_equations; lia).
  rewrite (i32_small (_ + 1)) by (split; Z.to_euclidean_division_equations; lia).
  rewrite (proj2 (Z.ltb_ge _ _)), (proj2 (Z.ltb_ge _ _)) by (Z.to_euclidean_division_equations; lia).
  by exists (u ++ f).
Qed.

(** ** The loops end *)

Lemma base64decode_runs `{!OpenSSLLaws} s :
  runs (base64decode s) (fun r => fst r = true /\ zlen (snd r) <= 3 * (zlen s / 4)).
Proof.
  unfold base64decode. pose proof (base64_decode_len s) as Hd. destruct (evp_decode s) as [u f].
  destruct (_ <? 0); [done|]. by destruct (_ <? zlen (u ++ f)).
Qed.

Lemma base64encode_runs s : runs (base64encode s) (fun _ => True).
Proof.
  unfold base64encode. destruct (evp_encode s) as [u f].
  destruct (_ <? 0); [done|]. by destruct (_ <? zlen (u ++ f)).
Qed.

Lemma append_chars_runs s from n :
  runs (append_chars s from n) (fun s' => zlen s' <= zlen s + zlen from).
Proof.
  unfold append_chars. destruct (n <? 0); [done|]. destruct (zlen from <? n); [done|].
  cbn. len_lia.
Qed.

(** Decrypting gives no more bytes than there were. *)
Lemma aes_decrypt_loop_runs `{!OpenSSLLaws} (k : nat) fuel key inbuf offsetLen offset from out :
  zlen inbuf = offset + 16 * Z.of_nat k -> 0 <= offset -> (k < fuel)%nat -> zlen from = AES_BLOCK_SIZE ->
  runs (aes_decrypt_loop fuel key inbuf offsetLen offset from out)
    (fun out' => zlen out' <= zlen out + 16 * Z.of_nat k).
Proof.
  revert fuel offset from out. induction k as [|k IH]; intros [|fuel] offset from out Hl Ho Hf Hfrom; try lia;
    cbn [aes_decrypt_loop].
  - rewrite (proj2 (Z.leb_le _ _)) by lia. cbn. lia.
  - rewrite (proj2 (Z.leb_gt _ _)) by lia. unfold copy.
    set (chunk := take (Z.to_nat AES_BLOCK_SIZE) (drop (Z.to_nat offset) inbuf)).
    assert (Hc : zlen chunk = AES_BLOCK_SIZE) by (subst chunk; unfold AES_BLOCK_SIZE; len_lia).
    assert (Ef : drop (length chunk) from = []) by (apply drop_ge; unfold AES_BLOCK_SIZE in *; len_lia).
    rewrite Ef, app_nil_r. pose proof (aes_block key chunk Hc) as Hto.
    apply (runs_bind _ _ (fun out' => zlen out' <= zlen out + 16)).
    + destruct (_ && _).
      * eapply runs_mono; [apply append_chars_runs|]. cbn. intros a. rewrite Hto. unfold AES_BLOCK_SIZE. lia.
      * cbn. rewrite zlen_app, Hto. unfold AES_BLOCK_SIZE. lia.
    + intros out' Hout. eapply runs_mono; [apply IH|cbn; intros a; lia]; unfold AES_BLOCK_SIZE in *; try lia; done.
Qed.

Lemma AESDecrypt_runs `{!OpenSSLLaws} stack aes inbuf :
  zlen stack = AES_BLOCK_SIZE ->
  runs (AESDecrypt stack aes inbuf []) (fun r => zlen (snd r) <= zlen inbuf).
Proof.
  intros Hst. unfold AESDecrypt. destruct inbuf as [|b s]; [done|].
  destruct (Z.eqb_spec (zlen (b :: s) mod AES_BLOCK_SIZE) 1) as [E|E]; cbn [negb].
  2:{ cbn [runs snd]. change (0 <= zlen (b :: s)). apply zlen_nonneg. }
  unfold AES_BLOCK_SIZE in E.
  pose proof (Z.div_mod (zlen (b :: s)) 16 ltac:(lia)) as Ed. rewrite E in Ed.
  pose proof (zlen_nonneg s). rewrite zlen_cons in *.
  assert (Hq : 0 <= (1 + zlen s) / 16) by (apply Z.div_pos; lia).
  eapply runs_bind.
  - apply (aes_decrypt_loop_runs (Z.to_nat ((1 + zlen s) / 16))); [|lia| |done].
    + rewrite zlen_cons. lia.
    + unfold zlen in *. cbn [length]. lia.
  - intros a Ha. cbn [runs snd]. cbv beta in Ha. change (zlen []) with 0 in Ha. lia.
Qed.

Lemma rsa_encrypt_loop_runs fuel key inbuf offset out :
  0 <= offset -> zlen inbuf - offset < Z.of_nat fuel ->
  0 < Z.of_nat fuel -> runs (rsa_encrypt_loop fuel key inbuf offset out) (fun _ => True).
Proof.
  revert offset out. induction fuel as [|fuel IH]; intros offset out Ho Hf Hp; [lia|].
  cbn [rsa_encrypt_loop]. destruct (Z.leb_spec (zlen inbuf) offset); [done|].
  unfold copy. destruct (RSA_public_encrypt key _); [|done].
  set (n := zlen (take (Z.to_nat kBytes) (drop (Z.to_nat offset) inbuf))).
  assert (1 <= n) by (subst n; unfold kBytes; len_lia). apply IH; lia.
Qed.

Lemma RSAPublicEncrypt_runs rsa inbuf : runs (RSAPublicEncrypt rsa inbuf []) (fun _ => True).
Proof.
  unfold RSAPublicEncrypt. destruct (_publicKey rsa); [|done].
  apply rsa_encrypt_loop_runs; [done|unfold zlen; lia|lia].
Qed.

(** ** The length byte is not checked

    A peer that knows the key chooses it: a value above the block size reads
    behind the array, a negative one is an exception. *)
Lemma aes_decrypt_length_byte `{!OpenSSLLaws} aes stack b block :
  zlen block = AES_BLOCK_SIZE -> zlen stack = AES_BLOCK_SIZE ->
  16 < c2z b \/ c2z b < 0 ->
  AESDecrypt stack aes (b :: block) [] = Err (if c2z b <? 0 then Thrown else Undefined).
Proof.
  intros Hb Hst Hc. unfold AESDecrypt. rewrite zlen_cons, Hb. cbn [negb Z.eqb Pos.eqb Z.add].
  change ((1 + AES_BLOCK_SIZE) mod AES_BLOCK_SIZE) with 1. cbn [Z.eqb Pos.eqb negb].
  change (b :: block) with ([b] ++ block). cbn [length app aes_decrypt_loop].
  rewrite zlen_cons, Hb. cbn [Z.leb Z.compare Pos.compare Pos.compare_cont Z.add Pos.add].
  pose proof (copy_block [b] block [] stack AES_BLOCK_SIZE Hb Hst) as E.
  rewrite app_nil_r in E. change (zlen [b]) with 1 in E. cbn [app] in E. rewrite E.
  rewrite (proj2 (Z.eqb_neq _ _)) by lia.
  change (1 + AES_BLOCK_SIZE <=? 1) with false. change (1 + AES_BLOCK_SIZE <=? 1 + AES_BLOCK_SIZE) with true.
  cbn [negb andb]. unfold append_chars.
  pose proof (aes_block (_decryptkey aes) block Hb) as Hl. rewrite Hl.
  destruct (Z.ltb_spec (c2z b) 0); [done|].
  by rewrite (proj2 (Z.ltb_lt _ _)) by (unfold AES_BLOCK_SIZE; lia).
Qed.

End loops.
