(* ===== verification/Messages.v ===== *)
(** * The messages of the protocol (src/yymm_svr/jsonprotocol.h)

    One record per class of message, with what its two [Serialize] methods do:
    [X_member] is the body of the loop that reads a JSON object, [X_text] the
    method that prints one.  A member the constructor leaves without a value is
    [None] until one is read, and printing it is undefined. *)

From S2P Require Import Prelude Json Ssl.

Definition YY_JSON_COMPRESS_RSA : Z := 1000.
Definition YY_JSON_COMPRESS_AES : Z := 1001.
Definition YY_JSON_LOGIN : Z := 1011.
Definition YY_JSON_LOGIN_RES : Z := 1012.
Definition YY_JSON_LOGIN1 : Z := 1013.
Definition YY_JSON_LOGIN1_RES : Z := 1014.
Definition YY_JSON_LOGOUT : Z := 1015.
Definition YY_JSON_LOGOUT_RES : Z := 1016.
Definition YY_JSON_OPENURL : Z := 1020.
Definition YY_JSON_OPENURL_RES : Z := 1021.
Definition YY_JSON_MMS_OPENURL : Z := 2000.
Definition YY_JSON_MMS_STOPPLAY : Z := 2002.
Definition YY_JSON_MMS_STOPPLAY_RES : Z := 2003.
Definition YY_JSON_MMS_EXIT : Z := 2004.
Definition YY_JSON_SVR_INIT : Z := 3000.

(** ** Reading and printing objects *)

Definition is_key (key : list byte) (a : list byte) (val : json) (t : json_type) : bool :=
  bool_decide (until_nul key = a) && bool_decide (json_object_get_type val = t).

(** [json_object_object_foreach]; the loop is left by [return false]. *)
Fixpoint foreach {M} (body : M -> list byte -> json -> result (bool * M))
    (ms : list (list byte * json)) (m : M) : result (bool * M) :=
  match ms with
  | [] => Ok (true, m)
  | (key, val) :: ms =>
      '(go, m) ← body m key val;
      if (go : bool) then foreach body ms m else Ok (false, m)
  end.

Definition read_object {M} (body : M -> list byte -> json -> result (bool * M))
    (obj : json) (m : M) : result (bool * M) :=
  ms ← json_object_get_object obj; foreach body ms m.

(** [json_object_get_int] assigned to an [unsigned int]. *)
Definition get_uint (val : json) : Z := u32 (json_object_get_int val).

(** ["{" + a + "," + b + ... + "}"] *)
Definition braces (fields : list (list byte)) : list byte :=
  [brace_open] ++ commas fields ++ [brace_close].

(** A member that must have a value to be printed. *)
Definition initialised (x : option Z) : result Z := of_option Undefined x.

Section messages.
  Context `{OpenSSL}.

(** ** [YYJson_Login] *)

Record YYJson_Login := Login {
  Login_yyID : Z;
  Login_token : list byte;
  Login_rsakey : list byte;
}.

Definition new_Login : YYJson_Login := Login 0 [] [].

Definition Login_member (m : YYJson_Login) (key : list byte) (val : json) :
    result (bool * YYJson_Login) :=
  if is_key key (bytes "yyID") val json_type_int then
    Ok (true, Login (get_uint val) (Login_token m) (Login_rsakey m))
  else if is_key key (bytes "token") val json_type_string then
    Ok (true, Login (Login_yyID m) (json_object_get_string val) (Login_rsakey m))
  else if is_key key (bytes "rsa") val json_type_string then
    '(ok, rsakey) ← base64decode (json_object_get_string val);
    Ok (ok, Login (Login_yyID m) (Login_token m) rsakey)
  else Ok (true, m).

Definition Login_text (m : YYJson_Login) : result (bool * list byte) :=
  '(ok, rsaStr) ← base64encode (Login_rsakey m);
  if negb ok then Ok (false, []) else
  Ok (true, braces [toCmd_u (bytes "yyID") (Login_yyID m);
                    toCmd_s (bytes "token") (Login_token m);
                    toCmd_s (bytes "rsa") rsaStr]).

(** ** [YYJson_Login_res] *)

Record YYJson_Login_res := LoginRes {
  bTokenSucc : bool;
  aeskey : list byte;
}.

Definition new_LoginRes : YYJson_Login_res := LoginRes false [].

Definition LoginRes_member (m : YYJson_Login_res) (key : list byte) (val : json) :
    result (bool * YYJson_Login_res) :=
  if is_key key (bytes "bSucc") val json_type_boolean then
    Ok (true, LoginRes (json_object_get_boolean val) (aeskey m))
  else if is_key key (bytes "key") val json_type_string then
    '(ok, aeskey) ← base64decode (json_object_get_string val);
    Ok (ok, LoginRes (bTokenSucc m) aeskey)
  else Ok (true, m).

Definition LoginRes_text (m : YYJson_Login_res) : result (bool * list byte) :=
  '(ok, aesStr) ← base64encode (aeskey m);
  if negb ok then Ok (false, []) else
  Ok (true, braces [toCmd_b (bytes "bSucc") (bTokenSucc m); toCmd_s (bytes "key") aesStr]).

(** ** [YYJson_Login1] *)

Record YYJson_Login1 := Login1 {
  Login1_uid : Z;
  Login1_user : list byte;
  Login1_pwd : list byte;
}.

Definition new_Login1 : YYJson_Login1 := Login1 0 [] [].

Definition Login1_member (m : YYJson_Login1) (key : list byte) (val : json) :
    result (bool * YYJson_Login1) :=
  if is_key key (bytes "uid") val json_type_int then
    Ok (true, Login1 (get_uint val) (Login1_user m) (Login1_pwd m))
  else if is_key key (bytes "user") val json_type_string then
    Ok (true, Login1 (Login1_uid m) (json_object_get_string val) (Login1_pwd m))
  else if is_key key (bytes "pwd") val json_type_string then
    Ok (true, Login1 (Login1_uid m) (Login1_user m) (json_object_get_string val))
  else Ok (true, m).

Definition Login1_text (m : YYJson_Login1) : result (bool * list byte) :=
  Ok (true, braces [toCmd_s (bytes "user") (Login1_user m);
                    toCmd_u (bytes "uid") (Login1_uid m);
                    toCmd_s (bytes "pwd") (Login1_pwd m)]).

(** ** [YYJson_Login1_res] *)

Record YYJson_Login1_res := Login1Res { Login1Res_bSucc : bool }.

Definition new_Login1Res : YYJson_Login1_res := Login1Res false.

Definition Login1Res_member (m : YYJson_Login1_res) (key : list byte) (val : json) :
    result (bool * YYJson_Login1_res) :=
  if is_key key (bytes "bSucc") val json_type_boolean then
    Ok (true, Login1Res (json_object_get_boolean val))
  else Ok (true, m).

Definition Login1Res_text (m : YYJson_Login1_res) : result (bool * list byte) :=
  Ok (true, braces [toCmd_b (bytes "bSucc") (Login1Res_bSucc m)]).

(** ** [YYJson_Logout], and [YYJson_Logout_res] that inherits from it *)

Record YYJson_Logout := Logout { Logout_yyID : option Z }.

Definition new_Logout : YYJson_Logout := Logout None.

Definition Logout_member (m : YYJson_Logout) (key : list byte) (val : json) :
    result (bool * YYJson_Logout) :=
  if is_key key (bytes "yyID") val json_type_int then Ok (true, Logout (Some (get_uint val)))
  else Ok (true, m).

Definition Logout_text (m : YYJson_Logout) : result (bool * list byte) :=
  yyID ← initialised (Logout_yyID m);
  Ok (true, braces [toCmd_u (bytes "yyID") yyID]).

(** ** [YYJson_OpenUrl] *)

Record YYJson_OpenUrl := OpenUrl {
  OpenUrl_channelID : option Z;
  OpenUrl_subChannelID : option Z;
  OpenUrl_url : list byte;
}.

Definition new_OpenUrl : YYJson_OpenUrl := OpenUrl None None [].

Definition OpenUrl_member (m : YYJson_OpenUrl) (key : list byte) (val : json) :
    result (bool * YYJson_OpenUrl) :=
  if is_key key (bytes "channelID") val json_type_int then
    Ok (true, OpenUrl (Some (get_uint val)) (OpenUrl_subChannelID m) (OpenUrl_url m))
  else if is_key key (bytes "subChannelID") val json_type_int then
    Ok (true, OpenUrl (OpenUrl_channelID m) (Some (get_uint val)) (OpenUrl_url m))
  else if is_key key (bytes "url") val json_type_string then
    Ok (true, OpenUrl (OpenUrl_channelID m) (OpenUrl_subChannelID m) (json_object_get_string val))
  else Ok (true, m).

Definition OpenUrl_text (m : YYJson_OpenUrl) : result (bool * list byte) :=
  channelID ← initialised (OpenUrl_channelID m);
  subChannelID ← initialised (OpenUrl_subChannelID m);
  Ok (true, braces [toCmd_s (bytes "url") (OpenUrl_url m);
                    toCmd_u (bytes "channelID") channelID;
                    toCmd_u (bytes "subChannelID") subChannelID]).

(** ** [YYJson_OpenUrl_res] *)

Record YYJson_OpenUrl_res := OpenUrlRes {
  OpenUrlRes_bSucc : bool;
  OpenUrlRes_url : list byte;
}.

Definition new_OpenUrlRes : YYJson_OpenUrl_res := OpenUrlRes false [].

Definition OpenUrlRes_member (m : YYJson_OpenUrl_res) (key : list byte) (val : json) :
    result (bool * YYJson_OpenUrl_res) :=
  if is_key key (bytes "bSucc") val json_type_boolean then
    Ok (true, OpenUrlRes (json_object_get_boolean val) (OpenUrlRes_url m))
  else if is_key key (bytes "url") val json_type_string then
    Ok (true, OpenUrlRes (OpenUrlRes_bSucc m) (json_object_get_string val))
  else Ok (true, m).

Definition OpenUrlRes_text (m : YYJson_OpenUrl_res) : result (bool * list byte) :=
  Ok (true, braces [toCmd_b (bytes "bSucc") (OpenUrlRes_bSucc m);
                    toCmd_s (bytes "url") (OpenUrlRes_url m)]).

(** ** [YYJson_MMS_OpenUrl] *)

Record YYJson_MMS_OpenUrl := MmsOpenUrl {
  MmsOpenUrl_uid : Z;
  MmsOpenUrl_yyID : Z;
  MmsOpenUrl_channelID : Z;
  MmsOpenUrl_subChannelID : Z;
  MmsOpenUrl_url : list byte;
  MmsOpenUrl_user : list byte;
  MmsOpenUrl_tick : list byte;
}.

Definition new_MmsOpenUrl : YYJson_MMS_OpenUrl := MmsOpenUrl 0 0 0 0 [] [] [].

Definition MmsOpenUrl_member (m : YYJson_MMS_OpenUrl) (key : list byte) (val : json) :
    result (bool * YYJson_MMS_OpenUrl) :=
  let '(MmsOpenUrl uid yyID channelID subChannelID url user tick) := m in
  if is_key key (bytes "uid") val json_type_int then
    Ok (true, MmsOpenUrl (get_uint val) yyID channelID subChannelID url user tick)
  else if is_key key (bytes "yyID") val json_type_int then
    Ok (true, MmsOpenUrl uid (get_uint val) channelID subChannelID url user tick)
  else if is_key key (bytes "channelID") val json_type_int then
    Ok (true, MmsOpenUrl uid yyID (get_uint val) subChannelID url user tick)
  else if is_key key (bytes "subChannelID") val json_type_int then
    Ok (true, MmsOpenUrl uid yyID channelID (get_uint val) url user tick)
  else if is_key key (bytes "url") val json_type_string then
    Ok (true, MmsOpenUrl uid yyID channelID subChannelID (json_object_get_string val) user tick)
  else if is_key key (bytes "user") val json_type_string then
    Ok (true, MmsOpenUrl uid yyID channelID subChannelID url (json_object_get_string val) tick)
  else if is_key key (bytes "tick") val json_type_string then
    Ok (true, MmsOpenUrl uid yyID channelID subChannelID url user (json_object_get_string val))
  else Ok (true, m).

Definition MmsOpenUrl_text (m : YYJson_MMS_OpenUrl) : result (bool * list byte) :=
  Ok (true, braces [toCmd_u (bytes "uid") (MmsOpenUrl_uid m);
                    toCmd_u (bytes "yyID") (MmsOpenUrl_yyID m);
                    toCmd_s (bytes "user") (MmsOpenUrl_user m);
                    toCmd_s (bytes "tick") (MmsOpenUrl_tick m);
                    toCmd_u (bytes "channelID") (MmsOpenUrl_channelID m);
                    toCmd_u (bytes "subChannelID") (MmsOpenUrl_subChannelID m);
                    toCmd_s (bytes "url") (MmsOpenUrl_url m)]).

(** ** [YYJson_MMS_StopPlay], [YYJson_MMS_StopPlay_res] and [YYJson_MMS_Exit] *)

Record YYJson_MMS_StopPlay := StopPlay { StopPlay_yyID : Z }.

Definition new_StopPlay : YYJson_MMS_StopPlay := StopPlay 0.

Definition StopPlay_member (m : YYJson_MMS_StopPlay) (key : list byte) (val : json) :
    result (bool * YYJson_MMS_StopPlay) :=
  if is_key key (bytes "yyID") val json_type_int then Ok (true, StopPlay (get_uint val))
  else Ok (true, m).

Definition StopPlay_text (m : YYJson_MMS_StopPlay) : result (bool * list byte) :=
  Ok (true, braces [toCmd_u (bytes "yyID") (StopPlay_yyID m)]).

Record YYJson_MMS_StopPlay_res := StopPlayRes { StopPlayRes_yyID : Z }.

Definition new_StopPlayRes : YYJson_MMS_StopPlay_res := StopPlayRes 0.

Definition StopPlayRes_member (m : YYJson_MMS_StopPlay_res) (key : list byte) (val : json) :
    result (bool * YYJson_MMS_StopPlay_res) :=
  if is_key key (bytes "yyID") val json_type_int then Ok (true, StopPlayRes (get_uint val))
  else Ok (true, m).

Definition StopPlayRes_text (m : YYJson_MMS_StopPlay_res) : result (bool * list byte) :=
  Ok (true, braces [toCmd_u (bytes "yyID") (StopPlayRes_yyID m)]).

Record YYJson_MMS_Exit := MmsExit { MmsExit_yyID : Z }.

Definition new_MmsExit : YYJson_MMS_Exit := MmsExit 0.

Definition MmsExit_member (m : YYJson_MMS_Exit) (key : list byte) (val : json) :
    result (bool * YYJson_MMS_Exit) :=
  if is_key key (bytes "yyID") val json_type_int then Ok (true, MmsExit (get_uint val))
  else Ok (true, m).

Definition MmsExit_text (m : YYJson_MMS_Exit) : result (bool * list byte) :=
  Ok (true, braces [toCmd_u (bytes "yyID") (MmsExit_yyID m)]).

(** ** [YYJson_Svr_Init] *)

Record YYJson_Svr_Init := SvrInit {
  SvrInit_yyID : Z;
  SvrInit_bSucc : bool;
}.

Definition new_SvrInit : YYJson_Svr_Init := SvrInit 0 false.

Definition SvrInit_member (m : YYJson_Svr_Init) (key : list byte) (val : json) :
    result (bool * YYJson_Svr_Init) :=
  if is_key key (bytes "bSucc") val json_type_boolean then
    Ok (true, SvrInit (SvrInit_yyID m) (json_object_get_boolean val))
  else if is_key key (bytes "yyID") val json_type_int then
    Ok (true, SvrInit (get_uint val) (SvrInit_bSucc m))
  else Ok (true, m).

Definition SvrInit_text (m : YYJson_Svr_Init) : result (bool * list byte) :=
  Ok (true, braces [toCmd_b (bytes "bSucc") (SvrInit_bSucc m);
                    toCmd_u (bytes "yyID") (SvrInit_yyID m)]).

(** ** [YYJson_Comp_RSA] and [YYJson_Comp_AES]: a message in an envelope *)

Record YYJson_Comp_RSA := CompRSA {
  CompRSA_version : Z;
  CompRSA_serString : list byte;
}.

Definition new_CompRSA : YYJson_Comp_RSA := CompRSA 0 [].

Definition CompRSA_member (m : YYJson_Comp_RSA) (key : list byte) (val : json) :
    result (bool * YYJson_Comp_RSA) :=
  if is_key key (bytes "version") val json_type_int then
    Ok (true, CompRSA (json_object_get_int val) (CompRSA_serString m))
  else if is_key key (bytes "cmd") val json_type_string then
    Ok (true, CompRSA (CompRSA_version m) (json_object_get_string val))
  else Ok (true, m).

Definition CompRSA_text (m : YYJson_Comp_RSA) : result (bool * list byte) :=
  Ok (true, braces [toCmd (bytes "version") (CompRSA_version m);
                    toCmd_s (bytes "cmd") (CompRSA_serString m)]).

Record YYJson_Comp_AES := CompAES {
  CompAES_version : Z;
  CompAES_serString : list byte;
}.

Definition new_CompAES : YYJson_Comp_AES := CompAES 0 [].

Definition CompAES_member (m : YYJson_Comp_AES) (key : list byte) (val : json) :
    result (bool * YYJson_Comp_AES) :=
  if is_key key (bytes "version") val json_type_int then
    Ok (true, CompAES (json_object_get_int val) (CompAES_serString m))
  else if is_key key (bytes "cmd") val json_type_string then
    Ok (true, CompAES (CompAES_version m) (json_object_get_string val))
  else Ok (true, m).

Definition CompAES_text (m : YYJson_Comp_AES) : result (bool * list byte) :=
  Ok (true, braces [toCmd (bytes "version") (CompAES_version m);
                    toCmd_s (bytes "cmd") (CompAES_serString m)]).

(** ** [YYJ]: any message *)

Inductive YYJ :=
| Comp_RSA (m : YYJson_Comp_RSA)
| Comp_AES (m : YYJson_Comp_AES)
| Msg_Login (m : YYJson_Login)
| Msg_Login_res (m : YYJson_Login_res)
| Msg_Login1 (m : YYJson_Login1)
| Msg_Login1_res (m : YYJson_Login1_res)
| Msg_Logout (m : YYJson_Logout)
| Msg_Logout_res (m : YYJson_Logout)
| Msg_OpenUrl (m : YYJson_OpenUrl)
| Msg_OpenUrl_res (m : YYJson_OpenUrl_res)
| MMS_OpenUrl (m : YYJson_MMS_OpenUrl)
| MMS_StopPlay (m : YYJson_MMS_StopPlay)
| MMS_StopPlay_res (m : YYJson_MMS_StopPlay_res)
| MMS_Exit (m : YYJson_MMS_Exit)
| Svr_Init (m : YYJson_Svr_Init).

Definition _id (j : YYJ) : Z :=
  match j with
  | Comp_RSA _ => YY_JSON_COMPRESS_RSA
  | Comp_AES _ => YY_JSON_COMPRESS_AES
  | Msg_Login _ => YY_JSON_LOGIN
  | Msg_Login_res _ => YY_JSON_LOGIN_RES
  | Msg_Login1 _ => YY_JSON_LOGIN1
  | Msg_Login1_res _ => YY_JSON_LOGIN1_RES
  | Msg_Logout _ => YY_JSON_LOGOUT
  | Msg_Logout_res _ => YY_JSON_LOGOUT_RES
  | Msg_OpenUrl _ => YY_JSON_OPENURL
  | Msg_OpenUrl_res _ => YY_JSON_OPENURL_RES
  | MMS_OpenUrl _ => YY_JSON_MMS_OPENURL
  | MMS_StopPlay _ => YY_JSON_MMS_STOPPLAY
  | MMS_StopPlay_res _ => YY_JSON_MMS_STOPPLAY_RES
  | MMS_Exit _ => YY_JSON_MMS_EXIT
  | Svr_Init _ => YY_JSON_SVR_INIT
  end.

Definition wrap {M} (C : M -> YYJ) (r : result (bool * M)) : result (bool * YYJ) :=
  '(ok, m) ← r; Ok (ok, C m).

(** The virtual [Serialize] that reads a JSON object. *)
Definition Serialize (j : YYJ) (obj : json) : result (bool * YYJ) :=
  match j with
  | Comp_RSA m => wrap Comp_RSA (read_object CompRSA_member obj m)
  | Comp_AES m => wrap Comp_AES (read_object CompAES_member obj m)
  | Msg_Login m => wrap Msg_Login (read_object Login_member obj m)
  | Msg_Login_res m => wrap Msg_Login_res (read_object LoginRes_member obj m)
  | Msg_Login1 m => wrap Msg_Login1 (read_object Login1_member obj m)
  | Msg_Login1_res m => wrap Msg_Login1_res (read_object Login1Res_member obj m)
  | Msg_Logout m => wrap Msg_Logout (read_object Logout_member obj m)
  | Msg_Logout_res m => wrap Msg_Logout_res (read_object Logout_member obj m)
  | Msg_OpenUrl m => wrap Msg_OpenUrl (read_object OpenUrl_member obj m)
  | Msg_OpenUrl_res m => wrap Msg_OpenUrl_res (read_object OpenUrlRes_member obj m)
  | MMS_OpenUrl m => wrap MMS_OpenUrl (read_object MmsOpenUrl_member obj m)
  | MMS_StopPlay m => wrap MMS_StopPlay (read_object StopPlay_member obj m)
  | MMS_StopPlay_res m => wrap MMS_StopPlay_res (read_object StopPlayRes_member obj m)
  | MMS_Exit m => wrap MMS_Exit (read_object MmsExit_member obj m)
  | Svr_Init m => wrap Svr_Init (read_object SvrInit_member obj m)
  end.

(** The virtual [Serialize] that prints. *)
Definition Serialize_text (j : YYJ) : result (bool * list byte) :=
  match j with
  | Comp_RSA m => CompRSA_text m
  | Comp_AES m => CompAES_text m
  | Msg_Login m => Login_text m
  | Msg_Login_res m => LoginRes_text m
  | Msg_Login1 m => Login1_text m
  | Msg_Login1_res m => Login1Res_text m
  | Msg_Logout m => Logout_text m
  | Msg_Logout_res m => Logout_text m
  | Msg_OpenUrl m => OpenUrl_text m
  | Msg_OpenUrl_res m => OpenUrlRes_text m
  | MMS_OpenUrl m => MmsOpenUrl_text m
  | MMS_StopPlay m => StopPlay_text m
  | MMS_StopPlay_res m => StopPlayRes_text m
  | MMS_Exit m => MmsExit_text m
  | Svr_Init m => SvrInit_text m
  end.

(** [LookforMap]: the table of constructors, searched in order. *)
Definition fnMap : list (Z * option YYJ) := [
  (YY_JSON_COMPRESS_RSA, Some (Comp_RSA new_CompRSA));
  (YY_JSON_COMPRESS_AES, Some (Comp_AES new_CompAES));
  (YY_JSON_LOGIN, Some (Msg_Login new_Login));
  (YY_JSON_LOGIN_RES, Some (Msg_Login_res new_LoginRes));
  (YY_JSON_LOGIN1, Some (Msg_Login1 new_Login1));
  (YY_JSON_LOGIN1_RES, Some (Msg_Login1_res new_Login1Res));
  (YY_JSON_LOGOUT, Some (Msg_Logout new_Logout));
  (YY_JSON_LOGOUT_RES, Some (Msg_Logout_res new_Logout));
  (YY_JSON_OPENURL, Some (Msg_OpenUrl new_OpenUrl));
  (YY_JSON_OPENURL_RES, Some (Msg_OpenUrl_res new_OpenUrlRes));
  (YY_JSON_MMS_OPENURL, Some (MMS_OpenUrl new_MmsOpenUrl));
  (YY_JSON_MMS_STOPPLAY, Some (MMS_StopPlay new_StopPlay));
  (YY_JSON_MMS_STOPPLAY_RES, Some (MMS_StopPlay_res new_StopPlayRes));
  (YY_JSON_MMS_EXIT, Some (MMS_Exit new_MmsExit));
  (YY_JSON_SVR_INIT, Some (Svr_Init new_SvrInit));
  (0, None)].

Fixpoint look_for (map : list (Z * option YYJ)) (id : Z) : option YYJ :=
  match map with
  | [] => None
  | (i, Some j) :: map => if i =? id then Some j else look_for map id
  | (_, None) :: map => look_for map id
  end.

Definition LookforMap (id : Z) : option YYJ := look_for fnMap id.

End messages.
