(* ===== verification/Protocol.v ===== *)
(** * Frames (class [YYmmsJson] of src/yymm_svr/jsonprotocol.h)

    A frame is the byte 23, the length of the frame as a little-endian [WORD],
    and the text of a JSON object with the members ["cmd"], the number of the
    message, and ["obj"], its contents. *)

From S2P Require Import Prelude Json Ssl FastBuffer Messages.

Inductive YYMMSJSON_ERROR :=
| YYMMSJSON_ERROR_SUCCESS
| YYMMSJSON_ERROR_BUFSIZE
| YYMMSJSON_ERROR_ESC
| YYMMSJSON_ERROR_JSON
| YYMMSJSON_ERROR_UNKNOWED.

#[global] Instance YYMMSJSON_ERROR_eq_dec : EqDecision YYMMSJSON_ERROR.
Proof. solve_decision. Defined.

(** The character with the octal code 27. *)
Definition PRE_CHAR : byte := x17.

(** A [WORD] in memory. *)
Definition word_bytes (w : Z) : list byte := [z2b (w mod 256); z2b (w / 256)].

Section protocol.
  Context `{JsonC} `{OpenSSL}.

(** [ParseCmd] reads at the pointer [cmd]; it gives the error, the new value of
    [offset] and the message, if there is one. *)
Definition ParseCmd (cmd : cells) (len offset : Z) : result (YYMMSJSON_ERROR * Z * option YYJ) :=
  if len <? 3 then Ok (YYMMSJSON_ERROR_BUFSIZE, offset, None) else
  b ← peek cmd 0;
  if bool_decide (b <> PRE_CHAR) then Ok (YYMMSJSON_ERROR_ESC, offset, None) else
  b1 ← peek cmd 1;
  b2 ← peek cmd 2;
  let jsize := b2z b1 + 256 * b2z b2 in
  if len <? jsize then Ok (YYMMSJSON_ERROR_BUFSIZE, offset, None) else
  if jsize - 3 <? 0 then Err Thrown else
  js ← load (Z.to_nat (jsize - 3)) (drop 3 cmd);
  let '(err, jobj) := Parse js in
  if bool_decide (err <> json_tokener_success) then Ok (YYMMSJSON_ERROR_JSON, offset, None) else
  let c := json_object_object_get jobj (bytes "cmd") in
  let obj := json_object_object_get jobj (bytes "obj") in
  if bool_decide (json_object_get_type c = json_type_null) ||
     bool_decide (json_object_get_type obj = json_type_null) ||
     bool_decide (json_object_get_type c <> json_type_int)
  then Ok (YYMMSJSON_ERROR_JSON, offset, None) else
  match LookforMap (json_object_get_int c) with
  | None => Ok (YYMMSJSON_ERROR_UNKNOWED, offset, None)
  | Some j =>
      '(ok, j) ← Serialize j obj;
      if (ok : bool) then
        offset ← chk32 (offset + jsize);
        Ok (YYMMSJSON_ERROR_SUCCESS, offset, Some j)
      else Ok (YYMMSJSON_ERROR_UNKNOWED, offset, None)
  end.

(** [FormatCmd] appends the frame of a message to the string [cmd]. *)
Definition FormatCmd (obj : option YYJ) (cmd : list byte) : result (bool * list byte) :=
  match obj with
  | None => Ok (false, cmd)
  | Some j =>
      '(ok, str) ← Serialize_text j;
      if negb ok then Ok (false, cmd) else
      let cmdstr := braces [toCmd (bytes "cmd") (_id j);
                            [quote] ++ bytes "obj" ++ [quote; colon] ++ str] in
      let len := u16 (zlen cmdstr + 3) in
      Ok (true, cmd ++ [PRE_CHAR] ++ word_bytes len ++ cmdstr)
  end.

(** ** Envelopes *)

Definition CompRSA_Format (self : YYJson_Comp_RSA) (jobj : option YYJ) (rsa : YYRSA) :
    result (bool * YYJson_Comp_RSA) :=
  match jobj with
  | None => Ok (false, self)
  | Some _ =>
      '(ok, compstr) ← FormatCmd jobj [];
      if negb ok then Ok (false, self) else
      '(ok, encryStr) ← RSAPublicEncrypt rsa compstr [];
      if negb ok then Ok (false, self) else
      '(ok, serString) ← base64encode encryStr;
      Ok (ok, CompRSA (CompRSA_version self) serString)
  end.

(** What both envelopes do with the decrypted text. *)
Definition parse_inner (decryStr : list byte) : result (bool * option YYJ) :=
  '(err, _, jobj) ← ParseCmd (Some <$> cstr decryStr) (zlen decryStr) 0;
  Ok (bool_decide (err = YYMMSJSON_ERROR_SUCCESS), jobj).

Definition CompRSA_UnFormat (stack : list byte) (self : YYJson_Comp_RSA) (rsa : YYRSA) :
    result (bool * option YYJ) :=
  if is_empty (CompRSA_serString self) then Ok (false, None) else
  '(ok, out) ← base64decode (CompRSA_serString self);
  if negb ok then Ok (false, None) else
  '(ok, decryStr) ← RSAPrivateDecrypt stack rsa out [];
  if negb ok then Ok (false, None) else parse_inner decryStr.

Definition CompAES_Format (stack : list byte) (self : YYJson_Comp_AES) (jobj : option YYJ)
    (aes : YYAES) : result (bool * YYJson_Comp_AES) :=
  match jobj with
  | None => Ok (false, self)
  | Some _ =>
      '(ok, compstr) ← FormatCmd jobj [];
      if negb ok then Ok (false, self) else
      '(ok, encryStr) ← AESEncrypt stack aes compstr [];
      if negb ok then Ok (false, self) else
      '(ok, serString) ← base64encode encryStr;
      Ok (ok, CompAES (CompAES_version self) serString)
  end.

Definition CompAES_UnFormat (stack : list byte) (self : YYJson_Comp_AES) (aes : YYAES) :
    result (bool * option YYJ) :=
  if is_empty (CompAES_serString self) then Ok (false, None) else
  '(ok, out) ← base64decode (CompAES_serString self);
  if negb ok then Ok (false, None) else
  '(ok, decryStr) ← AESDecrypt stack aes out [];
  if negb ok then Ok (false, None) else parse_inner decryStr.

End protocol.
