(* ===== verification/ProtocolSpec.v ===== *)
(** * What is formatted is parsed

    The text of a message is the text of a JSON object, which the reading
    method of its class turns back into the message: except that json-c clips
    every number to 2^31-1. *)

From S2P Require Import Prelude Digits Json Ssl SslSpec FastBuffer Messages Protocol.

(** ** Messages that can be sent *)

Definition uint (z : Z) : Prop := 0 <= z < 2 ^ 32.
Definition opt_uint (z : option Z) : Prop := exists n, z = Some n /\ uint n.
Definition text (s : list byte) : Prop := plain_text s = true.

Definition sendable (j : YYJ) : Prop :=
  match j with
  | Comp_RSA m => - 2 ^ 31 <= CompRSA_version m < 2 ^ 31 /\ text (CompRSA_serString m)
  | Comp_AES m => - 2 ^ 31 <= CompAES_version m < 2 ^ 31 /\ text (CompAES_serString m)
  | Msg_Login m => uint (Login_yyID m) /\ text (Login_token m) /\ zlen (Login_rsakey m) < 2 ^ 28
  | Msg_Login_res m => zlen (aeskey m) < 2 ^ 28
  | Msg_Login1 m => uint (Login1_uid m) /\ text (Login1_user m) /\ text (Login1_pwd m)
  | Msg_Login1_res _ => True
  | Msg_Logout m | Msg_Logout_res m => opt_uint (Logout_yyID m)
  | Msg_OpenUrl m =>
      opt_uint (OpenUrl_channelID m) /\ opt_uint (OpenUrl_subChannelID m) /\ text (OpenUrl_url m)
  | Msg_OpenUrl_res m => text (OpenUrlRes_url m)
  | MMS_OpenUrl m =>
      uint (MmsOpenUrl_uid m) /\ uint (MmsOpenUrl_yyID m) /\ uint (MmsOpenUrl_channelID m) /\
      uint (MmsOpenUrl_subChannelID m) /\ text (MmsOpenUrl_url m) /\ text (MmsOpenUrl_user m) /\
      text (MmsOpenUrl_tick m)
  | MMS_StopPlay m => uint (StopPlay_yyID m)
  | MMS_StopPlay_res m => uint (StopPlayRes_yyID m)
  | MMS_Exit m => uint (MmsExit_yyID m)
  | Svr_Init m => uint (SvrInit_yyID m)
  end.

(** What arrives: numbers clipped to the greatest [int]. *)
Definition clip (z : Z) : Z := Z.min z (2 ^ 31 - 1).

Definition clipped (j : YYJ) : YYJ :=
  match j with
  | Msg_Login m => Msg_Login (Login (clip (Login_yyID m)) (Login_token m) (Login_rsakey m))
  | Msg_Login1 m => Msg_Login1 (Login1 (clip (Login1_uid m)) (Login1_user m) (Login1_pwd m))
  | Msg_Logout m => Msg_Logout (Logout (clip <$> Logout_yyID m))
  | Msg_Logout_res m => Msg_Logout_res (Logout (clip <$> Logout_yyID m))
  | Msg_OpenUrl m =>
      Msg_OpenUrl (OpenUrl (clip <$> OpenUrl_channelID m) (clip <$> OpenUrl_subChannelID m)
                     (OpenUrl_url m))
  | MMS_OpenUrl m =>
      MMS_OpenUrl (MmsOpenUrl (clip (MmsOpenUrl_uid m)) (clip (MmsOpenUrl_yyID m))
        (clip (MmsOpenUrl_channelID m)) (clip (MmsOpenUrl_subChannelID m)) (MmsOpenUrl_url m)
        (MmsOpenUrl_user m) (MmsOpenUrl_tick m))
  | MMS_StopPlay m => MMS_StopPlay (StopPlay (clip (StopPlay_yyID m)))
  | MMS_StopPlay_res m => MMS_StopPlay_res (StopPlayRes (clip (StopPlayRes_yyID m)))
  | MMS_Exit m => MMS_Exit (MmsExit (clip (MmsExit_yyID m)))
  | Svr_Init m => Svr_Init (SvrInit (clip (SvrInit_yyID m)) (SvrInit_bSucc m))
  | _ => j
  end.

Lemma clip_small z : z < 2 ^ 31 -> clip z = z.
Proof. unfold clip. lia. Qed.

(** ** Members of the object a message is printed as

    [t] is the base64 text of the key, for the messages that carry one. *)

Definition members_of (t : list byte) (j : YYJ) : list (list byte * json) :=
  match j with
  | Comp_RSA m => [(bytes "version", JInt (CompRSA_version m)); (bytes "cmd", JString (CompRSA_serString m))]
  | Comp_AES m => [(bytes "version", JInt (CompAES_version m)); (bytes "cmd", JString (CompAES_serString m))]
  | Msg_Login m =>
      [(bytes "yyID", JInt (Login_yyID m)); (bytes "token", JString (Login_token m)); (bytes "rsa", JString t)]
  | Msg_Login_res m => [(bytes "bSucc", JBool (bTokenSucc m)); (bytes "key", JString t)]
  | Msg_Login1 m =>
      [(bytes "user", JString (Login1_user m)); (bytes "uid", JInt (Login1_uid m));
       (bytes "pwd", JString (Login1_pwd m))]
  | Msg_Login1_res m => [(bytes "bSucc", JBool (Login1Res_bSucc m))]
  | Msg_Logout m | Msg_Logout_res m => [(bytes "yyID", JInt (default 0 (Logout_yyID m)))]
  | Msg_OpenUrl m =>
      [(bytes "url", JString (OpenUrl_url m)); (bytes "channelID", JInt (default 0 (OpenUrl_channelID m)));
       (bytes "subChannelID", JInt (default 0 (OpenUrl_subChannelID m)))]
  | Msg_OpenUrl_res m => [(bytes "bSucc", JBool (OpenUrlRes_bSucc m)); (bytes "url", JString (OpenUrlRes_url m))]
  | MMS_OpenUrl m =>
      [(bytes "uid", JInt (MmsOpenUrl_uid m)); (bytes "yyID", JInt (MmsOpenUrl_yyID m));
       (bytes "user", JString (MmsOpenUrl_user m)); (bytes "tick", JString (MmsOpenUrl_tick m));
       (bytes "channelID", JInt (MmsOpenUrl_channelID m));
       (bytes "subChannelID", JInt (MmsOpenUrl_subChannelID m)); (bytes "url", JString (MmsOpenUrl_url m))]
  | MMS_StopPlay m => [(bytes "yyID", JInt (StopPlay_yyID m))]
  | MMS_StopPlay_res m => [(bytes "yyID", JInt (StopPlayRes_yyID m))]
  | MMS_Exit m => [(bytes "yyID", JInt (MmsExit_yyID m))]
  | Svr_Init m => [(bytes "bSucc", JBool (SvrInit_bSucc m)); (bytes "yyID", JInt (SvrInit_yyID m))]
  end.

(** The key a message carries. *)
Definition key_of (j : YYJ) : option (list byte) :=
  match j with
  | Msg_Login m => Some (Login_rsakey m)
  | Msg_Login_res m => Some (aeskey m)
  | _ => None
  end.

Lemma braces_text ms : braces (map member_text ms) = json_text (JObject ms).
Proof. reflexivity. Qed.

Lemma toCmd_s_member k s : toCmd_s k s = member_text (k, JString s).
Proof. reflexivity. Qed.
Lemma toCmd_member k i : toCmd k i = member_text (k, JInt i).
Proof. reflexivity. Qed.
Lemma toCmd_b_member k b : toCmd_b k b = member_text (k, JBool b).
Proof. reflexivity. Qed.
Lemma toCmd_u_member k i : uint i -> toCmd_u k i = member_text (k, JInt i).
Proof.
  intros [Hi _]. unfold toCmd_u, member_text, tos_u. cbn [fst snd json_text]. unfold tos, print_d.
  by rewrite (proj2 (Z.ltb_ge _ _)) by lia.
Qed.

Lemma get_uint_clip i : uint i -> get_uint (JInt i) = clip i.
Proof.
  unfold uint, clip. intros Hi. unfold get_uint. rewrite get_int_clip.
  rewrite Z.max_r by lia. apply u32_small. lia.
Qed.

Lemma get_int_same i : - 2 ^ 31 <= i < 2 ^ 31 -> json_object_get_int (JInt i) = i.
Proof. intros Hi. rewrite get_int_clip. lia. Qed.

Create Rewrite HintDb members.
#[export] Hint Rewrite toCmd_s_member toCmd_member toCmd_b_member : members.
#[export] Hint Rewrite toCmd_u_member get_uint_clip using done : members.
#[export] Hint Rewrite get_string_plain using done : members.
#[export] Hint Rewrite get_int_same using done : members.

(** Decides which branch reads a member with a known name. *)
Ltac keys :=
  repeat match goal with
  | |- context [is_key ?k ?a ?v ?t] =>
      let b := eval vm_compute in (is_key k a v t) in change (is_key k a v t) with b
  end.

Ltac open_sendable :=
  repeat match goal with
  | H : _ /\ _ |- _ => destruct H
  | H : opt_uint _ |- _ => let n := fresh "n" in destruct H as (n & H & ?)
  | m : YYJson_Login |- _ => destruct m
  | m : YYJson_Login_res |- _ => destruct m
  | m : YYJson_Login1 |- _ => destruct m
  | m : YYJson_Login1_res |- _ => destruct m
  | m : YYJson_Logout |- _ => destruct m
  | m : YYJson_OpenUrl |- _ => destruct m
  | m : YYJson_OpenUrl_res |- _ => destruct m
  | m : YYJson_MMS_OpenUrl |- _ => destruct m
  | m : YYJson_MMS_StopPlay |- _ => destruct m
  | m : YYJson_MMS_StopPlay_res |- _ => destruct m
  | m : YYJson_MMS_Exit |- _ => destruct m
  | m : YYJson_Svr_Init |- _ => destruct m
  | m : YYJson_Comp_RSA |- _ => destruct m
  | m : YYJson_Comp_AES |- _ => destruct m
  end.

Ltac unfold_text :=
  unfold Login_text, LoginRes_text, Login1_text, Login1Res_text, Logout_text, OpenUrl_text,
    OpenUrlRes_text, MmsOpenUrl_text, StopPlay_text, StopPlayRes_text, MmsExit_text, SvrInit_text,
    CompRSA_text, CompAES_text, initialised.

Ltac unfold_member :=
  unfold Login_member, LoginRes_member, Login1_member, Login1Res_member, Logout_member,
    OpenUrl_member, OpenUrlRes_member, MmsOpenUrl_member, StopPlay_member, StopPlayRes_member,
    MmsExit_member, SvrInit_member, CompRSA_member, CompAES_member.

Ltac fields :=
  cbn [Serialize_text Serialize members_of map key_of mbind result_bind negb of_option default
    from_option id read_object json_object_get_object foreach wrap clipped fmap option_fmap option_map
    Login_yyID Login_token Login_rsakey bTokenSucc aeskey Login1_uid Login1_user Login1_pwd
    Login1Res_bSucc Logout_yyID OpenUrl_channelID OpenUrl_subChannelID OpenUrl_url OpenUrlRes_bSucc
    OpenUrlRes_url MmsOpenUrl_uid MmsOpenUrl_yyID MmsOpenUrl_channelID MmsOpenUrl_subChannelID
    MmsOpenUrl_url MmsOpenUrl_user MmsOpenUrl_tick StopPlay_yyID StopPlayRes_yyID MmsExit_yyID
    SvrInit_yyID SvrInit_bSucc CompRSA_version CompRSA_serString CompAES_version CompAES_serString
    new_Login new_LoginRes new_Login1 new_Login1Res new_Logout new_OpenUrl new_OpenUrlRes
    new_MmsOpenUrl new_StopPlay new_StopPlayRes new_MmsExit new_SvrInit new_CompRSA new_CompAES] in *.

Section spec.
  Context `{JsonLaw} `{OpenSSLLaws}.

(** [t] is a text for the key of the message. *)
Definition key_text (j : YYJ) (t : list byte) : Prop :=
  match key_of j with
  | Some k => base64encode k = Ok (true, t) /\ (text t /\ ascii t) /\ base64decode t = Ok (true, k)
  | None => t = []
  end.

Lemma key_text_exists j : sendable j -> exists t, key_text j t.
Proof.
  unfold key_text. destruct j; cbn; intros Hj; try (by exists []).
  - destruct (base64_roundtrip (Login_rsakey m)) as (t & ? & ? & _ & ?); [tauto|]. by exists t.
  - destruct (base64_roundtrip (aeskey m)) as (t & ? & ? & _ & ?); [tauto|]. by exists t.
Qed.

Lemma text_members j t :
  sendable j -> key_text j t ->
  Serialize_text j = Ok (true, json_text (JObject (members_of t j))).
Proof.
  intros Hj Ht. rewrite <- braces_text. unfold key_text in Ht.
  destruct j; cbn [sendable] in Hj; open_sendable; fields; subst; unfold_text; fields;
    try match type of Ht with _ /\ _ => rewrite (proj1 Ht); fields end; by autorewrite with members.
Qed.

Lemma read_members j t :
  sendable j -> key_text j t ->
  exists j0, LookforMap (_id j) = Some j0 /\
    Serialize j0 (JObject (members_of t j)) = Ok (true, clipped j).
Proof.
  intros Hj Ht. unfold key_text in Ht. destruct j; cbn [sendable] in Hj; open_sendable;
    (eexists; split; [reflexivity|]); fields; subst; unfold_member; keys; fields;
    autorewrite with members; try done.
  all: destruct Ht as (_ & [Hp _] & Hd); rewrite (get_string_plain _ Hp), Hd; done.
Qed.

(** ** Frames *)

Definition frame (t : list byte) (j : YYJ) : json :=
  JObject [(bytes "cmd", JInt (_id j)); (bytes "obj", JObject (members_of t j))].

Definition frame_bytes (t : list byte) (j : YYJ) : list byte :=
  let js := json_text (frame t j) in [PRE_CHAR] ++ word_bytes (u16 (zlen js + 3)) ++ js.

Lemma plain_string d s : text s -> plain d (JString s) = true.
Proof. by destruct d. Qed.
Lemma plain_int d i : - 2 ^ 63 <= i < 2 ^ 63 -> plain d (JInt i) = true.
Proof.
  intros [Hl Hu]. assert (in_i64 i = true) by
    (unfold in_i64; by rewrite (proj2 (Z.leb_le _ _) Hl), (proj2 (Z.ltb_lt _ _) Hu)). by destruct d.
Qed.
Lemma plain_bool d b : plain d (JBool b) = true.
Proof. by destruct d. Qed.

Lemma plain_members d ms :
  Forall (fun kv => plain d (snd kv) = true) ms ->
  forallb plain_text (fst <$> ms) && bool_decide (NoDup (fst <$> ms)) = true ->
  plain (S d) (JObject ms) = true.
Proof.
  intros Hv [Hk Hn]%andb_true_iff. cbn [plain]. rewrite Hn, andb_true_r.
  rewrite forallb_forall. intros kv Hin. rewrite forallb_forall in Hk.
  rewrite (Hk (fst kv)) by (by apply (in_map fst)).
  by rewrite (proj1 (List.Forall_forall _ _) Hv kv Hin).
Qed.

Lemma members_plain d j t :
  sendable j -> key_text j t -> plain (S d) (JObject (members_of t j)) = true.
Proof.
  intros Hj Ht. unfold key_text in Ht.
  destruct j; cbn [sendable] in Hj; open_sendable; fields; subst;
    (apply plain_members; [|reflexivity]);
    repeat (apply List.Forall_cons || apply List.Forall_nil); cbn [snd];
    unfold uint in *; try (apply plain_string; tauto); try apply plain_bool; apply plain_int; cbn -[Z.pow]; lia.
Qed.

Lemma frame_plain j t :
  sendable j -> key_text j t -> plain max_depth (frame t j) = true.
Proof.
  intros Hj Ht. apply plain_members; [|reflexivity].
  repeat (apply List.Forall_cons || apply List.Forall_nil); cbn [snd].
  - apply plain_int. by destruct j.
  - by apply members_plain.
Qed.

Lemma FormatCmd_spec j t cmd :
  sendable j -> key_text j t -> FormatCmd (Some j) cmd = Ok (true, cmd ++ frame_bytes t j).
Proof.
  intros Hj Ht. unfold FormatCmd. rewrite (text_members j t Hj Ht). reflexivity.
Qed.

Lemma word_value w : 0 <= w < 2 ^ 16 ->
  exists b1 b2, word_bytes w = [b1; b2] /\ b2z b1 + 256 * b2z b2 = w.
Proof.
  intros Hw. eexists _, _; split; [reflexivity|].
  rewrite !b2z_z2b by (Z.to_euclidean_division_equations; lia).
  Z.to_euclidean_division_equations; lia.
Qed.

Lemma load_take n (v : list byte) (m : cells) :
  (n <= length v)%nat -> load n ((Some <$> v) ++ m) = Ok (take n v).
Proof.
  revert n. induction v as [|b v IH]; intros [|n] Hn; cbn in Hn; try lia; try done.
  change (load (S n) ((Some <$> b :: v) ++ m)) with (bs ← load n ((Some <$> v) ++ m); Ok (b :: bs)).
  by rewrite IH by lia.
Qed.

(** What [ParseCmd] does once the frame is there. *)
Definition parse_object (jobj : json) (n offset : Z) : result (YYMMSJSON_ERROR * Z * option YYJ) :=
  let c := json_object_object_get jobj (bytes "cmd") in
  let obj := json_object_object_get jobj (bytes "obj") in
  if bool_decide (json_object_get_type c = json_type_null) ||
     bool_decide (json_object_get_type obj = json_type_null) ||
     bool_decide (json_object_get_type c <> json_type_int)
  then Ok (YYMMSJSON_ERROR_JSON, offset, None) else
  match LookforMap (json_object_get_int c) with
  | None => Ok (YYMMSJSON_ERROR_UNKNOWED, offset, None)
  | Some j =>
      '(ok, j) ← Serialize j obj;
      if (ok : bool) then
        offset ← chk32 (offset + n); Ok (YYMMSJSON_ERROR_SUCCESS, offset, Some j)
      else Ok (YYMMSJSON_ERROR_UNKNOWED, offset, None)
  end.

Definition parse_text_of (js : list byte) (n offset : Z) : result (YYMMSJSON_ERROR * Z * option YYJ) :=
  let '(err, jobj) := Parse js in
  if bool_decide (err <> json_tokener_success) then Ok (YYMMSJSON_ERROR_JSON, offset, None)
  else parse_object jobj n offset.

Lemma ParseCmd_header b0 b1 b2 js m len offset :
  len = zlen (b0 :: b1 :: b2 :: js) ->
  ParseCmd ((Some <$> b0 :: b1 :: b2 :: js) ++ m) len offset =
    let n := b2z b1 + 256 * b2z b2 in
    if bool_decide (b0 <> PRE_CHAR) then Ok (YYMMSJSON_ERROR_ESC, offset, None)
    else if len <? n then Ok (YYMMSJSON_ERROR_BUFSIZE, offset, None)
    else if n <? 3 then Err Thrown
    else parse_text_of (take (Z.to_nat (n - 3)) js) n offset.
Proof.
  intros ->. unfold ParseCmd. rewrite (proj2 (Z.ltb_ge _ 3)) by len_lia.
  rewrite !peek_app_l by len_lia.
  change ((b0 :: b1 :: b2 :: js) !! Z.to_nat 0) with (Some b0).
  change ((b0 :: b1 :: b2 :: js) !! Z.to_nat 1) with (Some b1).
  change ((b0 :: b1 :: b2 :: js) !! Z.to_nat 2) with (Some b2). cbn [of_option mbind result_bind].
  change (drop 3 ((Some <$> b0 :: b1 :: b2 :: js) ++ m)) with ((Some <$> js) ++ m).
  destruct (bool_decide (b0 <> PRE_CHAR)); [done|]. cbv zeta.
  set (n := b2z b1 + 256 * b2z b2). destruct (Z.ltb_spec (zlen (b0 :: b1 :: b2 :: js)) n); [done|].
  destruct (Z.ltb_spec (n - 3) 0); destruct (Z.ltb_spec n 3); try lia; [done|].
  rewrite load_take by (rewrite !zlen_cons in *; len_lia). reflexivity.
Qed.

Lemma ParseCmd_short bs m len offset :
  len = zlen bs -> zlen bs < 3 -> ParseCmd ((Some <$> bs) ++ m) len offset = Ok (YYMMSJSON_ERROR_BUFSIZE, offset, None).
Proof. intros -> Hl. unfold ParseCmd. by rewrite (proj2 (Z.ltb_lt _ _) Hl). Qed.

(** Whatever the text, a message takes exactly the frame and an error nothing. *)
Lemma read_object_fault {M} (body : M -> list byte -> json -> result (bool * M)) obj m e :
  (forall m k v e, body m k v = Err e -> e = Undefined \/ e = Thrown) ->
  read_object body obj m = Err e -> e = Undefined \/ e = Thrown.
Proof.
  intros Hb. unfold read_object. destruct obj; cbn [json_object_get_object mbind result_bind];
    try (intros [= <-]; by left).
  revert m. induction members as [|[k v] ms IH]; intros m; cbn [foreach]; [done|].
  destruct (body m k v) as [[[] m']|e'] eqn:E; cbn [mbind result_bind]; [apply IH|done|].
  intros [= <-]. by eapply Hb.
Qed.

Lemma base64decode_fault s e : base64decode s = Err e -> e = Undefined \/ e = Thrown.
Proof.
  unfold base64decode. destruct (evp_decode s) as [u f].
  destruct (_ <? 0); [intros [= <-]; by right|].
  destruct (_ <? zlen (u ++ f)); [intros [= <-]; by left|done].
Qed.

Lemma Serialize_fault j obj e : Serialize j obj = Err e -> e = Undefined \/ e = Thrown.
Proof.
  intros E. destruct j; cbn [Serialize] in E; unfold wrap in E;
    match type of E with (?r ≫= _) = _ => destruct r as [[? ?]|e'] eqn:Er end;
    try discriminate E; injection E as <-; (eapply read_object_fault; [|exact Er]); clear Er;
    intros m' k v e Eb; revert Eb; unfold_member; repeat (destruct (is_key _ _ _ _); [try done|]); try done.
  all: try (destruct m'; repeat (destruct (is_key _ _ _ _); [done|]); done).
  all: destruct (base64decode _) as [[? ?]|ed] eqn:Eb; cbn; [done|]; intros [= <-];
    by eapply base64decode_fault.
Qed.

Lemma parse_text_outcome js n offset :
  match parse_text_of js n offset with
  | Ok (YYMMSJSON_ERROR_SUCCESS, offset', j) => offset' = offset + n /\ is_Some j
  | Ok (err, offset', j) =>
      (err = YYMMSJSON_ERROR_JSON \/ err = YYMMSJSON_ERROR_UNKNOWED) /\ offset' = offset /\ j = None
  | Err e => e = Undefined \/ e = Thrown
  end.
Proof.
  unfold parse_text_of, parse_object. destruct (Parse js) as [err jobj].
  destruct (bool_decide (err <> json_tokener_success)); [tauto|].
  cbv zeta. destruct (bool_decide _ || bool_decide _ || bool_decide _); [tauto|].
  destruct (LookforMap _) as [j|]; [|tauto].
  destruct (Serialize j _) as [[[] j']|e] eqn:Es; cbn [mbind result_bind]; [|tauto|by eapply Serialize_fault].
  unfold chk32. destruct (in_i32 _); cbn; [by split|by left].
Qed.

Lemma parse_frame j t offset n :
  sendable j -> key_text j t -> 0 <= n -> 0 <= offset -> offset + n < 2 ^ 31 ->
  parse_text_of (json_text (frame t j)) n offset =
    Ok (YYMMSJSON_ERROR_SUCCESS, offset + n, Some (clipped j)).
Proof.
  intros Hj Ht Hn Ho Hb. unfold parse_text_of. rewrite Parse_text by (by apply frame_plain).
  destruct (read_members j t Hj Ht) as (j0 & E & Er).
  rewrite bool_decide_eq_false_2 by (intros Hc; by apply Hc).
  assert (Hid : json_object_get_int (JInt (_id j)) = _id j) by by destruct j.
  change (parse_object (frame t j) n offset) with
    (match LookforMap (json_object_get_int (JInt (_id j))) with
     | None => Ok (YYMMSJSON_ERROR_UNKNOWED, offset, None)
     | Some j' =>
         '(ok, j') ← Serialize j' (JObject (members_of t j));
         if (ok : bool) then
           offset ← chk32 (offset + n); Ok (YYMMSJSON_ERROR_SUCCESS, offset, Some j')
         else Ok (YYMMSJSON_ERROR_UNKNOWED, offset, None)
     end).
  rewrite Hid, E, Er. cbn [mbind result_bind]. by rewrite chk32_ok by lia.
Qed.

Lemma ParseCmd_frame j t rest m offset :
  sendable j -> key_text j t -> zlen (frame_bytes t j) < 2 ^ 16 -> 0 <= offset < 2 ^ 30 ->
  ParseCmd ((Some <$> frame_bytes t j ++ rest) ++ m) (zlen (frame_bytes t j ++ rest)) offset =
    Ok (YYMMSJSON_ERROR_SUCCESS, offset + zlen (frame_bytes t j), Some (clipped j)).
Proof.
  intros Hj Ht Hl Ho. unfold frame_bytes in *. set (js := json_text (frame t j)) in *.
  pose proof (zlen_nonneg js).
  assert (Hw : zlen js + 3 < 2 ^ 16) by (rewrite !zlen_app in Hl; cbn in Hl; unfold zlen in *; cbn in *; lia).
  rewrite (wrapU_small 16) by lia.
  destruct (word_value (zlen js + 3)) as (b1 & b2 & -> & Eb); [lia|].
  cbn [app]. assert (El : zlen (PRE_CHAR :: b1 :: b2 :: js) = zlen js + 3) by (rewrite !zlen_cons; lia).
  rewrite (ParseCmd_header PRE_CHAR b1 b2 (js ++ rest)) by done. cbv zeta. rewrite Eb, El.
  rewrite bool_decide_eq_false_2 by (intros Hc; by apply Hc).
  rewrite (proj2 (Z.ltb_ge _ (zlen js + 3))), (proj2 (Z.ltb_ge _ 3)) by
    (rewrite ?zlen_cons, ?zlen_app; pose proof (zlen_nonneg rest); lia).
  replace (zlen js + 3 - 3) with (zlen js) by lia. rewrite to_nat_zlen, take_app_length.
  apply parse_frame; (done || lia).
Qed.

(** ** Envelopes *)

Definition is_envelope (j : YYJ) (s : list byte) : Prop :=
  j = Comp_RSA (CompRSA 0 s) \/ j = Comp_AES (CompAES 0 s).

Lemma envelope_frame_len j s : is_envelope j s -> zlen (frame_bytes [] j) = zlen s + 44.
Proof.
  intros Hj. assert (E : json_text (frame [] j) =
    ([brace_open] ++ toCmd (bytes "cmd") (_id j) ++ [comma; quote] ++ bytes "obj" ++
     [quote; colon; brace_open] ++ toCmd (bytes "version") 0 ++ [comma; quote] ++ bytes "cmd" ++
     [quote; colon; quote]) ++ s ++ [quote; brace_close; brace_close]).
  { destruct Hj as [-> | ->]; unfold frame, members_of;
      cbn [json_text map commas fst snd CompAES_version CompAES_serString CompRSA_version CompRSA_serString];
      unfold toCmd; by rewrite <- !app_assoc. }
  assert (E1 : zlen (toCmd (bytes "cmd") (_id j)) = 10) by (by destruct Hj as [-> | ->]).
  unfold frame_bytes. cbv zeta. rewrite E, !zlen_app, E1.
  change (zlen (toCmd (bytes "version") 0)) with 11. change (zlen (bytes "obj")) with 3.
  change (zlen (bytes "cmd")) with 3. change (zlen (word_bytes _)) with 2.
  change (zlen [PRE_CHAR]) with 1. change (zlen [brace_open]) with 1. change (zlen [comma; quote]) with 2.
  change (zlen [quote; colon; brace_open]) with 3. change (zlen [quote; colon; quote]) with 3.
  change (zlen [quote; brace_close; brace_close]) with 3. lia.
Qed.

Lemma parse_inner_frame j t :
  sendable j -> key_text j t -> zlen (frame_bytes t j) < 2 ^ 16 ->
  parse_inner (frame_bytes t j) = Ok (true, Some (clipped j)).
Proof.
  intros Hj Ht Hl. unfold parse_inner, cstr. rewrite fmap_app.
  pose proof (ParseCmd_frame j t [] (Some <$> [x00]) 0 Hj Ht Hl) as E. rewrite !app_nil_r in E.
  by rewrite E by lia.
Qed.

Lemma aes_envelope j t stack stack' self aes key :
  sendable j -> key_text j t -> zlen (frame_bytes t j) < 2 ^ 16 ->
  zlen stack = AES_BLOCK_SIZE -> zlen stack' = AES_BLOCK_SIZE ->
  exists c, CompAES_Format stack self (Some j) (AESSetKey aes (Some key)) = Ok (true, c) /\
    text (CompAES_serString c) /\ CompAES_version c = CompAES_version self /\
    zlen (CompAES_serString c) <= base64_max (zlen (frame_bytes t j) + 17) /\
    CompAES_UnFormat stack' c (AESSetKey aes (Some key)) = Ok (true, Some (clipped j)).
Proof.
  intros Hj Ht Hl Hst Hst'. unfold CompAES_Format. rewrite (FormatCmd_spec j t [] Hj Ht).
  cbn [mbind result_bind negb app].
  destruct (aes_roundtrip key aes stack stack' (frame_bytes t j) Hst Hst') as (e & -> & He & Hel & Hd).
  cbn [mbind result_bind negb].
  destruct (base64_roundtrip e) as (s & -> & [Hs _] & Hsl & Hs'); [lia|]. cbn [mbind result_bind].
  eexists; split; [done|]. split; [done|]. split; [done|].
  split; [eapply Z.le_trans; [exact Hsl|]; apply base64_max_mono; pose proof (zlen_nonneg e); lia|].
  unfold CompAES_UnFormat. cbn [CompAES_serString].
  pose proof (base64_nonempty e s Hs' He). destruct s; [done|]. cbn [is_empty].
  rewrite Hs'. cbn [mbind result_bind negb]. rewrite Hd. cbn [mbind result_bind negb].
  by apply parse_inner_frame.
Qed.

Lemma rsa_envelope j t stack self rsa rsa' pub priv :
  sendable j -> key_text j t -> zlen (frame_bytes t j) < 2 ^ 16 -> ascii (frame_bytes t j) ->
  key_pair pub priv -> _publicKey rsa = Some pub -> _privateKey rsa' = Some priv ->
  zlen stack = kBytes ->
  exists c, CompRSA_Format self (Some j) rsa = Ok (true, c) /\
    text (CompRSA_serString c) /\ CompRSA_version c = CompRSA_version self /\
    zlen (CompRSA_serString c) <= base64_max (zlen (frame_bytes t j) + 129) /\
    CompRSA_UnFormat stack c rsa' = Ok (true, Some (clipped j)).
Proof.
  intros Hj Ht Hl Ha Hk Hpub Hpriv Hst. unfold CompRSA_Format. rewrite (FormatCmd_spec j t [] Hj Ht).
  cbn [mbind result_bind negb app].
  destruct (rsa_roundtrip pub priv rsa rsa' stack (frame_bytes t j) Hk Hpub Hpriv Ha Hst)
    as (e & -> & He & Hel & Hd).
  cbn [mbind result_bind negb].
  destruct (base64_roundtrip e) as (s & -> & [Hs _] & Hsl & Hs'); [lia|]. cbn [mbind result_bind].
  eexists; split; [done|]. split; [done|]. split; [done|].
  split; [eapply Z.le_trans; [exact Hsl|]; apply base64_max_mono; pose proof (zlen_nonneg e); lia|].
  unfold CompRSA_UnFormat. cbn [CompRSA_serString].
  pose proof (base64_nonempty e s Hs' He). destruct s; [done|]. cbn [is_empty].
  rewrite Hs'. cbn [mbind result_bind negb]. rewrite Hd. cbn [mbind result_bind negb].
  by apply parse_inner_frame.
Qed.

End spec.
