(* ===== verification/SslReference.v ===== *)
(** * Primitives that satisfy the interface of OpenSSL

    The concrete [OpenSSL] at which the theorems about encryption are tried:
    base64 without line feeds, and ciphers that are permutations of the block
    and no more.  They are not a model of OpenSSL. *)

From S2P Require Import Prelude Json Ssl SslSpec.

(** ** Base64 *)

Definition alphabet : list byte :=
  bytes "ABCDEFGHIJKLMNOPQRSTUVWXYZabcdefghijklmnopqrstuvwxyz0123456789+/".
Definition pad : byte := x3d.

Definition sextet (n : Z) : byte := nth (Z.to_nat n) alphabet x00.

Fixpoint position (b : byte) (l : list byte) (i : Z) : Z :=
  match l with
  | [] => 64
  | c :: l => if bool_decide (b = c) then i else position b l (i + 1)
  end.

Definition unsextet (b : byte) : Z := position b alphabet 0.

Definition group3 (n : Z) : list byte :=
  [sextet (n / 262144); sextet (n / 4096 mod 64); sextet (n / 64 mod 64); sextet (n mod 64)].

Fixpoint encode64 (s : list byte) : list byte :=
  match s with
  | a :: b :: c :: s => group3 (65536 * b2z a + 256 * b2z b + b2z c) ++ encode64 s
  | [a; b] => take 3 (group3 (65536 * b2z a + 256 * b2z b)) ++ [pad]
  | [a] => take 2 (group3 (65536 * b2z a)) ++ [pad; pad]
  | [] => []
  end.

Definition bytes3 (n : Z) : list byte := [z2b (n / 65536); z2b (n / 256); z2b n].

Fixpoint decode64 (s : list byte) : list byte :=
  match s with
  | a :: b :: c :: d :: s =>
      if bool_decide (c = pad) then take 1 (bytes3 (262144 * unsextet a + 4096 * unsextet b))
      else if bool_decide (d = pad) then
        take 2 (bytes3 (262144 * unsextet a + 4096 * unsextet b + 64 * unsextet c))
      else bytes3 (262144 * unsextet a + 4096 * unsextet b + 64 * unsextet c + unsextet d) ++ decode64 s
  | _ => []
  end.

Lemma sextets_ok :
  forallb (fun n => let b := sextet (Z.of_nat n) in
    (unsextet b =? Z.of_nat n) && plain_byte b && negb (bool_decide (b = pad))) (seq 0 64) = true.
Proof. by vm_compute. Qed.

Lemma sextet_spec n : 0 <= n < 64 ->
  unsextet (sextet n) = n /\ plain_byte (sextet n) = true /\ sextet n <> pad.
Proof.
  intros Hn. pose proof (proj1 (forallb_forall _ _) sextets_ok (Z.to_nat n)) as H.
  cbv beta zeta in H. rewrite Z2Nat.id in H by lia.
  destruct (andb_prop _ _ (H ltac:(apply in_seq; lia))) as [[H1 H2]%andb_prop H3].
  apply Z.eqb_eq in H1. apply negb_true_iff, bool_decide_eq_false in H3. done.
Qed.

Lemma z2b_mod z z' : z mod 256 = z' mod 256 -> z2b z = z2b z'.
Proof. unfold z2b. by intros ->. Qed.

Lemma z2b_is z b : z mod 256 = b2z b mod 256 -> z2b z = b.
Proof. intros H. rewrite <- (z2b_b2z b). by apply z2b_mod. Qed.

Lemma bytes3_spec a b c :
  bytes3 (65536 * b2z a + 256 * b2z b + b2z c) = [a; b; c].
Proof.
  pose proof (b2z_range a). pose proof (b2z_range b). pose proof (b2z_range c).
  unfold bytes3. f_equal; [|f_equal; [|f_equal]]; apply z2b_is; Z.to_euclidean_division_equations; lia.
Qed.

Lemma group3_sum n :
  0 <= n < 16777216 ->
  262144 * (n / 262144) + 4096 * (n / 4096 mod 64) + 64 * (n / 64 mod 64) + n mod 64 = n.
Proof. intros. Z.to_euclidean_division_equations; lia. Qed.

(** Three bytes at a time. *)
Lemma list_ind3 (P : list byte -> Prop) :
  P [] -> (forall a, P [a]) -> (forall a b, P [a; b]) ->
  (forall a b c s, P s -> P (a :: b :: c :: s)) -> forall s, P s.
Proof.
  intros H0 H1 H2 H3. fix IH 1. intros [|a [|b [|c s]]]; [done|done|done|]. apply H3, IH.
Qed.

Lemma sextet_ranges n : 0 <= n < 16777216 ->
  0 <= n / 262144 < 64 /\ 0 <= n / 4096 mod 64 < 64 /\ 0 <= n / 64 mod 64 < 64 /\ 0 <= n mod 64 < 64.
Proof. intros. repeat split; Z.to_euclidean_division_equations; lia. Qed.

Lemma decode_encode s : decode64 (encode64 s) = s.
Proof.
  induction s as [|a|a b|a b c s IH] using list_ind3; [done|..].
  - pose proof (b2z_range a). set (n := 65536 * b2z a).
    assert (Hn : 0 <= n < 16777216) by lia. destruct (sextet_ranges n Hn) as (R1 & R2 & _ & _).
    unfold encode64, group3. cbn [take app decode64]. fold n.
    rewrite bool_decide_eq_true_2 by done.
    rewrite (proj1 (sextet_spec _ R1)), (proj1 (sextet_spec _ R2)).
    replace (262144 * _ + _) with (65536 * b2z a + 256 * b2z x00 + b2z x00);
      [by rewrite bytes3_spec|]. change (b2z x00) with 0.
    subst n. Z.to_euclidean_division_equations; lia.
  - pose proof (b2z_range a). pose proof (b2z_range b). set (n := 65536 * b2z a + 256 * b2z b).
    assert (Hn : 0 <= n < 16777216) by lia. destruct (sextet_ranges n Hn) as (R1 & R2 & R3 & _).
    unfold encode64, group3. cbn [take app decode64]. fold n.
    destruct (sextet_spec _ R3) as (E3 & _ & P3).
    rewrite bool_decide_eq_false_2, bool_decide_eq_true_2 by done.
    rewrite E3, (proj1 (sextet_spec _ R1)), (proj1 (sextet_spec _ R2)).
    replace (262144 * _ + _ + _) with (65536 * b2z a + 256 * b2z b + b2z x00);
      [by rewrite bytes3_spec|]. change (b2z x00) with 0.
    subst n. Z.to_euclidean_division_equations; lia.
  - pose proof (b2z_range a). pose proof (b2z_range b). pose proof (b2z_range c).
    set (n := 65536 * b2z a + 256 * b2z b + b2z c).
    assert (Hn : 0 <= n < 16777216) by lia. destruct (sextet_ranges n Hn) as (R1 & R2 & R3 & R4).
    destruct (sextet_spec _ R3) as (E3 & _ & P3). destruct (sextet_spec _ R4) as (E4 & _ & P4).
    change (encode64 (a :: b :: c :: s)) with (group3 n ++ encode64 s).
    unfold group3. cbn [app decode64]. rewrite !bool_decide_eq_false_2 by done.
    rewrite E3, E4, (proj1 (sextet_spec _ R1)), (proj1 (sextet_spec _ R2)), group3_sum by done.
    subst n. by rewrite bytes3_spec, IH.
Qed.

Lemma plain_text_cons b s : plain_text (b :: s) = plain_byte b && plain_text s.
Proof. reflexivity. Qed.

Lemma group3_plain n : 0 <= n < 16777216 -> plain_text (group3 n) = true.
Proof.
  intros Hn. destruct (sextet_ranges n Hn) as (R1 & R2 & R3 & R4).
  unfold group3. rewrite !plain_text_cons.
  rewrite (proj1 (proj2 (sextet_spec _ R1))), (proj1 (proj2 (sextet_spec _ R2))),
    (proj1 (proj2 (sextet_spec _ R3))), (proj1 (proj2 (sextet_spec _ R4))). done.
Qed.

Lemma plain_text_take n s : plain_text s = true -> plain_text (take n s) = true.
Proof.
  intros H. rewrite <- (take_drop n s), plain_text_app in H. by apply andb_true_iff in H as [H _].
Qed.

Lemma encode_plain s : plain_text (encode64 s) = true.
Proof.
  induction s as [|a|a b|a b c s IH] using list_ind3; [done|..].
  - pose proof (b2z_range a). unfold encode64.
    rewrite plain_text_app, plain_text_take; [done|]. apply group3_plain. lia.
  - pose proof (b2z_range a). pose proof (b2z_range b). unfold encode64.
    rewrite plain_text_app, plain_text_take; [done|]. apply group3_plain. lia.
  - pose proof (b2z_range a). pose proof (b2z_range b). pose proof (b2z_range c).
    cbn [encode64]. rewrite plain_text_app, group3_plain, IH by lia. done.
Qed.

Lemma encode_ascii s : ascii (encode64 s).
Proof.
  assert (Hs : forall n, b2z (sextet n) < 128).
  { intros n. unfold sextet.
    assert (Ha : Forall (fun b => b2z b < 128) alphabet) by (apply (bool_decide_unpack _); by vm_compute).
    destruct (nth_in_or_default (Z.to_nat n) alphabet x00) as [Hin| ->]; [|done].
    by apply (proj1 (List.Forall_forall _ _) Ha). }
  assert (Hp : b2z pad < 128) by done.
  induction s as [|a|a b|a b c s IH] using list_ind3; unfold ascii in *.
  - constructor.
  - unfold encode64, group3. cbn [take app]. repeat constructor; (done || apply Hs).
  - unfold encode64, group3. cbn [take app]. repeat constructor; (done || apply Hs).
  - cbn [encode64]. apply Forall_app. split; [|done]. unfold group3. repeat constructor; apply Hs.
Qed.

Lemma encode_len s : zlen (encode64 s) = 4 * ((zlen s + 2) / 3).
Proof.
  induction s as [|a|a b|a b c s IH] using list_ind3; [done|done|done|].
  cbn [encode64]. rewrite zlen_app, IH, !zlen_cons.
  change (zlen (group3 _)) with 4. pose proof (zlen_nonneg s).
  Z.to_euclidean_division_equations; lia.
Qed.

Lemma decode_len s : zlen (decode64 s) <= 3 * (zlen s / 4).
Proof.
  revert s. fix IH 1. intros [|a [|b [|c [|d s]]]]; [by vm_compute..|].
  cbn [decode64]. rewrite !zlen_cons. pose proof (zlen_nonneg s).
  assert (E : (1 + (1 + (1 + (1 + zlen s)))) / 4 = 1 + zlen s / 4) by (Z.to_euclidean_division_equations; lia).
  rewrite E. assert (0 <= zlen s / 4) by (apply Z.div_pos; lia).
  destruct (bool_decide (c = pad)); [change (1 <= 3 * (1 + zlen s / 4)); lia|].
  destruct (bool_decide (d = pad)); [change (2 <= 3 * (1 + zlen s / 4)); lia|].
  rewrite zlen_app. change (zlen (bytes3 _)) with 3. pose proof (IH s). lia.
Qed.

(** ** Ciphers

    A key of the block cipher adds its first byte to every byte of the block; a
    key pair of the other one reverses the block. *)

Definition shift_by (k : Z) (b : list byte) : list byte := (fun c => z2b (b2z c + k)) <$> b.

Definition first_byte (k : list byte) : Z := match k with b :: _ => b2z b | [] => 0 end.

Definition raw_encrypt (_ : Z) (b : list byte) : option (list byte) :=
  match b with
  | c :: _ => if (b2z c <? 128) && (zlen b =? kBytes) then Some (rev b) else None
  | [] => None
  end.

#[export] Instance reference_ssl : OpenSSL := {|
  RSA := Z;
  AES_KEY := Z;
  RSA_generate_key := fun seed => Some seed;
  RSA_check_key := fun _ => 1;
  RSAPublicKey_dup := id;
  RSAPrivateKey_dup := id;
  d2i_RSAPublicKey := fun s => Some (first_byte s);
  d2i_RSAPrivateKey := fun s => Some (first_byte s);
  i2d_RSAPublicKey := fun k => (1, [z2b k]);
  i2d_RSAPrivateKey := fun k => (1, [z2b k]);
  RSA_public_encrypt := raw_encrypt;
  RSA_private_decrypt := fun _ b => Some (rev b);
  AES_zero := 0;
  AES_set_encrypt_key := first_byte;
  AES_set_decrypt_key := fun k => - first_byte k;
  AES_encrypt := shift_by;
  AES_decrypt := shift_by;
  evp_encode := fun s => (encode64 s, []);
  evp_decode := fun s => (decode64 s, []);
|}.

Lemma shift_back k b : shift_by (- k) (shift_by k b) = b.
Proof.
  unfold shift_by. rewrite <- list_fmap_compose. rewrite <- (list_fmap_id b) at 2.
  apply list_fmap_ext. intros i c _. cbn. apply z2b_is.
  assert (E : forall z, b2z (z2b z) = z mod 256).
  { intros z. rewrite (z2b_mod z (z mod 256)) by (by rewrite Z.mod_mod).
    apply b2z_z2b, Z.mod_pos_bound. lia. }
  rewrite E, Zplus_mod_idemp_l. f_equal. lia.
Qed.

#[export] Instance reference_ssl_laws : OpenSSLLaws.
Proof.
  split; cbn -[shift_by].
  - intros key b Hb. rewrite shift_back. unfold shift_by. by rewrite zlen_fmap.
  - intros k b Hb. unfold shift_by. by rewrite zlen_fmap.
  - intros s u f [= <- <-]. rewrite !app_nil_r. apply decode_encode.
  - intros s. rewrite app_nil_r. split; [apply encode_plain|apply encode_ascii].
  - intros s. rewrite app_nil_r, encode_len. pose proof (zlen_nonneg s). unfold base64_max.
    destruct (Z.eqb_spec (zlen s mod 48) 0); Z.to_euclidean_division_equations; lia.
  - intros s. rewrite app_nil_r. apply decode_len.
Qed.

Lemma reference_key_pair (pub priv : Z) : key_pair pub priv.
Proof.
  split; cbn.
  - intros b c Hl Hc. rewrite (proj2 (Z.ltb_lt _ _) Hc), (proj2 (Z.eqb_eq _ _) Hl). by eexists.
  - intros [|c b] e Hl; cbn; [done|]. destruct (_ && _); [|done]. intros [= <-].
    change (rev b ++ [c]) with (rev (c :: b)). rewrite rev_involutive. split; [|done].
    unfold zlen in *. by rewrite length_rev.
Qed.
