(* ===== verification/ProtocolRun.v ===== *)
(** * The protocol end to end

    The properties of frames and envelopes, tried at concrete messages with the
    reference parser and the reference primitives. *)

From S2P Require Import Prelude Json JsonParser Ssl SslSpec SslReference FastBuffer.
From S2P Require Import Messages Protocol ProtocolSpec.

(** ** Frames *)

(** C16: Every message whose members have values, whose strings need no escapes
    and whose frame is shorter than 2^16 bytes is formatted, and parsing the
    frame, whatever follows it, gives the message back and moves the offset to
    the end of the frame; only numbers above 2^31-1 arrive as 2^31-1. *)
Theorem frame_roundtrip `{JsonLaw} `{OpenSSLLaws} (j : YYJ) :
  sendable j ->
  exists bs, (forall cmd, FormatCmd (Some j) cmd = Ok (true, cmd ++ bs)) /\
    (zlen bs < 2 ^ 16 -> forall rest offset, 0 <= offset < 2 ^ 30 ->
       ParseCmd (Some <$> bs ++ rest) (zlen (bs ++ rest)) offset =
         Ok (YYMMSJSON_ERROR_SUCCESS, offset + zlen bs, Some (clipped j))).
Proof.
  intros Hj. destruct (key_text_exists j Hj) as [t Ht]. exists (frame_bytes t j). split.
  - intros cmd. by apply FormatCmd_spec.
  - intros Hl rest offset Ho. pose proof (ParseCmd_frame j t rest [] offset Hj Ht Hl Ho) as E.
    by rewrite app_nil_r in E.
Qed.

Definition demo_login : YYJ := Msg_Login (Login 4000000000 (bytes "tok") [x01; xff; x80]).

Lemma frame_roundtrip_witness :
  sendable demo_login /\
  exists bs, (forall cmd, FormatCmd (Some demo_login) cmd = Ok (true, cmd ++ bs)) /\
    (zlen bs < 2 ^ 16 -> forall rest offset, 0 <= offset < 2 ^ 30 ->
       ParseCmd (Some <$> bs ++ rest) (zlen (bs ++ rest)) offset =
         Ok (YYMMSJSON_ERROR_SUCCESS, offset + zlen bs,
             Some (Msg_Login (Login 2147483647 (bytes "tok") [x01; xff; x80])))).
Proof.
  assert (Hj : sendable demo_login) by (repeat split; cbn; lia).
  split; [exact Hj|]. exact (frame_roundtrip demo_login Hj).
Defined.

(** C17: What [ParseCmd] does with any bytes, whatever lies behind them: it
    reads nothing but the bytes it was given, refuses short input, a wrong
    first byte and a length beyond the input; a length below 3 ends in an
    exception; otherwise it looks only at the frame, and consumes exactly the
    frame together with giving a message, or nothing. *)
Theorem parse_outcome `{JsonC} `{OpenSSL} (bs : list byte) (m : cells) (offset : Z) :
  let r := ParseCmd ((Some <$> bs) ++ m) (zlen bs) offset in
  match bs with
  | b0 :: b1 :: b2 :: js =>
      let n := b2z b1 + 256 * b2z b2 in
      if bool_decide (b0 <> PRE_CHAR) then r = Ok (YYMMSJSON_ERROR_ESC, offset, None)
      else if zlen bs <? n then r = Ok (YYMMSJSON_ERROR_BUFSIZE, offset, None)
      else if n <? 3 then r = Err Thrown
      else r = ParseCmd (Some <$> take (Z.to_nat n) bs) n offset /\
           match r with
           | Ok (YYMMSJSON_ERROR_SUCCESS, offset', j) => offset' = offset + n /\ is_Some j
           | Ok (err, offset', j) =>
               (err = YYMMSJSON_ERROR_JSON \/ err = YYMMSJSON_ERROR_UNKNOWED) /\
               offset' = offset /\ j = None
           | Err e => e = Undefined \/ e = Thrown
           end
  | _ => r = Ok (YYMMSJSON_ERROR_BUFSIZE, offset, None)
  end.
Proof.
  destruct bs as [|b0 [|b1 [|b2 js]]]; [apply ParseCmd_short; done..|].
  cbv zeta. rewrite ParseCmd_header by done. cbv zeta. set (n := b2z b1 + 256 * b2z b2).
  case_bool_decide as Hb; [done|]. destruct (Z.ltb_spec (zlen (b0 :: b1 :: b2 :: js)) n); [done|].
  destruct (Z.ltb_spec n 3); [done|]. split; [|apply parse_text_outcome].
  assert (Et : take (Z.to_nat n) (b0 :: b1 :: b2 :: js) = b0 :: b1 :: b2 :: take (Z.to_nat (n - 3)) js).
  { replace (Z.to_nat n) with (S (S (S (Z.to_nat (n - 3))))) by lia. done. }
  assert (El : n = zlen (b0 :: b1 :: b2 :: take (Z.to_nat (n - 3)) js)) by
    (rewrite <- Et, zlen_take by lia; done).
  pose proof (ParseCmd_header b0 b1 b2 _ [] n offset El) as E. rewrite app_nil_r in E.
  rewrite Et, E. cbv zeta. fold n. rewrite (bool_decide_eq_false_2 (b0 <> PRE_CHAR)) by (intros Hc; by apply Hc).
  rewrite (proj2 (Z.ltb_ge n n)), (proj2 (Z.ltb_ge n 3)) by lia.
  rewrite (take_ge (take _ js)); [done|]. rewrite length_take. lia.
Qed.

(** ** Envelopes *)

(** A message sent in an AES envelope arrives: the server's and the
    client's side of the envelope are inverse to each other through the frame of
    the envelope, for every key, whatever the arrays on the two stacks hold. *)
Theorem envelope_roundtrip `{JsonLaw} `{OpenSSLLaws} (j : YYJ) (bs key stack stack' : list byte)
    (aes aes' : YYAES) :
  sendable j -> FormatCmd (Some j) [] = Ok (true, bs) -> zlen bs <= 48000 ->
  zlen stack = AES_BLOCK_SIZE -> zlen stack' = AES_BLOCK_SIZE ->
  exists c sent,
    CompAES_Format stack new_CompAES (Some j) (AESSetKey aes (Some key)) = Ok (true, c) /\
    FormatCmd (Some (Comp_AES c)) [] = Ok (true, sent) /\
    ParseCmd (Some <$> sent) (zlen sent) 0 =
      Ok (YYMMSJSON_ERROR_SUCCESS, zlen sent, Some (Comp_AES c)) /\
    CompAES_UnFormat stack' c (AESSetKey aes' (Some key)) = Ok (true, Some (clipped j)).
Proof.
  intros Hj Hf Hl Hst Hst'. destruct (key_text_exists j Hj) as [t Ht].
  rewrite (FormatCmd_spec j t [] Hj Ht) in Hf. injection Hf as <-.
  destruct (aes_envelope j t stack stack' new_CompAES aes key Hj Ht) as (c & E1 & Hs & Hv & Hlen & E2);
    [lia|done|done|].
  destruct c as [version s]. cbn [CompAES_version CompAES_serString new_CompAES] in Hv, Hs, Hlen. subst version.
  assert (Hc : sendable (Comp_AES (CompAES 0 s))) by (split; [cbn; lia|done]).
  assert (Hk : key_text (Comp_AES (CompAES 0 s)) []) by done.
  exists (CompAES 0 s), (frame_bytes [] (Comp_AES (CompAES 0 s))).
  split; [done|]. split; [exact (FormatCmd_spec _ [] [] Hc Hk)|]. split; [|done].
  assert (Hb : zlen (frame_bytes [] (Comp_AES (CompAES 0 s))) < 2 ^ 16).
  { rewrite (envelope_frame_len _ s) by (by right). eapply Z.le_lt_trans; [apply Z.add_le_mono_r, Hlen|].
    unfold base64_max. destruct (Z.eqb_spec ((zlen (frame_bytes t j) + 17) mod 48) 0);
      Z.to_euclidean_division_equations; lia. }
  pose proof (ParseCmd_frame _ [] [] [] 0 Hc Hk Hb ltac:(lia)) as E.
  by rewrite !app_nil_r in E.
Qed.

Definition demo_openurl : YYJ := Msg_OpenUrl (OpenUrl (Some 7) (Some 8) (bytes "mms://a/b")).
Definition demo_key : list byte := bytes "0123456789abcdef0123456789abcdef".
Definition demo_stack : list byte := replicate 16 xcc.
Definition demo_stack' : list byte := replicate 16 x00.
Definition demo_frame : list byte :=
  match FormatCmd (Some demo_openurl) [] with Ok (_, bs) => bs | Err _ => [] end.

Lemma envelope_roundtrip_witness :
  exists c sent,
    CompAES_Format demo_stack new_CompAES (Some demo_openurl) (AESSetKey new_YYAES (Some demo_key)) =
      Ok (true, c) /\
    FormatCmd (Some (Comp_AES c)) [] = Ok (true, sent) /\
    ParseCmd (Some <$> sent) (zlen sent) 0 =
      Ok (YYMMSJSON_ERROR_SUCCESS, zlen sent, Some (Comp_AES c)) /\
    CompAES_UnFormat demo_stack' c (AESSetKey new_YYAES (Some demo_key)) =
      Ok (true, Some demo_openurl).
Proof.
  refine (envelope_roundtrip demo_openurl demo_frame demo_key demo_stack demo_stack' new_YYAES new_YYAES
    _ _ _ _ _).
  - cbn. repeat split; first [by eexists|idtac]; eexists; split; try reflexivity; split; lia.
  - by vm_compute.
  - by vm_compute.
  - done.
  - done.
Defined.

(** ** Where the protocol falls short *)

Definition frame_of (s : list byte) : list byte := [PRE_CHAR] ++ word_bytes (zlen s + 3) ++ s.
Definition obj_text (cmd : Z) (obj : list byte) : list byte :=
  braces [toCmd (bytes "cmd") cmd; [quote] ++ bytes "obj" ++ [quote; colon] ++ obj].

(** A member ["obj"] that is no object makes the server follow a null pointer. *)
Example parse_not_object :
  let bs := frame_of (obj_text YY_JSON_LOGIN (tos 5)) in
  ParseCmd (Some <$> bs) (zlen bs) 0 = Err Undefined.
Proof. by vm_compute. Qed.

(** A frame that says it has less than three bytes makes it throw. *)
Example parse_tiny_length :
  ParseCmd (Some <$> [PRE_CHAR; x02; x00]) 3 0 = Err Thrown.
Proof. by vm_compute. Qed.

(** A user name with quotes smuggles members into the message sent on. *)
Example parse_injection :
  let inject := bytes "u" ++ [quote; comma] ++ toCmd_u (bytes "yyID") 666 ++ [comma; quote] ++
                bytes "x" ++ [quote; colon; quote] in
  let j := MMS_OpenUrl (MmsOpenUrl 1 2 3 4 [] inject []) in
  match FormatCmd (Some j) [] with
  | Ok (true, bs) =>
      match ParseCmd (Some <$> bs) (zlen bs) 0 with
      | Ok (YYMMSJSON_ERROR_SUCCESS, _, Some (MMS_OpenUrl m)) => MmsOpenUrl_yyID m = 666
      | _ => False
      end
  | _ => False
  end.
Proof. by vm_compute. Qed.
