(* ===== verification/EventLoop.v ===== *)
(** * The event loop (src/event/yylibevent.cpp, src/event/event_msgqueue.h)

    [YYLibEvent] owns the connections: it reads what arrives into a buffer for
    its client, and writes what other threads hand it with [data_send] through a
    queue of buffers and a pair of sockets that wakes the loop up.  The handlers
    are called by libevent with the answers the kernel gives; what they do to
    sockets and events is recorded in [lp_effects].

    A connection is the entry of its descriptor in the map: the pointers the
    events carry are those entries, and die with them. *)

From S2P Require Import Prelude FastBuffer Queues.

Definition WRITE_EVENT_FLAG : Z := 1.

(** ** The interfaces of the loop: its client, and the other user of its queue *)

Class ILibEvent (S : Type) := {
  data_receive : S -> Z -> fastbuffer -> Z -> result (bool * S);
  fd_close : S -> Z -> result S;
}.

Class ILibQueueEvent (S : Type) := {
  other_queue_receive : S -> Z -> result S;
}.

(** Who is called for a flag: the loop itself, or the other user. *)
Inductive queue_event := This | Other.

(** ** The state *)

Record fd_state := FdState {
  writebuffer : fastbuffer;
  read_event : bool;
  write_event : bool;
  listen_port : Z;
}.

(** What the loop does: connections opened, bytes taken over for a connection
    or thrown away because there is none, bytes sent, sockets closed. *)
Inductive effect :=
| Opened (fd : Z)
| Queued (fd : Z) (bs : list byte)
| Dropped (fd : Z) (bs : list byte)
| Sent (fd : Z) (bs : list byte)
| ClosedSocket (fd : Z)
| Listening (port : Z).

Record YYLibEvent (S : Type) := Loop {
  lp_fds : hash_map Z (option fd_state);
  lp_callback : option S;
  lp_queueback : list (Z * option queue_event);
  lp_bufqueue : LockQueueMap Z (option fastbuffer);
  lp_msgfd : Z;
  lp_pipe : list byte;
  lp_effects : list effect;
}.
Arguments Loop {S} _ _ _ _ _ _ _.
Arguments lp_fds {S} _.
Arguments lp_callback {S} _.
Arguments lp_queueback {S} _.
Arguments lp_bufqueue {S} _.
Arguments lp_msgfd {S} _.
Arguments lp_pipe {S} _.
Arguments lp_effects {S} _.

(** Answers of the kernel. *)
Inductive recv_answer := Data (bs : list byte) | RecvAgain | RecvError | RecvClosed.
Inductive send_answer := SentAll | SentPart (n : Z) | SendAgain | SendError.

Section loop.
  Context {S : Type} `{ILibEvent S} `{ILibQueueEvent S}.
  Implicit Types (s : YYLibEvent S) (fd : Z).

Definition new_YYLibEvent : YYLibEvent S :=
  Loop (new_hash_map None) None [] (new_LockQueueMap None) 0 [] [].

Definition set_fds s fds : YYLibEvent S :=
  Loop fds (lp_callback s) (lp_queueback s) (lp_bufqueue s) (lp_msgfd s) (lp_pipe s) (lp_effects s).
Definition set_callback s c : YYLibEvent S :=
  Loop (lp_fds s) c (lp_queueback s) (lp_bufqueue s) (lp_msgfd s) (lp_pipe s) (lp_effects s).
Definition set_bufqueue s q : YYLibEvent S :=
  Loop (lp_fds s) (lp_callback s) (lp_queueback s) q (lp_msgfd s) (lp_pipe s) (lp_effects s).
Definition set_pipe s fd p : YYLibEvent S :=
  Loop (lp_fds s) (lp_callback s) (lp_queueback s) (lp_bufqueue s) fd p (lp_effects s).
Definition emit s e : YYLibEvent S :=
  Loop (lp_fds s) (lp_callback s) (lp_queueback s) (lp_bufqueue s) (lp_msgfd s) (lp_pipe s)
    (lp_effects s ++ [e]).

(** ** Connections *)

(** [alloc_fd_state]; [mem] says whether its three allocations succeed. *)
Definition alloc_fd_state (mem : bool) s fd (port : Z) : option (YYLibEvent S) :=
  if mem then
    Some (set_fds s (add_state (lp_fds s) fd (Some (FdState new_fastbuffer false false port))))
  else None.

Definition free_fd_state s fd : result (YYLibEvent S) :=
  s ← (match lp_callback s with
       | Some c => c ← fd_close c fd; Ok (set_callback s (Some c))
       | None => Ok s
       end);
  Ok (emit (set_fds s (del_state (lp_fds s) fd)) (ClosedSocket fd)).

Definition set_fd_state s fd (st : fd_state) : YYLibEvent S :=
  set_fds s (add_state (lp_fds s) fd (Some st)).

(** The loop of [do_read]: one answer of [recv] after the other, at most 1024
    bytes each. *)
Fixpoint read_loop (answers : list recv_answer) (readbuffer : option fastbuffer) s fd (port : Z) :
    result (YYLibEvent S) :=
  match answers with
  | [] => Err Blocked
  | RecvAgain :: _ =>
      match readbuffer, lp_callback s with
      | Some fb, Some c =>
          '(_, c) ← data_receive c fd fb port; Ok (set_callback s (Some c))
      | _, _ => Ok s
      end
  | (RecvError | RecvClosed) :: _ => free_fd_state s fd
  | Data bs :: answers =>
      if (zlen bs <=? 0) || (1024 <? zlen bs) then Err Undefined else
      fb ← put (default new_fastbuffer readbuffer) bs;
      read_loop answers (Some fb) s fd port
  end.

Definition do_read s fd (answers : list recv_answer) : result (YYLibEvent S) :=
  match get_state (lp_fds s) fd with
  | None => Ok s
  | Some st => read_loop answers None s fd (listen_port st)
  end.

(** The bytes [send] takes from a buffer. *)
Definition sent_bytes (fb : fastbuffer) (n : Z) : result (list byte) :=
  bs ← contents fb; Ok (take (Z.to_nat n) bs).

Definition do_write s fd (answer : send_answer) : result (YYLibEvent S) :=
  match get_state (lp_fds s) fd with
  | None => Ok s
  | Some st =>
      let sz := i32 (fb_size (writebuffer st)) in
      if 0 <? sz then
        match answer with
        | SendAgain => Ok s
        | SendError => free_fd_state s fd
        | SentAll =>
            bs ← sent_bytes (writebuffer st) sz;
            Ok (emit (set_fd_state s fd (FdState (clear (writebuffer st)) (read_event st) false
                  (listen_port st))) (Sent fd bs))
        | SentPart n =>
            if n <=? 0 then free_fd_state s fd else
            if sz <=? n then Err Undefined else
            bs ← sent_bytes (writebuffer st) n;
            fb ← drop_front (writebuffer st) sz;
            Ok (emit (set_fd_state s fd (FdState fb (read_event st) (write_event st) (listen_port st)))
                  (Sent fd bs))
        end
      else
        Ok (set_fd_state s fd (FdState (writebuffer st) (read_event st) false (listen_port st)))
  end.

(** [do_accept]: what [accept] gives is a descriptor, or negative. *)
Definition do_accept (mem : bool) s (port accepted : Z) : result (YYLibEvent S) :=
  if accepted <? 0 then Ok s else
  match alloc_fd_state mem s accepted port with
  | None => Err AssertFailed
  | Some s =>
      match get_state (lp_fds s) accepted with
      | None => Err AssertFailed
      | Some st =>
          Ok (emit (set_fd_state s accepted
                (FdState (writebuffer st) true (write_event st) (listen_port st))) (Opened accepted))
      end
  end.

(** ** The queue that wakes the loop *)

(** An [int] in memory. *)
Definition int_bytes (z : Z) : list byte :=
  [z2b z; z2b (u32 z / 256); z2b (u32 z / 65536); z2b (u32 z / 16777216)].

(** [msg_send]: the [int] is sent whole, in part, or not at all. *)
Definition msg_send s (sockfd : Z) (sz : Z) : result (YYLibEvent S) :=
  if sz <=? 0 then Ok (set_pipe s (-1) (lp_pipe s))
  else if 4 <? sz then Err Undefined
  else Ok (set_pipe s (lp_msgfd s) (lp_pipe s ++ take (Z.to_nat sz) (int_bytes sockfd))).

Definition flag_send s (flag : Z) (sz : Z) : result (YYLibEvent S) := msg_send s flag sz.

(** The two halves of [data_send], which other threads can come between. *)
Definition push_buffer s fd (wb : fastbuffer) (flag : Z) : YYLibEvent S :=
  set_bufqueue s (lqm_push (lp_bufqueue s) flag
    (Some (Fb fd (fb_size wb) (fb_bufsize wb) (fb_buf wb)))).

Definition data_send s fd (wb : option fastbuffer) (flag sz : Z) : result (YYLibEvent S) :=
  match wb with
  | None => Ok s
  | Some wb => flag_send (push_buffer s fd wb flag) flag sz
  end.

Definition closefd s fd (sz : Z) : result (YYLibEvent S) :=
  data_send s fd (Some (Fb fd 0 0 None)) WRITE_EVENT_FLAG sz.

Definition AddQueueEvent s (flag : Z) (ev : option queue_event) : YYLibEvent S :=
  Loop (lp_fds s) (lp_callback s) (lp_queueback s ++ [(flag, ev)]) (lp_bufqueue s) (lp_msgfd s)
    (lp_pipe s) (lp_effects s).

(** [YYLibEvent::queue_receive]: one buffer is handed to its connection; an
    empty one closes it. *)
Definition queue_receive s (flag : Z) : result (YYLibEvent S) :=
  if negb (flag =? WRITE_EVENT_FLAG) then Ok s else
  let '(wb, q) := lqm_pop (lp_bufqueue s) flag in
  let s := set_bufqueue s q in
  match wb with
  | None => Ok s
  | Some wb =>
      if fb_size wb =? 0 then
        match get_state (lp_fds s) (fb_fd wb) with
        | Some _ => free_fd_state s (fb_fd wb)
        | None => Ok s
        end
      else
        bs ← contents wb;
        match get_state (lp_fds s) (fb_fd wb) with
        | Some st =>
            fb ← put (writebuffer st) bs;
            Ok (emit (set_fd_state s (fb_fd wb)
                  (FdState fb (read_event st) true (listen_port st))) (Queued (fb_fd wb) bs))
        | None => Ok (emit s (Dropped (fb_fd wb) bs))
        end
  end.

(** The first registered handler of a flag, as the loop of [do_queue_read]
    finds it. *)
Fixpoint find_handler (l : list (Z * option queue_event)) (flag : Z) : option queue_event :=
  match l with
  | [] => None
  | (f, Some ev) :: l => if f =? flag then Some ev else find_handler l flag
  | (_, None) :: l => find_handler l flag
  end.

(** [do_queue_read]: one byte, for which nothing is done unless it is positive. *)
Definition do_queue_read s : result (YYLibEvent S) :=
  match lp_pipe s with
  | [] => Ok s
  | b :: p =>
      let s := set_pipe s (lp_msgfd s) p in
      if c2z b <=? 0 then Ok s else
      match find_handler (lp_queueback s) (c2z b) with
      | None => Ok s
      | Some This => queue_receive s (c2z b)
      | Some Other =>
          match lp_callback s with
          | None => Ok s
          | Some c => c ← other_queue_receive c (c2z b); Ok (set_callback s (Some c))
          end
      end
  end.

(** ** Setting up *)

(** [Init]: [base] and [sv] are the answers of [event_base_new] and of
    [evutil_socketpair]. *)
Definition Init s (callback : option S) (base : bool) (sv : option Z) :
    result (bool * YYLibEvent S) :=
  let s := set_callback s callback in
  if negb base then Ok (false, s) else
  let s := AddQueueEvent s WRITE_EVENT_FLAG (Some This) in
  match sv with
  | None => Ok (false, s)
  | Some sv0 => Ok (true, set_pipe s sv0 [])
  end.

(** [Bind]: the answers of [bind], [listen] and [malloc]. *)
Definition Bind s (port : Z) (bound listening mem : bool) : bool * YYLibEvent S :=
  if negb bound then (false, s)
  else if negb listening then (false, s)
  else if negb mem then (false, s)
  else (true, emit s (Listening port)).

End loop.
