(* ===== verification/EventLoopSpec.v ===== *)
(** * What the event loop promises

    The loop is compared with a machine that keeps, for every open connection,
    the bytes that are still to be sent: [replay] runs that machine on the
    recorded effects.  The other invariant is that no wake-up gets lost: there is
    one flag in the pipe, or one thread about to put it there, for every buffer
    in the queue. *)

From S2P Require Import Prelude FastBuffer Queues EventLoop.

(** ** The abstract machine *)

Abbreviation network := (gmap Z (list byte)).

Definition net_step (m : network) (e : effect) : option network :=
  match e with
  | Opened fd => match m !! fd with None => Some (<[fd := []]> m) | Some _ => None end
  | Queued fd bs => match m !! fd with Some q => Some (<[fd := q ++ bs]> m) | None => None end
  | Dropped fd bs => match m !! fd with None => Some m | Some _ => None end
  | Sent fd bs =>
      match m !! fd with
      | Some q => if bool_decide (take (length bs) q = bs)
                  then Some (<[fd := drop (length bs) q]> m) else None
      | None => None
      end
  | ClosedSocket fd => match m !! fd with Some _ => Some (delete fd m) | None => None end
  | Listening _ => Some m
  end.

Fixpoint replay_from (m : network) (es : list effect) : option network :=
  match es with
  | [] => Some m
  | e :: es => m ← net_step m e; replay_from m es
  end.

Definition replay (es : list effect) : option network := replay_from ∅ es.

(** The buffers with data that left the queue, in order. *)
Definition deliveries (es : list effect) : list (Z * list byte) :=
  omap (fun e => match e with
                 | Queued fd bs | Dropped fd bs => Some (fd, bs)
                 | _ => None
                 end) es.

Lemma replay_snoc es e m : replay es = Some m -> replay (es ++ [e]) = net_step m e.
Proof.
  unfold replay. generalize (∅ : network). induction es as [|e' es IH]; intros m0; cbn.
  - intros [= <-]. by destruct (net_step m0 e).
  - destruct (net_step m0 e') as [m1|]; cbn; [apply IH|done].
Qed.

Lemma deliveries_snoc es e :
  deliveries (es ++ [e]) =
    deliveries es ++ match e with Queued fd bs | Dropped fd bs => [(fd, bs)] | _ => [] end.
Proof. unfold deliveries. rewrite omap_app. by destruct e. Qed.

(** ** The client's side of the interface *)

(** [flags] are those the other user of the queue is woken up with. *)
Class ILibEventLaw (S : Type) `{ILibEvent S} `{ILibQueueEvent S} (inv : S -> Prop) (flags : Z -> Prop) : Prop := {
  receive_ok c fd fb bs port :
    inv c -> 0 <= fd -> holds fb bs -> bs <> [] ->
    exists keep c', data_receive c fd fb port = Ok (keep, c') /\ inv c';
  close_ok c fd : inv c -> 0 <= fd -> exists c', fd_close c fd = Ok c' /\ inv c';
  other_ok c flag : flags flag -> inv c -> exists c', other_queue_receive c flag = Ok c' /\ inv c';
}.

(** ** Runs of the loop among other threads *)

Inductive loop_event :=
| Readable (fd : Z) (answers : list recv_answer)
| Writable (fd : Z) (answer : send_answer)
| Accepted (port fd : Z)
| QueueReadable
| Post (fd : Z) (bs : list byte)
| Wake
| WakeOther (flag : Z).

Section run.
  Context {S : Type} `{ILibEvent S} `{ILibQueueEvent S}.

(** One event; the number counts the threads that have pushed a buffer and not
    sent the flag yet.  The kernel hands out no descriptor that is still open, and
    takes the four bytes of a flag whole: what [msg_send] does when it cannot, or
    takes a part, no run shows. *)
Definition loop_step (ev : loop_event) (sw : YYLibEvent S * nat) : result (YYLibEvent S * nat) :=
  let '(s, waking) := sw in
  match ev with
  | Readable fd answers => s ← do_read s fd answers; Ok (s, waking)
  | Writable fd answer => s ← do_write s fd answer; Ok (s, waking)
  | Accepted port fd =>
      match get_state (lp_fds s) fd with
      | Some _ => Ok (s, waking)
      | None => s ← do_accept true s port fd; Ok (s, waking)
      end
  | QueueReadable => s ← do_queue_read s; Ok (s, waking)
  | Post fd bs =>
      fb ← put new_fastbuffer bs; Ok (push_buffer s fd fb WRITE_EVENT_FLAG, Datatypes.S waking)
  | Wake =>
      match waking with
      | O => Ok (s, waking)
      | Datatypes.S waking => s ← flag_send s WRITE_EVENT_FLAG 4; Ok (s, waking)
      end
  | WakeOther flag => s ← flag_send s flag 4; Ok (s, waking)
  end.

Fixpoint loop_run (evs : list loop_event) (sw : YYLibEvent S * nat) : result (YYLibEvent S * nat) :=
  match evs with
  | [] => Ok sw
  | ev :: evs => sw ← loop_step ev sw; loop_run evs sw
  end.

(** The loop as [Init] and the other user's [AddQueueEvent] leave it. *)
Definition started (c : S) (sv0 flag : Z) : YYLibEvent S :=
  AddQueueEvent (Loop (new_hash_map None) (Some c) [(WRITE_EVENT_FLAG, Some This)]
    (new_LockQueueMap None) sv0 [] []) flag (Some Other).

Lemma Init_started c sv0 flag :
  exists s, Init new_YYLibEvent (Some c) true (Some sv0) = Ok (true, s) /\
    AddQueueEvent s flag (Some Other) = started c sv0 flag.
Proof. by eexists. Qed.

End run.

Definition posts (evs : list loop_event) : list (Z * list byte) :=
  omap (fun ev => match ev with Post fd bs => Some (fd, bs) | _ => None end) evs.

Fixpoint answers_ok (answers : list recv_answer) : bool :=
  match answers with
  | [] => false
  | Data bs :: answers => (0 <? zlen bs) && (zlen bs <=? 1024) && answers_ok answers
  | _ => true
  end.

(** What the kernel and the threads do: [recv] is asked until it has nothing
    left, and [send] takes everything or nothing. *)
Definition event_ok (flags : Z -> Prop) (ev : loop_event) : Prop :=
  match ev with
  | Readable fd answers => answers_ok answers = true /\ zlen answers <= 2 ^ 20
  | Writable fd answer => match answer with SentPart _ => False | _ => True end
  | WakeOther flag => 1 < flag < 128 /\ flags flag
  | _ => True
  end.

Fixpoint amount (l : list (Z * list byte)) : Z :=
  match l with
  | [] => 0
  | p :: l => zlen (snd p) + amount l
  end.

Lemma amount_app l k : amount (l ++ k) = amount l + amount k.
Proof. induction l as [|p l IH]; cbn; [done|]. rewrite IH. lia. Qed.

Lemma amount_nonneg l : 0 <= amount l.
Proof. induction l as [|p l IH]; cbn; [done|]. pose proof (zlen_nonneg (snd p)). lia. Qed.

Definition nonempty (p : Z * list byte) : bool := negb (bool_decide (snd p = [])).

(** A buffer in the queue stands for what was posted. *)
Definition stands_for (p : Z * list byte) (o : option fastbuffer) : Prop :=
  exists fb, o = Some fb /\ fb_fd fb = fst p /\ holds fb (snd p).

Definition wakes (p : list byte) : nat := count_occ Byte.byte_eq_dec p x01.

Section inv.
  Context {S : Type} `{ILibEvent S} `{ILibQueueEvent S} (inv : S -> Prop) (flags : Z -> Prop) `{!ILibEventLaw S inv flags}.
  Implicit Types (s : YYLibEvent S).

(** A connection and the bytes the machine has for it. *)
Definition conn_rel (o : option fd_state) (q : option (list byte)) : Prop :=
  match o, q with
  | None, None => True
  | Some st, Some bs => holds (writebuffer st) bs /\ (bs <> [] -> write_event st = true)
  | _, _ => False
  end.

Definition network_rel s (m : network) : Prop :=
  replay (lp_effects s) = Some m /\ hm_default (lp_fds s) = None /\
  forall fd, conn_rel (get_state (lp_fds s) fd) (m !! fd) /\ (is_Some (m !! fd) -> 0 <= fd).

(** The part of the state the network does not see. *)
Definition rest_ok s : Prop :=
  (exists c, lp_callback s = Some c /\ inv c) /\
  find_handler (lp_queueback s) WRITE_EVENT_FLAG = Some This /\
  lqm_default (lp_bufqueue s) = None.

Record loop_inv s (waking : nat) (handled pending : list (Z * list byte)) (m : network) : Prop := {
  inv_rest : rest_ok s;
  inv_net : network_rel s m;
  inv_queue : Forall2 stands_for pending (lqm_queue (lp_bufqueue s) WRITE_EVENT_FLAG);
  inv_wakes : length pending = (wakes (lp_pipe s) + waking)%nat;
  inv_deliveries : List.filter nonempty handled = deliveries (lp_effects s);
  inv_amount : forall fd q, m !! fd = Some q -> zlen q <= amount handled;
  inv_flags : Forall (fun b => 1 < c2z b -> flags (c2z b)) (lp_pipe s);
}.

(** ** Effects on the network *)

Lemma set_fd_state_rel s m e m' fd st q :
  network_rel s m -> 0 <= fd -> net_step m e = Some m' -> m' = <[fd := q]> m ->
  holds (writebuffer st) q -> (q <> [] -> write_event st = true) ->
  network_rel (emit (set_fd_state s fd st) e) m'.
Proof.
  intros (Hr & Hd & Hc) Hfd He -> Hh Hw. split; [|split].
  - cbn. by rewrite (replay_snoc _ _ _ Hr).
  - cbn. by rewrite add_state_map.
  - intros fd'. cbn. destruct (decide (fd = fd')) as [<-|Hn].
    + rewrite get_add_same, lookup_insert_eq. by split.
    + rewrite get_add_other, lookup_insert_ne by done. apply Hc.
Qed.

Lemma open_conn s m fd st :
  network_rel s m -> get_state (lp_fds s) fd = Some st ->
  exists q, m !! fd = Some q /\ holds (writebuffer st) q /\ (q <> [] -> write_event st = true) /\ 0 <= fd.
Proof.
  intros (_ & _ & Hc) E. destruct (Hc fd) as [Hf Hn]. rewrite E in Hf.
  destruct (m !! fd) as [q|]; [|done]. exists q. split; [done|]. destruct Hf. split; [done|].
  split; [done|]. by apply Hn.
Qed.

Lemma closed_conn s m fd :
  network_rel s m -> get_state (lp_fds s) fd = None -> m !! fd = None.
Proof.
  intros (_ & _ & Hc) E. destruct (Hc fd) as [Hf _]. rewrite E in Hf. by destruct (m !! fd).
Qed.

Lemma network_same s s' m :
  lp_fds s' = lp_fds s -> lp_effects s' = lp_effects s -> network_rel s m -> network_rel s' m.
Proof. unfold network_rel. by intros -> ->. Qed.

(** Closing a connection. *)
Lemma free_fd_state_spec s m fd st :
  rest_ok s -> network_rel s m -> get_state (lp_fds s) fd = Some st ->
  exists s', free_fd_state s fd = Ok s' /\ rest_ok s' /\ network_rel s' (delete fd m) /\
    lp_bufqueue s' = lp_bufqueue s /\ lp_pipe s' = lp_pipe s /\
    lp_effects s' = lp_effects s ++ [ClosedSocket fd].
Proof.
  intros ((c & Ec & Hc) & Hq & Hdef) Hn E. destruct (open_conn s m fd st Hn E) as (q & Em & _ & _ & Hfd).
  destruct (close_ok c fd Hc Hfd) as (c' & Ec' & Hc').
  unfold free_fd_state. rewrite Ec, Ec'. cbn [mbind result_bind].
  eexists; split; [done|]. split; [|split; [|done]].
  - split; [by exists c'|]. done.
  - destruct Hn as (Hr & Hd & Hcr). split; [|split].
    + cbn. by rewrite (replay_snoc _ _ _ Hr); cbn; rewrite Em.
    + cbn. by rewrite del_state_map.
    + intros fd'. cbn. destruct (decide (fd = fd')) as [<-|Hne].
      * rewrite get_del_same, lookup_delete_eq, Hd. split; [done|]. intros [? [=]].
      * rewrite get_del_other, lookup_delete_ne by done. apply Hcr.
Qed.

(** ** Reading *)

Definition is_data (a : recv_answer) : bool := match a with Data _ => true | _ => false end.

Lemma read_loop_data s fd port chunks last fb v :
  Forall (fun bs => 0 < zlen bs <= 1024) chunks -> is_data last = false ->
  holds (default new_fastbuffer fb) v -> zlen v + zlen (concat chunks) < 2 ^ 30 ->
  exists fb', read_loop (map Data chunks ++ [last]) fb s fd port =
      read_loop [last] fb' s fd port /\
    match chunks with
    | [] => fb' = fb
    | _ => exists b, fb' = Some b /\ holds b (v ++ concat chunks)
    end.
Proof.
  intros Hc Hl. revert fb v. induction Hc as [|bs chunks Hbs Hc IH]; intros fb v Hh Hb; cbn [map app].
  - by exists fb.
  - cbn [read_loop concat] in *. rewrite zlen_app in Hb. pose proof (zlen_nonneg (concat chunks)).
    rewrite (proj2 (Z.leb_gt _ _)), (proj2 (Z.ltb_ge _ _)) by lia. cbn [orb].
    destruct (put_spec _ v bs Hh) as (b & -> & Hb' & _); [lia|]. cbn [mbind result_bind].
    destruct (IH (Some b) (v ++ bs)) as (fb' & -> & Hfb'); [done|rewrite zlen_app; lia|].
    exists fb'. split; [done|]. rewrite <- app_assoc in Hfb'.
    destruct chunks as [|c cs]; [|done]. exists b. split; [done|]. cbn. by rewrite app_nil_r.
Qed.

Lemma answers_split answers :
  answers_ok answers = true ->
  exists chunks last tail, answers = map Data chunks ++ last :: tail /\ is_data last = false /\
    Forall (fun bs => 0 < zlen bs <= 1024) chunks /\ (length chunks < length answers)%nat.
Proof.
  induction answers as [|a answers IH]; [done|]. destruct a as [bs| | |]; cbn; intros Ha.
  - apply andb_true_iff in Ha as [[H1%Z.ltb_lt H2%Z.leb_le]%andb_true_iff Ha].
    destruct (IH Ha) as (chunks & last & tail & -> & Hl & Hc & Hlen).
    exists (bs :: chunks), last, tail. cbn. split; [done|]. split; [done|]. split; [by constructor|lia].
  - exists [], RecvAgain, answers. cbn. repeat split; [constructor|lia].
  - exists [], RecvError, answers. cbn. repeat split; [constructor|lia].
  - exists [], RecvClosed, answers. cbn. repeat split; [constructor|lia].
Qed.

(** The answers behind the last one are not looked at. *)
Lemma read_loop_tail s fd port chunks last tail fb :
  is_data last = false ->
  read_loop (map Data chunks ++ last :: tail) fb s fd port =
    read_loop (map Data chunks ++ [last]) fb s fd port.
Proof.
  intros Hl. revert fb. induction chunks as [|bs chunks IH]; intros fb; cbn [map app read_loop].
  - by destruct last.
  - destruct (_ || _); [done|]. destruct (put _ bs); cbn [mbind result_bind]; [apply IH|done].
Qed.

Lemma concat_bound chunks :
  Forall (fun bs : list byte => 0 < zlen bs <= 1024) chunks -> zlen (concat chunks) <= 1024 * zlen chunks.
Proof.
  induction 1 as [|bs chunks Hb Hc IH]; cbn [concat]; [done|]. rewrite zlen_app, zlen_cons. lia.
Qed.

(** Steps that touch connections only and take nothing from the queue. *)
Record quiet s s' (m m' : network) : Prop := {
  quiet_rest : rest_ok s';
  quiet_net : network_rel s' m';
  quiet_queue : lp_bufqueue s' = lp_bufqueue s;
  quiet_pipe : lp_pipe s' = lp_pipe s;
  quiet_deliveries : deliveries (lp_effects s') = deliveries (lp_effects s);
  quiet_amount : forall fd q, m' !! fd = Some q ->
    zlen q <= match m !! fd with Some q0 => zlen q0 | None => 0 end;
}.

Lemma quiet_refl s m : rest_ok s -> network_rel s m -> quiet s s m m.
Proof. intros Hr Hn. split; try done. intros fd q ->. lia. Qed.

Lemma quiet_client s m c :
  rest_ok s -> network_rel s m -> inv c -> quiet s (set_callback s (Some c)) m m.
Proof.
  intros (_ & Hr) Hn Hc. split; try done; [|intros fd q ->; lia].
  split; [by exists c|done].
Qed.

Lemma quiet_free s m fd st :
  rest_ok s -> network_rel s m -> get_state (lp_fds s) fd = Some st ->
  exists s', free_fd_state s fd = Ok s' /\ quiet s s' m (delete fd m).
Proof.
  intros Hr Hn E. destruct (free_fd_state_spec s m fd st Hr Hn E) as (s' & Es & Hr' & Hn' & Hq & Hp & He).
  exists s'. split; [done|]. split; try done.
  - by rewrite He, deliveries_snoc, app_nil_r.
  - intros fd' q' [_ Eq]%lookup_delete_Some. rewrite Eq. lia.
Qed.

Lemma do_read_spec s m fd answers :
  rest_ok s -> network_rel s m -> answers_ok answers = true -> zlen answers <= 2 ^ 20 ->
  exists s' m', do_read s fd answers = Ok s' /\ quiet s s' m m'.
Proof.
  intros Hr Hn Ha Hl. unfold do_read. destruct (get_state (lp_fds s) fd) as [st|] eqn:E.
  2:{ exists s, m. split; [done|by apply quiet_refl]. }
  destruct (open_conn s m fd st Hn E) as (q & Em & _ & _ & Hfd).
  destruct (answers_split answers Ha) as (chunks & last & tail & -> & Hlast & Hc & Hlen).
  rewrite read_loop_tail by done.
  assert (Hlen' : zlen chunks < 2 ^ 20) by
    (rewrite zlen_app, zlen_cons in Hl; unfold zlen in *; rewrite length_map in Hl; lia).
  destruct (read_loop_data s fd (listen_port st) chunks last None [] Hc Hlast new_holds) as (fb & -> & Hfb).
  { pose proof (concat_bound chunks Hc). rewrite zlen_nil. lia. }
  destruct (quiet_free s m fd st Hr Hn E) as (s' & Es & Hs').
  destruct last as [bs| | |]; [done|..]; cbn [read_loop]; [|by exists s', (delete fd m)..].
  pose proof Hr as ((c & Ec & Hcc) & _). rewrite Ec. destruct chunks as [|bs chunks].
  - subst fb. exists s, m. split; [done|by apply quiet_refl].
  - destruct Hfb as (b & -> & Hb).
    destruct (receive_ok c fd b (concat (bs :: chunks)) (listen_port st) Hcc Hfd Hb) as (keep & c' & -> & Hc').
    { intros Enil. inversion Hc as [|? ? Hbs]. subst. cbn in Enil. apply app_nil in Enil as [-> _].
      destruct Hbs as [Hbs _]. by vm_compute in Hbs. }
    cbn [mbind result_bind]. exists (set_callback s (Some c')), m. split; [done|by apply quiet_client].
Qed.

(** ** Writing *)

Lemma sent_bytes_all fb bs : holds fb bs -> sent_bytes fb (zlen bs) = Ok bs.
Proof.
  intros Hh. unfold sent_bytes. rewrite (contents_holds _ _ Hh). cbn [mbind result_bind].
  by rewrite to_nat_zlen, firstn_all.
Qed.

Lemma quiet_fd s m e fd st q0 q :
  rest_ok s -> network_rel s m -> m !! fd = Some q0 -> 0 <= fd ->
  net_step m e = Some (<[fd := q]> m) -> (forall es, deliveries (es ++ [e]) = deliveries es) ->
  holds (writebuffer st) q -> (q <> [] -> write_event st = true) -> zlen q <= zlen q0 ->
  quiet s (emit (set_fd_state s fd st) e) m (<[fd := q]> m).
Proof.
  intros Hr Hn Em Hfd He Hd Hh Hw Hl. split; try done.
  - by eapply set_fd_state_rel.
  - apply Hd.
  - intros fd' q' [[<- <-]|[Hne Eq]]%lookup_insert_Some; [by rewrite Em|]. rewrite Eq. lia.
Qed.

Lemma do_write_spec s m fd answer :
  rest_ok s -> network_rel s m -> (forall q, m !! fd = Some q -> zlen q < 2 ^ 30) ->
  match answer with SentPart _ => False | _ => True end ->
  exists s' m', do_write s fd answer = Ok s' /\ quiet s s' m m'.
Proof.
  intros Hr Hn Hb Ha. unfold do_write. destruct (get_state (lp_fds s) fd) as [st|] eqn:E.
  2:{ exists s, m. split; [done|by apply quiet_refl]. }
  destruct (open_conn s m fd st Hn E) as (q & Em & Hh & Hw & Hfd).
  assert (Esz : i32 (fb_size (writebuffer st)) = zlen q).
  { destruct Hh as [-> _]. apply i32_small. pose proof (Hb q Em). pose proof (zlen_nonneg q). lia. }
  rewrite Esz. destruct (Z.ltb_spec 0 (zlen q)) as [Hq|Hq].
  - destruct answer as [|n| |]; [|done|..].
    + rewrite (sent_bytes_all _ _ Hh). cbn [mbind result_bind].
      eexists _, (<[fd := []]> m). split; [done|].
      apply (quiet_fd s m _ fd _ q); try done.
      * cbn. rewrite Em. rewrite firstn_all, bool_decide_eq_true_2 by done. by rewrite drop_all.
      * intros es. by rewrite deliveries_snoc, app_nil_r.
      * by apply (clear_holds _ q).
      * change (zlen []) with 0. lia.
    + exists s, m. split; [done|by apply quiet_refl].
    + destruct (quiet_free s m fd st Hr Hn E) as (s' & Es & Hs'). by exists s', (delete fd m).
  - eexists _, m. split; [done|]. assert (q = []) as -> by (destruct q; [done|rewrite zlen_cons in Hq; pose proof (zlen_nonneg q); lia]).
    split; try done; [|intros fd' q' ->; lia]. destruct Hn as (Hrep & Hd & Hc).
    split; [done|]. split; [cbn; by rewrite add_state_map|].
    intros fd'. cbn. destruct (decide (fd = fd')) as [<-|Hne].
    + rewrite get_add_same, Em. by split.
    + rewrite get_add_other by done. apply Hc.
Qed.

(** ** Accepting *)

Lemma do_accept_spec s m port fd :
  rest_ok s -> network_rel s m -> get_state (lp_fds s) fd = None ->
  exists s' m', do_accept true s port fd = Ok s' /\ quiet s s' m m'.
Proof.
  intros Hr Hn E. unfold do_accept. destruct (Z.ltb_spec fd 0) as [Hf|Hf].
  { exists s, m. split; [done|by apply quiet_refl]. }
  cbn [alloc_fd_state set_fds lp_fds]. rewrite get_add_same.
  pose proof (closed_conn s m fd Hn E) as Em.
  eexists _, (<[fd := []]> m). split; [done|]. destruct Hn as (Hrep & Hd & Hc). split; try done.
  - split; [|split].
    + cbn. rewrite (replay_snoc _ _ _ Hrep). cbn. by rewrite Em.
    + cbn. by rewrite !add_state_map.
    + intros fd'. cbn. destruct (decide (fd = fd')) as [<-|Hne].
      * rewrite get_add_same, lookup_insert_eq. split; [|done]. split; [apply new_holds|done].
      * rewrite !get_add_other, lookup_insert_ne by done. apply Hc.
  - cbn. by rewrite deliveries_snoc, app_nil_r.
  - intros fd' q' [[<- <-]|[Hne Eq]]%lookup_insert_Some; [rewrite Em; done|]. rewrite Eq. lia.
Qed.

(** ** The queue *)

Lemma filter_snoc (l : list (Z * list byte)) p :
  List.filter nonempty (l ++ [p]) = List.filter nonempty l ++ (if nonempty p then [p] else []).
Proof. rewrite List.filter_app. cbn. by destruct (nonempty p). Qed.

(** Taking one buffer out of the queue. *)
Lemma queue_receive_spec s handled p pending m :
  rest_ok s -> network_rel s m -> (forall fd q, m !! fd = Some q -> zlen q <= amount handled) ->
  amount handled + amount (p :: pending) < 2 ^ 30 ->
  Forall2 stands_for (p :: pending) (lqm_queue (lp_bufqueue s) WRITE_EVENT_FLAG) ->
  List.filter nonempty handled = deliveries (lp_effects s) ->
  exists s' m', queue_receive s WRITE_EVENT_FLAG = Ok s' /\ rest_ok s' /\ network_rel s' m' /\
    lp_pipe s' = lp_pipe s /\
    Forall2 stands_for pending (lqm_queue (lp_bufqueue s') WRITE_EVENT_FLAG) /\
    List.filter nonempty (handled ++ [p]) = deliveries (lp_effects s') /\
    (forall fd q, m' !! fd = Some q -> zlen q <= amount (handled ++ [p])).
Proof.
  intros Hr Hn Ham Hb Hq Hd. destruct p as [fd bs].
  pose proof (lqm_pop_queue (lp_bufqueue s) WRITE_EVENT_FLAG) as (Ep & Edef & Etail).
  specialize (Etail WRITE_EVENT_FLAG). rewrite bool_decide_eq_true_2 in Etail by done.
  inversion Hq as [|? o ? queue Ho Hqs E1 E2]. subst. rewrite <- E2 in *. cbn [tail hd] in *.
  destruct Ho as (fb & -> & Hfd & Hh). cbn [fst snd] in *.
  unfold queue_receive. cbn [negb Z.eqb WRITE_EVENT_FLAG Pos.eqb]. rewrite Ep.
  set (q' := snd (lqm_pop (lp_bufqueue s) WRITE_EVENT_FLAG)) in *.
  set (s1 := set_bufqueue s q').
  assert (Hr1 : rest_ok s1).
  { destruct Hr as (? & ? & Hdef). split; [done|]. split; [done|]. cbn. by rewrite Edef. }
  assert (Hn1 : network_rel s1 m) by done.
  assert (Hp1 : Forall2 stands_for pending (lqm_queue (lp_bufqueue s1) WRITE_EVENT_FLAG)).
  { change (Forall2 stands_for pending (lqm_queue q' WRITE_EVENT_FLAG)). by rewrite Etail. }
  pose proof (zlen_nonneg bs) as Hbs0. pose proof (amount_nonneg pending). cbn [amount snd] in Hb.
  assert (Ea : amount (handled ++ [(fd, bs)]) = amount handled + zlen bs) by (rewrite amount_app; cbn; lia).
  destruct Hh as [Es Hh']. rewrite Es. rewrite Hfd.
  assert (Hh : holds fb bs) by (by split). rewrite filter_snoc, Hd. unfold nonempty. cbn [snd].
  destruct (Z.eqb_spec (zlen bs) 0) as [Hz|Hz].
  - assert (bs = []) as -> by (destruct bs; [done|rewrite zlen_cons in Hz; pose proof (zlen_nonneg bs); lia]).
    rewrite bool_decide_eq_true_2 by done. cbn [negb]. rewrite app_nil_r, Ea.
    change (get_state (lp_fds s1) fd) with (get_state (lp_fds s) fd).
    destruct (get_state (lp_fds s) fd) as [st|] eqn:E.
    + destruct (quiet_free s1 m fd st Hr1 Hn1 E) as (s' & Es' & Hs'). exists s', (delete fd m).
      split; [done|]. destruct Hs'. rewrite quiet_queue0, quiet_deliveries0, quiet_pipe0.
      do 5 (split; [done|]).
      intros fd' q0 Eq. apply quiet_amount0 in Eq. specialize (Ham fd').
      destruct (m !! fd') as [q1|]; [specialize (Ham q1 eq_refl)|pose proof (amount_nonneg handled)]; lia.
    + exists s1, m. do 6 (split; [done|]).
      intros fd' q0 Eq. specialize (Ham fd' q0 Eq). lia.
  - assert (Hne : bs <> []) by (intros ->; done).
    rewrite bool_decide_eq_false_2 by done. cbn [negb]. rewrite (contents_holds _ _ Hh). cbn [mbind result_bind].
    change (get_state (lp_fds s1) fd) with (get_state (lp_fds s) fd).
    destruct (get_state (lp_fds s) fd) as [st|] eqn:E.
    + destruct (open_conn s m fd st Hn E) as (q & Em & Hwb & _ & Hfd0).
      pose proof (Ham fd q Em) as Hq0.
      destruct (put_spec (writebuffer st) q bs Hwb) as (fb' & -> & Hfb' & _); [lia|]. cbn [mbind result_bind].
      eexists _, (<[fd := q ++ bs]> m). split; [done|]. split; [done|]. split.
      { eapply (set_fd_state_rel s1 m); try done. cbn. by rewrite Em. }
      split; [done|]. split; [done|]. split; [cbn; by rewrite deliveries_snoc|].
      intros fd' q0 [[<- <-]|[Hne' Eq]]%lookup_insert_Some; rewrite Ea, ?zlen_app; [lia|].
      specialize (Ham fd' q0 Eq). lia.
    + eexists _, m. split; [done|]. split; [done|]. split.
      { destruct Hn as (Hrep & Hdf & Hc). split; [|split; [done|exact Hc]].
        cbn. rewrite (replay_snoc _ _ _ Hrep). cbn.
        by rewrite (closed_conn s m fd (conj Hrep (conj Hdf Hc)) E). }
      split; [done|]. split; [done|]. split; [cbn; by rewrite deliveries_snoc|].
      intros fd' q0 Eq. specialize (Ham fd' q0 Eq). lia.
Qed.

(** ** Every event *)

Lemma quiet_inv s s' waking handled pending m m' :
  loop_inv s waking handled pending m -> quiet s s' m m' -> loop_inv s' waking handled pending m'.
Proof.
  intros [Hr Hn Hq Hw Hd Ha Hfl] [Hr' Hn' Hq' Hp' Hd' Ha']. split; try done.
  - by rewrite Hq'.
  - by rewrite Hp'.
  - by rewrite Hd'.
  - intros fd q Eq. apply Ha' in Eq. specialize (Ha fd).
    destruct (m !! fd) as [q0|]; [specialize (Ha q0 eq_refl)|pose proof (amount_nonneg handled)]; lia.
  - by rewrite Hp'.
Qed.

(** What happens after one event: the invariant holds with buffers moved from
    pending to handled, and those just posted added at the end. *)
Definition steps_to (ev : loop_event) s (waking : nat) handled pending : Prop :=
  exists s' waking' handled' pending' m',
    loop_step ev (s, waking) = Ok (s', waking') /\ loop_inv s' waking' handled' pending' m' /\
    handled' ++ pending' = handled ++ pending ++ posts [ev].

Lemma quiet_steps ev s waking handled pending m :
  loop_inv s waking handled pending m -> posts [ev] = [] ->
  (exists s' m', loop_step ev (s, waking) = Ok (s', waking) /\ quiet s s' m m') ->
  steps_to ev s waking handled pending.
Proof.
  intros Hi Hp (s' & m' & E & Hs). exists s', waking, handled, pending, m'.
  split; [done|]. split; [by eapply quiet_inv|]. by rewrite Hp, app_nil_r.
Qed.

Lemma post_steps s waking handled pending m fd bs :
  loop_inv s waking handled pending m -> zlen bs < 2 ^ 30 ->
  steps_to (Post fd bs) s waking handled pending.
Proof.
  intros [Hr Hn Hq Hw Hd Ha Hfl] Hb. destruct (put_spec new_fastbuffer [] bs new_holds Hb) as (fb & E & Hh & _).
  unfold steps_to. cbn [loop_step]. rewrite E. cbn [mbind result_bind].
  eexists _, _, handled, (pending ++ [(fd, bs)]), m. split; [done|]. split; [|done].
  split; try done.
  - destruct Hr as (? & ? & ?). split; [done|]. split; [done|]. cbn. by rewrite lqm_push_default.
  - cbn. rewrite lqm_push_queue, bool_decide_eq_true_2 by done. apply Forall2_app; [done|].
    constructor; [|done]. eexists; split; [done|]. by split.
  - rewrite length_app, Hw. cbn [length push_buffer set_bufqueue lp_pipe]. lia.
Qed.

Lemma flag_bytes flag :
  0 < flag < 128 -> take (Z.to_nat 4) (int_bytes flag) = [z2b flag; x00; x00; x00].
Proof.
  intros Hf. unfold int_bytes. rewrite u32_small by lia.
  rewrite !Z.div_small by lia. reflexivity.
Qed.

Lemma wakes_flag p flag :
  0 < flag < 128 ->
  wakes (p ++ [z2b flag; x00; x00; x00]) = (wakes p + (if (flag =? 1)%Z then 1 else 0))%nat.
Proof.
  intros Hf. unfold wakes. rewrite count_occ_app. f_equal.
  destruct (Z.eqb_spec flag 1) as [->|Hn]; [done|].
  rewrite count_occ_cons_neq; [done|]. intros E. apply (f_equal b2z) in E.
  rewrite b2z_z2b in E by lia. by change (b2z x01) with 1 in E.
Qed.

Lemma flags_sent p flag :
  0 < flag < 128 -> (1 < flag -> flags flag) ->
  Forall (fun b => 1 < c2z b -> flags (c2z b)) p ->
  Forall (fun b => 1 < c2z b -> flags (c2z b)) (p ++ [z2b flag; x00; x00; x00]).
Proof.
  intros Hf Hok Hp. apply Forall_app. split; [done|].
  repeat (apply List.Forall_cons || apply List.Forall_nil); [|by vm_compute..].
  unfold c2z. rewrite b2z_z2b by lia. rewrite wrapS_small by lia. done.
Qed.

Lemma flag_send_pipe s flag :
  0 < flag < 128 ->
  flag_send s flag 4 = Ok (set_pipe s (lp_msgfd s) (lp_pipe s ++ [z2b flag; x00; x00; x00])).
Proof. intros Hf. unfold flag_send, msg_send. by rewrite <- (flag_bytes flag Hf). Qed.

Lemma wake_steps s waking handled pending m :
  loop_inv s waking handled pending m -> steps_to Wake s waking handled pending.
Proof.
  intros Hi. destruct waking as [|waking].
  { apply (quiet_steps _ _ _ _ _ m Hi); [done|]. exists s, m. split; [done|].
    destruct Hi. by apply quiet_refl. }
  destruct Hi as [Hr Hn Hq Hw Hd Ha Hfl]. unfold steps_to. cbn [loop_step].
  rewrite flag_send_pipe by done. cbn [mbind result_bind].
  eexists _, waking, handled, pending, m. split; [done|]. split; [|by rewrite app_nil_r].
  split; try done; [|by apply flags_sent].
  change (length pending = (wakes (lp_pipe s ++ [z2b 1; x00; x00; x00]) + waking)%nat).
  rewrite wakes_flag by done. cbn [Z.eqb Pos.eqb]. lia.
Qed.

Lemma wake_other_steps s waking handled pending m flag :
  loop_inv s waking handled pending m -> 1 < flag < 128 /\ flags flag ->
  steps_to (WakeOther flag) s waking handled pending.
Proof.
  intros [Hr Hn Hq Hw Hd Ha Hfl] [Hf Hok]. unfold steps_to. cbn [loop_step].
  rewrite flag_send_pipe by lia. cbn [mbind result_bind].
  eexists _, waking, handled, pending, m. split; [done|]. split; [|by rewrite app_nil_r].
  split; try done; [|apply flags_sent; [lia|done..]].
  change (length pending = (wakes (lp_pipe s ++ [z2b flag; x00; x00; x00]) + waking)%nat).
  rewrite wakes_flag by lia. rewrite (proj2 (Z.eqb_neq flag 1)) by lia. lia.
Qed.

(** Reading one byte that is not the flag of the loop. *)
Lemma find_flag_one b : c2z b = 1 -> b = x01.
Proof. by destruct b. Qed.

Lemma other_byte_read s m b p :
  rest_ok s -> network_rel s m -> lp_pipe s = b :: p -> b <> x01 -> (1 < c2z b -> flags (c2z b)) ->
  exists s', do_queue_read s = Ok s' /\ quiet (set_pipe s (lp_msgfd s) p) s' m m.
Proof.
  intros Hr Hn Ep Hb Hfl. unfold do_queue_read. rewrite Ep. set (s1 := set_pipe s (lp_msgfd s) p).
  assert (Hr1 : rest_ok s1) by done. assert (Hn1 : network_rel s1 m) by done.
  pose proof (quiet_refl s1 m Hr1 Hn1) as Hq.
  destruct (Z.leb_spec (c2z b) 0) as [Hz|Hz]; [by exists s1|].
  assert (Hb1 : c2z b <> 1) by (by intros E%find_flag_one).
  destruct (find_handler (lp_queueback s1) (c2z b)) as [[]|]; [|..|by exists s1].
  - unfold queue_receive. destruct (Z.eqb_spec (c2z b) WRITE_EVENT_FLAG) as [E|E]; [|by exists s1].
    by apply find_flag_one in E.
  - destruct Hr as ((c & Ec & Hc) & Hrest). change (lp_callback s1) with (lp_callback s). rewrite Ec.
    destruct (other_ok c (c2z b) ltac:(apply Hfl; lia) Hc) as (c' & -> & Hc'). cbn [mbind result_bind].
    eexists; split; [done|]. by apply quiet_client.
Qed.

Lemma queue_steps s waking handled pending m :
  loop_inv s waking handled pending m -> amount handled + amount pending < 2 ^ 30 ->
  steps_to QueueReadable s waking handled pending.
Proof.
  intros Hi Hb. pose proof Hi as [Hr Hn Hq Hw Hd Ha Hfl]. unfold steps_to. cbn [loop_step].
  destruct (lp_pipe s) as [|b p] eqn:Ep.
  { exists s, waking, handled, pending, m. unfold do_queue_read. rewrite Ep. by rewrite app_nil_r. }
  destruct (decide (b = x01)) as [->|Hne].
  - unfold do_queue_read. rewrite Ep. set (s1 := set_pipe s (lp_msgfd s) p).
    change (c2z x01) with WRITE_EVENT_FLAG. cbn [Z.leb Z.compare WRITE_EVENT_FLAG].
    change (lp_queueback s1) with (lp_queueback s). rewrite (proj1 (proj2 Hr)).
    destruct pending as [|q pending]; [cbn in Hw; discriminate|].
    destruct (queue_receive_spec s1 handled q pending m) as (s' & m' & -> & Hr' & Hn' & Hp' & Hq' & Hd' & Ha');
      [done..|].
    cbn [mbind result_bind]. exists s', waking, (handled ++ [q]), pending, m'.
    split; [done|]. split; [|by rewrite <- !app_assoc, app_nil_r].
    split; try done; rewrite Hp'; [|by apply Forall_inv_tail in Hfl].
    cbn in Hw |- *. unfold wakes in *. lia.
  - destruct (other_byte_read s m b p Hr Hn Ep Hne ltac:(exact (Forall_inv Hfl))) as (s' & -> & Hs'). cbn [mbind result_bind].
    exists s', waking, handled, pending, m. split; [done|]. split; [|by rewrite app_nil_r].
    apply (quiet_inv (set_pipe s (lp_msgfd s) p) s' _ _ _ m m); [|done].
    split; try done; [|by apply Forall_inv_tail in Hfl].
    rewrite Hw. unfold wakes. by rewrite count_occ_cons_neq.
Qed.

Lemma loop_step_spec ev s waking handled pending m :
  loop_inv s waking handled pending m -> event_ok flags ev ->
  amount handled + amount (pending ++ posts [ev]) < 2 ^ 30 ->
  steps_to ev s waking handled pending.
Proof.
  intros Hi He Hb. pose proof Hi as [Hr Hn Hq Hw Hd Ha Hfl].
  rewrite amount_app in Hb. pose proof (amount_nonneg pending). pose proof (amount_nonneg (posts [ev])).
  destruct ev as [fd answers|fd answer|port fd| |fd bs| |flag].
  - apply (quiet_steps _ _ _ _ _ m Hi); [done|]. destruct He as [Ha1 Ha2].
    destruct (do_read_spec s m fd answers Hr Hn Ha1 Ha2) as (s' & m' & E & Hs).
    exists s', m'. cbn [loop_step]. by rewrite E.
  - apply (quiet_steps _ _ _ _ _ m Hi); [done|].
    destruct (do_write_spec s m fd answer Hr Hn) as (s' & m' & E & Hs); [|done|].
    { intros q Eq. apply Ha in Eq. lia. }
    exists s', m'. cbn [loop_step]. by rewrite E.
  - apply (quiet_steps _ _ _ _ _ m Hi); [done|]. cbn [loop_step].
    destruct (get_state (lp_fds s) fd) eqn:E.
    + exists s, m. split; [done|by apply quiet_refl].
    + destruct (do_accept_spec s m port fd Hr Hn E) as (s' & m' & E' & Hs). exists s', m'. by rewrite E'.
  - apply (queue_steps _ _ _ _ m Hi). lia.
  - apply (post_steps _ _ _ _ m _ _ Hi). pose proof (amount_nonneg handled). cbn [posts omap list_omap amount snd] in Hb. lia.
  - by apply (wake_steps _ _ _ _ m).
  - by apply (wake_other_steps _ _ _ _ m).
Qed.

Lemma posts_cons ev evs : posts (ev :: evs) = posts [ev] ++ posts evs.
Proof. apply (omap_app _ [ev] evs). Qed.

Lemma loop_run_spec evs s waking handled pending m :
  loop_inv s waking handled pending m -> Forall (event_ok flags) evs ->
  amount handled + amount (pending ++ posts evs) < 2 ^ 30 ->
  exists s' waking' handled' pending' m',
    loop_run evs (s, waking) = Ok (s', waking') /\ loop_inv s' waking' handled' pending' m' /\
    handled' ++ pending' = handled ++ pending ++ posts evs.
Proof.
  intros Hi He. revert s waking handled pending m Hi.
  induction He as [|ev evs Hev He IH]; intros s waking handled pending m Hi Hb.
  - exists s, waking, handled, pending, m. by rewrite app_nil_r.
  - rewrite posts_cons in *. rewrite !amount_app in Hb. pose proof (amount_nonneg (posts evs)).
    destruct (loop_step_spec ev s waking handled pending m Hi Hev) as (s1 & w1 & h1 & p1 & m1 & E & Hi1 & Eh);
      [rewrite amount_app; lia|].
    destruct (IH s1 w1 h1 p1 m1 Hi1) as (s2 & w2 & h2 & p2 & m2 & E' & Hi2 & Eh').
    { apply (f_equal amount) in Eh. rewrite !amount_app in *. lia. }
    exists s2, w2, h2, p2, m2. cbn [loop_run]. rewrite E. cbn [mbind result_bind].
    split; [done|]. split; [done|]. by rewrite Eh', app_assoc, Eh, !app_assoc.
Qed.

Lemma started_inv c sv0 flag :
  inv c -> loop_inv (started c sv0 flag) 0 [] [] ∅.
Proof.
  intros Hc. split; try done.
  - split; [by exists c|done].
  - split; [done|]. split; [done|]. intros fd. cbn. rewrite get_new, lookup_empty. split; [done|].
    by intros [? ?].
Qed.

End inv.
