(* ===== verification/EventLoopRun.v ===== *)
(** * The event loop end to end

    The properties of the loop, tried with a client that keeps what it receives. *)

From S2P Require Import Prelude FastBuffer Queues EventLoop EventLoopSpec.

(** A read event with nothing but data gives the client one buffer with all
    the bytes, in order, and the port the connection was accepted on; when the
    connection has ended, or failed, it is closed and the client is told, and
    what was read just before is not delivered. *)
Theorem read_delivers {S} `{ILibEvent S} (s : YYLibEvent S) (fd : Z) (st : fd_state) (c : S)
    (chunks : list (list byte)) (last : recv_answer) :
  get_state (lp_fds s) fd = Some st -> lp_callback s = Some c ->
  Forall (fun bs => 0 < zlen bs <= 1024) chunks -> zlen (concat chunks) < 2 ^ 30 ->
  is_data last = false ->
  match last with
  | RecvAgain =>
      match chunks with
      | [] => do_read s fd (map Data chunks ++ [last]) = Ok s
      | _ => exists fb, holds fb (concat chunks) /\
               do_read s fd (map Data chunks ++ [last]) =
                 ('(_, c) ← data_receive c fd fb (listen_port st); Ok (set_callback s (Some c)))
      end
  | _ => do_read s fd (map Data chunks ++ [last]) = free_fd_state s fd
  end.
Proof.
  intros E Ec Hc Hb Hl. unfold do_read. rewrite E.
  destruct (read_loop_data s fd (listen_port st) chunks last None [] Hc Hl new_holds) as (fb & -> & Hfb).
  { rewrite zlen_nil. lia. }
  destruct last as [bs| | |]; [done|..]; cbn [read_loop]; [|done..]. rewrite Ec.
  destruct chunks as [|bs chunks]; [by subst fb|]. destruct Hfb as (b & -> & Hh). by exists b.
Qed.

(** C18: However the loop and the other threads interleave, as long as [send]
    takes all or nothing: the buffers leave the queue in the order they were
    posted; for every buffer still in the queue a flag is in the pipe, or a
    thread is about to put it there; and what the loop does to its connections
    is a run of the abstract machine, in which every connection is a queue of
    bytes, ending with exactly the bytes that wait in the loop's buffers, for
    which writing is scheduled. *)
Theorem posted_bytes_arrive {S} `{ILibEvent S} `{ILibQueueEvent S} (inv : S -> Prop)
    (flags : Z -> Prop) `{!ILibEventLaw S inv flags} (c : S) (sv0 flag : Z) (evs : list loop_event) :
  inv c -> Forall (event_ok flags) evs -> amount (posts evs) < 2 ^ 30 ->
  exists s waking handled pending m,
    loop_run evs (started c sv0 flag, O) = Ok (s, waking) /\
    posts evs = handled ++ pending /\
    Forall2 stands_for pending (lqm_queue (lp_bufqueue s) WRITE_EVENT_FLAG) /\
    length pending = (wakes (lp_pipe s) + waking)%nat /\
    List.filter nonempty handled = deliveries (lp_effects s) /\
    replay (lp_effects s) = Some m /\
    forall fd, conn_rel (get_state (lp_fds s) fd) (m !! fd).
Proof.
  intros Hc He Hb.
  destruct (loop_run_spec inv flags evs _ O [] [] ∅ (started_inv inv flags c sv0 flag Hc) He)
    as (s & w & handled & pending & m & E & [Hr (Hrep & _ & Hcr) Hq Hw Hd _ _] & Eq).
  { cbn. done. }
  exists s, w, handled, pending, m. split; [done|]. split; [by rewrite Eq|].
  do 4 (split; [done|]). intros fd. apply Hcr.
Qed.

(** ** A client *)

Definition log_client : Type := list (Z * list byte * Z).

#[export] Instance log_client_event : ILibEvent log_client := {|
  data_receive := fun c fd fb port => bs ← contents fb; Ok (false, c ++ [(fd, bs, port)]);
  fd_close := fun c fd => Ok (c ++ [(fd, [], 0)]);
|}.

#[export] Instance log_client_queue : ILibQueueEvent log_client := {|
  other_queue_receive := fun c _ => Ok c;
|}.

#[export] Instance log_client_law : ILibEventLaw log_client (fun _ => True) (fun _ => True).
Proof.
  split; cbn.
  - intros c fd fb bs port _ _ Hh _. rewrite (contents_holds _ _ Hh). by eexists _, _.
  - intros c fd _ _. by eexists.
  - intros c _ _ _. by eexists.
Qed.

(** A connection is accepted, greeted by two threads, read from and closed. *)
Definition demo_events : list loop_event :=
  [Accepted 843 5; Post 5 (bytes "hello "); Wake; QueueReadable; Writable 5 SendAgain;
   Post 5 (bytes "world"); QueueReadable; Post 9 (bytes "?"); QueueReadable; QueueReadable; Wake; Wake;
   QueueReadable; Writable 5 SentAll; Readable 5 [Data (bytes "ab"); Data (bytes "c"); RecvAgain];
   WakeOther 2; Post 5 []; Wake].

Example demo_events_run :
  match loop_run demo_events (started ([] : log_client) 3 2, O) with
  | Ok (s, w) =>
      (lp_effects s, lp_callback s, w) =
        ([Opened 5; Queued 5 (bytes "hello "); Queued 5 (bytes "world"); Sent 5 (bytes "hello world")],
         Some [(5, bytes "abc", 843)], O)
  | Err _ => False
  end.
Proof. by vm_compute. Qed.

Lemma posted_bytes_arrive_witness :
  exists s waking handled pending m,
    loop_run demo_events (started ([] : log_client) 3 2, O) = Ok (s, waking) /\
    [(5, bytes "hello "); (5, bytes "world"); (9, bytes "?"); (5, [])] = handled ++ pending /\
    Forall2 stands_for pending (lqm_queue (lp_bufqueue s) WRITE_EVENT_FLAG) /\
    length pending = (wakes (lp_pipe s) + waking)%nat /\
    List.filter nonempty handled = deliveries (lp_effects s) /\
    replay (lp_effects s) = Some m /\
    forall fd, conn_rel (get_state (lp_fds s) fd) (m !! fd).
Proof.
  refine (posted_bytes_arrive (fun _ : log_client => True) (fun _ => True) [] 3 2 demo_events I _ _).
  - repeat (apply List.Forall_cons || apply List.Forall_nil); cbn; done.
  - by vm_compute.
Defined.

Definition demo_loop : YYLibEvent log_client :=
  match do_accept true (started ([] : log_client) 3 2) 843 5 with Ok s => s | Err _ => started [] 3 2 end.

Lemma read_delivers_witness :
  exists fb, holds fb (bytes "abc") /\
    do_read demo_loop 5 (map Data [bytes "ab"; bytes "c"] ++ [RecvAgain]) =
      ('(_, c) ← data_receive [] 5 fb 843; Ok (set_callback demo_loop (Some c))).
Proof.
  refine (read_delivers demo_loop 5 (FdState new_fastbuffer true false 843) []
    [bytes "ab"; bytes "c"] RecvAgain _ _ _ _ _).
  - by vm_compute.
  - done.
  - repeat (apply List.Forall_cons || apply List.Forall_nil); by vm_compute.
  - by vm_compute.
  - done.
Defined.

(** A [send] that takes part of the buffer: the rest is thrown away, and the
    effects are no run of the machine that ends in the loop's state. *)
Example partial_send_loses :
  match loop_run [Accepted 843 5; Post 5 (bytes "hello"); Wake; QueueReadable; Writable 5 (SentPart 2)]
          (started ([] : log_client) 3 2, O) with
  | Ok (s, _) =>
      (fb_size ∘ writebuffer <$> get_state (lp_fds s) 5, (fun m => m !! 5) <$> replay (lp_effects s)) =
        (Some 0, Some (Some (bytes "llo")))
  | Err _ => False
  end.
Proof. by vm_compute. Qed.

(** A buffer posted for a connection that was closed and whose descriptor was
    given to a new one goes to the new one. *)
Example stale_buffer :
  match loop_run [Accepted 843 5; Post 5 (bytes "secret"); Wake; Readable 5 [RecvClosed];
                  Accepted 843 5; QueueReadable; Writable 5 SentAll]
          (started ([] : log_client) 3 2, O) with
  | Ok (s, _) =>
      lp_effects s = [Opened 5; ClosedSocket 5; Opened 5; Queued 5 (bytes "secret"); Sent 5 (bytes "secret")]
  | Err _ => False
  end.
Proof. by vm_compute. Qed.
