(* ===== verification/Logger.v ===== *)
(** * Logging (include/logger.h, include/winlogger.h) and the clock (src/redis/yyredis.cpp)

    A message is formatted into a buffer of 1024 bytes on the stack.  On Linux
    the buffer then goes to [syslog] as its format; on Windows it goes to the
    event log. *)

From S2P Require Import Prelude Digits.

Definition percent : byte := x25.

(** ** Formatting *)

(** The arguments the calls of the program pass. *)
Inductive arg := AInt (z : Z) | AUnsigned (z : Z) | ALong (z : Z) | AStr (s : list byte).

(** What [printf] makes of a format: the conversions the program uses. *)
Fixpoint printf (fmt : list byte) (args : list arg) : result (list byte) :=
  match fmt with
  | [] => Ok []
  | c :: fmt =>
      if bool_decide (c = percent) then
        match fmt, args with
        | x25 :: fmt, _ => t ← printf fmt args; Ok (percent :: t)
        | x64 :: fmt, AInt z :: args => t ← printf fmt args; Ok (print_d z ++ t)
        | x75 :: fmt, AUnsigned z :: args => t ← printf fmt args; Ok (print_u z ++ t)
        | x73 :: fmt, AStr s :: args => t ← printf fmt args; Ok (s ++ t)
        | x6c :: x64 :: fmt, ALong z :: args => t ← printf fmt args; Ok (print_d z ++ t)
        | _, _ => Err Undefined
        end
      else t ← printf fmt args; Ok (c :: t)
  end.

Definition BUF : Z := 1024.

(** [vsnprintf( buf + len, size, ...)]: the text is cut, its whole length returned. *)
Definition vsnprintf (buf : cells) (len size : Z) (text : list byte) : result (Z * cells) :=
  if size =? 0 then Ok (zlen text, buf)
  else
    let s := take (Z.to_nat (size - 1)) text ++ [x00] in
    buf ← memcpy buf len s (zlen s);
    Ok (zlen text, buf).

(** ** Linux *)

Definition LOG_ERR : Z := 3.
Definition LOG_WARNING : Z := 4.
Definition LOG_INFO : Z := 6.
Definition LOG_DEBUG : Z := 7.

(** [syslog( level, buf, NULL )]: [buf] is a format.  [%%] needs no argument, and
    [%m] is the text of [errno]; [%s] reads and [%n] writes through the null
    pointer that is the only argument.  What the C library makes of the rest of a
    format from any other conversion on, with that argument, is [other]. *)
Fixpoint syslog_text (errtext : list byte) (other : list byte -> result (list byte)) (fmt : list byte) :
    result (list byte) :=
  match fmt with
  | [] => Ok []
  | c :: fmt =>
      if bool_decide (c = percent) then
        match fmt with
        | x25 :: fmt => t ← syslog_text errtext other fmt; Ok (percent :: t)
        | x6d :: fmt => t ← syslog_text errtext other fmt; Ok (errtext ++ t)
        | (x73 | x6e) :: _ => Err Undefined
        | _ => other fmt
        end
      else t ← syslog_text errtext other fmt; Ok (c :: t)
  end.

Section linux.
Context (gettid : Z) (errtext : list byte) (other : list byte -> result (list byte)).

(** [Logger::Log], with what reaches the system's log. *)
Definition Log (level : Z) (fmt : list byte) (va : list arg) : result (Z * list byte) :=
  let buf := fresh_cells BUF in
  head ← printf (bytes "Logger::Log[%ld] ") [ALong gettid];
  '(n, buf) ← vsnprintf buf 0 (u64 (BUF - 0)) head;
  let len := i32 (0 + n) in
  text ← printf fmt va;
  '(n, buf) ← vsnprintf buf len (u64 (BUF - len)) text;
  s ← cell_text buf;
  m ← syslog_text errtext other s;
  Ok (level, m).

Definition Debug := Log LOG_DEBUG.
Definition Info := Log LOG_INFO.
Definition Warn := Log LOG_WARNING.
Definition Error_ := Log LOG_ERR.
End linux.

(** ** Windows *)

Definition EVENTLOG_SUCCESS : Z := 0.
Definition EVENTLOG_ERROR_TYPE : Z := 1.
Definition EVENTLOG_WARNING_TYPE : Z := 2.
Definition EVENTLOG_INFORMATION_TYPE : Z := 4.
Definition EVENTLOG_AUDIT_SUCCESS : Z := 8.

Definition types : list (Z * Z) :=
  [(LOG_WARNING, EVENTLOG_WARNING_TYPE); (LOG_ERR, EVENTLOG_ERROR_TYPE);
   (LOG_DEBUG, EVENTLOG_AUDIT_SUCCESS); (LOG_INFO, EVENTLOG_INFORMATION_TYPE)].

(** The loop over [types]. *)
Fixpoint event_type (l : list (Z * Z)) (level type : Z) : Z :=
  match l with [] => type | (v, t) :: l => if v =? level then t else event_type l level type end.

(** [vsnprintf_s( buf + len, size, size, ...)]: a text that does not fit is an
    invalid parameter, which ends the process. *)
Definition vsnprintf_checked (buf : cells) (len size : Z) (text : list byte) : result (Z * cells) :=
  if size <=? zlen text then Err AssertFailed
  else buf ← memcpy buf len (text ++ [x00]) (zlen text + 1); Ok (zlen text, buf).

(** [_handle()], the sources that are registered, the events, and how many reports failed. *)
Record win_log := WinLog {
  wl_handle : option nat;
  wl_sources : list nat;
  wl_events : list (Z * list byte);
  wl_failed : nat;
}.

Definition new_win_log : win_log := WinLog None [] [] 0.

(** [h]: what [RegisterEventSourceA] returns. *)
Definition win_openlog (h : option nat) (w : win_log) : win_log :=
  WinLog h (option_list h ++ wl_sources w) (wl_events w) (wl_failed w).

(** The handle is kept. *)
Definition win_closelog (w : win_log) : win_log :=
  WinLog (wl_handle w) (filter (fun h => Some h <> wl_handle w) (wl_sources w)) (wl_events w) (wl_failed w).

Definition win_Log (level : Z) (fmt : list byte) (va : list arg) (w : win_log) : result win_log :=
  match wl_handle w with
  | None => Ok w
  | Some h =>
      buf ← memset (fresh_cells BUF) 0 x00 BUF;
      head ← printf (bytes "Logger::Log[%ld]") [ALong 100];
      '(n, buf) ← vsnprintf_checked buf 0 (u32 (BUF - 0)) head;
      let len := i32 (0 + n) in
      text ← printf fmt va;
      '(n, buf) ← vsnprintf_checked buf len (u32 (BUF - len)) text;
      let type := event_type types level EVENTLOG_SUCCESS in
      s ← cell_text buf;
      Ok (if bool_decide (h ∈ wl_sources w)
          then WinLog (wl_handle w) (wl_sources w) (wl_events w ++ [(type, s)]) (wl_failed w)
          else WinLog (wl_handle w) (wl_sources w) (wl_events w) (S (wl_failed w)))
  end.

(** ** The clock *)

(** [COMMON::GetTickCount]: milliseconds, from the seconds and microseconds of
    [gettimeofday].  This is the Linux branch, and the only place where [long] has
    the 64 bits of that system; [Server.GetTickCount] is a parameter instead. *)
Definition GetTickCount (tv : option (Z * Z)) : result Z :=
  match tv with
  | None => Ok 0
  | Some (tv_sec, tv_usec) => s ← chk64 (tv_sec * 1000); t ← chk64 (s + Z.quot tv_usec 1000); Ok (u32 t)
  end.

(** ** What is logged *)

Lemma memcpy_over (m : cells) off s :
  0 <= off -> off + zlen s <= zlen m ->
  exists rest, memcpy m off s (zlen s) = Ok (take (Z.to_nat off) m ++ (Some <$> s) ++ rest) /\ zlen rest = zlen m - off - zlen s.
Proof.
  intros H0 H1. unfold memcpy. rewrite (proj2 (Z.leb_le 0 _)), (proj2 (Z.leb_le (zlen s) _)) by (apply zlen_nonneg || lia).
  cbn [andb]. rewrite to_nat_zlen, firstn_all. unfold blit.
  rewrite (proj2 (Z.leb_le 0 off)), (proj2 (Z.leb_le (off + _) _)) by len_lia. cbn [andb].
  eexists. split; [done|]. len_lia.
Qed.

Lemma vsnprintf_spec (m : cells) off text :
  0 <= off < zlen m -> zlen m < 2 ^ 31 ->
  exists rest, vsnprintf m off (zlen m - off) text =
    Ok (zlen text, take (Z.to_nat off) m ++ (Some <$> (take (Z.to_nat (zlen m - off - 1)) text ++ [x00])) ++ rest) /\
    zlen rest = zlen m - off - (Z.min (zlen m - off - 1) (zlen text) + 1).
Proof.
  intros H0 H1. unfold vsnprintf. rewrite (proj2 (Z.eqb_neq _ _)) by lia.
  set (s := take _ text ++ _). assert (Hs : zlen s = Z.min (zlen m - off - 1) (zlen text) + 1) by (unfold s; len_lia).
  destruct (memcpy_over m off s) as (rest & -> & Hr); [lia|lia|]. cbn [mbind result_bind]. exists rest. split; [done|lia].
Qed.

Lemma syslog_plain errtext other t u :
  (percent ∉ t) -> syslog_text errtext other (t ++ u) = (r ← syslog_text errtext other u; Ok (t ++ r)).
Proof.
  induction t as [|c t IH]; intros Ht; cbn [app syslog_text]; [by destruct (syslog_text errtext other u)|].
  apply not_elem_of_cons in Ht as [Hc Ht]. rewrite bool_decide_eq_false_2 by done. rewrite (IH Ht).
  by destruct (syslog_text errtext other u).
Qed.

Definition prefix (tid : Z) : list byte := bytes "Logger::Log[" ++ print_d tid ++ bytes "] ".

Lemma not_elem_of_take {A} (x : A) n l : x ∉ l -> x ∉ take n l.
Proof. intros Hx Hin. apply Hx. rewrite <- (take_drop n l). apply elem_of_app. by left. Qed.

Lemma printf_prefix tid : printf (bytes "Logger::Log[%ld] ") [ALong tid] = Ok (prefix tid).
Proof. done. Qed.

(** The message is formatted into the buffer, cut at 1023 bytes, and formatted again. *)
Lemma log_text tid errtext other level fmt va text :
  - 2 ^ 31 <= tid < 2 ^ 31 -> printf fmt va = Ok text -> (x00 ∉ text) -> zlen text < 2 ^ 31 ->
  Log tid errtext other level fmt va =
    (m ← syslog_text errtext other (take 1023 (prefix tid ++ text)); Ok (level, m)).
Proof.
  intros Htid Hfmt H0 Hlen. unfold Log. rewrite printf_prefix. cbn [mbind result_bind].
  destruct (print_d_text tid Htid) as [Hp0 Hpl].
  assert (Hpre : zlen (prefix tid) <= 30 /\ (x00 ∉ prefix tid) /\ 0 < zlen (prefix tid)).
  { unfold prefix. rewrite !zlen_app. change (zlen (bytes "Logger::Log[")) with 12. change (zlen (bytes "] ")) with 2.
    pose proof (zlen_nonneg (print_d tid)). split; [lia|]. split; [|lia].
    rewrite !elem_of_app. intros [Hin|[Hin|Hin]]; [|done|]; revert Hin; apply (bool_decide_unpack _); by vm_compute. }
  destruct Hpre as (Hpre & Hpre0 & Hpre1). set (p := prefix tid) in *.
  change (u64 (BUF - 0)) with (zlen (fresh_cells BUF) - 0).
  destruct (vsnprintf_spec (fresh_cells BUF) 0 p) as (rest & -> & Hr); [by vm_compute|by vm_compute|].
  change (zlen (fresh_cells BUF)) with 1024 in *. cbn [mbind result_bind].
  rewrite take_0, (take_ge p) by len_lia. cbn [app]. rewrite Z.add_0_l, i32_small, Hfmt by lia. cbn [mbind result_bind].
  set (m1 := (Some <$> (p ++ [x00])) ++ rest). assert (Hm1 : zlen m1 = 1024) by (unfold m1; len_lia).
  assert (u64 (BUF - zlen p) = zlen m1 - zlen p) as -> by (rewrite Hm1; apply wrapU_small; unfold BUF; lia).
  destruct (vsnprintf_spec m1 (zlen p) text) as (rest2 & -> & _); [lia|lia|]. cbn [mbind result_bind].
  replace (take (Z.to_nat (zlen p)) m1) with (Some <$> p).
  2: { unfold m1. rewrite fmap_app, <- app_assoc, take_app_le by len_lia. rewrite take_ge by len_lia. done. }
  rewrite app_assoc, <- fmap_app, app_assoc, cell_text_spec.
  - cbn [mbind result_bind]. do 2 f_equal. rewrite (take_app_ge p) by len_lia. do 2 f_equal. rewrite Hm1. len_lia.
  - rewrite elem_of_app. intros [Hin|Hin]; [done|]. revert Hin. by apply not_elem_of_take.
Qed.

(** [LoginCmd] logs the account the client sent, accepted or not. *)
Definition login_accepted : list byte := bytes "YY_JSON_LOGIN logined fd=%d, uid=%u, account:%s, logintime=%u".
Definition login_refused : list byte :=
  bytes "YY_JSON_LOGIN logined whileList failed fd=%d, uid=%u, account:%s, logintime=%u".

Definition log_login (tid : Z) (errtext : list byte) (other : list byte -> result (list byte)) (accepted : bool)
    (fd uid loginTime : Z) (account : list byte) : result (Z * list byte) :=
  Info tid errtext other (if accepted then login_accepted else login_refused) [AInt fd; AUnsigned uid; AStr account; AUnsigned loginTime].

Definition login_head (accepted : bool) (fd uid : Z) : list byte :=
  (if accepted then bytes "YY_JSON_LOGIN logined fd=" else bytes "YY_JSON_LOGIN logined whileList failed fd=") ++
  print_d fd ++ bytes ", uid=" ++ print_u uid ++ bytes ", account:".
Definition login_tail (loginTime : Z) : list byte := bytes ", logintime=" ++ print_u loginTime.

Lemma printf_plain t u args : (percent ∉ t) -> printf (t ++ u) args = (r ← printf u args; Ok (t ++ r)).
Proof.
  induction t as [|c t IH]; intros Ht; cbn [app printf]; [by destruct (printf u args)|].
  apply not_elem_of_cons in Ht as [Hc Ht]. rewrite bool_decide_eq_false_2 by done. rewrite (IH Ht). by destruct (printf u args).
Qed.

Lemma printf_login (accepted : bool) fd uid loginTime account :
  printf (if accepted then login_accepted else login_refused) [AInt fd; AUnsigned uid; AStr account; AUnsigned loginTime]
  = Ok (login_head accepted fd uid ++ account ++ login_tail loginTime).
Proof.
  replace (if accepted then login_accepted else login_refused) with
    ((if accepted then bytes "YY_JSON_LOGIN logined fd=" else bytes "YY_JSON_LOGIN logined whileList failed fd=") ++ percent :: x64 ::
     bytes ", uid=" ++ percent :: x75 :: bytes ", account:" ++ percent :: x73 :: bytes ", logintime=" ++ percent :: x75 :: []) by by destruct accepted.
  unfold login_head, login_tail.
  rewrite printf_plain by (destruct accepted; apply (bool_decide_unpack _); by vm_compute). cbn [printf percent].
  rewrite bool_decide_eq_true_2 by done. rewrite printf_plain by (apply (bool_decide_unpack _); by vm_compute). cbn [printf percent].
  rewrite bool_decide_eq_true_2 by done. rewrite printf_plain by (apply (bool_decide_unpack _); by vm_compute). cbn [printf percent].
  rewrite bool_decide_eq_true_2 by done. rewrite printf_plain by (apply (bool_decide_unpack _); by vm_compute). cbn [printf percent].
  rewrite bool_decide_eq_true_2 by done. cbn [mbind result_bind]. by rewrite !app_nil_r, <- !app_assoc.
Qed.

Lemma login_head_text accepted fd uid :
  - 2 ^ 31 <= fd < 2 ^ 31 -> 0 <= uid < 2 ^ 32 ->
  zlen (login_head accepted fd uid) <= 80 /\ (x00 ∉ login_head accepted fd uid) /\ (percent ∉ login_head accepted fd uid).
Proof.
  intros Hfd Huid. destruct (print_d_text fd Hfd) as [_ Hl]. pose proof (print_u_length 10 uid ltac:(lia) ltac:(lia)) as Hu.
  assert (Hd : forall b, isdigit b = false -> b <> x2d -> (b ∉ print_d uid)) by (intros; by apply print_d_no).
  assert (Eu : print_d uid = print_u uid) by (unfold print_d; by rewrite (proj2 (Z.ltb_ge _ _)) by lia). rewrite Eu in Hd.
  unfold login_head. split; [|split].
  - rewrite !zlen_app. change (zlen (bytes ", uid=")) with 6. change (zlen (bytes ", account:")) with 10.
    assert (zlen (if accepted then bytes "YY_JSON_LOGIN logined fd=" else bytes "YY_JSON_LOGIN logined whileList failed fd=") <= 42)
      by (by destruct accepted). lia.
  - rewrite !elem_of_app. intros [Hin|[Hin|[Hin|[Hin|Hin]]]]; [|by apply print_d_no in Hin| |by apply Hd in Hin|]; revert Hin;
      destruct accepted; apply (bool_decide_unpack _); by vm_compute.
  - rewrite !elem_of_app. intros [Hin|[Hin|[Hin|[Hin|Hin]]]]; [|by apply print_d_no in Hin| |by apply Hd in Hin|]; revert Hin;
      destruct accepted; apply (bool_decide_unpack _); by vm_compute.
Qed.

Lemma login_tail_text t : 0 <= t < 2 ^ 32 -> zlen (login_tail t) <= 22 /\ (x00 ∉ login_tail t) /\ (percent ∉ login_tail t).
Proof.
  intros Ht. pose proof (print_u_length 10 t ltac:(lia) ltac:(lia)) as Hu.
  assert (Eu : print_d t = print_u t) by (unfold print_d; by rewrite (proj2 (Z.ltb_ge _ _)) by lia).
  unfold login_tail. rewrite <- Eu in *. split; [|split].
  - rewrite !zlen_app. change (zlen (bytes ", logintime=")) with 12. lia.
  - rewrite elem_of_app. intros [Hin|Hin]; [revert Hin; apply (bool_decide_unpack _); by vm_compute|by apply print_d_no in Hin].
  - rewrite elem_of_app. intros [Hin|Hin]; [revert Hin; apply (bool_decide_unpack _); by vm_compute|by apply print_d_no in Hin].
Qed.

Lemma prefix_text tid : - 2 ^ 31 <= tid < 2 ^ 31 -> zlen (prefix tid) <= 25 /\ (percent ∉ prefix tid).
Proof.
  intros Htid. destruct (print_d_text tid Htid) as [_ Hl]. unfold prefix. split.
  - rewrite !zlen_app. change (zlen (bytes "Logger::Log[")) with 12. change (zlen (bytes "] ")) with 2. lia.
  - rewrite !elem_of_app. intros [Hin|[Hin|Hin]]; [|by apply print_d_no in Hin|]; revert Hin; apply (bool_decide_unpack _); by vm_compute.
Qed.

(** C39: On Linux, where [Logger::Log] gives [syslog] the message as its format,
    the account a client sends is part of a format.  [LoginCmd] logs every login,
    accepted or refused.  When the account holds no percent sign the log gets the
    line that is meant, cut at 1023 bytes, whatever the account's length; but when
    its first percent sign is among the first 901 bytes, so that it is not cut off,
    and starts a [%s] or a [%n], [syslog] reads or writes through a null pointer,
    and the behaviour of the server is undefined, though the login be refused. *)
Theorem login_is_logged tid errtext other accepted fd uid loginTime account :
  - 2 ^ 31 <= tid < 2 ^ 31 -> - 2 ^ 31 <= fd < 2 ^ 31 -> 0 <= uid < 2 ^ 32 -> 0 <= loginTime < 2 ^ 32 ->
  (x00 ∉ account) -> zlen account < 2 ^ 30 ->
  ((percent ∉ account) ->
     log_login tid errtext other accepted fd uid loginTime account =
       Ok (LOG_INFO, take 1023 (prefix tid ++ login_head accepted fd uid ++ account ++ login_tail loginTime))) /\
  (forall a c b, account = a ++ percent :: c :: b -> (percent ∉ a) -> zlen a <= 900 -> c = x73 \/ c = x6e ->
     log_login tid errtext other accepted fd uid loginTime account = Err Undefined).
Proof.
  intros Htid Hfd Huid Htime H0 Hlen. destruct (prefix_text tid Htid) as [Pl Pp].
  destruct (login_head_text accepted fd uid Hfd Huid) as (Hl & Hn & Hp). destruct (login_tail_text loginTime Htime) as (Tl & Tn & Tp).
  unfold log_login, Info.
  rewrite (log_text tid errtext other _ _ _ _ Htid (printf_login accepted fd uid loginTime account));
    [|by rewrite !elem_of_app; tauto|rewrite !zlen_app; lia].
  set (P := prefix tid) in *. set (H := login_head accepted fd uid) in *. set (T := login_tail loginTime) in *. split.
  - intros Hacc. rewrite <- (app_nil_r (take 1023 _)), syslog_plain; [by cbn; rewrite app_nil_r|].
    apply not_elem_of_take. rewrite !elem_of_app. tauto.
  - intros a c b -> Ha Hal Hc.
    replace (P ++ H ++ (a ++ percent :: c :: b) ++ T) with ((P ++ H ++ a) ++ percent :: c :: b ++ T) by (by rewrite <- !app_assoc).
    rewrite take_app_ge by len_lia.
    assert (Hk : exists k, (1023 - length (P ++ H ++ a) = S (S k))%nat) by (exists (1021 - length (P ++ H ++ a))%nat; len_lia).
    destruct Hk as [k ->]. cbn [take].
    rewrite syslog_plain by (rewrite !elem_of_app; tauto). cbn [syslog_text].
    rewrite bool_decide_eq_true_2 by done. by destruct Hc as [-> | ->].
Qed.

Lemma login_is_logged_witness :
  log_login 4711 [] (fun _ => Ok []) false 9 1 5 (bytes "%n") = Err Undefined.
Proof.
  refine (proj2 (login_is_logged 4711 [] (fun _ => Ok []) false 9 1 5 (bytes "%n") _ _ _ _ _ _) [] x6e [] _ _ _ (or_intror _));
    try lia; try done;
    try (apply (bool_decide_unpack _); by vm_compute).
Defined.

(** ** The event log *)

Lemma cell_text_zeros (s : list byte) n : (x00 ∉ s) -> (0 < n)%nat -> cell_text ((Some <$> s) ++ replicate n (Some x00)) = Ok s.
Proof.
  intros H0 Hn. destruct n as [|n]; [lia|]. cbn [replicate].
  rewrite <- (cell_text_spec s (replicate n (Some x00)) H0). by rewrite fmap_app, <- app_assoc.
Qed.

Definition win_prefix : list byte := bytes "Logger::Log[100]".

Lemma win_log_text level fmt va text h w :
  wl_handle w = Some h -> printf fmt va = Ok text -> (x00 ∉ text) ->
  win_Log level fmt va w =
    if 1008 <=? zlen text then Err AssertFailed
    else let e := (event_type types level EVENTLOG_SUCCESS, win_prefix ++ text) in
      Ok (if bool_decide (h ∈ wl_sources w) then WinLog (wl_handle w) (wl_sources w) (wl_events w ++ [e]) (wl_failed w)
          else WinLog (wl_handle w) (wl_sources w) (wl_events w) (S (wl_failed w))).
Proof.
  intros Hh Hfmt H0. unfold win_Log. rewrite Hh.
  assert (Ebuf : memset (fresh_cells BUF) 0 x00 BUF = Ok (replicate 1024 (Some x00))) by (by vm_compute).
  rewrite Ebuf. cbn [mbind result_bind]. change (printf (bytes "Logger::Log[%ld]") [ALong 100]) with (Ok win_prefix). cbn [mbind result_bind].
  assert (E1 : vsnprintf_checked (replicate 1024 (Some x00)) 0 (u32 (BUF - 0)) win_prefix =
    Ok (16, (Some <$> win_prefix) ++ replicate 1008 (Some x00))) by (by vm_compute).
  rewrite E1. cbn [mbind result_bind]. rewrite Hfmt. cbn [mbind result_bind]. change (i32 (0 + 16)) with 16. change (u32 (BUF - 16)) with 1008.
  unfold vsnprintf_checked. destruct (Z.leb_spec 1008 (zlen text)) as [|Hlt]; [done|]. pose proof (zlen_nonneg text).
  set (m := (Some <$> win_prefix) ++ replicate 1008 (Some x00)).
  assert (Hm : zlen m = 1024) by (by vm_compute).
  assert (Ecpy : memcpy m 16 (text ++ [x00]) (zlen text + 1) =
    Ok ((Some <$> win_prefix ++ text) ++ replicate (S (Z.to_nat (1007 - zlen text))) (Some x00))).
  { unfold memcpy. rewrite (proj2 (Z.leb_le 0 _)), (proj2 (Z.leb_le _ (zlen (text ++ [x00])))) by len_lia. cbn [andb].
    rewrite take_ge by len_lia. unfold blit. rewrite (proj2 (Z.leb_le 0 16)), (proj2 (Z.leb_le _ (zlen m))) by (try rewrite Hm; len_lia).
    cbn [andb]. f_equal. change (take (Z.to_nat 16) m) with (Some <$> win_prefix).
    rewrite !fmap_app, <- !app_assoc. do 2 f_equal. cbn [fmap list_fmap app replicate]. f_equal.
    rewrite <- drop_drop. change (drop (Z.to_nat 16) m) with (replicate 1008 (Some x00)). rewrite drop_replicate. f_equal. len_lia. }
  rewrite Ecpy. cbn [mbind result_bind]. rewrite cell_text_zeros; [done| |lia].
  rewrite elem_of_app. intros [Hin|Hin]; [revert Hin; apply (bool_decide_unpack _); by vm_compute|done].
Qed.

(** A message: its level, format and arguments, and the text they make. *)
Record message := Message { ms_level : Z; ms_fmt : list byte; ms_args : list arg; ms_text : list byte }.
Definition message_ok (m : message) : Prop := printf (ms_fmt m) (ms_args m) = Ok (ms_text m) /\ (x00 ∉ ms_text m).

Fixpoint win_logs (ms : list message) (w : win_log) : result win_log :=
  match ms with [] => Ok w | m :: ms => w ← win_Log (ms_level m) (ms_fmt m) (ms_args m) w; win_logs ms w end.

Definition event_of (m : message) : Z * list byte := (event_type types (ms_level m) EVENTLOG_SUCCESS, win_prefix ++ ms_text m).
Definition fits_event (m : message) : bool := zlen (ms_text m) <? 1008.

Lemma win_logs_spec ms : forall h w,
  Forall message_ok ms -> wl_handle w = Some h ->
  win_logs ms w =
    if forallb fits_event ms then
      Ok (if bool_decide (h ∈ wl_sources w)
          then WinLog (wl_handle w) (wl_sources w) (wl_events w ++ map event_of ms) (wl_failed w)
          else WinLog (wl_handle w) (wl_sources w) (wl_events w) (length ms + wl_failed w))
    else Err AssertFailed.
Proof.
  induction ms as [|m ms IH]; intros h w Hms Hh; cbn [win_logs forallb map length].
  { destruct w; cbn. rewrite app_nil_r. by destruct (bool_decide _). }
  apply Forall_cons in Hms as [[Hf H0] Hms]. rewrite (win_log_text _ _ _ _ h w Hh Hf H0). unfold fits_event at 1.
  destruct (Z.leb_spec 1008 (zlen (ms_text m))) as [Hge|Hlt]; [by rewrite (proj2 (Z.ltb_ge _ _))|].
  rewrite (proj2 (Z.ltb_lt _ _)) by done. cbn [mbind result_bind andb].
  destruct (bool_decide (h ∈ wl_sources w)) eqn:Es; rewrite (IH h) by done; cbn [wl_handle wl_sources wl_events wl_failed]; rewrite Es.
  - by rewrite <- app_assoc.
  - by rewrite Nat.add_succ_r.
Qed.

Lemma win_logs_none ms w : wl_handle w = None -> win_logs ms w = Ok w.
Proof. induction ms as [|m ms IH]; intros Hw; [done|]. cbn [win_logs]. unfold win_Log. rewrite Hw. by apply IH. Qed.

(** A session with the event log of Windows: between opening and closing it,
    every message becomes an event of its type, in order and whole, if all of them
    are shorter than 1008 bytes; a longer one, such as a login with an account of
    that length, ends the process.  What is logged after the log is closed becomes
    no event, since the handle stays, and without a handle nothing is logged at
    all. *)
Theorem event_log_session (h : option nat) (ms late : list message) :
  Forall message_ok ms -> Forall message_ok late -> forallb fits_event late = true ->
  (w ← win_logs ms (win_openlog h new_win_log); win_logs late (win_closelog w)) =
    match h with
    | Some i => if forallb fits_event ms then Ok (WinLog h [] (map event_of ms) (length late)) else Err AssertFailed
    | None => Ok (WinLog None [] [] 0)
    end.
Proof.
  intros Hms Hlate Hfit. destruct h as [i|].
  - rewrite (win_logs_spec ms i) by done. destruct (forallb fits_event ms); [|done]. cbn [win_openlog option_list wl_sources new_win_log wl_handle].
    rewrite bool_decide_eq_true_2 by (by left). cbn [mbind result_bind].
    rewrite (win_logs_spec late i), Hfit by done. unfold win_closelog, win_openlog. cbn [wl_handle wl_sources wl_events wl_failed new_win_log option_list app].
    change (option_list (Some i) ++ []) with [i]. rewrite filter_cons_False by (intros Hn; by apply Hn). rewrite filter_nil.
    by rewrite bool_decide_eq_false_2, Nat.add_0_r by apply not_elem_of_nil.
  - rewrite win_logs_none by done. cbn [mbind result_bind]. by rewrite win_logs_none.
Qed.

Definition demo_messages : list message :=
  [Message LOG_INFO (bytes "port %d, %s") [AInt 9000; AStr (bytes "ok")] (bytes "port 9000, ok");
   Message LOG_ERR (bytes "init error") [] (bytes "init error")].

Lemma event_log_session_witness :
  (w ← win_logs demo_messages (win_openlog (Some 7%nat) new_win_log); win_logs [Message LOG_INFO [] [] []] (win_closelog w)) =
    Ok (WinLog (Some 7%nat) [] [(EVENTLOG_INFORMATION_TYPE, bytes "Logger::Log[100]port 9000, ok");
                               (EVENTLOG_ERROR_TYPE, bytes "Logger::Log[100]init error")] 1).
Proof.
  refine (event_log_session (Some 7%nat) demo_messages [Message LOG_INFO [] [] []] _ _ _).
  - repeat constructor; cbn; apply (bool_decide_unpack _); by vm_compute.
  - repeat constructor; cbn; apply (bool_decide_unpack _); by vm_compute.
  - reflexivity.
Defined.

(** A login whose account is long ends the process on Windows. *)
Example long_account :
  win_Log LOG_INFO login_refused [AInt 9; AUnsigned 1; AStr (repeat x61 1000); AUnsigned 5] (win_openlog (Some 7%nat) new_win_log)
  = Err AssertFailed.
Proof. vm_compute. reflexivity. Qed.

(** ** Elapsed time *)

(** Milliseconds since the epoch. *)
Definition millis (tv : Z * Z) : Z := tv.1 * 1000 + tv.2 / 1000.
Definition clock_time (tv : Z * Z) : Prop := 0 <= tv.1 < 2 ^ 40 /\ 0 <= tv.2 < 1000000.

Lemma GetTickCount_millis tv : clock_time tv -> GetTickCount (Some tv) = Ok (u32 (millis tv)).
Proof.
  destruct tv as [s u]. intros [Hs Hu]. cbn in *. unfold millis. cbn [fst snd]. rewrite chk64_ok by lia. cbn [mbind result_bind].
  rewrite Z.quot_div_nonneg by lia. pose proof (Z.div_le_upper_bound u 1000 1000 ltac:(lia) ltac:(lia)).
  pose proof (Z.div_pos u 1000 ltac:(lia) ltac:(lia)). rewrite chk64_ok by lia. done.
Qed.

Lemma u32_elapsed a b : 0 <= b - a < 2 ^ 32 -> u32 (u32 b - u32 a) = b - a.
Proof.
  intros H. unfold wrapU. rewrite Zminus_mod_idemp_l, Zminus_mod_idemp_r. by apply Z.mod_small.
Qed.
