(* ===== verification/Redis.v ===== *)
(** * The redis client of the server (src/redis/yyredis.h, src/redis/yyredis.cpp)

    [YYRedis] keeps one connection to the redis server, which the event loop
    drives, and a queue of commands that other threads fill: for every command
    they send the loop a flag, and for every flag the loop takes one command.
    The contexts of hiredis live in [yr_ctxs]; [_c] is the address of the one
    commands are issued on.  What the functions of the client do is played from
    the events a call of hiredis leaves ([on_event]): none of them calls hiredis. *)

From S2P Require Import Prelude Digits Sds Resp Reply ReplyHeap Reader Format Dict Socket Net Context.
From S2P Require Import Callbacks Async Queues EventLoop.

Definition REDIS_EVENT_FLAG : Z := 2.

Record QueueItem := Token {
  q_format : list byte;
  q_privdata : voidptr;
}.

Definition new_QueueItem : QueueItem := Token [] Null.

(** The object; behind it the contexts of hiredis and what is around them, the
    flags on their way to the loop, and the calls of the client's method with
    the replies it can see. *)
Record YYRedis := Redis {
  yr_queue : LockQueue QueueItem;
  _c : option nat;
  _base : bool;
  _connecting : bool;
  _delayConnectTime : Z;
  _delayDisconnect : Z;
  _ip : list byte;
  _port : Z;
  yr_ctxs : gmap nat redisAsyncContext;
  yr_next : nat;
  yr_env : env;
  yr_ticks : nat;
  yr_flags : nat;
  yr_calls : list (reply_heap * voidptr * voidptr);
}.

(** The functions given to hiredis. *)
Definition getCallback : nat := 0%nat.
Definition connectCallback : nat := 1%nat.
Definition disconnectCallback : nat := 2%nat.

Definition set_state (st : YYRedis) c connecting delayDisconnect ticks : YYRedis :=
  Redis (yr_queue st) c (_base st) connecting (_delayConnectTime st) delayDisconnect (_ip st) (_port st)
    (yr_ctxs st) (yr_next st) (yr_env st) ticks (yr_flags st) (yr_calls st).
Definition set_queue (st : YYRedis) q flags : YYRedis :=
  Redis q (_c st) (_base st) (_connecting st) (_delayConnectTime st) (_delayDisconnect st) (_ip st) (_port st)
    (yr_ctxs st) (yr_next st) (yr_env st) (yr_ticks st) flags (yr_calls st).
Definition set_lib (st : YYRedis) ctxs next e : YYRedis :=
  Redis (yr_queue st) (_c st) (_base st) (_connecting st) (_delayConnectTime st) (_delayDisconnect st) (_ip st)
    (_port st) ctxs next e (yr_ticks st) (yr_flags st) (yr_calls st).
Definition add_call (st : YYRedis) call : YYRedis :=
  Redis (yr_queue st) (_c st) (_base st) (_connecting st) (_delayConnectTime st) (_delayDisconnect st) (_ip st)
    (_port st) (yr_ctxs st) (yr_next st) (yr_env st) (yr_ticks st) (yr_flags st) (yr_calls st ++ [call]).

Section redis.
  Context (strerror : Z -> list byte) (inet_addr : list byte -> Z).
  Context (format_double : conversion -> Z -> Z -> list byte).
  Context (GetTickCount : nat -> Z).

Definition new_YYRedis (e : env) : YYRedis :=
  Redis (new_LockQueue new_QueueItem 0) None false false 0 0 [] 0 ∅ O e O O [].

(** ** Functions called by hiredis *)

Definition redis_tick (st : YYRedis) : Z * YYRedis :=
  (GetTickCount (yr_ticks st),
   set_state st (_c st) (_connecting st) (_delayDisconnect st) (S (yr_ticks st))).

(** A reply of [NULL] is not handed on. *)
Definition on_reply (st : YYRedis) (seen : reply_heap) (reply privdata : voidptr) : YYRedis :=
  match reply with
  | Null => st
  | _ => add_call st (seen, reply, privdata)
  end.

Definition on_connect (st : YYRedis) (l : nat) : YYRedis :=
  set_state st (Some l) false (_delayDisconnect st) (yr_ticks st).

Definition on_disconnect (st : YYRedis) : YYRedis :=
  let '(now, st) := redis_tick st in set_state st None (_connecting st) now (yr_ticks st).

(** The event [ev] of the context at [l]. *)
Definition on_event (l : nat) (st : YYRedis) (ev : event) : YYRedis :=
  match ev with
  | EvConnect _ => on_connect st l
  | EvDisconnect _ _ => on_disconnect st
  | EvCallback _ reply privdata seen => on_reply st seen reply privdata
  | _ => st
  end.

Definition played (l : nat) (evs : list event) (st : YYRedis) : YYRedis := foldl (on_event l) st evs.

(** The functions of the client make no calls of hiredis. *)
Definition no_calls (_ : list event) : list api_call := [].

(** A call of hiredis on the context at [l] that may end it. *)
Definition with_context (st : YYRedis) (l : nat)
    (f : redisAsyncContext -> env -> result ((redisAsyncContext + gmap nat cb_node) * env)) : result YYRedis :=
  ac ← of_option Undefined (yr_ctxs st !! l);
  '(r, e) ← f ac (yr_env st);
  let ctxs := match r with inl ac => <[l := ac]> (yr_ctxs st) | inr _ => delete l (yr_ctxs st) end in
  Ok (played l (drop (length (e_events (yr_env st))) (e_events e)) (set_lib st ctxs (yr_next st) e)).

(** ** Events of the socket (yyredis.cpp) *)

Definition redisLibeventReadEvent (st : YYRedis) (l : nat) : result YYRedis :=
  with_context st l (redisAsyncHandleRead strerror format_double no_calls).

Definition redisLibeventWriteEvent (st : YYRedis) (l : nat) : result YYRedis :=
  with_context st l (redisAsyncHandleWrite strerror format_double no_calls).

(** A context that has just been made has nothing attached. *)
Definition redisLibeventAttach (ac : redisAsyncContext) : redisAsyncContext :=
  ac_set_ev (EventHooks true true true true true) ac.

(** ** The client *)

(** [Init]; it registers the flag with the event loop, through its
    [AddQueueEvent]. *)
Definition redis_Init (st : YYRedis) (ip : list byte) (port : Z) (base : bool) (delayConnectTime : Z) : YYRedis :=
  Redis (yr_queue st) (_c st) base (_connecting st) delayConnectTime (_delayDisconnect st) ip port
    (yr_ctxs st) (yr_next st) (yr_env st) (yr_ticks st) (yr_flags st) (yr_calls st).

(** [_c && _c->c.flags & (REDIS_DISCONNECTING | REDIS_FREEING)] *)
Definition closing_c (st : YYRedis) : result bool :=
  match _c st with
  | None => Ok false
  | Some l =>
      ac ← of_option Undefined (yr_ctxs st !! l);
      Ok (has_flag (ac_flags ac) (Z.lor REDIS_DISCONNECTING REDIS_FREEING))
  end.

(** The first test of [Connect]. *)
Definition busy_connecting (st : YYRedis) : result bool :=
  if _connecting st then Ok true else closing_c st.

(** A context with an error is kept by nobody and not released. *)
Definition redis_Connect (st : YYRedis) : result (bool * YYRedis) :=
  busy ← busy_connecting st;
  if (busy : bool) then Ok (true, st) else
  let '(wait, st) :=
    if _delayDisconnect st =? 0 then (false, st)
    else let '(now, st) := redis_tick st in (u32 (now - _delayDisconnect st) <? _delayConnectTime st, st) in
  if (wait : bool) then Ok (false, st) else
  let '(now, st) := redis_tick st in
  let st := set_state st (_c st) (_connecting st) now (yr_ticks st) in
  '(ac, w) ← redisAsyncConnect strerror inet_addr (_ip st) (_port st) (e_world (yr_env st));
  let e := e_set_world w (yr_env st) in
  let l := yr_next st in
  if negb (ac_err ac =? 0) then Ok (false, set_lib st (<[l := ac]> (yr_ctxs st)) (S l) e) else
  let st := set_state st (_c st) true (_delayDisconnect st) (yr_ticks st) in
  let ac := redisLibeventAttach ac in
  let '(_, ac, e) := redisAsyncSetConnectCallback (Some connectCallback) ac e in
  let '(_, ac) := redisAsyncSetDisconnectCallback (Some disconnectCallback) ac in
  Ok (true, set_lib st (<[l := ac]> (yr_ctxs st)) (S l) e).

(** [Close], as far as its statements go: the method has no [return] although it
    has a result, so that it does not compile on the Windows compilers, and nothing
    in the program calls it. *)
Definition redis_Close (st : YYRedis) : result YYRedis :=
  let st := Redis (yr_queue st) (_c st) false (_connecting st) (_delayConnectTime st) (_delayDisconnect st) (_ip st)
              (_port st) (yr_ctxs st) (yr_next st) (yr_env st) (yr_ticks st) (yr_flags st) (yr_calls st) in
  match _c st with
  | None => Ok st
  | Some l => with_context st l (redisAsyncDisconnect format_double no_calls)
  end.

(** [vsnprintf] of a C library before 2015: the length of the text, or -1 when
    it does not fit; a text of exactly [size] bytes is written without its end. *)
Definition vsnprintf (size : Z) (text : list byte) : Z := if size <? zlen text then -1 else zlen text.

(** The loop of [AsyncSendCommand] that finds a buffer for the [text]. *)
Fixpoint fit_loop (fuel : nat) (size : Z) (text : list byte) : result (list byte) :=
  match fuel with
  | O => Err NoFuel
  | S fuel =>
      let n := vsnprintf size text in
      if (-1 <? n) && (n <? size) then Ok (take (Z.to_nat n) text)
      else size ← chk32 (if -1 <? n then n + 1 else size * 2); fit_loop fuel size text
  end.

(** [AsyncSendCommand]; [text] is what the format prints with its arguments.  The
    call [Connect(_base)] has an argument that [Connect] does not take: the method
    cannot be instantiated as it stands, and this is it with the call [Connect()]
    that can be meant. *)
Definition AsyncSendCommand (st : YYRedis) (privdata : Z) (text : list byte) : result (Z * YYRedis) :=
  match _c st with
  | None =>
      st ← (if _base st then '(_, st) ← redis_Connect st; Ok st else Ok st);
      Ok (REDIS_ERR, st)
  | Some _ =>
      str ← fit_loop 32 256 text;
      match str with
      | [] => Ok (REDIS_ERR_EOF, st)
      | _ => Ok (REDIS_OK, set_queue st (lq_push (yr_queue st) (Token str (Int privdata))) (S (yr_flags st)))
      end
  end.

(** [queue_receive]: the text of the token is a format again, with no arguments. *)
Definition redis_queue_receive (st : YYRedis) (flag : Z) : result YYRedis :=
  if negb (flag =? REDIS_EVENT_FLAG) then Ok st else
  '(status, st) ← (match _c st with
    | Some l =>
        if _base st then
          let '(token, q) := lq_pop (yr_queue st) in
          let st := set_queue st q (yr_flags st) in
          ac ← of_option Undefined (yr_ctxs st !! l);
          '(status, ac, e) ← redisvAsyncCommand format_double (Some getCallback) (q_privdata token)
                               (cstr (q_format token)) [] ac (yr_env st);
          Ok (status, set_lib st (<[l := ac]> (yr_ctxs st)) (yr_next st) e)
        else Ok (REDIS_ERR, st)
    | None => Ok (REDIS_ERR, st)
    end);
  if negb (status =? REDIS_OK) && _base st then '(_, st) ← redis_Connect st; Ok st else Ok st.

(** The loop takes a flag from its pipe. *)
Definition flag_arrives (st : YYRedis) : result YYRedis :=
  match yr_flags st with
  | O => Err Blocked
  | S n => redis_queue_receive (set_queue st (yr_queue st) n) REDIS_EVENT_FLAG
  end.

(** The other user of the event loop's queue. *)
Definition redis_queue_event : ILibQueueEvent YYRedis := {| other_queue_receive := redis_queue_receive |}.

End redis.
