(* ===== verification/Server.v ===== *)
(** * The server (src/yymm_svr/cmdproc.cpp, yymms_svr.cpp, mmsexecmag.cpp)

    [MmsServer] keeps a session, an [Item_data], for every connection that has
    logged in.  The object is shared: the map of the class finds it by
    descriptor, [_userData] by user; both hold its address in [sv_items].  The
    event loop hands what it reads to a worker thread, which parses it and posts
    the answers to the event loop: [sv_posts] lists the buffers posted, an empty
    one asking to close the connection. *)

From S2P Require Import Prelude MemStuff Mysql Socket Net Format Async Redis.
From S2P Require Import Json Ssl FastBuffer Queues Messages Protocol.
From S2P Require Import Sds Resp Reply EventLoop.

(** The configuration and the machine: what the calls of the operating system
    and of OpenSSL's random generator give, what the arrays on the stack hold,
    what the data base answers to each query, and what is around the redis
    client. *)
Record host := Host {
  g_port : Z;
  g_mangport : Z;
  RAND_bytes : nat -> list byte;
  GetTickCount : nat -> Z;
  stack_array : list byte;
  module_name : list byte;
  white_list : nat -> stmt_answers;
  redis_IP : list byte;
  redis_Port : Z;
  redis_env : env;
  redis_clock : nat -> Z;
  h_strerror : Z -> list byte;
  h_inet_addr : list byte -> Z;
  h_format_double : conversion -> Z -> Z -> list byte;
}.

Section server.
  Context `{JsonC} `{OpenSSL} (hst : host).

(** ** State *)

Record Item_data := Item {
  i_fd : Z;
  i_readbuffer : option fastbuffer;
  i_yyID : Z;
  i_uid : Z;
  i_account : list byte;
  i_pwd : list byte;
  i_loginTime : Z;
  i_channelID : option Z;
  i_subChannelID : option Z;
  i_url : list byte;
  i_shellClient_fd : Z;
  i_aes : YYAES;
  i_token : list byte;
  i_rsaStr : list byte;
  i_rsa : YYRSA;
}.

Definition new_Item_data : Item_data :=
  Item 0 None 0 0 [] [] 0 (Some 0) (Some 0) [] 0 new_YYAES [] [] new_YYRSA.

Record BossInfo := Boss {
  bi_buf : option fastbuffer;
  bi_fd : Z;
  bi_port : Z;
}.

Definition new_BossInfo : BossInfo := Boss None 0 0.

(** [thread_data]: the posts its semaphore holds, and the flag. *)
Record thread_data := Thread {
  td_sem : Z;
  td_exitflag : bool;
}.

Record MmsServer := Server {
  sv_states : hash_map Z (option nat);
  sv_userData : hash_map Z (option nat);
  sv_items : gmap nat Item_data;
  sv_next : nat;
  sv_boss : Bossmultiworker BossInfo (option nat);
  sv_threads : gmap nat thread_data;
  sv_threadnum : Z;
  sv_posts : list (Z * list byte);
  sv_execs : list (list byte * list byte);
  sv_queries : list (list byte);
  sv_rands : nat;
  sv_ticks : nat;
  sv_redis : YYRedis;
}.

Definition new_MmsServer : MmsServer :=
  Server (new_hash_map None) (new_hash_map None) ∅ O (new_Bossmultiworker new_BossInfo None) ∅ 0
    [] [] [] O O (new_YYRedis (redis_env hst)).

Definition set_maps (sv : MmsServer) states userData : MmsServer :=
  Server states userData (sv_items sv) (sv_next sv) (sv_boss sv) (sv_threads sv) (sv_threadnum sv)
    (sv_posts sv) (sv_execs sv) (sv_queries sv) (sv_rands sv) (sv_ticks sv) (sv_redis sv).
Definition set_items (sv : MmsServer) items next : MmsServer :=
  Server (sv_states sv) (sv_userData sv) items next (sv_boss sv) (sv_threads sv) (sv_threadnum sv)
    (sv_posts sv) (sv_execs sv) (sv_queries sv) (sv_rands sv) (sv_ticks sv) (sv_redis sv).
Definition set_boss (sv : MmsServer) boss threads : MmsServer :=
  Server (sv_states sv) (sv_userData sv) (sv_items sv) (sv_next sv) boss threads (sv_threadnum sv)
    (sv_posts sv) (sv_execs sv) (sv_queries sv) (sv_rands sv) (sv_ticks sv) (sv_redis sv).
Definition set_outside (sv : MmsServer) posts execs queries rands ticks : MmsServer :=
  Server (sv_states sv) (sv_userData sv) (sv_items sv) (sv_next sv) (sv_boss sv) (sv_threads sv)
    (sv_threadnum sv) posts execs queries rands ticks (sv_redis sv).
Definition set_redis (sv : MmsServer) redis : MmsServer :=
  Server (sv_states sv) (sv_userData sv) (sv_items sv) (sv_next sv) (sv_boss sv) (sv_threads sv)
    (sv_threadnum sv) (sv_posts sv) (sv_execs sv) (sv_queries sv) (sv_rands sv) (sv_ticks sv) redis.

Definition post (sv : MmsServer) (fd : Z) (bs : list byte) : MmsServer :=
  set_outside sv (sv_posts sv ++ [(fd, bs)]) (sv_execs sv) (sv_queries sv) (sv_rands sv) (sv_ticks sv).
Definition exec (sv : MmsServer) (path param : list byte) : MmsServer :=
  set_outside sv (sv_posts sv) (sv_execs sv ++ [(path, param)]) (sv_queries sv) (sv_rands sv) (sv_ticks sv).
Definition query (sv : MmsServer) (sql : list byte) : MmsServer :=
  set_outside sv (sv_posts sv) (sv_execs sv) (sv_queries sv ++ [sql]) (sv_rands sv) (sv_ticks sv).

(** [*state] of a shared pointer. *)
Definition item (sv : MmsServer) (l : nat) : result Item_data :=
  of_option Undefined (sv_items sv !! l).
Definition put_item (sv : MmsServer) (l : nat) (i : Item_data) : MmsServer :=
  set_items sv (<[l := i]> (sv_items sv)) (sv_next sv).

(** ** Sending *)

Definition sendCmd (sv : MmsServer) (fd : Z) (cmd : option YYJ) : result (bool * MmsServer) :=
  '(ok, str) ← FormatCmd cmd [];
  if negb ok || (zlen str =? 0) then Ok (false, sv) else
  fb ← put new_fastbuffer str;
  bs ← contents fb;
  Ok (true, post sv fd bs).

(** ** The shell client (mmsexecmag.cpp) *)

(** The directory of the module: up to the last backslash, which goes too. *)
Fixpoint last_backslash (s : list byte) (p : nat) : nat :=
  match p with
  | O => O
  | S q => if bool_decide (s !! p = Some backslash) then p else last_backslash s q
  end.

Definition module_dir (s : list byte) : list byte := take (last_backslash s (length s)) s.

Definition openURL (sv : MmsServer) (fd : Z) (l : nat) : result MmsServer :=
  i ← item sv l;
  channelID ← initialised (i_channelID i);
  subChannelID ← initialised (i_subChannelID i);
  let resp := MmsOpenUrl (i_uid i) (i_yyID i) channelID subChannelID (i_url i) (i_account i) (i_pwd i) in
  '(_, sv) ← sendCmd sv fd (Some (MMS_OpenUrl resp)); Ok sv.

Definition ShellExec (sv : MmsServer) (l : nat) : result (bool * MmsServer) :=
  i ← item sv l;
  if negb (i_shellClient_fd i =? 0) then Ok (false, sv) else
  let path := module_dir (module_name hst) ++ bytes "/debug/shellclient_d.exe" in
  let paramt := tos_u (i_yyID i) ++ bytes "&127.0.0.1&" ++ tos_u (g_mangport hst) in
  Ok (true, exec sv path paramt).

Definition ShellExit (sv : MmsServer) (l : nat) : result MmsServer :=
  i ← item sv l;
  if i_shellClient_fd i =? 0 then Ok sv else
  '(_, sv) ← sendCmd sv (i_shellClient_fd i) (Some (MMS_Exit (MmsExit (i_yyID i)))); Ok sv.

Definition set_shell (i : Item_data) (fd : Z) : Item_data :=
  Item (i_fd i) (i_readbuffer i) (i_yyID i) (i_uid i) (i_account i) (i_pwd i) (i_loginTime i)
    (i_channelID i) (i_subChannelID i) (i_url i) fd (i_aes i) (i_token i) (i_rsaStr i) (i_rsa i).

(** The loop of [ProcessMmsExecData]. *)
Fixpoint exec_loop (fuel : nat) (sv : MmsServer) (fd : Z) (buf : fastbuffer) : result MmsServer :=
  match fuel with
  | O => Err NoFuel
  | S fuel =>
      '(err, offset, jobj) ← ParseCmd (block buf) (i32 (fb_size buf)) 0;
      '(sv, buf) ← (match err, jobj with
        | YYMMSJSON_ERROR_SUCCESS, Some j =>
            sv ← (match j with
                  | Svr_Init cmd =>
                      match get_state (sv_userData sv) (SvrInit_yyID cmd) with
                      | None => Ok sv
                      | Some l =>
                          i ← item sv l;
                          openURL (put_item sv l (set_shell i fd)) fd l
                      end
                  | _ => Ok sv
                  end);
            buf ← drop_front buf offset;
            Ok (sv, buf)
        | _, _ => Ok (sv, clear buf)
        end);
      if 0 <? fb_size buf then exec_loop fuel sv fd buf else Ok sv
  end.

Definition ProcessMmsExecData (fuel : nat) (sv : MmsServer) (fd : Z) (readbuffer : fastbuffer) :
    result MmsServer :=
  exec_loop fuel sv fd readbuffer.

(** ** Logging in (cmdproc.cpp) *)

Definition white_list_query (uid : Z) : list byte :=
  bytes "SELECT * FROM mms_whitelist WHERE mms_whitelist_uid=" ++ tos_u uid.

(** [CheckWhiteList]: the rows of the answer are read and not used; [mysql] says
    whether there is a connection. *)
Definition CheckWhiteList (sv : MmsServer) (uid : Z) (mysql : bool) : result (bool * MmsServer) :=
  if negb mysql then Ok (false, sv) else
  let an := white_list hst (length (sv_queries sv)) in
  let sv := query sv (white_list_query uid) in
  _ ← read_result plenty (white_list_query uid) an;
  Ok (true, sv).

Definition set_aes (i : Item_data) (aes : YYAES) : Item_data :=
  Item (i_fd i) (i_readbuffer i) (i_yyID i) (i_uid i) (i_account i) (i_pwd i) (i_loginTime i)
    (i_channelID i) (i_subChannelID i) (i_url i) (i_shellClient_fd i) aes (i_token i) (i_rsaStr i)
    (i_rsa i).

(** [RAND_bytes] into an array of 32 bytes. *)
Definition GenAESKey (sv : MmsServer) : list byte * MmsServer :=
  (RAND_bytes hst (sv_rands sv),
   set_outside sv (sv_posts sv) (sv_execs sv) (sv_queries sv) (S (sv_rands sv)) (sv_ticks sv)).

Definition tick (sv : MmsServer) : Z * MmsServer :=
  (GetTickCount hst (sv_ticks sv),
   set_outside sv (sv_posts sv) (sv_execs sv) (sv_queries sv) (sv_rands sv) (S (sv_ticks sv))).

(** [LoginCmd]; the line it logs is in [Logger.log_login]. *)
Definition LoginCmd (sv : MmsServer) (fd : Z) (l : nat) (mysql : bool) : result MmsServer :=
  i ← item sv l;
  '(loginOK, sv) ← CheckWhiteList sv (i_uid i) mysql;
  if negb loginOK then
    '(_, sv) ← sendCmd sv fd (Some (Msg_Login_res (LoginRes loginOK [])));
    Ok (post sv fd [])
  else
    let '(aesString, sv) := GenAESKey sv in
    let sv := put_item sv l (set_aes i (AESSetKey (i_aes i) (Some aesString))) in
    '(ok, comp) ← CompRSA_Format new_CompRSA (Some (Msg_Login_res (LoginRes loginOK aesString))) (i_rsa i);
    if (ok : bool) then '(_, sv) ← sendCmd sv fd (Some (Comp_RSA comp)); Ok sv else Ok sv.

Definition set_login (i : Item_data) (m : YYJson_Login) (rsa : YYRSA) (loginTime : Z) : Item_data :=
  Item (i_fd i) (i_readbuffer i) (Login_yyID m) (i_uid i) (i_account i) (i_pwd i) loginTime
    (i_channelID i) (i_subChannelID i) (i_url i) (i_shellClient_fd i) (i_aes i) (Login_token m)
    (Login_rsakey m) rsa.

(** ** Messages of a session *)

Definition set_user (i : Item_data) (m : YYJson_Login1) : Item_data :=
  Item (i_fd i) (i_readbuffer i) (i_yyID i) (Login1_uid m) (Login1_user m) (Login1_pwd m)
    (i_loginTime i) (i_channelID i) (i_subChannelID i) (i_url i) (i_shellClient_fd i) (i_aes i)
    (i_token i) (i_rsaStr i) (i_rsa i).

Definition set_channel (i : Item_data) (m : YYJson_OpenUrl) : Item_data :=
  Item (i_fd i) (i_readbuffer i) (i_yyID i) (i_uid i) (i_account i) (i_pwd i) (i_loginTime i)
    (OpenUrl_channelID m) (OpenUrl_subChannelID m) (OpenUrl_url m) (i_shellClient_fd i) (i_aes i)
    (i_token i) (i_rsaStr i) (i_rsa i).

(** The [switch] at [NextRun], which an envelope enters again.  What it logs is left
    out. *)
Fixpoint next_run (fuel : nat) (sv : MmsServer) (fd : Z) (l : nat) (jobj : YYJ) : result MmsServer :=
  match fuel with
  | O => Err NoFuel
  | S fuel =>
      match jobj with
      | Comp_RSA _ => Err AssertFailed
      | Comp_AES cmd =>
          i ← item sv l;
          '(ok, realobj) ← CompAES_UnFormat (stack_array hst) cmd (i_aes i);
          match ok, realobj with
          | true, Some realobj => next_run fuel sv fd l realobj
          | _, _ => Ok sv
          end
      | Msg_Login1 cmd =>
          i ← item sv l;
          let sv := put_item sv l (set_user i cmd) in
          '(_, sv) ← sendCmd sv fd (Some (Msg_Login1_res (Login1Res true)));
          Ok sv
      | Msg_Logout _ =>
          i ← item sv l;
          let '(_, sv) := tick sv in
          '(_, sv) ← sendCmd sv fd (Some (Msg_Logout_res (Logout (Some (i_yyID i)))));
          sv ← ShellExit sv l;
          Ok (set_maps sv (del_state (sv_states sv) fd) (del_state (sv_userData sv) (i_yyID i)))
      | Msg_OpenUrl cmd =>
          i ← item sv l;
          let sv := put_item sv l (set_channel i cmd) in
          '(bSucc, sv) ← (if negb (i_shellClient_fd i =? 0)
                          then sv ← openURL sv (i_shellClient_fd i) l; Ok (true, sv)
                          else ShellExec sv l);
          '(_, sv) ← sendCmd sv fd (Some (Msg_OpenUrl_res (OpenUrlRes bSucc [])));
          Ok sv
      | _ => Ok sv
      end
  end.

(** ** [JsonProcess]

    The variables of the function: the local [readbuffer], [state], and where
    the buffer [buf] points to lives, in the session or in [readbuffer]. *)
Record frame_vars := Vars {
  v_readbuffer : option fastbuffer;
  v_state : option nat;
  v_in_item : bool;
}.

Definition set_readbuffer (i : Item_data) (fb : option fastbuffer) : Item_data :=
  Item (i_fd i) fb (i_yyID i) (i_uid i) (i_account i) (i_pwd i) (i_loginTime i) (i_channelID i)
    (i_subChannelID i) (i_url i) (i_shellClient_fd i) (i_aes i) (i_token i) (i_rsaStr i) (i_rsa i).

Definition get_buf (sv : MmsServer) (v : frame_vars) : result fastbuffer :=
  if v_in_item v then
    l ← of_option Undefined (v_state v);
    i ← item sv l;
    of_option Undefined (i_readbuffer i)
  else of_option Undefined (v_readbuffer v).

Definition set_buf (sv : MmsServer) (v : frame_vars) (fb : fastbuffer) : result (MmsServer * frame_vars) :=
  if v_in_item v then
    l ← of_option Undefined (v_state v);
    i ← item sv l;
    Ok (put_item sv l (set_readbuffer i (Some fb)), v)
  else Ok (sv, Vars (Some fb) (v_state v) (v_in_item v)).

Definition set_fd (i : Item_data) (fd : Z) (fb : option fastbuffer) : Item_data :=
  Item fd fb (i_yyID i) (i_uid i) (i_account i) (i_pwd i) (i_loginTime i) (i_channelID i)
    (i_subChannelID i) (i_url i) (i_shellClient_fd i) (i_aes i) (i_token i) (i_rsaStr i) (i_rsa i).

(** The branch for [YY_JSON_LOGIN]. *)
Definition login_branch (sv : MmsServer) (v : frame_vars) (fd : Z) (login : YYJson_Login) (mysql : bool) :
    result (MmsServer * frame_vars) :=
  let '(l, sv, v) :=
    match v_state v with
    | Some l => (l, sv, v)
    | None =>
        let l := sv_next sv in
        let sv := set_items sv (<[l := set_fd new_Item_data fd (v_readbuffer v)]> (sv_items sv)) (S l) in
        (l, set_maps sv (add_state (sv_states sv) fd (Some l))
              (add_state (sv_userData sv) (Login_yyID login) (Some l)),
         Vars None (Some l) true)
    end in
  i ← item sv l;
  let rsa := SetRSAKey (i_rsa i) (Login_rsakey login) [] in
  let '(now, sv) := tick sv in
  let sv := put_item sv l (set_login i login rsa now) in
  sv ← LoginCmd sv fd l mysql;
  Ok (sv, v).

(** One turn of the loop; a command before the login leaves the [switch] with
    the buffer as it is. *)
Definition json_turn (fuel : nat) (sv : MmsServer) (v : frame_vars) (fd : Z) (mysql : bool) :
    result (MmsServer * frame_vars) :=
  buf ← get_buf sv v;
  '(err, offset, jobj) ← ParseCmd (block buf) (i32 (fb_size buf)) 0;
  match err, jobj with
  | YYMMSJSON_ERROR_SUCCESS, Some j =>
      match j, v_state v with
      | Msg_Login login, _ =>
          '(sv, v) ← login_branch sv v fd login mysql;
          buf ← get_buf sv v;
          buf ← drop_front buf offset;
          set_buf sv v buf
      | _, None => Ok (sv, v)
      | _, Some l =>
          sv ← next_run fuel sv fd l j;
          buf ← get_buf sv v;
          buf ← drop_front buf offset;
          set_buf sv v buf
      end
  | _, _ =>
      '(sv, v) ← set_buf sv v (clear buf);
      Ok (post sv fd [], v)
  end.

Fixpoint json_loop (fuel : nat) (sv : MmsServer) (v : frame_vars) (fd : Z) (mysql : bool) :
    result MmsServer :=
  match fuel with
  | O => Err NoFuel
  | S fuel' =>
      '(sv, v) ← json_turn fuel sv v fd mysql;
      buf ← get_buf sv v;
      if 0 <? fb_size buf then json_loop fuel' sv v fd mysql else Ok sv
  end.

Definition JsonProcess (fuel : nat) (sv : MmsServer) (fd : Z) (readbuffer : fastbuffer) (mysql : bool) :
    result MmsServer :=
  if fd <=? 0 then Ok sv else
  match get_state (sv_states sv) fd with
  | Some l =>
      i ← item sv l;
      match i_readbuffer i with
      | Some fb =>
          bs ← contents readbuffer;
          fb ← put fb bs;
          json_loop fuel (put_item sv l (set_readbuffer i (Some fb))) (Vars (Some readbuffer) (Some l) true)
            fd mysql
      | None =>
          json_loop fuel (put_item sv l (set_readbuffer i (Some readbuffer))) (Vars None (Some l) true)
            fd mysql
      end
  | None => json_loop fuel sv (Vars (Some readbuffer) None false) fd mysql
  end.

(** ** Threads (yymms_svr.cpp) *)

Definition sem_post (sv : MmsServer) (t : nat) : MmsServer :=
  set_boss sv (sv_boss sv)
    (alter (fun d => Thread (td_sem d + 1) (td_exitflag d)) t (sv_threads sv)).

Definition mms_data_receive (sv : MmsServer) (fd : Z) (readbuffer : option fastbuffer) (listen_port : Z) :
    result (bool * MmsServer) :=
  match readbuffer with
  | None => Ok (true, sv)
  | Some _ =>
      if sv_threadnum sv =? 0 then Err Undefined else
      let threadid := Z.rem fd (sv_threadnum sv) in
      _ ← c_assert ((0 <=? threadid) && (threadid <? sv_threadnum sv));
      '(_, boss) ← PushJob (sv_boss sv) threadid (Boss readbuffer fd listen_port);
      let sv := set_boss sv boss (sv_threads sv) in
      data ← GetWorkerTouch (sv_boss sv) threadid;
      Ok (false, match data with Some t => sem_post sv t | None => sv end)
  end.

(** [fd_close]: a connection that ends without [Logout] is given one. *)
Definition mms_fd_close (sv : MmsServer) (fd : Z) : result MmsServer :=
  match get_state (sv_states sv) fd with
  | None => Ok sv
  | Some l =>
      i ← item sv l;
      '(ok, str) ← FormatCmd (Some (Msg_Logout (Logout (Some (i_yyID i))))) [];
      if negb ok then Ok sv else
      fb ← put new_fastbuffer str;
      '(_, sv) ← mms_data_receive sv fd (Some fb) (g_port hst);
      Ok sv
  end.

Definition process_data (fuel : nat) (sv : MmsServer) (info : BossInfo) (mysql : bool) : result MmsServer :=
  match bi_buf info with
  | None => Ok sv
  | Some buf =>
      if bi_port info =? g_mangport hst then ProcessMmsExecData fuel sv (bi_fd info) buf
      else JsonProcess fuel sv (bi_fd info) buf mysql
  end.

(** One turn of [work_thread]: whether the thread goes on. *)
Definition work_turn (fuel : nat) (sv : MmsServer) (t : nat) (mysql : bool) : result (bool * MmsServer) :=
  d ← of_option Undefined (sv_threads sv !! t);
  if td_sem d <=? 0 then Err Blocked else
  let sv := set_boss sv (sv_boss sv) (<[t := Thread (td_sem d - 1) (td_exitflag d)]> (sv_threads sv)) in
  if td_exitflag d then Ok (false, sv) else
  '(info, boss) ← PopJob (sv_boss sv) (Z.of_nat t);
  let sv := set_boss sv boss (sv_threads sv) in
  match bi_fd info =? 0, bi_buf info with
  | false, Some _ => sv ← process_data fuel sv info mysql; Ok (true, sv)
  | _, _ => Ok (true, sv)
  end.

(** [redis_cb]: the elements of an array are echoed with their terminators. *)
Fixpoint echo_elements (h : reply_heap) (elements : list voidptr) (echostr : fastbuffer) :
    result fastbuffer :=
  match elements with
  | [] => Ok echostr
  | Loc e :: elements =>
      r ← of_option Undefined (rh_objs h !! e);
      str ← of_option Undefined (rp_str r);
      len ← of_option Undefined (rp_len r);
      bs ← load (Z.to_nat (len + 1)) str;
      echostr ← put echostr bs;
      echo_elements h elements echostr
  | _ :: _ => Err Undefined
  end.

Definition redis_cb (sv : MmsServer) (h : reply_heap) (reply : option nat) (fd : Z) : result MmsServer :=
  match reply with
  | None => Ok sv
  | Some l =>
      r ← of_option Undefined (rh_objs h !! l);
      if negb (rp_type r =? REDIS_REPLY_ARRAY) then Ok sv else
      echostr ← put new_fastbuffer (bytes "reply is:" ++ [x0d; x0a]);
      elements ← of_option Undefined (rp_element r);
      n ← of_option Undefined (rp_elements r);
      echostr ← echo_elements h (take (Z.to_nat n) elements) echostr;
      if 0 <? fb_size echostr then bs ← contents echostr; Ok (post sv fd bs) else Ok sv
  end.

(** The threads [init] starts. *)
Fixpoint start_threads (n : nat) (i : nat) (sv : MmsServer) : result MmsServer :=
  match n with
  | O => Ok sv
  | S n =>
      boss ← SetWorker (sv_boss sv) (Z.of_nat i) (Some i);
      start_threads n (S i) (set_boss sv boss (<[i := Thread 0 false]> (sv_threads sv)))
  end.

Definition set_threadnum (sv : MmsServer) (n : Z) : MmsServer :=
  Server (sv_states sv) (sv_userData sv) (sv_items sv) (sv_next sv) (sv_boss sv) (sv_threads sv) n
    (sv_posts sv) (sv_execs sv) (sv_queries sv) (sv_rands sv) (sv_ticks sv) (sv_redis sv).

(** The replies the redis client hands on, in their order; a datum of NULL is 0. *)
Fixpoint redis_replies (calls : list (reply_heap * voidptr * voidptr)) (sv : MmsServer) : result MmsServer :=
  match calls with
  | [] => Ok sv
  | (h, Loc l, Int fd) :: calls => sv ← redis_cb sv h (Some l) (i32 fd); redis_replies calls sv
  | (h, Loc l, Reply.Null) :: calls => sv ← redis_cb sv h (Some l) 0; redis_replies calls sv
  | _ :: _ => Err Undefined
  end.

(** What the event loop does with the redis client: it is told of its sockets,
    and of the flags of its queue. *)
Inductive redis_event := RedisReadable (l : nat) | RedisWritable (l : nat) | RedisFlag (flag : Z).

Definition redis_handler (ev : redis_event) : YYRedis -> result YYRedis :=
  match ev with
  | RedisReadable l => fun st => redisLibeventReadEvent (h_strerror hst) (h_format_double hst) (redis_clock hst) st l
  | RedisWritable l => fun st => redisLibeventWriteEvent (h_strerror hst) (h_format_double hst) (redis_clock hst) st l
  | RedisFlag flag => fun st =>
      redis_queue_receive (h_strerror hst) (h_inet_addr hst) (h_format_double hst) (redis_clock hst) st flag
  end.

Definition handle_redis (ev : redis_event) (sv : MmsServer) : result MmsServer :=
  st ← redis_handler ev (sv_redis sv);
  redis_replies (drop (length (yr_calls (sv_redis sv))) (yr_calls st)) (set_redis sv st).

(** [init]: what [_event.Init], [_event.Bind] and [InitMmsExec] answer comes
    first; whether redis can be reached makes no difference. *)
Definition mms_init (sv : MmsServer) (ThreadNum : Z) (event_ok bind_ok exec_ok : bool) :
    result (bool * MmsServer) :=
  let sv := set_threadnum sv ThreadNum in
  if negb event_ok then Ok (false, sv) else
  if negb bind_ok then Ok (false, sv) else
  if negb exec_ok then Ok (false, sv) else
  let redis := redis_Init (sv_redis sv) (redis_IP hst) (redis_Port hst) true 10000 in
  '(_, redis) ← redis_Connect (h_strerror hst) (h_inet_addr hst) (redis_clock hst) redis;
  let sv := set_redis sv redis in
  '(_, boss) ← bm_Init (sv_boss sv) ThreadNum;
  sv ← start_threads (Z.to_nat ThreadNum) O (set_boss sv boss (sv_threads sv));
  Ok (true, sv).

(** The end of [run]: every thread is told to leave. *)
Fixpoint stop_threads (n : nat) (i : nat) (sv : MmsServer) : result MmsServer :=
  match n with
  | O => Ok sv
  | S n =>
      data ← GetWorkerTouch (sv_boss sv) (Z.of_nat i);
      let sv := match data with
                | Some t =>
                    sem_post (set_boss sv (sv_boss sv)
                      (alter (fun d => Thread (td_sem d) true) t (sv_threads sv))) t
                | None => sv
                end in
      stop_threads n (S i) sv
  end.

Definition run_end (sv : MmsServer) : result MmsServer :=
  stop_threads (Z.to_nat (sv_threadnum sv)) O sv.

(** The destructor: the data of every worker is released. *)
Fixpoint release_threads (n : nat) (i : nat) (sv : MmsServer) : result MmsServer :=
  match n with
  | O => Ok sv
  | S n =>
      data ← GetWorkerTouch (sv_boss sv) (Z.of_nat i);
      sv ← (match data with
            | Some t =>
                _ ← of_option Undefined (sv_threads sv !! t);
                boss ← SetWorker (sv_boss sv) (Z.of_nat i) None;
                Ok (set_boss sv boss (delete t (sv_threads sv)))
            | None => Ok sv
            end);
      release_threads n (S i) sv
  end.

Definition mms_destroy (sv : MmsServer) : result MmsServer :=
  release_threads (Z.to_nat (sv_threadnum sv)) O sv.

(** ** The server is the client of the event loop *)

Definition server_event : ILibEvent MmsServer := {|
  data_receive := fun sv fd fb port => mms_data_receive sv fd (Some fb) port;
  fd_close := mms_fd_close;
|}.

(** The other user of the queue of the loop is the redis client. *)
Definition server_queue_event : ILibQueueEvent MmsServer := {|
  other_queue_receive := fun sv flag => handle_redis (RedisFlag flag) sv;
|}.

End server.
