(* ===== verification/ServerSpec.v ===== *)
(** * Messages that reach the server

    No function of the codec runs out of its fuel, the statements have the form
    [runs]; a message parsed from a buffer takes at least the three bytes of the
    header, and the text of an envelope is shorter than the frame it came in. *)

From S2P Require Import Prelude Json Ssl SslSpec FastBuffer Queues Messages Protocol ProtocolSpec.
From S2P Require Import EventLoop Server.

(** ** Faults that are not missing fuel *)

Lemma load_runs n m : runs (load n m) (fun _ => True).
Proof.
  revert m. induction n as [|n IH]; intros m; cbn [load]; [by destruct m|].
  destruct m as [|[b|] m]; [done| |done]. eapply runs_bind; [apply IH|done].
Qed.

Lemma contents_runs fb : runs (contents fb) (fun _ => True).
Proof. apply load_runs. Qed.

Lemma memcpy_runs m off src n : runs (memcpy m off src n) (fun _ => True).
Proof. unfold memcpy, blit. destruct (_ && _); [by destruct (_ && _)|done]. Qed.

Lemma append_runs fb bs n : runs (append plenty fb bs n) (fun _ => True).
Proof.
  unfold append. cbv zeta. destruct (_ && _); [done|].
  apply (runs_bind _ _ (fun _ => True)); [apply memcpy_runs|done].
Qed.

Lemma put_runs fb bs : runs (put fb bs) (fun _ => True).
Proof.
  unfold put. apply (runs_bind _ _ (fun _ => True)); [apply append_runs|by intros [? ?]].
Qed.

Section parse.
  Context `{JsonSize} `{OpenSSLLaws}.

Lemma Serialize_text_runs j : runs (Serialize_text j) (fun _ => True).
Proof.
  destruct j as [| |m|m| | |m|m|m| | | | | |]; cbn [Serialize_text]; try done.
  - unfold Login_text. eapply runs_bind; [apply base64encode_runs|]. by intros [[] ?] _.
  - unfold LoginRes_text. eapply runs_bind; [apply base64encode_runs|]. by intros [[] ?] _.
  - unfold Logout_text. by destruct (Logout_yyID m).
  - unfold Logout_text. by destruct (Logout_yyID m).
  - unfold OpenUrl_text. destruct (OpenUrl_channelID m); [|done]. by destruct (OpenUrl_subChannelID m).
Qed.

Lemma FormatCmd_runs j cmd : runs (FormatCmd j cmd) (fun _ => True).
Proof.
  destruct j as [j|]; [|done]. unfold FormatCmd.
  eapply runs_bind; [apply Serialize_text_runs|]. intros [[] str] _; done.
Qed.

Lemma CompRSA_Format_runs self j rsa : runs (CompRSA_Format self j rsa) (fun _ => True).
Proof.
  destruct j as [j|]; [|done]. unfold CompRSA_Format.
  eapply runs_bind; [apply FormatCmd_runs|]. intros [[] s] _; [|done].
  eapply runs_bind; [apply RSAPublicEncrypt_runs|]. intros [[] e] _; [|done].
  eapply runs_bind; [apply base64encode_runs|]. by intros [? ?] _.
Qed.

(** ** Messages that come from a text of [n] bytes *)

Definition arrived (n : Z) (j : YYJ) : Prop :=
  match j with
  | Comp_AES m => zlen (CompAES_serString m) <= n
  | Msg_Login m => uint (Login_yyID m)
  | _ => True
  end.

Lemma foreach_inv {M} (body : M -> list byte -> json -> result (bool * M)) (P : M -> Prop) n ms m r :
  (forall m k v r, P m -> within n v -> body m k v = Ok r -> P (snd r)) ->
  within n (JObject ms) -> P m -> foreach body ms m = Ok r -> P (snd r).
Proof.
  intros Hb. revert m. induction ms as [|[k v] ms IH]; intros m Hw Hm; cbn [foreach].
  - by intros [= <-].
  - destruct Hw as [Hv Hw]. destruct (body m k v) as [[[] m']|] eqn:E; cbn [mbind result_bind]; [|..|done].
    + apply IH; [done|]. exact (Hb _ _ _ _ Hm Hv E).
    + intros [= <-]. exact (Hb _ _ _ _ Hm Hv E).
Qed.

Lemma read_object_inv {M} (body : M -> list byte -> json -> result (bool * M)) (P : M -> Prop) n obj m r :
  (forall m k v r, P m -> within n v -> body m k v = Ok r -> P (snd r)) ->
  within n obj -> P m -> read_object body obj m = Ok r -> P (snd r).
Proof.
  intros Hb Hw Hm. unfold read_object. destruct obj as [| | | |ms| |]; try done.
  cbn [json_object_get_object mbind result_bind]. by apply (foreach_inv body P n).
Qed.

Lemma get_uint_range v : uint (get_uint v).
Proof. apply (wrapU_range 32). lia. Qed.

Lemma Login_member_uint n m k v r :
  uint (Login_yyID m) -> within n v -> Login_member m k v = Ok r -> uint (Login_yyID (snd r)).
Proof.
  intros Hm _. unfold Login_member. destruct (is_key k _ v _).
  { intros [= <-]. apply get_uint_range. }
  destruct (is_key k _ v _); [by intros [= <-]|]. destruct (is_key k _ v _); [|by intros [= <-]].
  destruct (base64decode _) as [[ok key]|]; cbn [mbind result_bind]; [|done]. by intros [= <-].
Qed.

Lemma CompAES_member_size n m k v r :
  0 <= n -> zlen (CompAES_serString m) <= n -> within n v -> CompAES_member m k v = Ok r ->
  zlen (CompAES_serString (snd r)) <= n.
Proof.
  intros Hn Hm Hv. unfold CompAES_member. destruct (is_key k _ v _); [by intros [= <-]|].
  destruct (is_key k _ v _); [|by intros [= <-]]. intros [= <-]. by apply get_string_within.
Qed.

Lemma Serialize_arrived n j obj :
  0 <= n -> arrived n j -> within n obj -> runs (Serialize j obj) (fun r => arrived n (snd r)).
Proof.
  intros Hn Hj Hw. destruct (Serialize j obj) as [[ok j']|e] eqn:E.
  2:{ apply Serialize_fault in E as [-> | ->]; done. }
  cbn [runs snd]. destruct j; cbn [Serialize arrived] in *; unfold wrap in E;
    match type of E with (?r ≫= _) = _ => destruct r as [[ok' m']|] eqn:Er end;
    try discriminate E; cbn [mbind result_bind] in E; injection E as <- <-; try done.
  - apply (read_object_inv _ (fun m => zlen (CompAES_serString m) <= n) n) in Er; [done| |done|done].
    intros m0 k v r Hm Hv. by apply CompAES_member_size.
  - apply (read_object_inv _ (fun m => uint (Login_yyID m)) n) in Er; [done| |done|done].
    intros m0 k v r. apply Login_member_uint.
Qed.

Lemma LookforMap_arrived n id j : 0 <= n -> LookforMap id = Some j -> arrived n j.
Proof.
  intros Hn. unfold LookforMap, fnMap. cbn [look_for].
  repeat match goal with
  | |- context [if (?i =? id) then _ else _] =>
      destruct (i =? id); [intros [= <-]; cbn [arrived]; first [exact I | exact Hn | split; cbn; lia]|]
  end. done.
Qed.

(** What parsing the contents [bs] of a buffer may give. *)
Definition parsed (bs : list byte) (r : YYMMSJSON_ERROR * Z * option YYJ) : Prop :=
  match r with
  | (YYMMSJSON_ERROR_SUCCESS, offset, Some j) => 3 <= offset <= zlen bs /\ arrived (zlen bs - 3) j
  | (YYMMSJSON_ERROR_SUCCESS, _, None) => False
  | (_, _, j) => j = None
  end.

Lemma ParseCmd_runs bs m : runs (ParseCmd ((Some <$> bs) ++ m) (zlen bs) 0) (parsed bs).
Proof.
  destruct (Z.ltb_spec (zlen bs) 3) as [Hs|Hs]; [by rewrite ParseCmd_short|].
  destruct bs as [|b0 [|b1 [|b2 js]]]; [by vm_compute in Hs..|].
  rewrite ParseCmd_header by done. cbv zeta. set (n := b2z b1 + 256 * b2z b2).
  destruct (bool_decide (b0 <> PRE_CHAR)); [done|].
  destruct (Z.ltb_spec (zlen (b0 :: b1 :: b2 :: js)) n) as [|Hn]; [done|].
  destruct (Z.ltb_spec n 3) as [|Hn3]; [done|].
  set (l := zlen (b0 :: b1 :: b2 :: js)) in *.
  assert (Hjs : zlen (take (Z.to_nat (n - 3)) js) <= l - 3).
  { subst l. rewrite !zlen_cons. len_lia. }
  unfold parse_text_of. destruct (Parse _) as [err v] eqn:E. apply Parse_within in E.
  destruct (bool_decide (err <> json_tokener_success)); [done|].
  unfold parse_object. cbv zeta.
  destruct (bool_decide _ || bool_decide _ || bool_decide _); [done|].
  destruct (LookforMap _) as [j|] eqn:Ej; [|done].
  eapply runs_bind.
  - apply (Serialize_arrived (l - 3)); [lia|by eapply LookforMap_arrived, Ej; lia|].
    apply object_get_within. eapply within_mono; [|exact E]. done.
  - intros [[] j'] Hj'; [|done]. unfold chk32. destruct (in_i32 (0 + n)); [|done].
    split; [lia|done].
Qed.

Lemma parse_buffer fb bs :
  holds fb bs -> zlen bs < 2 ^ 30 -> runs (ParseCmd (block fb) (i32 (fb_size fb)) 0) (parsed bs).
Proof.
  intros (E & _ & _ & rest & Eb) Hl. pose proof (zlen_nonneg bs).
  rewrite E, Eb, i32_small by lia. apply ParseCmd_runs.
Qed.

(** Opening an envelope gives a smaller message. *)
Lemma CompAES_UnFormat_runs stack m aes :
  zlen stack = AES_BLOCK_SIZE ->
  runs (CompAES_UnFormat stack m aes)
    (fun r => match r with (true, Some j) => arrived (zlen (CompAES_serString m) - 1) j | _ => True end).
Proof.
  intros Hst. unfold CompAES_UnFormat. destruct (is_empty (CompAES_serString m)) eqn:Ee; [done|].
  assert (Hl : 1 <= zlen (CompAES_serString m)).
  { destruct (CompAES_serString m) as [|b s]; [done|]. rewrite zlen_cons. pose proof (zlen_nonneg s). lia. }
  eapply runs_bind; [apply base64decode_runs|]. intros [[] out] [_ Hout]; [|done]. cbn [snd negb] in *.
  eapply runs_bind; [by apply AESDecrypt_runs|]. intros [[] s] Hs; [|done]. cbn [snd negb] in *.
  unfold parse_inner, cstr. rewrite fmap_app. eapply runs_bind; [apply ParseCmd_runs|].
  intros [[err offset] [j|]] Hp; [|by destruct (bool_decide _)]. cbn [runs].
  destruct err; cbn [parsed] in Hp; try done. destruct Hp as [_ Hp].
  rewrite bool_decide_eq_true_2 by done. unfold arrived in *. destruct j; try done.
  assert (zlen (CompAES_serString m) / 4 <= zlen (CompAES_serString m)) by (apply Z.div_le_upper_bound; lia).
  Z.to_euclidean_division_equations; lia.
Qed.

End parse.
