(* ===== verification/ServerSession.v ===== *)
(** * What a session may touch

    The functions that work for a connection run with the relation [touched]:
    they change the session of the connection and nothing of the others, and
    post to the connection and to its shell client only.  The same statements
    say that none of them runs out of its fuel. *)

From S2P Require Import Prelude Json Ssl SslSpec FastBuffer Queues Messages Protocol ProtocolSpec.
From S2P Require Import MemStuff Mysql EventLoop Server ServerSpec.

Section session.
  Context `{JsonSize} `{OpenSSLLaws}.

(** ** The relation *)

(** What a session keeps; with [kb] its buffer too. *)
Definition kept (kb : bool) (i i' : Item_data) : Prop :=
  i_fd i' = i_fd i /\ i_shellClient_fd i' = i_shellClient_fd i /\
  (kb = true -> i_readbuffer i' = i_readbuffer i) /\ (uint (i_yyID i) -> uint (i_yyID i')).

#[export] Instance kept_po kb : PreOrder (kept kb).
Proof.
  split; [done|]. intros i i' i'' (? & ? & Hb & ?) (? & ? & Hb' & ?).
  unfold kept. split; [congruence|]. split; [congruence|]. split; [|auto].
  intros E. by rewrite Hb', Hb.
Qed.

(** The connection, and the shell client of the session at [l]. *)
Definition addressee (fd : Z) (oi : option Item_data) (to : Z) : Prop :=
  to = fd \/ exists i, oi = Some i /\ i_shellClient_fd i <> 0 /\ to = i_shellClient_fd i.

Record touched (kb : bool) (fd : Z) (l : nat) (sv sv' : MmsServer) : Prop := {
  t_items : forall k, k <> l -> sv_items sv' !! k = sv_items sv !! k;
  t_item : option_Forall2 (kept kb) (sv_items sv !! l) (sv_items sv' !! l);
  t_states : forall k, get_state (sv_states sv') k = get_state (sv_states sv) k \/
    k = fd /\ get_state (sv_states sv') k = hm_default (sv_states sv);
  t_users : forall k, get_state (sv_userData sv') k = get_state (sv_userData sv) k \/
    get_state (sv_userData sv') k = hm_default (sv_userData sv);
  t_defaults : hm_default (sv_states sv') = hm_default (sv_states sv) /\
    hm_default (sv_userData sv') = hm_default (sv_userData sv);
  t_threads : sv_next sv' = sv_next sv /\ sv_boss sv' = sv_boss sv /\ sv_threads sv' = sv_threads sv /\
    sv_threadnum sv' = sv_threadnum sv;
  t_posts : exists new, sv_posts sv' = sv_posts sv ++ new /\
    Forall (fun p => addressee fd (sv_items sv !! l) (fst p)) new;
}.

Lemma addressee_kept kb fd oi oi' to :
  option_Forall2 (kept kb) oi oi' -> addressee fd oi' to -> addressee fd oi to.
Proof.
  intros Ho [->|(i' & -> & Hn & ->)]; [by left|]. right. inversion Ho as [i ? Hk|]; subst.
  destruct Hk as (_ & Es & _). exists i. by rewrite <- Es.
Qed.

#[export] Instance touched_po kb fd l : PreOrder (touched kb fd l).
Proof.
  split.
  - intros sv. split; try done; try (by left). exists []. by rewrite app_nil_r.
  - intros sv1 sv2 sv3 [I1 J1 S1 U1 [D1 E1] (? & ? & ? & ?) (p1 & P1 & F1)]
      [I2 J2 S2 U2 [D2 E2] (? & ? & ? & ?) (p2 & P2 & F2)]. split.
    + intros k Hk. by rewrite I2, I1.
    + etransitivity; eassumption.
    + intros k. destruct (S2 k) as [->|[-> ->]]; [apply S1|right; by rewrite D1].
    + intros k. destruct (U2 k) as [->| ->]; [apply U1|right; by rewrite E1].
    + split; congruence.
    + repeat split; congruence.
    + exists (p1 ++ p2). rewrite P2, P1, app_assoc. split; [done|]. apply Forall_app. split; [done|].
      eapply Forall_impl; [exact F2|]. intros p. by eapply addressee_kept.
Qed.

(** A session that keeps its buffer keeps what it keeps without. *)
Lemma touched_weaken fd l kb sv sv' : touched true fd l sv sv' -> touched kb fd l sv sv'.
Proof.
  intros [I J S U D T P]. split; try done. inversion J as [i i' Hk E E'|]; constructor.
  destruct Hk as (? & ? & Hb & ?). unfold kept. split_and!; auto.
Qed.

(** Sequencing: the state stays behind a projection of the result. *)
Lemma touched_bind {A B} kb fd l sv (r : result A) (f : A -> result B) (g : A -> MmsServer) (h : B -> MmsServer) :
  runs r (fun a => touched kb fd l sv (g a)) ->
  (forall a, touched kb fd l sv (g a) -> runs (f a) (fun b => touched kb fd l (g a) (h b))) ->
  runs (r ≫= f) (fun b => touched kb fd l sv (h b)).
Proof.
  intros Hr Hf. eapply runs_bind; [exact Hr|]. intros a Ha. cbv beta in Ha.
  eapply runs_mono; [by apply Hf|]. intros b Hb. by transitivity (g a).
Qed.

(** ** The primitive changes *)

Lemma touched_outside kb fd l sv execs queries rands ticks :
  touched kb fd l sv (set_outside sv (sv_posts sv) execs queries rands ticks).
Proof.
  split; try done; try (by left).
  exists []. by rewrite app_nil_r.
Qed.

Lemma touched_post kb fd l sv to bs :
  addressee fd (sv_items sv !! l) to -> touched kb fd l sv (post sv to bs).
Proof.
  intros Ht. split; try done; try (by left).
  exists [(to, bs)]. split; [done|]. apply List.Forall_cons; [done|apply List.Forall_nil].
Qed.

Lemma touched_put kb fd l sv i i' :
  sv_items sv !! l = Some i -> kept kb i i' -> touched kb fd l sv (put_item sv l i').
Proof.
  intros E Hk. split; try done; try (by left).
  - intros k Hn. cbn. by rewrite lookup_insert_ne.
  - cbn. rewrite lookup_insert_eq, E. by constructor.
  - exists []. by rewrite app_nil_r.
Qed.

Lemma touched_logout kb fd l sv user :
  touched kb fd l sv (set_maps sv (del_state (sv_states sv) fd) (del_state (sv_userData sv) user)).
Proof.
  split; try done.
  - intros k. cbn [sv_states set_maps]. destruct (decide (k = fd)) as [->|Hn].
    + right. by rewrite get_del_same.
    + left. by apply get_del_other.
  - intros k. cbn [sv_userData set_maps]. destruct (decide (k = user)) as [->|Hn].
    + right. by rewrite get_del_same.
    + left. by apply get_del_other.
  - cbn. by rewrite !del_state_map.
  - exists []. by rewrite app_nil_r.
Qed.

Lemma with_item {B} sv l (f : Item_data -> result B) (Q : B -> Prop) :
  (forall i, sv_items sv !! l = Some i -> runs (f i) Q) -> runs (item sv l ≫= f) Q.
Proof. intros Hf. unfold item. destruct (sv_items sv !! l) as [i|]; [by apply Hf|done]. Qed.

Lemma touched_after {B} kb fd l sv sv1 (r : result B) (h : B -> MmsServer) :
  touched kb fd l sv sv1 -> runs r (fun b => touched kb fd l sv1 (h b)) ->
  runs r (fun b => touched kb fd l sv (h b)).
Proof. intros Ht Hr. eapply runs_mono; [exact Hr|]. intros b Hb. by transitivity sv1. Qed.

(** ** The operations *)

Context (hst : host).
Hypothesis stack_size : zlen (stack_array hst) = AES_BLOCK_SIZE.

Lemma sendCmd_touched kb fd l sv to cmd :
  addressee fd (sv_items sv !! l) to ->
  runs (sendCmd sv to cmd) (fun r => touched kb fd l sv (snd r)).
Proof.
  intros Ht. unfold sendCmd. eapply runs_bind; [apply FormatCmd_runs|]. intros [ok str] _.
  destruct (_ || _); [apply touched_po|]. eapply runs_bind; [apply put_runs|]. intros fb _.
  eapply runs_bind; [apply contents_runs|]. intros bs _. by apply touched_post.
Qed.

(** A command sent for its effect. *)
Lemma send_touched kb fd l sv to cmd :
  addressee fd (sv_items sv !! l) to ->
  runs ('(_, sv) ← sendCmd sv to cmd; Ok sv) (fun sv' => touched kb fd l sv sv').
Proof.
  intros Ht. eapply runs_bind; [by apply (sendCmd_touched kb fd l)|]. by intros [? ?].
Qed.

Lemma openURL_touched kb fd l sv to :
  addressee fd (sv_items sv !! l) to -> runs (openURL sv to l) (touched kb fd l sv).
Proof.
  intros Ht. unfold openURL. apply with_item. intros i _.
  apply (runs_bind _ _ (fun _ => True)); [by apply runs_option|]. intros c _.
  apply (runs_bind _ _ (fun _ => True)); [by apply runs_option|]. intros c' _. by apply send_touched.
Qed.

Lemma ShellExec_touched kb fd l sv :
  runs (ShellExec hst sv l) (fun r => touched kb fd l sv (snd r)).
Proof.
  unfold ShellExec. apply with_item. intros i _.
  destruct (negb _); [apply touched_po|]. apply touched_outside.
Qed.

(** The shell client of the session may be addressed. *)
Lemma addressee_shell fd sv l i :
  sv_items sv !! l = Some i -> i_shellClient_fd i <> 0 -> addressee fd (sv_items sv !! l) (i_shellClient_fd i).
Proof. intros E Hn. right. by exists i. Qed.

Lemma addressee_fd fd oi : addressee fd oi fd.
Proof. by left. Qed.

Lemma ShellExit_touched kb fd l sv : runs (ShellExit sv l) (touched kb fd l sv).
Proof.
  unfold ShellExit. apply with_item. intros i E.
  destruct (Z.eqb_spec (i_shellClient_fd i) 0); [apply touched_po|]. by apply send_touched, addressee_shell.
Qed.

Lemma read_column_runs m b : runs (read_column m b) (fun _ => True).
Proof.
  unfold read_column. destruct (_ =? _); [|done]. destruct (buffer b); [done..|].
  by destruct (load_at _ _ _ _).
Qed.

Lemma read_rows_runs bs fetches : runs (read_rows bs fetches) (fun _ => True).
Proof.
  induction fetches as [|m fetches IH]; cbn [read_rows]; [done|].
  apply (runs_bind _ _ (fun _ => True)); [|done]. clear IH.
  induction bs as [|b bs IH]; cbn [read_columns]; [done|].
  by apply (runs_bind _ _ (fun _ => True)); [apply read_column_runs|].
Qed.

Lemma CheckWhiteList_touched kb fd l sv uid mysql :
  runs (CheckWhiteList hst sv uid mysql)
    (fun r => touched kb fd l sv (snd r) /\ sv_items (snd r) = sv_items sv).
Proof.
  unfold CheckWhiteList. destruct mysql; cbn [negb]; [|by split; [apply touched_po|]].
  apply (runs_bind _ _ (fun _ => True)); [|by split; [apply touched_outside|]].
  unfold read_result. destruct (BindResult _ _ _); [apply read_rows_runs|done].
Qed.

Lemma LoginCmd_touched kb fd l sv mysql : runs (LoginCmd hst sv fd l mysql) (touched kb fd l sv).
Proof.
  unfold LoginCmd. apply with_item. intros i E.
  eapply runs_bind; [apply (CheckWhiteList_touched kb fd l)|]. intros [ok sv1] [Hw Ei]. cbn [snd] in Hw, Ei.
  apply (touched_after _ _ _ _ sv1); [done|]. destruct ok; cbn [negb].
  - unfold GenAESKey. set (sv2 := set_outside sv1 _ _ _ _ _). set (key := RAND_bytes hst _).
    apply (touched_after _ _ _ _ sv2); [apply touched_outside|]. cbv zeta.
    set (i' := set_aes i _). apply (touched_after _ _ _ _ (put_item sv2 l i')).
    { apply (touched_put _ _ _ _ i); [cbn; by rewrite Ei|done]. }
    eapply runs_bind; [apply CompRSA_Format_runs|]. intros [[] comp] _; [|apply touched_po].
    apply send_touched, addressee_fd.
  - eapply (touched_bind _ _ _ _ _ _ snd id); [by apply sendCmd_touched, addressee_fd|].
    intros [b sv2] _. apply touched_post, addressee_fd.
Qed.

Lemma tick_touched kb fd l sv : touched kb fd l sv (snd (tick hst sv)).
Proof. apply touched_outside. Qed.

(** An envelope in an envelope is shorter: the jumps back to [NextRun] end. *)
Lemma next_run_touched kb fuel n fd l sv jobj :
  arrived n jobj -> -1 <= n -> n + 1 < Z.of_nat fuel ->
  runs (next_run hst fuel sv fd l jobj) (touched kb fd l sv).
Proof.
  revert n jobj. induction fuel as [|fuel IH]; intros n jobj Hj Hn Hf; [lia|].
  destruct jobj as [|cmd|cmd|cmd|cmd|cmd|cmd|cmd|cmd|cmd|cmd|cmd|cmd|cmd|cmd]; cbn [next_run];
    try (cbn; reflexivity); try done.
  - apply with_item. intros i _. cbn [arrived] in Hj. pose proof (zlen_nonneg (CompAES_serString cmd)).
    eapply runs_bind; [by apply CompAES_UnFormat_runs|].
    intros [[] [j|]] Hr; try (cbn; reflexivity). apply (IH (zlen (CompAES_serString cmd) - 1)); [done|lia|lia].
  - apply with_item. intros i E. cbv zeta.
    apply (touched_after _ _ _ _ (put_item sv l (set_user i cmd))); [by apply (touched_put _ _ _ _ i)|].
    apply send_touched, addressee_fd.
  - apply with_item. intros i E. pose proof (tick_touched kb fd l sv) as Ht.
    destruct (tick hst sv) as [now sv1]. apply (touched_after _ _ _ _ sv1); [done|].
    eapply (touched_bind _ _ _ _ _ _ snd id); [by apply sendCmd_touched, addressee_fd|].
    intros [b sv2] _. cbn [snd]. eapply (touched_bind _ _ _ _ _ _ id id); [apply ShellExit_touched|].
    intros sv3 _. apply touched_logout.
  - apply with_item. intros i E. cbv zeta.
    apply (touched_after _ _ _ _ (put_item sv l (set_channel i cmd))); [by apply (touched_put _ _ _ _ i)|].
    set (sv1 := put_item sv l (set_channel i cmd)).
    eapply (touched_bind _ _ _ _ _ _ snd id).
    + destruct (Z.eqb_spec (i_shellClient_fd i) 0); cbn [negb]; [apply ShellExec_touched|].
      eapply (touched_bind _ _ _ _ _ _ id snd); [|intros sv2 _; cbn; reflexivity].
      apply openURL_touched. right. exists (set_channel i cmd). split; [|done].
      cbn. by rewrite lookup_insert_eq.
    + intros [b sv2] _. apply send_touched, addressee_fd.
Qed.

End session.
