(* ===== verification/ServerLoop.v ===== *)
(** * The loop of [JsonProcess]

    A connection that has logged in is served frame by frame: every turn takes
    a frame from the buffer or empties it.  A connection that has not is served
    only if its first frame is a login. *)

From S2P Require Import Prelude Json Ssl SslSpec FastBuffer Queues Messages Protocol ProtocolSpec.
From S2P Require Import EventLoop Server ServerSpec ServerSession.

Section loop.
  Context `{JsonSize} `{OpenSSLLaws} (hst : host).
  Hypothesis stack_size : zlen (stack_array hst) = AES_BLOCK_SIZE.

(** ** The first frame of a buffer *)

Definition first_frame (bs : list byte) : result (YYMMSJSON_ERROR * Z * option YYJ) :=
  ParseCmd (Some <$> bs) (zlen bs) 0.

(** A command, and not a login. *)
Definition is_command (r : result (YYMMSJSON_ERROR * Z * option YYJ)) : bool :=
  match r with
  | Ok (YYMMSJSON_ERROR_SUCCESS, _, Some (Msg_Login _)) => false
  | Ok (YYMMSJSON_ERROR_SUCCESS, _, Some _) => true
  | _ => false
  end.

(** What lies behind the bytes of the buffer is not read. *)
Lemma ParseCmd_rest bs m : ParseCmd ((Some <$> bs) ++ m) (zlen bs) 0 = first_frame bs.
Proof.
  unfold first_frame. rewrite <- (app_nil_r (Some <$> bs)) at 2.
  destruct (Z.ltb_spec (zlen bs) 3) as [Hs|Hs]; [by rewrite !ParseCmd_short|].
  destruct bs as [|b0 [|b1 [|b2 js]]]; [by vm_compute in Hs..|]. by rewrite !ParseCmd_header.
Qed.

Lemma first_frame_runs bs : runs (first_frame bs) (parsed bs).
Proof. rewrite <- (ParseCmd_rest bs []). apply ParseCmd_runs. Qed.

Lemma parse_block fb bs :
  holds fb bs -> zlen bs < 2 ^ 30 -> ParseCmd (block fb) (i32 (fb_size fb)) 0 = first_frame bs.
Proof.
  intros (E & _ & _ & rest & Eb) Hl. pose proof (zlen_nonneg bs).
  rewrite E, Eb, i32_small by lia. apply ParseCmd_rest.
Qed.

(** ** Sessions with their buffer *)

(** The session at [l] is there, and its buffer holds [bs]. *)
Definition buffered (sv : MmsServer) (l : nat) (bs : list byte) : Prop :=
  exists i fb, sv_items sv !! l = Some i /\ i_readbuffer i = Some fb /\ holds fb bs.

Definition in_session (l : nat) (v : frame_vars) : Prop := v_state v = Some l /\ v_in_item v = true.

Lemma get_buf_in sv v l bs :
  in_session l v -> buffered sv l bs -> exists fb, get_buf sv v = Ok fb /\ holds fb bs.
Proof.
  intros [Es Ei] (i & fb & E & Eb & Hb). exists fb. split; [|done].
  unfold get_buf, item. rewrite Ei, Es. cbn [of_option mbind result_bind]. rewrite E.
  cbn [of_option mbind result_bind]. by rewrite Eb.
Qed.

Lemma set_buf_in sv v l bs fb bs' :
  in_session l v -> buffered sv l bs -> holds fb bs' ->
  forall fd, exists sv', set_buf sv v fb = Ok (sv', v) /\ touched false fd l sv sv' /\ buffered sv' l bs'.
Proof.
  intros [Es Ei] (i & fb0 & E & Eb & Hb) Hb' fd.
  exists (put_item sv l (set_readbuffer i (Some fb))). split; [|split].
  - unfold set_buf, item. rewrite Ei, Es. cbn [of_option mbind result_bind]. by rewrite E.
  - by apply (touched_put _ _ _ _ i).
  - exists (set_readbuffer i (Some fb)), fb. split; [|done]. cbn. by rewrite lookup_insert_eq.
Qed.

Lemma buffered_touched fd l sv sv' bs :
  touched true fd l sv sv' -> buffered sv l bs -> buffered sv' l bs.
Proof.
  intros [_ J _ _ _ _ _] (i & fb & E & Eb & Hb). rewrite E in J. inversion J as [? i' (_ & _ & Hk & _) E1 E2|].
  exists i', fb. by rewrite Hk.
Qed.

(** The end of a turn: the frame is taken from the buffer. *)
Lemma take_frame sv v fd l bs offset :
  in_session l v -> buffered sv l bs -> 0 <= offset ->
  exists sv', (buf ← get_buf sv v; buf ← drop_front buf offset; set_buf sv v buf) = Ok (sv', v) /\
    touched false fd l sv sv' /\ buffered sv' l (drop (Z.to_nat offset) bs).
Proof.
  intros Hv Hs Ho. destruct (get_buf_in sv v l bs Hv Hs) as (fb & -> & Hb). cbn [mbind result_bind].
  destruct (drop_front_spec fb bs offset Hb Ho) as (fb' & -> & Hb' & _). cbn [mbind result_bind].
  by apply (set_buf_in sv v l bs).
Qed.

(** ** One turn *)

Lemma login_branch_in sv v fd l login mysql :
  v_state v = Some l -> uint (Login_yyID login) ->
  runs (login_branch hst sv v fd login mysql) (fun r => snd r = v /\ touched true fd l sv (fst r)).
Proof.
  intros Es Hu. unfold login_branch. rewrite Es. apply with_item. intros i E. cbv zeta.
  pose proof (tick_touched hst true fd l sv) as Ht. destruct (tick hst sv) as [now sv1] eqn:Et.
  cbn [snd] in Ht. assert (E1 : sv_items sv1 !! l = Some i) by (by injection Et as <- <-).
  set (i' := set_login i login _ _). set (sv2 := put_item sv1 l i').
  assert (Ht2 : touched true fd l sv1 sv2).
  { apply (touched_put _ _ _ _ i); [done|]. unfold kept. by split_and!. }
  eapply runs_bind; [apply (LoginCmd_touched hst true)|]. intros sv3 Ht3. split; [done|]. cbn [fst].
  transitivity sv1; [done|]. by transitivity sv2.
Qed.

(** The result of a turn that began with [bs] in the buffer. *)
Definition turned (fd : Z) (l : nat) (sv : MmsServer) (v : frame_vars) (bs : list byte)
    (r : MmsServer * frame_vars) : Prop :=
  snd r = v /\ touched false fd l sv (fst r) /\
  exists bs', buffered (fst r) l bs' /\ (bs' = [] \/ zlen bs' < zlen bs).

Lemma frame_turned fd l sv sv1 v bs offset :
  in_session l v -> buffered sv l bs -> touched true fd l sv sv1 -> 3 <= offset <= zlen bs ->
  runs (buf ← get_buf sv1 v; buf ← drop_front buf offset; set_buf sv1 v buf) (turned fd l sv v bs).
Proof.
  intros Hv Hs Ht Ho. apply (buffered_touched _ _ _ _ _ Ht) in Hs.
  destruct (take_frame sv1 v fd l bs offset Hv Hs) as (sv2 & -> & Ht2 & Hs2); [lia|].
  cbn [runs]. split; [done|]. split; [transitivity sv1; [by apply touched_weaken|done]|].
  exists (drop (Z.to_nat offset) bs). split; [done|]. right. len_lia.
Qed.

Lemma json_turn_in fuel sv v fd l bs mysql :
  in_session l v -> buffered sv l bs -> zlen bs < 2 ^ 30 -> zlen bs < Z.of_nat fuel ->
  runs (json_turn hst fuel sv v fd mysql) (turned fd l sv v bs).
Proof.
  intros Hv Hs Hl Hf. unfold json_turn. pose proof (zlen_nonneg bs).
  destruct (get_buf_in sv v l bs Hv Hs) as (fb & -> & Hb). cbn [mbind result_bind].
  rewrite (parse_block fb bs Hb Hl). eapply runs_bind; [apply first_frame_runs|].
  intros [[err offset] oj] Hp.
  assert (Hc : runs ('(sv, v) ← set_buf sv v (clear fb); Ok (post sv fd [], v)) (turned fd l sv v bs)).
  { destruct (set_buf_in sv v l bs (clear fb) [] Hv Hs (clear_holds _ _ Hb) fd) as (sv1 & -> & Ht & Hs1).
    cbn [mbind result_bind runs]. split; [done|]. split.
    - cbn [fst]. transitivity sv1; [done|]. apply touched_post, addressee_fd.
    - exists []. split; [done|by left]. }
  destruct err; cbn [parsed] in Hp; try done. destruct oj as [j|]; [|done]. destruct Hp as [Ho Ha].
  destruct j eqn:Ej; try (rewrite (proj1 Hv); eapply runs_bind;
    [apply (next_run_touched hst stack_size true fuel (zlen bs - 3)); [exact Ha|lia|lia]|];
    intros sv1 Ht; by apply frame_turned).
  eapply runs_bind; [apply login_branch_in; [exact (proj1 Hv)|exact Ha]|].
  intros [sv1 v1] [Ev Ht]. cbn [fst snd] in *. subst v1. by apply frame_turned.
Qed.

(** ** The loop of a connection that has logged in *)

Lemma json_loop_in fuel sv v fd l bs mysql :
  in_session l v -> buffered sv l bs -> zlen bs < 2 ^ 30 -> zlen bs < Z.of_nat fuel ->
  runs (json_loop hst fuel sv v fd mysql) (fun sv' => touched false fd l sv sv' /\ buffered sv' l []).
Proof.
  revert sv bs. induction fuel as [|fuel IH]; intros sv bs Hv Hs Hl Hf; [pose proof (zlen_nonneg bs); lia|].
  cbn [json_loop]. eapply runs_bind; [by apply (json_turn_in (S fuel) sv v fd l bs)|].
  intros [sv1 v1] (Ev & Ht & bs1 & Hs1 & Hl1). cbn [fst snd] in *. subst v1.
  destruct (get_buf_in sv1 v l bs1 Hv Hs1) as (fb & -> & Hb). cbn [mbind result_bind].
  rewrite (proj1 Hb). destruct (Z.ltb_spec 0 (zlen bs1)) as [Hp|Hp].
  - destruct Hl1 as [->|Hl1]; [by vm_compute in Hp|].
    eapply runs_mono; [apply (IH sv1 bs1); [done|done|lia|lia]|].
    intros sv2 [Ht2 Hs2]. split; [by transitivity sv1|done].
  - assert (bs1 = []) as -> by (destruct bs1; [done|rewrite zlen_cons in Hp; pose proof (zlen_nonneg bs1); lia]).
    done.
Qed.

(** ** Sessions *)

Definition session (sv : MmsServer) (fd : Z) : option nat := get_state (sv_states sv) fd.

(** A session belongs to the connection it is found by, has nothing buffered
    unless it is the one that is served, and the users point to sessions that
    exist. *)
Record sessions_ok (busy : option nat) (sv : MmsServer) : Prop := {
  ok_defaults : hm_default (sv_states sv) = None /\ hm_default (sv_userData sv) = None;
  ok_fresh : forall l, is_Some (sv_items sv !! l) -> (l < sv_next sv)%nat;
  ok_session : forall fd l, session sv fd = Some l ->
    (busy <> Some l -> buffered sv l []) /\
    exists i, sv_items sv !! l = Some i /\ i_fd i = fd /\ uint (i_yyID i);
  ok_user : forall u l, get_state (sv_userData sv) u = Some l -> is_Some (sv_items sv !! l);
}.

(** Different connections have different sessions. *)
Lemma session_inj busy sv fd fd' l :
  sessions_ok busy sv -> session sv fd = Some l -> session sv fd' = Some l -> fd = fd'.
Proof.
  intros Hok Hs Hs'. destruct (ok_session _ _ Hok _ _ Hs) as (_ & i & E & <- & _).
  destruct (ok_session _ _ Hok _ _ Hs') as (_ & i' & E' & <- & _). congruence.
Qed.

(** The session that the first login of a connection makes. *)
Definition opened (sv : MmsServer) (fd : Z) (rb : fastbuffer) (user : Z) : MmsServer :=
  let l := sv_next sv in
  set_maps (set_items sv (<[l := set_fd new_Item_data fd (Some rb)]> (sv_items sv)) (S l))
    (add_state (sv_states sv) fd (Some l)) (add_state (sv_userData sv) user (Some l)).

Lemma opened_item sv fd rb user :
  sv_items (opened sv fd rb user) !! sv_next sv = Some (set_fd new_Item_data fd (Some rb)).
Proof. cbn. by rewrite lookup_insert_eq. Qed.

Lemma opened_buffered sv fd rb user bs : holds rb bs -> buffered (opened sv fd rb user) (sv_next sv) bs.
Proof. intros Hb. eexists _, rb. by rewrite opened_item. Qed.

(** What serving a connection comes to. *)
Inductive served (fd : Z) (sv sv' : MmsServer) : Prop :=
| served_session l :
    session sv fd = Some l -> touched false fd l sv sv' -> buffered sv' l [] -> served fd sv sv'
| served_login rb user :
    session sv fd = None -> touched false fd (sv_next sv) (opened sv fd rb user) sv' ->
    buffered sv' (sv_next sv) [] -> served fd sv sv'
| served_closed : session sv fd = None -> sv' = post sv fd [] -> served fd sv sv'
| served_not : sv' = sv -> served fd sv sv'.

Lemma touched_ok fd l sv sv' :
  touched false fd l sv sv' -> buffered sv' l [] -> sessions_ok (Some l) sv -> sessions_ok None sv'.
Proof.
  intros [I J S U [D1 D2] (N & _) _] Hb [[E1 E2] F K V].
  assert (Hsome : forall k, is_Some (sv_items sv' !! k) <-> is_Some (sv_items sv !! k)).
  { intros k. destruct (decide (k = l)) as [->|Hn]; [|by rewrite I].
    inversion J as [? ? _ Ea Eb|Ea Eb]; split; try done; intros [? Ec]; congruence. }
  split.
  - split; congruence.
  - intros k Hk. rewrite N. by apply F, Hsome.
  - intros fd' l' Hs. unfold session in Hs.
    assert (Hs0 : session sv fd' = Some l') by (destruct (S fd') as [Es|[-> Es]]; unfold session; congruence).
    destruct (K fd' l' Hs0) as (Hb0 & i & E & Ei & Hu). destruct (decide (l' = l)) as [->|Hn].
    + split; [done|]. rewrite E in J. inversion J as [? i' (Ef & _ & _ & Hk) Ea Eb|].
      exists i'. split; [done|]. split; [congruence|auto].
    + unfold buffered. rewrite (I l' Hn). split; [|by exists i]. intros _. apply Hb0. congruence.
  - intros u k Hk. apply Hsome. destruct (U u) as [Eu|Eu]; apply (V u); congruence.
Qed.

Lemma sessions_busy l sv : sessions_ok None sv -> sessions_ok l sv.
Proof.
  intros [D F K V]. split; try done. intros fd l' Hs. destruct (K fd l' Hs) as [Hb Hi].
  split; [|done]. intros _. by apply Hb.
Qed.

Lemma opened_ok sv fd rb user :
  sessions_ok None sv -> session sv fd = None -> sessions_ok (Some (sv_next sv)) (opened sv fd rb user).
Proof.
  intros [[D1 D2] F K V] Hs.
  assert (Hnew : forall k, is_Some (sv_items sv !! k) -> k <> sv_next sv) by (intros k Hk; specialize (F k Hk); lia).
  split.
  - cbn. by rewrite !add_state_map.
  - intros k. cbn. destruct (decide (k = sv_next sv)) as [->|Hn]; [lia|].
    rewrite lookup_insert_ne by done. intros Hk%F. lia.
  - intros fd' l' Hs'. unfold session in Hs'. cbn [opened set_maps sv_states] in Hs'.
    destruct (decide (fd = fd')) as [->|Hn].
    + rewrite get_add_same in Hs'. injection Hs' as <-. split; [done|].
      eexists. rewrite opened_item. done.
    + rewrite get_add_other in Hs' by done. destruct (K fd' l' Hs') as (Hb & i & E & Hi).
      assert (l' <> sv_next sv) by (apply Hnew; by exists i).
      unfold buffered. cbn [opened set_maps sv_items set_items]. rewrite lookup_insert_ne by done.
      split; [|by exists i]. intros _. by apply Hb.
  - intros u k. cbn [opened set_maps sv_items set_items sv_userData].
    destruct (decide (user = u)) as [->|Hn].
    + rewrite get_add_same. intros [= <-]. by rewrite lookup_insert_eq.
    + rewrite get_add_other by done. intros Hk%V. by rewrite lookup_insert_ne by (apply not_eq_sym, Hnew, Hk).
Qed.

(** Serving a connection keeps the sessions in order, and the others as they
    are. *)
Lemma served_ok fd sv sv' : served fd sv sv' -> sessions_ok None sv -> sessions_ok None sv'.
Proof.
  intros [l Hs Ht Hb|rb u Hs Ht Hb|Hs ->| ->] Hok; [| | |done].
  - by apply (touched_ok fd l sv), sessions_busy.
  - by apply (touched_ok fd (sv_next sv) (opened sv fd rb u)), opened_ok.
  - destruct Hok. by split.
Qed.

Lemma touched_session fd l sv sv' fd' l' :
  touched false fd l sv sv' -> fd' <> fd -> l' <> l -> session sv fd' = Some l' ->
  session sv' fd' = Some l' /\ sv_items sv' !! l' = sv_items sv !! l'.
Proof.
  intros Ht Hf Hl Hs. split; [|by apply (t_items _ _ _ _ _ Ht)]. unfold session in *.
  destruct (t_states _ _ _ _ _ Ht fd') as [->|[-> _]]; done.
Qed.

Lemma served_session_other fd sv sv' fd' l :
  served fd sv sv' -> sessions_ok None sv -> fd' <> fd -> session sv fd' = Some l ->
  session sv' fd' = Some l /\ sv_items sv' !! l = sv_items sv !! l.
Proof.
  intros [k Hk Ht _|rb u Hk Ht _|Hk ->| ->] Hok Hf Hs; try done.
  - apply (touched_session fd k); try done. intros ->. apply Hf. by eapply session_inj.
  - destruct (ok_session _ _ Hok _ _ Hs) as (_ & i & E & _).
    assert (l <> sv_next sv) by (intros ->; specialize (ok_fresh _ _ Hok (sv_next sv) ltac:(by exists i)); lia).
    destruct (touched_session fd (sv_next sv) _ sv' fd' l Ht) as [Es ->]; try done.
    + unfold session. cbn. by rewrite get_add_other.
    + split; [done|]. cbn. by rewrite lookup_insert_ne.
Qed.

(** The posts go to the connection and to the shell client of its session. *)
Definition addressed (fd : Z) (sv : MmsServer) (p : Z * list byte) : Prop :=
  addressee fd (l ← session sv fd; sv_items sv !! l) (fst p).

Lemma served_posts fd sv sv' :
  served fd sv sv' -> exists new, sv_posts sv' = sv_posts sv ++ new /\ Forall (addressed fd sv) new.
Proof.
  intros [k Hk Ht _|rb u Hk Ht _|Hk ->| ->].
  - destruct (t_posts _ _ _ _ _ Ht) as (new & -> & Hf). exists new. split; [done|].
    unfold addressed. by rewrite Hk.
  - destruct (t_posts _ _ _ _ _ Ht) as (new & -> & Hf). exists new. split; [done|].
    eapply Forall_impl; [exact Hf|]. intros p. rewrite opened_item.
    intros [E|(i & [= <-] & Hn & _)]; [by left|].
    by cbn in Hn.
  - exists [(fd, [])]. split; [done|]. apply List.Forall_cons; [by left|apply List.Forall_nil].
  - exists []. by rewrite app_nil_r.
Qed.

(** ** [JsonProcess] *)

(** The variables of a connection that has not logged in. *)
Definition outside (rb : fastbuffer) : frame_vars := Vars (Some rb) None false.

(** A first frame that is a command leaves everything as it is. *)
Lemma json_turn_command fuel sv fd rb bs mysql :
  holds rb bs -> zlen bs < 2 ^ 30 -> is_command (first_frame bs) = true ->
  json_turn hst fuel sv (outside rb) fd mysql = Ok (sv, outside rb).
Proof.
  intros Hb Hl Hc. unfold json_turn. cbn [get_buf outside v_in_item v_readbuffer v_state of_option mbind result_bind].
  rewrite (parse_block rb bs Hb Hl). destruct (first_frame bs) as [[[[] offset] [j|]]|]; try done.
  cbn [mbind result_bind]. by destruct j.
Qed.

Lemma command_nonempty bs : is_command (first_frame bs) = true -> 0 < zlen bs.
Proof.
  intros Hc. destruct bs as [|b bs]; [|rewrite zlen_cons; pose proof (zlen_nonneg bs); lia].
  unfold first_frame in Hc. rewrite <- (app_nil_r (Some <$> [])) in Hc. by rewrite ParseCmd_short in Hc.
Qed.

Lemma json_loop_hangs fuel sv fd rb bs mysql :
  holds rb bs -> zlen bs < 2 ^ 30 -> is_command (first_frame bs) = true ->
  json_loop hst fuel sv (outside rb) fd mysql = Err NoFuel.
Proof.
  intros Hb Hl Hc. induction fuel as [|fuel IH]; cbn [json_loop]; [done|].
  rewrite (json_turn_command _ _ _ _ bs) by done.
  cbn [mbind result_bind get_buf outside v_in_item v_readbuffer of_option].
  rewrite (proj1 Hb), (proj2 (Z.ltb_lt _ _)) by (by apply command_nonempty). exact IH.
Qed.

Lemma login_branch_out sv rb fd login mysql :
  login_branch hst sv (outside rb) fd login mysql =
    login_branch hst (opened sv fd rb (Login_yyID login)) (Vars None (Some (sv_next sv)) true) fd login mysql.
Proof. reflexivity. Qed.

(** The turn of a connection that has not logged in: closed, or logged in. *)
Lemma json_turn_out fuel sv fd rb bs mysql :
  holds rb bs -> zlen bs < 2 ^ 30 -> is_command (first_frame bs) = false ->
  runs (json_turn hst fuel sv (outside rb) fd mysql) (fun r =>
    r = (post sv fd [], outside (clear rb)) \/
    exists user, turned fd (sv_next sv) (opened sv fd rb user) (Vars None (Some (sv_next sv)) true) bs
      (fst r, snd r)).
Proof.
  intros Hb Hl Hc. unfold json_turn. cbn [get_buf outside v_in_item v_readbuffer v_state of_option mbind result_bind].
  rewrite (parse_block rb bs Hb Hl). pose proof (first_frame_runs bs) as Hp.
  destruct (first_frame bs) as [[[err offset] oj]|e] eqn:Ef; [|done].
  cbn [mbind result_bind]. cbn [runs] in Hp.
  assert (Hclear : runs ('(sv, v) ← set_buf sv (outside rb) (clear rb); Ok (post sv fd [], v)) (fun r =>
    r = (post sv fd [], outside (clear rb)) \/
    exists user, turned fd (sv_next sv) (opened sv fd rb user) (Vars None (Some (sv_next sv)) true) bs
      (fst r, snd r))) by by left.
  destruct err; try exact Hclear. destruct oj as [j|]; [|exact Hclear]. destruct Hp as [Ho Ha].
  destruct j as [| |login| | | | | | | | | | | |]; try done.
  rewrite login_branch_out. set (v := Vars None _ true). set (sv1 := opened sv fd rb (Login_yyID login)).
  eapply runs_bind; [by apply (login_branch_in sv1 v fd (sv_next sv))|].
  intros [sv2 v2] [Ev Ht]. cbn [fst snd] in *. subst v2.
  eapply runs_mono; [apply (frame_turned fd (sv_next sv) sv1 sv2 v bs)|]; try done; [by apply opened_buffered|].
  intros r Hr. right. exists (Login_yyID login). by destruct r.
Qed.

Lemma json_loop_out fuel sv fd rb bs mysql :
  holds rb bs -> zlen bs < 2 ^ 30 -> zlen bs < Z.of_nat fuel -> is_command (first_frame bs) = false ->
  session sv fd = None ->
  runs (json_loop hst fuel sv (outside rb) fd mysql) (served fd sv).
Proof.
  intros Hb Hl Hf Hc Hs. pose proof (zlen_nonneg bs). destruct fuel as [|fuel]; [lia|]. cbn [json_loop].
  eapply runs_bind; [by apply (json_turn_out (S fuel) sv fd rb bs)|].
  intros [sv1 v1] [[= -> ->]|(user & Ev & Ht & bs1 & Hs1 & Hl1)].
  - cbn. by apply served_closed.
  - cbn [fst snd] in *. subst v1. set (v := Vars None _ true) in *.
    assert (Hv : in_session (sv_next sv) v) by done.
    destruct (get_buf_in sv1 v (sv_next sv) bs1 Hv Hs1) as (fb & -> & Hb1). cbn [mbind result_bind].
    rewrite (proj1 Hb1). destruct (Z.ltb_spec 0 (zlen bs1)) as [Hp|Hp].
    + destruct Hl1 as [->|Hl1]; [by vm_compute in Hp|].
      eapply runs_mono; [apply (json_loop_in fuel sv1 v fd (sv_next sv) bs1); [done|done|lia|lia]|].
      intros sv2 [Ht2 Hs2]. apply (served_login _ _ _ rb user); [done|by transitivity sv1|done].
    + cbn [runs]. apply (served_login _ _ _ rb user); [done|done|].
      destruct bs1 as [|b bs1]; [done|]. rewrite zlen_cons in Hp. pose proof (zlen_nonneg bs1). lia.
Qed.

Lemma JsonProcess_runs fuel sv fd rb bs mysql :
  sessions_ok None sv -> holds rb bs -> zlen bs < 2 ^ 30 -> zlen bs < Z.of_nat fuel ->
  (session sv fd = None -> is_command (first_frame bs) = false) ->
  runs (JsonProcess hst fuel sv fd rb mysql) (served fd sv).
Proof.
  intros Hok Hb Hl Hf Hc. unfold JsonProcess. destruct (fd <=? 0); [by apply served_not|].
  fold (session sv fd). destruct (session sv fd) as [l|] eqn:Es.
  2:{ apply (json_loop_out fuel sv fd rb bs); [done..|by apply Hc|done]. }
  destruct (ok_session _ _ Hok _ _ Es) as (Hi & i & E & _).
  destruct Hi as (i' & fb & E' & Ei & Hfb); [done|]. rewrite E in E'. injection E' as <-.
  unfold item. rewrite E. cbn [of_option mbind result_bind]. rewrite Ei, (contents_holds _ _ Hb).
  cbn [mbind result_bind]. destruct (put_spec fb [] bs Hfb) as (fb' & -> & Hfb' & _); [done|].
  cbn [mbind result_bind]. set (sv1 := put_item sv l (set_readbuffer i (Some fb'))).
  assert (Ht : touched false fd l sv sv1) by by apply (touched_put _ _ _ _ i).
  eapply runs_mono; [apply (json_loop_in fuel sv1 _ fd l bs); [done| |done|done]|].
  - exists (set_readbuffer i (Some fb')), fb'. split; [|done]. cbn. by rewrite lookup_insert_eq.
  - intros sv2 [Ht2 Hs2]. apply (served_session _ _ _ l); [done|by transitivity sv1|done].
Qed.

Lemma JsonProcess_hangs fuel sv fd rb bs mysql :
  0 < fd -> session sv fd = None -> holds rb bs -> zlen bs < 2 ^ 30 -> is_command (first_frame bs) = true ->
  JsonProcess hst fuel sv fd rb mysql = Err NoFuel.
Proof.
  intros Hfd Es Hb Hl Hc. unfold JsonProcess. rewrite (proj2 (Z.leb_gt _ _)) by lia.
  fold (session sv fd). rewrite Es. by apply (json_loop_hangs fuel sv fd rb bs).
Qed.

End loop.
