(* ===== verification/ServerReach.v ===== *)
(** * Reachable states of the server

    The event loop queues jobs, the workers take them: whatever the order of
    their steps, the sessions stay in order. *)

From S2P Require Import Prelude Redis Json Ssl SslSpec FastBuffer Queues Messages Protocol ProtocolSpec.
From S2P Require Import Digits Sds Reply EventLoop EventLoopSpec Server ServerSpec ServerSession ServerLoop.

Section reach.
  Context `{JsonSize} `{OpenSSLLaws} (hst : host).
  Hypothesis stack_size : zlen (stack_array hst) = AES_BLOCK_SIZE.

(** ** The shell client

    A job of the shell client's port changes the descriptors of the shell
    clients, and posts to the descriptor it came from. *)

Definition same_session (i i' : Item_data) : Prop := exists fd, i' = set_shell i fd.

#[local] Instance same_session_po : PreOrder same_session.
Proof.
  split; [intros i; exists (i_shellClient_fd i); by destruct i|].
  intros i i' i'' [fd ->] [fd' ->]. by exists fd'.
Qed.

Record execed (fd : Z) (sv sv' : MmsServer) : Prop := {
  e_items : forall k, option_Forall2 same_session (sv_items sv !! k) (sv_items sv' !! k);
  e_rest : sv_states sv' = sv_states sv /\ sv_userData sv' = sv_userData sv /\ sv_next sv' = sv_next sv /\
    sv_boss sv' = sv_boss sv /\ sv_threadnum sv' = sv_threadnum sv /\ sv_threads sv' = sv_threads sv;
  e_posts : exists new, sv_posts sv' = sv_posts sv ++ new /\ Forall (fun p => fst p = fd) new;
}.

#[local] Instance execed_po fd : PreOrder (execed fd).
Proof.
  split.
  - intros sv. split; [reflexivity|done|]. exists []. by rewrite app_nil_r.
  - intros sv1 sv2 sv3 [I1 (? & ? & ? & ? & ? & ?) (p1 & P1 & F1)] [I2 (? & ? & ? & ? & ? & ?) (p2 & P2 & F2)]. split.
    + intros k. by transitivity (sv_items sv2 !! k).
    + repeat split; congruence.
    + exists (p1 ++ p2). rewrite P2, P1, app_assoc. split; [done|]. by apply Forall_app.
Qed.

Lemma execed_put fd sv l i to :
  sv_items sv !! l = Some i -> execed fd sv (put_item sv l (set_shell i to)).
Proof.
  intros E. split; [|done|exists []; by rewrite app_nil_r]. intros k. cbn.
  destruct (decide (k = l)) as [->|Hn]; [|by rewrite lookup_insert_ne].
  rewrite lookup_insert_eq, E. constructor. by exists to.
Qed.

Lemma execed_post fd sv bs : execed fd sv (post sv fd bs).
Proof.
  split; [reflexivity|done|]. exists [(fd, bs)]. split; [done|].
  apply List.Forall_cons; [done|apply List.Forall_nil].
Qed.

Lemma openURL_execed fd l sv : runs (openURL sv fd l) (execed fd sv).
Proof.
  unfold openURL. apply with_item. intros i _.
  apply (runs_bind _ _ (fun _ => True)); [by apply runs_option|]. intros c _.
  apply (runs_bind _ _ (fun _ => True)); [by apply runs_option|]. intros c' _.
  unfold sendCmd. apply (runs_bind _ _ (fun r => execed fd sv (snd r))); [|by intros [b sv1]].
  eapply runs_bind; [apply FormatCmd_runs|]. intros [ok str] _.
  destruct (_ || _); [apply execed_po|]. eapply runs_bind; [apply put_runs|]. intros fb _.
  eapply runs_bind; [apply contents_runs|]. intros bs _. apply execed_post.
Qed.

Lemma exec_loop_runs fuel sv fd buf bs :
  holds buf bs -> zlen bs < 2 ^ 30 -> zlen bs < Z.of_nat fuel -> runs (exec_loop fuel sv fd buf) (execed fd sv).
Proof.
  revert sv buf bs. induction fuel as [|fuel IH]; intros sv buf bs Hb Hl Hf; [pose proof (zlen_nonneg bs); lia|].
  cbn [exec_loop]. rewrite (parse_block buf bs Hb Hl). eapply runs_bind; [apply first_frame_runs|].
  intros [[err offset] oj] Hp.
  eapply (runs_bind _ _ (fun r => execed fd sv (fst r) /\
    exists bs', holds (snd r) bs' /\ (bs' = [] \/ zlen bs' < zlen bs))).
  - assert (Hclear : runs (Ok (sv, clear buf)) (fun r => execed fd sv (fst r) /\
      exists bs', holds (snd r) bs' /\ (bs' = [] \/ zlen bs' < zlen bs))).
    { split; [apply execed_po|]. exists []. split; [by eapply clear_holds|by left]. }
    destruct err; try exact Hclear. destruct oj as [j|]; [|exact Hclear]. destruct Hp as [Ho _].
    eapply (runs_bind _ _ (execed fd sv)).
    + destruct j; try (apply execed_po). destruct (get_state _ _) as [l|]; [|apply execed_po].
      apply with_item. intros i E. eapply runs_mono; [apply openURL_execed|].
      intros sv1 Hsv. cbv beta in Hsv. transitivity (put_item sv l (set_shell i fd)); [by apply execed_put|done].
    + intros sv1 Hsv. destruct (drop_front_spec buf bs offset Hb) as (buf' & -> & Hb' & _); [lia|].
      cbn [mbind result_bind runs fst snd]. split; [done|]. eexists. split; [done|]. right. len_lia.
  - intros [sv1 buf1] (Hsv & bs1 & Hb1 & Hl1). cbn [fst snd] in *. rewrite (proj1 Hb1).
    destruct (Z.ltb_spec 0 (zlen bs1)) as [Hp1|Hp1]; [|done].
    destruct Hl1 as [->|Hl1]; [by vm_compute in Hp1|].
    eapply runs_mono; [apply (IH sv1 buf1 bs1); [done|lia|lia]|]. intros sv2 Hsv2. by transitivity sv1.
Qed.

Lemma execed_ok fd sv sv' : execed fd sv sv' -> sessions_ok None sv -> sessions_ok None sv'.
Proof.
  intros [I (E1 & E2 & E3 & _) _] [D F K V].
  assert (Hsome : forall k, is_Some (sv_items sv' !! k) <-> is_Some (sv_items sv !! k)).
  { intros k. by destruct (I k). }
  split; [by rewrite E1, E2| | |].
  - intros k Hk. rewrite E3. by apply F, Hsome.
  - intros k l. unfold session. rewrite E1. intros Hs. destruct (K k l Hs) as (Hb & i & E & Hi).
    specialize (I l). rewrite E in I. inversion I as [? i' [to ->] Ea Eb|]. split.
    + intros Hn. destruct (Hb Hn) as (i' & fb & E' & Ei & Hfb). exists (set_shell i to), fb.
      split; [done|]. split; [|done]. cbn. congruence.
    + by exists (set_shell i to).
  - intros u k. rewrite E2. intros Hk. by apply Hsome, (V u).
Qed.

(** ** The threads *)

Definition job_ok (info : BossInfo) : Prop :=
  forall fb, bi_buf info = Some fb -> exists bs, holds fb bs.

Definition job_size (info : BossInfo) : Z :=
  match bi_buf info with Some fb => fb_size fb | None => 0 end.

Record server_ok (sv : MmsServer) : Prop := {
  s_sessions : sessions_ok None sv;
  s_boss : boss_ok (sv_boss sv) /\ zlen (bm_workers (sv_boss sv)) = sv_threadnum sv /\ 0 < sv_threadnum sv;
  s_default : bm_default (sv_boss sv) = new_BossInfo;
  s_jobs : forall id, 0 <= id -> Forall job_ok (jobs (sv_boss sv) id);
}.

(** Only the jobs of one worker change. *)
Lemma server_ok_boss sv id q d threads :
  server_ok sv -> worker_id (sv_boss sv) id -> Forall job_ok q ->
  server_ok (set_boss sv (bm_set (sv_boss sv) id (q, d)) threads).
Proof.
  intros [[D F K V] (B & W & P) Df J] Hid Hq. split; cbn.
  - by split.
  - split; [by apply bm_set_ok|]. split; [|done]. rewrite <- W. cbn. len_lia.
  - done.
  - intros k Hk. rewrite bm_set_jobs by done. case_bool_decide; [done|by apply J].
Qed.

Lemma server_ok_threads sv threads : server_ok sv -> server_ok (set_boss sv (sv_boss sv) threads).
Proof. intros [[D F K V] B Df J]. split; try done. Qed.

(** ** The event loop's side *)

(** The worker the jobs of a connection go to. *)
Definition worker_of (sv : MmsServer) (fd : Z) : Z := Z.rem fd (sv_threadnum sv).

Lemma worker_of_id sv fd : server_ok sv -> 0 <= fd -> worker_id (sv_boss sv) (worker_of sv fd).
Proof.
  intros Hok Hfd. destruct (s_boss _ Hok) as (_ & W & P). unfold worker_id. rewrite W.
  apply Z.rem_bound_pos; lia.
Qed.

Definition queued (sv : MmsServer) (id : Z) (info : BossInfo) : MmsServer :=
  set_boss sv (bm_set (sv_boss sv) id (jobs (sv_boss sv) id ++ [info], touch (sv_boss sv) id)) (sv_threads sv).

Lemma receive_spec sv fd fb port :
  server_ok sv -> 0 <= fd ->
  let id := worker_of sv fd in
  let sv1 := queued sv id (Boss (Some fb) fd port) in
  mms_data_receive sv fd (Some fb) port =
    Ok (false, match touch (sv_boss sv) id with Some t => sem_post sv1 t | None => sv1 end).
Proof.
  intros Hok Hfd id sv1. pose proof (worker_of_id sv fd Hok Hfd) as Hw. fold id in Hw.
  destruct (s_boss _ Hok) as (B & W & P). unfold mms_data_receive. fold (worker_of sv fd) id.
  rewrite (proj2 (Z.eqb_neq _ _)) by lia. cbv zeta. destruct Hw as [H1' H2'].
  rewrite (proj2 (Z.leb_le _ _)), (proj2 (Z.ltb_lt _ _)) by lia. cbn [andb c_assert mbind result_bind].
  rewrite push_job_spec by done. cbn [mbind result_bind]. fold (queued sv id (Boss (Some fb) fd port)) sv1.
  rewrite touch_spec; [|by apply bm_set_ok|by apply bm_set_id]. cbn [mbind result_bind].
  cbn [sv1 queued set_boss sv_boss]. by rewrite bm_set_touch, bool_decide_eq_true_2.
Qed.

Lemma receive_runs sv fd fb bs port :
  server_ok sv -> 0 <= fd -> holds fb bs ->
  exists sv', mms_data_receive sv fd (Some fb) port = Ok (false, sv') /\ server_ok sv'.
Proof.
  intros Hok Hfd Hb. rewrite receive_spec by done. cbv zeta. eexists. split; [done|].
  assert (Hok' : server_ok (queued sv (worker_of sv fd) (Boss (Some fb) fd port))).
  { pose proof (worker_of_id sv fd Hok Hfd) as Hw. apply server_ok_boss; [done|done|].
    apply Forall_app. split; [by apply (s_jobs _ Hok), Hw|].
    apply List.Forall_cons; [|apply List.Forall_nil]. intros fb' [= <-]. by exists bs. }
  destruct (touch _ _); [|done]. by apply server_ok_threads.
Qed.

Lemma FormatCmd_logout user :
  uint user -> exists str, FormatCmd (Some (Msg_Logout (Logout (Some user)))) [] = Ok (true, str) /\ zlen str < 100.
Proof.
  intros Hu. eexists. split; [reflexivity|]. unfold uint in Hu.
  pose proof (print_u_length 10 user ltac:(lia) ltac:(lia)) as Hp.
  cbn -[print_u tos_u Z.add Z.lt word_bytes zlen]. unfold tos_u.
  repeat (rewrite ?zlen_app, ?zlen_cons). change (zlen (word_bytes _)) with 2.
  change (zlen (print_u YY_JSON_LOGOUT)) with 4. change (zlen []) with 0. lia.
Qed.

Lemma close_runs sv fd :
  server_ok sv -> 0 <= fd -> exists sv', mms_fd_close hst sv fd = Ok sv' /\ server_ok sv'.
Proof.
  intros Hok Hfd. unfold mms_fd_close. fold (session sv fd).
  destruct (session sv fd) as [l|] eqn:Es; [|by exists sv].
  destruct (ok_session _ _ (s_sessions _ Hok) _ _ Es) as (_ & i & E & _ & Hu).
  unfold item. rewrite E. cbn [of_option mbind result_bind].
  destruct (FormatCmd_logout (i_yyID i) Hu) as (str & -> & Hl). cbn [mbind result_bind negb].
  destruct (put_spec new_fastbuffer [] str new_holds) as (fb & -> & Hb & _); [change (zlen []) with 0; lia|].
  cbn [mbind result_bind].
  destruct (receive_runs sv fd fb str (g_port hst) Hok Hfd Hb) as (sv' & -> & Hok').
  by exists sv'.
Qed.

(** ** The workers' side *)

Lemma server_ok_sessions sv sv' :
  server_ok sv -> sessions_ok None sv' -> sv_boss sv' = sv_boss sv -> sv_threadnum sv' = sv_threadnum sv ->
  server_ok sv'.
Proof. intros [S B D J] Hs Eb Et. split; rewrite ?Eb, ?Et; done. Qed.

Lemma served_threads fd sv sv' :
  served fd sv sv' ->
  sv_boss sv' = sv_boss sv /\ sv_threadnum sv' = sv_threadnum sv /\ sv_threads sv' = sv_threads sv.
Proof.
  intros [l _ [_ _ _ _ _ (_ & E & E'' & E') _] _|rb u _ [_ _ _ _ _ (_ & E & E'' & E') _] _|_ ->| ->]; done.
Qed.

(** A job that a worker has finished. *)
Lemma process_data_ok fuel sv info mysql sv' :
  server_ok sv -> job_ok info -> job_size info < Z.min (2 ^ 30) (Z.of_nat fuel) ->
  process_data hst fuel sv info mysql = Ok sv' ->
  server_ok sv' /\ (bi_port info <> g_mangport hst -> served (bi_fd info) sv sv') /\
  sv_boss sv' = sv_boss sv /\ sv_threads sv' = sv_threads sv /\ sv_posts sv `prefix_of` sv_posts sv'.
Proof.
  intros Hok Hj Hf. unfold process_data, job_size, job_ok in *. destruct (bi_buf info) as [fb|].
  2:{ intros [= <-]. split; [done|]. split; [|done]. intros _. by apply served_not. }
  destruct (Hj fb eq_refl) as (bs & Hb). rewrite (proj1 Hb) in Hf.
  assert (Hl : zlen bs < 2 ^ 30) by lia. assert (Hf' : zlen bs < Z.of_nat fuel) by lia. clear Hf.
  destruct (Z.eqb_spec (bi_port info) (g_mangport hst)) as [Ep|Ep]; intros E.
  - unfold ProcessMmsExecData in E.
    pose proof (runs_Ok _ _ _ (exec_loop_runs fuel sv (bi_fd info) fb bs Hb Hl Hf') E) as He.
    destruct (e_rest _ _ _ He) as (_ & _ & _ & E1 & E2 & E3). destruct (e_posts _ _ _ He) as (new & Ep' & _).
    split; [|by split_and!; [..|exists new]].
    eapply server_ok_sessions; try done. eapply execed_ok; [exact He|apply s_sessions, Hok].
  - assert (Hs : served (bi_fd info) sv sv').
    { eapply (runs_Ok (JsonProcess hst fuel sv (bi_fd info) fb mysql)); [|exact E].
      destruct (Z.leb_spec (bi_fd info) 0) as [Hfd|Hfd].
      { unfold JsonProcess. rewrite (proj2 (Z.leb_le _ _) Hfd). by apply served_not. }
      apply (JsonProcess_runs hst stack_size fuel sv (bi_fd info) fb bs); try done; [apply s_sessions, Hok|].
      intros Es. destruct (is_command (first_frame bs)) eqn:Ec; [|done].
      by rewrite (JsonProcess_hangs hst fuel sv (bi_fd info) fb bs) in E. }
    destruct (served_threads _ _ _ Hs) as (E1 & E2 & E3). destruct (served_posts _ _ _ Hs) as (new & Ep' & _).
    split; [|by split_and!; [..|exists new]].
    eapply server_ok_sessions; try done. eapply served_ok; [exact Hs|apply s_sessions, Hok].
Qed.

Lemma pop_ok sv id info b threads :
  server_ok sv -> worker_id (sv_boss sv) id -> PopJob (sv_boss sv) id = Ok (info, b) ->
  job_ok info /\ server_ok (set_boss sv b threads).
Proof.
  intros Hok Hw. destruct (s_boss _ Hok) as (B & _ & _). rewrite pop_job_spec by done.
  pose proof (s_jobs _ Hok id (proj1 Hw)) as Hj. destruct (jobs (sv_boss sv) id) as [|t0 ts]; intros [= <- <-].
  - split; [by rewrite (s_default _ Hok)|]. by apply server_ok_threads.
  - split; [exact (Forall_inv Hj)|]. by apply server_ok_boss, (Forall_inv_tail Hj).
Qed.

(** A turn of the worker [t] that goes through; [info] is the job it finds. *)
Lemma work_turn_ok fuel sv t mysql go sv' :
  server_ok sv -> worker_id (sv_boss sv) (Z.of_nat t) ->
  (forall info b, PopJob (sv_boss sv) (Z.of_nat t) = Ok (info, b) ->
     job_size info < Z.min (2 ^ 30) (Z.of_nat fuel)) ->
  work_turn hst fuel sv t mysql = Ok (go, sv') ->
  server_ok sv' /\ forall info b, PopJob (sv_boss sv) (Z.of_nat t) = Ok (info, b) ->
    bi_port info <> g_mangport hst ->
    exists sv1, sv_states sv1 = sv_states sv /\ sv_items sv1 = sv_items sv /\ sv_posts sv1 = sv_posts sv /\
      served (bi_fd info) sv1 sv' /\ sessions_ok None sv1.
Proof.
  intros Hok Hw Hsz. unfold work_turn.
  destruct (sv_threads sv !! t) as [d|]; cbn [of_option mbind result_bind]; [|done].
  destruct (td_sem d <=? 0); [done|]. cbv zeta. set (threads := <[t := _]> _).
  assert (Hidle : forall sv1, sv1 = set_boss sv (sv_boss sv) threads -> sessions_ok None sv1).
  { intros sv1 ->. apply s_sessions. by apply server_ok_threads. }
  destruct (td_exitflag d).
  { intros [= <- <-]. split; [by apply server_ok_threads|]. intros info b _ _.
    exists (set_boss sv (sv_boss sv) threads). repeat (split; [done|]). split; [by apply served_not|by apply Hidle]. }
  change (sv_boss (set_boss sv (sv_boss sv) threads)) with (sv_boss sv).
  destruct (PopJob (sv_boss sv) (Z.of_nat t)) as [[info b]|] eqn:Ep; [|done]. cbn [mbind result_bind].
  specialize (Hsz info b eq_refl). set (sv1 := set_boss _ b _).
  destruct (pop_ok sv (Z.of_nat t) info b threads Hok Hw Ep) as [Hj Hok1].
  assert (Hend : server_ok sv1 -> served (bi_fd info) sv1 sv1) by (intros _; by apply served_not).
  assert (Hgo : forall sv2, server_ok sv2 -> (bi_port info <> g_mangport hst -> served (bi_fd info) sv1 sv2) ->
    server_ok sv2 /\ forall info' b', Ok (info, b) = Ok (info', b') -> bi_port info' <> g_mangport hst ->
      exists sv1, sv_states sv1 = sv_states sv /\ sv_items sv1 = sv_items sv /\ sv_posts sv1 = sv_posts sv /\
        served (bi_fd info') sv1 sv2 /\ sessions_ok None sv1).
  { intros sv2 Hok2 Hs. split; [done|]. intros info' b' [= <- <-] Hp. exists sv1.
    repeat (split; [done|]). split; [by apply Hs|apply s_sessions, Hok1]. }
  destruct (bi_fd info =? 0) eqn:Efd.
  { intros [= <- <-]. apply Hgo; auto. }
  destruct (bi_buf info) as [fb|] eqn:Eb.
  2:{ intros [= <- <-]. apply Hgo; auto. }
  destruct (process_data hst fuel sv1 info mysql) as [sv2|] eqn:Ed; cbn [mbind result_bind]; [|done].
  intros [= <- <-]. destruct (process_data_ok fuel sv1 info mysql sv2 Hok1 Hj Hsz Ed) as (? & ? & _). by apply Hgo.
Qed.

(** ** From the start of the server *)

Lemma start_threads_ok n i sv :
  server_ok sv -> Z.of_nat (i + n) <= sv_threadnum sv -> exists sv', start_threads n i sv = Ok sv' /\ server_ok sv'.
Proof.
  revert i sv. induction n as [|n IH]; intros i sv Hok Hn; cbn [start_threads]; [by exists sv|].
  destruct (s_boss _ Hok) as (B & W & P). assert (Hw : worker_id (sv_boss sv) (Z.of_nat i)) by (split; lia).
  rewrite set_spec by done. cbn [mbind result_bind]. apply IH; [|cbn; lia].
  apply server_ok_boss; [done|done|]. apply (s_jobs _ Hok). lia.
Qed.

Lemma init_ok n sv :
  0 < n -> mms_init hst (new_MmsServer hst) n true true true = Ok (true, sv) -> server_ok sv.
Proof.
  intros Hn. unfold mms_init. cbn [negb]. cbv zeta.
  destruct (redis_Connect _ _ _ _) as [[connected redis]|]; cbn [mbind result_bind]; [|done].
  destruct (init_spec (sv_boss (set_redis (set_threadnum (new_MmsServer hst) n) redis)) n)
    as (b & -> & B & W & D & J); [lia|]. cbn [mbind result_bind].
  set (sv0 := set_boss _ b _). destruct (start_threads_ok (Z.to_nat n) 0 sv0) as (sv' & -> & Hok).
  - split; [|done|exact D|].
    + split; [done| | |]; cbn; [intros l [? E]; by rewrite lookup_empty in E|..];
        intros k l Hk; unfold session in *; cbn in Hk; by rewrite get_new in Hk.
    + intros id _. change (sv_boss sv0) with b. by rewrite J.
  - cbn. lia.
  - by intros [= <-].
Qed.

Lemma redis_cb_ok sv h reply fd sv' : server_ok sv -> redis_cb sv h reply fd = Ok sv' -> server_ok sv'.
Proof.
  assert (Hpost : forall bs, server_ok sv -> server_ok (post sv fd bs)).
  { intros bs [[D F K V] B Df J]. by split; [split|..]. }
  intros Hok. unfold redis_cb. destruct reply as [l|]; [|by intros [= <-]].
  destruct (of_option _ _) as [r|]; cbn [mbind result_bind]; [|done].
  destruct (negb _); [by intros [= <-]|]. destruct (put _ _) as [fb|]; cbn [mbind result_bind]; [|done].
  destruct (of_option _ (rp_element r)); cbn [mbind result_bind]; [|done].
  destruct (of_option _ (rp_elements r)); cbn [mbind result_bind]; [|done].
  destruct (echo_elements _ _ _) as [fb'|]; cbn [mbind result_bind]; [|done].
  destruct (0 <? _); [|by intros [= <-]]. destruct (contents fb'); cbn [mbind result_bind]; [|done].
  intros [= <-]. by apply Hpost.
Qed.

Lemma redis_replies_ok calls sv sv' : server_ok sv -> redis_replies calls sv = Ok sv' -> server_ok sv'.
Proof.
  revert sv. induction calls as [|[[h reply] privdata] calls IH]; intros sv Hok; cbn [redis_replies]; [by intros [= <-]|].
  destruct reply as [|l|]; [done| |done]. destruct privdata as [| |fd]; [|done|].
  all: destruct (redis_cb sv h (Some l) _) as [sv1|] eqn:E; cbn [mbind result_bind]; [|done].
  all: apply IH; by eapply redis_cb_ok.
Qed.

Lemma handle_redis_ok ev sv sv' : server_ok sv -> handle_redis hst ev sv = Ok sv' -> server_ok sv'.
Proof.
  intros Hok. unfold handle_redis. destruct (redis_handler hst ev (sv_redis sv)) as [st|]; cbn [mbind result_bind]; [|done].
  apply redis_replies_ok. destruct Hok as [[D F K V] B Df J]. by split; [split|..].
Qed.

Lemma stop_threads_ok n i sv sv' : server_ok sv -> stop_threads n i sv = Ok sv' -> server_ok sv'.
Proof.
  revert i sv. induction n as [|n IH]; intros i sv Hok; cbn [stop_threads]; [by intros [= <-]|].
  destruct (GetWorkerTouch _ _) as [[t|]|]; cbn [mbind result_bind]; [|by apply IH|done].
  apply IH. by repeat apply server_ok_threads.
Qed.

(** The job the worker [t] takes with its next turn, unless it leaves. *)
Definition takes (sv : MmsServer) (t : nat) : list (nat * BossInfo) :=
  match sv_threads sv !! t, jobs (sv_boss sv) (Z.of_nat t) with
  | Some (Thread _ false), info :: _ => [(t, info)]
  | _, _ => []
  end.

(** The steps of the event loop, of the workers and of the redis client, in any
    order, each with the jobs that are taken.  A step that ends in a fault has no
    next state. *)
Inductive server_step (sv : MmsServer) : list (nat * BossInfo) -> MmsServer -> Prop :=
| step_receive fd fb bs port keep sv' :
    0 <= fd -> holds fb bs -> mms_data_receive sv fd (Some fb) port = Ok (keep, sv') -> server_step sv [] sv'
| step_close fd sv' : 0 <= fd -> mms_fd_close hst sv fd = Ok sv' -> server_step sv [] sv'
| step_work t fuel mysql go sv' :
    worker_id (sv_boss sv) (Z.of_nat t) ->
    (forall info b, PopJob (sv_boss sv) (Z.of_nat t) = Ok (info, b) ->
       job_size info < Z.min (2 ^ 30) (Z.of_nat fuel)) ->
    work_turn hst fuel sv t mysql = Ok (go, sv') -> server_step sv (takes sv t) sv'
| step_redis ev sv' : handle_redis hst ev sv = Ok sv' -> server_step sv [] sv'
| step_end sv' : run_end sv = Ok sv' -> server_step sv [] sv'.

Inductive reachable : MmsServer -> Prop :=
| reach_init n sv : 0 < n -> mms_init hst (new_MmsServer hst) n true true true = Ok (true, sv) -> reachable sv
| reach_step sv out sv' : reachable sv -> server_step sv out sv' -> reachable sv'.

Lemma step_ok sv out sv' : server_ok sv -> server_step sv out sv' -> server_ok sv'.
Proof.
  intros Hok [fd fb bs port keep sv1 Hfd Hb E|fd sv1 Hfd E|t fuel mysql go sv1 Hw Hsz E|ev sv1 E|sv1 E].
  - destruct (receive_runs sv fd fb bs port Hok Hfd Hb) as (sv2 & E' & Hok'). congruence.
  - destruct (close_runs sv fd Hok Hfd) as (sv2 & E' & Hok'). congruence.
  - by destruct (work_turn_ok fuel sv t mysql go sv1 Hok Hw Hsz E).
  - by eapply handle_redis_ok.
  - by eapply stop_threads_ok.
Qed.

Lemma reachable_ok sv : reachable sv -> server_ok sv.
Proof. induction 1 as [n sv Hn E|sv out sv' _ IH Hs]; [by eapply init_ok|by eapply step_ok]. Qed.

End reach.
