(* ===== verification/ServerThreads.v ===== *)
(** * The worker threads

    A semaphore per worker counts the jobs in its queue: no wake-up is lost, so a
    worker sleeps only when it has nothing to do.  When the loop ends every
    worker is told to leave, and does so at its next turn. *)

From S2P Require Import Prelude Redis Json Ssl SslSpec FastBuffer Queues Messages Protocol ProtocolSpec.
From S2P Require Import Digits Sds Reply EventLoop EventLoopSpec Server ServerSpec ServerSession ServerLoop.
From S2P Require Import ServerReach.

Section threads.
  Context `{JsonSize} `{OpenSSLLaws} (hst : host).
  Hypothesis stack_size : zlen (stack_array hst) = AES_BLOCK_SIZE.

(** ** The invariant *)

Definition jobs_of (sv : MmsServer) (t : nat) : list BossInfo := jobs (sv_boss sv) (Z.of_nat t).

Definition worker (sv : MmsServer) (t : nat) : Prop := worker_id (sv_boss sv) (Z.of_nat t).

(** The semaphore of a worker that has not been told to leave. *)
Definition counts (d : thread_data) (q : list BossInfo) : Prop :=
  0 <= td_sem d /\ (td_exitflag d = false -> td_sem d = zlen q).

Definition threads_ok (sv : MmsServer) : Prop :=
  forall t, worker sv t ->
    touch (sv_boss sv) (Z.of_nat t) = Some t /\
    exists d, sv_threads sv !! t = Some d /\ counts d (jobs_of sv t).

Lemma threads_set sv t q d :
  threads_ok sv -> worker sv t -> counts d q ->
  threads_ok (set_boss sv (bm_set (sv_boss sv) (Z.of_nat t) (q, Some t)) (<[t := d]> (sv_threads sv))).
Proof.
  intros Hok Hw Hd t' Hw'. unfold worker, jobs_of in *. cbn [set_boss sv_boss sv_threads] in *.
  rewrite bm_set_id in Hw'. rewrite bm_set_touch, bm_set_jobs by (done || lia). cbn [fst snd].
  destruct (decide (t = t')) as [<-|Hn].
  - rewrite !bool_decide_eq_true_2 by done. split; [done|]. exists d. by rewrite lookup_insert_eq.
  - rewrite !bool_decide_eq_false_2 by lia. rewrite lookup_insert_ne by done. by apply Hok.
Qed.

Lemma threads_put sv t d :
  threads_ok sv -> worker sv t -> counts d (jobs_of sv t) ->
  threads_ok (set_boss sv (sv_boss sv) (<[t := d]> (sv_threads sv))).
Proof.
  intros Hok Hw Hd t' Hw'. unfold worker, jobs_of in *. cbn [set_boss sv_boss sv_threads] in *.
  destruct (decide (t = t')) as [<-|Hn].
  - split; [by apply Hok|]. exists d. by rewrite lookup_insert_eq.
  - rewrite lookup_insert_ne by done. by apply Hok.
Qed.

Lemma threads_same sv sv' :
  sv_boss sv' = sv_boss sv -> sv_threads sv' = sv_threads sv -> threads_ok sv -> threads_ok sv'.
Proof. intros Eb Et Hok t. unfold worker, jobs_of. rewrite Eb, Et. apply Hok. Qed.

Lemma alter_some {A} (f : A -> A) (m : gmap nat A) t d : m !! t = Some d -> alter f t m = <[t := f d]> m.
Proof.
  intros E. apply map_eq. intros k. destruct (decide (t = k)) as [<-|Hn].
  - by rewrite lookup_alter_eq, E, lookup_insert_eq.
  - by rewrite lookup_alter_ne, lookup_insert_ne.
Qed.

(** ** The steps *)

Lemma receive_threads sv fd fb port keep sv' :
  server_ok sv -> threads_ok sv -> 0 <= fd -> mms_data_receive sv fd (Some fb) port = Ok (keep, sv') ->
  threads_ok sv' /\
  forall t, exists new, jobs_of sv' t = jobs_of sv t ++ new.
Proof.
  intros Hok Ht Hfd. rewrite receive_spec by done. cbv zeta.
  pose proof (worker_of_id sv fd Hok Hfd) as Hw. set (id := worker_of sv fd) in *.
  assert (Eid : id = Z.of_nat (Z.to_nat id)) by (destruct Hw; lia). set (t := Z.to_nat id) in *.
  rewrite Eid in *. destruct (Ht t Hw) as (Etouch & d & Ed & H1' & H2'). rewrite Etouch. intros [= _ <-].
  unfold sem_post, queued. rewrite Etouch. cbn [set_boss sv_boss sv_threads].
  rewrite (alter_some _ _ _ d Ed). split.
  - refine (threads_set sv t (_ ++ [_]) (Thread (td_sem d + 1) (td_exitflag d)) Ht Hw _).
    split; cbn; [lia|]. intros Hf. rewrite (H2' Hf). unfold jobs_of. len_lia.
  - intros t'. unfold jobs_of. cbn [set_boss sv_boss]. rewrite bm_set_jobs by (done || lia). case_bool_decide as E.
    + exists [Boss (Some fb) fd port]. cbn [fst]. by rewrite E.
    + exists []. by rewrite app_nil_r.
Qed.

Lemma close_threads sv fd sv' :
  server_ok sv -> threads_ok sv -> 0 <= fd -> mms_fd_close hst sv fd = Ok sv' ->
  threads_ok sv' /\ forall t, exists new, jobs_of sv' t = jobs_of sv t ++ new.
Proof.
  intros Hok Ht Hfd. assert (Hsame : threads_ok sv /\ forall t, exists new, jobs_of sv t = jobs_of sv t ++ new).
  { split; [done|]. intros t. exists []. by rewrite app_nil_r. }
  unfold mms_fd_close. destruct (get_state _ _) as [l|]; [|by intros [= <-]].
  destruct (item sv l) as [i|]; cbn [mbind result_bind]; [|done].
  destruct (FormatCmd _ _) as [[ok str]|]; cbn [mbind result_bind]; [|done].
  destruct ok; cbn [negb]; [|by intros [= <-]].
  destruct (put _ _) as [fb|]; cbn [mbind result_bind]; [|done].
  destruct (mms_data_receive _ _ _ _) as [[keep sv1]|] eqn:E; cbn [mbind result_bind]; [|done].
  intros [= <-]. by eapply receive_threads.
Qed.

Lemma redis_cb_threads sv h reply fd sv' :
  redis_cb sv h reply fd = Ok sv' -> sv_boss sv' = sv_boss sv /\ sv_threads sv' = sv_threads sv.
Proof.
  unfold redis_cb. destruct reply as [l|]; [|by intros [= <-]].
  destruct (of_option _ _) as [r|]; cbn [mbind result_bind]; [|done].
  destruct (negb _); [by intros [= <-]|]. destruct (put _ _) as [fb|]; cbn [mbind result_bind]; [|done].
  destruct (of_option _ (rp_element r)); cbn [mbind result_bind]; [|done].
  destruct (of_option _ (rp_elements r)); cbn [mbind result_bind]; [|done].
  destruct (echo_elements _ _ _) as [fb'|]; cbn [mbind result_bind]; [|done].
  destruct (0 <? _); [|by intros [= <-]]. destruct (contents fb'); cbn [mbind result_bind]; [|done].
  by intros [= <-].
Qed.

Lemma replies_threads calls sv sv' :
  redis_replies calls sv = Ok sv' -> sv_boss sv' = sv_boss sv /\ sv_threads sv' = sv_threads sv.
Proof.
  revert sv. induction calls as [|[[h reply] privdata] calls IH]; intros sv; cbn [redis_replies]; [by intros [= <-]|].
  destruct reply as [|l|]; [done| |done]. destruct privdata as [| |fd]; [|done|].
  all: destruct (redis_cb sv h (Some l) _) as [sv1|] eqn:E; cbn [mbind result_bind]; [|done].
  all: intros [-> ->]%IH; by eapply redis_cb_threads.
Qed.

Lemma redis_threads ev sv sv' :
  handle_redis hst ev sv = Ok sv' -> sv_boss sv' = sv_boss sv /\ sv_threads sv' = sv_threads sv.
Proof.
  unfold handle_redis. destruct (redis_handler hst ev (sv_redis sv)) as [st|]; cbn [mbind result_bind]; [|done].
  by intros E%replies_threads.
Qed.

(** What a worker does with its job. *)
Definition handle_job (fuel : nat) (sv : MmsServer) (info : BossInfo) (mysql : bool) : result MmsServer :=
  match bi_fd info =? 0, bi_buf info with
  | false, Some _ => process_data hst fuel sv info mysql
  | _, _ => Ok sv
  end.

(** The state a worker takes its job from: the job is out of the queue. *)
Definition job_taken (sv : MmsServer) (t : nat) (d : thread_data) (rest : list BossInfo) : MmsServer :=
  set_boss sv (bm_set (sv_boss sv) (Z.of_nat t) (rest, Some t))
    (<[t := Thread (td_sem d - 1) (td_exitflag d)]> (sv_threads sv)).

(** The next turn of a worker, by its semaphore and its queue. *)
Lemma work_turn_spec fuel sv t mysql d :
  server_ok sv -> threads_ok sv -> worker sv t -> sv_threads sv !! t = Some d ->
  work_turn hst fuel sv t mysql =
    if td_exitflag d then
      if td_sem d <=? 0 then Err Blocked
      else Ok (false, set_boss sv (sv_boss sv) (<[t := Thread (td_sem d - 1) true]> (sv_threads sv)))
    else match jobs_of sv t with
         | [] => Err Blocked
         | info :: rest => sv' ← handle_job fuel (job_taken sv t d rest) info mysql; Ok (true, sv')
         end.
Proof.
  intros Hok Ht Hw Ed. destruct (Ht t Hw) as (Etouch & d' & Ed' & H1' & H2').
  rewrite Ed in Ed'. injection Ed' as <-. unfold work_turn. rewrite Ed. cbn [of_option mbind result_bind].
  destruct d as [sem []]; cbn [td_sem td_exitflag] in *; [done|]. specialize (H2' eq_refl).
  destruct (s_boss _ Hok) as (B & W & P). cbv zeta. cbn [set_boss sv_boss sv_threads].
  rewrite pop_job_spec by done. unfold jobs_of in *.
  destruct (jobs (sv_boss sv) (Z.of_nat t)) as [|info rest] eqn:Ej.
  { rewrite zlen_nil in H2'. by rewrite (proj2 (Z.leb_le _ _)) by lia. }
  rewrite zlen_cons in H2'. rewrite (proj2 (Z.leb_gt _ _)) by (pose proof (zlen_nonneg rest); lia).
  cbn [mbind result_bind]. rewrite Etouch. unfold handle_job, job_taken. cbn [td_sem td_exitflag set_boss sv_boss sv_threads].
  destruct (bi_fd info =? 0); [done|]. by destruct (bi_buf info).
Qed.

Lemma job_taken_threads sv t d info rest :
  threads_ok sv -> worker sv t -> sv_threads sv !! t = Some d -> td_exitflag d = false ->
  jobs_of sv t = info :: rest -> threads_ok (job_taken sv t d rest).
Proof.
  intros Ht Hw Ed Hf Ej. destruct (Ht t Hw) as (_ & d' & Ed' & H1' & H2'). rewrite Ed in Ed'. injection Ed' as <-.
  apply threads_set; [done|done|]. specialize (H2' Hf). rewrite Ej, zlen_cons in H2'.
  pose proof (zlen_nonneg rest). split; cbn; lia.
Qed.

Lemma handle_job_ok fuel sv info mysql sv' :
  server_ok sv -> job_ok info -> job_size info < Z.min (2 ^ 30) (Z.of_nat fuel) ->
  handle_job fuel sv info mysql = Ok sv' ->
  sv_boss sv' = sv_boss sv /\ sv_threads sv' = sv_threads sv /\ sv_posts sv `prefix_of` sv_posts sv'.
Proof.
  intros Hok Hj Hf. unfold handle_job. destruct (bi_fd info =? 0); [by intros [= <-]|].
  destruct (bi_buf info); [|by intros [= <-]]. intros E.
  by destruct (process_data_ok hst stack_size fuel sv info mysql sv' Hok Hj Hf E) as (_ & _ & ?).
Qed.

Lemma job_taken_ok sv t d info rest :
  server_ok sv -> worker sv t -> jobs_of sv t = info :: rest -> job_ok info /\ server_ok (job_taken sv t d rest).
Proof.
  intros Hok Hw Ej. pose proof (s_jobs _ Hok (Z.of_nat t) (proj1 Hw)) as Hj. unfold jobs_of in Ej. rewrite Ej in Hj.
  split; [exact (Forall_inv Hj)|]. by apply server_ok_boss, (Forall_inv_tail Hj).
Qed.

Lemma job_taken_jobs sv t d rest t' :
  worker sv t -> jobs_of (job_taken sv t d rest) t' = if decide (t = t') then rest else jobs_of sv t'.
Proof.
  intros Hw. unfold jobs_of, job_taken. cbn [set_boss sv_boss]. rewrite bm_set_jobs by (done || lia).
  destruct (decide (t = t')); [by rewrite bool_decide_eq_true_2 by lia|by rewrite bool_decide_eq_false_2 by lia].
Qed.

(** The jobs of the worker [t] among those taken. *)
Definition taken_by (t : nat) (out : list (nat * BossInfo)) : list BossInfo :=
  omap (fun p => if decide (fst p = t) then Some (snd p) else None) out.

(** What a step does to the queues: jobs leave at the front and arrive at the
    back. *)
Definition moves (sv sv' : MmsServer) (out : list (nat * BossInfo)) : Prop :=
  forall t, exists new, jobs_of sv t ++ new = taken_by t out ++ jobs_of sv' t.

Lemma moves_same sv sv' : sv_boss sv' = sv_boss sv -> moves sv sv' [].
Proof. intros E t. exists []. unfold jobs_of. by rewrite E, app_nil_r. Qed.

Lemma moves_new sv sv' : (forall t, exists new, jobs_of sv' t = jobs_of sv t ++ new) -> moves sv sv' [].
Proof. intros Hn t. destruct (Hn t) as [new E]. by exists new. Qed.

Lemma moves_trans sv1 sv2 sv3 out1 out2 :
  moves sv1 sv2 out1 -> moves sv2 sv3 out2 -> moves sv1 sv3 (out1 ++ out2).
Proof.
  intros M1 M2 t. destruct (M1 t) as [n1 E1], (M2 t) as [n2 E2]. exists (n1 ++ n2).
  unfold taken_by in *. rewrite omap_app, <- !app_assoc, <- E2, !app_assoc. by rewrite E1.
Qed.

Lemma work_threads fuel sv t mysql go sv' :
  server_ok sv -> threads_ok sv -> worker sv t ->
  (forall info b, PopJob (sv_boss sv) (Z.of_nat t) = Ok (info, b) ->
     job_size info < Z.min (2 ^ 30) (Z.of_nat fuel)) ->
  work_turn hst fuel sv t mysql = Ok (go, sv') ->
  threads_ok sv' /\ moves sv sv' (takes sv t).
Proof.
  intros Hok Ht Hw Hsz. destruct (Ht t Hw) as (_ & d & Ed & H1' & _).
  rewrite (work_turn_spec fuel sv t mysql d) by done. unfold takes. fold (jobs_of sv t). rewrite Ed.
  destruct d as [sem []]; cbn [td_sem td_exitflag] in *.
  - destruct (Z.leb_spec sem 0) as [Hs|Hs]; [done|]. intros [= <- <-]. split; [|by apply moves_same].
    apply threads_put; [done|done|]. split; cbn; [lia|done].
  - destruct (jobs_of sv t) as [|info rest] eqn:Ej; [done|].
    destruct (handle_job _ _ _ _) as [sv1|] eqn:E; cbn [mbind result_bind]; [|done]. intros [= _ <-].
    destruct (job_taken_ok sv t (Thread sem false) info rest Hok Hw Ej) as [Hj Hok1].
    assert (Hi : job_size info < Z.min (2 ^ 30) (Z.of_nat fuel)).
    { destruct (s_boss _ Hok) as (B & _ & _). eapply Hsz. unfold jobs_of in Ej. by rewrite pop_job_spec, Ej. }
    destruct (handle_job_ok fuel _ info mysql sv1 Hok1 Hj Hi E) as (Eb & Et & _).
    split; [by apply (threads_same _ _ Eb Et), (job_taken_threads _ _ _ info)|].
    intros t'. exists []. rewrite app_nil_r. unfold jobs_of at 2. rewrite Eb. fold (jobs_of (job_taken sv t (Thread sem false) rest) t').
    rewrite job_taken_jobs by done. unfold taken_by. cbn [omap list_omap fst snd].
    destruct (decide (t = t')) as [<-|]; [by rewrite Ej|done].
Qed.

(** ** Starting and ending *)

Lemma start_threads_spec n i sv sv' :
  boss_ok (sv_boss sv) -> Z.of_nat (i + n) <= zlen (bm_workers (sv_boss sv)) ->
  (forall t, (t < i)%nat -> touch (sv_boss sv) (Z.of_nat t) = Some t /\ sv_threads sv !! t = Some (Thread 0 false)) ->
  (forall t, jobs_of sv t = []) -> start_threads n i sv = Ok sv' ->
  zlen (bm_workers (sv_boss sv')) = zlen (bm_workers (sv_boss sv)) /\ (forall t, jobs_of sv' t = []) /\
  forall t, (t < i + n)%nat ->
    touch (sv_boss sv') (Z.of_nat t) = Some t /\ sv_threads sv' !! t = Some (Thread 0 false).
Proof.
  revert i sv. induction n as [|n IH]; intros i sv B Hn Hi Hj; cbn [start_threads].
  { intros [= <-]. split; [done|]. split; [done|]. intros t Hl. apply Hi. lia. }
  assert (Hw : worker_id (sv_boss sv) (Z.of_nat i)) by (split; lia). rewrite set_spec by done.
  cbn [mbind result_bind]. set (sv1 := set_boss _ _ _). intros E.
  assert (El : zlen (bm_workers (sv_boss sv1)) = zlen (bm_workers (sv_boss sv))) by (cbn; len_lia).
  destruct (IH (S i) sv1) as (E1 & E2 & E3); [by apply bm_set_ok|lia| | |exact E|].
  - intros t Hl. cbn [sv1 set_boss sv_boss sv_threads]. rewrite bm_set_touch by (done || lia).
    case_bool_decide as Ei.
    + assert (i = t) as <- by lia. by rewrite lookup_insert_eq.
    + rewrite lookup_insert_ne by lia. apply Hi. lia.
  - intros t. unfold jobs_of in *. cbn [sv1 set_boss sv_boss]. rewrite bm_set_jobs by (done || lia).
    cbn [fst]. case_bool_decide; [|done]. apply Hj.
  - split; [lia|]. split; [done|]. intros t Hl. apply E3. lia.
Qed.

Lemma init_threads n sv :
  0 < n -> mms_init hst (new_MmsServer hst) n true true true = Ok (true, sv) -> threads_ok sv.
Proof.
  intros Hn. unfold mms_init. cbn [negb]. cbv zeta.
  destruct (redis_Connect _ _ _ _) as [[connected redis]|]; cbn [mbind result_bind]; [|done].
  destruct (init_spec (sv_boss (set_redis (set_threadnum (new_MmsServer hst) n) redis)) n)
    as (b & -> & B & W & D & J); [lia|]. cbn [mbind result_bind]. set (sv0 := set_boss _ b _).
  destruct (start_threads _ _ _) as [sv1|] eqn:E; cbn [mbind result_bind]; [|done]. intros [= <-].
  apply start_threads_spec in E as (E1 & E2 & E3); [|done|cbn; lia|intros t; lia|intros t; apply J].
  intros t [Hw1 Hw2]. rewrite E1 in Hw2. cbn in Hw2. destruct (E3 t) as [E4 E5]; [lia|]. split; [done|].
  exists (Thread 0 false). split; [done|]. rewrite E2. by split.
Qed.

Lemma stop_threads_spec n i sv :
  boss_ok (sv_boss sv) -> threads_ok sv -> Z.of_nat (i + n) <= zlen (bm_workers (sv_boss sv)) ->
  exists threads, stop_threads n i sv = Ok (set_boss sv (sv_boss sv) threads) /\
    threads_ok (set_boss sv (sv_boss sv) threads) /\
    (forall t, (t < i)%nat -> threads !! t = sv_threads sv !! t) /\
    forall t, (i <= t < i + n)%nat -> exists d, threads !! t = Some d /\ td_exitflag d = true /\ 0 < td_sem d.
Proof.
  revert i sv. induction n as [|n IH]; intros i sv B Ht Hn; cbn [stop_threads].
  { exists (sv_threads sv). split; [by destruct sv|]. split; [by apply (threads_same sv)|]. split; [done|]. intros t. lia. }
  assert (Hw : worker sv i) by (split; lia). destruct (Ht i Hw) as (Etouch & d & Ed & H1' & _).
  rewrite touch_spec by done. cbn [mbind result_bind]. rewrite Etouch. cbv zeta. unfold sem_post.
  cbn [set_boss sv_boss sv_threads]. rewrite (alter_some _ _ i d Ed).
  rewrite (alter_some _ _ i (Thread (td_sem d) true)) by (by rewrite lookup_insert_eq).
  cbn [td_sem td_exitflag]. rewrite insert_insert_eq. set (d' := Thread (td_sem d + 1) true).
  destruct (IH (S i) (set_boss sv (sv_boss sv) (<[i := d']> (sv_threads sv)))) as (threads & E & Hok & Hb & Ha); [done| |cbn; lia|].
  { apply threads_put; [done|done|]. split; cbn; [lia|done]. }
  exists threads. split; [exact E|]. split; [exact Hok|]. split.
  - intros t Hl. rewrite Hb by lia. cbn. by rewrite lookup_insert_ne by lia.
  - intros t Hl. destruct (decide (t = i)) as [->|Hne]; [|apply Ha; lia].
    exists d'. rewrite Hb by lia. cbn. rewrite lookup_insert_eq. split_and!; [done..|cbn; lia].
Qed.

Lemma release_threads_spec n i sv :
  boss_ok (sv_boss sv) -> Z.of_nat (i + n) <= zlen (bm_workers (sv_boss sv)) ->
  (forall t, (i <= t < i + n)%nat -> touch (sv_boss sv) (Z.of_nat t) = Some t /\ is_Some (sv_threads sv !! t)) ->
  exists boss threads, release_threads n i sv = Ok (set_boss sv boss threads) /\
    (forall t, (t < i)%nat -> threads !! t = sv_threads sv !! t) /\
    (forall t, (i <= t < i + n)%nat -> threads !! t = None) /\
    forall t, jobs boss (Z.of_nat t) = jobs_of sv t.
Proof.
  revert i sv. induction n as [|n IH]; intros i sv B Hn Hi; cbn [release_threads].
  { exists (sv_boss sv), (sv_threads sv). split; [by destruct sv|]. split; [done|]. split; [intros t; lia|done]. }
  assert (Hw : worker_id (sv_boss sv) (Z.of_nat i)) by (split; lia).
  destruct (Hi i) as [Etouch [d Ed]]; [lia|]. rewrite touch_spec by done. cbn [mbind result_bind].
  rewrite Etouch, Ed. cbn [of_option mbind result_bind]. rewrite set_spec by done. cbn [mbind result_bind].
  set (sv1 := set_boss sv _ _).
  assert (El : zlen (bm_workers (sv_boss sv1)) = zlen (bm_workers (sv_boss sv))) by (cbn; len_lia).
  destruct (IH (S i) sv1) as (boss & threads & E & Hb & Ha & Hj); [by apply bm_set_ok|lia| |].
  - intros t Hl. cbn [sv1 set_boss sv_boss sv_threads]. rewrite bm_set_touch, bool_decide_eq_false_2 by (done || lia).
    rewrite lookup_delete_ne by lia. apply Hi. lia.
  - exists boss, threads. split; [exact E|]. split.
    { intros t Hl. rewrite Hb by lia. cbn. by rewrite lookup_delete_ne by lia. }
    split.
    { intros t Hl. destruct (decide (t = i)) as [->|Hne]; [|apply Ha; lia]. rewrite Hb by lia. cbn.
      by rewrite lookup_delete_eq. }
    intros t. rewrite Hj. unfold jobs_of. cbn [sv1 set_boss sv_boss]. rewrite bm_set_jobs by (done || lia).
    cbn [fst]. by case_bool_decide as Ee; [rewrite Ee|].
Qed.

(** ** Every run *)

Inductive server_run : MmsServer -> list (nat * BossInfo) -> MmsServer -> Prop :=
| run_nil sv : server_run sv [] sv
| run_step sv out sv1 outs sv2 :
    server_step hst sv out sv1 -> server_run sv1 outs sv2 -> server_run sv (out ++ outs) sv2.

Definition running (sv : MmsServer) : Prop := server_ok sv /\ threads_ok sv.

Lemma step_running sv out sv' : running sv -> server_step hst sv out sv' -> running sv' /\ moves sv sv' out.
Proof.
  intros [Hok Ht] Hs. cut (threads_ok sv' /\ moves sv sv' out).
  { intros [? ?]. split; [split; [by eapply step_ok|done]|done]. }
  destruct Hs as [fd fb bs port keep sv1 Hfd Hb E|fd sv1 Hfd E|t fuel mysql go sv1 Hw Hsz E|ev sv1 E|sv1 E].
  - destruct (receive_threads _ _ _ _ _ _ Hok Ht Hfd E). split; [done|by apply moves_new].
  - destruct (close_threads _ _ _ Hok Ht Hfd E). split; [done|by apply moves_new].
  - by eapply work_threads.
  - apply redis_threads in E as [Eb Et]. split; [by apply (threads_same sv)|by apply moves_same].
  - destruct (s_boss _ Hok) as (B & W & P).
    destruct (stop_threads_spec (Z.to_nat (sv_threadnum sv)) 0 sv B Ht) as (threads & E' & Hok' & _); [lia|].
    unfold run_end in E. rewrite E' in E. injection E as <-. split; [done|by apply moves_same].
Qed.

Lemma run_running sv outs sv' : server_run sv outs sv' -> running sv -> running sv' /\ moves sv sv' outs.
Proof.
  induction 1 as [sv|sv out sv1 outs sv2 Hs Hr IH]; intros Hi; [by split; [|apply moves_same]|].
  destruct (step_running _ _ _ Hi Hs) as [H1' M1]. destruct (IH H1') as [H2' M2].
  split; [done|by eapply moves_trans].
Qed.

Lemma reachable_running sv : reachable hst sv -> running sv.
Proof.
  induction 1 as [n sv Hn E|sv out sv' _ IH Hs]; [|by eapply step_running].
  split; [by eapply init_ok|by eapply init_threads].
Qed.

(** ** Leaving *)

(** Turns of some workers, and whether each goes on. *)
Fixpoint turns (fuel : nat) (mysql : bool) (ts : list nat) (sv : MmsServer) : result (list bool * MmsServer) :=
  match ts with
  | [] => Ok ([], sv)
  | t :: ts =>
      '(go, sv) ← work_turn hst fuel sv t mysql;
      '(gos, sv) ← turns fuel mysql ts sv;
      Ok (go :: gos, sv)
  end.

Definition told (sv : MmsServer) (t : nat) : Prop :=
  exists d, sv_threads sv !! t = Some d /\ td_exitflag d = true /\ 0 < td_sem d.

Lemma turns_leave fuel mysql ts sv :
  running sv -> NoDup ts -> (forall t, t ∈ ts -> worker sv t /\ told sv t) ->
  exists threads, turns fuel mysql ts sv = Ok (map (fun _ => false) ts, set_boss sv (sv_boss sv) threads) /\
    threads_ok (set_boss sv (sv_boss sv) threads).
Proof.
  revert sv. induction ts as [|t ts IH]; intros sv [Hok Ht] Hnd Hin; cbn [turns map].
  { exists (sv_threads sv). split; [by destruct sv|]. by apply (threads_same sv). }
  apply NoDup_cons in Hnd as [Hnt Hnd]. destruct (Hin t) as (Hw & d & Ed & Hf & Hs); [by left|].
  rewrite (work_turn_spec fuel sv t mysql d) by done. rewrite Hf, (proj2 (Z.leb_gt _ _)) by lia.
  cbn [mbind result_bind]. set (d' := Thread _ _). set (sv1 := set_boss _ _ _).
  destruct (IH sv1) as (threads & E & Hok'); [| done| |].
  - split; [by apply server_ok_threads|]. apply threads_put; [done|done|]. split; cbn; [lia|done].
  - intros t' Hin'. destruct (Hin t') as (Hw' & d1 & Ed1 & ?); [by right|]. split; [done|]. exists d1. split; [|done].
    cbn. rewrite lookup_insert_ne; [done|]. by intros <-.
  - rewrite E. cbn [mbind result_bind]. by exists threads.
Qed.

Lemma shutdown_runs fuel mysql order sv :
  running sv -> order ≡ₚ seq 0 (Z.to_nat (sv_threadnum sv)) ->
  exists threads sv2, run_end sv = Ok (set_boss sv (sv_boss sv) threads) /\
    turns fuel mysql order (set_boss sv (sv_boss sv) threads) = Ok (map (fun _ => false) order, sv2) /\
    exists boss threads', mms_destroy sv2 = Ok (set_boss sv boss threads') /\
      forall t, (worker sv t -> threads' !! t = None) /\ jobs boss (Z.of_nat t) = jobs_of sv t.
Proof.
  intros [Hok Ht] Ho. destruct (s_boss _ Hok) as (B & W & P).
  destruct (stop_threads_spec (Z.to_nat (sv_threadnum sv)) 0 sv B Ht) as (threads & E & Hok1 & _ & Ha); [lia|].
  set (sv1 := set_boss sv (sv_boss sv) threads) in *.
  destruct (turns_leave fuel mysql order sv1) as (threads2 & E2 & Hok2).
  - by split; [apply server_ok_threads|].
  - rewrite Ho. apply NoDup_seq.
  - intros t. rewrite Ho, elem_of_seq. intros Hl. split; [|by apply Ha]. split; [lia|].
    change (sv_boss sv1) with (sv_boss sv). lia.
  - exists threads, (set_boss sv (sv_boss sv) threads2). split; [exact E|]. split; [exact E2|].
    destruct (release_threads_spec (Z.to_nat (sv_threadnum sv)) 0 (set_boss sv (sv_boss sv) threads2))
      as (boss & threads3 & E3 & _ & Hn & Hj); [done|cbn; lia| |].
    + intros t Hl. destruct (Hok2 t) as (Et & d & Ed & _); [split; cbn; lia|]. by split; [|exists d].
    + exists boss, threads3. split; [exact E3|]. intros t. split; [|apply Hj].
      intros [Hw1 Hw2]. apply Hn. lia.
Qed.

End threads.
