(* ===== verification/ServerLogin.v ===== *)
(** * Logging in

    What a new connection gets for a login: a session found by its descriptor
    and its user, and a random key that only the holder of the private key of
    the login can read. *)

From S2P Require Import Prelude MemStuff Mysql Json Ssl SslSpec FastBuffer Queues Messages Protocol ProtocolSpec.
From S2P Require Import EventLoop Server ServerSpec ServerSession ServerLoop.

Section login.
  Context `{JsonSize} `{!JsonLaw} `{OpenSSLLaws} (hst : host).

(** ** The answer *)

Lemma ascii_plain s : forallb (fun b => b2z b <? 128) s = true -> ascii s.
Proof.
  intros Hs. apply List.Forall_forall. intros b Hb. rewrite forallb_forall in Hs.
  specialize (Hs b Hb). cbv beta in Hs. lia.
Qed.

(** The frame that carries the key is short, and its bytes can be encrypted. *)
Lemma login_res_frame t k ok :
  zlen t <= 80 -> ascii t ->
  let j := Msg_Login_res (LoginRes ok k) in
  zlen (frame_bytes t j) < 128 /\ ascii (frame_bytes t j).
Proof.
  intros Ht Ha j. set (pre := [brace_open] ++ toCmd (bytes "cmd") YY_JSON_LOGIN_RES ++ [comma; quote] ++
    bytes "obj" ++ [quote; colon; brace_open] ++ toCmd_b (bytes "bSucc") ok ++ [comma; quote] ++
    bytes "key" ++ [quote; colon; quote]).
  assert (E : json_text (frame t j) = pre ++ t ++ [quote; brace_close; brace_close]).
  { subst pre j. unfold frame, members_of. cbn [json_text map commas fst snd bTokenSucc _id].
    unfold toCmd, toCmd_b. by rewrite <- !app_assoc. }
  assert (El : 39 <= zlen pre <= 40) by (by destruct ok; vm_compute). pose proof (zlen_nonneg t).
  unfold frame_bytes. cbv zeta. rewrite E. set (n := zlen (pre ++ _) + 3).
  assert (En : zlen t + 45 <= n <= zlen t + 46).
  { subst n. rewrite !zlen_app. change (zlen [quote; brace_close; brace_close]) with 3. lia. }
  rewrite (wrapU_small 16) by lia. split.
  - rewrite !zlen_app. change (zlen (word_bytes n)) with 2. change (zlen [PRE_CHAR]) with 1.
    change (zlen [quote; brace_close; brace_close]) with 3. lia.
  - apply Forall_app. split; [by apply ascii_plain|]. apply Forall_app. split.
    + unfold word_bytes. apply List.Forall_cons; [|apply List.Forall_cons; [|apply List.Forall_nil]];
        rewrite b2z_z2b; Z.to_euclidean_division_equations; lia.
    + apply Forall_app. split; [by destruct ok; apply ascii_plain|].
      apply Forall_app. split; [done|by apply ascii_plain].
Qed.

(** Whoever has the private key reads the message [j] in the bytes [out]. *)
Definition opens_to (priv : RSA) (out : list byte) (j : YYJ) : Prop :=
  exists comp,
    ParseCmd (Some <$> out) (zlen out) 0 = Ok (YYMMSJSON_ERROR_SUCCESS, zlen out, Some (Comp_RSA comp)) /\
    forall stack rsa, zlen stack = kBytes -> _privateKey rsa = Some priv ->
      CompRSA_UnFormat stack comp rsa = Ok (true, Some j).

Lemma rsa_answer pub priv rsa key :
  key_pair pub priv -> _publicKey rsa = Some pub -> zlen key = 32 ->
  exists comp out,
    CompRSA_Format new_CompRSA (Some (Msg_Login_res (LoginRes true key))) rsa = Ok (true, comp) /\
    FormatCmd (Some (Comp_RSA comp)) [] = Ok (true, out) /\ 0 < zlen out < 2 ^ 16 /\
    opens_to priv out (Msg_Login_res (LoginRes true key)).
Proof.
  intros Hk Hpub Hkey. set (j := Msg_Login_res (LoginRes true key)).
  destruct (base64_roundtrip key) as (t & Et & Ht & Hl & Ed); [lia|].
  assert (Hj : sendable j) by (cbn; lia). assert (Hkt : key_text j t) by done.
  assert (Htl : zlen t <= 80) by (rewrite Hkey in Hl; by eapply Z.le_trans; [exact Hl|]).
  destruct (login_res_frame t key true Htl (proj2 Ht)) as [Hf Ha]. fold j in Hf, Ha.
  pose proof (fun stack rsa' => rsa_envelope j t stack new_CompRSA rsa rsa' pub priv Hj Hkt ltac:(lia) Ha Hk Hpub)
    as Henv.
  destruct (Henv (replicate (Z.to_nat kBytes) x00) (Rsa None (Some priv))) as (comp & Ec & Hs & Hv & Hcl & _);
    [done|done|].
  destruct comp as [version s]. cbn [CompRSA_version CompRSA_serString new_CompRSA] in Hv, Hs, Hcl. subst version.
  assert (Hc : sendable (Comp_RSA (CompRSA 0 s))) by (split; [cbn; lia|done]).
  assert (Hck : key_text (Comp_RSA (CompRSA 0 s)) []) by done.
  assert (Hn : zlen (frame_bytes [] (Comp_RSA (CompRSA 0 s))) = zlen s + 44)
    by (apply envelope_frame_len; by left).
  assert (Hsl : zlen s <= 1000).
  { eapply Z.le_trans; [exact Hcl|]. eapply Z.le_trans; [apply (base64_max_mono _ 257)|by vm_compute].
    pose proof (zlen_nonneg (frame_bytes t j)). lia. }
  pose proof (zlen_nonneg s). exists (CompRSA 0 s), (frame_bytes [] (Comp_RSA (CompRSA 0 s))).
  split; [done|]. split; [exact (FormatCmd_spec _ [] [] Hc Hck)|]. split; [lia|].
  exists (CompRSA 0 s). split.
  - pose proof (ParseCmd_frame _ [] [] [] 0 Hc Hck ltac:(lia) ltac:(lia)) as E. by rewrite !app_nil_r in E.
  - intros stack rsa' Hst Hpriv. destruct (Henv stack rsa' Hpriv Hst) as (comp' & Ec' & _ & _ & _ & Eu).
    assert (comp' = CompRSA 0 s) as -> by congruence. exact Eu.
Qed.

(** ** The branch *)

Lemma SetRSAKey_pub rsa key pub :
  key <> [] -> RSAStringToPubKey key = Some pub -> _publicKey (SetRSAKey rsa key []) = Some pub.
Proof. intros Hk E. unfold SetRSAKey. destruct key; [done|]. cbn [is_empty]. by rewrite E. Qed.

Lemma LoginCmd_answers sv fd l i pub priv key :
  sv_items sv !! l = Some i -> _publicKey (i_rsa i) = Some pub -> key_pair pub priv ->
  RAND_bytes hst (sv_rands sv) = key -> zlen key = 32 ->
  read_result plenty (white_list_query (i_uid i)) (white_list hst (length (sv_queries sv))) = Ok tt ->
  exists out, opens_to priv out (Msg_Login_res (LoginRes true key)) /\ 0 < zlen out < 2 ^ 16 /\
    LoginCmd hst sv fd l true = Ok (post
      (put_item (snd (GenAESKey hst (query sv (white_list_query (i_uid i))))) l
         (set_aes i (AESSetKey (i_aes i) (Some key)))) fd out).
Proof.
  intros E Hpub Hk Er Hkey Hw. destruct (rsa_answer pub priv (i_rsa i) key Hk Hpub Hkey) as (comp & out & Ec & Ef & Ho & Hop).
  exists out. split; [done|]. split; [done|]. unfold LoginCmd, item. rewrite E. cbn [of_option mbind result_bind].
  unfold CheckWhiteList. cbn [negb]. rewrite Hw. cbn [mbind result_bind negb]. unfold GenAESKey. cbn [query set_outside sv_rands snd]. rewrite Er, Ec.
  cbn [mbind result_bind]. unfold sendCmd. rewrite Ef. cbn [mbind result_bind negb orb].
  rewrite (proj2 (Z.eqb_neq (zlen out) 0)) by lia.
  destruct (put_spec new_fastbuffer [] out new_holds) as (fb & -> & Hfb & _); [change (zlen []) with 0; lia|].
  cbn [mbind result_bind]. rewrite (contents_holds _ _ Hfb). reflexivity.
Qed.

(** Without the data base the connection is refused and closed. *)
Lemma LoginCmd_refuses sv fd l i :
  sv_items sv !! l = Some i ->
  exists out, LoginCmd hst sv fd l false = Ok (post (post sv fd out) fd []) /\
    ParseCmd (Some <$> out) (zlen out) 0 =
      Ok (YYMMSJSON_ERROR_SUCCESS, zlen out, Some (Msg_Login_res (LoginRes false []))) /\ 0 < zlen out < 2 ^ 16.
Proof.
  intros E. set (j := Msg_Login_res (LoginRes false [])).
  destruct (base64_roundtrip []) as (t & Et & Ht & Hl & Ed); [done|].
  assert (Hj : sendable j) by done. assert (Hkt : key_text j t) by done.
  assert (Htl : zlen t <= 80) by (by eapply Z.le_trans; [exact Hl|]).
  destruct (login_res_frame t [] false Htl (proj2 Ht)) as [Hf _]. fold j in Hf.
  exists (frame_bytes t j). split.
  - unfold LoginCmd, item. rewrite E. cbn [of_option mbind result_bind CheckWhiteList negb].
    unfold sendCmd. fold j. rewrite (FormatCmd_spec j t [] Hj Hkt). cbn [mbind result_bind negb orb app].
    rewrite (proj2 (Z.eqb_neq _ 0)) by (unfold frame_bytes; cbv zeta; len_lia).
    destruct (put_spec new_fastbuffer [] (frame_bytes t j) new_holds) as (fb & -> & Hfb & _);
      [change (zlen []) with 0; lia|].
    cbn [mbind result_bind]. rewrite (contents_holds _ _ Hfb). reflexivity.
  - pose proof (ParseCmd_frame j t [] [] 0 Hj Hkt ltac:(lia) ltac:(lia)) as Ep. rewrite !app_nil_r in Ep.
    split; [done|]. split; [unfold frame_bytes; cbv zeta; len_lia|lia].
Qed.

(** The session [i] of a connection that has just logged in. *)
Definition logged_in (sv : MmsServer) (fd : Z) (l : nat) (m : YYJson_Login) (i : Item_data) : Prop :=
  session sv fd = Some l /\ get_state (sv_userData sv) (Login_yyID m) = Some l /\
  sv_items sv !! l = Some i /\ i_fd i = fd /\ i_yyID i = Login_yyID m /\ i_token i = Login_token m /\
  i_rsaStr i = Login_rsakey m /\ i_shellClient_fd i = 0 /\
  exists fb, i_readbuffer i = Some fb /\ holds fb [].

(** The branch up to [LoginCmd]: the session that it works on. *)
Definition new_session (sv : MmsServer) (fd : Z) (rb : fastbuffer) (m : YYJson_Login) : Item_data :=
  set_login (set_fd new_Item_data fd (Some rb)) m (SetRSAKey new_YYRSA (Login_rsakey m) [])
    (GetTickCount hst (sv_ticks sv)).

Definition with_session (sv : MmsServer) (fd : Z) (rb : fastbuffer) (m : YYJson_Login) : MmsServer :=
  put_item (snd (tick hst (opened sv fd rb (Login_yyID m)))) (sv_next sv) (new_session sv fd rb m).

Lemma with_session_item sv fd rb m :
  sv_items (with_session sv fd rb m) !! sv_next sv = Some (new_session sv fd rb m).
Proof. cbn. by rewrite lookup_insert_eq. Qed.

Lemma with_session_found sv fd rb m :
  session (with_session sv fd rb m) fd = Some (sv_next sv) /\
  get_state (sv_userData (with_session sv fd rb m)) (Login_yyID m) = Some (sv_next sv).
Proof. unfold session. cbn. by rewrite !get_add_same. Qed.

Lemma login_branch_new sv fd rb m mysql :
  login_branch hst sv (outside rb) fd m mysql =
    (sv' ← LoginCmd hst (with_session sv fd rb m) fd (sv_next sv) mysql;
     Ok (sv', Vars None (Some (sv_next sv)) true)).
Proof.
  rewrite login_branch_out. unfold login_branch, item. cbn [v_state].
  rewrite opened_item. reflexivity.
Qed.

Lemma first_frame_of j t :
  sendable j -> key_text j t -> zlen (frame_bytes t j) < 2 ^ 16 ->
  first_frame (frame_bytes t j) = Ok (YYMMSJSON_ERROR_SUCCESS, zlen (frame_bytes t j), Some (clipped j)).
Proof.
  intros Hj Ht Hl. pose proof (ParseCmd_frame j t [] [] 0 Hj Ht Hl ltac:(lia)) as E.
  by rewrite !app_nil_r in E.
Qed.

(** The last frame of the buffer ends the loop. *)
Lemma last_frame sv l i rb bs (again : MmsServer -> frame_vars -> result MmsServer) :
  sv_items sv !! l = Some i -> i_readbuffer i = Some rb -> holds rb bs ->
  let v := Vars None (Some l) true in
  exists fb, holds fb [] /\
    ('(sv, v) ← (buf ← get_buf sv v; buf ← drop_front buf (zlen bs); set_buf sv v buf);
     buf ← get_buf sv v; if 0 <? fb_size buf then again sv v else Ok sv) =
      Ok (put_item sv l (set_readbuffer i (Some fb))).
Proof.
  intros Ei Eb Hb v. destruct (drop_front_spec rb bs (zlen bs) Hb (zlen_nonneg bs)) as (fb & Ed & Hfb & _).
  rewrite to_nat_zlen, drop_all in Hfb. exists fb. split; [done|].
  assert (Eg : get_buf sv v = Ok rb) by (unfold get_buf, item; cbn; by rewrite Ei; cbn; rewrite Eb).
  rewrite Eg. cbn [mbind result_bind]. rewrite Ed. cbn [mbind result_bind].
  assert (Es : set_buf sv v fb = Ok (put_item sv l (set_readbuffer i (Some fb)), v))
    by (unfold set_buf, item; cbn; by rewrite Ei).
  rewrite Es. cbn [mbind result_bind]. set (sv' := put_item _ _ _).
  assert (Eg' : get_buf sv' v = Ok fb) by (unfold get_buf, item; cbn; by rewrite lookup_insert_eq).
  rewrite Eg'. cbn [mbind result_bind]. by rewrite (proj1 Hfb).
Qed.

(** A login as the first and only frame of a new connection, up to what
    [LoginCmd] does. *)
Lemma only_login fuel sv fd rb m m' bs mysql sv1 i :
  sendable (Msg_Login m) -> clipped (Msg_Login m) = Msg_Login m' ->
  FormatCmd (Some (Msg_Login m)) [] = Ok (true, bs) -> zlen bs < 2 ^ 16 ->
  holds rb bs -> 0 < fd -> session sv fd = None -> (0 < fuel)%nat ->
  LoginCmd hst (with_session sv fd rb m') fd (sv_next sv) mysql = Ok sv1 ->
  sv_items sv1 !! sv_next sv = Some i -> i_readbuffer i = Some rb ->
  exists fb, holds fb [] /\
    JsonProcess hst fuel sv fd rb mysql = Ok (put_item sv1 (sv_next sv) (set_readbuffer i (Some fb))).
Proof.
  intros Hj Hm Hf Hl Hb Hfd Es Hfuel El Ei Eb. destruct (key_text_exists _ Hj) as [t Ht].
  rewrite (FormatCmd_spec _ t [] Hj Ht) in Hf. injection Hf as <-. cbn [app] in *.
  set (bs := frame_bytes t (Msg_Login m)) in *.
  destruct (last_frame sv1 (sv_next sv) i rb bs (fun sv v => json_loop hst (pred fuel) sv v fd mysql) Ei Eb Hb)
    as (fb & Hfb & E). exists fb. split; [done|]. rewrite <- E.
  unfold JsonProcess. rewrite (proj2 (Z.leb_gt _ _)) by lia. fold (session sv fd). rewrite Es.
  destruct fuel as [|fuel]; [lia|]. cbn [json_loop pred].
  unfold json_turn. cbn [get_buf outside v_in_item v_readbuffer v_state of_option mbind result_bind].
  rewrite (parse_block rb bs Hb) by lia. rewrite (first_frame_of _ t Hj Ht Hl : first_frame bs = _), Hm.
  cbn [mbind result_bind]. change (Vars (Some rb) None false) with (outside rb).
  by rewrite login_branch_new, El.
Qed.

(** The whole of it, with the data base or without. *)
Definition login_reply (sv sv' : MmsServer) (fd : Z) (mysql : bool) (priv : RSA) (key out : list byte) (i : Item_data) : Prop :=
  if mysql then
    sv_posts sv' = sv_posts sv ++ [(fd, out)] /\ i_aes i = AESSetKey new_YYAES (Some key) /\
    opens_to priv out (Msg_Login_res (LoginRes true key))
  else
    sv_posts sv' = sv_posts sv ++ [(fd, out); (fd, [])] /\ i_aes i = new_YYAES /\
    ParseCmd (Some <$> out) (zlen out) 0 =
      Ok (YYMMSJSON_ERROR_SUCCESS, zlen out, Some (Msg_Login_res (LoginRes false []))).

Lemma login_answered fuel sv fd rb m bs key pub priv mysql :
  sendable (Msg_Login m) -> FormatCmd (Some (Msg_Login m)) [] = Ok (true, bs) -> zlen bs < 2 ^ 16 ->
  holds rb bs -> 0 < fd -> session sv fd = None -> (0 < fuel)%nat ->
  RSAStringToPubKey (Login_rsakey m) = Some pub -> Login_rsakey m <> [] -> key_pair pub priv ->
  RAND_bytes hst (sv_rands sv) = key -> zlen key = 32 ->
  read_result plenty (white_list_query 0) (white_list hst (length (sv_queries sv))) = Ok tt ->
  exists sv' out i, JsonProcess hst fuel sv fd rb mysql = Ok sv' /\
    logged_in sv' fd (sv_next sv) (Login (clip (Login_yyID m)) (Login_token m) (Login_rsakey m)) i /\
    0 < zlen out < 2 ^ 16 /\ login_reply sv sv' fd mysql priv key out i.
Proof.
  intros Hj Hf Hl Hb Hfd Es Hfuel Hpub Hne Hk Er Hkey Hw.
  set (m' := Login (clip (Login_yyID m)) (Login_token m) (Login_rsakey m)).
  set (sv0 := with_session sv fd rb m'). set (i0 := new_session sv fd rb m').
  pose proof (with_session_item sv fd rb m') as E0. pose proof (with_session_found sv fd rb m') as [Ef Eu].
  assert (Hrsa : _publicKey (i_rsa i0) = Some pub) by by apply SetRSAKey_pub.
  destruct mysql.
  - destruct (LoginCmd_answers sv0 fd (sv_next sv) i0 pub priv key E0 Hrsa Hk Er Hkey Hw) as (out & Ho & Hout & El).
    set (i1 := set_aes i0 (AESSetKey (i_aes i0) (Some key))) in El. set (sv1 := post _ fd out) in El.
    assert (E1 : sv_items sv1 !! sv_next sv = Some i1) by (cbn; by rewrite lookup_insert_eq).
    destruct (only_login fuel sv fd rb m m' bs true sv1 i1 Hj eq_refl Hf Hl Hb Hfd Es Hfuel El E1 eq_refl)
      as (fb & Hfb & ->).
    eexists _, out, (set_readbuffer i1 (Some fb)). split; [done|]. split; [|split; [done|by split_and!]].
    split; [done|]. split; [done|]. split; [cbn; by rewrite lookup_insert_eq|].
    repeat (split; [done|]). by exists fb.
  - destruct (LoginCmd_refuses sv0 fd (sv_next sv) i0 E0) as (out & El & Ep & Hout).
    destruct (only_login fuel sv fd rb m m' bs false _ i0 Hj eq_refl Hf Hl Hb Hfd Es Hfuel El E0 eq_refl)
      as (fb & Hfb & ->).
    eexists _, out, (set_readbuffer i0 (Some fb)). split; [done|].
    split; [|split; [done|split; [cbn; by rewrite <- app_assoc|by split]]].
    split; [done|]. split; [done|]. split; [cbn; by rewrite lookup_insert_eq|].
    repeat (split; [done|]). by exists fb.
Qed.

End login.
