(* ===== verification/ServerRun.v ===== *)
(** * The server end to end

    The properties of the server, tried with the reference parser and the
    reference primitives. *)

From S2P Require Import Prelude MemStuff Mysql Reply Net Socket Async Redis Json JsonParser Ssl SslSpec SslReference FastBuffer Queues.
From S2P Require Import Messages Protocol ProtocolSpec EventLoop Server ServerSpec.
From S2P Require Import ServerSession ServerLoop ServerReach ServerThreads ServerLogin.

(** ** Logging in *)

(** C34: A connection without a session, of which a login and nothing else has
    arrived, gets a session, found by the descriptor and by the user.  With the
    data base the connection gets exactly one buffer, an RSA envelope which whoever
    has the private key of the login opens to the random key the session now
    encrypts with (that nobody else opens it is a matter of RSA, and not stated);
    without it the connection gets a refusal in clear and is closed, and the
    session has no key.  The rows of the white list are read on the way, which has
    to go well, and make no difference. *)
Theorem login_handshake `{JsonSize} `{!JsonLaw} `{OpenSSLLaws} (hst : host) (fuel : nat) (sv : MmsServer)
    (fd : Z) (rb : fastbuffer) (m : YYJson_Login) (bs key : list byte) (pub priv : RSA) (mysql : bool) :
  sendable (Msg_Login m) -> FormatCmd (Some (Msg_Login m)) [] = Ok (true, bs) -> zlen bs < 2 ^ 16 ->
  holds rb bs -> 0 < fd -> session sv fd = None -> (0 < fuel)%nat ->
  RSAStringToPubKey (Login_rsakey m) = Some pub -> Login_rsakey m <> [] -> key_pair pub priv ->
  RAND_bytes hst (sv_rands sv) = key -> zlen key = 32 ->
  read_result plenty (white_list_query 0) (white_list hst (length (sv_queries sv))) = Ok tt ->
  exists sv' out i, JsonProcess hst fuel sv fd rb mysql = Ok sv' /\
    logged_in sv' fd (sv_next sv) (Login (clip (Login_yyID m)) (Login_token m) (Login_rsakey m)) i /\
    if mysql then
      sv_posts sv' = sv_posts sv ++ [(fd, out)] /\ i_aes i = AESSetKey new_YYAES (Some key) /\
      opens_to priv out (Msg_Login_res (LoginRes true key))
    else
      sv_posts sv' = sv_posts sv ++ [(fd, out); (fd, [])] /\ i_aes i = new_YYAES /\
      ParseCmd (Some <$> out) (zlen out) 0 =
        Ok (YYMMSJSON_ERROR_SUCCESS, zlen out, Some (Msg_Login_res (LoginRes false []))).
Proof.
  intros Hj Hf Hl Hb Hfd Es Hfuel Hpub Hne Hk Er Hkey Hw.
  destruct (login_answered hst fuel sv fd rb m bs key pub priv mysql Hj Hf Hl Hb Hfd Es Hfuel Hpub Hne Hk Er Hkey Hw)
    as (sv' & out & i & E & Hi & _ & Ho). by exists sv', out, i.
Qed.

(** *** A server to try *)

(** The white list has one row: a number and a text. *)
Definition demo_rows : stmt_answers :=
  Answers true (Some 0) 0 (Some [(MYSQL_TYPE_LONG, 11); (253, 30)]) true true [store_at ∅ 0 0 (le_bytes 4 7)].

(** The redis server takes the connection. *)
Definition redis_world : world :=
  World (Answer 100 0 0 [] :: replicate 6 (Answer 0 0 0 [])) [] 0 0.

Definition demo_host : host :=
  Host 8000 8001 (fun n => replicate 32 (z2b (Z.of_nat n + 65))) (fun n => 10 * Z.of_nat n)
    (replicate 16 xcc) (bytes "C:") (fun _ => demo_rows) (bytes "127.0.0.1") 6379
    (Env empty_heap redis_world [] [] []) (fun _ => 0) (fun _ => []) (fun _ => 0) (fun _ _ _ => []).

Definition demo_server : MmsServer := new_MmsServer demo_host.

Definition demo_user (user : Z) : YYJson_Login := Login user (bytes "token") [x05].

(** The bytes of some messages, one frame after the other. *)
Definition frames (js : list YYJ) : list byte :=
  concat ((fun j => match FormatCmd (Some j) [] with Ok (_, bs) => bs | Err _ => [] end) <$> js).

Definition filled (bs : list byte) : fastbuffer :=
  match put new_fastbuffer bs with Ok fb => fb | Err _ => new_fastbuffer end.

Lemma filled_holds bs : zlen bs < 2 ^ 30 -> holds (filled bs) bs.
Proof.
  intros Hl. unfold filled. by destruct (put_spec new_fastbuffer [] bs new_holds) as (fb & -> & Hb & _).
Qed.

Lemma login_handshake_witness :
  exists sv' out i,
    JsonProcess demo_host 1 demo_server 5 (filled (frames [Msg_Login (demo_user 100)])) true = Ok sv' /\
    logged_in sv' 5 0 (demo_user 100) i /\ sv_posts sv' = [(5, out)] /\
    i_aes i = AESSetKey new_YYAES (Some (RAND_bytes demo_host 0)) /\
    opens_to 5 out (Msg_Login_res (LoginRes true (RAND_bytes demo_host 0))).
Proof.
  refine (login_handshake demo_host 1 demo_server 5 (filled (frames [Msg_Login (demo_user 100)]))
    (demo_user 100) (frames [Msg_Login (demo_user 100)]) (RAND_bytes demo_host 0) 5 5 true
    _ _ _ _ _ _ _ _ _ _ _ _ _).
  - repeat split; cbn; lia.
  - by vm_compute.
  - by vm_compute.
  - by apply filled_holds; vm_compute.
  - done.
  - apply get_new.
  - lia.
  - done.
  - done.
  - apply reference_key_pair.
  - done.
  - done.
  - by vm_compute.
Defined.

(** ** The loop of a connection *)

(** C35: [JsonProcess] comes to an end, whatever the bytes and the state, but for
    one case, in which no number of turns is enough: the first frame of a
    connection without a session is a command other than a login. *)
Theorem json_process_terminates `{JsonSize} `{OpenSSLLaws} (hst : host) (fuel : nat) (sv : MmsServer)
    (fd : Z) (rb : fastbuffer) (bs : list byte) (mysql : bool) :
  zlen (stack_array hst) = AES_BLOCK_SIZE -> sessions_ok None sv -> holds rb bs ->
  zlen bs < 2 ^ 30 -> zlen bs < Z.of_nat fuel ->
  let hangs := 0 < fd /\ session sv fd = None /\ is_command (first_frame bs) = true in
  (hangs -> forall fuel', JsonProcess hst fuel' sv fd rb mysql = Err NoFuel) /\
  (~ hangs -> JsonProcess hst fuel sv fd rb mysql <> Err NoFuel).
Proof.
  intros Hst Hok Hb Hl Hf hangs. split.
  - intros (Hfd & Es & Hc) fuel'. by apply (JsonProcess_hangs hst fuel' sv fd rb bs).
  - intros Hn. destruct (Z.leb_spec fd 0) as [Hfd|Hfd].
    { unfold JsonProcess. by rewrite (proj2 (Z.leb_le _ _) Hfd). }
    pose proof (JsonProcess_runs hst Hst fuel sv fd rb bs mysql Hok Hb Hl Hf) as Hr.
    intros E. rewrite E in Hr. apply Hr; [|done]. intros Es.
    destruct (is_command (first_frame bs)) eqn:Ec; [|done]. by exfalso; apply Hn.
Qed.

Lemma new_sessions_ok `{OpenSSL} hst : sessions_ok None (new_MmsServer hst).
Proof.
  split; [done| | |]; cbn; [intros l [? E]; by rewrite lookup_empty in E|..];
    intros k l Hk; unfold session in *; cbn in Hk; by rewrite get_new in Hk.
Qed.

Lemma json_process_terminates_witness :
  let logout := frames [Msg_Logout (Logout (Some 100))] in
  let both := frames [Msg_Login (demo_user 100); Msg_Logout (Logout (Some 100))] in
  (forall fuel, JsonProcess demo_host fuel demo_server 5 (filled logout) true = Err NoFuel) /\
  JsonProcess demo_host (length both + 1) demo_server 5 (filled both) true <> Err NoFuel.
Proof.
  intros logout both. split.
  - refine (proj1 (json_process_terminates demo_host (length logout + 1) demo_server 5 (filled logout) logout
      true eq_refl (new_sessions_ok demo_host) _ _ _) _).
    + by apply filled_holds; vm_compute.
    + by vm_compute.
    + by vm_compute.
    + split; [done|]. split; [apply get_new|by vm_compute].
  - refine (proj2 (json_process_terminates demo_host (length both + 1) demo_server 5 (filled both) both
      true eq_refl (new_sessions_ok demo_host) _ _ _) _).
    + by apply filled_holds; vm_compute.
    + by vm_compute.
    + by vm_compute.
    + intros (_ & _ & Hc). by vm_compute in Hc.
Defined.

(** ** Sessions *)

(** C36: In every state the server can reach, in any order of the steps of its
    threads, the session found by a descriptor belongs to it and has nothing
    buffered; and a worker that handles what a connection sent leaves the
    sessions of all other connections as they are, and posts to nobody but the
    connection and the shell client of its session. *)
Theorem sessions_isolated `{JsonSize} `{OpenSSLLaws} (hst : host) (sv : MmsServer) :
  zlen (stack_array hst) = AES_BLOCK_SIZE -> reachable hst sv ->
  (forall fd l, session sv fd = Some l ->
     buffered sv l [] /\ exists i, sv_items sv !! l = Some i /\ i_fd i = fd /\ uint (i_yyID i)) /\
  forall t fuel mysql info b go sv',
    worker_id (sv_boss sv) (Z.of_nat t) -> PopJob (sv_boss sv) (Z.of_nat t) = Ok (info, b) ->
    job_size info < Z.min (2 ^ 30) (Z.of_nat fuel) -> bi_port info <> g_mangport hst ->
    work_turn hst fuel sv t mysql = Ok (go, sv') ->
    (forall fd l, fd <> bi_fd info -> session sv fd = Some l ->
       session sv' fd = Some l /\ sv_items sv' !! l = sv_items sv !! l) /\
    exists new, sv_posts sv' = sv_posts sv ++ new /\ Forall (addressed (bi_fd info) sv) new.
Proof.
  intros Hst Hr. pose proof (reachable_ok hst Hst sv Hr) as Hok. split.
  - intros fd l Hs. destruct (ok_session _ _ (s_sessions _ Hok) _ _ Hs) as [Hb Hi]. split; [by apply Hb|done].
  - intros t fuel mysql info b go sv' Hw Ep Hsz Hport E.
    destruct (work_turn_ok hst Hst fuel sv t mysql go sv' Hok Hw) as [_ Hserved]; [congruence|done|].
    destruct (Hserved info b Ep Hport) as (sv1 & Es & Ei & Epost & Hsv & Hok1).
    destruct (served_posts _ _ _ Hsv) as (new & En & Hnew). unfold session in *. rewrite <- Ei, <- Es, <- Epost. split.
    + intros fd l Hf Hs. by apply (served_session_other (bi_fd info)).
    + exists new. split; [done|]. unfold addressed, session in *. by rewrite <- Ei, <- Es.
Qed.

(** *** Two connections *)

Definition demo_started : MmsServer :=
  match mms_init demo_host demo_server 2 true true true with Ok (_, sv) => sv | Err _ => demo_server end.

Lemma demo_start : mms_init demo_host demo_server 2 true true true = Ok (true, demo_started).
Proof.
  unfold demo_started.
  assert (Hok : match mms_init demo_host demo_server 2 true true true with Ok (ok, _) => ok | Err _ => false end
    = true) by (by vm_compute).
  destruct (mms_init _ _ _ _ _ _) as [[ok sv]|]; [|done]. by rewrite Hok.
Qed.

(** The event loop hands bytes to the server; a worker takes a turn. *)
Definition receives (sv : MmsServer) (fd : Z) (bs : list byte) : MmsServer :=
  match mms_data_receive sv fd (Some (filled bs)) 8000 with Ok (_, sv) => sv | Err _ => sv end.

Definition job_small (fuel : nat) (sv : MmsServer) (t : nat) : bool :=
  (Z.of_nat t <? zlen (bm_workers (sv_boss sv))) &&
  match PopJob (sv_boss sv) (Z.of_nat t) with
  | Ok (info, _) => job_size info <? Z.min (2 ^ 30) (Z.of_nat fuel)
  | Err _ => true
  end.

Definition works (fuel : nat) (sv : MmsServer) (t : nat) : MmsServer :=
  if job_small fuel sv t then
    match work_turn demo_host fuel sv t true with Ok (_, sv) => sv | Err _ => sv end
  else sv.

Lemma receives_reachable sv fd bs :
  reachable demo_host sv -> 0 <= fd -> zlen bs < 2 ^ 30 -> reachable demo_host (receives sv fd bs).
Proof.
  intros Hr Hfd Hl. unfold receives. destruct (mms_data_receive _ _ _ _) as [[keep sv']|] eqn:E; [|done].
  eapply reach_step; [exact Hr|]. eapply step_receive; [exact Hfd|apply filled_holds, Hl|exact E].
Qed.

Lemma job_small_ok fuel sv t :
  job_small fuel sv t = true -> worker_id (sv_boss sv) (Z.of_nat t) /\
  forall info b, PopJob (sv_boss sv) (Z.of_nat t) = Ok (info, b) -> job_size info < Z.min (2 ^ 30) (Z.of_nat fuel).
Proof.
  unfold job_small. intros [Hw Hp]%andb_true_iff. split; [split; lia|]. intros info b E. rewrite E in Hp. lia.
Qed.

Lemma works_reachable fuel sv t : reachable demo_host sv -> reachable demo_host (works fuel sv t).
Proof.
  intros Hr. unfold works. destruct (job_small fuel sv t) eqn:Ej; [|done].
  apply job_small_ok in Ej as [Hw Hp].
  destruct (work_turn demo_host fuel sv t true) as [[go sv']|] eqn:E; [|done].
  eapply reach_step; [exact Hr|]. by eapply step_work.
Qed.

Definition demo_sessions : MmsServer :=
  let sv := receives demo_started 5 (frames [Msg_Login (demo_user 100)]) in
  let sv := works 1000 sv 1 in
  let sv := receives sv 6 (frames [Msg_Login (demo_user 200)]) in
  let sv := works 1000 sv 0 in
  receives sv 5 (frames [Msg_Login1 (Login1 1 (bytes "user") (bytes "pwd"))]).

Lemma demo_reachable : reachable demo_host demo_sessions.
Proof.
  assert (H0 : reachable demo_host demo_started) by (apply (reach_init _ 2); [done|exact demo_start]).
  unfold demo_sessions. cbv zeta.
  refine (receives_reachable _ 5 _ (works_reachable 1000 _ 0 (receives_reachable _ 6 _
    (works_reachable 1000 _ 1 (receives_reachable _ 5 _ H0 _ _)) _ _)) _ _); first [lia|by vm_compute].
Qed.

Lemma sessions_isolated_witness :
  session demo_sessions 6 = Some 1%nat /\
  session (works 1000 demo_sessions 1) 6 = Some 1%nat /\
  sv_items (works 1000 demo_sessions 1) !! 1%nat = sv_items demo_sessions !! 1%nat.
Proof.
  assert (Hs : session demo_sessions 6 = Some 1%nat) by (by vm_compute). split; [exact Hs|].
  destruct (work_turn demo_host 1000 demo_sessions 1 true) as [[go sv']|] eqn:E.
  2:{ exfalso. assert (Hok : match work_turn demo_host 1000 demo_sessions 1 true with
        Ok _ => true | Err _ => false end = true) by (by vm_compute). by rewrite E in Hok. }
  assert (Ej : job_small 1000 demo_sessions 1 = true) by (by vm_compute).
  assert (Ew : works 1000 demo_sessions 1 = sv') by (unfold works; by rewrite Ej, E).
  destruct (PopJob (sv_boss demo_sessions) (Z.of_nat 1)) as [[info b]|] eqn:Ep.
  2:{ exfalso. assert (Hok : match PopJob (sv_boss demo_sessions) (Z.of_nat 1) with
        Ok _ => true | Err _ => false end = true) by (by vm_compute). by rewrite Ep in Hok. }
  assert (Hi : match PopJob (sv_boss demo_sessions) (Z.of_nat 1) with
    Ok (info, _) => (bi_fd info, bi_port info) | Err _ => (0, 0) end = (5, 8000)) by (by vm_compute).
  rewrite Ep in Hi. injection Hi as Hfd Hport. rewrite Ew.
  refine (proj1 (proj2 (sessions_isolated demo_host demo_sessions eq_refl demo_reachable) 1%nat 1000%nat true
    info b go sv' _ _ _ _ _) 6 1%nat _ Hs).
  - by apply (job_small_ok 1000).
  - exact Ep.
  - by eapply (proj2 (job_small_ok 1000 _ _ Ej)).
  - rewrite Hport. by vm_compute.
  - exact E.
  - by rewrite Hfd.
Defined.

(** ** The worker threads *)

(** C37: From every reachable state on, through every further run: a worker takes
    the jobs in its queue in their order, none twice and none left out; until it
    is told to leave its semaphore counts them, so it sleeps only when there is no
    job for it, and otherwise its turn is the handler of the first. *)
Theorem jobs_served `{JsonSize} `{OpenSSLLaws} (hst : host) (sv sv' : MmsServer) (outs : list (nat * BossInfo))
    (t : nat) :
  zlen (stack_array hst) = AES_BLOCK_SIZE -> reachable hst sv -> server_run hst sv outs sv' -> worker sv' t ->
  exists d new, sv_threads sv' !! t = Some d /\
    jobs_of sv t ++ new = taken_by t outs ++ jobs_of sv' t /\
    (td_exitflag d = false ->
       td_sem d = zlen (jobs_of sv' t) /\
       forall fuel mysql, work_turn hst fuel sv' t mysql =
         match jobs_of sv' t with
         | [] => Err Blocked
         | info :: rest => sv2 ← handle_job hst fuel (job_taken sv' t d rest) info mysql; Ok (true, sv2)
         end).
Proof.
  intros Hst Hr Hrun Hw. pose proof (reachable_running hst Hst sv Hr) as Hi.
  destruct (run_running hst Hst sv outs sv' Hrun Hi) as [[Hok Ht] M].
  destruct (Ht t Hw) as (_ & d & Ed & _ & Hc), (M t) as [new En]. exists d, new. split; [done|].
  split; [done|]. intros Hf. split; [by apply Hc|]. intros fuel mysql.
  by rewrite (work_turn_spec hst fuel sv' t mysql d), Hf.
Qed.

Lemma works_step fuel sv t :
  job_small fuel sv t = true -> works fuel sv t <> sv -> server_step demo_host sv (takes sv t) (works fuel sv t).
Proof.
  intros Hj. pose proof (job_small_ok fuel sv t Hj) as [Hw Hp]. unfold works. rewrite Hj.
  destruct (work_turn demo_host fuel sv t true) as [[go sv']|] eqn:E; [|done]. intros _. by eapply step_work.
Qed.

Lemma jobs_served_witness :
  let sv' := works 1000 demo_sessions 1 in
  exists d new, sv_threads sv' !! 1%nat = Some d /\
    jobs_of demo_sessions 1 ++ new = taken_by 1 (takes demo_sessions 1 ++ []) ++ jobs_of sv' 1 /\
    (td_exitflag d = false ->
       td_sem d = zlen (jobs_of sv' 1) /\
       forall fuel mysql, work_turn demo_host fuel sv' 1 mysql =
         match jobs_of sv' 1 with
         | [] => Err Blocked
         | info :: rest => sv2 ← handle_job demo_host fuel (job_taken sv' 1 d rest) info mysql; Ok (true, sv2)
         end).
Proof.
  refine (jobs_served demo_host demo_sessions (works 1000 demo_sessions 1) (takes demo_sessions 1 ++ []) 1
    eq_refl demo_reachable _ _).
  - eapply run_step; [|apply run_nil]. apply works_step; [by vm_compute|]. intros E.
    assert (Hn : length (sv_posts (works 1000 demo_sessions 1)) <> length (sv_posts demo_sessions)) by (by vm_compute).
    exact (Hn (f_equal (fun sv => length (sv_posts sv)) E)).
  - split; [lia|by vm_compute].
Defined.

(** C38: When the loop has ended, every worker is told to leave, and whatever the
    order in which they wake up, each leaves at its next turn, so [run] returns;
    the destructor then releases the data of each worker once.  The jobs that are
    still queued are not handled any more. *)
Theorem shutdown_ends `{JsonSize} `{OpenSSLLaws} (hst : host) (sv : MmsServer) (order : list nat)
    (fuel : nat) (mysql : bool) :
  zlen (stack_array hst) = AES_BLOCK_SIZE -> reachable hst sv -> order ≡ₚ seq 0 (Z.to_nat (sv_threadnum sv)) ->
  exists sv1 sv2 sv3, run_end sv = Ok sv1 /\
    turns hst fuel mysql order sv1 = Ok (map (fun _ => false) order, sv2) /\
    mms_destroy sv2 = Ok sv3 /\
    (forall t, worker sv t -> sv_threads sv3 !! t = None /\ jobs_of sv3 t = jobs_of sv t) /\
    sv_posts sv3 = sv_posts sv.
Proof.
  intros Hst Hr Ho. pose proof (reachable_running hst Hst sv Hr) as Hi.
  destruct (shutdown_runs hst fuel mysql order sv Hi Ho) as (threads & sv2 & E1 & E2 & boss & threads' & E3 & Hj).
  eexists _, sv2, _. do 3 (split; [eassumption|]). split; [|done].
  intros t Hw. split; [by apply (Hj t)|apply (Hj t)].
Qed.

Lemma shutdown_ends_witness :
  exists sv1 sv2 sv3, run_end demo_sessions = Ok sv1 /\
    turns demo_host 1 true [1%nat; 0%nat] sv1 = Ok ([false; false], sv2) /\
    mms_destroy sv2 = Ok sv3 /\
    (forall t, worker demo_sessions t -> sv_threads sv3 !! t = None /\ jobs_of sv3 t = jobs_of demo_sessions t) /\
    sv_posts sv3 = sv_posts demo_sessions.
Proof.
  refine (shutdown_ends demo_host demo_sessions [1%nat; 0%nat] 1 true eq_refl demo_reachable _).
  assert (En : sv_threadnum demo_sessions = 2) by (by vm_compute). rewrite En. apply perm_swap.
Defined.

(** ** Where the server falls short *)

Definition serve (sv : MmsServer) (fd : Z) (js : list YYJ) (mysql : bool) : MmsServer :=
  match JsonProcess demo_host 1000 sv fd (filled (frames js)) mysql with Ok sv => sv | Err _ => sv end.

(** After a refusal the commands that follow the login are still answered. *)
Example refused_login_served :
  let sv := serve demo_server 5 [Msg_Login (demo_user 100); Msg_Login1 (Login1 1 (bytes "user") [])] false in
  match sv_posts sv with
  | [(_, refusal); (_, close); (_, answer)] =>
      refusal = frames [Msg_Login_res (LoginRes false [])] /\ close = [] /\
      answer = frames [Msg_Login1_res (Login1Res true)]
  | _ => False
  end.
Proof. vm_compute. auto. Qed.

(** A frame that has arrived in part closes the connection. *)
Example partial_frame_closes :
  match JsonProcess demo_host 1000 demo_server 5
    (filled (take 40 (frames [Msg_Login (demo_user 100)]))) true with
  | Ok sv => sv_posts sv = [(5, [])]
  | Err _ => False
  end.
Proof. by vm_compute. Qed.

(** A second login of a user takes the user over, and the logout of the first
    connection then takes the user away from the second. *)
Example logout_of_other :
  let sv := serve demo_server 5 [Msg_Login (demo_user 100)] true in
  let sv := serve sv 6 [Msg_Login (demo_user 100)] true in
  let sv' := serve sv 5 [Msg_Logout (Logout (Some 100))] true in
  get_state (sv_userData sv) 100 = Some 1%nat /\ get_state (sv_userData sv') 100 = None /\
  session sv' 6 = Some 1%nat.
Proof. by vm_compute. Qed.

(** An RSA envelope from a client that has logged in stops a debug server. *)
Example rsa_envelope_asserts :
  match JsonProcess demo_host 1000 demo_server 5
    (filled (frames [Msg_Login (demo_user 100); Comp_RSA (CompRSA 0 [])])) true with
  | Ok _ => False
  | Err e => e = AssertFailed
  end.
Proof. by vm_compute. Qed.
