(* ===== verification/System.v ===== *)
(** * The whole server

    The event loop with the server as its client, its worker threads and its
    redis client.  What the server posts goes straight into the queue of the loop,
    as [_sendCmd] and [redis_cb] do it with [data_send]; the flag that wakes the
    loop up follows later, when other threads may have come between.  Every state
    of the whole is a state the server can reach together with a run of the
    loop's network. *)

From S2P Require Import Prelude Redis Json Ssl SslSpec FastBuffer Queues Messages Protocol ProtocolSpec.
From S2P Require Import Digits Sds Reply EventLoop EventLoopSpec Server ServerSpec ServerSession ServerLoop.
From S2P Require Import ServerReach ServerThreads.

Section system.
  Context `{JsonSize} `{OpenSSLLaws} (hst : host).
  Hypothesis stack_size : zlen (stack_array hst) = AES_BLOCK_SIZE.

#[local] Instance loop_server : ILibEvent MmsServer := server_event hst.
#[local] Instance queue_server : ILibQueueEvent MmsServer := server_queue_event hst.

(** ** What the steps of the server do to its posts *)

Lemma redis_cb_posts sv h reply fd sv' : redis_cb sv h reply fd = Ok sv' -> sv_posts sv `prefix_of` sv_posts sv'.
Proof.
  unfold redis_cb. destruct reply as [l|]; [|by intros [= <-]].
  destruct (of_option _ _) as [r|]; cbn [mbind result_bind]; [|done].
  destruct (negb _); [by intros [= <-]|]. destruct (put _ _) as [fb|]; cbn [mbind result_bind]; [|done].
  destruct (of_option _ (rp_element r)); cbn [mbind result_bind]; [|done].
  destruct (of_option _ (rp_elements r)); cbn [mbind result_bind]; [|done].
  destruct (echo_elements _ _ _) as [fb'|]; cbn [mbind result_bind]; [|done].
  destruct (0 <? _); [|by intros [= <-]]. destruct (contents fb'); cbn [mbind result_bind]; [|done].
  intros [= <-]. by eexists.
Qed.

Lemma redis_posts ev sv sv' : handle_redis hst ev sv = Ok sv' -> sv_posts sv `prefix_of` sv_posts sv'.
Proof.
  unfold handle_redis. destruct (redis_handler hst ev (sv_redis sv)) as [st|]; cbn [mbind result_bind]; [|done].
  change (sv_posts sv) with (sv_posts (set_redis sv st)). generalize (set_redis sv st) as sv1.
  generalize (drop (length (yr_calls (sv_redis sv))) (yr_calls st)) as calls.
  induction calls as [|[[h reply] privdata] calls IH]; intros sv1; cbn [redis_replies]; [by intros [= <-]|].
  destruct reply as [|l|]; [done| |done]. destruct privdata as [| |fd]; [|done|].
  all: destruct (redis_cb sv1 h (Some l) _) as [sv2|] eqn:E; cbn [mbind result_bind]; [|done].
  all: intros E2%IH; etrans; [by eapply redis_cb_posts|done].
Qed.

Lemma receive_posts sv fd fb port keep sv' :
  mms_data_receive sv fd (Some fb) port = Ok (keep, sv') -> sv_posts sv' = sv_posts sv.
Proof.
  unfold mms_data_receive. destruct (_ =? 0); [done|]. cbv zeta.
  destruct (c_assert _); cbn [mbind result_bind]; [|done].
  destruct (PushJob _ _ _) as [[? boss]|]; cbn [mbind result_bind]; [|done].
  destruct (GetWorkerTouch _ _) as [o|]; cbn [mbind result_bind]; [|done].
  intros [= _ <-]. by destruct o.
Qed.

Lemma close_posts sv fd sv' : mms_fd_close hst sv fd = Ok sv' -> sv_posts sv' = sv_posts sv.
Proof.
  unfold mms_fd_close. destruct (get_state _ _) as [l|]; [|by intros [= <-]].
  destruct (item sv l) as [i|]; cbn [mbind result_bind]; [|done].
  destruct (FormatCmd _ _) as [[ok str]|]; cbn [mbind result_bind]; [|done].
  destruct ok; cbn [negb]; [|by intros [= <-]].
  destruct (put _ _) as [fb|]; cbn [mbind result_bind]; [|done].
  destruct (mms_data_receive _ _ _ _) as [[keep sv1]|] eqn:E; cbn [mbind result_bind]; [|done].
  intros [= <-]. by eapply receive_posts.
Qed.

Lemma work_posts fuel sv t mysql go sv' :
  running sv -> worker sv t ->
  (forall info b, PopJob (sv_boss sv) (Z.of_nat t) = Ok (info, b) ->
     job_size info < Z.min (2 ^ 30) (Z.of_nat fuel)) ->
  work_turn hst fuel sv t mysql = Ok (go, sv') -> sv_posts sv `prefix_of` sv_posts sv'.
Proof.
  intros [Hok Ht] Hw Hsz. destruct (Ht t Hw) as (_ & d & Ed & _).
  rewrite (work_turn_spec hst fuel sv t mysql d) by done. destruct (td_exitflag d).
  - destruct (_ <=? 0); [done|]. by intros [= _ <-].
  - destruct (jobs_of sv t) as [|info rest] eqn:Ej; [done|].
    destruct (handle_job _ _ _ _ _) as [sv1|] eqn:E; cbn [mbind result_bind]; [|done]. intros [= _ <-].
    destruct (job_taken_ok hst sv t d info rest Hok Hw Ej) as [Hj Hok1].
    assert (Hi : job_size info < Z.min (2 ^ 30) (Z.of_nat fuel)).
    { destruct (s_boss _ Hok) as (B & _ & _). eapply Hsz. unfold jobs_of in Ej. by rewrite pop_job_spec, Ej. }
    by destruct (handle_job_ok hst stack_size fuel _ info mysql sv1 Hok1 Hj Hi E) as (_ & _ & ?).
Qed.

Lemma step_posts sv out sv' : running sv -> server_step hst sv out sv' -> sv_posts sv `prefix_of` sv_posts sv'.
Proof.
  intros Hr [fd fb bs port keep sv1 _ _ E|fd sv1 _ E|t fuel mysql go sv1 Hw Hsz E|ev sv1 E|sv1 E].
  - by rewrite (receive_posts _ _ _ _ _ _ E).
  - by rewrite (close_posts _ _ _ E).
  - by eapply work_posts.
  - by eapply redis_posts.
  - destruct Hr as [Hok Ht]. destruct (s_boss _ Hok) as (B & W & P). unfold run_end in E.
    destruct (stop_threads_spec (Z.to_nat (sv_threadnum sv)) 0 sv B Ht) as (threads & E' & _); [lia|].
    rewrite E' in E. by injection E as <-.
Qed.

Lemma start_posts n : forall i sv sv', start_threads n i sv = Ok sv' -> sv_posts sv' = sv_posts sv.
Proof.
  induction n as [|n IH]; intros i sv sv'; cbn [start_threads]; [by intros [= <-]|].
  destruct (SetWorker _ _ _) as [b|]; cbn [mbind result_bind]; [|done]. by intros ->%IH.
Qed.

Lemma init_posts n sv : mms_init hst (new_MmsServer hst) n true true true = Ok (true, sv) -> sv_posts sv = [].
Proof.
  unfold mms_init. cbn [negb]. cbv zeta.
  destruct (redis_Connect _ _ _ _) as [[connected redis]|]; cbn [mbind result_bind]; [|done].
  destruct (bm_Init _ _) as [[ok b]|]; cbn [mbind result_bind]; [|done].
  destruct (start_threads _ _ _) as [sv'|] eqn:E; cbn [mbind result_bind]; [|done].
  intros [= <-]. by rewrite (start_posts _ _ _ _ E).
Qed.

(** ** The server as the client of the loop

    What the loop asks of the server posts nothing.  The server never sends a
    command to redis, so nobody wakes the loop up for it. *)

Definition serving (posted : list (Z * list byte)) (sv : MmsServer) : Prop :=
  reachable hst sv /\ sv_posts sv = posted.

Definition no_flags (_ : Z) : Prop := False.

#[export] Instance server_law posted :
  ILibEventLaw MmsServer (serving posted) no_flags.
Proof.
  split.
  - intros sv fd fb bs port [Hr Hp] Hfd Hb _.
    destruct (receive_runs hst sv fd fb bs port (reachable_ok hst stack_size sv Hr) Hfd Hb) as (sv' & E & _).
    exists false, sv'. split; [exact E|]. split.
    + eapply reach_step; [exact Hr|]. by eapply step_receive.
    + by rewrite (receive_posts _ _ _ _ _ _ E).
  - intros sv fd [Hr Hp] Hfd.
    destruct (close_runs hst sv fd (reachable_ok hst stack_size sv Hr) Hfd) as (sv' & E & _).
    exists sv'. split; [exact E|]. split.
    + eapply reach_step; [exact Hr|]. by eapply step_close.
    + by rewrite (close_posts _ _ _ E).
  - intros sv flag [].
Qed.

(** ** Runs of the whole *)

(** The loop, and the number of threads that have pushed a buffer and not sent
    the flag yet.  A run is followed until 2^30 bytes have been posted. *)
Record system := System {
  y_loop : YYLibEvent MmsServer;
  y_waking : nat;
}.

Definition of_server (ev : loop_event) : bool :=
  match ev with Post _ _ | WakeOther _ => true | _ => false end.

(** The buffers a step of the server has pushed, in their order. *)
Definition pushes (sv sv' : MmsServer) : list loop_event :=
  (fun p => Post (fst p) (snd p)) <$> drop (length (sv_posts sv)) (sv_posts sv').

(** The server has gone from one state to another. *)
Definition served_by (y : system) (sv sv' : MmsServer) : result system :=
  '(s, w) ← loop_run (pushes sv sv') (set_callback (y_loop y) (Some sv'), y_waking y);
  Ok (System s w).

Inductive system_step : system -> system -> Prop :=
| sys_loop ev s w s' w' :
    of_server ev = false -> event_ok no_flags ev ->
    loop_step ev (s, w) = Ok (s', w') ->
    system_step (System s w) (System s' w')
| sys_server y sv out sv' y' :
    lp_callback (y_loop y) = Some sv -> server_step hst sv out sv' -> amount (sv_posts sv') < 2 ^ 30 ->
    served_by y sv sv' = Ok y' ->
    system_step y y'.

(** Some of these steps as a program: events of the loop, and turns of a worker. *)
Inductive system_op := Net (ev : loop_event) | Work (fuel t : nat) (mysql : bool).

Definition system_do (op : system_op) (y : system) : result system :=
  match op with
  | Net ev => '(s, w) ← loop_step ev (y_loop y, y_waking y); Ok (System s w)
  | Work fuel t mysql =>
      sv ← of_option Undefined (lp_callback (y_loop y));
      '(_, sv') ← work_turn hst fuel sv t mysql;
      served_by y sv sv'
  end.

Fixpoint system_run (ops : list system_op) (y : system) : result system :=
  match ops with
  | [] => Ok y
  | op :: ops => y ← system_do op y; system_run ops y
  end.

(** [MmsServer::init], and what it sets up in the loop: the pair of sockets that
    wakes it, and the flag of redis. *)
Inductive system_reach : system -> Prop :=
| sys_init n sv sv0 :
    0 < n -> mms_init hst (new_MmsServer hst) n true true true = Ok (true, sv) ->
    system_reach (System (started sv sv0 REDIS_EVENT_FLAG) O)
| sys_next y y' : system_reach y -> system_step y y' -> system_reach y'.

(** ** The invariant *)

Record system_ok (y : system) (sv : MmsServer) (handled pending : list (Z * list byte)) (m : network) : Prop := {
  y_client : lp_callback (y_loop y) = Some sv;
  y_handled : handled ++ pending = sv_posts sv;
  y_amount : amount (sv_posts sv) < 2 ^ 30;
  y_inv : loop_inv (serving (sv_posts sv)) no_flags (y_loop y) (y_waking y) handled pending m;
}.

Lemma loop_inv_client (inv inv' : MmsServer -> Prop) s w handled pending m sv :
  inv' sv -> loop_inv inv no_flags s w handled pending m ->
  loop_inv inv' no_flags (set_callback s (Some sv)) w handled pending m.
Proof.
  intros Hi [(_ & Hrest) Hn Hq Hw Hd Ha Hf]. split; try done. split; [by exists sv|done].
Qed.

Lemma loop_client (inv : MmsServer -> Prop) s w handled pending m :
  loop_inv inv no_flags s w handled pending m -> exists sv, lp_callback s = Some sv /\ inv sv.
Proof. by intros [[Hc _] _ _ _ _ _ _]. Qed.

Lemma system_serving y sv handled pending m : system_ok y sv handled pending m -> reachable hst sv.
Proof.
  intros [Hc _ _ Hi]. destruct (loop_client _ _ _ _ _ _ Hi) as (sv' & Ec & [Hr _]).
  rewrite Hc in Ec. by injection Ec as <-.
Qed.

(** ** The steps keep it *)

Lemma loop_step_ok ev s w s' w' sv handled pending m :
  system_ok (System s w) sv handled pending m -> of_server ev = false -> event_ok no_flags ev ->
  loop_step ev (s, w) = Ok (s', w') ->
  exists sv' handled' pending' m', system_ok (System s' w') sv' handled' pending' m'.
Proof.
  intros [Hc Hh Hb Hi] Ho He E. cbn [y_loop y_waking] in *.
  assert (Hp : posts [ev] = []) by (by destruct ev).
  destruct (loop_step_spec (serving (sv_posts sv)) no_flags ev s w handled pending m Hi He)
    as (s1 & w1 & h1 & p1 & m1 & E1 & Hi1 & Eh).
  { rewrite Hp, app_nil_r, <- amount_app, Hh. exact Hb. }
  rewrite E in E1. injection E1 as <- <-. rewrite Hp, app_nil_r in Eh.
  destruct (loop_client _ _ _ _ _ _ Hi1) as (sv' & Ec & [Hr Hp']).
  exists sv', h1, p1, m1. split; cbn [y_loop y_waking]; rewrite ?Hp'; [done|by rewrite Eh, Hh|done|done].
Qed.

Lemma posts_pushed l : posts ((fun p : Z * list byte => Post (fst p) (snd p)) <$> l) = l.
Proof.
  induction l as [|[fd bs] l IH]; [done|]. rewrite fmap_cons, posts_cons, IH. done.
Qed.

Lemma pushed_keeps_client l : forall (s : YYLibEvent MmsServer) w s' w',
  loop_run ((fun p : Z * list byte => Post (fst p) (snd p)) <$> l) (s, w) = Ok (s', w') ->
  lp_callback s' = lp_callback s /\ lp_fds s' = lp_fds s /\ lp_effects s' = lp_effects s /\ lp_pipe s' = lp_pipe s.
Proof.
  induction l as [|[fd bs] l IH]; intros s w s' w'; cbn [fmap list_fmap loop_run fst snd loop_step].
  { by intros [= <- <-]. }
  destruct (put new_fastbuffer bs) as [fb|]; cbn [mbind result_bind]; [|done]. by intros E%IH.
Qed.

(** The posts of a step arrive at the end of the queue, and the step of the
    server always goes through as far as the loop is concerned. *)
Lemma served_ok_by y sv out sv' handled pending m :
  system_ok y sv handled pending m -> server_step hst sv out sv' -> amount (sv_posts sv') < 2 ^ 30 ->
  exists y' handled' pending' m', served_by y sv sv' = Ok y' /\ system_ok y' sv' handled' pending' m'.
Proof.
  intros Hok Hs Hb. pose proof (system_serving _ _ _ _ _ Hok) as Hr. destruct Hok as [Hc Hh _ Hi].
  destruct (step_posts sv out sv' (reachable_running hst stack_size sv Hr) Hs) as [new Enew].
  set (evs := pushes sv sv').
  assert (Ep : posts evs = new) by (unfold evs, pushes; rewrite Enew, drop_app_length; apply posts_pushed).
  assert (Hi' : loop_inv (serving (sv_posts sv')) no_flags (set_callback (y_loop y) (Some sv')) (y_waking y) handled pending m).
  { eapply loop_inv_client; [|exact Hi]. split; [by eapply reach_step|done]. }
  destruct (loop_run_spec _ no_flags evs _ _ handled pending m Hi') as (s & w & h & p & m' & E & Hi1 & Eh).
  { unfold evs, pushes. apply List.Forall_forall. intros ev Hin. apply in_map_iff in Hin as (q & <- & _). exact I. }
  { rewrite Ep, <- amount_app, app_assoc, Hh, <- Enew. exact Hb. }
  exists (System s w), h, p, m'. unfold served_by. fold evs. rewrite E. split; [done|].
  destruct (pushed_keeps_client _ _ _ _ _ E) as (Ec & _).
  split; cbn [y_loop y_waking]; [by rewrite Ec| |done|done].
  by rewrite Eh, Ep, app_assoc, Hh.
Qed.

Lemma system_step_ok y y' sv handled pending m :
  system_ok y sv handled pending m -> system_step y y' ->
  exists sv' handled' pending' m', system_ok y' sv' handled' pending' m'.
Proof.
  intros Hok Hs. destruct Hs as [ev s w s' w' Ho He E|y sv0 out sv' y' Hc0 Hs Hb E].
  - by eapply loop_step_ok.
  - rewrite (y_client _ _ _ _ _ Hok) in Hc0. injection Hc0 as <-.
    destruct (served_ok_by _ _ _ _ _ _ _ Hok Hs Hb) as (y1 & h & p & m' & E1 & Hok').
    rewrite E in E1. injection E1 as <-. by exists sv', h, p, m'.
Qed.

Lemma system_reach_ok y : system_reach y -> exists sv handled pending m, system_ok y sv handled pending m.
Proof.
  induction 1 as [n sv sock Hn E|y y' _ (sv & handled & pending & m & Hok) Hs]; [|by eapply system_step_ok].
  pose proof (init_posts n sv E) as Ep.
  exists sv, [], [], ∅. split; cbn [y_loop y_waking]; rewrite ?Ep; [done..|].
  apply started_inv. split; [by eapply reach_init|done].
Qed.

End system.
