(* ===== verification/SystemRun.v ===== *)
(** * The whole server, end to end

    What holds of the whole in every state, and what becomes of one login from
    the socket to the socket. *)

From S2P Require Import Prelude MemStuff Mysql Redis Json JsonParser Ssl SslSpec SslReference FastBuffer Queues.
From S2P Require Import Messages Protocol ProtocolSpec EventLoop EventLoopSpec Server ServerSpec.
From S2P Require Import ServerSession ServerLoop ServerReach ServerThreads ServerLogin ServerRun System.

(** In every state of the whole - the loop, the sessions, the workers, the redis
    client, in any order of their steps, as long as [send] takes all or nothing
    and the steps do not fault - the server is in one of its reachable states; the
    answers it has posted are, in their order, those the loop has taken from its
    queue and those that wait there, each of the latter with a flag in the pipe or
    a thread about to send it; and the loop's connections are the result of a run
    of the network that queued the answers taken, or dropped them where there was
    no connection. *)
Theorem system_serves `{JsonSize} `{OpenSSLLaws} (hst : host) (y : system) :
  zlen (stack_array hst) = AES_BLOCK_SIZE -> system_reach hst y ->
  exists sv handled pending m,
    lp_callback (y_loop y) = Some sv /\ reachable hst sv /\
    handled ++ pending = sv_posts sv /\
    Forall2 stands_for pending (lqm_queue (lp_bufqueue (y_loop y)) WRITE_EVENT_FLAG) /\
    length pending = (wakes (lp_pipe (y_loop y)) + y_waking y)%nat /\
    List.filter nonempty handled = deliveries (lp_effects (y_loop y)) /\
    replay (lp_effects (y_loop y)) = Some m /\
    forall fd, conn_rel (get_state (lp_fds (y_loop y)) fd) (m !! fd).
Proof.
  intros Hst Hr. destruct (system_reach_ok hst Hst y Hr) as (sv & handled & pending & m & Hok).
  pose proof (system_serving hst _ _ _ _ _ Hok) as Hsv. destruct Hok as [Hc Hh _ [_ (Hrep & _ & Hcr) Hq Hw Hd _ _]].
  exists sv, handled, pending, m. repeat (split; [done|]). intros fd. apply Hcr.
Qed.

(** ** The loop, event by event *)

Section loop.
  Context {S : Type} `{ILibEvent S} `{ILibQueueEvent S}.
  Implicit Types (s : YYLibEvent S).

Lemma loop_run_app evs evs' s w :
  loop_run (evs ++ evs') (s, w) = ('(s, w) ← loop_run evs (s, w); loop_run evs' (s, w)).
Proof.
  revert s w. induction evs as [|ev evs IH]; intros s w; [done|]. cbn [app loop_run].
  destruct (loop_step ev (s, w)) as [[s1 w1]|]; cbn [mbind result_bind]; [apply IH|done].
Qed.

(** A connection that has nothing to write. *)
Definition idle s (fd : Z) : Prop := exists st, get_state (lp_fds s) fd = Some st /\ holds (writebuffer st) [].

(** What two states have in common when only connections and the client differ. *)
Definition same_queue s s' : Prop :=
  lp_bufqueue s' = lp_bufqueue s /\ lp_pipe s' = lp_pipe s /\ lp_queueback s' = lp_queueback s.

(** A connection is accepted, and what it sends is handed to the client. *)
Lemma arrives s w c fd port chunks :
  lp_callback s = Some c -> get_state (lp_fds s) fd = None -> 0 <= fd -> chunks <> [] ->
  Forall (fun bs => 0 < zlen bs <= 1024) chunks -> zlen (concat chunks) < 2 ^ 30 ->
  exists fb, holds fb (concat chunks) /\ forall keep c', data_receive c fd fb port = Ok (keep, c') ->
    exists s', loop_run [Accepted port fd; Readable fd (map Data chunks ++ [RecvAgain])] (s, w) = Ok (s', w) /\
      lp_callback s' = Some c' /\ idle s' fd /\ same_queue s s' /\ lp_effects s' = lp_effects s ++ [Opened fd].
Proof.
  intros Ec Es Hfd Hne Hc Hl. set (st := FdState new_fastbuffer true false port).
  set (s1 := emit (set_fd_state (set_fds s (add_state (lp_fds s) fd (Some (FdState new_fastbuffer false false port)))) fd st) (Opened fd)).
  destruct (read_loop_data s1 fd port chunks RecvAgain None [] Hc eq_refl new_holds) as (fb & E & Hfb).
  { rewrite zlen_nil. lia. }
  destruct chunks as [|bs chunks]; [done|]. destruct Hfb as (b & -> & Hb). exists b. split; [done|].
  intros keep c' Er. exists (set_callback s1 (Some c')). cbn [loop_run loop_step]. rewrite Es. unfold do_accept.
  rewrite (proj2 (Z.ltb_ge _ _)) by lia. cbn [alloc_fd_state set_fds lp_fds]. rewrite get_add_same.
  cbn [mbind result_bind writebuffer write_event listen_port]. fold st.
  change (emit _ (Opened fd)) with s1. cbn [loop_step]. unfold do_read.
  assert (Eg : get_state (lp_fds s1) fd = Some st) by (cbn; by rewrite get_add_same).
  rewrite Eg. cbn [listen_port st]. fold st. rewrite E. cbn [read_loop].
  change (lp_callback s1) with (lp_callback s). rewrite Ec, Er. cbn [mbind result_bind].
  split; [done|]. split; [done|]. split; [|done]. exists st. split; [exact Eg|apply new_holds].
Qed.

(** Bytes of the pipe that are no flag. *)
Lemma skips p q s w :
  Forall (fun b => c2z b <= 0) p -> lp_pipe s = p ++ q ->
  loop_run (repeat QueueReadable (length p)) (s, w) = Ok (match p with [] => s | _ => set_pipe s (lp_msgfd s) q end, w).
Proof.
  intros Hp. revert s. induction Hp as [|b p Hb Hp IH]; intros s Ep; [done|]. cbn [length repeat loop_run loop_step].
  unfold do_queue_read. rewrite Ep. cbn [app]. rewrite (proj2 (Z.leb_le _ _) Hb). cbn [mbind result_bind].
  rewrite IH by done. by destruct p.
Qed.

(** The loop is woken up for the first buffer of its queue. *)
Lemma woken s w p :
  Forall (fun b => c2z b <= 0) p -> lp_pipe s = p -> find_handler (lp_queueback s) WRITE_EVENT_FLAG = Some This ->
  loop_run (Wake :: repeat QueueReadable (Datatypes.S (length p))) (s, Datatypes.S w) =
    (s' ← queue_receive (set_pipe s (lp_msgfd s) [x00; x00; x00]) WRITE_EVENT_FLAG; Ok (s', w)).
Proof.
  intros Hp Ep Hf. cbn [loop_run]. change (loop_step Wake (s, Datatypes.S w)) with (s' ← flag_send s WRITE_EVENT_FLAG 4; Ok (s', w)).
  rewrite flag_send_pipe by done. cbn [mbind result_bind]. change (z2b WRITE_EVENT_FLAG) with x01. rewrite Ep.
  replace (Datatypes.S (length p)) with (length p + 1)%nat by lia. rewrite repeat_app, loop_run_app.
  rewrite (skips p [x01; x00; x00; x00]) by done. cbn [mbind result_bind repeat loop_run loop_step].
  assert (E : do_queue_read (match p with [] => set_pipe s (lp_msgfd s) (p ++ [x01; x00; x00; x00])
                             | _ => set_pipe (set_pipe s (lp_msgfd s) (p ++ [x01; x00; x00; x00])) (lp_msgfd s) [x01; x00; x00; x00] end)
            = queue_receive (set_pipe s (lp_msgfd s) [x00; x00; x00]) WRITE_EVENT_FLAG).
  { unfold do_queue_read. destruct p; cbn [app set_pipe lp_pipe lp_msgfd lp_queueback].
    all: change (c2z x01 <=? 0) with false; change (c2z x01) with WRITE_EVENT_FLAG; cbv iota.
    all: change (lp_queueback (set_pipe _ _ _)) with (lp_queueback s); by rewrite Hf. }
  change (lp_msgfd (set_pipe s (lp_msgfd s) _)) with (lp_msgfd s). rewrite E.
  by destruct (queue_receive _ _).
Qed.

(** The first buffer of the queue is sent by its connection. *)
Lemma delivered s w fd out o rest p :
  Forall (fun b => c2z b <= 0) p -> lp_pipe s = p -> find_handler (lp_queueback s) WRITE_EVENT_FLAG = Some This ->
  idle s fd -> lqm_queue (lp_bufqueue s) WRITE_EVENT_FLAG = o :: rest -> stands_for (fd, out) o -> 0 < zlen out < 2 ^ 30 ->
  exists s', loop_run (Wake :: repeat QueueReadable (Datatypes.S (length p)) ++ [Writable fd SentAll]) (s, Datatypes.S w) = Ok (s', w) /\
    lp_callback s' = lp_callback s /\ idle s' fd /\ lp_queueback s' = lp_queueback s /\ lp_pipe s' = [x00; x00; x00] /\
    lqm_queue (lp_bufqueue s') WRITE_EVENT_FLAG = rest /\ lp_effects s' = lp_effects s ++ [Queued fd out; Sent fd out].
Proof.
  intros Hp Ep Hf (st & Es & Hst) Eq (fb & -> & Hfd & Hfb) Ho. cbn [fst snd] in *.
  change (Wake :: ?a ++ ?b) with ((Wake :: a) ++ b). rewrite loop_run_app, (woken s w p Hp Ep Hf).
  pose proof (lqm_pop_queue (lp_bufqueue s) WRITE_EVENT_FLAG) as (Epop & _ & Etail).
  specialize (Etail WRITE_EVENT_FLAG). rewrite bool_decide_eq_true_2 in Etail by done. rewrite Eq in Epop, Etail.
  cbn [hd tail] in *. unfold queue_receive. change (negb (WRITE_EVENT_FLAG =? WRITE_EVENT_FLAG)) with false. cbv iota.
  change (lp_bufqueue (set_pipe s _ _)) with (lp_bufqueue s). rewrite Epop. set (q := snd (lqm_pop _ _)) in *.
  rewrite (proj1 Hfb), (proj2 (Z.eqb_neq _ 0)) by lia. rewrite (contents_holds _ _ Hfb). cbn [mbind result_bind]. rewrite Hfd.
  change (lp_fds (set_bufqueue _ _)) with (lp_fds s). rewrite Es.
  destruct (put_spec (writebuffer st) [] out Hst) as (wb & -> & Hwb & _); [rewrite zlen_nil; lia|]. cbn [app] in Hwb.
  cbn [mbind result_bind loop_run loop_step]. set (s1 := emit _ _).
  assert (E1 : get_state (lp_fds s1) fd = Some (FdState wb (read_event st) true (listen_port st)))
    by (cbn; by rewrite get_add_same).
  unfold do_write. rewrite E1. cbn [writebuffer read_event listen_port write_event].
  rewrite (proj1 Hwb), i32_small by lia. rewrite (proj2 (Z.ltb_lt _ _)) by lia.
  rewrite (sent_bytes_all _ _ Hwb). cbn [mbind result_bind]. eexists. split; [done|].
  split; [done|]. split; [|do 3 (split; [done|]); cbn; by rewrite <- app_assoc].
  eexists. split; [cbn; by rewrite get_add_same|]. cbn. by eapply clear_holds.
Qed.

(** An empty buffer closes its connection. *)
Lemma closed_for s w c c' fd o rest p :
  Forall (fun b => c2z b <= 0) p -> lp_pipe s = p -> find_handler (lp_queueback s) WRITE_EVENT_FLAG = Some This ->
  idle s fd -> lqm_queue (lp_bufqueue s) WRITE_EVENT_FLAG = o :: rest -> stands_for (fd, []) o ->
  lp_callback s = Some c -> fd_close c fd = Ok c' ->
  exists s', loop_run (Wake :: repeat QueueReadable (Datatypes.S (length p))) (s, Datatypes.S w) = Ok (s', w) /\
    lp_callback s' = Some c' /\ lp_effects s' = lp_effects s ++ [ClosedSocket fd].
Proof.
  intros Hp Ep Hf (st & Es & Hst) Eq (fb & -> & Hfd & Hfb) Ec E. cbn [fst snd] in *. rewrite (woken s w p Hp Ep Hf).
  pose proof (lqm_pop_queue (lp_bufqueue s) WRITE_EVENT_FLAG) as (Epop & _ & _). rewrite Eq in Epop. cbn [hd] in *.
  unfold queue_receive. change (negb (WRITE_EVENT_FLAG =? WRITE_EVENT_FLAG)) with false. cbv iota.
  change (lp_bufqueue (set_pipe s _ _)) with (lp_bufqueue s). rewrite Epop, (proj1 Hfb), Hfd.
  change (zlen [] =? 0) with true. cbv iota. change (lp_fds (set_bufqueue _ _)) with (lp_fds s). rewrite Es.
  unfold free_fd_state. change (lp_callback (set_bufqueue _ _)) with (lp_callback s). rewrite Ec, E.
  cbn [mbind result_bind]. by eexists.
Qed.

End loop.

(** ** A login over the wire *)

Section wire.
  Context `{JsonSize} `{!JsonLaw} `{OpenSSLLaws} (hst : host).
  Hypothesis stack_size : zlen (stack_array hst) = AES_BLOCK_SIZE.

#[local] Instance wire_server : ILibEvent MmsServer := server_event hst.
#[local] Instance wire_queue : ILibQueueEvent MmsServer := server_queue_event hst.

Lemma system_run_net evs ops y :
  system_run hst (map Net evs ++ ops) y =
    ('(s, w) ← loop_run evs (y_loop y, y_waking y); system_run hst ops (System s w)).
Proof.
  revert y. induction evs as [|ev evs IH]; intros [s w]; [done|]. cbn [map app system_run system_do loop_run y_loop y_waking].
  destruct (loop_step ev (s, w)) as [[s1 w1]|]; cbn [mbind result_bind]; [apply IH|done].
Qed.

Lemma quiet_pipe p :
  Forall (fun b => 1 < c2z b -> no_flags (c2z b)) p -> wakes p = O -> Forall (fun b => c2z b <= 0) p.
Proof.
  induction 1 as [|b p Hb Hp IH]; [done|]. unfold wakes. cbn [count_occ].
  destruct (Byte.byte_eq_dec b x01) as [|Hn]; [done|]. intros Hw. apply List.Forall_cons; [|by apply IH].
  destruct (Z.leb_spec (c2z b) 0) as [|Hpos]; [done|]. destruct (Z.eq_dec (c2z b) 1) as [E|E]; [by apply find_flag_one in E|].
  exfalso. apply Hb. lia.
Qed.

(** An idle worker is given the job of a connection. *)
Lemma job_given sv fd fb bs port :
  running sv -> 0 <= fd -> holds fb bs -> let t := Z.to_nat (worker_of sv fd) in
  td_exitflag <$> sv_threads sv !! t = Some false -> jobs_of sv t = [] ->
  exists sv1 d, mms_data_receive sv fd (Some fb) port = Ok (false, sv1) /\ running sv1 /\ worker sv1 t /\
    sv_threads sv1 !! t = Some d /\ td_exitflag d = false /\ jobs_of sv1 t = [Boss (Some fb) fd port] /\
    sv_states sv1 = sv_states sv /\ sv_next sv1 = sv_next sv /\ sv_posts sv1 = sv_posts sv /\
    sv_rands sv1 = sv_rands sv /\ sv_queries sv1 = sv_queries sv.
Proof.
  intros [Hok Ht] Hfd Hb t Hflag Hj. pose proof (worker_of_id sv fd Hok Hfd) as Hw.
  assert (Eid : worker_of sv fd = Z.of_nat t) by (unfold t; destruct Hw; lia).
  pose proof (receive_spec sv fd fb port Hok Hfd) as E. cbv zeta in E. rewrite Eid in *.
  destruct (Ht t Hw) as (Etouch & d & Ed & _). rewrite Etouch in E. rewrite Ed in Hflag. injection Hflag as Hflag.
  destruct (receive_runs hst sv fd fb bs port Hok Hfd Hb) as (sv1 & E1 & Hok1).
  destruct (receive_threads hst sv fd fb port false sv1 Hok Ht Hfd E1) as [Ht1 _].
  rewrite E in E1. injection E1 as <-. eexists _, (Thread (td_sem d + 1) (td_exitflag d)). split; [exact E|].
  split; [done|]. split; [by apply bm_set_id|]. split.
  { cbn. by rewrite lookup_alter_eq, Ed. }
  split; [done|]. split; [|done]. unfold jobs_of in *. cbn [sem_post set_boss sv_boss queued].
  rewrite bm_set_jobs by (done || lia). rewrite bool_decide_eq_true_2 by done. cbn [fst]. by rewrite Hj.
Qed.

(** What the sockets see of it: [k] bytes that are no flag are in the pipe.  After
    a refusal the loop is woken up once more, to close the connection. *)
Definition login_script (fd port : Z) (chunks : list (list byte)) (fuel t k : nat) (mysql : bool) : list system_op :=
  map Net [Accepted port fd; Readable fd (map Data chunks ++ [RecvAgain])] ++
  Work fuel t mysql ::
  map Net (Wake :: repeat QueueReadable (S k) ++ [Writable fd SentAll]) ++
  map Net (if mysql then [] else Wake :: repeat QueueReadable 4).

Lemma turn_handles fuel sv t d fd fb port mysql :
  running sv -> worker sv t -> sv_threads sv !! t = Some d -> td_exitflag d = false ->
  jobs_of sv t = [Boss (Some fb) fd port] -> 0 < fd -> port <> g_mangport hst ->
  work_turn hst fuel sv t mysql = (sv' ← JsonProcess hst fuel (job_taken sv t d []) fd fb mysql; Ok (true, sv')).
Proof.
  intros [Hok Ht] Hw Ed Hf Hj Hfd Hport. rewrite (work_turn_spec hst fuel sv t mysql d Hok Ht Hw Ed), Hf, Hj.
  unfold handle_job, process_data. cbn [bi_fd bi_buf bi_port]. rewrite (proj2 (Z.eqb_neq fd 0)) by lia.
  by rewrite (proj2 (Z.eqb_neq port _)).
Qed.

(** The answers of a step are in the queue of the loop, each with a thread that
    is about to wake the loop up. *)
Lemma answers_queued (s : YYLibEvent MmsServer) w sv sv' new :
  sv_posts sv' = sv_posts sv ++ new -> Forall (fun p => zlen (snd p) < 2 ^ 30) new ->
  exists s' q, served_by hst (System s w) sv sv' = Ok (System s' (length new + w)) /\
    lqm_queue (lp_bufqueue s') WRITE_EVENT_FLAG = lqm_queue (lp_bufqueue s) WRITE_EVENT_FLAG ++ q /\
    Forall2 stands_for new q /\
    lp_callback s' = Some sv' /\ lp_fds s' = lp_fds s /\ lp_effects s' = lp_effects s /\
    lp_pipe s' = lp_pipe s /\ lp_queueback s' = lp_queueback s.
Proof.
  intros Ep Hl. unfold served_by, pushes. rewrite Ep, drop_app_length. cbn [y_loop y_waking].
  change (lp_bufqueue s) with (lp_bufqueue (set_callback s (Some sv'))).
  change (lp_fds s) with (lp_fds (set_callback s (Some sv'))). change (lp_effects s) with (lp_effects (set_callback s (Some sv'))).
  change (lp_pipe s) with (lp_pipe (set_callback s (Some sv'))). change (lp_queueback s) with (lp_queueback (set_callback s (Some sv'))).
  assert (Hc : lp_callback (set_callback s (Some sv')) = Some sv') by done. revert Hc. generalize (set_callback s (Some sv')).
  clear Ep. revert w. induction Hl as [|[fd bs] l Hb Hl IH]; intros w s1 Hc.
  { exists s1, []. by rewrite app_nil_r. }
  cbn [fmap list_fmap fst snd loop_run loop_step length] in *.
  destruct (put_spec new_fastbuffer [] bs new_holds) as (fb & -> & Hfb & _); [rewrite zlen_nil; lia|].
  cbn [mbind result_bind]. destruct (IH (S w) (push_buffer s1 fd fb WRITE_EVENT_FLAG) Hc) as (s' & q & E & Eq & Hq & Hrest).
  set (o := Some (Fb fd (fb_size fb) (fb_bufsize fb) (fb_buf fb))). exists s', (o :: q). rewrite Nat.add_succ_comm.
  split; [exact E|]. split.
  - rewrite Eq. cbn [push_buffer set_bufqueue lp_bufqueue]. rewrite lqm_push_queue, bool_decide_eq_true_2 by done.
    by rewrite <- app_assoc.
  - split; [|done]. constructor; [|done]. eexists. split; [done|]. split; [done|by split; destruct Hfb].
Qed.

(** The end of the run: what [login_script] does once the answers are queued. *)
Lemma answers_delivered (s : YYLibEvent MmsServer) sv1 sv' fd out (mysql : bool) :
  server_ok sv' -> 0 < fd -> idle s fd ->
  lqm_queue (lp_bufqueue s) WRITE_EVENT_FLAG = [] -> Forall (fun b => c2z b <= 0) (lp_pipe s) ->
  find_handler (lp_queueback s) WRITE_EVENT_FLAG = Some This -> 0 < zlen out < 2 ^ 16 ->
  sv_posts sv' = sv_posts sv1 ++ (if mysql then [(fd, out)] else [(fd, out); (fd, [])]) ->
  exists y', (y ← served_by hst (System s O) sv1 sv';
      system_run hst (map Net (Wake :: repeat QueueReadable (S (length (lp_pipe s))) ++ [Writable fd SentAll]) ++
        map Net (if mysql then [] else Wake :: repeat QueueReadable 4)) y) = Ok y' /\
    lp_effects (y_loop y') = lp_effects s ++ [Queued fd out; Sent fd out] ++ (if mysql then [] else [ClosedSocket fd]) /\
    if mysql then lp_callback (y_loop y') = Some sv'
    else exists sv'', mms_fd_close hst sv' fd = Ok sv'' /\ lp_callback (y_loop y') = Some sv''.
Proof.
  intros Hok Hfd Hidle Hq Hp Hh Hout Ep.
  destruct (answers_queued s O sv1 sv' _ Ep) as (s2 & q & -> & Eq & Fq & Ec & Efds & Eeff & Epipe & Eback).
  { destruct mysql; repeat constructor; cbn [snd]; rewrite ?zlen_nil; lia. }
  rewrite Hq in Eq. cbn [app] in Eq. cbn [mbind result_bind]. rewrite system_run_net. cbn [y_loop y_waking].
  assert (Hidle2 : idle s2 fd) by (unfold idle; by rewrite Efds).
  rewrite <- Epipe in Hp |- *. rewrite <- Eback in Hh. rewrite Nat.add_0_r.
  destruct mysql; cbn [length].
  - apply Forall2_cons_inv_l in Fq as (o & k & Ho & Fk & ->). apply Forall2_nil_inv_l in Fk as ->.
    destruct (delivered s2 0 fd out o [] (lp_pipe s2) Hp eq_refl Hh Hidle2) as (s3 & E3 & Ec3 & _ & _ & _ & _ & Ee3);
      [exact Eq|done|lia|].
    rewrite E3. cbn [mbind result_bind map system_run]. eexists. split; [done|]. cbn [y_loop].
    split; [by rewrite Ee3, Eeff, app_nil_r|by rewrite Ec3].
  - apply Forall2_cons_inv_l in Fq as (o & k & Ho & Fk & ->). apply Forall2_cons_inv_l in Fk as (o2 & k' & Ho2 & Fk & ->).
    apply Forall2_nil_inv_l in Fk as ->.
    destruct (delivered s2 1 fd out o [o2] (lp_pipe s2) Hp eq_refl Hh Hidle2)
      as (s3 & E3 & Ec3 & Hidle3 & Eb3 & Ep3 & Eq3 & Ee3); [exact Eq|done|lia|].
    rewrite E3. cbn [mbind result_bind]. rewrite <- (app_nil_r (map Net _)), system_run_net. cbn [y_loop y_waking].
    destruct (close_runs hst sv' fd Hok) as (sv'' & Ecl & _); [lia|].
    destruct (closed_for s3 0 sv' sv'' fd o2 [] [x00; x00; x00]) as (s4 & E4 & Ec4 & Ee4); try done.
    + repeat constructor; by vm_compute.
    + by rewrite Eb3.
    + by rewrite Ec3.
    + change (Datatypes.S (length [x00; x00; x00])) with 4%nat in E4. rewrite E4. cbn [mbind result_bind system_run].
      eexists. split; [done|]. cbn [y_loop]. split; [by rewrite Ee4, Ee3, Eeff, <- app_assoc|by exists sv''].
Qed.

End wire.


(** *** A login that arrives in two pieces *)

Definition demo_boot : system := System (started demo_started 3 REDIS_EVENT_FLAG) 0.

Lemma demo_boot_reach : system_reach demo_host demo_boot.
Proof. eapply (sys_init demo_host 2); [done|exact demo_start]. Qed.

Definition demo_pieces : list (list byte) :=
  let bs := frames [Msg_Login (demo_user 100)] in [take 10 bs; drop 10 bs].


(** Without the data base, when the loop takes both buffers before it writes: the
    connection is closed with the refusal unsent. *)
Example refusal_lost :
  let ops := map Net [Accepted 8000 5; Readable 5 (map Data demo_pieces ++ [RecvAgain])] ++
    Work 1000 1 false :: map Net ([Wake; Wake] ++ repeat QueueReadable 8 ++ [Writable 5 SentAll]) in
  match system_run demo_host ops demo_boot with
  | Ok y => match lp_effects (y_loop y) with
            | [Opened 5; Queued 5 refusal; ClosedSocket 5] => refusal = frames [Msg_Login_res (LoginRes false [])]
            | _ => False
            end
  | Err _ => False
  end.
Proof. by vm_compute. Qed.
