(* ===== verification/Cfg.v ===== *)
(** * The configuration and the start (src/yymm_svr/cfg.h, cfg.cpp, main.cpp)

    [ParseCfg] reads config/cfg.xml of the program's directory into the global
    configuration; [main] starts the server with it.  A child or a text that is
    missing is a null pointer. *)

From S2P Require Import Prelude Redis Json Ssl.
From S2P Require Import XmlText Xml Server.

Record CFG := Cfg {
  server_name : list byte;
  cfg_port : Z;
  mangport : Z;
  workthreads : Z;
  cfg_redis_IP : list byte;
  cfg_redis_Port : Z;
  mysql_IP : list byte;
  mysql_Port : Z;
  mysql_user : list byte;
  mysql_pwd : list byte;
  mysql_DB : list byte;
}.

(** [g_CFG] before it is read. *)
Definition new_CFG : CFG := Cfg [] 0 0 0 [] 0 [] 0 [] [] [].

(** Next to the program. *)
Definition GetCfg (hst : host) : list byte := module_dir (module_name hst) ++ bytes "/config/cfg.xml".

(** [->FirstChildElement (name)], and use of what it gives. *)
Definition child_element (node : XMLNode) (name : list byte) : result XMLNode :=
  e ← FirstChildElement (children node) name; of_option Undefined e.

(** [std::string = ...->GetText ()] *)
Definition child_text (node : XMLNode) (name : list byte) : result (list byte) :=
  e ← child_element node name; t ← GetText e; of_option Undefined t.

(** [...->Query...Text (&old)]: without a number the field stays as it is. *)
Definition child_number (query : XMLNode -> result (XMLError * option Z)) (node : XMLNode) (name : list byte) (old : Z) :
    result Z :=
  e ← child_element node name; '(_, v) ← query e; Ok (default old v).

Definition read_mms_service (node : XMLNode) (g : CFG) : result CFG :=
  name ← child_text node (bytes "name");
  port ← child_number QueryUnsignedText node (bytes "port") (cfg_port g);
  mang ← child_number QueryUnsignedText node (bytes "mangport") (mangport g);
  threads ← child_number QueryIntText node (bytes "workthreads") (workthreads g);
  Ok (Cfg name port mang threads (cfg_redis_IP g) (cfg_redis_Port g) (mysql_IP g) (mysql_Port g) (mysql_user g)
        (mysql_pwd g) (mysql_DB g)).

Definition read_redis (node : XMLNode) (g : CFG) : result CFG :=
  ip ← child_text node (bytes "redis_Ip");
  port ← child_number QueryUnsignedText node (bytes "redis_Port") (cfg_redis_Port g);
  Ok (Cfg (server_name g) (cfg_port g) (mangport g) (workthreads g) ip port (mysql_IP g) (mysql_Port g) (mysql_user g)
        (mysql_pwd g) (mysql_DB g)).

Definition read_mysql (node : XMLNode) (g : CFG) : result CFG :=
  ip ← child_text node (bytes "ip");
  port ← child_number QueryUnsignedText node (bytes "port") (mysql_Port g);
  user ← child_text node (bytes "user");
  pwd ← child_text node (bytes "pwd");
  db ← child_text node (bytes "db");
  Ok (Cfg (server_name g) (cfg_port g) (mangport g) (workthreads g) (cfg_redis_IP g) (cfg_redis_Port g) ip port user
        pwd db).

(** A section of the file that need not be there. *)
Definition optional (nodes : list XMLNode) (name : list byte) (read : XMLNode -> CFG -> result CFG) (g : CFG) : result CFG :=
  e ← FirstChildElement nodes name;
  match e with Some node => read node g | None => Ok g end.

(** [ParseCfg]: what the file at the path holds, if it is there and is read. *)
Definition ParseCfg (g : CFG) (file : option (list byte)) (read : bool) : result (bool * CFG) :=
  '(err, doc) ← LoadFile (new_XMLDocument default_options) file read;
  if negb (bool_decide (err = XML_SUCCESS)) then Ok (false, g) else
  conf ← FirstChildElement (d_children doc) (bytes "conf");
  match conf with
  | None => Ok (false, g)
  | Some conf =>
      servers ← FirstChildElement (children conf) (bytes "servers");
      match servers with
      | None => Ok (false, g)
      | Some servers =>
          g ← optional (children servers) (bytes "mms_service") read_mms_service g;
          g ← optional (children servers) (bytes "redis") read_redis g;
          g ← optional (children servers) (bytes "mysql") read_mysql g;
          Ok (true, g)
      end
  end.

(** ** [main] *)

(** Where the server takes its settings from. *)
Definition configured (hst : host) (g : CFG) : host :=
  Host (cfg_port g) (mangport g) (RAND_bytes hst) (GetTickCount hst) (stack_array hst) (module_name hst) (white_list hst)
    (cfg_redis_IP g) (cfg_redis_Port g) (redis_env hst) (redis_clock hst) (h_strerror hst) (h_inet_addr hst)
    (h_format_double hst).

(** Up to [run]: nothing if there is no configuration; else what [init] says, and
    the server. *)
Definition main_start `{JsonC} `{OpenSSL} (hst : host) (files : list byte -> option (list byte)) (read : bool)
    (event_ok bind_ok exec_ok : bool) : result (option (CFG * bool * MmsServer)) :=
  '(ok, g) ← ParseCfg new_CFG (files (GetCfg hst)) read;
  if negb ok then Ok None else
  '(ok, sv) ← mms_init (configured hst g) (new_MmsServer hst) (workthreads g) event_ok bind_ok exec_ok;
  Ok (Some (g, ok, sv)).
