(* ===== verification/CfgRun.v ===== *)
(** * What a configuration file says

    The configuration as a function of the tree of its file: whatever the layout
    of the file, [ParseCfg] reads what the tree says; and the server is started
    with it. *)

From S2P Require Import Prelude Digits Redis Json JsonParser Ssl SslSpec SslReference.
From S2P Require Import XmlText XmlTextSpec Xml XmlPrinter XmlTree.
From S2P Require Import XmlLoad XmlSave XmlRun Server ServerReach ServerRun Cfg.

(** ** The reference *)

Fixpoint first_elem (xs : list xml) (name : list byte) : option (list xml) :=
  match xs with
  | [] => None
  | Elem n _ body :: xs => if bool_decide (n = name) then Some body else first_elem xs name
  | _ :: xs => first_elem xs name
  end.

(** The text an element starts with. *)
Definition lead_text (body : list xml) : option (list byte) :=
  match body with Plain s :: _ | Cdata s :: _ => Some s | _ => None end.

Definition tree_text (body : list xml) (name : list byte) : result (list byte) :=
  b ← of_option Undefined (first_elem body name); of_option Undefined (lead_text b).

Definition tree_number (convert : list byte -> result (option Z)) (body : list xml) (name : list byte) (old : Z) : result Z :=
  b ← of_option Undefined (first_elem body name);
  match lead_text b with
  | Some t => v ← convert t; Ok (default old v)
  | None => Ok old
  end.

Definition cfg_mms (b : list xml) (g : CFG) : result CFG :=
  name ← tree_text b (bytes "name");
  port ← tree_number ToUnsigned b (bytes "port") (cfg_port g);
  mang ← tree_number ToUnsigned b (bytes "mangport") (mangport g);
  threads ← tree_number ToInt b (bytes "workthreads") (workthreads g);
  Ok (Cfg name port mang threads (cfg_redis_IP g) (cfg_redis_Port g) (mysql_IP g) (mysql_Port g) (mysql_user g)
        (mysql_pwd g) (mysql_DB g)).

Definition cfg_redis (b : list xml) (g : CFG) : result CFG :=
  ip ← tree_text b (bytes "redis_Ip");
  port ← tree_number ToUnsigned b (bytes "redis_Port") (cfg_redis_Port g);
  Ok (Cfg (server_name g) (cfg_port g) (mangport g) (workthreads g) ip port (mysql_IP g) (mysql_Port g) (mysql_user g)
        (mysql_pwd g) (mysql_DB g)).

Definition cfg_mysql (b : list xml) (g : CFG) : result CFG :=
  ip ← tree_text b (bytes "ip");
  port ← tree_number ToUnsigned b (bytes "port") (mysql_Port g);
  user ← tree_text b (bytes "user");
  pwd ← tree_text b (bytes "pwd");
  db ← tree_text b (bytes "db");
  Ok (Cfg (server_name g) (cfg_port g) (mangport g) (workthreads g) (cfg_redis_IP g) (cfg_redis_Port g) ip port user
        pwd db).

Definition tree_section (body : list xml) (name : list byte) (read : list xml -> CFG -> result CFG) (g : CFG) : result CFG :=
  match first_elem body name with Some b => read b g | None => Ok g end.

(** No configuration without its two outer elements; a section that is there has
    to be complete. *)
Definition cfg_of (xs : list xml) (g : CFG) : result (bool * CFG) :=
  match (first_elem xs (bytes "conf") ≫= fun conf => first_elem conf (bytes "servers")) with
  | None => Ok (false, g)
  | Some servers =>
      g ← tree_section servers (bytes "mms_service") cfg_mms g;
      g ← tree_section servers (bytes "redis") cfg_redis g;
      g ← tree_section servers (bytes "mysql") cfg_mysql g;
      Ok (true, g)
  end.

(** ** Reading follows the tree *)

Definition denotes_body (node : XMLNode) (body : list xml) : Prop := denote_all (children node) = Ok body.

Lemma first_child_spec nodes xs name :
  denote_all nodes = Ok xs ->
  match first_elem xs name with
  | Some body => exists node, FirstChildElement nodes name = Ok (Some node) /\ denotes_body node body
  | None => FirstChildElement nodes name = Ok None
  end.
Proof.
  intros Hd. apply collect_Forall2 in Hd. induction Hd as [|node x nodes xs Hx _ IH]; [done|].
  apply denote_inv in Hx. destruct x as [n ats body|s|s|s|s|s]; cbn [first_elem].
  - destruct Hx as (v & c & atts & ch & -> & Ev & _ & Ech). cbn [FirstChildElement ToElement]. unfold Value. cbn [node_value].
    rewrite Ev. cbn [mbind result_bind]. case_bool_decide; [by eexists|done].
  - by destruct Hx as (v & -> & _).
  - by destruct Hx as (v & -> & _).
  - by destruct Hx as (v & -> & _).
  - by destruct Hx as (v & -> & _).
  - by destruct Hx as (v & -> & _).
Qed.

Lemma get_text_spec node body : denotes_body node body -> GetText node = Ok (lead_text body).
Proof.
  unfold denotes_body, GetText. intros Hd. apply collect_Forall2 in Hd. inversion Hd as [|x y nodes xs Hx]; subst; [done|].
  apply denote_inv in Hx. destruct y; cbn [lead_text].
  - by destruct Hx as (? & ? & ? & ? & -> & _).
  - destruct Hx as (v & -> & Ev). unfold Value. cbn [node_value]. by rewrite Ev.
  - destruct Hx as (v & -> & Ev). unfold Value. cbn [node_value]. by rewrite Ev.
  - by destruct Hx as (v & -> & _).
  - by destruct Hx as (v & -> & _).
  - by destruct Hx as (v & -> & _).
Qed.

Lemma child_element_spec node body name :
  denotes_body node body ->
  match first_elem body name with
  | Some b => exists e, child_element node name = Ok e /\ denotes_body e b
  | None => child_element node name = Err Undefined
  end.
Proof.
  intros Hd. pose proof (first_child_spec _ _ name Hd) as H. unfold child_element.
  destruct (first_elem body name); [destruct H as (e & -> & He); by exists e|by rewrite H].
Qed.

Lemma child_text_spec node body name : denotes_body node body -> child_text node name = tree_text body name.
Proof.
  intros Hd. pose proof (child_element_spec node body name Hd) as H. unfold child_text, tree_text.
  destruct (first_elem body name) as [b|]; [|by rewrite H]. destruct H as (e & -> & He). cbn [mbind result_bind of_option].
  by rewrite (get_text_spec e b He).
Qed.

Lemma child_number_spec convert node body name old :
  denotes_body node body -> child_number (query_text convert) node name old = tree_number convert body name old.
Proof.
  intros Hd. pose proof (child_element_spec node body name Hd) as H. unfold child_number, tree_number.
  destruct (first_elem body name) as [b|]; [|by rewrite H]. destruct H as (e & -> & He). cbn [mbind result_bind of_option].
  unfold query_text. rewrite (get_text_spec e b He). cbn [mbind result_bind]. destruct (lead_text b) as [t|]; [|done].
  cbn [mbind result_bind]. by destruct (convert t) as [[v|]|].
Qed.

Lemma optional_spec node body name read tread g :
  denotes_body node body -> (forall e b g, denotes_body e b -> read e g = tread b g) ->
  optional (children node) name read g = tree_section body name tread g.
Proof.
  intros Hd Hr. unfold optional, tree_section. pose proof (first_child_spec _ _ name Hd) as H.
  destruct (first_elem body name) as [b|]; [|by rewrite H]. destruct H as (e & -> & He). cbn [mbind result_bind]. by apply Hr.
Qed.

Lemma read_mms_spec e b g : denotes_body e b -> read_mms_service e g = cfg_mms b g.
Proof.
  intros He. unfold read_mms_service, cfg_mms, QueryUnsignedText, QueryIntText.
  rewrite (child_text_spec e b _ He), (child_number_spec _ e b (bytes "port") _ He),
    (child_number_spec _ e b (bytes "mangport") _ He), (child_number_spec _ e b (bytes "workthreads") _ He). done.
Qed.

Lemma read_redis_spec e b g : denotes_body e b -> read_redis e g = cfg_redis b g.
Proof.
  intros He. unfold read_redis, cfg_redis, QueryUnsignedText.
  by rewrite (child_text_spec e b _ He), (child_number_spec _ e b _ _ He).
Qed.

Lemma read_mysql_spec e b g : denotes_body e b -> read_mysql e g = cfg_mysql b g.
Proof.
  intros He. unfold read_mysql, cfg_mysql, QueryUnsignedText.
  rewrite (child_text_spec e b (bytes "ip") He), (child_number_spec _ e b _ _ He),
    (child_text_spec e b (bytes "user") He), (child_text_spec e b (bytes "pwd") He), (child_text_spec e b (bytes "db") He). done.
Qed.

(** What is loaded, read on the tree. *)
Lemma read_loaded nodes xs g :
  denote_all nodes = Ok xs ->
  (conf ← FirstChildElement nodes (bytes "conf");
   match conf with
   | None => Ok (false, g)
   | Some conf =>
       servers ← FirstChildElement (children conf) (bytes "servers");
       match servers with
       | None => Ok (false, g)
       | Some servers =>
           g ← optional (children servers) (bytes "mms_service") read_mms_service g;
           g ← optional (children servers) (bytes "redis") read_redis g;
           g ← optional (children servers) (bytes "mysql") read_mysql g;
           Ok (true, g)
       end
   end) = cfg_of xs g.
Proof.
  intros Hd. unfold cfg_of. pose proof (first_child_spec _ _ (bytes "conf") Hd) as H.
  destruct (first_elem xs (bytes "conf")) as [conf|]; [|by rewrite H]. destruct H as (ce & -> & Hc). cbn [mbind result_bind option_bind].
  pose proof (first_child_spec _ _ (bytes "servers") Hc) as H.
  destruct (first_elem conf (bytes "servers")) as [srv|]; [|by rewrite H]. destruct H as (se & -> & Hs). cbn [mbind result_bind].
  rewrite (optional_spec se srv _ _ cfg_mms g Hs read_mms_spec). destruct (tree_section _ _ cfg_mms g) as [g1|]; [|done]. cbn [mbind result_bind].
  rewrite (optional_spec se srv _ _ cfg_redis g1 Hs read_redis_spec). destruct (tree_section _ _ cfg_redis g1) as [g2|]; [|done].
  cbn [mbind result_bind]. by rewrite (optional_spec se srv _ _ cfg_mysql g2 Hs read_mysql_spec).
Qed.

Lemma parse_cfg_layout (bom : bool) xs t g :
  layout xs t -> document_ok xs = true ->
  ParseCfg g (Some ((if bom then BOM else []) ++ t)) true = cfg_of xs g.
Proof.
  intros Hl Hok. destruct (load_layout default_options eq_refl eq_refl bom xs t Hl Hok) as (nodes & E & Ed).
  unfold ParseCfg. rewrite E. cbn [mbind result_bind d_children]. change (negb _) with false. cbn iota. by apply read_loaded.
Qed.

(** ** A configuration as a tree *)

Definition text_elem (name : string) (text : list byte) : xml := Elem (bytes name) [] [Plain text].

Definition cfg_tree (g : CFG) : list xml :=
  [Elem (bytes "conf") [] [Elem (bytes "servers") [] [
    Elem (bytes "mms_service") [] [
      text_elem "name" (server_name g); text_elem "port" (print_u (cfg_port g));
      text_elem "mangport" (print_u (mangport g)); text_elem "workthreads" (print_d (workthreads g))];
    Elem (bytes "redis") [] [
      text_elem "redis_Ip" (cfg_redis_IP g); text_elem "redis_Port" (print_u (cfg_redis_Port g))];
    Elem (bytes "mysql") [] [
      text_elem "ip" (mysql_IP g); text_elem "port" (print_u (mysql_Port g)); text_elem "user" (mysql_user g);
      text_elem "pwd" (mysql_pwd g); text_elem "db" (mysql_DB g)]]]].

(** Texts that can be written, and numbers of their types. *)
Record cfg_ok (g : CFG) : Prop := {
  ok_texts : forallb (fun s => tree_ok (Plain s))
    [server_name g; cfg_redis_IP g; mysql_IP g; mysql_user g; mysql_pwd g; mysql_DB g] = true;
  ok_ports : is_unsigned (cfg_port g) /\ is_unsigned (mangport g) /\ is_unsigned (cfg_redis_Port g) /\ is_unsigned (mysql_Port g);
  ok_threads : - 2 ^ 31 <= workthreads g < 2 ^ 31;
}.

(** The tree of a configuration says this configuration. *)
Lemma cfg_of_tree g g0 : cfg_ok g -> cfg_of (cfg_tree g) g0 = Ok (true, g).
Proof.
  intros [_ (H1 & H2 & H3 & H4) H5].
  pose proof (to_unsigned_print _ H1) as E1. pose proof (to_unsigned_print _ H2) as E2.
  pose proof (to_unsigned_print _ H3) as E3. pose proof (to_unsigned_print _ H4) as E4. pose proof (to_int_print _ H5) as E5.
  destruct g as [name port mang threads rip rport mip mport user pwd db]. cbn [cfg_port mangport workthreads cfg_redis_Port mysql_Port] in *.
  unfold cfg_tree. cbn [server_name cfg_port mangport workthreads cfg_redis_IP cfg_redis_Port mysql_IP mysql_Port mysql_user mysql_pwd mysql_DB].
  revert E1 E2 E3 E4 E5. generalize (print_u port) (print_u mang) (print_u rport) (print_u mport) (print_d threads).
  intros t1 t2 t3 t4 t5 E1 E2 E3 E4 E5.
  cbv -[ToUnsigned ToInt default]. rewrite E1. cbv -[ToUnsigned ToInt]. rewrite E2. cbv -[ToUnsigned ToInt].
  rewrite E5. cbv -[ToUnsigned ToInt]. rewrite E3. cbv -[ToUnsigned ToInt]. by rewrite E4.
Qed.

Lemma digits_text ds : ds <> [] -> forallb (fun c => isdigit c || bool_decide (c = x2d)) ds = true -> tree_ok (Plain ds) = true.
Proof.
  intros Hne Hd. cbn [tree_ok]. rewrite forallb_forall in Hd.
  assert (Hc : forall c, c ∈ ds -> IsWhiteSpace c = false /\ c <> x00 /\ c <> CR).
  { intros c Hc. apply list_elem_of_In, Hd, orb_prop in Hc as [Hc|Hc]; [by apply digit_facts|].
    apply bool_decide_eq_true in Hc as ->. done. }
  rewrite andb_true_iff. split.
  - unfold plain. apply forallb_forall. intros c (_ & H1 & H2)%list_elem_of_In%Hc. by rewrite !bool_decide_eq_false_2.
  - destruct ds as [|c ds]; [done|]. cbn [existsb]. destruct (Hc c ltac:(by left)) as (-> & _). done.
Qed.

Lemma print_u_plain v : 0 <= v -> tree_ok (Plain (print_u v)) = true.
Proof.
  intros Hv. apply digits_text; [by apply print_u_nonempty|]. apply forallb_forall. intros c Hc.
  pose proof (print_u_isdigit v Hv) as Hd. rewrite List.Forall_forall in Hd. by rewrite (Hd c Hc).
Qed.

Lemma print_d_plain v : tree_ok (Plain (print_d v)) = true.
Proof.
  unfold print_d. destruct (Z.ltb_spec v 0); [|by apply print_u_plain]. apply digits_text; [done|].
  cbn [forallb]. rewrite bool_decide_eq_true_2, orb_true_r by done. apply forallb_forall. intros c Hc.
  pose proof (print_u_isdigit (- v) ltac:(lia)) as Hd. rewrite List.Forall_forall in Hd. by rewrite (Hd c Hc).
Qed.

Lemma cfg_tree_ok g : cfg_ok g -> document_ok (cfg_tree g) = true.
Proof.
  intros [Ht ([H1 _] & [H2 _] & [H3 _] & [H4 _]) _].
  pose proof (print_u_plain _ H1) as E1. pose proof (print_u_plain _ H2) as E2. pose proof (print_u_plain _ H3) as E3.
  pose proof (print_u_plain _ H4) as E4. pose proof (print_d_plain (workthreads g)) as E5.
  cbn [forallb] in Ht. rewrite !andb_true_iff in Ht. destruct Ht as (T1 & T2 & T3 & T4 & T5 & T6 & _).
  assert (He : forall name text, name_ok (bytes name) = true -> tree_ok (Plain text) = true -> tree_ok (text_elem name text) = true).
  { intros name text Hn Htx. unfold text_elem. cbn [tree_ok] in *. cbn [apart forallb is_plain tree_ok]. by rewrite Hn, Htx. }
  unfold document_ok, cfg_tree. cbn [forallb is_plain tree_ok apart negb andb].
  rewrite !He by done. reflexivity.
Qed.

(** ** The theorems *)

(** C26: [ParseCfg] reads a configuration file as the reference reads its tree,
    however the file is laid out: whatever blanks there are in front of tags, with
    a BOM or without.  Without the elements conf and servers there is no
    configuration and nothing is changed; a section that is missing is passed
    over; a number that is none leaves the field as it was; and the pointer of an
    element or a text that a section misses is null. *)
Theorem config_read (bom : bool) xs t g :
  layout xs t -> document_ok xs = true ->
  ParseCfg g (Some ((if bom then BOM else []) ++ t)) true = cfg_of xs g.
Proof. apply parse_cfg_layout. Qed.

(** C27: The server is started with what its configuration file says: any layout
    of a configuration is read back as this configuration, [init] gets its port's
    and its redis server's settings and its number of threads, and if it goes
    well, the server is in one of its reachable states. *)
Theorem server_configured `{JsonSize} `{OpenSSLLaws} (hst : host) files g t (bom event_ok bind_ok exec_ok : bool) :
  cfg_ok g -> layout (cfg_tree g) t -> files (GetCfg hst) = Some ((if bom then BOM else []) ++ t) ->
  main_start hst files true event_ok bind_ok exec_ok =
    ('(ok, sv) ← mms_init (configured hst g) (new_MmsServer hst) (workthreads g) event_ok bind_ok exec_ok;
     Ok (Some (g, ok, sv))) /\
  (forall sv, 0 < workthreads g ->
     main_start hst files true true true true = Ok (Some (g, true, sv)) -> reachable (configured hst g) sv) /\
  (g_port (configured hst g), g_mangport (configured hst g)) = (cfg_port g, mangport g) /\
  (redis_IP (configured hst g), redis_Port (configured hst g)) = (cfg_redis_IP g, cfg_redis_Port g).
Proof.
  intros Hg Hl Hf.
  assert (E : forall e b x, main_start hst files true e b x =
    ('(ok, sv) ← mms_init (configured hst g) (new_MmsServer hst) (workthreads g) e b x; Ok (Some (g, ok, sv)))).
  { intros e b x. unfold main_start. rewrite Hf, (parse_cfg_layout bom (cfg_tree g) t new_CFG Hl (cfg_tree_ok g Hg)).
    by rewrite (cfg_of_tree g new_CFG Hg). }
  split; [apply E|]. split; [|done]. intros sv Hw. rewrite E.
  destruct (mms_init _ _ _ _ _ _) as [[ok sv1]|] eqn:Ei; cbn [mbind result_bind]; [|done]. intros [= -> ->].
  by apply (reach_init (configured hst g) (workthreads g)).
Qed.

(** *** A configuration to try *)

Definition demo_cfg : CFG :=
  Cfg (bytes "mms") 8000 8001 2 (bytes "127.0.0.1") 6379 (bytes "127.0.0.1") 3306 (bytes "root") (bytes "p<&>d") (bytes "mms_db").

Definition demo_config : list byte :=
  bytes "<conf><servers>" ++ [LF] ++ bytes "<mms_service><name>mms</name><port>8000</port><mangport>8001</mangport>" ++
  bytes "<workthreads>2</workthreads></mms_service>" ++ [LF] ++
  bytes "<redis><redis_Ip>127.0.0.1</redis_Ip><redis_Port>6379</redis_Port></redis>" ++ [LF] ++
  bytes "<mysql><ip>127.0.0.1</ip><port>3306</port><user>root</user><pwd>p&lt;&amp;&gt;d</pwd><db>mms_db</db></mysql>" ++
  bytes "</servers></conf>".

(** A layout of a tree, with line breaks in front of the sections. *)
Ltac lay :=
  lazymatch goal with
  | |- layout [] _ => apply (layout_nil []); reflexivity
  | |- layout (Plain _ :: _) _ => eapply layout_text; [reflexivity| |lay]; left; reflexivity
  | |- layout (Elem (bytes "mms_service") _ _ :: _) _ => apply (layout_tag [LF]); [reflexivity|lay|lay]
  | |- layout (Elem (bytes "redis") _ _ :: _) _ => apply (layout_tag [LF]); [reflexivity|lay|lay]
  | |- layout (Elem (bytes "mysql") _ _ :: _) _ => apply (layout_tag [LF]); [reflexivity|lay|lay]
  | |- layout (text_elem _ _ :: _) _ => apply (layout_tag []); [reflexivity|lay|lay]
  | |- layout (Elem _ _ _ :: _) _ => apply (layout_tag []); [reflexivity|lay|lay]
  | |- tag _ _ => apply tag_elem; [reflexivity|reflexivity|lay]
  end.

Lemma demo_layout : layout (cfg_tree demo_cfg) demo_config.
Proof.
  assert (H : exists t, layout (cfg_tree demo_cfg) t /\ t = demo_config) by (eexists; split; [unfold cfg_tree; lay|vm_compute; reflexivity]).
  by destruct H as (t & H & ->).
Qed.

Lemma demo_cfg_ok : cfg_ok demo_cfg.
Proof. split; [reflexivity|unfold is_unsigned; cbn; lia|cbn; lia]. Qed.

Lemma config_read_witness :
  layout (cfg_tree demo_cfg) demo_config /\
  ParseCfg new_CFG (Some (BOM ++ demo_config)) true = cfg_of (cfg_tree demo_cfg) new_CFG /\
  cfg_of (cfg_tree demo_cfg) new_CFG = Ok (true, demo_cfg).
Proof.
  split; [exact demo_layout|]. split; [|by vm_compute].
  exact (config_read true (cfg_tree demo_cfg) demo_config new_CFG demo_layout eq_refl).
Defined.

Definition demo_files (path : list byte) : option (list byte) :=
  if bool_decide (path = bytes "/config/cfg.xml") then Some demo_config else None.

Lemma server_configured_witness :
  demo_files (GetCfg demo_host) = Some demo_config /\
  main_start demo_host demo_files true true true true =
    ('(ok, sv) ← mms_init (configured demo_host demo_cfg) (new_MmsServer demo_host) 2 true true true;
     Ok (Some (demo_cfg, ok, sv))).
Proof.
  split; [reflexivity|].
  exact (proj1 (server_configured demo_host demo_files demo_cfg demo_config false true true true
    demo_cfg_ok demo_layout eq_refl)).
Defined.

(** A section without one of its elements: the pointer is null. *)
Example incomplete_section :
  ParseCfg new_CFG (Some (bytes "<conf><servers><redis><redis_Ip>::1</redis_Ip></redis></servers></conf>")) true = Err Undefined.
Proof. vm_compute. reflexivity. Qed.

(** A port that is no number is left as it was. *)
Example port_kept :
  match ParseCfg new_CFG (Some (bytes
    "<conf><servers><redis><redis_Ip>::1</redis_Ip><redis_Port>x</redis_Port></redis></servers></conf>")) true with
  | Ok (ok, g) => Ok (ok, cfg_redis_IP g, cfg_redis_Port g)
  | Err e => Err e
  end = Ok (true, bytes "::1", 0).
Proof. vm_compute. reflexivity. Qed.
