(* ===== verification/RedisRun.v ===== *)
(** * The redis client end to end

    The queue of commands against the flags that announce them, and what becomes
    of a command that is taken from it. *)

From S2P Require Import Prelude Digits Sds Resp Reply ReplyHeap Reader ReaderRun Format FormatSpec Dict Socket Net.
From S2P Require Import Logger.
From S2P Require Import Context ContextSpec ContextRun Callbacks Async AsyncCommand AsyncSpec AsyncRun Queues Redis.

Section run.
  Context (strerror : Z -> list byte) (inet_addr : list byte -> Z).
  Context (format_double : conversion -> Z -> Z -> list byte).
  Context (GetTickCount : nat -> Z).

(** ** Runs *)

(** What other threads and the event loop do with the client. *)
Inductive redis_op :=
| SendCommand (privdata : Z) (text : list byte)
| FlagArrives
| ReadEvent (l : nat)
| WriteEvent (l : nat)
| Connects
| Closes.

(** What happened to the queue: a command put in, a command taken out, a flag
    that found no connection. *)
Inductive redis_note :=
| Pushed (t : QueueItem)
| Taken (t : QueueItem)
| Missed.

Definition redis_step (op : redis_op) (st : YYRedis) : result (list redis_note * YYRedis) :=
  match op with
  | SendCommand privdata text =>
      '(status, st) ← AsyncSendCommand strerror inet_addr GetTickCount st privdata text;
      Ok (if status =? REDIS_OK then [Pushed (Token text (Int privdata))] else [], st)
  | FlagArrives =>
      st' ← flag_arrives strerror inet_addr format_double GetTickCount st;
      Ok (match _c st, _base st with
          | Some _, true => [Taken (fst (lq_pop (yr_queue st)))]
          | _, _ => [Missed]
          end, st')
  | ReadEvent l => st ← redisLibeventReadEvent strerror format_double GetTickCount st l; Ok ([], st)
  | WriteEvent l => st ← redisLibeventWriteEvent strerror format_double GetTickCount st l; Ok ([], st)
  | Connects => '(_, st) ← redis_Connect strerror inet_addr GetTickCount st; Ok ([], st)
  | Closes => st ← redis_Close format_double GetTickCount st; Ok ([], st)
  end.

Fixpoint redis_run (ops : list redis_op) (st : YYRedis) : result (list redis_note * YYRedis) :=
  match ops with
  | [] => Ok ([], st)
  | op :: ops =>
      '(notes, st) ← redis_step op st;
      '(notes', st) ← redis_run ops st;
      Ok (notes ++ notes', st)
  end.

Definition pushed (notes : list redis_note) : list QueueItem :=
  omap (fun n => match n with Pushed t => Some t | _ => None end) notes.
Definition taken_out (notes : list redis_note) : list QueueItem :=
  omap (fun n => match n with Taken t => Some t | _ => None end) notes.
Definition missed (notes : list redis_note) : nat :=
  length (List.filter (fun n => match n with Missed => true | _ => false end) notes).

(** ** What keeps the queue *)

Definition same_queue (st st' : YYRedis) : Prop :=
  yr_queue st' = yr_queue st /\ yr_flags st' = yr_flags st.

#[local] Instance same_queue_po : PreOrder same_queue.
Proof.
  split; [by split|]. intros s1 s2 s3 [E1 F1] [E2 F2]. split; [by rewrite E2|by rewrite F2].
Qed.

Lemma played_queue l evs st : same_queue st (played GetTickCount l evs st).
Proof.
  revert st. induction evs as [|ev evs IH]; intros st; cbn [played foldl]; [done|].
  transitivity (on_event GetTickCount l st ev); [|apply IH].
  destruct ev as [| | | | | | |fn [| |] privdata seen]; done.
Qed.

Lemma with_context_queue st l f st' : with_context GetTickCount st l f = Ok st' -> same_queue st st'.
Proof.
  unfold with_context. destruct (of_option _ _) as [ac|]; cbn [mbind result_bind]; [|done].
  destruct (f ac (yr_env st)) as [[r e]|]; cbn [mbind result_bind]; [|done]. intros [= <-].
  eapply transitivity; [|apply played_queue]. by split.
Qed.

Lemma redis_Connect_queue st b st' :
  redis_Connect strerror inet_addr GetTickCount st = Ok (b, st') -> same_queue st st'.
Proof.
  unfold redis_Connect. destruct (busy_connecting st) as [[]|]; cbn [mbind result_bind];
    [by intros [= _ <-]| |done].
  destruct (_delayDisconnect st =? 0); [|cbn [redis_tick]; destruct (u32 _ <? _); [by intros [= _ <-]|]];
    cbn [redis_tick]; (destruct (redisAsyncConnect _ _ _ _ _) as [[ac w]|]; cbn [mbind result_bind]; [|done]);
    (destruct (negb _); [by intros [= _ <-]|]);
    destruct (redisAsyncSetConnectCallback _ _ _) as [[rc ac1] e1];
    destruct (redisAsyncSetDisconnectCallback _ _) as [rc2 ac2]; by intros [= _ <-].
Qed.

(** ** One step *)

(** The queue and the flags after [notes]. *)
Definition accounts (notes : list redis_note) (st st' : YYRedis) : Prop :=
  lq_queue (yr_queue st) ++ pushed notes = taken_out notes ++ lq_queue (yr_queue st') /\
  (length (lq_queue (yr_queue st')) + yr_flags st =
     length (lq_queue (yr_queue st)) + yr_flags st' + missed notes)%nat.

Lemma fit_loop_text fuel size text s : fit_loop fuel size text = Ok s -> s = text.
Proof.
  revert size. induction fuel as [|fuel IH]; intros size; cbn [fit_loop]; [done|]. unfold vsnprintf.
  destruct (Z.ltb_spec size (zlen text)) as [Hs|Hs].
  - cbn [Z.ltb Z.compare andb]. destruct (chk32 _) as [n|]; cbn [mbind result_bind]; [apply IH|done].
  - destruct (_ && _).
    + intros [= <-]. by rewrite to_nat_zlen, firstn_all.
    + destruct (chk32 _) as [n|]; cbn [mbind result_bind]; [apply IH|done].
Qed.

Lemma accounts_same st st' : same_queue st st' -> accounts [] st st'.
Proof. intros [E F]. unfold accounts. rewrite E, F. cbn. split; [by rewrite app_nil_r|lia]. Qed.

Lemma same_length st st' : same_queue st st' ->
  length (lq_queue (yr_queue st')) = length (lq_queue (yr_queue st)).
Proof. by intros [-> _]. Qed.

Lemma send_accounts st privdata text status st' :
  AsyncSendCommand strerror inet_addr GetTickCount st privdata text = Ok (status, st') ->
  accounts (if status =? REDIS_OK then [Pushed (Token text (Int privdata))] else []) st st'.
Proof.
  unfold AsyncSendCommand. destruct (_c st) as [l|].
  - destruct (fit_loop 32 256 text) as [s|] eqn:E; cbn [mbind result_bind]; [|done]. apply fit_loop_text in E as ->.
    destruct text as [|b text]; intros [= <- <-]; [by apply accounts_same|].
    unfold accounts. cbn. split; [done|]. rewrite length_app. cbn. lia.
  - destruct (_base st).
    + destruct (redis_Connect _ _ _ st) as [[b st1]|] eqn:E; cbn [mbind result_bind]; [|done].
      intros [= <- <-]. apply accounts_same. by eapply redis_Connect_queue.
    + intros [= <- <-]. by apply accounts_same.
Qed.

(** The end of [queue_receive]. *)
Lemma reconnect_queue (st : YYRedis) status st' :
  (if negb (status =? REDIS_OK) && _base st
   then '(_, st) ← redis_Connect strerror inet_addr GetTickCount st; Ok st else Ok st) = Ok st' -> same_queue st st'.
Proof.
  destruct (_ && _); [|by intros [= <-]].
  destruct (redis_Connect _ _ _ st) as [[b st1]|] eqn:E; cbn [mbind result_bind]; [|done].
  intros [= <-]. by eapply redis_Connect_queue.
Qed.

Lemma flag_accounts st st' :
  (yr_flags st <= length (lq_queue (yr_queue st)))%nat ->
  flag_arrives strerror inet_addr format_double GetTickCount st = Ok st' ->
  accounts (match _c st, _base st with
            | Some _, true => [Taken (fst (lq_pop (yr_queue st)))]
            | _, _ => [Missed]
            end) st st'.
Proof.
  intros Hq. unfold flag_arrives. destruct (yr_flags st) as [|n] eqn:En; [done|].
  unfold redis_queue_receive. cbn [Z.eqb negb Pos.eqb REDIS_EVENT_FLAG]. cbn [_c _base set_queue yr_queue].
  assert (Hmiss : forall st1, same_queue (set_queue st (yr_queue st) n) st1 -> accounts [Missed] st st1).
  { intros st1 [E F]. unfold accounts. rewrite E, F, En. cbn. split; [by rewrite app_nil_r|lia]. }
  destruct (_c st) as [l|]; [|intros E; by apply Hmiss, (reconnect_queue _ REDIS_ERR)].
  destruct (_base st) eqn:Eb; [|intros E; by apply Hmiss, (reconnect_queue _ REDIS_ERR)].
  destruct (lq_pop (yr_queue st)) as [token q] eqn:Ep.
  destruct (of_option _ _) as [ac|]; cbn [mbind result_bind]; [|done].
  destruct (redisvAsyncCommand _ _ _ _ _ _ _) as [[[status ac'] e]|]; cbn [mbind result_bind]; [|done].
  intros E. apply reconnect_queue in E as [E F]. unfold accounts. rewrite E, F, En. cbn.
  unfold lq_pop in Ep. destruct (lq_queue (yr_queue st)) as [|t ts]; cbn in Hq; [lia|].
  injection Ep as <- <-. cbn. split; [by rewrite app_nil_r|lia].
Qed.

Lemma step_accounts op st notes st' :
  (yr_flags st <= length (lq_queue (yr_queue st)))%nat -> redis_step op st = Ok (notes, st') -> accounts notes st st'.
Proof.
  intros Hq. destruct op as [privdata text| |l|l| |]; cbn [redis_step].
  - destruct (AsyncSendCommand _ _ _ _ _ _) as [[status st1]|] eqn:E; cbn [mbind result_bind]; [|done].
    intros [= <- <-]. by apply send_accounts.
  - destruct (flag_arrives _ _ _ _ _) as [st1|] eqn:E; cbn [mbind result_bind]; [|done].
    intros [= <- <-]. by apply flag_accounts.
  - destruct (redisLibeventReadEvent _ _ _ _ _) as [st1|] eqn:E; cbn [mbind result_bind]; [|done].
    intros [= <- <-]. eapply accounts_same, with_context_queue, E.
  - destruct (redisLibeventWriteEvent _ _ _ _ _) as [st1|] eqn:E; cbn [mbind result_bind]; [|done].
    intros [= <- <-]. eapply accounts_same, with_context_queue, E.
  - destruct (redis_Connect _ _ _ _) as [[b st1]|] eqn:E; cbn [mbind result_bind]; [|done].
    intros [= <- <-]. eapply accounts_same, redis_Connect_queue, E.
  - destruct (redis_Close _ _ _) as [st1|] eqn:E; cbn [mbind result_bind]; [|done].
    intros [= <- <-]. apply accounts_same. unfold redis_Close in E. cbv zeta in E.
    destruct (_c _) as [l|]; [|by injection E as <-]. apply with_context_queue in E. exact E.
Qed.

Lemma run_accounts ops st notes st' :
  (yr_flags st <= length (lq_queue (yr_queue st)))%nat -> redis_run ops st = Ok (notes, st') -> accounts notes st st'.
Proof.
  revert st notes. induction ops as [|op ops IH]; intros st notes Hq; cbn [redis_run].
  - intros [= <- <-]. by apply accounts_same.
  - destruct (redis_step op st) as [[n1 st1]|] eqn:E1; cbn [mbind result_bind]; [|done].
    apply (step_accounts _ _ _ _ Hq) in E1 as [E1 F1].
    destruct (redis_run ops st1) as [[n2 st2]|] eqn:E2; cbn [mbind result_bind]; [|done].
    intros [= <- <-]. apply IH in E2 as [E2 F2]; [|lia]. unfold accounts, pushed, taken_out, missed in *.
    rewrite !omap_app, List.filter_app, length_app. split; [|lia].
    by rewrite app_assoc, E1, <- !app_assoc, E2.
Qed.

End run.

(** ** The queue *)

(** C20: Whatever other threads, the event loop and the sockets do: the commands
    are taken from the queue in the order they were put in, none twice and none
    that was not put in; and for every command that waits there is a flag on its
    way to the loop, or a flag came while there was no connection and was lost:
    commands left behind by a lost flag stay behind for ever. *)
Theorem redis_queue_order strerror inet_addr format_double GetTickCount ops st notes st' :
  lq_queue (yr_queue st) = [] -> yr_flags st = O ->
  redis_run strerror inet_addr format_double GetTickCount ops st = Ok (notes, st') ->
  pushed notes = taken_out notes ++ lq_queue (yr_queue st') /\
  length (lq_queue (yr_queue st')) = (yr_flags st' + missed notes)%nat.
Proof.
  intros Hq Hf E. apply run_accounts in E as [E1 E2]; [|by rewrite Hf; apply Nat.le_0_l].
  rewrite Hq in E1, E2. rewrite Hf in E2. cbn in E1, E2. split; [done|lia].
Qed.

(** A client whose connection is the one of the examples of [AsyncRun]. *)
Definition demo_redis : YYRedis :=
  Redis (new_LockQueue new_QueueItem 0) (Some O) true false 10000 0 (bytes "127.0.0.1") 6379
    {[ O := demo_async ]} 1 demo_env O O [].

Definition demo_queue_ops : list redis_op :=
  [SendCommand 5 (bytes "GET a"); SendCommand 6 (bytes "GET b"); FlagArrives; Closes; FlagArrives].

Definition demo_run : result (list redis_note * YYRedis) :=
  redis_run (fun _ => []) (fun _ => 0) (fun _ _ _ => []) (fun _ => 0) demo_queue_ops demo_redis.

Lemma redis_queue_order_witness :
  exists notes st', demo_run = Ok (notes, st') /\
    pushed notes = taken_out notes ++ lq_queue (yr_queue st') /\
    length (lq_queue (yr_queue st')) = (yr_flags st' + missed notes)%nat.
Proof.
  destruct demo_run as [[notes st']|] eqn:E.
  - exists notes, st'. split; [done|]. unfold demo_run in E.
    refine (redis_queue_order (fun _ => []) (fun _ => 0) (fun _ _ _ => []) (fun _ => 0) demo_queue_ops demo_redis
      notes st' eq_refl eq_refl _). exact E.
  - exfalso. assert (Hok : match demo_run with Ok _ => true | Err _ => false end = true) by (by vm_compute).
    by rewrite E in Hok.
Defined.

(** The second command of the run waits, and nothing will take it. *)
Example command_left_behind :
  match demo_run with
  | Ok (notes, st) =>
      lq_queue (yr_queue st) = [Token (bytes "GET b") (Int 6)] /\ yr_flags st = O /\ missed notes = 1%nat
  | Err _ => False
  end.
Proof. by vm_compute. Qed.

(** ** A command *)

Lemma fit_loop_ok n size text :
  1 <= size -> zlen text < size * 2 ^ Z.of_nat n -> zlen text < 2 ^ 30 ->
  fit_loop (S (S n)) size text = Ok text.
Proof.
  revert size. induction n as [|n IH]; intros size Hs Hl Hb; pose proof (zlen_nonneg text).
  - cbn [fit_loop]. unfold vsnprintf. rewrite Z.mul_1_r in Hl. rewrite (proj2 (Z.ltb_ge size _)) by lia.
    rewrite (proj2 (Z.ltb_lt (-1) _)), (proj2 (Z.ltb_lt (zlen text) _)) by lia. cbn [andb].
    by rewrite to_nat_zlen, firstn_all.
  - rewrite Nat2Z.inj_succ, Z.pow_succ_r in Hl by lia. pose proof (Z.pow_pos_nonneg 2 (Z.of_nat n) ltac:(lia) ltac:(lia)) as Hp.
    cbn [fit_loop]. unfold vsnprintf. destruct (Z.ltb_spec size (zlen text)) as [Hc|Hc].
    + change (-1 <? -1) with false. cbn [andb]. rewrite chk32_ok by lia. cbn [mbind result_bind].
      apply IH; [lia|nia|done].
    + rewrite (proj2 (Z.ltb_lt (-1) _)) by lia. cbn [andb]. destruct (Z.ltb_spec (zlen text) size).
      * by rewrite to_nat_zlen, firstn_all.
      * rewrite chk32_ok by lia. cbn [mbind result_bind]. apply IH; [lia|nia|done].
Qed.

(** A command sent on a connection arrives at the connection when its flag
    does: its text is a format once more, so a text without directives is split
    into its words; they are queued on the connection, and the callback that
    waits for the reply hands it on with the datum of the sender. *)
Theorem redis_command_issued strerror inet_addr format_double GetTickCount st l ac R k fd t v vs :
  _c st = Some l -> _base st = true -> yr_ctxs st !! l = Some ac -> conn_ok false ac (yr_env st) R k ->
  lq_queue (yr_queue st) = [] -> yr_flags st = O ->
  template_ok t -> template_args t = [] -> template_values t = v :: vs -> zlen (template_text t) < 2 ^ 30 ->
  fits v vs (k_model k) -> command_status k v vs = REDIS_OK ->
  let token := Token (template_text t) (Int fd) in
  exists st' ac',
    redis_run strerror inet_addr format_double GetTickCount [SendCommand fd (template_text t); FlagArrives] st =
      Ok ([Pushed token; Taken token], st') /\
    lq_queue (yr_queue st') = [] /\ yr_flags st' = O /\ _c st' = Some l /\ yr_ctxs st' !! l = Some ac' /\
    conn_ok false ac' (yr_env st') R
      (k_command (ev_addWrite (ac_ev ac)) (RedisCallback (Some getCallback) (Int fd)) v vs k).
Proof.
  intros Hc Hb Hac Hk Hq Hf Ht Ha Hv Hl Hfit Hs token.
  destruct (format_conn format_double false (Some getCallback) (Int fd) t v vs ac (yr_env st) R k Hk Ht Hv Hfit)
    as (ac' & e' & E & Hk' & _). rewrite Ha, Hs in E.
  assert (Hne : template_text t <> []).
  { intros E0. destruct t as [|[w n] t]; [done|]. destruct Ht as (Hw & _). unfold template_text in E0. cbn in E0.
    destruct w as [|p w]; [done|]. destruct p; discriminate E0. }
  unfold redis_run, redis_step, AsyncSendCommand. rewrite Hc, fit_loop_ok by (first [lia|done]).
  cbn [mbind result_bind]. destruct (template_text t) as [|b text] eqn:Et; [done|].
  unfold flag_arrives, redis_queue_receive. cbn [_c _base set_queue yr_queue yr_flags mbind result_bind].
  rewrite Hc, Hb, Hf. unfold lq_pop, lq_push. cbn [lq_queue]. rewrite Hq. cbn [app negb Z.eqb Pos.eqb].
  cbn [REDIS_EVENT_FLAG Z.eqb Pos.eqb negb yr_ctxs set_queue of_option mbind result_bind yr_env q_format q_privdata fst].
  rewrite Hac. cbn [of_option mbind result_bind]. unfold template_format in E. rewrite Et in E.
  unfold redisAsyncCommand in E. unfold cstr. rewrite E. cbn [mbind result_bind Z.eqb REDIS_OK negb andb].
  eexists _, ac'. split; [reflexivity|]. cbn. rewrite Hc, lookup_insert_eq. by split_and!.
Qed.

Definition demo_template : template := [(map Lit (bytes "GET"), 1%nat); (map Lit (bytes "a"), O)].

Lemma redis_command_issued_witness :
  exists st' ac',
    redis_run (fun _ => []) (fun _ => 0) (fun _ _ _ => []) (fun _ => 0)
      [SendCommand 5 (bytes "GET a"); FlagArrives] demo_redis =
      Ok ([Pushed (Token (bytes "GET a") (Int 5)); Taken (Token (bytes "GET a") (Int 5))], st') /\
    lq_queue (yr_queue st') = [] /\ yr_flags st' = O /\ _c st' = Some O /\ yr_ctxs st' !! O = Some ac' /\
    conn_ok false ac' (yr_env st') (Reading [] [] [])
      (k_command true (RedisCallback (Some getCallback) (Int 5)) (bytes "GET") [bytes "a"] demo_start).
Proof.
  refine (redis_command_issued (fun _ => []) (fun _ => 0) (fun _ _ _ => []) (fun _ => 0) demo_redis O demo_async
    (Reading [] [] []) demo_start 5 demo_template (bytes "GET") [bytes "a"]
    eq_refl eq_refl eq_refl demo_async_ok eq_refl eq_refl _ eq_refl eq_refl _ _ eq_refl).
  - apply (bool_decide_unpack _). by vm_compute.
  - by vm_compute.
  - repeat split; by vm_compute.
Defined.

(** A directive in the text reads an argument where there is none. *)
Example directive_faults :
  match redis_run (fun _ => []) (fun _ => 0) (fun _ _ _ => []) (fun _ => 0)
    [SendCommand 5 (bytes "SET a 100%s"); FlagArrives] demo_redis with
  | Ok _ => False
  | Err e => e = Undefined
  end.
Proof. by vm_compute. Qed.

(** ** How soon the client connects again *)

(** The ticks of a clock, read one after the other. *)
Definition ticks_of (clock : nat -> Z * Z) (n : nat) : Z :=
  match GetTickCount (Some (clock n)) with Ok t => t | Err _ => 0 end.

Lemma ticks_of_millis clock n : clock_time (clock n) -> ticks_of clock n = u32 (millis (clock n)).
Proof. intros H. unfold ticks_of. by rewrite GetTickCount_millis. Qed.

Lemma connect_callback_world ac e : e_world (redisAsyncSetConnectCallback (Some connectCallback) ac e).2 = e_world e.
Proof. unfold redisAsyncSetConnectCallback. destruct (ac_onConnect ac); [done|]. cbn. by destruct (ev_addWrite (ac_ev ac)). Qed.

(** C21: The client does not connect again too soon.  A client that is neither
    connected nor connecting, and was last disconnected or tried to connect at
    [t0], does nothing for [_delayConnectTime] milliseconds: [Connect] answers
    [false] without a system call.  After that it tries, with the answer of
    [redisAsyncConnect], and notes the time; if that took no error it is
    connecting.  The time is counted right over the wrap-around of the clock, for
    49 days, unless [t0] is a time whose count is zero, which stands for none. *)
Theorem reconnect_delay strerror inet_addr clock (st : YYRedis) (t0 : Z * Z) :
  _connecting st = false -> _c st = None -> _delayDisconnect st = u32 (millis t0) -> u32 (millis t0) <> 0 ->
  clock_time (clock (yr_ticks st)) -> clock_time (clock (S (yr_ticks st))) ->
  let elapsed := millis (clock (yr_ticks st)) - millis t0 in
  0 <= elapsed < 2 ^ 32 ->
  let r := redis_Connect strerror inet_addr (ticks_of clock) st in
  if elapsed <? _delayConnectTime st then
    exists st', r = Ok (false, st') /\ yr_env st' = yr_env st /\ yr_ctxs st' = yr_ctxs st /\ _delayDisconnect st' = _delayDisconnect st
  else
    match redisAsyncConnect strerror inet_addr (_ip st) (_port st) (e_world (yr_env st)) with
    | Err e => r = Err e
    | Ok (ac, w) => exists st', r = Ok (ac_err ac =? 0, st') /\ e_world (yr_env st') = w /\
        _delayDisconnect st' = u32 (millis (clock (S (yr_ticks st)))) /\ _connecting st' = (ac_err ac =? 0)
    end.
Proof.
  intros Hcon Hc Hd Hnz Ht1 Ht2 elapsed He r. subst r. unfold redis_Connect, busy_connecting, closing_c.
  rewrite Hcon, Hc. cbn [mbind result_bind]. rewrite Hd, (proj2 (Z.eqb_neq _ _)) by done. unfold redis_tick.
  cbn [set_state _delayDisconnect _delayConnectTime]. rewrite ?Hd, ticks_of_millis, u32_elapsed by done. fold elapsed.
  destruct (elapsed <? _delayConnectTime st).
  - eexists. split; [done|]. by rewrite <- Hd.
  - cbn [set_state yr_ticks _ip _port yr_env _c _connecting]. rewrite ticks_of_millis by done.
    destruct (redisAsyncConnect _ _ _ _ _) as [[ac w]|e]; [|done]. cbn [mbind result_bind].
    destruct (ac_err ac =? 0); cbn [negb]; [|by eexists].
    pose proof (connect_callback_world (redisLibeventAttach ac) (e_set_world w (yr_env st))) as Hw.
    destruct (redisAsyncSetConnectCallback _ _ _) as [[? ac'] e']. destruct (redisAsyncSetDisconnectCallback _ _) as [? ac''].
    eexists. split; [done|]. by split_and!.
Qed.

(** A client that was disconnected shortly before the clock wraps around, and asks
    again after. *)
Definition demo_clock (n : nat) : Z * Z := (4294968 + Z.of_nat n, 0).
Definition demo_client : YYRedis :=
  Redis (new_LockQueue new_QueueItem 0) None true false 2000 (u32 (millis (4294966, 500000))) (bytes "127.0.0.1") 6379 ∅ O
    (Env empty_heap (World [] [] 0 0) [] [] []) O O [].

Lemma reconnect_delay_witness :
  exists st', redis_Connect (fun _ => []) (fun _ => 16777343) (ticks_of demo_clock) demo_client = Ok (false, st') /\
    yr_env st' = yr_env demo_client /\ yr_ctxs st' = yr_ctxs demo_client /\ _delayDisconnect st' = _delayDisconnect demo_client.
Proof.
  refine (reconnect_delay (fun _ => []) (fun _ => 16777343) demo_clock demo_client (4294966, 500000) _ _ _ _ _ _ _); try reflexivity.
  - by vm_compute.
  - split; cbn; lia.
  - split; cbn; lia.
  - split; [by vm_compute|reflexivity].
Defined.
